(* ===== verification/_CoqProject ===== *)
-Q . S2P
Prelude.v
Errors.v
GoStrings.v
Encodings.v
Utf8.v
NetIP.v
Url.v
UrlFacts.v
Validate.v
Ipam.v
Netns.v
Model.v
Schema.v
Sha256.v
Mac.v
Json.v
Snapshot.v
Tx.v
Transitions.v
Store.v
Idempotency.v
Refine.v
RecordRefine.v
NetworkService.v
InstanceService.v
ServiceRefine.v
System.v
Replay.v
IdShape.v
ErrorStatus.v
Api.v
ApiSafety.v
Paging.v
EventStream.v
Client.v
Requests.v
Endpoint.v
EniPolicy.v
Programs.v
Kernel.v
Engine.v
EngineSafety.v
EniSafety.v
EngineConverge.v
Credentials.v
Routes.v
Routing.v
Cli.v
Wire.v
CliCreate.v
Queue.v
Controller.v
Reconcile.v
InstanceReconcile.v
RuntimeSafety.v
SweepSafety.v
Progress.v
Converge.v
InstanceConverge.v
VpcConverge.v
Hook.v
Podman.v
PodmanSafety.v
ConsoleOutput.v
Console.v
ConsoleSession.v
Appliance.v
Docker.v
Commands.v
CliResolve.v
CliWait.v
ConsoleCommand.v
Daemon.v
DaemonOrder.v
