(* ===== verification/Prelude.v ===== *)
(** * Nephos: a verification library

    Nephos is a local cloud: a daemon ([cmd/nephosd]) keeps VPCs, subnets and instances in
    an SQLite database, reconcilers drive the Linux network and Podman towards what the
    database declares, an HTTP API and a command-line client ([cmd/nephos]) serve the
    user, a container hook ([cmd/nephos-hook]) plumbs the network of an instance before
    its first process runs, and the whole runs as one Docker container, the appliance.

    This library models that program as executable functions and proves what makes it
    correct.  Paths below are those of the repository under [src/].

    ** How the parts interact

    A request enters through the boundary and the handlers of the API server, which call
    the services; a service validates, then runs one transaction on the store; after the
    commit it hands the identifier to a reconciler's queue.  A reconciler reads a
    snapshot, acts on the engine or the runtime, and records what it observed in another
    transaction that checks the snapshot is not stale.  The single SQLite connection
    serialises transactions, so every interleaving of clients and reconcilers is a
    sequence of them ([System.op]).  The event stream polls the log that the transactions
    append to; the CLI sends requests over a link that may lose them; the hook's handler
    and the console read the same database.

    ** Files, and the code they model

    Language and libraries: [Prelude] (notations, integer widths, tactics), [Errors] (Go
    errors, the [result] monad, rendering), [GoStrings], [Encodings] (hex, base64),
    [Utf8], [NetIP] (net/netip), [Url] and [UrlFacts] (net/url), [Sha256], [Mac] (hardware
    addresses), [Json] (encoding/json), [Programs] (programs over a signature of calls,
    their runs, and a weakest precondition over all replies).

    Domain and services: [Model] ([internal/model]), [Validate] and [Ipam]
    ([internal/service/validate.go], [ids.go], [pagination.go], [ipam.go]), [Snapshot] and
    [Idempotency] ([idempotency.go]), [NetworkService] ([network.go]), [InstanceService]
    ([instance.go]).

    Store: [Schema] (the tables with the constraints of the migrations and one definition
    per query of [internal/store/sqlc]), [Tx] (transactions with rollback and faults),
    [Store] ([internal/store]).

    API: [Api] ([internal/apiserver] and the types of its generated package), [Routes]
    (routes and parameter binding of the generated server on http.ServeMux),
    [EventStream] ([events.go]), [Paging] (keyset pages).

    Reconcilers: [Queue], [Controller], [Reconcile] ([internal/reconcile/controller.go],
    [network.go]), [InstanceReconcile] ([instance.go], [cmd/nephosd/instance_network.go]).

    Network: [Netns] (names) and [Kernel] (operations of [internal/network/netns]),
    [EniPolicy] (markers and source checks of [internal/network/topology]), [Engine] (its
    operations over netlink, nft and file calls).

    Compute: [Podman] ([internal/compute/podman]).

    Clients: [Client] and [Requests] ([pkg/client]: decoding of responses; request
    builders, editors and options, and the configuration of [cmd/nephos]), [Cli] (the
    VPC, subnet and instance commands of [cmd/nephos]), [Commands] (the appliance commands,
    [cmd/nephos/lifecycle.go] and [main.go], and [internal/version]), [Console]
    ([internal/tunnel/console]), [ConsoleSession] ([internal/apiserver/console.go],
    [cmd/nephos/console.go]), [ConsoleCommand] (the command around the session).

    Daemon and appliance: [Daemon] ([cmd/nephosd/main.go], the opening of the store, the
    hook's listener), [Hook] ([internal/hook], [cmd/nephos-hook]), [Credentials]
    ([internal/credentials], [internal/appliance/credential.go]), [Appliance]
    ([internal/appliance/lifecycle.go], [engine.go]), [Docker] ([docker.go]).

    State is passed explicitly: the database is a record of finite maps [DB]; a Go
    function that returns an error becomes a function into [result]; a transaction is a
    function of the database and the fault schedule; a controller, a command of the CLI
    and the appliance's manager are functions of an oracle that answers for everything
    outside them (clocks, entropy, cancellation, engine, runtime, network, other clients).
    Keeping oracles universally quantified makes a theorem hold for all behaviours of the
    code that is not modelled.  The engine, the Podman and Docker clients, the daemon and
    the console command, which mostly call the system, are programs ([Programs.prog]):
    trees of calls that continue with any reply.  Theorems about them speak of all histories
    of calls and replies, and, where a result depends on what the calls do, of a handler
    with the laws of a class ([Router] for the kernel, [toy] showing that it can hold).

    ** What the theorems show

    The durable state.  [Transitions] gives the abstract machine [trans] and its invariant
    [Inv]; [Refine], [RecordRefine], [ServiceRefine] and [System] prove that every
    operation, with any input, clock, entropy and fault, refines it; from the invariant
    follow the disjointness of subnets, the exclusiveness of addresses, that kernel
    indexes are not reused, that deletions wait for dependents, the bounds of generations
    and the append-only log.  A failed operation changes nothing.

    Creation is idempotent: [Replay] (the services) and [CliCreate] (the commands, whose
    retries create at most one resource).

    Reconciliation.  [SweepSafety], [Reconcile] and [RuntimeSafety]: what the reconcilers
    do is safe under any interference: they refine the machine, spare persisted VPCs and
    account for every runtime they create.  [Progress], [Converge], [VpcConverge] and
    [InstanceConverge]: undisturbed, one sweep brings everything to its declared state.
    [Queue] bounds the queue and gives the back-off.

    The interfaces.  [ErrorStatus] and [ApiSafety]: answers are sound, errors have error
    statuses and change nothing, and only local authenticated requests get through.
    [Endpoint] and [Routing]: a request of the client goes to a loopback host with the
    credential and reaches its handler with its parameters.  [EventStream]: no gap and no
    repetition over reconnections, and a connection catches up.  [Wire]: what the server
    writes the client reads.  [IdShape] and [CliResolve]: names on the command line mean
    what they should, over all pages.  [CliWait]: waiting ends and reports only what was
    so.  [Hook]: containers are plumbed and started exactly when they are the recorded
    runtime of a live instance.  [ConsoleSession]: a console session reports only the
    command's own result after all of its output; [ConsoleCommand]: the command leaves
    terminal, connection and outputs as it found them.

    The outside.  [EngineSafety] and [EniSafety]: the engine acts only in what it owns and
    brings an interface up only behind its checks, whatever the kernel answers;
    [EngineConverge]: with a kernel that does what it says, a VPC converges.  [EniPolicy]:
    markers and source checks are exact.  [PodmanSafety] and [ConsoleOutput]: the Podman
    client touches only instances, and splits output exactly.  [Credentials]: tokens are
    private, well formed and never overwritten.  [Appliance], [Docker] and [Commands]: only
    Nephos's own container and volume are touched, with the limits that were asked for.
    [DaemonOrder]: the daemon starts and stops in order.

    Components interact in proofs through interfaces: [Snapshot] (a JSON codec that
    replays), [Wired] (a codec between server and client), [Resource], [Listing] and
    [Watched] (what the client's generic code needs of a resource type and of the API),
    [Creation] (a create request with a key), [Runtime] with [RuntimeLaws] (the oapi-codegen
    runtime that client and server share), [Router] (the kernel), [Signature] (the calls of
    a program).

    ** Bounds and fuel

    Integers are [Z] at the width of the code where it matters ([wrap64], [ParseInt],
    checks of the schema).  Loops that the code bounds by data recurse on the data.
    Parsers take fuel: [parse_value] gets [2 * length + 2], which a value's text always
    suffices for ([size_encode]); [parse_str] and [decode] get the length of the text.
    Page loops ([resolvePages], the sweeps) get one unit per page and the theorems state
    how much is enough ([100 * fuel] above the number of rows).  Polling loops
    ([waitResource], [waitReady]) return [None] only when the fuel runs out, and the
    theorems give the fuel that a deadline makes sufficient; the event stream is a function
    of the list of its polls.  JSON nesting is bounded by 10000 as in encoding/json.  The
    loops of programs that wait for the outside ([Accept], the polling of Podman,
    [readConsoleFile]) return [None] while the waiting goes on, and their theorems hold for
    every fuel; [demux] gets the length of its stream, which is enough for all frames.

    ** Not modelled, and why

    Log lines and their level; signals, deadlines and time limits other than as replies that
    report them.  The libraries the code calls: flag parsing, mime types, terminal modes, the
    websocket protocol, TAR reading (archives are given as entries), database/sql, HTTP
    transport, the Docker client and errdefs; their results are arguments, replies or
    parameters.  The threads that enter namespaces: calls carry the namespace.  Of the
    generated API client, the accessors of response types, whose fields the models read
    directly, and the parsers of health, version, event and console responses, which
    nothing in the repository uses.  The
    platform-specific handles of console output.  The experiments under [spikes/] and the
    fixtures of the tests.  The queue of the instance reconciler, which repeats that of
    [controller.go], is modelled once ([Queue]). *)

From Stdlib Require Export ZArith Lia.
From Stdlib Require Ascii String.

From stdpp Require Export gmap strings list sorting fin_maps.
Export (notations) Stdlib.Strings.Ascii.
Export Stdlib.Strings.Ascii (ascii(..)).

#[export] Set Default Proof Using "Type".
#[global] Arguments String.append : simpl nomatch.

(** ** Scope and notations *)
Declare Scope nephos_scope.
Delimit Scope nephos_scope with nephos.
Open Scope nephos_scope.

(** Decidable equality of Go strings and integers as a boolean test, the
    reading of Go's [==] used in the guards of the models. *)
Definition beq {A} `{EqDecision A} (x y : A) : bool := bool_decide (x = y).
Infix "==?" := beq (at level 70, no associativity) : nephos_scope.
Notation "x !=? y" := (negb (beq x y)) (at level 70, no associativity) : nephos_scope.

(** ** Tactics *)

(** Case split on every [match]/[if] scrutinee of the goal or a hypothesis. *)
Ltac case_goal := case_match; simplify_eq/=; try done.
Ltac case_all := repeat case_match; simplify_eq/=; try done.

(** Turn boolean guards into propositions. *)
Ltac reflect_bools :=
  repeat match goal with
  | H : andb _ _ = true |- _ => apply andb_true_iff in H as [? ?]
  | H : orb _ _ = false |- _ => apply orb_false_iff in H as [? ?]
  | H : negb _ = true |- _ => apply negb_true_iff in H
  | H : negb _ = false |- _ => apply negb_false_iff in H
  | H : beq _ _ = true |- _ => apply bool_decide_eq_true in H
  | H : beq _ _ = false |- _ => apply bool_decide_eq_false in H
  | H : bool_decide _ = true |- _ => apply bool_decide_eq_true in H
  | H : bool_decide _ = false |- _ => apply bool_decide_eq_false in H
  | H : Z.leb _ _ = true |- _ => apply Z.leb_le in H
  | H : Z.leb _ _ = false |- _ => apply Z.leb_gt in H
  | H : Z.ltb _ _ = true |- _ => apply Z.ltb_lt in H
  | H : Z.ltb _ _ = false |- _ => apply Z.ltb_ge in H
  | H : Z.eqb _ _ = true |- _ => apply Z.eqb_eq in H
  | H : Z.eqb _ _ = false |- _ => apply Z.eqb_neq in H
  end.

(** [lia] with division and remainder by constants. *)
Ltac div_lia := Z.to_euclidean_division_equations; lia.

Create HintDb nephos.

Section beq_lemmas.
Context {A : Type} `{EqDecision A}.
Implicit Types x y : A.

Lemma beq_refl x : (x ==? x) = true.
Proof. by apply bool_decide_eq_true. Qed.

Lemma beq_true x y : (x ==? y) = true ↔ x = y.
Proof. apply bool_decide_eq_true. Qed.

Lemma beq_false x y : (x ==? y) = false ↔ x ≠ y.
Proof. apply bool_decide_eq_false. Qed.
End beq_lemmas.

(** ** Machine integers *)

(** Go's [int64] arithmetic wraps around. *)
Definition wrap64 (z : Z) : Z := ((z + 2 ^ 63) mod 2 ^ 64 - 2 ^ 63)%Z.
(** Go's [uint32] arithmetic wraps around. *)
Definition wrapu32 (z : Z) : Z := (z mod 2 ^ 32)%Z.

Lemma wrap64_small z : (- 2 ^ 63 ≤ z < 2 ^ 63)%Z → wrap64 z = z.
Proof. intros. unfold wrap64. rewrite Z.mod_small; lia. Qed.

Lemma wrapu32_small z : (0 ≤ z < 2 ^ 32)%Z → wrapu32 z = z.
Proof. apply Z.mod_small. Qed.

(** A decidable fact about a small integer interval, by evaluation. *)
Lemma by_cases_Z lo n (f : Z → bool) v :
  (lo ≤ v < lo + n)%Z → forallb f (seqZ lo n) = true → f v = true.
Proof.
  intros Hv Hf. rewrite forallb_forall in Hf. apply Hf.
  apply list_elem_of_In, elem_of_seqZ. lia.
Qed.
