(* ===== verification/Errors.v ===== *)
(** Go error values and the [result] monad.

    Models [internal/service/errors.go] and the sentinel and driver errors the
    control plane tells apart with [errors.Is] and [errors.As].  A Go function
    that returns [(T, error)] becomes a function into [result T]. *)

From S2P Require Import Prelude.

(** ** Formatted texts

    [fmt.Sprintf format args] is kept unrendered: the format and the arguments
    (integers already in decimal) determine the text. *)
Record text := Sprintf { t_format : string; t_args : list string }.
#[export] Instance text_eq_dec : EqDecision text.
Proof. solve_decision. Defined.

(** [service.Error] *)
Record Error := MkError {
  Code : string;
  Message : text;
  ResourceID : string;
  Status : Z
}.
#[export] Instance Error_eq_dec : EqDecision Error.
Proof. solve_decision. Defined.

(** SQLite's (extended) result codes that the schema can produce. *)
Inductive sqlite_code :=
  | SQLITE_CONSTRAINT_CHECK
  | SQLITE_CONSTRAINT_PRIMARYKEY
  | SQLITE_CONSTRAINT_UNIQUE
  | SQLITE_CONSTRAINT_FOREIGNKEY
  | SQLITE_FULL.
#[export] Instance sqlite_code_eq_dec : EqDecision sqlite_code.
Proof. solve_decision. Defined.

(** [podman.APIError]: the status and what [Error()] formats from all the fields. *)
Record APIError := MkAPIError { ae_Status : Z; ae_Error : text }.
#[export] Instance APIError_eq_dec : EqDecision APIError.
Proof. solve_decision. Defined.

(** Error values.  [ErrIO] is any failure of the environment (driver, file
    system, cancelled context) with its text; [Errorf] is [fmt.Errorf] without
    [%w], [Wrapf] is [fmt.Errorf] with one verb [%w] that wraps an error and
    [Joinf] is [fmt.Errorf] with two. *)
Inductive error :=
  | ErrNoRows
  | ErrStaleSnapshot
  | errAddressExhausted
  | ErrSQLite (code : sqlite_code)
  | ErrIO (detail : string)
  | ErrService (e : Error)
  | ErrAPI (e : APIError)
  | Errorf (t : text)
  | Wrapf (t : text) (wrapped : error)
  | Joinf (t : text) (first second : error).
#[export] Instance error_eq_dec : EqDecision error.
Proof. solve_decision. Defined.

(** [errors.Is err target] walks the [%w] tree, depth first. *)
Fixpoint errors_Is (e target : error) : bool :=
  (e ==? target) ||
  match e with
  | Wrapf _ e' => errors_Is e' target
  | Joinf _ e1 e2 => errors_Is e1 target || errors_Is e2 target
  | _ => false
  end.

(** [errors.As err &target] for a [*service.Error] and a [*sqlite.Error]. *)
Fixpoint as_Service (e : error) : option Error :=
  match e with
  | ErrService s => Some s
  | Wrapf _ e' => as_Service e'
  | Joinf _ e1 e2 => match as_Service e1 with Some s => Some s | None => as_Service e2 end
  | _ => None
  end.
Fixpoint as_SQLite (e : error) : option sqlite_code :=
  match e with
  | ErrSQLite c => Some c
  | Wrapf _ e' => as_SQLite e'
  | Joinf _ e1 e2 => match as_SQLite e1 with Some c => Some c | None => as_SQLite e2 end
  | _ => None
  end.

(** [errors.As err &target] for a [*podman.APIError]. *)
Fixpoint as_API (e : error) : option APIError :=
  match e with
  | ErrAPI a => Some a
  | Wrapf _ e' => as_API e'
  | Joinf _ e1 e2 => match as_API e1 with Some a => Some a | None => as_API e2 end
  | _ => None
  end.

(** ** Rendering: [err.Error()]

    [%q] is [strconv.Quote]; runes outside ASCII are copied, which differs from
    Go only on code points Go considers non-printable. *)
Definition hex_digit (n : N) : ascii :=
  Ascii.ascii_of_N (if n <? 10 then 48 + n else 87 + n)%N.

Definition quote_byte (c : ascii) : string :=
  let n := Ascii.N_of_ascii c in
  match n with
  | 34%N => "\" +:+ String c ""
  | 92%N => "\\"
  | 7%N => "\a" | 8%N => "\b" | 12%N => "\f" | 10%N => "\n" | 13%N => "\r"
  | 9%N => "\t" | 11%N => "\v"
  | _ => if ((n <? 32) || (n =? 127))%N
         then "\x" +:+ String (hex_digit (n / 16)) (String (hex_digit (n mod 16)) "")
         else String c ""
  end.
Fixpoint quote_body (s : string) : string :=
  match s with
  | EmptyString => ""
  | String c s' => quote_byte c +:+ quote_body s'
  end.
Definition dquote : string := String (Ascii.ascii_of_N 34) "".
Definition Quote (s : string) : string := dquote +:+ quote_body s +:+ dquote.

Fixpoint render (fmt : string) (args wrapped : list string) : string :=
  match fmt with
  | String "%"%char (String "w"%char fmt') =>
      match wrapped with
      | w :: wrapped' => w +:+ render fmt' args wrapped'
      | [] => "%!w(MISSING)" +:+ render fmt' args []
      end
  | String "%"%char (String "q"%char fmt') =>
      match args with
      | a :: args' => Quote a +:+ render fmt' args' wrapped
      | [] => "%!q(MISSING)" +:+ render fmt' [] wrapped
      end
  | String "%"%char (String v fmt') =>
      match args with
      | a :: args' => a +:+ render fmt' args' wrapped
      | [] => "%!" +:+ String v ("(MISSING)" +:+ render fmt' [] wrapped)
      end
  | String c fmt' => String c (render fmt' args wrapped)
  | EmptyString => ""
  end.
Definition text_string (t : text) : string := render (t_format t) (t_args t) [].

(** [(e *Error) Error()]. *)
Definition Error_Error (e : Error) : string :=
  if ResourceID e !=? ""
  then render "%s: %s (%s)" [Code e; text_string (Message e); ResourceID e] []
  else render "%s: %s" [Code e; text_string (Message e)] [].

Definition sqlite_code_text (c : sqlite_code) : string :=
  match c with
  | SQLITE_FULL => "database or disk is full"
  | _ => "constraint failed"
  end.

Fixpoint error_text (e : error) : string :=
  match e with
  | ErrNoRows => "sql: no rows in result set"
  | ErrStaleSnapshot => "desired resource snapshot changed during reconciliation"
  | errAddressExhausted => "subnet has no free private addresses"
  | ErrSQLite c => sqlite_code_text c
  | ErrIO d => d
  | ErrService s => Error_Error s
  | ErrAPI a => text_string (ae_Error a)
  | Errorf t => text_string t
  | Wrapf t e' => render (t_format t) (t_args t) [error_text e']
  | Joinf t e1 e2 => render (t_format t) (t_args t) [error_text e1; error_text e2]
  end.

(** ** The [result] monad *)
Inductive result (A : Type) :=
  | Ok (a : A)
  | Err (e : error).
Arguments Ok {_} _.
Arguments Err {_} _.

#[export] Instance result_ret : MRet result := λ A, Ok.
#[export] Instance result_bind : MBind result := λ A B f r,
  match r with Ok a => f a | Err e => Err e end.
#[export] Instance result_fmap : FMap result := λ A B f r,
  match r with Ok a => Ok (f a) | Err e => Err e end.

#[export] Instance result_eq_dec `{EqDecision A} : EqDecision (result A).
Proof. solve_decision. Defined.

(** [if err != nil { return fmt.Errorf(t, err) }]. *)
Definition wrap_err {A} (t : text) (r : result A) : result A :=
  match r with Ok a => Ok a | Err e => Err (Wrapf t e) end.

Definition of_option {A} (e : error) (o : option A) : result A :=
  match o with Some a => Ok a | None => Err e end.

(** A guard with an early return. *)
Definition require (b : bool) (e : error) : result unit :=
  if b then Ok tt else Err e.

Definition is_Ok {A} (r : result A) : bool :=
  match r with Ok _ => true | Err _ => false end.

(** ** Constructors of [service.Error] used by several files *)
Definition lit (s : string) : text := Sprintf s [].

Definition invalidParameter (message : text) : error :=
  ErrService (MkError "InvalidParameterValue" message "" 400).

(** ** Lemmas *)
Lemma bind_Ok {A B} (f : A → result B) (r : result A) b :
  r ≫= f = Ok b ↔ ∃ a, r = Ok a ∧ f a = Ok b.
Proof. destruct r; simpl; naive_solver. Qed.

Lemma require_Ok b e u : require b e = Ok u ↔ b = true.
Proof. destruct b, u; simpl; naive_solver. Qed.

Lemma wrap_err_Ok {A} t (r : result A) a : wrap_err t r = Ok a ↔ r = Ok a.
Proof. destruct r; simpl; naive_solver. Qed.

Lemma of_option_Ok {A} e (o : option A) a : of_option e o = Ok a ↔ o = Some a.
Proof. destruct o; simpl; naive_solver. Qed.

Lemma as_Service_wrap t e : as_Service (Wrapf t e) = as_Service e.
Proof. done. Qed.

(** Decompose a successful run of a [result] computation. *)
Ltac inv_ok :=
  repeat match goal with
  | H : _ ≫= _ = Ok _ |- _ => apply bind_Ok in H as (? & ? & ?)
  | H : require _ _ = Ok _ |- _ => apply require_Ok in H
  | H : wrap_err _ _ = Ok _ |- _ => apply wrap_err_Ok in H
  | H : of_option _ _ = Ok _ |- _ => apply of_option_Ok in H
  | H : mret _ = Ok _ |- _ => injection H as ?
  | H : Ok _ = Ok _ |- _ => injection H as ?
  | H : Err _ = Ok _ |- _ => discriminate H
  end.
