(* ===== verification/GoStrings.v ===== *)
(** The parts of Go's standard library on strings and bytes that the control
    plane uses: [strings], [strconv], [unicode/utf8], [encoding/hex] and
    [encoding/base64].  A Go string is a [string], read as a sequence of bytes
    ([list Z], each in [0, 256)) where the code looks at bytes. *)

From S2P Require Import Prelude Errors.
Local Open Scope Z_scope.

(** ** Bytes *)
Definition byte_of (c : ascii) : Z := Z.of_N (Ascii.N_of_ascii c).
Definition char_of (b : Z) : ascii := Ascii.ascii_of_N (Z.to_N b).

Fixpoint bytes (s : string) : list Z :=
  match s with
  | EmptyString => []
  | String c s' => byte_of c :: bytes s'
  end.
Fixpoint of_bytes (l : list Z) : string :=
  match l with
  | [] => EmptyString
  | b :: l' => String (char_of b) (of_bytes l')
  end.

Definition is_byte (b : Z) : Prop := 0 ≤ b < 256.

Definition slen (s : string) : Z := Z.of_nat (String.length s).

Lemma byte_of_range c : is_byte (byte_of c).
Proof.
  unfold is_byte, byte_of. pose proof (Ascii.N_ascii_bounded c). lia.
Qed.

Lemma char_of_byte_of c : char_of (byte_of c) = c.
Proof. unfold char_of, byte_of. by rewrite N2Z.id, Ascii.ascii_N_embedding. Qed.

Lemma byte_of_char_of b : is_byte b → byte_of (char_of b) = b.
Proof.
  unfold char_of, byte_of, is_byte. intros.
  rewrite Ascii.N_ascii_embedding by lia. lia.
Qed.

Lemma byte_of_inj c d : byte_of c = byte_of d → c = d.
Proof. intros H. by rewrite <- (char_of_byte_of c), H, char_of_byte_of. Qed.

Lemma of_bytes_bytes s : of_bytes (bytes s) = s.
Proof. induction s; simpl; [done|]. by rewrite char_of_byte_of, IHs. Qed.

Lemma bytes_of_bytes l : Forall is_byte l → bytes (of_bytes l) = l.
Proof. induction 1; simpl; [done|]. by rewrite byte_of_char_of, IHForall. Qed.

Lemma bytes_range s : Forall is_byte (bytes s).
Proof. induction s; constructor; auto using byte_of_range. Qed.

Lemma bytes_app s t : bytes (s +:+ t) = bytes s ++ bytes t.
Proof. induction s; simpl; [done|]. by rewrite IHs. Qed.

Lemma of_bytes_app l k : of_bytes (l ++ k) = of_bytes l +:+ of_bytes k.
Proof. induction l; simpl; [done|]. by rewrite IHl. Qed.

Lemma length_bytes s : length (bytes s) = String.length s.
Proof. induction s; simpl; auto. Qed.

Lemma bytes_inj s t : bytes s = bytes t → s = t.
Proof. intros H. by rewrite <- (of_bytes_bytes s), H, of_bytes_bytes. Qed.

Lemma string_app_assoc (s t u : string) : (s +:+ t) +:+ u = s +:+ t +:+ u.
Proof. induction s; simpl; [done|]. by rewrite IHs. Qed.

Lemma string_app_nil_r s : s +:+ "" = s.
Proof. induction s; simpl; [done|]. by rewrite IHs. Qed.

Lemma length_string_app (s t : string) :
  String.length (s +:+ t) = (String.length s + String.length t)%nat.
Proof. induction s; simpl; auto. Qed.

(** ** [strings] *)
Fixpoint CutPrefix (s prefix : string) : option string :=
  match prefix, s with
  | EmptyString, _ => Some s
  | String c p, String d s' => if c ==? d then CutPrefix s' p else None
  | _, _ => None
  end.
Definition HasPrefix (s prefix : string) : bool := bool_decide (is_Some (CutPrefix s prefix)).
Definition TrimPrefix (s prefix : string) : string := default s (CutPrefix s prefix).

Lemma CutPrefix_Some s p r : CutPrefix s p = Some r ↔ s = p +:+ r.
Proof.
  revert s. induction p as [|c p IH]; intros [|d s]; simpl; try naive_solver.
  destruct (c ==? d) eqn:E; reflect_bools; simplify_eq; naive_solver.
Qed.

Lemma CutPrefix_app p r : CutPrefix (p +:+ r) p = Some r.
Proof. by apply CutPrefix_Some. Qed.

Lemma HasPrefix_spec s p : HasPrefix s p = true ↔ ∃ r, s = p +:+ r.
Proof.
  unfold HasPrefix. rewrite bool_decide_eq_true. split.
  - intros [r ?%CutPrefix_Some]. eauto.
  - intros [r ->]. rewrite CutPrefix_app. eauto.
Qed.

Lemma TrimPrefix_app p r : TrimPrefix (p +:+ r) p = r.
Proof. unfold TrimPrefix. by rewrite CutPrefix_app. Qed.

(** [strings.HasSuffix(s, "-")] *)
Definition last_byte (s : string) : option Z := last (bytes s).
Definition ContainsByte (s : string) (b : Z) : bool := bool_decide (b ∈ bytes s).

(** ** [strconv]: decimal integers *)
Definition is_digit (b : Z) : bool := (48 <=? b) && (b <=? 57).
Definition digit_char (d : Z) : ascii := char_of (48 + d).

(** Most significant digit first; [fuel] bounds the number of digits. *)
Fixpoint format_digits (fuel : nat) (n : Z) (acc : string) : string :=
  match fuel with
  | O => acc
  | S f =>
      let acc' := String (digit_char (n mod 10)) acc in
      if n <? 10 then acc' else format_digits f (n / 10) acc'
  end.
(** [strconv.FormatInt(n, 10)]; 20 digits suffice for [int64] and [uint64]. *)
Definition FormatInt (n : Z) : string :=
  if n <? 0 then "-" +:+ format_digits 20 (- n) "" else format_digits 20 n "".

Fixpoint parse_digits (l : list Z) (acc : Z) : option Z :=
  match l with
  | [] => Some acc
  | b :: l' => if is_digit b then parse_digits l' (acc * 10 + (b - 48)) else None
  end.
(** [strconv.ParseUint(s, 10, bits)] *)
Definition ParseUint (s : string) (bits : Z) : option Z :=
  if s ==? "" then None
  else match parse_digits (bytes s) 0 with
       | Some n => if n <? 2 ^ bits then Some n else None
       | None => None
       end.
(** [strconv.ParseInt(s, 10, 64)] *)
Definition ParseInt (s : string) : option Z :=
  match s with
  | String "-"%char s' =>
      match ParseUint s' 64 with
      | Some n => if n <=? 2 ^ 63 then Some (- n) else None
      | None => None
      end
  | String "+"%char s' | s' =>
      match ParseUint s' 64 with
      | Some n => if n <? 2 ^ 63 then Some n else None
      | None => None
      end
  end.

Lemma digit_byte d : 0 ≤ d < 10 → byte_of (digit_char d) = 48 + d.
Proof. intros. apply byte_of_char_of. unfold is_byte. lia. Qed.

Lemma is_digit_digit d : 0 ≤ d < 10 → is_digit (48 + d) = true.
Proof. intros. unfold is_digit. apply andb_true_iff. lia. Qed.

Lemma parse_format_digits fuel n acc v :
  0 ≤ n < 10 ^ Z.of_nat fuel →
  ∃ k, parse_digits (bytes (format_digits fuel n acc)) v
       = parse_digits (bytes acc) (v * 10 ^ Z.of_nat k + n).
Proof.
  revert n acc v. induction fuel as [|f IH]; intros n acc v Hn.
  - exists O. simpl. f_equal. lia.
  - cbn [format_digits].
    pose proof (Z.mod_pos_bound n 10 ltac:(lia)) as Hm.
    pose proof (Z.div_mod n 10 ltac:(lia)) as Hdm.
    destruct (n <? 10) eqn:E; reflect_bools.
    + exists 1%nat. rewrite Z.mod_small by lia. cbn [bytes parse_digits].
      rewrite digit_byte, is_digit_digit by lia. f_equal. lia.
    + destruct (IH (n / 10) (String (digit_char (n mod 10)) acc) v) as [k Hk].
      { split; [apply Z.div_pos; lia|].
        rewrite Nat2Z.inj_succ, Z.pow_succ_r in Hn by lia.
        apply Z.div_lt_upper_bound; lia. }
      exists (S k). rewrite Hk. cbn [bytes parse_digits].
      rewrite digit_byte, is_digit_digit by lia.
      f_equal. rewrite Nat2Z.inj_succ, Z.pow_succ_r by lia. lia.
Qed.

Lemma format_digits_nonempty fuel n acc :
  fuel ≠ O → ∃ c s, format_digits fuel n acc = String c s ∧
    (∀ b, n ≤ b → 0 ≤ n → is_digit (byte_of c) = true).
Proof.
  revert n acc. induction fuel as [|f IH]; intros n acc Hf; [done|].
  cbn [format_digits]. destruct (n <? 10) eqn:E.
  - eexists _, _. split; [done|]. intros _ _ Hn. reflect_bools.
    rewrite Z.mod_small by lia. rewrite digit_byte by lia. apply is_digit_digit. lia.
  - reflect_bools. destruct f as [|f]; [simpl|].
    + eexists _, _. split; [done|]. intros. rewrite digit_byte, is_digit_digit; auto;
      apply Z.mod_pos_bound; lia.
    + destruct (IH (n / 10) (String (digit_char (n mod 10)) acc)) as (c & s & -> & Hc); [done|].
      eexists _, _. split; [done|]. intros b Hb Hn. eapply (Hc (n / 10)); [lia|].
      apply Z.div_pos; lia.
Qed.

Lemma ParseUint_format n bits :
  0 ≤ n < 2 ^ 64 → n < 2 ^ bits → ParseUint (format_digits 20 n "") bits = Some n.
Proof.
  intros Hn Hb. unfold ParseUint.
  destruct (format_digits_nonempty 20 n "") as (c & s & Hcs & _); [done|].
  destruct (parse_format_digits 20 n "" 0) as [k Hk]; [lia|].
  destruct (_ ==? _) eqn:E; reflect_bools; [congruence|].
  rewrite Hk. cbn [bytes parse_digits]. rewrite Z.mul_0_l, Z.add_0_l.
  by rewrite (proj2 (Z.ltb_lt _ _) Hb).
Qed.

(** Printing an [int64] and parsing it back gives the same integer. *)
Lemma ParseInt_FormatInt n : - 2 ^ 63 ≤ n < 2 ^ 63 → ParseInt (FormatInt n) = Some n.
Proof.
  intros Hn. unfold FormatInt. destruct (n <? 0) eqn:E; reflect_bools.
  - change ("-" +:+ ?s) with (String "-"%char s). unfold ParseInt.
    rewrite ParseUint_format by lia.
    rewrite (proj2 (Z.leb_le _ _)) by lia. f_equal. lia.
  - destruct (format_digits_nonempty 20 n "") as (c & s & Hcs & Hc); [done|].
    specialize (Hc n ltac:(lia) ltac:(lia)).
    pose proof (ParseUint_format n 64 ltac:(lia) ltac:(lia)) as Hp.
    rewrite Hcs in Hp |- *.
    assert (∀ d, byte_of c = d → is_digit d = true) by (intros ? <-; done).
    unfold ParseInt.
    destruct c as [[] [] [] [] [] [] [] []]; try discriminate Hc;
      rewrite Hp; rewrite (proj2 (Z.ltb_lt _ _)) by lia; done.
Qed.

Lemma FormatInt_inj n m :
  - 2 ^ 63 ≤ n < 2 ^ 63 → - 2 ^ 63 ≤ m < 2 ^ 63 → FormatInt n = FormatInt m → n = m.
Proof.
  intros Hn Hm H. apply ParseInt_FormatInt in Hn, Hm. congruence.
Qed.
