(* ===== verification/Encodings.v ===== *)
(** [encoding/hex], [encoding/base64] (the unpadded URL alphabet) and
    [unicode/utf8] as the control plane uses them, with their round trips. *)

From S2P Require Import Prelude Errors GoStrings.
Local Open Scope Z_scope.

(** ** [encoding/hex] *)
Definition hexchar (d : Z) : Z := if d <? 10 then 48 + d else 87 + d.
Definition is_hex_lower (b : Z) : bool :=
  is_digit b || ((97 <=? b) && (b <=? 102)).
Fixpoint hex_bytes (l : list Z) : list Z :=
  match l with
  | [] => []
  | b :: l' => hexchar (b / 16) :: hexchar (b mod 16) :: hex_bytes l'
  end.
Definition hex_EncodeToString (l : list Z) : string := of_bytes (hex_bytes l).

Lemma hexchar_lower d : 0 ≤ d < 16 → is_hex_lower (hexchar d) = true.
Proof.
  intros. unfold is_hex_lower, hexchar, is_digit.
  destruct (d <? 10) eqn:E; reflect_bools; apply orb_true_iff;
    [left|right]; apply andb_true_iff; lia.
Qed.

Lemma is_hex_lower_byte b : is_hex_lower b = true → is_byte b.
Proof.
  unfold is_hex_lower, is_digit, is_byte. intros [?|?]%orb_true_iff; reflect_bools; lia.
Qed.

Lemma hexchar_inj a b : 0 ≤ a < 16 → 0 ≤ b < 16 → hexchar a = hexchar b → a = b.
Proof.
  unfold hexchar. intros ??. destruct (a <? 10) eqn:?, (b <? 10) eqn:?; reflect_bools; lia.
Qed.

Lemma nibbles b : is_byte b → 0 ≤ b / 16 < 16 ∧ 0 ≤ b mod 16 < 16.
Proof.
  unfold is_byte. intros. split; [|apply Z.mod_pos_bound; lia].
  split; [apply Z.div_pos; lia|apply Z.div_lt_upper_bound; lia].
Qed.

Lemma hex_bytes_lower l :
  Forall is_byte l → Forall (λ b, is_hex_lower b = true) (hex_bytes l).
Proof.
  induction 1 as [|b l Hb _ IH]; simpl; [done|].
  destruct (nibbles b Hb). repeat constructor; auto using hexchar_lower.
Qed.

Lemma length_hex_bytes l : length (hex_bytes l) = (2 * length l)%nat.
Proof. induction l; simpl; [done|]. rewrite IHl. lia. Qed.

Lemma hex_bytes_inj l k :
  Forall is_byte l → Forall is_byte k → hex_bytes l = hex_bytes k → l = k.
Proof.
  intros Hl. revert k. induction Hl as [|a l Ha _ IH]; intros [|b k] Hk; simpl; try done.
  inversion_clear Hk as [|?? Hb Hk']. intros [= H1 H2 H3].
  destruct (nibbles a Ha), (nibbles b Hb).
  apply hexchar_inj in H1, H2; try lia. f_equal; auto.
  rewrite (Z.div_mod a 16), (Z.div_mod b 16) by lia. lia.
Qed.

(** ** [base64.RawURLEncoding] *)
Definition b64char (v : Z) : Z :=
  if v <? 26 then 65 + v
  else if v <? 52 then 71 + v
  else if v <? 62 then v - 4
  else if v =? 62 then 45
  else 95.
Definition b64value (b : Z) : option Z :=
  if (65 <=? b) && (b <=? 90) then Some (b - 65)
  else if (97 <=? b) && (b <=? 122) then Some (b - 71)
  else if (48 <=? b) && (b <=? 57) then Some (b + 4)
  else if b =? 45 then Some 62
  else if b =? 95 then Some 63
  else None.

Fixpoint b64_sextets (l : list Z) : list Z :=
  match l with
  | a :: b :: c :: l' =>
      a / 4 :: (a mod 4) * 16 + b / 16 :: (b mod 16) * 4 + c / 64 :: c mod 64
      :: b64_sextets l'
  | [a; b] => [a / 4; (a mod 4) * 16 + b / 16; (b mod 16) * 4]
  | [a] => [a / 4; (a mod 4) * 16]
  | [] => []
  end.
(** The decoder does not check that unused trailing bits are zero (Go's
    non-strict mode) and rejects a dangling single sextet. *)
Fixpoint b64_octets (l : list Z) : option (list Z) :=
  match l with
  | p :: q :: r :: s :: l' =>
      rest ← b64_octets l';
      Some (p * 4 + q / 16 :: (q mod 16) * 16 + r / 4 :: (r mod 4) * 64 + s :: rest)
  | [p; q; r] => Some [p * 4 + q / 16; (q mod 16) * 16 + r / 4]
  | [p; q] => Some [p * 4 + q / 16]
  | [_] => None
  | [] => Some []
  end.

Definition b64_EncodeToString (l : list Z) : string :=
  of_bytes (b64char <$> b64_sextets l).
(** Line breaks are skipped, any other foreign byte is an error. *)
Definition b64_DecodeString (s : string) : option (list Z) :=
  mapM b64value (filter (λ b, b ≠ 10 ∧ b ≠ 13) (bytes s)) ≫= b64_octets.

Definition sextet (v : Z) : Prop := 0 ≤ v < 64.

Lemma b64value_char v : sextet v → b64value (b64char v) = Some v.
Proof.
  intros Hv. apply beq_true.
  by apply (by_cases_Z 0 64 (λ v, b64value (b64char v) ==? Some v)).
Qed.

Lemma b64char_range v : sextet v → 45 ≤ b64char v < 123.
Proof.
  unfold sextet, b64char. intros.
  repeat match goal with
  | |- context [if ?b then _ else _] => destruct b eqn:?
  end; reflect_bools; lia.
Qed.

(** Split a byte at a power of two, for the arithmetic of the 3/4 packing. *)
Lemma split_byte k a :
  (k = 4 ∨ k = 16 ∨ k = 64) → is_byte a →
  0 ≤ a < 256 ∧ 0 ≤ a / k ∧ 0 ≤ a mod k < k ∧ a = k * (a / k) + a mod k.
Proof.
  unfold is_byte. intros [->|[->| ->]] Ha; div_lia.
Qed.

Ltac split_bytes :=
  repeat match goal with
  | H : is_byte ?a |- _ =>
      pose proof (split_byte 4 a ltac:(lia) H); pose proof (split_byte 16 a ltac:(lia) H);
      pose proof (split_byte 64 a ltac:(lia) H); clear H
  end; repeat match goal with H : _ ∧ _ |- _ => destruct H end.

Lemma div_join q r k : 0 ≤ r < k → (q * k + r) / k = q.
Proof. intros. rewrite Z.div_add_l by lia. rewrite Z.div_small by lia. lia. Qed.
Lemma mod_join q r k : 0 ≤ r < k → (q * k + r) mod k = r.
Proof. intros. rewrite Z.add_comm, Z.mod_add by lia. by apply Z.mod_small. Qed.

(** Induction on a list three elements at a time. *)
Lemma list_ind3 {A} (P : list A → Prop) :
  P [] → (∀ a, P [a]) → (∀ a b, P [a; b]) →
  (∀ a b c l, P l → P (a :: b :: c :: l)) → ∀ l, P l.
Proof.
  intros H0 H1 H2 H3. fix IH 1. intros [|a [|b [|c l]]]; [done..|apply H3, IH].
Qed.

Lemma b64_sextets_range l : Forall is_byte l → Forall sextet (b64_sextets l).
Proof.
  induction l as [|a|a b|a b c l IH] using list_ind3; intros Hl; cbn [b64_sextets].
  - constructor.
  - rewrite Forall_singleton in Hl. unfold sextet. split_bytes.
    repeat apply Forall_cons_2; try apply Forall_nil_2; lia.
  - rewrite !Forall_cons in Hl. destruct Hl as (? & ? & _).
    unfold sextet. split_bytes.
    repeat apply Forall_cons_2; try apply Forall_nil_2; lia.
  - rewrite !Forall_cons in Hl. destruct Hl as (? & ? & ? & Hl). specialize (IH Hl).
    repeat apply Forall_cons_2; [..|exact IH]; unfold sextet; split_bytes; lia.
Qed.

Lemma b64_octets_sextets l : Forall is_byte l → b64_octets (b64_sextets l) = Some l.
Proof.
  induction l as [|a|a b|a b c l IH] using list_ind3; intros Hl; cbn [b64_sextets b64_octets].
  - done.
  - rewrite Forall_singleton in Hl. split_bytes. rewrite Z.div_mul by lia.
    repeat f_equal. lia.
  - rewrite !Forall_cons in Hl. destruct Hl as (? & ? & _). split_bytes.
    rewrite div_join, mod_join, Z.div_mul by lia. repeat f_equal; lia.
  - rewrite !Forall_cons in Hl. destruct Hl as (? & ? & ? & Hl). rewrite (IH Hl).
    simpl. split_bytes. rewrite !div_join, !mod_join by lia. repeat f_equal; lia.
Qed.

Lemma mapM_b64value l : Forall sextet l → mapM b64value (b64char <$> l) = Some l.
Proof.
  intros Hl. apply mapM_fmap_Forall_Some.
  eapply Forall_impl; [exact Hl|]. apply b64value_char.
Qed.

Lemma b64char_kept l :
  Forall sextet l → filter (λ b, b ≠ 10 ∧ b ≠ 13) (b64char <$> l) = b64char <$> l.
Proof.
  induction 1 as [|v l Hv _ IH]; [done|]. csimpl.
  apply b64char_range in Hv. rewrite filter_cons_True by lia. by rewrite IH.
Qed.

(** Decoding an encoded byte string returns the bytes. *)
Lemma b64_Decode_Encode l :
  Forall is_byte l → b64_DecodeString (b64_EncodeToString l) = Some l.
Proof.
  intros Hl. unfold b64_DecodeString, b64_EncodeToString.
  pose proof (b64_sextets_range l Hl) as Hs.
  rewrite bytes_of_bytes.
  - rewrite b64char_kept, mapM_b64value by done. by apply b64_octets_sextets.
  - apply Forall_fmap. eapply Forall_impl; [done|].
    intros v Hv%b64char_range. unfold compose, is_byte. lia.
Qed.

Lemma b64_Encode_nonempty b l : b64_EncodeToString (b :: l) ≠ "".
Proof. by destruct l as [|c [|d l]]. Qed.
