(* ===== verification/Utf8.v ===== *)
(** [unicode/utf8], [unicode.IsControl], [unicode.IsSpace] and
    [strings.TrimSpace].

    [decode] is Go's [for _, r := range s]: a well-formed sequence yields its
    code point, any other byte yields [RuneError] with width one.  Each rune
    keeps the bytes it was decoded from, so a trimmed string is the
    concatenation of the bytes of the runes that remain. *)

From S2P Require Import Prelude Errors GoStrings.
Local Open Scope Z_scope.

Record rune := MkRune { r_code : Z; r_bytes : list Z; r_valid : bool }.

Definition RuneError (b : Z) : rune := MkRune 65533 [b] false.

Definition between (lo hi b : Z) : bool := (lo <=? b) && (b <=? hi).
Definition is_cont : Z → bool := between 128 191.

(** Go's [first] and [acceptRanges] tables: the width of a sequence and the
    range of its second byte, by leading byte. *)
Definition lead (b : Z) : option (Z * Z * Z) :=
  if between 194 223 b then Some (2, 128, 191)
  else if b =? 224 then Some (3, 160, 191)
  else if between 225 236 b || between 238 239 b then Some (3, 128, 191)
  else if b =? 237 then Some (3, 128, 159)
  else if b =? 240 then Some (4, 144, 191)
  else if between 241 243 b then Some (4, 128, 191)
  else if b =? 244 then Some (4, 128, 143)
  else None.

(** [utf8.DecodeRune] on a non-empty input: the rune and what follows it. *)
Definition decode_rune (b0 : Z) (l : list Z) : rune * list Z :=
  if b0 <? 128 then (MkRune b0 [b0] true, l)
  else match lead b0, l with
  | Some (2, lo, hi), b1 :: l' =>
      if between lo hi b1
      then (MkRune ((b0 - 192) * 64 + (b1 - 128)) [b0; b1] true, l')
      else (RuneError b0, l)
  | Some (3, lo, hi), b1 :: b2 :: l' =>
      if between lo hi b1 && is_cont b2
      then (MkRune ((b0 - 224) * 4096 + (b1 - 128) * 64 + (b2 - 128)) [b0; b1; b2] true, l')
      else (RuneError b0, l)
  | Some (4, lo, hi), b1 :: b2 :: b3 :: l' =>
      if between lo hi b1 && is_cont b2 && is_cont b3
      then (MkRune ((b0 - 240) * 262144 + (b1 - 128) * 4096 + (b2 - 128) * 64 + (b3 - 128))
              [b0; b1; b2; b3] true, l')
      else (RuneError b0, l)
  | _, _ => (RuneError b0, l)
  end.

(** [fuel] is the number of bytes, which bounds the number of runes. *)
Fixpoint decode_fuel (fuel : nat) (l : list Z) : list rune :=
  match fuel, l with
  | S f, b0 :: l' => let '(r, rest) := decode_rune b0 l' in r :: decode_fuel f rest
  | _, _ => []
  end.
Definition decode (l : list Z) : list rune := decode_fuel (length l) l.

Definition ValidString (s : string) : bool := forallb r_valid (decode (bytes s)).
Definition RuneCountInString (s : string) : Z := Z.of_nat (length (decode (bytes s))).
Definition range_runes (s : string) : list Z := r_code <$> decode (bytes s).

(** [unicode.IsControl]: the code points of category Cc. *)
Definition IsControl (r : Z) : bool := between 0 31 r || between 127 159 r.
(** [unicode.IsSpace]: the property White_Space. *)
Definition IsSpace (r : Z) : bool :=
  between 9 13 r || (r =? 32) || (r =? 133) || (r =? 160) || (r =? 5760) ||
  between 8192 8202 r || (r =? 8232) || (r =? 8233) || (r =? 8239) || (r =? 8287) ||
  (r =? 12288).

Fixpoint drop_spaces (rs : list rune) : list rune :=
  match rs with
  | r :: rs' => if IsSpace (r_code r) then drop_spaces rs' else rs
  | [] => []
  end.
Definition trim_runes (rs : list rune) : list rune :=
  reverse (drop_spaces (reverse (drop_spaces rs))).
Fixpoint runes_bytes (rs : list rune) : list Z :=
  match rs with
  | r :: rs' => r_bytes r ++ runes_bytes rs'
  | [] => []
  end.
(** [strings.TrimSpace] on a well-formed string. *)
Definition TrimSpace (s : string) : string :=
  of_bytes (runes_bytes (trim_runes (decode (bytes s)))).

(** ** Lemmas *)

Lemma decode_rune_bytes b0 l r rest :
  decode_rune b0 l = (r, rest) → b0 :: l = r_bytes r ++ rest.
Proof. unfold decode_rune. intros. case_all. Qed.

Lemma decode_rune_nonempty b0 l r rest :
  decode_rune b0 l = (r, rest) → r_bytes r ≠ [].
Proof. unfold decode_rune. intros. case_all. Qed.

Lemma decode_rune_shorter b0 l r rest :
  decode_rune b0 l = (r, rest) → (length rest ≤ length l)%nat.
Proof.
  intros H. pose proof (decode_rune_nonempty _ _ _ _ H).
  apply decode_rune_bytes, (f_equal length) in H. rewrite length_app in H. simpl in H.
  destruct (r_bytes r); simpl in *; [done|lia].
Qed.

(** A well-formed rune is decoded the same whatever follows its bytes. *)
Lemma decode_rune_stable b0 l r rest k :
  decode_rune b0 l = (r, rest) → r_valid r = true →
  ∃ b l0, r_bytes r = b :: l0 ∧ decode_rune b (l0 ++ k) = (r, k).
Proof.
  unfold decode_rune. intros H Hv.
  repeat (case_match; simplify_eq/=; try discriminate);
    eexists _, _; (split; [reflexivity|]); simpl;
    repeat match goal with E : ?b = _ |- context [?b] => rewrite E; simpl end; reflexivity.
Qed.

Lemma lead_spec b0 w lo hi :
  lead b0 = Some (w, lo, hi) →
  (w = 2 ∧ 194 ≤ b0 ≤ 223 ∧ lo = 128 ∧ hi = 191) ∨
  (w = 3 ∧ 224 ≤ b0 ≤ 239 ∧ 128 ≤ lo ∧ hi ≤ 191 ∧ (b0 = 224 → lo = 160)) ∨
  (w = 4 ∧ 240 ≤ b0 ≤ 244 ∧ 128 ≤ lo ∧ hi ≤ 191 ∧ (b0 = 240 → lo = 144)).
Proof.
  unfold lead, between. intros H.
  repeat (case_match; [simplify_eq; rewrite ?orb_true_iff in *; reflect_bools; lia|]); done.
Qed.

(** The four shapes of a well-formed sequence. *)
Lemma decode_rune_shape b0 l r rest :
  decode_rune b0 l = (r, rest) → r_valid r = true →
  (b0 < 128 ∧ r = MkRune b0 [b0] true ∧ rest = l) ∨
  (∃ b1, 194 ≤ b0 ≤ 223 ∧ 128 ≤ b1 ≤ 191 ∧
     r = MkRune ((b0 - 192) * 64 + (b1 - 128)) [b0; b1] true) ∨
  (∃ b1 b2, 224 ≤ b0 ≤ 239 ∧ 128 ≤ b1 ≤ 191 ∧ (b0 = 224 → 160 ≤ b1) ∧ 128 ≤ b2 ≤ 191 ∧
     r = MkRune ((b0 - 224) * 4096 + (b1 - 128) * 64 + (b2 - 128)) [b0; b1; b2] true) ∨
  (∃ b1 b2 b3, 240 ≤ b0 ≤ 244 ∧ 128 ≤ b1 ≤ 191 ∧ (b0 = 240 → 144 ≤ b1) ∧ 128 ≤ b2 ≤ 191 ∧
     128 ≤ b3 ≤ 191 ∧
     r = MkRune ((b0 - 240) * 262144 + (b1 - 128) * 4096 + (b2 - 128) * 64 + (b3 - 128))
           [b0; b1; b2; b3] true).
Proof.
  unfold decode_rune. intros H Hv. destruct (b0 <? 128) eqn:E; reflect_bools.
  { left. by simplify_eq. }
  right. destruct (lead b0) as [[[w lo] hi]|] eqn:Hl; [|by simplify_eq].
  apply lead_spec in Hl as [(-> & ? & -> & ->)|[(-> & ? & ? & ? & ?)|(-> & ? & ? & ? & ?)]].
  - left. destruct l as [|b1 l]; [by simplify_eq|].
    destruct (between _ _ _) eqn:Hb; simplify_eq/=; unfold between in Hb; reflect_bools; eauto.
  - right; left. destruct l as [|b1 [|b2 l]]; [by simplify_eq..|].
    destruct (_ && _) eqn:Hb; simplify_eq/=; unfold is_cont, between in Hb; reflect_bools.
    exists b1, b2. split_and!; auto; lia.
  - right; right. destruct l as [|b1 [|b2 [|b3 l]]]; [by simplify_eq..|].
    destruct (_ && _) eqn:Hb; simplify_eq/=; unfold is_cont, between in Hb; reflect_bools.
    exists b1, b2, b3. split_and!; auto; lia.
Qed.

Lemma decode_fuel_enough f1 f2 l :
  (length l ≤ f1)%nat → (length l ≤ f2)%nat → decode_fuel f1 l = decode_fuel f2 l.
Proof.
  revert f2 l. induction f1 as [|f1 IH]; intros [|f2] [|b0 l] H1 H2; simpl in *; try lia; [done..|].
  destruct (decode_rune b0 l) as [r rest] eqn:E.
  apply decode_rune_shorter in E. f_equal. apply IH; lia.
Qed.

Lemma decode_cons b0 l :
  decode (b0 :: l) = let '(r, rest) := decode_rune b0 l in r :: decode rest.
Proof.
  unfold decode. simpl. destruct (decode_rune b0 l) as [r rest] eqn:E.
  apply decode_rune_shorter in E. f_equal. by apply decode_fuel_enough.
Qed.

(** Induction following the decoder, rune by rune. *)
Lemma decode_ind (P : list Z → Prop) :
  P [] → (∀ b0 l r rest, decode_rune b0 l = (r, rest) → P rest → P (b0 :: l)) → ∀ l, P l.
Proof.
  intros H0 Hc l. remember (length l) as n eqn:Hn. revert l Hn.
  induction n as [n IH] using lt_wf_ind. intros [|b0 l] ->; [done|].
  destruct (decode_rune b0 l) as [r rest] eqn:E.
  eapply Hc; [done|]. eapply IH; [|done]. apply decode_rune_shorter in E. simpl. lia.
Qed.

Lemma decode_bytes l : runes_bytes (decode l) = l.
Proof.
  induction l as [|b0 l r rest E IH] using decode_ind; [done|].
  rewrite decode_cons, E. simpl. rewrite IH.
  symmetry. by eapply decode_rune_bytes.
Qed.

Definition stable (r : rune) : Prop := ∀ k, decode (r_bytes r ++ k) = r :: decode k.

Lemma decode_stable l :
  forallb r_valid (decode l) = true → Forall stable (decode l).
Proof.
  induction l as [|b0 l r rest E IH] using decode_ind; [constructor|].
  rewrite decode_cons, E. simpl. intros [Hr Hrest]%andb_true_iff. constructor; [|auto].
  intros k. destruct (decode_rune_stable _ _ _ _ k E Hr) as (b & l0 & -> & H).
  simpl. by rewrite decode_cons, H.
Qed.

Lemma decode_runes_bytes rs : Forall stable rs → decode (runes_bytes rs) = rs.
Proof.
  induction 1 as [|r rs Hr _ IH]; [done|].
  simpl. by rewrite Hr, IH.
Qed.

Lemma drop_spaces_suffix rs : ∃ k, rs = k ++ drop_spaces rs.
Proof.
  induction rs as [|r rs [k IH]]; [by exists []|]. simpl.
  case_match; [|by exists []]. exists (r :: k). simpl. by f_equal.
Qed.

Lemma trim_runes_infix rs : ∃ k1 k2, rs = k1 ++ trim_runes rs ++ k2.
Proof.
  unfold trim_runes. destruct (drop_spaces_suffix rs) as [k1 H1].
  destruct (drop_spaces_suffix (reverse (drop_spaces rs))) as [k2 H2].
  exists k1, (reverse k2). rewrite H1 at 1. f_equal.
  apply (f_equal reverse) in H2. by rewrite reverse_involutive, reverse_app in H2.
Qed.

Lemma trim_runes_Forall (P : rune → Prop) rs : Forall P rs → Forall P (trim_runes rs).
Proof.
  destruct (trim_runes_infix rs) as (k1 & k2 & H). rewrite H at 1.
  by rewrite !Forall_app; intros (? & ? & ?).
Qed.

Lemma decode_byte_range l : Forall is_byte l → Forall (λ r, Forall is_byte (r_bytes r)) (decode l).
Proof.
  induction l as [|b0 l r rest E IH] using decode_ind; [constructor|].
  rewrite decode_cons, E. apply decode_rune_bytes in E. rewrite E.
  intros [? ?]%Forall_app. constructor; auto.
Qed.

Lemma runes_bytes_range rs :
  Forall (λ r, Forall is_byte (r_bytes r)) rs → Forall is_byte (runes_bytes rs).
Proof. induction 1; simpl; [done|]. by apply Forall_app. Qed.

(** The runes of a trimmed well-formed string are its trimmed runes. *)
Lemma decode_TrimSpace s :
  ValidString s = true →
  decode (bytes (TrimSpace s)) = trim_runes (decode (bytes s)).
Proof.
  intros Hv. unfold TrimSpace. rewrite bytes_of_bytes.
  - by apply decode_runes_bytes, trim_runes_Forall, decode_stable.
  - apply runes_bytes_range, trim_runes_Forall, decode_byte_range, bytes_range.
Qed.

Lemma ValidString_TrimSpace s : ValidString s = true → ValidString (TrimSpace s) = true.
Proof.
  intros Hv. unfold ValidString. rewrite decode_TrimSpace by done.
  apply Is_true_true, forallb_True, trim_runes_Forall, forallb_True.
  by apply Is_true_true.
Qed.

Lemma drop_spaces_idemp rs : drop_spaces (drop_spaces rs) = drop_spaces rs.
Proof.
  induction rs as [|r rs IH]; [done|]. simpl.
  destruct (IsSpace _) eqn:E; [done|]. simpl. by rewrite E.
Qed.

Lemma drop_spaces_head rs r k : drop_spaces rs = r :: k → IsSpace (r_code r) = false.
Proof. induction rs as [|r' rs IH]; simpl; [done|]. case_match; naive_solver. Qed.

Lemma drop_spaces_snoc rs r :
  IsSpace (r_code r) = false → drop_spaces (rs ++ [r]) = drop_spaces rs ++ [r].
Proof.
  intros Hr. induction rs as [|r' rs IH]; simpl; [by rewrite Hr|]. by case_match.
Qed.

Lemma trim_runes_idemp rs : trim_runes (trim_runes rs) = trim_runes rs.
Proof.
  unfold trim_runes at 2 3. destruct (drop_spaces rs) as [|r k] eqn:E; [done|].
  apply drop_spaces_head in E. rewrite reverse_cons, drop_spaces_snoc, reverse_app by done.
  simpl. unfold trim_runes. simpl. rewrite E, reverse_cons, reverse_involutive.
  rewrite drop_spaces_snoc, drop_spaces_idemp, reverse_app by done. done.
Qed.

Lemma TrimSpace_idemp s : ValidString s = true → TrimSpace (TrimSpace s) = TrimSpace s.
Proof.
  intros Hv. unfold TrimSpace at 1. rewrite decode_TrimSpace by done.
  by rewrite trim_runes_idemp.
Qed.
