(* ===== verification/NetIP.v ===== *)
(** [net/netip]: addresses, prefixes, their text forms and range arithmetic.

    An IPv4 address is its 32-bit value; an IPv6 address its 128-bit value and
    zone.  [Addr{}] is [AddrZero] and an invalid prefix has [Bits] [-1]. *)

From S2P Require Import Prelude Errors GoStrings.
Local Open Scope Z_scope.

Inductive Addr :=
  | AddrZero
  | Addr4 (v : Z)
  | Addr6 (v : Z) (zone : string).
#[export] Instance Addr_eq_dec : EqDecision Addr.
Proof. solve_decision. Defined.
#[export] Instance Addr_countable : Countable Addr.
Proof.
  refine (inj_countable'
    (λ a, match a with AddrZero => inl tt | Addr4 v => inr (inl v) | Addr6 v z => inr (inr (v, z)) end)
    (λ x, match x with inl _ => AddrZero | inr (inl v) => Addr4 v | inr (inr (v, z)) => Addr6 v z end) _).
  by intros [].
Defined.

Record Prefix := MkPrefix { p_ip : Addr; p_bits : Z }.
#[export] Instance Prefix_eq_dec : EqDecision Prefix.
Proof. solve_decision. Defined.

Definition PrefixZero : Prefix := MkPrefix AddrZero (-1).

(** ** Accessors and arithmetic *)
Definition Is4 (a : Addr) : bool := match a with Addr4 _ => true | _ => false end.
Definition Is6 (a : Addr) : bool := match a with Addr6 _ _ => true | _ => false end.
Definition BitLen (a : Addr) : Z :=
  match a with AddrZero => 0 | Addr4 _ => 32 | Addr6 _ _ => 128 end.

(** [Addr.Next]: the zero address after the last one of the family. *)
Definition Next (a : Addr) : Addr :=
  match a with
  | AddrZero => AddrZero
  | Addr4 v => if v + 1 =? 2 ^ 32 then AddrZero else Addr4 (v + 1)
  | Addr6 v z => if v + 1 =? 2 ^ 128 then AddrZero else Addr6 (v + 1) z
  end.

(** [Addr.Compare]: by bit length, then by value, then by zone. *)
Definition Compare (a b : Addr) : Z :=
  match Z.compare (BitLen a) (BitLen b) with
  | Lt => -1
  | Gt => 1
  | Eq =>
      match a, b with
      | Addr4 v, Addr4 w => match v ?= w with Lt => -1 | Gt => 1 | Eq => 0 end
      | Addr6 v y, Addr6 w z =>
          match v ?= w with
          | Lt => -1
          | Gt => 1
          | Eq => match String.compare y z with Lt => -1 | Gt => 1 | Eq => 0 end
          end
      | _, _ => 0
      end
  end.

Definition PrefixFrom (ip : Addr) (bits : Z) : Prefix :=
  match ip with
  | AddrZero => MkPrefix AddrZero (-1)
  | Addr6 v _ => MkPrefix (Addr6 v "") (if (0 <=? bits) && (bits <=? 128) then bits else -1)
  | Addr4 v => MkPrefix (Addr4 v) (if (0 <=? bits) && (bits <=? 32) then bits else -1)
  end.

Definition IsValid (p : Prefix) : bool := 0 <=? p_bits p.

(** Clear the host bits: [v &^ (1<<host - 1)]. *)
Definition clear_low (v host : Z) : Z := Z.ldiff v (Z.ones host).

(** [Prefix.Masked] *)
Definition Masked (p : Prefix) : Prefix :=
  if IsValid p then
    match p_ip p with
    | Addr4 v => MkPrefix (Addr4 (clear_low v (32 - p_bits p))) (p_bits p)
    | Addr6 v _ => MkPrefix (Addr6 (clear_low v (128 - p_bits p)) "") (p_bits p)
    | AddrZero => PrefixZero
    end
  else PrefixZero.

(** [Prefix.Contains]: equal family and equal leading bits; an address with a
    zone is in no prefix. *)
Definition Contains (p : Prefix) (a : Addr) : bool :=
  IsValid p &&
  match p_ip p, a with
  | Addr4 v, Addr4 w => Z.shiftr (Z.lxor v w) (32 - p_bits p) =? 0
  | Addr6 v _, Addr6 w z => (z ==? "") && (Z.shiftr (Z.lxor v w) (128 - p_bits p) =? 0)
  | _, _ => false
  end.

(** [Prefix.Overlaps] *)
Definition Overlaps_prefix (p o : Prefix) : bool :=
  if IsValid p && IsValid o then
    if p ==? o then true
    else
      let m := Z.min (p_bits p) (p_bits o) in
      match p_ip p, p_ip o with
      | Addr4 v, Addr4 w => (m =? 0) || (clear_low v (32 - m) =? clear_low w (32 - m))
      | Addr6 v _, Addr6 w _ => (m =? 0) || (clear_low v (128 - m) =? clear_low w (128 - m))
      | _, _ => false
      end
  else false.

(** [Addr.As4] and [AddrFrom4], on the four octets. *)
Definition octets (v : Z) : list Z :=
  [Z.land (Z.shiftr v 24) 255; Z.land (Z.shiftr v 16) 255; Z.land (Z.shiftr v 8) 255; Z.land v 255].
Definition from_octets (a b c d : Z) : Z :=
  Z.lor (Z.lor (Z.lor (Z.shiftl a 24) (Z.shiftl b 16)) (Z.shiftl c 8)) d.

(** ** Text form *)
Definition dot : string := ".".
Definition Addr4_String (v : Z) : string :=
  FormatInt (v / 2 ^ 24) +:+ "." +:+ FormatInt (v / 2 ^ 16 mod 256) +:+ "." +:+
  FormatInt (v / 2 ^ 8 mod 256) +:+ "." +:+ FormatInt (v mod 256).

Definition hex_lower (d : Z) : ascii := char_of (if d <? 10 then 48 + d else 87 + d).
Definition hex16 (g : Z) : string :=
  let d3 := g / 4096 in let d2 := g / 256 mod 16 in
  let d1 := g / 16 mod 16 in let d0 := g mod 16 in
  (if 4096 <=? g then String (hex_lower d3) "" else "") +:+
  (if 256 <=? g then String (hex_lower d2) "" else "") +:+
  (if 16 <=? g then String (hex_lower d1) "" else "") +:+ String (hex_lower d0) "".
Definition groups (v : Z) : list Z :=
  (λ i, Z.land (Z.shiftr v (112 - 16 * i)) 65535) <$> seqZ 0 8.
Fixpoint zero_run (l : list Z) : nat :=
  match l with g :: l' => if g =? 0 then S (zero_run l') else O | [] => O end.
(** The first longest run of at least two zero groups: its start and length. *)
Fixpoint best_run (i : nat) (l : list Z) (best : nat * nat) : nat * nat :=
  match l with
  | [] => best
  | g :: l' =>
      let n := zero_run l in
      best_run (S i) l' (if (Nat.max 1 (snd best) <? n)%nat then (i, n) else best)
  end.
Fixpoint join_groups (l : list Z) : string :=
  match l with
  | [] => ""
  | [g] => hex16 g
  | g :: l' => hex16 g +:+ ":" +:+ join_groups l'
  end.
Definition Addr6_String (v : Z) (zone : string) : string :=
  let gs := groups v in
  let '(start, n) := best_run 0 gs (O, O) in
  let body := if (n =? 0)%nat then join_groups gs
              else join_groups (take start gs) +:+ "::" +:+ join_groups (drop (start + n) gs) in
  body +:+ (if zone ==? "" then "" else "%" +:+ zone).
Definition Addr_String (a : Addr) : string :=
  match a with
  | AddrZero => "invalid IP"
  | Addr4 v => Addr4_String v
  | Addr6 v z =>
      if (z ==? "") && (Z.shiftr v 32 =? 65535)
      then "::ffff:" +:+ Addr4_String (Z.land v (Z.ones 32)) else Addr6_String v z
  end.
(** [Prefix.String] *)
Definition Prefix_String (p : Prefix) : string :=
  if IsValid p then Addr_String (p_ip p) +:+ "/" +:+ FormatInt (p_bits p)
  else "invalid Prefix".

(** ** Parsing *)

(** [parseIPv4Fields]: [prev] is the previous byte, [n] the number of digits
    of the current octet and [fs] the octets read so far (last first). *)
Fixpoint parseIPv4Fields (l : list Z) (first : bool) (prev val : Z) (n : nat) (fs : list Z)
    : option (list Z) :=
  match l with
  | [] => if (length fs =? 3)%nat then Some (reverse (val :: fs)) else None
  | b :: l' =>
      if is_digit b then
        if (n =? 1)%nat && (val =? 0) then None
        else let val' := val * 10 + (b - 48) in
             if 255 <? val' then None else parseIPv4Fields l' false b val' (S n) fs
      else if b =? 46 then
        if first || bool_decide (l' = []) || (prev =? 46) then None
        else if (length fs =? 3)%nat then None
        else parseIPv4Fields l' false b 0 0 (val :: fs)
      else None
  end.
Definition parseIPv4 (l : list Z) : option Addr :=
  match parseIPv4Fields l true 0 0 0 [] with
  | Some [a; b; c; d] => Some (Addr4 (a * 2 ^ 24 + b * 2 ^ 16 + c * 2 ^ 8 + d))
  | _ => None
  end.

Definition hexval (b : Z) : option Z :=
  if is_digit b then Some (b - 48)
  else if (97 <=? b) && (b <=? 102) then Some (b - 87)
  else if (65 <=? b) && (b <=? 70) then Some (b - 55)
  else None.
(** One colon-separated IPv6 group: its value, its length and what follows. *)
Fixpoint hex_group (l : list Z) (off : nat) (acc : Z) : option (Z * nat * list Z) :=
  match l with
  | b :: l' =>
      match hexval b with
      | Some d => if (3 <? off)%nat then None else hex_group l' (S off) (acc * 16 + d)
      | None => Some (acc, off, l)
      end
  | [] => Some (acc, off, [])
  end.
(** The loop of [parseIPv6]; [out] holds the bytes written (16 of them end the
    loop, two per round, hence [fuel] 8), [ell] the position of the ellipsis. *)
Fixpoint v6_loop (fuel : nat) (s out : list Z) (ell : option nat)
    : option (list Z * option nat * list Z) :=
  match fuel with
  | O => Some (out, ell, s)
  | S f =>
      match hex_group s 0 0 with
      | None => None
      | Some (acc, off, rest) =>
          if (off =? 0)%nat then None
          else match rest with
          | 46 :: _ =>
              if bool_decide (ell = None) && negb (length out =? 12)%nat then None
              else if (16 <? length out + 4)%nat then None
              else fs ← parseIPv4Fields s true 0 0 0 []; Some (out ++ fs, ell, [])
          | [] => Some (out ++ [acc / 256; acc mod 256], ell, [])
          | c :: s1 =>
              let out' := out ++ [acc / 256; acc mod 256] in
              if c =? 58 then
                match s1 with
                | [] => None
                | 58 :: s2 =>
                    match ell with
                    | Some _ => None
                    | None =>
                        if bool_decide (s2 = []) then Some (out', Some (length out'), [])
                        else v6_loop f s2 out' (Some (length out'))
                    end
                | _ => v6_loop f s1 out' ell
                end
              else None
          end
      end
  end.
Definition bytes_value (l : list Z) : Z := foldl (λ acc b, acc * 256 + b) 0 l.
Fixpoint split_at (b : Z) (l : list Z) : option (list Z * list Z) :=
  match l with
  | [] => None
  | c :: l' => if c =? b then Some ([], l')
               else '(x, y) ← split_at b l'; Some (c :: x, y)
  end.
Definition parseIPv6 (l : list Z) : option Addr :=
  '(s, zone) ← match split_at 37 l with
               | None => Some (l, "")
               | Some (_, []) => None
               | Some (s, z) => Some (s, of_bytes z)
               end;
  let '(s, ell) := match s with 58 :: 58 :: s' => (s', Some O) | _ => (s, None) end in
  if bool_decide (s = []) && bool_decide (ell = Some O) then Some (Addr6 0 zone)
  else
    '(out, ell, rest) ← v6_loop 8 s [] ell;
    if bool_decide (rest = []) then
      if (length out <? 16)%nat then
        e ← ell;
        Some (Addr6 (bytes_value (take e out ++ replicate (16 - length out) 0 ++ drop e out)) zone)
      else if bool_decide (ell = None) then Some (Addr6 (bytes_value out) zone) else None
    else None.

(** [netip.ParseAddr]: the first [.], [:] or [%] decides the family. *)
Fixpoint addr_family (l : list Z) : option Z :=
  match l with
  | [] => None
  | b :: l' => if (b =? 46) || (b =? 58) || (b =? 37) then Some b else addr_family l'
  end.
Definition parseAddrBytes (l : list Z) : option Addr :=
  match addr_family l with
  | Some f =>
      if f =? 46 then parseIPv4 l
      else if f =? 58 then parseIPv6 l
      else None
  | None => None
  end.
Definition ParseAddr (s : string) : option Addr := parseAddrBytes (bytes s).

(** [netip.ParsePrefix]: split at the last slash. *)
Definition split_last (b : Z) (l : list Z) : option (list Z * list Z) :=
  '(x, y) ← split_at b (reverse l); Some (reverse y, reverse x).
Definition zone_of (a : Addr) : string := match a with Addr6 _ z => z | _ => "" end.
Definition ParsePrefix (s : string) : option Prefix :=
  '(a, bs) ← split_last 47 (bytes s);
  ip ← parseAddrBytes a;
  if zone_of ip !=? "" then None
  else if match bs with
          | c :: _ :: _ => (c <? 49) || (57 <? c)
          | _ => false
          end then None
  else
    bits ← ParseInt (of_bytes bs);
    if (bits <? 0) || (BitLen ip <? bits) then None else Some (PrefixFrom ip bits).

(** ** IPv4 ranges

    The canonical IPv4 prefixes are the ones the control plane stores. *)
Definition valid4 (p : Prefix) : Prop :=
  ∃ v, p_ip p = Addr4 v ∧ 0 ≤ v < 2 ^ 32 ∧ 0 ≤ p_bits p ≤ 32.
Definition base4 (p : Prefix) : Z :=
  match p_ip p with Addr4 v => clear_low v (32 - p_bits p) | _ => 0 end.
Definition size4 (p : Prefix) : Z := 2 ^ (32 - p_bits p).

Lemma clear_low_eq v k : 0 ≤ k → clear_low v k = v / 2 ^ k * 2 ^ k.
Proof.
  intros. unfold clear_low. rewrite Z.ldiff_ones_r by done.
  by rewrite Z.shiftr_div_pow2, Z.shiftl_mul_pow2.
Qed.

Lemma clear_low_bounds v k :
  0 ≤ k → clear_low v k ≤ v < clear_low v k + 2 ^ k.
Proof.
  intros. rewrite clear_low_eq by done.
  pose proof (Z.pow_pos_nonneg 2 k ltac:(lia) ltac:(lia)).
  pose proof (Z.div_mod v (2 ^ k) ltac:(lia)).
  pose proof (Z.mod_pos_bound v (2 ^ k) ltac:(lia)). lia.
Qed.

Lemma clear_low_idemp v k : 0 ≤ k → clear_low (clear_low v k) k = clear_low v k.
Proof.
  intros. rewrite !clear_low_eq by done. by rewrite Z.div_mul by (apply Z.pow_nonzero; lia).
Qed.

Lemma clear_low_range v k m : 0 ≤ k → 0 ≤ v < m → 0 ≤ clear_low v k < m.
Proof.
  intros Hk Hv. pose proof (clear_low_bounds v k Hk).
  split; [|lia]. rewrite clear_low_eq by done.
  apply Z.mul_nonneg_nonneg; [apply Z.div_pos|]; try lia; apply Z.pow_pos_nonneg; lia.
Qed.

Lemma lxor_shiftr_zero v w k :
  0 ≤ k → Z.shiftr (Z.lxor v w) k = 0 ↔ v / 2 ^ k = w / 2 ^ k.
Proof.
  intros. rewrite Z.shiftr_lxor, Z.lxor_eq_0_iff.
  by rewrite !Z.shiftr_div_pow2.
Qed.

Lemma div_interval v w k :
  0 ≤ k → v / 2 ^ k = w / 2 ^ k ↔ clear_low v k ≤ w < clear_low v k + 2 ^ k.
Proof.
  intros. rewrite clear_low_eq by done.
  pose proof (Z.pow_pos_nonneg 2 k ltac:(lia) ltac:(lia)) as Hp.
  pose proof (Z.div_mod w (2 ^ k) ltac:(lia)).
  pose proof (Z.mod_pos_bound w (2 ^ k) ltac:(lia)).
  split; [intros ->; lia|]. intros Hw.
  apply (Z.div_unique w (2 ^ k) _ (w - v / 2 ^ k * 2 ^ k)); lia.
Qed.

(** A valid IPv4 prefix contains exactly the addresses of its range. *)
Lemma Contains4 p w :
  valid4 p → Contains p (Addr4 w) = true ↔ base4 p ≤ w < base4 p + size4 p.
Proof.
  intros (v & Hv & Hr & Hb). unfold Contains, base4, size4, IsValid. rewrite Hv.
  rewrite (proj2 (Z.leb_le 0 (p_bits p))) by lia. simpl.
  rewrite Z.eqb_eq, lxor_shiftr_zero by lia. apply div_interval. lia.
Qed.

Lemma Contains4_Is4 p a : valid4 p → Contains p a = true → ∃ w, a = Addr4 w.
Proof.
  intros (v & Hv & _). unfold Contains. rewrite Hv.
  destruct a; rewrite ?andb_false_r; naive_solver.
Qed.

Lemma Masked4 p : valid4 p → Masked p = MkPrefix (Addr4 (base4 p)) (p_bits p).
Proof.
  intros (v & Hv & Hr & Hb). unfold Masked, base4, IsValid. rewrite Hv.
  by rewrite (proj2 (Z.leb_le 0 (p_bits p))) by lia.
Qed.

Lemma valid4_Masked p : valid4 p → valid4 (Masked p).
Proof.
  intros Hp. rewrite Masked4 by done. destruct Hp as (v & Hv & Hr & Hb).
  eexists. split; [done|]. split; [|done]. unfold base4. rewrite Hv.
  apply clear_low_range; lia.
Qed.

Lemma base4_Masked p : valid4 p → base4 (Masked p) = base4 p.
Proof.
  intros Hp. rewrite Masked4 by done. destruct Hp as (v & Hv & Hr & Hb).
  unfold base4. simpl. rewrite Hv. apply clear_low_idemp. lia.
Qed.

Lemma size4_Masked p : valid4 p → size4 (Masked p) = size4 p.
Proof. intros Hp. by rewrite Masked4. Qed.

Lemma Masked_idemp p : valid4 p → Masked (Masked p) = Masked p.
Proof.
  intros Hp. rewrite (Masked4 (Masked p)), base4_Masked by auto using valid4_Masked.
  by rewrite Masked4.
Qed.

Lemma base4_range p : valid4 p → 0 ≤ base4 p ∧ base4 p + size4 p ≤ 2 ^ 32.
Proof.
  intros (v & Hv & Hr & Hb). unfold base4, size4. rewrite Hv.
  pose proof (clear_low_range v (32 - p_bits p) (2 ^ 32) ltac:(lia) Hr).
  split; [lia|]. rewrite clear_low_eq in * by lia.
  assert (2 ^ 32 = 2 ^ p_bits p * 2 ^ (32 - p_bits p)) as Heq
    by (rewrite <- Z.pow_add_r by lia; f_equal; lia).
  pose proof (Z.pow_pos_nonneg 2 (32 - p_bits p) ltac:(lia) ltac:(lia)).
  assert (v / 2 ^ (32 - p_bits p) < 2 ^ p_bits p) by (apply Z.div_lt_upper_bound; lia).
  rewrite Heq. nia.
Qed.

Lemma size4_pos p : valid4 p → 0 < size4 p.
Proof. intros (v & _ & _ & Hb). apply Z.pow_pos_nonneg; lia. Qed.

(** ** Round trip of the text form *)

Lemma bytes_FormatInt_1 n : 0 ≤ n < 10 → bytes (FormatInt n) = [48 + n].
Proof.
  intros. apply beq_true. by apply (by_cases_Z 0 10 (λ n, bytes (FormatInt n) ==? [48 + n])).
Qed.
Lemma bytes_FormatInt_2 n :
  10 ≤ n < 100 → bytes (FormatInt n) = [48 + n / 10; 48 + n mod 10].
Proof.
  intros. apply beq_true.
  by apply (by_cases_Z 10 90 (λ n, bytes (FormatInt n) ==? [48 + n / 10; 48 + n mod 10])).
Qed.
Lemma bytes_FormatInt_3 n :
  100 ≤ n < 256 → bytes (FormatInt n) = [48 + n / 100; 48 + n / 10 mod 10; 48 + n mod 10].
Proof.
  intros. apply beq_true.
  by apply (by_cases_Z 100 156
    (λ n, bytes (FormatInt n) ==? [48 + n / 100; 48 + n / 10 mod 10; 48 + n mod 10])).
Qed.

Lemma parse_octet n rest first prev fs :
  0 ≤ n < 256 →
  ∃ last k, 48 ≤ last ∧
    parseIPv4Fields (bytes (FormatInt n) ++ rest) first prev 0 0 fs
    = parseIPv4Fields rest false last n k fs.
Proof.
  intros Hn. assert (0 ≤ n < 10 ∨ 10 ≤ n < 100 ∨ 100 ≤ n < 256) as [H|[H|H]] by lia.
  - exists (48 + n), 1%nat. split; [lia|]. rewrite bytes_FormatInt_1 by done. simpl.
    rewrite is_digit_digit by lia. rewrite (proj2 (Z.ltb_ge _ _)) by lia. f_equal; lia.
  - exists (48 + n mod 10), 2%nat. split; [div_lia|]. rewrite bytes_FormatInt_2 by done. simpl.
    rewrite !is_digit_digit by div_lia. rewrite !(proj2 (Z.ltb_ge _ _)) by div_lia.
    rewrite (proj2 (Z.eqb_neq _ _)) by div_lia. f_equal; div_lia.
  - exists (48 + n mod 10), 3%nat. split; [div_lia|]. rewrite bytes_FormatInt_3 by done. simpl.
    rewrite !is_digit_digit by div_lia. rewrite !(proj2 (Z.ltb_ge _ _)) by div_lia.
    rewrite !(proj2 (Z.eqb_neq _ _)) by div_lia. f_equal; div_lia.
Qed.

Lemma parse_octet_dot n rest first prev fs :
  0 ≤ n < 256 → rest ≠ [] → (length fs < 3)%nat →
  parseIPv4Fields (bytes (FormatInt n) ++ 46 :: rest) first prev 0 0 fs
  = parseIPv4Fields rest false 46 0 0 (n :: fs).
Proof.
  intros Hn Hrest Hfs.
  destruct (parse_octet n (46 :: rest) first prev fs Hn) as (last & k & Hl & ->).
  simpl. rewrite bool_decide_eq_false_2 by done.
  rewrite (proj2 (Z.eqb_neq last 46)) by lia. simpl.
  by rewrite (proj2 (Nat.eqb_neq (length fs) 3)) by lia.
Qed.

Lemma FormatInt_bytes_nonempty n : 0 ≤ n < 256 → bytes (FormatInt n) ≠ [].
Proof.
  intros Hn. assert (0 ≤ n < 10 ∨ 10 ≤ n < 100 ∨ 100 ≤ n < 256) as [H|[H|H]] by lia;
  [rewrite bytes_FormatInt_1|rewrite bytes_FormatInt_2|rewrite bytes_FormatInt_3]; done.
Qed.

Lemma FormatInt_digits n : 0 ≤ n < 256 → Forall (λ b, 48 ≤ b ≤ 57) (bytes (FormatInt n)).
Proof.
  intros Hn. assert (0 ≤ n < 10 ∨ 10 ≤ n < 100 ∨ 100 ≤ n < 256) as [H|[H|H]] by lia;
  [rewrite bytes_FormatInt_1|rewrite bytes_FormatInt_2|rewrite bytes_FormatInt_3]; try done;
  repeat (apply Forall_cons_2; [div_lia|]); apply Forall_nil_2.
Qed.

(** The bytes of a dotted quad. *)
Definition quad (v : Z) : list Z := [v / 2 ^ 24; v / 2 ^ 16 mod 256; v / 2 ^ 8 mod 256; v mod 256].
Lemma quad_range v : 0 ≤ v < 2 ^ 32 → Forall (λ n, 0 ≤ n < 256) (quad v).
Proof.
  intros. repeat (apply Forall_cons_2; [div_lia|]). apply Forall_nil_2.
Qed.
Lemma quad_value v :
  0 ≤ v < 2 ^ 32 →
  v = v / 2 ^ 24 * 2 ^ 24 + v / 2 ^ 16 mod 256 * 2 ^ 16 + v / 2 ^ 8 mod 256 * 2 ^ 8 + v mod 256.
Proof. intros. div_lia. Qed.

Lemma parse_Addr4_String v :
  0 ≤ v < 2 ^ 32 → parseIPv4 (bytes (Addr4_String v)) = Some (Addr4 v).
Proof.
  intros Hv. pose proof (quad_range v Hv) as Hq. unfold quad in Hq.
  rewrite !Forall_cons in Hq. destruct Hq as (Ha & Hb & Hc & Hd & _).
  pose proof (quad_value v Hv) as Heq. unfold parseIPv4, Addr4_String.
  set (a := v / 2 ^ 24) in *. set (b := v / 2 ^ 16 mod 256) in *.
  set (c := v / 2 ^ 8 mod 256) in *. set (d := v mod 256) in *.
  rewrite !bytes_app. simpl (bytes "."). cbn [app].
  rewrite parse_octet_dot; [|done|by destruct (bytes (FormatInt b))|simpl; lia].
  rewrite parse_octet_dot; [|done|by destruct (bytes (FormatInt c))|simpl; lia].
  rewrite parse_octet_dot; [|done|by apply FormatInt_bytes_nonempty|simpl; lia].
  rewrite <- (app_nil_r (bytes (FormatInt d))).
  destruct (parse_octet d [] false 46 [c; b; a] Hd) as (last & k & _ & ->).
  simpl. by rewrite <- Heq.
Qed.

Lemma addr_family_digits l r :
  Forall (λ b, 48 ≤ b ≤ 57) l → addr_family (l ++ 46 :: r) = Some 46.
Proof.
  induction 1 as [|b l Hb _ IH]; [done|]. simpl. rewrite IH.
  rewrite !(proj2 (Z.eqb_neq _ _)) by lia. done.
Qed.

Lemma ParseAddr_Addr4_String v :
  0 ≤ v < 2 ^ 32 → ParseAddr (Addr4_String v) = Some (Addr4 v).
Proof.
  intros Hv. unfold ParseAddr, parseAddrBytes.
  pose proof (quad_range v Hv) as Hq. apply Forall_cons in Hq as [Ha _].
  assert (addr_family (bytes (Addr4_String v)) = Some 46) as ->.
  { unfold Addr4_String. rewrite !bytes_app. apply addr_family_digits.
    by apply FormatInt_digits. }
  by apply parse_Addr4_String.
Qed.

Lemma split_at_app b x y : b ∉ x → split_at b (x ++ b :: y) = Some (x, y).
Proof.
  induction x as [|c x IH]; intros Hx; simpl.
  - by rewrite Z.eqb_refl.
  - rewrite (proj2 (Z.eqb_neq c b)) by set_solver. by rewrite IH by set_solver.
Qed.

Lemma split_last_app b x y : b ∉ y → split_last b (x ++ b :: y) = Some (x, y).
Proof.
  intros Hy. unfold split_last. rewrite reverse_app, reverse_cons, <- app_assoc. simpl.
  rewrite split_at_app by (by rewrite elem_of_reverse). simpl.
  by rewrite !reverse_involutive.
Qed.

(** Parsing the text of a valid IPv4 prefix returns the prefix. *)
Lemma ParsePrefix_String p : valid4 p → ParsePrefix (Prefix_String p) = Some p.
Proof.
  destruct p as [ip bits]. intros (v & Hip & Hv & Hb). simpl in *. subst ip.
  unfold ParsePrefix, Prefix_String, IsValid. simpl.
  rewrite (proj2 (Z.leb_le 0 bits)) by lia.
  pose proof (ParseAddr_Addr4_String v Hv) as Ha. unfold ParseAddr in Ha.
  change (Addr_String (Addr4 v)) with (Addr4_String v).
  generalize dependent (Addr4_String v). intros A Ha.
  rewrite bytes_app. change (bytes (String "/" ?l)) with (47 :: bytes l).
  assert (Forall (λ b, 48 ≤ b ≤ 57) (bytes (FormatInt bits))) as Hd
    by (apply FormatInt_digits; lia).
  rewrite split_last_app by (intros Hin; rewrite Forall_forall in Hd; apply Hd in Hin; lia).
  cbn [mbind option_bind]. rewrite Ha. cbn [mbind option_bind zone_of].
  rewrite beq_refl. simpl negb. cbn iota.
  assert (match bytes (FormatInt bits) with
          | c :: _ :: _ => (c <? 49) || (57 <? c) | _ => false end = false) as ->.
  { apply negb_true_iff. apply (by_cases_Z 0 33 (λ bits, negb match bytes (FormatInt bits) with
      | c :: _ :: _ => (c <? 49) || (57 <? c) | _ => false end)); [lia|by vm_compute]. }
  rewrite of_bytes_bytes, ParseInt_FormatInt by lia. cbn [mbind option_bind BitLen].
  rewrite (proj2 (Z.ltb_ge bits 0)), (proj2 (Z.ltb_ge 32 bits)) by lia. simpl.
  by rewrite (proj2 (Z.leb_le 0 bits)), (proj2 (Z.leb_le bits 32)) by lia.
Qed.

(** Every parsed IPv4 prefix is valid. *)
Lemma parseIPv4Fields_range l first prev val n fs r :
  parseIPv4Fields l first prev val n fs = Some r →
  0 ≤ val < 256 → Forall (λ b, 0 ≤ b < 256) fs → Forall (λ b, 0 ≤ b < 256) r.
Proof.
  revert first prev val n fs. induction l as [|b l IH]; intros first prev val n fs H Hval Hfs; simpl in H.
  - case_all. apply Forall_reverse. by constructor.
  - unfold is_digit in H. repeat case_match; simplify_eq; reflect_bools;
      eapply IH; eauto using Forall_cons_2; lia.
Qed.

Lemma parseIPv6_Is6 l a : parseIPv6 l = Some a → Is4 a = false.
Proof.
  unfold parseIPv6. intros ([s zone] & _ & H)%bind_Some.
  match goal with _ : context [match ?x with (_, _) => _ end] |- _ => destruct x as [s' ell] end.
  case_match; simplify_eq; [done|].
  apply bind_Some in H as ([[out ell'] rest] & _ & H).
  repeat case_match; simplify_option_eq; done.
Qed.

Lemma parseAddrBytes_4 l v : parseAddrBytes l = Some (Addr4 v) → 0 ≤ v < 2 ^ 32.
Proof.
  unfold parseAddrBytes. intros H. destruct (addr_family l) as [f|]; [|done].
  destruct (f =? 46).
  - unfold parseIPv4 in H. repeat case_match; simplify_eq.
    assert (Forall (λ b, 0 ≤ b < 256) [z; z0; z1; z2]) as Hf
      by (eapply parseIPv4Fields_range; eauto; lia).
    rewrite !Forall_cons in Hf. lia.
  - destruct (f =? 58); [|done]. by apply parseIPv6_Is6 in H.
Qed.

Lemma ParsePrefix_valid4 s p :
  ParsePrefix s = Some p → Is4 (p_ip p) = true → valid4 p.
Proof.
  unfold ParsePrefix. intros H H4.
  apply bind_Some in H as ([a bs] & _ & H). apply bind_Some in H as (ip & Hip & H).
  do 2 (case_match; [done|]). apply bind_Some in H as (bits & _ & H).
  case_match eqn:Hb; [done|]. apply orb_false_iff in Hb as [Hb1 Hb2]. reflect_bools.
  destruct ip as [|v|v z]; simplify_eq; try done.
  apply parseAddrBytes_4 in Hip. exists v. simpl in *.
  rewrite (proj2 (Z.leb_le 0 bits)), (proj2 (Z.leb_le bits 32)) by lia.
  split; [done|]. simpl. lia.
Qed.

(** ** Alignment of IPv4 ranges *)
Lemma size4_divides_base p : valid4 p → (size4 p | base4 p).
Proof.
  intros (v & Hv & _ & Hb). unfold base4, size4. rewrite Hv, clear_low_eq by lia.
  apply Z.divide_factor_r.
Qed.

Lemma size4_divides p q : valid4 p → valid4 q → p_bits p ≤ p_bits q → (size4 q | size4 p).
Proof.
  intros (_ & _ & _ & Hp) (_ & _ & _ & Hq) Hle. exists (2 ^ (p_bits q - p_bits p)).
  unfold size4. rewrite <- Z.pow_add_r by lia.
  replace (p_bits q - p_bits p + (32 - p_bits q)) with (32 - p_bits p) by lia. done.
Qed.

Lemma size4_le p q : valid4 p → valid4 q → size4 q ≤ size4 p ↔ p_bits p ≤ p_bits q.
Proof.
  intros (_ & _ & _ & Hp) (_ & _ & _ & Hq). unfold size4.
  rewrite <- (Z.pow_le_mono_r_iff 2 (32 - p_bits q) (32 - p_bits p)) by lia. lia.
Qed.

(** An aligned block that starts below an aligned bound ends below it. *)
Lemma aligned_end d x y : 0 < d → (d | x) → (d | y) → x < y → x + d ≤ y.
Proof.
  intros Hd [a ->] [b ->] Hlt. apply Z.mul_lt_mono_pos_r in Hlt; [|done].
  pose proof (Z.mul_le_mono_nonneg_r (a + 1) b d). lia.
Qed.

Lemma range4_subset p q :
  valid4 p → valid4 q →
  (p_bits p ≤ p_bits q ∧ base4 p ≤ base4 q < base4 p + size4 p) ↔
  (base4 p ≤ base4 q ∧ base4 q + size4 q ≤ base4 p + size4 p).
Proof.
  intros Hp Hq. pose proof (size4_pos p Hp). pose proof (size4_pos q Hq).
  split.
  - intros (Hb & Hlo & Hhi). split; [done|]. apply aligned_end; auto using size4_divides_base.
    apply Z.divide_add_r; eauto using size4_divides, size4_divides_base, Z.divide_trans.
  - intros [Hlo Hhi]. split; [|lia]. apply size4_le; auto. lia.
Qed.

(** The value of four bytes and the four bytes of a value. *)
Lemma bytes_value_octets v : 0 ≤ v < 2 ^ 32 → bytes_value (octets v) = v.
Proof.
  intros Hv. unfold octets, bytes_value. cbn [foldl]. rewrite !Z.shiftr_div_pow2 by lia.
  rewrite ?(Z.land_ones _ 8) by lia. div_lia.
Qed.
Lemma octets_bytes_value a b c d :
  is_byte a → is_byte b → is_byte c → is_byte d →
  octets (bytes_value [a; b; c; d]) = [a; b; c; d] ∧ 0 ≤ bytes_value [a; b; c; d] < 2 ^ 32.
Proof.
  unfold is_byte. intros Ha Hb Hc Hd. unfold octets, bytes_value. cbn [foldl]. rewrite !Z.shiftr_div_pow2 by lia.
  rewrite ?(Z.land_ones _ 8) by lia. split; [|lia]. repeat (f_equal; try div_lia).
Qed.
