(* ===== verification/Url.v ===== *)
(** Go's [net/url]: escaping, parsing, reference resolution and printing of
    URLs, as the command-line client, the generated API client and the HTTP server
    use them.  Everything is on bytes ([list Z]). *)

From S2P Require Import Prelude Errors GoStrings Encodings NetIP.
Local Open Scope Z_scope.

(** ** Escaping *)
Inductive encoding := encodePath | encodePathSegment | encodeHost | encodeZone | encodeUserPassword
  | encodeQueryComponent | encodeFragment.
#[export] Instance encoding_eq_dec : EqDecision encoding.
Proof. solve_decision. Defined.

Definition is_letter (c : Z) : bool := ((97 <=? c) && (c <=? 122)) || ((65 <=? c) && (c <=? 90)).
Definition one_of (s : string) (c : Z) : bool := bool_decide (c ∈ bytes s).

Definition shouldEscape (c : Z) (mode : encoding) : bool :=
  if is_letter c || is_digit c then false
  else if ((mode ==? encodeHost) || (mode ==? encodeZone)) && (one_of "!$&'()*+,;=:[]<>" c || (c =? 34)) then false
  else if one_of "-_.~" c then false
  else if one_of "$&+,/:;=?@" c then
    match mode with
    | encodePath => c =? 63
    | encodePathSegment => one_of "/;,?" c
    | encodeUserPassword => one_of "@/?:" c
    | encodeQueryComponent => true
    | encodeFragment => false
    | encodeHost | encodeZone => true
    end
  else if (mode ==? encodeFragment) && one_of "!()*" c then false
  else true.

(** The upper-case hexadecimal digit of a nibble. *)
Definition upperhex (d : Z) : Z := if d <? 10 then 48 + d else 55 + d.

Definition escape_byte (mode : encoding) (c : Z) : list Z :=
  if (c =? 32) && (mode ==? encodeQueryComponent) then [43]
  else if shouldEscape c mode then [37; upperhex (c / 16); upperhex (c mod 16)]
  else [c].
Definition escape (mode : encoding) (s : list Z) : list Z := mbind (escape_byte mode) s.
Definition PathEscape := escape encodePathSegment.
Definition QueryEscape := escape encodeQueryComponent.

Definition escapeError : error := Errorf (lit "invalid URL escape").
Definition hostError : error := Errorf (lit "invalid character in host name").

Fixpoint unescape (mode : encoding) (s : list Z) : result (list Z) :=
  match s with
  | [] => Ok []
  | c :: s' =>
      if c =? 37 then
        match s' with
        | a :: b :: s'' =>
            match hexval a, hexval b with
            | Some x, Some y =>
                let v := 16 * x + y in
                if (mode ==? encodeHost) && (x <? 8) && (v !=? 37) then Err escapeError
                else if (mode ==? encodeZone) && (v !=? 37) && (v !=? 32) && shouldEscape v encodeHost
                then Err escapeError
                else rest ← unescape mode s''; Ok (v :: rest)
            | _, _ => Err escapeError
            end
        | _ => Err escapeError
        end
      else if ((mode ==? encodeHost) || (mode ==? encodeZone)) && (c <? 128) && shouldEscape c mode then Err hostError
      else
        rest ← unescape mode s';
        Ok ((if (c =? 43) && (mode ==? encodeQueryComponent) then 32 else c) :: rest)
  end.

(** Whether an escaped path is an acceptable encoding of a path. *)
Definition validEncoded (s : list Z) (mode : encoding) : bool :=
  forallb (λ c, one_of "!$&'()*+,;=:@[]%" c || negb (shouldEscape c mode)) s.

(** ** Cutting byte strings *)
Fixpoint cut (b : Z) (l : list Z) : list Z * option (list Z) :=
  match l with
  | [] => ([], None)
  | c :: l' => if c =? b then ([], Some l') else let '(x, y) := cut b l' in (c :: x, y)
  end.
(** [strings.Split] by one byte. *)
Fixpoint split (b : Z) (l : list Z) : list (list Z) :=
  match l with
  | [] => [[]]
  | c :: l' =>
      if c =? b then [] :: split b l'
      else match split b l' with x :: xs => (c :: x) :: xs | [] => [[c]] end
  end.
(** Around the last occurrence of a byte. *)
Fixpoint cut_last (b : Z) (l : list Z) : option (list Z * list Z) :=
  match l with
  | [] => None
  | c :: l' =>
      match cut_last b l' with
      | Some (x, y) => Some (c :: x, y)
      | None => if c =? b then Some ([], l') else None
      end
  end.
(** [strings.Join] by one byte. *)
Fixpoint join (b : Z) (ls : list (list Z)) : list Z :=
  match ls with
  | [] => []
  | [x] => x
  | x :: ls' => x ++ b :: join b ls'
  end.
Definition starts_with (p l : list Z) : bool := bool_decide (take (length p) l = p).

(** ** URLs *)
Record URL := MkURL {
  u_Scheme : list Z;
  u_Opaque : list Z;
  u_User : option (list Z * option (list Z));
  u_Host : list Z;
  u_Path : list Z;
  u_RawPath : list Z;
  u_OmitHost : bool;
  u_ForceQuery : bool;
  u_RawQuery : list Z;
  u_Fragment : list Z
}.
Definition zero_URL : URL := MkURL [] [] None [] [] [] false false [] [].

Definition with_path (u : URL) (path raw : list Z) : URL :=
  MkURL (u_Scheme u) (u_Opaque u) (u_User u) (u_Host u) path raw (u_OmitHost u) (u_ForceQuery u) (u_RawQuery u) (u_Fragment u).
Definition with_query (u : URL) (query : list Z) : URL :=
  MkURL (u_Scheme u) (u_Opaque u) (u_User u) (u_Host u) (u_Path u) (u_RawPath u) (u_OmitHost u) (u_ForceQuery u) query (u_Fragment u).
Definition with_host (u : URL) (host : list Z) : URL :=
  MkURL (u_Scheme u) (u_Opaque u) (u_User u) host (u_Path u) (u_RawPath u) (u_OmitHost u) (u_ForceQuery u) (u_RawQuery u) (u_Fragment u).

Definition setPath (u : URL) (p : list Z) : result URL :=
  path ← unescape encodePath p;
  Ok (with_path u path (if bool_decide (p = escape encodePath path) then [] else p)).

Definition EscapedPath (u : URL) : list Z :=
  let stored := bool_decide (u_RawPath u ≠ []) && validEncoded (u_RawPath u) encodePath &&
                match unescape encodePath (u_RawPath u) with Ok p => bool_decide (p = u_Path u) | Err _ => false end in
  if stored then u_RawPath u
  else if bool_decide (u_Path u = [42]) then [42]
  else escape encodePath (u_Path u).

(** [getScheme]: a letter, then letters, digits and [+-.] up to a colon. *)
Fixpoint getScheme_from (first : bool) (l : list Z) : result (option (list Z * list Z)) :=
  match l with
  | [] => Ok None
  | c :: l' =>
      if is_letter c || (negb first && (is_digit c || one_of "+-." c)) then
        r ← getScheme_from false l';
        Ok ('(s, rest) ← r; Some (c :: s, rest))
      else if c =? 58 then
        if first then Err (Errorf (lit "missing protocol scheme")) else Ok (Some ([], l'))
      else Ok None
  end.
Definition getScheme (raw : list Z) : result (list Z * list Z) :=
  r ← getScheme_from true raw; Ok (default ([], raw) r).

Definition lower (c : Z) : Z := if (65 <=? c) && (c <=? 90) then c + 32 else c.

Definition validOptionalPort (port : list Z) : bool :=
  match port with
  | [] => true
  | c :: digits => (c =? 58) && forallb is_digit digits
  end.

Definition portError : error := Errorf (lit "invalid port after host").
Definition literalError : error := Errorf (lit "invalid IP-literal").

(** The first occurrence of [%25] cuts a zone off. *)
Fixpoint cut_zone (l : list Z) : option (list Z * list Z) :=
  match l with
  | [] => None
  | c :: l' => if starts_with [37; 50; 53] l then Some ([], l)
               else '(x, y) ← cut_zone l'; Some (c :: x, y)
  end.
Definition parseHost (host : list Z) : result (list Z) :=
  match cut_last 91 host with
  | Some (_ :: _, _) => Err literalError
  | Some ([], inner) =>
      match cut_last 93 inner with
      | None => Err (Errorf (lit "missing ']' in host"))
      | Some (name, port) =>
          _ ← require (validOptionalPort port) portError;
          port' ← unescape encodeHost port;
          name' ← match cut_zone name with
                  | Some (address, zone) =>
                      a ← unescape encodeHost address; z ← unescape encodeZone zone; Ok (a ++ z)
                  | None => unescape encodeHost name
                  end;
          addr ← of_option literalError (parseAddrBytes name');
          _ ← require (negb (Is4 addr)) literalError;
          Ok (91 :: name' ++ 93 :: port')
      end
  | None =>
      _ ← require (match cut 58 host with (_, Some port) => forallb is_digit port | _ => true end) portError;
      unescape encodeHost host
  end.

Definition validUserinfo (s : list Z) : bool :=
  forallb (λ c, is_letter c || is_digit c || one_of "-._:~!$&'()*+,;=%@" c) s.

Definition parseAuthority (authority : list Z) : result (option (list Z * option (list Z)) * list Z) :=
  match cut_last 64 authority with
  | None => host ← parseHost authority; Ok (None, host)
  | Some (userinfo, raw) =>
      host ← parseHost raw;
      _ ← require (validUserinfo userinfo) (Errorf (lit "net/url: invalid userinfo"));
      match cut 58 userinfo with
      | (name, None) => n ← unescape encodeUserPassword name; Ok (Some (n, None), host)
      | (name, Some password) =>
          n ← unescape encodeUserPassword name;
          p ← unescape encodeUserPassword password;
          Ok (Some (n, Some p), host)
      end
  end.

Definition is_ctl (c : Z) : bool := (c <? 32) || (c =? 127).

(** What follows the scheme, without the query. *)
Definition parse_rest (viaRequest : bool) (u : URL) (rest : list Z) : result URL :=
  if negb (starts_with [47] rest) && bool_decide (u_Scheme u ≠ []) then
    Ok (MkURL (u_Scheme u) rest None [] [] [] false (u_ForceQuery u) (u_RawQuery u) [])
  else
    _ ← require (starts_with [47] rest || negb viaRequest) (Errorf (lit "invalid URI for request"));
    _ ← require (starts_with [47] rest || negb (bool_decide (58 ∈ (cut 47 rest).1)))
          (Errorf (lit "first path segment in URL cannot contain colon"));
    if (bool_decide (u_Scheme u ≠ []) || (negb viaRequest && negb (starts_with [47; 47; 47] rest)))
       && starts_with [47; 47] rest then
      let '(authority, path) :=
        match cut 47 (drop 2 rest) with (a, Some p) => (a, 47 :: p) | (a, None) => (a, []) end in
      '(user, host) ← parseAuthority authority;
      setPath (MkURL (u_Scheme u) [] user host [] [] false (u_ForceQuery u) (u_RawQuery u) []) path
    else
      setPath (MkURL (u_Scheme u) [] None [] [] [] (bool_decide (u_Scheme u ≠ [])) (u_ForceQuery u) (u_RawQuery u) []) rest.

Definition parse (viaRequest : bool) (raw : list Z) : result URL :=
  _ ← require (negb (existsb is_ctl raw)) (Errorf (lit "net/url: invalid control character in URL"));
  _ ← require (negb (bool_decide (raw = [])) || negb viaRequest) (Errorf (lit "empty url"));
  if bool_decide (raw = [42]) then Ok (with_path zero_URL [42] [])
  else
    '(scheme, rest) ← getScheme raw;
    let '(rest', force, query) :=
      match cut 63 rest with
      | (before, Some []) => (before, true, [])
      | (before, Some query) => (before, false, query)
      | (before, None) => (before, false, [])
      end in
    parse_rest viaRequest
      (MkURL (lower <$> scheme) [] None [] [] [] false force query []) rest'.

(** [url.Parse] and [url.ParseRequestURI] *)
Definition Parse (raw : list Z) : result URL :=
  let '(u, fragment) := cut 35 raw in
  url ← parse false u;
  match fragment with
  | None | Some [] => Ok url
  | Some frag =>
      f ← unescape encodeFragment frag;
      Ok (MkURL (u_Scheme url) (u_Opaque url) (u_User url) (u_Host url) (u_Path url) (u_RawPath url)
            (u_OmitHost url) (u_ForceQuery url) (u_RawQuery url) f)
  end.
Definition ParseRequestURI (raw : list Z) : result URL := parse true raw.

(** [URL.Hostname]: without the port and the brackets. *)
Definition Hostname (u : URL) : list Z :=
  let host := match cut_last 58 (u_Host u) with
              | Some (before, port) => if forallb is_digit port then before else u_Host u
              | None => u_Host u
              end in
  if starts_with [91] host && bool_decide (last host = Some 93) then removelast (tail host) else host.

(** *** References *)

(** The loop of [resolvePath]: [dst] is what was written after the leading
    slash, [first] whether the next element goes without a slash before it. *)
Fixpoint resolve_elems (first : bool) (dst : list Z) (elems : list (list Z)) : list Z :=
  match elems with
  | [] => dst
  | elem :: elems' =>
      let closing (d : list Z) := match elems' with [] => d ++ [47] | _ => d end in
      if bool_decide (elem = [46]) then resolve_elems false (closing dst) elems'
      else if bool_decide (elem = [46; 46]) then
        match cut_last 47 dst with
        | None => resolve_elems true (closing []) elems'
        | Some (kept, _) => resolve_elems first (closing kept) elems'
        end
      else resolve_elems false (dst ++ (if first then [] else [47]) ++ elem) elems'
  end.
Definition resolvePath (base ref : list Z) : list Z :=
  let full :=
    match ref with
    | [] => base
    | c :: _ =>
        if c =? 47 then ref
        else (match cut_last 47 base with Some (before, _) => before ++ [47] | None => [] end) ++ ref
    end in
  if bool_decide (full = []) then []
  else
    let r := resolve_elems true [] (split 47 full) in
    if starts_with [47] r then r else 47 :: r.

Definition set_resolved (u : URL) (p : list Z) : URL := match setPath u p with Ok u' => u' | Err _ => u end.

Definition ResolveReference (u ref : URL) : URL :=
  let url := MkURL (if bool_decide (u_Scheme ref = []) then u_Scheme u else u_Scheme ref)
               (u_Opaque ref) (u_User ref) (u_Host ref) (u_Path ref) (u_RawPath ref) (u_OmitHost ref)
               (u_ForceQuery ref) (u_RawQuery ref) (u_Fragment ref) in
  if bool_decide (u_Scheme ref ≠ []) || bool_decide (u_Host ref ≠ []) || bool_decide (u_User ref ≠ None) then
    set_resolved url (resolvePath (EscapedPath ref) [])
  else if bool_decide (u_Opaque ref ≠ []) then
    MkURL (u_Scheme url) (u_Opaque url) None [] [] (u_RawPath url) (u_OmitHost url) (u_ForceQuery url)
      (u_RawQuery url) (u_Fragment url)
  else
    let inherits := bool_decide (u_Path ref = []) && negb (u_ForceQuery ref) && bool_decide (u_RawQuery ref = []) in
    let query := if inherits then u_RawQuery u else u_RawQuery ref in
    let fragment := if inherits && bool_decide (u_Fragment ref = []) then u_Fragment u else u_Fragment ref in
    if bool_decide (u_Path ref = []) && bool_decide (u_Opaque u ≠ []) then
      MkURL (u_Scheme url) (u_Opaque u) None [] [] (u_RawPath url) (u_OmitHost url) (u_ForceQuery url) query fragment
    else
      set_resolved
        (MkURL (u_Scheme url) (u_Opaque url) (u_User u) (u_Host u) (u_Path url) (u_RawPath url) (u_OmitHost url)
           (u_ForceQuery url) query fragment)
        (resolvePath (EscapedPath u) (EscapedPath ref)).

(** [u.Parse(ref)] *)
Definition URL_Parse (u : URL) (ref : list Z) : result URL := r ← Parse ref; Ok (ResolveReference u r).

(** *** Printing *)
Definition Userinfo_String (user : list Z * option (list Z)) : list Z :=
  escape encodeUserPassword user.1 ++
  match user.2 with Some p => 58 :: escape encodeUserPassword p | None => [] end.

Definition query_suffix (u : URL) : list Z :=
  if u_ForceQuery u || bool_decide (u_RawQuery u ≠ []) then 63 :: u_RawQuery u else [].

Definition URL_String (u : URL) : list Z :=
  let scheme := if bool_decide (u_Scheme u ≠ []) then u_Scheme u ++ [58] else [] in
  let rest :=
    if bool_decide (u_Opaque u ≠ []) then u_Opaque u
    else
      let named := bool_decide (u_Scheme u ≠ []) || bool_decide (u_Host u ≠ []) || bool_decide (u_User u ≠ None) in
      let omitted := u_OmitHost u && bool_decide (u_Host u = []) && bool_decide (u_User u = None) in
      let authority :=
        if named && negb omitted then
          (if bool_decide (u_Host u ≠ []) || bool_decide (u_Path u ≠ []) || bool_decide (u_User u ≠ None)
           then [47; 47] else []) ++
          match u_User u with Some user => Userinfo_String user ++ [64] | None => [] end ++
          escape encodeHost (u_Host u)
        else [] in
      let path := EscapedPath u in
      let slash := if bool_decide (path ≠ []) && negb (starts_with [47] path) && bool_decide (u_Host u ≠ [])
                   then [47] else [] in
      let dotted := if bool_decide (scheme ++ authority ++ slash = []) && bool_decide (58 ∈ (cut 47 path).1)
                    then [46; 47] else [] in
      authority ++ slash ++ dotted ++ path in
  scheme ++ rest ++ query_suffix u ++
  (if bool_decide (u_Fragment u ≠ []) then 35 :: escape encodeFragment (u_Fragment u) else []).

(** [URL.RequestURI] *)
Definition RequestURI (u : URL) : list Z :=
  (if bool_decide (u_Opaque u ≠ []) then
     (if starts_with [47; 47] (u_Opaque u) then u_Scheme u ++ 58 :: u_Opaque u else u_Opaque u)
   else
     let path := EscapedPath u in if bool_decide (path = []) then [47] else path)
  ++ query_suffix u.

(** *** Query values, as the pairs in their order *)
Definition parse_pair (part : list Z) : option (list Z * list Z) :=
  if bool_decide (59 ∈ part) || bool_decide (part = []) then None
  else
    let '(key, value) := cut 61 part in
    match unescape encodeQueryComponent key, unescape encodeQueryComponent (default [] value) with
    | Ok k, Ok v => Some (k, v)
    | _, _ => None
    end.
Definition Query (u : URL) : list (list Z * list Z) := omap parse_pair (split 38 (u_RawQuery u)).
Definition values (name : string) (q : list (list Z * list Z)) : list (list Z) :=
  (filter (λ p, p.1 = bytes name) q).*2.

(** [Values.Encode] sorts by key. *)
Fixpoint byte_lt (x y : list Z) : bool :=
  match x, y with
  | [], _ :: _ => true
  | a :: x', b :: y' => (a <? b) || ((a =? b) && byte_lt x' y')
  | _, [] => false
  end.
Fixpoint insert_pair (p : list Z * list Z) (l : list (list Z * list Z)) : list (list Z * list Z) :=
  match l with
  | [] => [p]
  | q :: l' => if byte_lt p.1 q.1 then p :: l else q :: insert_pair p l'
  end.
Definition Values_Encode (q : list (list Z * list Z)) : list Z :=
  join 38 ((λ p : list Z * list Z, QueryEscape p.1 ++ 61 :: QueryEscape p.2) <$> foldl (λ acc p, insert_pair p acc) [] q).
