(* ===== verification/UrlFacts.v ===== *)
(** Facts about [net/url]: escaping round trips, parsing of the URLs the clients
    build, and reference resolution. *)

From S2P Require Import Prelude Errors GoStrings Encodings NetIP Url.
Local Open Scope Z_scope.

(** ** Cutting *)
Lemma cut_none b l : b ∉ l → cut b l = (l, None).
Proof.
  induction l as [|c l IH]; intros Hb; simpl; [done|]. apply not_elem_of_cons in Hb as [Hc Hl].
  destruct (Z.eqb_spec c b); [done|]. by rewrite IH.
Qed.
Lemma cut_app b l k : b ∉ l → cut b (l ++ b :: k) = (l, Some k).
Proof.
  induction l as [|c l IH]; intros Hb; simpl; [by rewrite Z.eqb_refl|].
  apply not_elem_of_cons in Hb as [Hc Hl]. destruct (Z.eqb_spec c b); [done|]. by rewrite IH.
Qed.
Lemma cut_inv b l :
  (b ∉ fst (cut b l)) ∧ l = (cut b l).1 ++ match (cut b l).2 with Some k => b :: k | None => [] end.
Proof.
  induction l as [|c l [IH1 IH2]]; simpl; [split; [apply not_elem_of_nil|done]|].
  destruct (Z.eqb_spec c b); simplify_eq/=; [split; [apply not_elem_of_nil|done]|].
  destruct (cut b l) as [x y]; simplify_eq/=. split; [|congruence].
  apply not_elem_of_cons. by split.
Qed.
Lemma cut_last_none b l : b ∉ l → cut_last b l = None.
Proof.
  induction l as [|c l IH]; intros Hb; simpl; [done|]. apply not_elem_of_cons in Hb as [Hc Hl].
  rewrite IH by done. by destruct (Z.eqb_spec c b).
Qed.
Lemma cut_last_app b l k : b ∉ k → cut_last b (l ++ b :: k) = Some (l, k).
Proof.
  intros Hk. induction l as [|c l IH]; simpl; [|by rewrite IH].
  by rewrite cut_last_none, Z.eqb_refl.
Qed.
Lemma cut_last_inv b l :
  match cut_last b l with Some (x, y) => l = x ++ b :: y ∧ b ∉ y | None => b ∉ l end.
Proof.
  induction l as [|c l IH]; simpl; [apply not_elem_of_nil|].
  destruct (cut_last b l) as [[x y]|]; [destruct IH as [-> Hy]; by simpl|].
  destruct (Z.eqb_spec c b) as [->|Hc]; [done|]. apply not_elem_of_cons. split; [congruence|done].
Qed.
Lemma split_none b l : b ∉ l → split b l = [l].
Proof.
  induction l as [|c l IH]; intros Hb; simpl; [done|]. apply not_elem_of_cons in Hb as [Hc Hl].
  destruct (Z.eqb_spec c b); [done|]. by rewrite IH.
Qed.
Lemma split_app b l k : b ∉ l → split b (l ++ b :: k) = l :: split b k.
Proof.
  induction l as [|c l IH]; intros Hb; simpl; [by rewrite Z.eqb_refl|].
  apply not_elem_of_cons in Hb as [Hc Hl]. destruct (Z.eqb_spec c b); [done|]. by rewrite IH.
Qed.
Lemma split_join b ls : ls ≠ [] → Forall (λ l, b ∉ l) ls → split b (join b ls) = ls.
Proof.
  intros Hne H. induction H as [|l ls Hl H IH]; [done|]. destruct ls as [|l' ls]; simpl in *.
  - by apply split_none.
  - rewrite split_app by done. by rewrite IH.
Qed.

(** ** Escaping *)
Lemma unescape_app m a a' b :
  unescape m a = Ok a' → unescape m (a ++ b) = (b' ← unescape m b; Ok (a' ++ b')).
Proof.
  remember (length a) as n eqn:Hn. revert a a' Hn.
  induction (lt_wf n) as [n _ IH]. intros [|c a] a' -> H; simpl in *.
  { simplify_eq. by destruct (unescape m b). }
  destruct (c =? 37).
  - destruct a as [|x [|y a]]; simplify_eq/=.
    destruct (hexval x), (hexval y); simplify_eq/=.
    repeat (case_match; simplify_eq/=). apply bind_Ok in H as (r & Hr & [= <-]).
    erewrite (IH (length a)) by (done || lia). by destruct (unescape m b).
  - case_match; simplify_eq/=. apply bind_Ok in H as (r & Hr & [= <-]).
    erewrite (IH (length a)) by (done || lia). by destruct (unescape m b).
Qed.

Lemma unescape_escape m m' s :
  (∀ c, is_byte c → unescape m (escape_byte m' c) = Ok [c]) → Forall is_byte s → unescape m (escape m' s) = Ok s.
Proof.
  intros Hone. induction 1 as [|c s Hc Hs IH]; [done|]. unfold escape in *. cbn [mbind list_bind].
  erewrite unescape_app by eauto. by rewrite IH.
Qed.

(** A property of a single byte, by evaluation. *)
Lemma range_decide (P : Z → Prop) `{!∀ c, Decision (P c)} lo n c :
  forallb (λ c, bool_decide (P c)) (seqZ lo n) = true → lo ≤ c < lo + n → P c.
Proof.
  intros Hf Hc. apply (bool_decide_eq_true_1 (P c)). exact (by_cases_Z lo n (λ x, bool_decide (P x)) c Hc Hf).
Qed.
Lemma byte_decide (P : Z → Prop) `{!∀ c, Decision (P c)} c :
  forallb (λ c, bool_decide (P c)) (seqZ 0 256) = true → is_byte c → P c.
Proof.
  intros Hf Hc. by apply (range_decide P 0 256).
Qed.
Lemma escape_Forall (P : Z → Prop) m s :
  (∀ c, is_byte c → Forall P (escape_byte m c)) → Forall is_byte s → Forall P (escape m s).
Proof.
  intros Hone. induction 1 as [|c s Hc Hs IH]; [done|]. unfold escape in *. cbn [mbind list_bind].
  apply Forall_app. eauto.
Qed.

(** The bytes of an escaped path segment, and of an escaped query component. *)
Definition seg_byte (c : Z) : bool :=
  (33 <=? c) && (c <? 127) && negb (one_of "#/?" c) && (one_of "!$&'()*+,;=:@[]%" c || negb (shouldEscape c encodePath)).
Definition query_byte (c : Z) : bool := (33 <=? c) && (c <? 127) && negb (one_of "#&;=?" c).

Lemma seg_bytes s : Forall is_byte s → Forall (λ c, seg_byte c = true) (PathEscape s).
Proof. apply escape_Forall. intros c. by apply (byte_decide (λ c, Forall (λ c, seg_byte c = true) (escape_byte encodePathSegment c))). Qed.
Lemma query_bytes s : Forall is_byte s → Forall (λ c, query_byte c = true) (QueryEscape s).
Proof. apply escape_Forall. intros c. by apply (byte_decide (λ c, Forall (λ c, query_byte c = true) (escape_byte encodeQueryComponent c))). Qed.

Lemma unescape_path s : Forall is_byte s → unescape encodePath (PathEscape s) = Ok s.
Proof. apply unescape_escape. intros c. by apply (byte_decide (λ c, unescape encodePath (escape_byte encodePathSegment c) = Ok [c])). Qed.
Lemma unescape_segment s : Forall is_byte s → unescape encodePathSegment (PathEscape s) = Ok s.
Proof. apply unescape_escape. intros c. by apply (byte_decide (λ c, unescape encodePathSegment (escape_byte encodePathSegment c) = Ok [c])). Qed.
Lemma unescape_query s : Forall is_byte s → unescape encodeQueryComponent (QueryEscape s) = Ok s.
Proof. apply unescape_escape. intros c. by apply (byte_decide (λ c, unescape encodeQueryComponent (escape_byte encodeQueryComponent c) = Ok [c])). Qed.
Lemma PathEscape_inj s t : Forall is_byte s → Forall is_byte t → PathEscape s = PathEscape t → s = t.
Proof. intros Hs Ht H. pose proof (unescape_path s Hs) as E. rewrite H, unescape_path in E by done. congruence. Qed.

(** A byte outside a set is not in the text. *)
Lemma not_in (P : Z → bool) b l : Forall (λ c, P c = true) l → P b = false → b ∉ l.
Proof. intros Hl Hb Hin. rewrite Forall_forall in Hl. apply Hl in Hin. congruence. Qed.
Lemma all_of (P Q : Z → bool) l : Forall (λ c, P c = true) l → (∀ c, P c = true → Q c = true) → Forall (λ c, Q c = true) l.
Proof. intros Hl HPQ. eapply Forall_impl; [exact Hl|exact HPQ]. Qed.
Lemma forallb_Forall (P : Z → bool) l : forallb P l = true ↔ Forall (λ c, P c = true) l.
Proof. induction l; simpl; [done|]. rewrite andb_true_iff, Forall_cons. naive_solver. Qed.
Lemma no_ctl l : Forall (λ c, is_ctl c = false) l → existsb is_ctl l = false.
Proof. induction 1 as [|c l Hc Hl IH]; simpl; [done|]. by rewrite Hc, IH. Qed.

(** ** Paths made of escaped segments *)
Definition abspath (segs : list (list Z)) : list Z := mbind (λ s, 47 :: PathEscape s) segs.
Definition raw_path (segs : list (list Z)) : list Z := mbind (λ s, 47 :: s) segs.
Definition all_bytes (segs : list (list Z)) : Prop := Forall (Forall is_byte) segs.

Lemma abspath_bytes segs :
  all_bytes segs → Forall (λ c, (seg_byte c || (c =? 47)) = true) (abspath segs).
Proof.
  induction 1 as [|s segs Hs H IH]; [done|]. unfold abspath in *. cbn [mbind list_bind app].
  constructor; [done|]. apply Forall_app. split; [|done]. eapply all_of; [by apply seg_bytes|].
  intros c ->. done.
Qed.
Lemma unescape_abspath segs : all_bytes segs → unescape encodePath (abspath segs) = Ok (raw_path segs).
Proof.
  induction 1 as [|s segs Hs H IH]; [done|]. unfold abspath, raw_path in *. cbn [mbind list_bind app].
  change (47 :: PathEscape s ++ ?l) with ([47] ++ PathEscape s ++ l).
  erewrite unescape_app by done. erewrite unescape_app by by apply unescape_path. by rewrite IH.
Qed.
Lemma split_abspath x segs :
  47 ∉ x → all_bytes segs → split 47 (x ++ abspath segs) = x :: (PathEscape <$> segs).
Proof.
  intros Hx H. revert x Hx. induction H as [|s segs Hs H IH]; intros x Hx.
  - unfold abspath. cbn [mbind list_bind fmap list_fmap]. rewrite app_nil_r. by apply split_none.
  - unfold abspath in *. cbn [mbind list_bind fmap list_fmap app]. rewrite split_app by done. f_equal.
    apply IH. by eapply (not_in seg_byte); [apply seg_bytes|].
Qed.

(** [setPath] keeps the escaped form it was given. *)
Lemma setPath_escaped u p path :
  unescape encodePath p = Ok path → validEncoded p encodePath = true → path ≠ [42] →
  ∃ raw, setPath u p = Ok (with_path u path raw) ∧ ∀ u', EscapedPath (with_path u' path raw) = p.
Proof.
  intros Hp Hv Hs. unfold setPath. rewrite Hp. cbn [mbind result_bind]. case_bool_decide as E.
  - exists []. split; [done|]. intros u'. unfold EscapedPath, with_path. cbn [u_Path u_RawPath].
    rewrite (bool_decide_false (path = [42])) by done. by rewrite E.
  - exists p. split; [done|]. intros u'. unfold EscapedPath, with_path. cbn [u_Path u_RawPath].
    rewrite Hp, Hv, (bool_decide_true (path = path)) by done.
    case_bool_decide as Hne; [done|]. cbn [andb]. rewrite (bool_decide_false (path = [42])) by done.
    destruct p as [|c p]; [by simplify_eq/=|done].
Qed.

Definition dot_path (pre : list Z) (segs : list (list Z)) : Prop := (pre = [] ∨ pre = [46]) ∧ segs ≠ [] ∧ all_bytes segs.
Lemma setPath_abspath u pre segs :
  dot_path pre segs →
  ∃ raw, setPath u (pre ++ abspath segs) = Ok (with_path u (pre ++ raw_path segs) raw) ∧
         ∀ u', EscapedPath (with_path u' (pre ++ raw_path segs) raw) = pre ++ abspath segs.
Proof.
  intros (Hpre & Hne & Hb). apply setPath_escaped.
  - destruct Hpre as [->| ->]; [by apply unescape_abspath|].
    erewrite unescape_app by done. by rewrite unescape_abspath.
  - unfold validEncoded. rewrite forallb_app. apply andb_true_iff. split; [by destruct Hpre as [->| ->]|].
    apply forallb_Forall. eapply (all_of (λ c, seg_byte c || (c =? 47))); [by apply abspath_bytes|].
    intros c [H|H]%orb_true_iff; reflect_bools; [unfold seg_byte in H; by reflect_bools|by subst].
  - destruct segs as [|s segs]; [done|]. by destruct Hpre as [->| ->].
Qed.

(** ** Parsing of references and request targets *)
Lemma parse_getScheme c l : is_letter c = false → c ≠ 58 → getScheme (c :: l) = Ok ([], c :: l).
Proof. intros Hc H58. unfold getScheme. simpl. rewrite Hc. simpl. by rewrite (proj2 (Z.eqb_neq _ _) H58). Qed.

Lemma abspath_head segs : segs ≠ [] → ∃ l, abspath segs = 47 :: l.
Proof. destruct segs as [|s segs]; [done|]. intros _. by eexists. Qed.
Lemma starts_slash l : starts_with [47] (47 :: l) = true.
Proof. unfold starts_with. by apply bool_decide_eq_true. Qed.

(** The texts that no part of [parse] cuts. *)
Definition target_byte (c : Z) : bool := (33 <=? c) && (c <? 127) && negb (one_of "#?" c).
Lemma target_abspath segs : all_bytes segs → Forall (λ c, target_byte c = true) (abspath segs).
Proof.
  intros Hb. eapply all_of; [by apply abspath_bytes|]. intros c [H|H]%orb_true_iff; reflect_bools; [|by subst].
  unfold seg_byte in H. reflect_bools. unfold target_byte.
  assert (one_of "#?" c = false) as ->. { apply bool_decide_eq_false. unfold one_of in *. reflect_bools. set_solver. }
  apply andb_true_iff; split; [apply andb_true_iff; split; [apply Z.leb_le|apply Z.ltb_lt]|]; done.
Qed.
Lemma target_no_ctl l : Forall (λ c, target_byte c = true) l → existsb is_ctl l = false.
Proof.
  intros H. apply no_ctl. eapply Forall_impl; [exact H|]. intros c Hc. unfold target_byte in Hc. reflect_bools.
  unfold is_ctl. apply orb_false_iff. split; [apply Z.ltb_ge|apply Z.eqb_neq]; lia.
Qed.

Lemma Parse_ref segs :
  segs ≠ [] → all_bytes segs →
  ∃ raw, Parse (46 :: abspath segs) = Ok (with_path zero_URL (46 :: raw_path segs) raw) ∧
         ∀ u', EscapedPath (with_path u' (46 :: raw_path segs) raw) = 46 :: abspath segs.
Proof.
  intros Hne Hb.
  destruct (setPath_abspath zero_URL [46] segs) as (raw & Hset & Hesc); [by repeat split; auto|].
  exists raw. split; [|done]. cbn [app] in Hset.
  assert (Forall (λ c, target_byte c = true) (46 :: abspath segs)) as Ht by (constructor; [done|by apply target_abspath]).
  unfold Parse, parse. rewrite cut_none by by apply (not_in target_byte). rewrite target_no_ctl by done.
  rewrite (bool_decide_false (_ = [])), (bool_decide_false (_ = [42])) by done. cbn [negb orb require mbind result_bind].
  rewrite parse_getScheme by done. cbn [mbind result_bind]. rewrite cut_none by by apply (not_in target_byte).
  unfold parse_rest. cbn [u_Scheme fmap list_fmap]. rewrite (bool_decide_false ([] ≠ [])) by (intros []; done).
  destruct (abspath_head segs Hne) as [l El].
  assert ((cut 47 (46 :: abspath segs)).1 = [46]) as -> by by rewrite El.
  cbn [negb orb andb starts_with]. rewrite El in *. cbn. unfold with_path, zero_URL in Hset. cbn in Hset. by rewrite Hset.
Qed.

Definition query_text (q : list Z) : Prop := Forall (λ c, target_byte c = true) q.
Lemma cut_query p q :
  Forall (λ c, target_byte c = true) p → cut 63 (p ++ 63 :: q) = (p, Some q) ∧ cut 63 p = (p, None).
Proof. intros Hp. split; [apply cut_app|apply cut_none]; by apply (not_in target_byte). Qed.

Lemma ParseRequestURI_target segs q :
  segs ≠ [] → all_bytes segs → query_text q →
  ∃ raw, ParseRequestURI (abspath segs ++ (if bool_decide (q ≠ []) then 63 :: q else []))
         = Ok (with_path (with_query zero_URL q) (raw_path segs) raw) ∧
         ∀ u', EscapedPath (with_path u' (raw_path segs) raw) = abspath segs.
Proof.
  intros Hne Hb Hq.
  destruct (setPath_abspath (with_query zero_URL q) [] segs) as (raw & Hset & Hesc); [by repeat split; auto|].
  exists raw. split; [|done]. cbn [app] in Hset. unfold ParseRequestURI, parse.
  pose proof (target_abspath segs Hb) as Ht.
  assert (existsb is_ctl (abspath segs ++ if bool_decide (q ≠ []) then 63 :: q else []) = false) as ->.
  { rewrite existsb_app, target_no_ctl by done. destruct (bool_decide _); [|done]. cbn. by apply target_no_ctl. }
  destruct (abspath_head segs Hne) as [l El]. rewrite El in *. cbn [app].
  rewrite (bool_decide_false (_ = [])), (bool_decide_false (_ = [42])) by done. cbn [negb orb require mbind result_bind].
  rewrite parse_getScheme by done. cbn [mbind result_bind].
  destruct (cut_query (47 :: l) q Ht) as [C1 C2]. cbn [app] in C1.
  unfold with_path, with_query, zero_URL in Hset. cbn in Hset.
  destruct q as [|c q]; [rewrite bool_decide_false by (intros []; done); rewrite app_nil_r, C2
                        |rewrite bool_decide_true by done; rewrite C1];
    unfold parse_rest; cbn; by rewrite Hset.
Qed.

(** ** Reference resolution *)
Definition undotted (e : list Z) : Prop := e ≠ [46] ∧ e ≠ [46; 46].

Lemma abspath_elems segs : abspath segs = mbind (cons 47) (PathEscape <$> segs).
Proof. induction segs as [|s segs IH]; [done|]. unfold abspath in *. cbn [mbind list_bind fmap list_fmap]. by rewrite IH. Qed.

Lemma resolve_undotted dst es rest :
  Forall undotted es → resolve_elems false dst (es ++ rest) = resolve_elems false (dst ++ mbind (cons 47) es) rest.
Proof.
  intros H. revert dst. induction H as [|e es [H1 H2] H IH]; intros dst; cbn [mbind list_bind app]; [by rewrite app_nil_r|].
  cbn [resolve_elems]. rewrite !bool_decide_false by done. rewrite IH. cbn [app]. by rewrite <- !app_assoc.
Qed.

(** Where the path of a request ends up: a last segment [.] or [..] is
    resolved by the client. *)
Definition resolved (segs : list (list Z)) (last : list Z) : list (list Z) :=
  if bool_decide (last = [46]) then segs ++ [[]]
  else if bool_decide (last = [46; 46]) then removelast segs ++ [[]]
  else segs ++ [last].

Lemma abspath_app l k : abspath (l ++ k) = abspath l ++ abspath k.
Proof. unfold abspath. apply bind_app. Qed.
Lemma PathEscape_dots s : Forall is_byte s →
  (PathEscape s = [46] ↔ s = [46]) ∧ (PathEscape s = [46; 46] ↔ s = [46; 46]).
Proof.
  assert (Forall is_byte [46] ∧ Forall is_byte [46; 46]) as [H1 H2] by (unfold is_byte; split; repeat constructor; lia).
  intros Hs. repeat split; intros E; try by rewrite E.
  - by apply PathEscape_inj.
  - by apply PathEscape_inj.
Qed.

Lemma resolve_last segs e :
  segs ≠ [] → all_bytes segs → Forall is_byte e →
  resolve_elems false (abspath segs) [PathEscape e] = abspath (resolved segs e).
Proof.
  intros Hne Hb He. destruct (PathEscape_dots e He) as [D1 D2]. unfold resolved. cbn [resolve_elems].
  rewrite (bool_decide_ext _ _ D1), (bool_decide_ext _ _ D2).
  case_bool_decide; [by rewrite abspath_app|]. case_bool_decide; [|rewrite abspath_app; unfold abspath; cbn; by rewrite app_nil_r].
  destruct (exists_last Hne) as (init & x & ->). apply Forall_app in Hb as [Hi Hx]. inversion_clear Hx as [|?? Hx' _].
  rewrite removelast_last, !abspath_app. unfold abspath at 2. cbn [mbind list_bind]. rewrite app_nil_r.
  rewrite cut_last_app by by apply (not_in seg_byte); [apply seg_bytes|]. done.
Qed.

Lemma resolve_dot first dst es : es ≠ [] → resolve_elems first dst ([46] :: es) = resolve_elems false dst es.
Proof. by destruct es. Qed.

Lemma resolvePath_ref base segs e :
  base = [] ∨ base = [47] → segs ≠ [] → all_bytes (segs ++ [e]) → Forall undotted (PathEscape <$> segs) →
  resolvePath base (46 :: abspath (segs ++ [e])) = abspath (resolved segs e).
Proof.
  intros Hbase Hne Hb Hu. pose proof Hb as Hb'. apply Forall_app in Hb' as [Hs He]. inversion_clear He as [|?? He' _].
  assert (∀ first, resolve_elems first [] ([46] :: (PathEscape <$> segs ++ [e])) = abspath (resolved segs e)) as R.
  { intros first. rewrite fmap_app, resolve_dot by (by intros [_ [=]]%app_nil).
    rewrite resolve_undotted, <- abspath_elems by done. by apply resolve_last. }
  assert (∃ r, abspath (resolved segs e) = 47 :: r) as [r Er].
  { apply abspath_head. unfold resolved. repeat case_bool_decide; by intros [_ [=]]%app_nil. }
  unfold resolvePath. cbn [Z.eqb Pos.eqb].
  assert (split 47 ([46] ++ abspath (segs ++ [e])) = [46] :: (PathEscape <$> segs ++ [e])) as Sp by (apply split_abspath; [set_solver|done]).
  cbn [app] in Sp. destruct Hbase as [->| ->];
    [change (cut_last 47 []) with (@None (list Z * list Z))|change (cut_last 47 [47]) with (Some (@nil Z, @nil Z))]; cbn [app].
  - rewrite bool_decide_false by done. rewrite Sp, R, Er, starts_slash. done.
  - rewrite bool_decide_false by done.
    change (split 47 (47 :: ?l)) with ([] :: split 47 l). rewrite Sp.
    change (resolve_elems true [] ([] :: ?es)) with (resolve_elems false [] es). rewrite R, Er, starts_slash. done.
Qed.

(** ** The URL of a request *)
Definition host_URL (host : list Z) : URL := MkURL (bytes "http") [] None host [] [] false false [] [].

(** The server's URL as the client parses it: only its host matters. *)
Definition server_URL (host : list Z) (u : URL) : Prop :=
  u_Scheme u = bytes "http" ∧ u_Opaque u = [] ∧ u_User u = None ∧ u_Host u = host ∧
  (EscapedPath u = [] ∨ EscapedPath u = [47]).

Lemma resolved_ok segs e :
  segs ≠ [] → all_bytes segs → Forall is_byte e → resolved segs e ≠ [] ∧ all_bytes (resolved segs e).
Proof.
  intros Hne Hb He. unfold resolved.
  assert (all_bytes (removelast segs)) as Hr.
  { destruct (exists_last Hne) as (init & x & ->). rewrite removelast_last. by apply Forall_app in Hb as []. }
  repeat case_bool_decide; (split; [by intros [_ [=]]%app_nil|]); apply Forall_app; (split; [done|]); by repeat constructor.
Qed.

#[local] Arguments setPath : simpl never.
Lemma URL_Parse_ref host u segs e :
  server_URL host u → segs ≠ [] → all_bytes (segs ++ [e]) → Forall undotted (PathEscape <$> segs) →
  ∃ raw, URL_Parse u (46 :: abspath (segs ++ [e])) = Ok (with_path (host_URL host) (raw_path (resolved segs e)) raw) ∧
         ∀ u', EscapedPath (with_path u' (raw_path (resolved segs e)) raw) = abspath (resolved segs e).
Proof.
  intros (Hs & Ho & Hu & Hh & Hp) Hne Hb Hd.
  destruct (Parse_ref (segs ++ [e])) as (raw & HP & HE); [by intros [_ [=]]%app_nil|done|].
  pose proof Hb as Hb'. apply Forall_app in Hb' as [Hsb He]. inversion_clear He as [|?? He' _].
  destruct (resolved_ok segs e) as [Hr Hrb]; [done..|].
  destruct (setPath_abspath (with_path (host_URL host) (46 :: raw_path (segs ++ [e])) raw) [] (resolved segs e))
    as (raw' & Hset & Hesc); [by repeat split; auto|].
  exists raw'. split; [|done]. unfold URL_Parse. rewrite HP. cbn [mbind result_bind]. f_equal.
  unfold ResolveReference. rewrite HE, resolvePath_ref by done. unfold set_resolved.
  unfold with_path, zero_URL, host_URL in *. rewrite Hs, Hu, Hh. cbn in Hset |- *. by rewrite Hset.
Qed.

(** *** Loopback hosts *)
Definition loopback_names : list string := ["localhost"; "127.0.0.1"; "[::1]"].
Definition loopback_host (h : list Z) : Prop :=
  ∃ name port, h = bytes name ++ port ∧ name ∈ loopback_names ∧ validOptionalPort port = true.

Definition host_byte (c : Z) : bool := is_letter c || is_digit c || one_of ".:[]" c.
Lemma host_byte_plain c : host_byte c = true → shouldEscape c encodeHost = false ∧ target_byte c = true ∧ c ≠ 37 ∧ c ≠ 47 ∧ c ≠ 64.
Proof.
  intros H. assert (is_byte c) as Hc.
  { unfold host_byte, is_letter, is_digit in H. unfold is_byte.
    apply orb_true_iff in H as [[H|H]%orb_true_iff|H]; [apply orb_true_iff in H as [H|H]| |]; reflect_bools; try lia.
    unfold one_of in H. apply bool_decide_eq_true in H.
    repeat (apply elem_of_cons in H as [->|H]; [split; vm_compute; congruence|]). by apply elem_of_nil in H. }
  revert H. by apply (byte_decide (λ c, host_byte c = true →
    shouldEscape c encodeHost = false ∧ target_byte c = true ∧ c ≠ 37 ∧ c ≠ 47 ∧ c ≠ 64)).
Qed.

Lemma escape_plain m l : m ≠ encodeQueryComponent → Forall (λ c, shouldEscape c m = false) l → escape m l = l.
Proof.
  intros Hm. induction 1 as [|c l Hc H IH]; [done|]. unfold escape in *. cbn [mbind list_bind]. rewrite IH.
  unfold escape_byte. rewrite Hc, (proj2 (beq_false m _) Hm), andb_false_r. done.
Qed.
Lemma unescape_plain l : Forall (λ c, host_byte c = true) l → unescape encodeHost l = Ok l.
Proof.
  induction 1 as [|c l Hc H IH]; [done|]. destruct (host_byte_plain c Hc) as (H1 & _ & H2 & _). simpl.
  rewrite (proj2 (Z.eqb_neq _ _) H2), H1, !andb_false_r, IH. done.
Qed.

Lemma port_bytes port :
  validOptionalPort port = true →
  Forall (λ c, host_byte c = true) port ∧ Forall (λ c, c = 58 ∨ is_digit c = true) port.
Proof.
  destruct port as [|c port]; [by split|]. simpl. intros [->%Z.eqb_eq H]%andb_true_iff.
  apply forallb_Forall in H. split; constructor; auto.
  - eapply Forall_impl; [exact H|]. intros c Hc. unfold host_byte. by rewrite Hc, orb_true_r.
  - eapply Forall_impl; [exact H|]. auto.
Qed.
Lemma loopback_bytes h : loopback_host h → Forall (λ c, host_byte c = true) h ∧ h ≠ [].
Proof.
  intros (name & port & -> & Hn & Hp). destruct (port_bytes port Hp) as [Hb _].
  split; [apply Forall_app; split; [|done]|];
    repeat (apply elem_of_cons in Hn as [->|Hn]; [by repeat constructor || done|]); by apply elem_of_nil in Hn.
Qed.

Lemma port_no port c : validOptionalPort port = true → c ≠ 58 → is_digit c = false → c ∉ port.
Proof.
  intros Hp Hc Hd Hin. destruct (port_bytes port Hp) as [_ Hf]. rewrite Forall_forall in Hf.
  destruct (Hf c Hin); congruence.
Qed.

Lemma parseHost_named name port :
  name ∈ ["localhost"; "127.0.0.1"] → validOptionalPort port = true → parseHost (bytes name ++ port) = unescape encodeHost (bytes name ++ port).
Proof.
  intros Hn Hp. unfold parseHost. rewrite cut_last_none.
  - destruct port as [|c digits].
    + rewrite app_nil_r, cut_none; [done|].
      repeat (apply elem_of_cons in Hn as [->|Hn]; [by apply (bool_decide_unpack _)|]). by apply elem_of_nil in Hn.
    + simpl in Hp. apply andb_true_iff in Hp as [->%Z.eqb_eq Hd]. rewrite cut_app; [by rewrite Hd|].
      repeat (apply elem_of_cons in Hn as [->|Hn]; [by apply (bool_decide_unpack _)|]). by apply elem_of_nil in Hn.
  - rewrite not_elem_of_app. split; [|by apply port_no].
    repeat (apply elem_of_cons in Hn as [->|Hn]; [by apply (bool_decide_unpack _)|]). by apply elem_of_nil in Hn.
Qed.
Lemma parseHost_v6 port :
  validOptionalPort port = true → parseHost (bytes "[::1]" ++ port) = Ok (bytes "[::1]" ++ port).
Proof.
  intros Hp. unfold parseHost. change (bytes "[::1]" ++ port) with ([] ++ 91 :: bytes "::1]" ++ port).
  rewrite cut_last_app; [|rewrite not_elem_of_app; split; [by apply (bool_decide_unpack _)|by apply port_no]].
  change (bytes "::1]" ++ port) with (bytes "::1" ++ 93 :: port). rewrite cut_last_app by by apply port_no.
  rewrite Hp. cbn [require mbind result_bind]. destruct (port_bytes port Hp) as [Hb _]. rewrite (unescape_plain port) by done.
  cbn [mbind result_bind]. assert (cut_zone (bytes "::1") = None) as -> by done.
  assert (unescape encodeHost (bytes "::1") = Ok (bytes "::1")) as -> by done.
  cbn [mbind result_bind]. assert (parseAddrBytes (bytes "::1") = Some (Addr6 1 "")) as -> by done. done.
Qed.
Lemma parseHost_loopback h : loopback_host h → parseHost h = Ok h.
Proof.
  intros Hl. destruct (loopback_bytes h Hl) as [Hb _]. destruct Hl as (name & port & -> & Hn & Hp).
  unfold loopback_names in Hn. rewrite !elem_of_cons in Hn. destruct Hn as [->|[->|[->|[]%elem_of_nil]]];
    [rewrite parseHost_named by (done || set_solver); by apply unescape_plain..|by apply parseHost_v6].
Qed.
Lemma parseAuthority_loopback h : loopback_host h → parseAuthority h = Ok (None, h).
Proof.
  intros Hl. destruct (loopback_bytes h Hl) as [Hb _]. unfold parseAuthority. rewrite cut_last_none.
  - by rewrite parseHost_loopback.
  - intros Hin. rewrite Forall_forall in Hb. by destruct (host_byte_plain 64 (Hb _ Hin)) as (_ & _ & _ & _ & []).
Qed.

(** *** Printing and parsing again *)
Definition query_tail (q : list Z) : list Z := if bool_decide (q ≠ []) then 63 :: q else [].

Lemma URL_String_request h segs q raw :
  loopback_host h → segs ≠ [] → EscapedPath (with_path (with_query (host_URL h) q) (raw_path segs) raw) = abspath segs →
  URL_String (with_path (with_query (host_URL h) q) (raw_path segs) raw) = bytes "http://" ++ h ++ abspath segs ++ query_tail q.
Proof.
  intros Hl Hne HE. destruct (loopback_bytes h Hl) as [Hb Hh]. unfold URL_String. rewrite HE.
  destruct (abspath_head segs Hne) as [l El]. rewrite El.
  unfold with_path, with_query, host_URL, query_suffix, query_tail. cbn [u_Scheme u_Opaque u_User u_Host u_Path u_OmitHost u_ForceQuery u_RawQuery u_Fragment].
  rewrite (bool_decide_true (h ≠ [])) by done. rewrite escape_plain; [|done|].
  - rewrite (bool_decide_false (h = [])) by done. cbn. by rewrite <- !app_assoc, !app_nil_r.
  - eapply Forall_impl; [exact Hb|]. intros c Hc. by apply host_byte_plain.
Qed.

Lemma getScheme_http rest : getScheme (bytes "http:" ++ rest) = Ok (bytes "http", rest).
Proof. done. Qed.

Lemma target_host h : loopback_host h → Forall (λ c, target_byte c = true) h ∧ 47 ∉ h.
Proof.
  intros Hl. destruct (loopback_bytes h Hl) as [Hb _]. split.
  - eapply Forall_impl; [exact Hb|]. intros c Hc. by apply host_byte_plain.
  - intros Hin. rewrite Forall_forall in Hb. by destruct (host_byte_plain 47 (Hb _ Hin)) as (_ & _ & _ & [] & _).
Qed.

Lemma target_query p q :
  Forall (λ c, target_byte c = true) p → query_text q →
  existsb is_ctl (p ++ query_tail q) = false ∧ 35 ∉ p ++ query_tail q.
Proof.
  intros Hp Hq. unfold query_tail. split.
  - rewrite existsb_app, target_no_ctl by done. destruct (bool_decide _); [|done]. cbn. by apply target_no_ctl.
  - rewrite not_elem_of_app. split; [by apply (not_in target_byte)|]. destruct (bool_decide _); [|apply not_elem_of_nil].
    apply not_elem_of_cons. split; [done|]. by apply (not_in target_byte).
Qed.
Lemma cut_query_tail {A} p q (f : list Z → bool → list Z → A) :
  Forall (λ c, target_byte c = true) p →
  match cut 63 (p ++ query_tail q) with
  | (before, Some []) => f before true []
  | (before, Some query) => f before false query
  | (before, None) => f before false []
  end = f p false q.
Proof.
  intros Hp. destruct (cut_query p q Hp) as [C1 C2]. unfold query_tail.
  destruct q as [|c q]; [by rewrite bool_decide_false, app_nil_r, C2 by (intros []; done)|].
  by rewrite bool_decide_true, C1 by done.
Qed.

Lemma Parse_printed h segs q :
  loopback_host h → segs ≠ [] → all_bytes segs → query_text q →
  ∃ raw, Parse (bytes "http://" ++ h ++ abspath segs ++ query_tail q)
         = Ok (with_path (with_query (host_URL h) q) (raw_path segs) raw) ∧
         ∀ u', EscapedPath (with_path u' (raw_path segs) raw) = abspath segs.
Proof.
  intros Hl Hne Hb Hq. destruct (target_host h Hl) as [Hh H47].
  destruct (setPath_abspath (with_query (host_URL h) q) [] segs) as (raw & Hset & Hesc); [by repeat split; auto|].
  exists raw. split; [|done]. cbn [app] in Hset.
  assert (Forall (λ c, target_byte c = true) (bytes "//" ++ h ++ abspath segs)) as Ht.
  { apply Forall_app. split; [by repeat constructor|]. apply Forall_app. split; [done|by apply target_abspath]. }
  assert (Forall (λ c, target_byte c = true) (bytes "http:" ++ bytes "//" ++ h ++ abspath segs)) as Ht'.
  { apply Forall_app. split; [by repeat constructor|done]. }
  destruct (target_query _ q Ht' Hq) as [Hctl H35]. rewrite <- !app_assoc in Hctl, H35.
  unfold Parse. change (bytes "http://" ++ ?l) with (bytes "http:" ++ bytes "//" ++ l). rewrite cut_none by done.
  unfold parse. rewrite Hctl, (bool_decide_false (_ = [])), (bool_decide_false (_ = [42])) by done.
  cbn [negb orb require mbind result_bind]. rewrite getScheme_http. cbn [mbind result_bind].
  rewrite (app_assoc h), (app_assoc (bytes "//")).
  rewrite (cut_query_tail _ q (λ a b c, (a, b, c))) by done.
  unfold parse_rest. destruct (abspath_head segs Hne) as [l El].
  assert (cut 47 (drop 2 (bytes "//" ++ h ++ abspath segs)) = (h, Some l)) as ->.
  { cbn [drop bytes app]. rewrite El. by apply cut_app. }
  change (lower <$> bytes "http") with (bytes "http"). unfold host_URL, with_query in Hset. cbn in Hset |- *.
  rewrite parseAuthority_loopback by done. cbn [mbind result_bind]. rewrite <- El, Hset. done.
Qed.
