(* ===== verification/Validate.v ===== *)
(** Request validation: [internal/service/validate.go], [ids.go] and
    [pagination.go]. *)

From S2P Require Import Prelude Errors GoStrings Encodings Utf8 NetIP.
Local Open Scope Z_scope.

(** ** CIDR blocks *)

(** [ParseCIDR] *)
Definition ParseCIDR (raw : string) : result Prefix :=
  match ParsePrefix raw with
  | None => Err (invalidParameter (Sprintf "invalid CIDR block %q" [raw]))
  | Some prefix =>
      if negb (Is4 (p_ip prefix)) || (p_bits prefix <? 16) || (28 <? p_bits prefix)
      then Err (invalidParameter
        (lit "CIDR block must be IPv4 with a prefix length from /16 to /28"))
      else Ok (Masked prefix)
  end.

Definition subnetRangeError : error :=
  ErrService (MkError "InvalidSubnet.Range" (lit "subnet CIDR must be contained in the VPC CIDR") "" 400).
Definition subnetConflictError : error :=
  ErrService (MkError "InvalidSubnet.Conflict" (lit "subnet CIDR overlaps an existing subnet") "" 409).

(** [ValidateSubnetRange] *)
Definition ValidateSubnetRange (vpc subnet : Prefix) : result unit :=
  if negb (IsValid vpc) || negb (IsValid subnet) ||
     negb (Is4 (p_ip vpc)) || negb (Is4 (p_ip subnet)) ||
     (p_bits subnet <? p_bits vpc) ||
     negb (Contains (Masked vpc) (p_ip (Masked subnet)))
  then Err subnetRangeError
  else Ok tt.

(** [Overlaps] *)
Definition Overlaps (a b : Prefix) : bool :=
  if negb (IsValid a) || negb (IsValid b) || negb (Is4 (p_ip a)) || negb (Is4 (p_ip b))
  then false
  else let a := Masked a in let b := Masked b in
       Contains a (p_ip b) || Contains b (p_ip a).

(** [ValidateSubnetDisjoint] *)
Fixpoint ValidateSubnetDisjoint (subnet : Prefix) (siblings : list Prefix) : result unit :=
  match siblings with
  | [] => Ok tt
  | sibling :: rest =>
      if Overlaps subnet sibling then Err subnetConflictError
      else ValidateSubnetDisjoint subnet rest
  end.

(** [Gateway] *)
Definition Gateway (prefix : Prefix) : Addr :=
  if negb (IsValid prefix) || negb (Is4 (p_ip prefix)) then AddrZero
  else Next (p_ip (Masked prefix)).

(** [firstAssignable] *)
Definition firstAssignable (prefix : Prefix) : Addr :=
  if negb (IsValid prefix) || negb (Is4 (p_ip prefix)) then AddrZero
  else Nat.iter 4 Next (p_ip (Masked prefix)).

(** [binary.BigEndian.Uint32] of [As4()]. *)
Definition addr_uint32 (a : Addr) : Z := match a with Addr4 v => v | _ => 0 end.

(** [reservedAddress], with [uint32] arithmetic. *)
Definition reservedAddress (prefix : Prefix) (addr : Addr) : bool :=
  if negb (IsValid prefix) || negb (Is4 (p_ip prefix)) ||
     (p_bits prefix <? 16) || (28 <? p_bits prefix) ||
     negb (Is4 addr) || negb (Contains prefix addr)
  then false
  else
    let base := addr_uint32 (p_ip (Masked prefix)) in
    let offset := wrapu32 (addr_uint32 addr - base) in
    let last := wrapu32 (wrapu32 (Z.shiftl 1 (32 - p_bits prefix)) - 1) in
    (offset <=? 3) || (offset =? last).

(** ** Names *)

(** [ValidateName] *)
Definition ValidateName (raw : string) : result string :=
  if negb (ValidString raw) then Err (invalidParameter (lit "name must be valid UTF-8"))
  else
    let name := TrimSpace raw in
    let count := RuneCountInString name in
    if (count <? 1) || (255 <? count)
    then Err (invalidParameter (lit "name must have 1 to 255 Unicode characters"))
    else if existsb IsControl (range_runes name)
    then Err (invalidParameter (lit "name must not contain control characters"))
    else Ok name.

(** ** Identifiers *)

(** [validIDPrefix] *)
Definition validIDPrefix (prefix : string) : bool :=
  let l := bytes prefix in
  if (slen prefix <? 2) || negb (bool_decide (last l = Some 45)) then false
  else if existsb (λ ch, ((ch <? 97) || (122 <? ch)) && ((ch <? 48) || (57 <? ch)) && negb (ch =? 45))
                  (take (length l - 1) l)
  then false
  else match l with
       | c :: _ => (97 <=? c) && (c <=? 122)
       | [] => false
       end.

(** [NewID]: [random] is the byte source; the call reads nine bytes of it. *)
Definition NewID (prefix : string) (random : list Z) : result string :=
  if negb (validIDPrefix prefix) then Err (invalidParameter (lit "invalid resource ID prefix"))
  else if (length random <? 9)%nat
  then Err (Wrapf (Sprintf "generate %s ID: %w" [prefix])
             (ErrIO (if bool_decide (random = []) then "EOF" else "unexpected EOF")))
  else Ok (prefix +:+ of_bytes (take 17 (bytes (hex_EncodeToString (take 9 random))))).

(** ** Pages *)

(** [pageSize] *)
Definition pageSize (limit : Z) : result Z :=
  if limit =? 0 then Ok 50
  else if (limit <? 1) || (100 <? limit)
  then Err (invalidParameter (lit "limit must be from 1 to 100"))
  else Ok limit.

(** [validPageID] *)
Definition validPageID (kind id : string) : bool :=
  let prefix := if kind ==? "instance" then "i-" else kind +:+ "-" in
  if negb (HasPrefix id prefix) || negb (slen id =? slen prefix + 17) then false
  else forallb is_hex_lower (drop (String.length prefix) (bytes id)).

(** [encodePageToken] *)
Definition encodePageToken (kind lastID : string) : string :=
  b64_EncodeToString (bytes (kind +:+ ":" +:+ lastID)).

(** [decodePageToken] *)
Definition decodePageToken (kind token : string) : result string :=
  if token ==? "" then Ok ""
  else match b64_DecodeString token with
  | None => Err (invalidParameter (lit "invalid page_token"))
  | Some decoded =>
      let value := of_bytes decoded in
      let prefix := kind +:+ ":" in
      if negb (HasPrefix value prefix)
      then Err (invalidParameter (lit "page_token belongs to a different resource type"))
      else
        let id := TrimPrefix value prefix in
        if negb (validPageID kind id) then Err (invalidParameter (lit "invalid page_token"))
        else Ok id
  end.

(** ** Canonical CIDR blocks: what the services store *)
Definition canonical (p : Prefix) : Prop :=
  valid4 p ∧ Masked p = p ∧ 16 ≤ p_bits p ≤ 28.

Lemma valid4_IsValid p : valid4 p → IsValid p = true ∧ Is4 (p_ip p) = true.
Proof.
  intros (v & Hv & _ & Hb). unfold IsValid. rewrite Hv. split; [|done]. apply Z.leb_le. lia.
Qed.

Lemma canonical_base p : canonical p → p_ip p = Addr4 (base4 p).
Proof. intros (Hv & Hm & _). rewrite Masked4 in Hm by done. by rewrite <- Hm at 1. Qed.

Lemma ParseCIDR_inv raw p :
  ParseCIDR raw = Ok p → ∃ q, ParsePrefix raw = Some q ∧ valid4 q ∧ 16 ≤ p_bits q ≤ 28 ∧ p = Masked q.
Proof.
  unfold ParseCIDR. destruct (ParsePrefix raw) as [q|] eqn:Hq; [|done].
  case_match eqn:Hc; [done|]. intros [= <-].
  apply orb_false_iff in Hc as [[Hc1 Hc2]%orb_false_iff Hc3]. reflect_bools.
  exists q. split_and!; try done; try lia. by eapply ParsePrefix_valid4.
Qed.

Lemma ParseCIDR_canonical raw p : ParseCIDR raw = Ok p → canonical p.
Proof.
  intros (q & _ & Hv & Hb & ->)%ParseCIDR_inv. split_and!.
  - by apply valid4_Masked.
  - by apply Masked_idemp.
  - rewrite Masked4 by done. simpl. lia.
  - rewrite Masked4 by done. simpl. lia.
Qed.

Lemma ParseCIDR_String p : canonical p → ParseCIDR (Prefix_String p) = Ok p.
Proof.
  intros (Hv & Hm & Hb). unfold ParseCIDR. rewrite ParsePrefix_String by done.
  destruct (valid4_IsValid p Hv) as [_ ->]. simpl.
  rewrite (proj2 (Z.ltb_ge _ _)), (proj2 (Z.ltb_ge _ _)) by lia. simpl. by rewrite Hm.
Qed.

Lemma base4_in p : valid4 p → Contains p (p_ip p) = true.
Proof.
  intros Hv. pose proof Hv as (v & Hip & Hr & Hb). rewrite Hip. apply Contains4; [done|].
  unfold base4, size4. rewrite Hip. apply clear_low_bounds. lia.
Qed.

Lemma Contains_Masked p a : valid4 p → Contains (Masked p) a = Contains p a.
Proof.
  intros Hv. destruct a as [|w|w z].
  - unfold Contains. rewrite Masked4 by done. destruct Hv as (v & -> & _). by rewrite !andb_false_r.
  - apply eq_true_iff_eq. rewrite !Contains4 by auto using valid4_Masked.
    by rewrite base4_Masked, size4_Masked.
  - unfold Contains. rewrite Masked4 by done. destruct Hv as (v & -> & _). by rewrite !andb_false_r.
Qed.

(** ** Correctness of the range checks *)
Lemma Overlaps_ranges a b :
  valid4 a → valid4 b →
  Overlaps a b = true ↔
  (base4 a < base4 b + size4 b ∧ base4 b < base4 a + size4 a).
Proof.
  intros Ha Hb. unfold Overlaps.
  destruct (valid4_IsValid a Ha) as [-> ->], (valid4_IsValid b Hb) as [-> ->]. simpl.
  rewrite !Contains_Masked by done. rewrite !Masked4 by done. simpl.
  rewrite orb_true_iff, !Contains4 by done.
  pose proof (size4_pos a Ha). pose proof (size4_pos b Hb). lia.
Qed.

Lemma Overlaps_comm a b : valid4 a → valid4 b → Overlaps a b = Overlaps b a.
Proof. intros. apply eq_true_iff_eq. rewrite !Overlaps_ranges by done. lia. Qed.

Lemma ValidateSubnetDisjoint_Ok subnet siblings :
  ValidateSubnetDisjoint subnet siblings = Ok tt ↔
  Forall (λ s, Overlaps subnet s = false) siblings.
Proof.
  induction siblings as [|s rest IH]; simpl; [by split; [constructor|]|].
  rewrite Forall_cons, <- IH. destruct (Overlaps subnet s); naive_solver.
Qed.

Lemma ValidateSubnetRange_ranges vpc subnet :
  valid4 vpc → valid4 subnet →
  ValidateSubnetRange vpc subnet = Ok tt ↔
  (base4 vpc ≤ base4 subnet ∧ base4 subnet + size4 subnet ≤ base4 vpc + size4 vpc).
Proof.
  intros Hv Hs. unfold ValidateSubnetRange.
  destruct (valid4_IsValid vpc Hv) as [-> ->], (valid4_IsValid subnet Hs) as [-> ->]. simpl.
  rewrite <- range4_subset by done. rewrite Contains_Masked, (Masked4 subnet) by done. simpl.
  rewrite <- Contains4 by done.
  destruct (p_bits subnet <? p_bits vpc) eqn:E; reflect_bools; simpl; [split; [done|lia]|].
  destruct (Contains vpc _); simpl; naive_solver lia.
Qed.

(** The offset of an address in its block, as [reservedAddress] computes it. *)
Lemma reservedAddress_ranges p w :
  canonical p → Contains p (Addr4 w) = true →
  reservedAddress p (Addr4 w) = true ↔ w ≤ base4 p + 3 ∨ w = base4 p + size4 p - 1.
Proof.
  intros (Hv & Hm & Hb) Hc. unfold reservedAddress. rewrite Hc.
  destruct (valid4_IsValid p Hv) as [-> ->]. simpl.
  rewrite (proj2 (Z.ltb_ge _ _)), (proj2 (Z.ltb_ge _ _)) by lia. simpl.
  rewrite Masked4 by done. simpl. apply Contains4 in Hc; [|done].
  pose proof (base4_range p Hv). pose proof (size4_pos p Hv).
  assert (size4 p < 2 ^ 32) by (unfold size4; apply Z.pow_lt_mono_r; lia).
  rewrite Z.shiftl_1_l. fold (size4 p).
  rewrite !wrapu32_small by (rewrite ?wrapu32_small; lia).
  rewrite orb_true_iff, Z.leb_le, Z.eqb_eq. lia.
Qed.

(** ** Names *)
Lemma ValidateName_inv raw name :
  ValidateName raw = Ok name →
  ValidString raw = true ∧ name = TrimSpace raw ∧
  1 ≤ RuneCountInString name ≤ 255 ∧ existsb IsControl (range_runes name) = false.
Proof.
  unfold ValidateName. case_match eqn:Hv; [done|]. case_match eqn:Hc; [done|].
  case_match eqn:Hk; [done|]. intros [= <-]. reflect_bools. split_and!; auto; lia.
Qed.

Lemma ValidateName_fixed raw name : ValidateName raw = Ok name → ValidateName name = Ok name.
Proof.
  intros (Hv & Hn & Hc & Hk)%ValidateName_inv. unfold ValidateName.
  assert (ValidString name = true) as -> by (subst; by apply ValidString_TrimSpace). simpl.
  assert (TrimSpace name = name) as -> by (subst; by apply TrimSpace_idemp).
  rewrite (proj2 (Z.ltb_ge _ _)), (proj2 (Z.ltb_ge _ _)) by lia. simpl. by rewrite Hk.
Qed.

(** ** Identifiers and page tokens *)
Lemma validPageID_shape kind id :
  validPageID kind id = true ↔
  ∃ hex, id = (if kind ==? "instance" then "i-" else kind +:+ "-") +:+ hex ∧
         String.length hex = 17%nat ∧ forallb is_hex_lower (bytes hex) = true.
Proof.
  unfold validPageID. set (prefix := if kind ==? "instance" then "i-" else kind +:+ "-").
  destruct (HasPrefix id prefix) eqn:Hp; simpl.
  - apply HasPrefix_spec in Hp as [hex ->]. unfold slen. rewrite length_string_app.
    rewrite bytes_app, drop_app_length' by (by rewrite length_bytes).
    destruct (_ =? _) eqn:E; reflect_bools; simpl.
    + split; [intros; exists hex; split_and!; auto; lia|].
      by intros (hex' & ->%(inj _) & _ & ?).
    + split; [done|]. intros (hex' & ->%(inj _) & ? & _). lia.
  - split; [done|]. intros (hex & -> & _).
    assert (HasPrefix (prefix +:+ hex) prefix = true) by (apply HasPrefix_spec; eauto). congruence.
Qed.

Lemma decode_encode_token kind id :
  validPageID kind id = true → decodePageToken kind (encodePageToken kind id) = Ok id.
Proof.
  intros Hid. unfold decodePageToken, encodePageToken.
  destruct (_ ==? "") eqn:E; reflect_bools.
  { exfalso. rewrite bytes_app in E. destruct (bytes kind); by apply b64_Encode_nonempty in E. }
  rewrite b64_Decode_Encode, of_bytes_bytes by apply bytes_range.
  rewrite <- string_app_assoc.
  assert (HasPrefix ((kind +:+ ":") +:+ id) (kind +:+ ":") = true) as ->
    by (apply HasPrefix_spec; eauto).
  by rewrite TrimPrefix_app, Hid.
Qed.

Lemma colon_prefix k1 k2 x y :
  58 ∉ bytes k1 → 58 ∉ bytes k2 → k1 +:+ ":" +:+ x = k2 +:+ ":" +:+ y → k1 = k2.
Proof.
  intros H1 H2 H%(f_equal bytes). rewrite !bytes_app in H. apply bytes_inj.
  change (bytes ":" ++ ?l) with (58 :: l) in H.
  apply (f_equal (split_at 58)) in H. rewrite !split_at_app in H by done. congruence.
Qed.

Lemma decode_foreign_token k1 k2 id :
  58 ∉ bytes k1 → 58 ∉ bytes k2 → k1 ≠ k2 →
  is_Ok (decodePageToken k2 (encodePageToken k1 id)) = false.
Proof.
  intros H1 H2 Hne. unfold decodePageToken, encodePageToken.
  destruct (_ ==? "") eqn:E; reflect_bools.
  { exfalso. rewrite bytes_app in E. destruct (bytes k1); by apply b64_Encode_nonempty in E. }
  rewrite b64_Decode_Encode, of_bytes_bytes by apply bytes_range.
  destruct (HasPrefix _ _) eqn:Hp; [|done]. exfalso.
  apply HasPrefix_spec in Hp as [r Hr]. rewrite string_app_assoc in Hr.
  by apply colon_prefix in Hr.
Qed.

(** A generated identifier: its prefix and 17 lowercase hexadecimal digits. *)
Lemma NewID_shape prefix random id :
  Forall is_byte random → NewID prefix random = Ok id →
  ∃ hex, id = prefix +:+ hex ∧ String.length hex = 17%nat ∧
         forallb is_hex_lower (bytes hex) = true.
Proof.
  intros Hr. unfold NewID. case_match; [done|]. case_match eqn:Hl; [done|].
  intros [= <-]. eexists. split; [done|].
  apply Nat.ltb_ge in Hl.
  assert (Forall is_byte (take 9 random)) as Ht by by apply Forall_take.
  pose proof (hex_bytes_lower _ Ht) as Hh. unfold hex_EncodeToString.
  assert (Forall is_byte (hex_bytes (take 9 random))) as Hb.
  { eapply Forall_impl; [exact Hh|]. apply is_hex_lower_byte. }
  rewrite bytes_of_bytes by done. split.
  - rewrite <- length_bytes, bytes_of_bytes by by apply Forall_take.
    rewrite length_take, length_hex_bytes, length_take. lia.
  - rewrite bytes_of_bytes by by apply Forall_take.
    apply Is_true_true, forallb_True. apply Forall_take.
    eapply Forall_impl; [exact Hh|]. intros b Hbb. by apply Is_true_true.
Qed.

(** ** Properties *)

(** The addresses of a block. *)
Lemma ranges_meet a b :
  valid4 a → valid4 b → (base4 a < base4 b + size4 b ∧ base4 b < base4 a + size4 a) ↔
  ∃ w, Contains a (Addr4 w) = true ∧ Contains b (Addr4 w) = true.
Proof.
  intros Ha Hb. pose proof (size4_pos a Ha). pose proof (size4_pos b Hb). split.
  - intros. exists (Z.max (base4 a) (base4 b)). rewrite !Contains4 by done. lia.
  - intros (w & Hw1 & Hw2). apply Contains4 in Hw1, Hw2; [|done..]. lia.
Qed.

(** An accepted CIDR block is what the text says with its host bits cleared; it
    is a canonical IPv4 block of 16 to 28 bits, and its text parses back to it. *)
Theorem ParseCIDR_normalizes raw p :
  ParseCIDR raw = Ok p →
  (∃ q, ParsePrefix raw = Some q ∧ p = Masked q ∧ p_bits p = p_bits q) ∧
  canonical p ∧ ParseCIDR (Prefix_String p) = Ok p.
Proof.
  intros H. pose proof H as (q & Hq & Hv & _ & ->)%ParseCIDR_inv. split_and!.
  - exists q. by rewrite Masked4.
  - by eapply ParseCIDR_canonical.
  - by eapply ParseCIDR_String, ParseCIDR_canonical.
Qed.

(** Witness: host bits are cleared. *)
Lemma ParseCIDR_witness :
  (∃ q, ParsePrefix "10.1.2.3/20" = Some q ∧ MkPrefix (Addr4 167837696) 20 = Masked q ∧ 20 = p_bits q) ∧
  canonical (MkPrefix (Addr4 167837696) 20) ∧
  ParseCIDR (Prefix_String (MkPrefix (Addr4 167837696) 20)) = Ok (MkPrefix (Addr4 167837696) 20).
Proof. apply (ParseCIDR_normalizes "10.1.2.3/20"). vm_compute. reflexivity. Defined.

Lemma range4_contains vpc subnet :
  valid4 vpc → valid4 subnet →
  (base4 vpc ≤ base4 subnet ∧ base4 subnet + size4 subnet ≤ base4 vpc + size4 vpc) ↔
  ∀ w, Contains subnet (Addr4 w) = true → Contains vpc (Addr4 w) = true.
Proof.
  intros Hv Hs. pose proof (size4_pos subnet Hs). setoid_rewrite Contains4; [|done..]. split.
  - intros ? w ?. lia.
  - intros H'. pose proof (H' (base4 subnet)). pose proof (H' (base4 subnet + size4 subnet - 1)). lia.
Qed.

(** C39: For canonical blocks, [ValidateSubnetRange] accepts exactly the subnets all
    of whose addresses belong to the VPC, and [ValidateSubnetDisjoint] exactly those
    that share no address with a sibling; each refuses with its own error. *)
Theorem subnet_validation_exact vpc subnet siblings :
  canonical vpc → canonical subnet → Forall canonical siblings →
  (ValidateSubnetRange vpc subnet = Ok tt ↔
     ∀ w, Contains subnet (Addr4 w) = true → Contains vpc (Addr4 w) = true) ∧
  (ValidateSubnetDisjoint subnet siblings = Ok tt ↔
     ∀ s w, s ∈ siblings → ¬ (Contains subnet (Addr4 w) = true ∧ Contains s (Addr4 w) = true)) ∧
  (∀ e, ValidateSubnetRange vpc subnet = Err e → e = subnetRangeError) ∧
  (∀ e, ValidateSubnetDisjoint subnet siblings = Err e → e = subnetConflictError).
Proof.
  intros [Hv _] [Hs _] Hall. split_and!.
  - rewrite ValidateSubnetRange_ranges by done. by apply range4_contains.
  - rewrite ValidateSubnetDisjoint_Ok, !Forall_forall in *. split.
    + intros H s w Hin Hw. specialize (H s Hin). apply not_true_iff_false in H. apply H.
      apply Overlaps_ranges; [done|by destruct (Hall s Hin)|]. apply ranges_meet; [done|by destruct (Hall s Hin)|eauto].
    + intros H s Hin. apply not_true_iff_false. intros Ho. destruct (Hall s Hin) as [Hsv _].
      apply Overlaps_ranges, ranges_meet in Ho as (w & Hw); [|done..]. by apply (H s w Hin).
  - unfold ValidateSubnetRange. intros e. case_match; naive_solver.
  - intros e. clear. induction siblings as [|s l IH]; simpl; [done|]. case_match; naive_solver.
Qed.

(** Witness: 10.0.1.0/24 in 10.0.0.0/16 beside 10.0.2.0/24. *)
Lemma subnet_validation_witness :
  let vpc := MkPrefix (Addr4 167772160) 16 in
  let subnet := MkPrefix (Addr4 167772416) 24 in
  let sibling := MkPrefix (Addr4 167772672) 24 in
  canonical vpc ∧ canonical subnet ∧ canonical sibling ∧
  (∀ w, Contains subnet (Addr4 w) = true → Contains vpc (Addr4 w) = true) ∧
  (∀ s w, s ∈ [sibling] → ¬ (Contains subnet (Addr4 w) = true ∧ Contains s (Addr4 w) = true)).
Proof.
  intros vpc subnet sibling.
  assert (canonical vpc) as H1 by (split_and!; [|vm_compute; reflexivity|simpl; lia..]; eexists; split_and!; [done|simpl; lia..]).
  assert (canonical subnet) as H2 by (split_and!; [|vm_compute; reflexivity|simpl; lia..]; eexists; split_and!; [done|simpl; lia..]).
  assert (canonical sibling) as H3 by (split_and!; [|vm_compute; reflexivity|simpl; lia..]; eexists; split_and!; [done|simpl; lia..]).
  destruct (subnet_validation_exact vpc subnet [sibling] H1 H2 ltac:(by constructor)) as (Ha & Hb & _).
  split_and!; [done..| |].
  - apply Ha. vm_compute. reflexivity.
  - apply Hb. vm_compute. reflexivity.
Defined.

(** An accepted name is the given text without the surrounding white space; it is
    valid UTF-8 of 1 to 255 characters without control characters, and validating it
    again gives it back. *)
Theorem ValidateName_normalizes raw name :
  ValidateName raw = Ok name →
  name = TrimSpace raw ∧ ValidString name = true ∧ 1 ≤ RuneCountInString name ≤ 255 ∧
  (∀ r, r ∈ range_runes name → IsControl r = false) ∧ ValidateName name = Ok name.
Proof.
  intros H. pose proof H as (Hv & Hn & Hc & Hk)%ValidateName_inv. split_and!; [done| |lia..| |].
  - subst name. by apply ValidString_TrimSpace.
  - intros r Hr. apply not_true_iff_false. intros Hcr.
    assert (existsb IsControl (range_runes name) = true); [|congruence].
    apply existsb_exists. exists r. by rewrite <- list_elem_of_In.
  - by eapply ValidateName_fixed.
Qed.

(** Witness: white space around a name is dropped. *)
Lemma ValidateName_witness :
  "web 1" = TrimSpace "  web 1 " ∧ ValidString "web 1" = true ∧ 1 ≤ RuneCountInString "web 1" ≤ 255 ∧
  (∀ r, r ∈ range_runes "web 1" → IsControl r = false) ∧ ValidateName "web 1" = Ok "web 1".
Proof. apply (ValidateName_normalizes "  web 1 "). vm_compute. reflexivity. Defined.

(** A page token gives back the identifier it was made from for its own kind of
    resource, and is refused for any other kind. *)
Theorem page_token_roundtrip kind other id :
  validPageID kind id = true → 58 ∉ bytes kind → 58 ∉ bytes other → kind ≠ other →
  decodePageToken kind (encodePageToken kind id) = Ok id ∧
  is_Ok (decodePageToken other (encodePageToken kind id)) = false.
Proof. intros Hid H1 H2 Hne. split; [by apply decode_encode_token|by apply decode_foreign_token]. Qed.

(** Witness: a token of VPCs. *)
Lemma page_token_witness :
  decodePageToken "vpc" (encodePageToken "vpc" "vpc-0123456789abcdef0") = Ok "vpc-0123456789abcdef0" ∧
  is_Ok (decodePageToken "subnet" (encodePageToken "vpc" "vpc-0123456789abcdef0")) = false.
Proof.
  apply page_token_roundtrip.
  - vm_compute. reflexivity.
  - vm_compute. set_solver.
  - vm_compute. set_solver.
  - discriminate.
Defined.

(** A fresh identifier is its prefix with 17 lower-case hexadecimal digits, so the
    identifiers of the services pass the check of page tokens. *)
Theorem NewID_is_page_id kind random id :
  Forall is_byte random →
  NewID (if kind ==? "instance" then "i-" else kind +:+ "-") random = Ok id → validPageID kind id = true.
Proof.
  intros Hr (hex & -> & Hlen & Hhex)%NewID_shape; [|done]. apply validPageID_shape. eauto.
Qed.

(** Witness: a VPC identifier from nine bytes. *)
Lemma NewID_witness : validPageID "vpc" "vpc-01020304050607080" = true.
Proof.
  apply (NewID_is_page_id "vpc" [1; 2; 3; 4; 5; 6; 7; 8; 9]).
  - repeat constructor; lia.
  - vm_compute. reflexivity.
Defined.
