(* ===== verification/Ipam.v ===== *)
(** Private address management: [internal/service/ipam.go]. *)

From S2P Require Import Prelude Errors GoStrings NetIP Validate.
Local Open Scope Z_scope.

(** The scan [for ip := first; ip != broadcast; ip = ip.Next()]. *)
Fixpoint scan (fuel : nat) (ip broadcast : Addr) (used : gset Addr) : result Addr :=
  match fuel with
  | O => Err (Errorf (lit "scan out of fuel"))
  | S f =>
      if ip ==? broadcast then Err errAddressExhausted
      else if bool_decide (ip ∈ used) then scan f (Next ip) broadcast used
      else Ok ip
  end.

(** The last address of a block, assembled from the octets of its base. *)
Definition broadcast_of (prefix : Prefix) : Addr :=
  match octets (addr_uint32 (p_ip prefix)) with
  | [a; b; c; d] =>
      let last := from_octets a b c d in
      let last := Z.lor last (wrapu32 (wrapu32 (Z.shiftl 1 (32 - p_bits prefix)) - 1)) in
      match octets last with
      | [a; b; c; d] => Addr4 (from_octets a b c d)
      | _ => AddrZero
      end
  | _ => AddrZero
  end.

(** [nextPrivateIP]; a block has [2 ^ (32 - bits)] addresses, which bounds the
    number of rounds of the scan. *)
Definition nextPrivateIP (prefix : Prefix) (used : gset Addr) : result Addr :=
  if negb (IsValid prefix) || negb (Is4 (p_ip prefix)) ||
     (p_bits prefix <? 16) || (28 <? p_bits prefix) || (prefix !=? Masked prefix)
  then Err (Errorf (lit "IPAM requires a canonical IPv4 /16 through /28 subnet"))
  else
    let base := p_ip prefix in
    let first := Next (Next (Next (Next base))) in
    scan (Z.to_nat (2 ^ (32 - p_bits prefix))) first (broadcast_of prefix) used.

(** ** The block of a canonical prefix *)
Lemma lor_add x y k : 0 ≤ k → 0 ≤ y < 2 ^ k → (2 ^ k | x) → Z.lor x y = x + y.
Proof.
  intros Hk Hy Hx.
  assert (Z.land x y = 0) as Hl.
  { rewrite <- (Z.mod_small y (2 ^ k)), <- Z.land_ones by done.
    rewrite (Z.land_comm y), Z.land_assoc, Z.land_ones by done.
    by rewrite (proj2 (Z.mod_divide x (2 ^ k) ltac:(lia)) Hx). }
  by rewrite Z.add_nocarry_lxor, Z.lxor_lor by done.
Qed.

Lemma octets_value v :
  0 ≤ v < 2 ^ 32 →
  ∃ a b c d, octets v = [a; b; c; d] ∧ from_octets a b c d = v.
Proof.
  intros Hv. eexists _, _, _, _. split; [done|]. unfold from_octets.
  change 255 with (Z.ones 8). rewrite !Z.land_ones by lia.
  rewrite !Z.shiftr_div_pow2, !Z.shiftl_mul_pow2 by lia.
  change (2 ^ 24) with 16777216. change (2 ^ 16) with 65536. change (2 ^ 8) with 256.
  change (2 ^ 32) with 4294967296 in Hv.
  rewrite (lor_add (_ * 16777216) _ 24); [|lia|div_lia|apply Z.divide_factor_r].
  rewrite (lor_add (_ + _) (_ * 256) 16); [|lia|div_lia|].
  2:{ exists (v / 16777216 mod 256 * 256 + v / 65536 mod 256). lia. }
  rewrite (lor_add _ _ 8); [div_lia|lia|div_lia|].
  exists (v / 16777216 mod 256 * 65536 + v / 65536 mod 256 * 256 + v / 256 mod 256). lia.
Qed.

Lemma broadcast_of_canonical p :
  canonical p → broadcast_of p = Addr4 (base4 p + size4 p - 1).
Proof.
  intros Hc. pose proof (canonical_base p Hc) as Hip. destruct Hc as (Hv & Hm & Hb).
  pose proof (base4_range p Hv) as [Hlo Hhi]. pose proof (size4_pos p Hv).
  unfold broadcast_of. rewrite Hip. simpl addr_uint32.
  destruct (octets_value (base4 p)) as (a & b & c & d & -> & ->); [lia|].
  assert (size4 p < 2 ^ 32) by (unfold size4; apply Z.pow_lt_mono_r; lia).
  rewrite Z.shiftl_1_l. fold (size4 p).
  rewrite !wrapu32_small by (rewrite ?wrapu32_small; lia).
  rewrite (lor_add _ _ (32 - p_bits p));
    [|lia|unfold size4 in *; lia|by apply size4_divides_base].
  destruct (octets_value (base4 p + (size4 p - 1))) as (a' & b' & c' & d' & -> & ->); [lia|].
  f_equal. lia.
Qed.

Lemma Next4 v : 0 ≤ v < 2 ^ 32 - 1 → Next (Addr4 v) = Addr4 (v + 1).
Proof. intros. unfold Next. by rewrite (proj2 (Z.eqb_neq _ _)) by lia. Qed.

Lemma canonical_size p : canonical p → 16 ≤ size4 p ≤ 65536.
Proof.
  intros (_ & _ & Hb). unfold size4. split.
  - change 16 with (2 ^ 4). apply Z.pow_le_mono_r; lia.
  - change 65536 with (2 ^ 16). apply Z.pow_le_mono_r; lia.
Qed.

Lemma first_of_canonical p :
  canonical p → Next (Next (Next (Next (p_ip p)))) = Addr4 (base4 p + 4).
Proof.
  intros Hc. pose proof (canonical_size p Hc). rewrite (canonical_base p Hc).
  destruct Hc as (Hv & _). pose proof (base4_range p Hv).
  rewrite !Next4 by lia. f_equal. lia.
Qed.

(** ** The scan finds the least free address *)
Lemma scan_spec fuel lo hi used :
  0 ≤ lo ≤ hi → hi < 2 ^ 32 → hi - lo < Z.of_nat fuel →
  match scan fuel (Addr4 lo) (Addr4 hi) used with
  | Ok a => ∃ w, a = Addr4 w ∧ lo ≤ w < hi ∧ Addr4 w ∉ used ∧
                 ∀ u, lo ≤ u < w → Addr4 u ∈ used
  | Err e => e = errAddressExhausted ∧ ∀ u, lo ≤ u < hi → Addr4 u ∈ used
  end.
Proof.
  revert lo. induction fuel as [|f IH]; intros lo Hlo Hhi Hf; [lia|]. cbn [scan].
  destruct (Addr4 lo ==? Addr4 hi) eqn:E; reflect_bools.
  { simplify_eq. split; [done|]. lia. }
  assert (lo ≠ hi) by congruence.
  case_bool_decide as Hu.
  - rewrite Next4 by lia. specialize (IH (lo + 1) ltac:(lia) Hhi ltac:(lia)).
    destruct (scan f _ _ _) as [a|e].
    + destruct IH as (w & -> & Hw & Hfree & Hall). exists w. split_and!; auto; try lia.
      intros u Hur. destruct (decide (u = lo)) as [->|]; [done|]. apply Hall. lia.
    + destruct IH as [-> Hall]. split; [done|].
      intros u Hur. destruct (decide (u = lo)) as [->|]; [done|]. apply Hall. lia.
  - exists lo. split_and!; auto; lia.
Qed.

Lemma nextPrivateIP_scan p used :
  canonical p →
  nextPrivateIP p used =
  scan (Z.to_nat (size4 p)) (Addr4 (base4 p + 4)) (Addr4 (base4 p + size4 p - 1)) used.
Proof.
  intros Hc. unfold nextPrivateIP. rewrite first_of_canonical, broadcast_of_canonical by done.
  destruct Hc as (Hv & Hm & Hb). destruct (valid4_IsValid p Hv) as [-> ->]. simpl.
  rewrite (proj2 (Z.ltb_ge _ _)), (proj2 (Z.ltb_ge _ _)) by lia. simpl.
  by rewrite Hm, beq_refl.
Qed.

(** What a successful or failed allocation in a canonical block means. *)
Lemma nextPrivateIP_spec p used :
  canonical p →
  match nextPrivateIP p used with
  | Ok a => ∃ w, a = Addr4 w ∧ base4 p + 4 ≤ w < base4 p + size4 p - 1 ∧ a ∉ used ∧
                 ∀ u, base4 p + 4 ≤ u < w → Addr4 u ∈ used
  | Err e => e = errAddressExhausted ∧
             ∀ u, base4 p + 4 ≤ u < base4 p + size4 p - 1 → Addr4 u ∈ used
  end.
Proof.
  intros Hc. rewrite nextPrivateIP_scan by done. pose proof (canonical_size p Hc).
  destruct Hc as (Hv & _). pose proof (base4_range p Hv).
  pose proof (scan_spec (Z.to_nat (size4 p)) (base4 p + 4) (base4 p + size4 p - 1) used
    ltac:(lia) ltac:(lia) ltac:(lia)) as Hs.
  destruct (scan _ _ _ _); [|done]. destruct Hs as (w & -> & ? & ? & ?). eauto 10.
Qed.

Lemma nextPrivateIP_usable p used a :
  canonical p → nextPrivateIP p used = Ok a →
  Contains p a = true ∧ reservedAddress p a = false ∧ a ∉ used.
Proof.
  intros Hc Ha. pose proof (nextPrivateIP_spec p used Hc) as Hs. rewrite Ha in Hs.
  destruct Hs as (w & -> & Hw & Hu & _).
  pose proof Hc as (Hv & _). assert (Contains p (Addr4 w) = true) as Hin
    by (apply Contains4; [done|lia]).
  split_and!; auto. apply not_true_is_false. rewrite reservedAddress_ranges by done. lia.
Qed.

(** ** Properties *)

(** C38: For a canonical subnet [nextPrivateIP] returns the least address that is
    neither reserved (the first four and the last) nor in use, and fails as exhausted
    exactly when every such address is in use. *)
Theorem nextPrivateIP_least_free p used :
  canonical p →
  match nextPrivateIP p used with
  | Ok a => Contains p a = true ∧ reservedAddress p a = false ∧ a ∉ used ∧
      ∀ u, Contains p (Addr4 u) = true → reservedAddress p (Addr4 u) = false → Addr4 u ∉ used →
           ∃ w, a = Addr4 w ∧ w ≤ u
  | Err e => e = errAddressExhausted ∧
      ∀ u, Contains p (Addr4 u) = true → reservedAddress p (Addr4 u) = false → Addr4 u ∈ used
  end.
Proof.
  intros Hc. pose proof (nextPrivateIP_spec p used Hc) as Hs.
  assert (∀ u, Contains p (Addr4 u) = true → reservedAddress p (Addr4 u) = false →
    base4 p + 4 ≤ u < base4 p + size4 p - 1) as Hrange.
  { intros u Hu Hr. apply not_true_iff_false in Hr. rewrite reservedAddress_ranges in Hr by done.
    apply Contains4 in Hu; [lia|apply Hc]. }
  destruct (nextPrivateIP p used) as [a|e] eqn:E.
  - apply nextPrivateIP_usable in E as (H1 & H2 & H3); [|done]. split_and!; auto.
    destruct Hs as (w & -> & _ & _ & Hall). intros u Hu Hr Hn. exists w. split; [done|].
    destruct (Z.le_gt_cases w u); [done|]. destruct Hn. apply Hall. specialize (Hrange u Hu Hr). lia.
  - destruct Hs as [-> Hall]. split; [done|]. intros u Hu Hr. by apply Hall, Hrange.
Qed.

(** Witness: the first lease of 10.0.1.0/28 is 10.0.1.4. *)
Lemma nextPrivateIP_witness :
  let p := MkPrefix (Addr4 167772416) 28 in
  nextPrivateIP p ∅ = Ok (Addr4 167772420) ∧ reservedAddress p (Addr4 167772420) = false.
Proof.
  intros p. assert (canonical p) as Hp
    by (split_and!; [|vm_compute; reflexivity|simpl; lia..]; eexists; split_and!; [done|simpl; lia..]).
  pose proof (nextPrivateIP_least_free p ∅ Hp) as H.
  change (nextPrivateIP p ∅) with (Ok (Addr4 167772420)) in *. by destruct H as (_ & ? & _).
Defined.
