(* ===== verification/Netns.v ===== *)
(** Names of VPC network namespaces: [Name] and [validateName] of
    [internal/network/netns/netns_linux.go] and [ownedIndex] of
    [internal/reconcile/network.go]. *)

From S2P Require Import Prelude Errors GoStrings.
Local Open Scope Z_scope.

Definition prefix : string := "nx-vpc-".
Definition maxIndex : Z := 99999999.

Definition Name (index : Z) : result string :=
  if (index <? 1) || (maxIndex <? index)
  then Err (Errorf (Sprintf "VPC namespace index %d is outside 1..%d" [FormatInt index; FormatInt maxIndex]))
  else Ok (prefix +:+ FormatInt index).

Definition parseIndex (s : string) : result Z :=
  of_option (Errorf (Sprintf "strconv.ParseInt: parsing %q: invalid syntax" [s])) (ParseInt s).

Definition validateName (name : string) : result unit :=
  if negb (HasPrefix name prefix) || (15 <? slen name)
  then Err (Errorf (Sprintf "refusing foreign or oversized network namespace %q" [name]))
  else
    let indexPart := TrimPrefix name prefix in
    index ← wrap_err (Sprintf "invalid VPC namespace %q: %w" [name]) (parseIndex indexPart);
    canonical ← Name index;
    require (canonical ==? name) (Errorf (Sprintf "noncanonical VPC namespace %q" [name])).

(** [ownedIndex]: the index of a namespace name the engine could have made. *)
Definition ownedIndex (name : string) : Z * bool :=
  match CutPrefix name prefix with
  | None => (0, false)
  | Some part =>
      match ParseInt part with
      | None => (0, false)
      | Some index =>
          (index, match Name index with Ok canonical => canonical ==? name | Err _ => false end)
      end
  end.

(** ** Lemmas *)
Lemma Name_Ok index name : Name index = Ok name ↔ 1 ≤ index ≤ maxIndex ∧ name = prefix +:+ FormatInt index.
Proof.
  unfold Name. destruct (_ || _) eqn:E.
  - apply orb_true_iff in E. split; [done|]. intros [? _]. destruct E; reflect_bools; lia.
  - reflect_bools. split; [intros [= <-]; split; [lia|done]|]. by intros [_ ->].
Qed.

Lemma Name_inj i j name : Name i = Ok name → Name j = Ok name → i = j.
Proof.
  intros [Hi ->]%Name_Ok [Hj Hn]%Name_Ok. apply (inj _) in Hn. unfold maxIndex in *.
  apply FormatInt_inj; [lia..|done].
Qed.

Lemma ownedIndex_iff name index :
  ownedIndex name = (index, true) ↔ Name index = Ok name.
Proof.
  unfold ownedIndex. split.
  - destruct (CutPrefix name prefix) as [part|] eqn:Hc; [|done].
    destruct (ParseInt part) as [i|]; [|done].
    destruct (Name i) as [canonical|] eqn:Hn; [|done]. intros [= <- Hb].
    reflect_bools. by subst.
  - intros Hn. pose proof Hn as [Hi ->]%Name_Ok. rewrite CutPrefix_app, ParseInt_FormatInt by (unfold maxIndex in *; lia).
    by rewrite Hn, beq_refl.
Qed.

(** The length of a decimal number below [10 ^ k]. *)
Lemma length_format_digits fuel n acc k :
  0 ≤ n < 10 ^ Z.of_nat k → (k ≤ fuel)%nat → (0 < k)%nat →
  (String.length (format_digits fuel n acc) ≤ k + String.length acc)%nat.
Proof.
  revert n acc k. induction fuel as [|f IH]; intros n acc k Hn Hk H0; [lia|].
  cbn [format_digits]. destruct (n <? 10) eqn:E; reflect_bools; [simpl; lia|].
  destruct k as [|k]; [lia|].
  rewrite Nat2Z.inj_succ, Z.pow_succ_r in Hn by lia.
  destruct k as [|k]; [simpl in Hn; lia|].
  specialize (IH (n / 10) (String (digit_char (n mod 10)) acc) (S k)). cbn [String.length] in IH.
  assert (0 ≤ n / 10 < 10 ^ Z.of_nat (S k)).
  { split; [apply Z.div_pos; lia|apply Z.div_lt_upper_bound; lia]. }
  specialize (IH ltac:(done) ltac:(lia) ltac:(lia)). lia.
Qed.

Lemma Name_length index name : Name index = Ok name → slen name ≤ 15.
Proof.
  intros [Hi ->]%Name_Ok. unfold slen. rewrite length_string_app.
  unfold FormatInt. rewrite (proj2 (Z.ltb_ge _ _)) by lia.
  pose proof (length_format_digits 20 index "" 8 ltac:(unfold maxIndex in *; simpl; lia) ltac:(lia) ltac:(lia)).
  change (String.length prefix) with 7%nat. change (String.length "") with 0%nat in *. lia.
Qed.

Lemma validateName_iff name : validateName name = Ok tt ↔ ∃ index, Name index = Ok name.
Proof.
  unfold validateName, parseIndex. split.
  - destruct (_ || _); [done|]. intros. inv_ok. reflect_bools. subst. eauto.
  - intros [index Hn]. pose proof Hn as [Hi E]%Name_Ok. pose proof (Name_length _ _ Hn).
    assert (HasPrefix name prefix = true) as -> by (apply HasPrefix_spec; eauto).
    rewrite (proj2 (Z.ltb_ge _ _)) by lia. cbn [negb orb]. subst name.
    rewrite TrimPrefix_app, ParseInt_FormatInt by (unfold maxIndex in *; lia).
    cbn [of_option wrap_err mbind result_bind]. rewrite Hn. cbn [mbind result_bind]. by rewrite beq_refl.
Qed.

(** ** Properties *)

(** The reconciler takes a namespace for one of its own exactly when its name
    is the canonical name of an index in range, so it never claims a foreign
    namespace, and distinct VPCs have distinct namespaces. *)
Theorem ownedIndex_exact name index :
  (ownedIndex name = (index, true) ↔ Name index = Ok name) ∧
  (validateName name = Ok tt ↔ ∃ i, Name i = Ok name) ∧
  (∀ i j n, Name i = Ok n → Name j = Ok n → i = j) ∧
  (∀ n, Name index = Ok n → slen n ≤ 15).
Proof.
  split_and!; [apply ownedIndex_iff|apply validateName_iff|apply Name_inj|apply Name_length].
Qed.
