(* ===== verification/Model.v ===== *)
(** Resource snapshots: [internal/model/network.go] and [instance.go].

    Go's [State] and [InstanceState] are string types with named constants. *)

From S2P Require Import Prelude Errors GoStrings NetIP.

Definition State := string.
Definition StatePending : State := "pending".
Definition StateAvailable : State := "available".
Definition StateDeleting : State := "deleting".
Definition StateFailed : State := "failed".

Definition InstanceState := string.
Definition InstancePending : InstanceState := "pending".
Definition InstanceRunning : InstanceState := "running".
Definition InstanceShuttingDown : InstanceState := "shutting-down".
Definition InstanceFailed : InstanceState := "failed".

Record VPC := MkVPC {
  VPC_ID : string;
  VPC_WorkspaceID : string;
  VPC_Name : string;
  VPC_CIDRBlock : Prefix;
  VPC_ShortIndex : Z;
  VPC_State : State;
  VPC_StateReason : string;
  VPC_DeletionRequested : bool;
  VPC_Generation : Z;
  VPC_ObservedGeneration : Z
}.
#[export] Instance VPC_eq_dec : EqDecision VPC.
Proof. solve_decision. Defined.

Record Subnet := MkSubnet {
  Subnet_ID : string;
  Subnet_WorkspaceID : string;
  Subnet_VPCID : string;
  Subnet_Name : string;
  Subnet_CIDRBlock : Prefix;
  Subnet_AvailabilityZone : string;
  Subnet_ShortIndex : Z;
  Subnet_State : State;
  Subnet_StateReason : string;
  Subnet_DeletionRequested : bool;
  Subnet_Generation : Z;
  Subnet_ObservedGeneration : Z
}.
#[export] Instance Subnet_eq_dec : EqDecision Subnet.
Proof. solve_decision. Defined.

Record ENI := MkENI {
  ENI_ID : string;
  ENI_WorkspaceID : string;
  ENI_InstanceID : string;
  ENI_SubnetID : string;
  ENI_ShortIndex : Z;
  ENI_PrivateIP : Addr;
  ENI_MACAddress : string;
  ENI_Generation : Z;
  ENI_ObservedGeneration : Z;
  ENI_State : State;
  ENI_StateReason : string
}.
#[export] Instance ENI_eq_dec : EqDecision ENI.
Proof. solve_decision. Defined.

Record Instance_ := MkInstance {
  Instance_ID : string;
  Instance_WorkspaceID : string;
  Instance_SubnetID : string;
  Instance_ShortIndex : Z;
  Instance_Name : string;
  Instance_InstanceType : string;
  Instance_State : InstanceState;
  Instance_StateReason : string;
  Instance_Generation : Z;
  Instance_ObservedGeneration : Z;
  Instance_DeletionRequested : bool;
  Instance_RuntimeID : string;
  Instance_ENI : ENI
}.
#[export] Instance Instance_eq_dec : EqDecision Instance_.
Proof. solve_decision. Defined.
