(* ===== verification/Schema.v ===== *)
(** The database: the tables of [internal/store/migrations/], the row types of
    [internal/store/sqlc/models.go] and one definition per SQL statement of
    [internal/store/sqlc/queries.sql.go].

    A table is a finite map from its primary key to the row.  A statement is a
    function [DB -> result (A * DB)]: it returns the new database, or the error
    of the constraint it violates and then leaves the database as it was.
    Constraints are those of the schema: CHECK clauses, primary keys, UNIQUE
    columns and indexes, and immediate foreign keys with ON DELETE RESTRICT.
    [sql.ErrNoRows] is what scanning an empty result set gives.  The columns
    [allocated_at], and [created_at] of [workspaces], that SQLite fills from its
    own clock and no statement reads, are left out. *)

From S2P Require Import Prelude Errors GoStrings Utf8 NetIP Model.
Local Open Scope Z_scope.

(** ** Rows *)
Record Vpc := MkVpc {
  v_ID : string; v_WorkspaceID : string; v_ShortIndex : Z; v_Name : string;
  v_CidrBlock : string; v_Generation : Z; v_ObservedGeneration : Z;
  v_State : string; v_StateReason : string; v_CreatedAt : Z; v_UpdatedAt : Z;
  v_DeletionRequested : Z
}.
Record SubnetRow := MkSubnetRow {
  s_ID : string; s_WorkspaceID : string; s_VpcID : string; s_ShortIndex : Z;
  s_Name : string; s_CidrBlock : string; s_AvailabilityZone : string;
  s_Generation : Z; s_ObservedGeneration : Z; s_State : string;
  s_StateReason : string; s_CreatedAt : Z; s_UpdatedAt : Z; s_DeletionRequested : Z
}.
Record InstanceRow := MkInstanceRow {
  i_ID : string; i_WorkspaceID : string; i_SubnetID : string; i_ShortIndex : Z;
  i_Name : string; i_Generation : Z; i_ObservedGeneration : Z; i_State : string;
  i_StateReason : string; i_CreatedAt : Z; i_UpdatedAt : Z; i_DeletionRequested : Z;
  i_RuntimeID : option string
}.
Record EniRow := MkEniRow {
  e_ID : string; e_WorkspaceID : string; e_InstanceID : string; e_SubnetID : string;
  e_ShortIndex : Z; e_PrivateIp : string; e_MacAddress : string; e_Generation : Z;
  e_ObservedGeneration : Z; e_State : string; e_StateReason : string;
  e_CreatedAt : Z; e_UpdatedAt : Z
}.
Record EventRow := MkEventRow {
  ev_ID : Z; ev_WorkspaceID : string; ev_ResourceType : string; ev_ResourceID : string;
  ev_Action : string; ev_State : string; ev_Generation : Z; ev_Message : string;
  ev_CreatedAt : Z
}.
Record IdempotencyRequest := MkIdempotencyRequest {
  k_WorkspaceID : string; k_Operation : string; k_Key : string; k_PayloadHash : string;
  k_ResourceID : string; k_CreatedAt : Z; k_ExpiresAt : Z; k_ResponseJson : string
}.
Record KernelIndex := MkKernelIndex { ki_ID : Z; ki_ResourceKind : string; ki_ResourceID : string }.

(** ** The database *)
Record DB := MkDB {
  workspaces : gset string;
  kernel_indexes : gmap Z KernelIndex;
  kernel_seq : Z;  (** [sqlite_sequence] of [kernel_indexes] (AUTOINCREMENT) *)
  vpcs : gmap string Vpc;
  subnets : gmap string SubnetRow;
  instances : gmap string InstanceRow;
  enis : gmap string EniRow;
  events : list EventRow;  (** in the order of their ids *)
  event_seq : Z;  (** [sqlite_sequence] of [events] *)
  idempotency : gmap (string * string * string) IdempotencyRequest
}.

(** The database after the four migrations on an empty file. *)
Definition initialDB : DB := MkDB {["default"]} ∅ 0 ∅ ∅ ∅ ∅ [] 0 ∅.

Definition set_vpcs (t : gmap string Vpc) (d : DB) : DB :=
  MkDB (workspaces d) (kernel_indexes d) (kernel_seq d) t (subnets d) (instances d)
       (enis d) (events d) (event_seq d) (idempotency d).
Definition set_subnets (t : gmap string SubnetRow) (d : DB) : DB :=
  MkDB (workspaces d) (kernel_indexes d) (kernel_seq d) (vpcs d) t (instances d)
       (enis d) (events d) (event_seq d) (idempotency d).
Definition set_instances (t : gmap string InstanceRow) (d : DB) : DB :=
  MkDB (workspaces d) (kernel_indexes d) (kernel_seq d) (vpcs d) (subnets d) t
       (enis d) (events d) (event_seq d) (idempotency d).
Definition set_enis (t : gmap string EniRow) (d : DB) : DB :=
  MkDB (workspaces d) (kernel_indexes d) (kernel_seq d) (vpcs d) (subnets d) (instances d)
       t (events d) (event_seq d) (idempotency d).
Definition set_kernel (seq : Z) (t : gmap Z KernelIndex) (d : DB) : DB :=
  MkDB (workspaces d) t seq (vpcs d) (subnets d) (instances d)
       (enis d) (events d) (event_seq d) (idempotency d).
Definition set_events (seq : Z) (l : list EventRow) (d : DB) : DB :=
  MkDB (workspaces d) (kernel_indexes d) (kernel_seq d) (vpcs d) (subnets d) (instances d)
       (enis d) l seq (idempotency d).
Definition set_idempotency (t : gmap (string * string * string) IdempotencyRequest) (d : DB) : DB :=
  MkDB (workspaces d) (kernel_indexes d) (kernel_seq d) (vpcs d) (subnets d) (instances d)
       (enis d) (events d) (event_seq d) t.

(** ** Evaluation of statements *)
Section tables.
Context {K R : Type} `{Countable K}.
Implicit Types t : gmap K R.

Definition rows t : list R := (map_to_list t).*2.
(** [EXISTS (SELECT 1 FROM t WHERE f)] *)
Definition any (f : R → bool) t : bool := existsb f (rows t).
(** [SELECT * FROM t WHERE f] when at most one row is scanned. *)
Definition select_one (f : R → bool) t : option R := head (List.filter f (rows t)).

Lemma elem_of_rows t r : r ∈ rows t ↔ ∃ k, t !! k = Some r.
Proof.
  unfold rows. rewrite list_elem_of_fmap. split.
  - intros ([k r'] & -> & Hin). exists k. by apply elem_of_map_to_list.
  - intros [k Hk]. exists (k, r). split; [done|]. by apply elem_of_map_to_list.
Qed.

Lemma any_true f t : any f t = true ↔ ∃ k r, t !! k = Some r ∧ f r = true.
Proof.
  unfold any. rewrite existsb_exists. setoid_rewrite <- list_elem_of_In.
  setoid_rewrite elem_of_rows. naive_solver.
Qed.

Lemma any_false f t : any f t = false ↔ ∀ k r, t !! k = Some r → f r = false.
Proof.
  rewrite <- not_true_iff_false, any_true. split.
  - intros Hn k r Hk. apply not_true_is_false. naive_solver.
  - intros Hf (k & r & Hk & Ht). apply Hf in Hk. congruence.
Qed.

Lemma select_one_Some f t r :
  select_one f t = Some r → f r = true ∧ ∃ k, t !! k = Some r.
Proof.
  unfold select_one. intros Hh. assert (r ∈ List.filter f (rows t)) as Hin.
  { destruct (List.filter f (rows t)); simplify_eq/=. by left. }
  apply list_elem_of_In, filter_In in Hin as [Hin Hf].
  split; [done|]. by apply elem_of_rows, list_elem_of_In.
Qed.

Lemma select_one_None f t :
  select_one f t = None ↔ ∀ k r, t !! k = Some r → f r = false.
Proof.
  rewrite <- any_false. unfold select_one, any.
  induction (rows t) as [|r l IH]; [done|]. simpl. destruct (f r); naive_solver.
Qed.
End tables.

(** [ORDER BY id]: the rows of a table in the byte order of their keys. *)
Definition key_le {R} (x y : string * R) : Prop := String.le x.1 y.1.
#[export] Instance key_le_dec {R} : RelDecision (@key_le R).
Proof. intros x y. unfold key_le. apply _. Defined.
Definition by_id {R} (t : gmap string R) : list R := (merge_sort key_le (map_to_list t)).*2.

(** SQLite's [length(x)] of a text: its characters before the first NUL. *)
Fixpoint sqlite_chars (l : list Z) : Z :=
  match l with
  | [] => 0
  | b :: l' => if b =? 0 then 0 else (if is_cont b then 0 else 1) + sqlite_chars l'
  end.
Definition sqlite_length (s : string) : Z := sqlite_chars (bytes s).

Definition check (b : bool) : result unit := require b (ErrSQLite SQLITE_CONSTRAINT_CHECK).
Definition primary_key (b : bool) : result unit := require b (ErrSQLite SQLITE_CONSTRAINT_PRIMARYKEY).
Definition unique (b : bool) : result unit := require b (ErrSQLite SQLITE_CONSTRAINT_UNIQUE).
Definition foreign_key (b : bool) : result unit := require b (ErrSQLite SQLITE_CONSTRAINT_FOREIGNKEY).

Definition name_check (name : string) : bool :=
  (1 <=? sqlite_length name) && (sqlite_length name <=? 255).
Definition generation_check (generation observed : Z) : bool :=
  (1 <=? generation) && (0 <=? observed) && (observed <=? generation).
Definition in_list (l : list string) (s : string) : bool := bool_decide (s ∈ l).
Definition state_check : string → bool := in_list ["pending"; "available"; "deleting"; "failed"].
Definition instance_state_check : string → bool :=
  in_list ["pending"; "running"; "stopping"; "stopped"; "shutting-down"; "terminated"; "failed"].
Definition zone_check : string → bool := in_list ["local-1a"; "local-1b"; "local-1c"].

(** [LIMIT n]: a negative bound is no bound. *)
Definition limit_rows {R} (n : Z) (l : list R) : list R :=
  if n <? 0 then l else take (Z.to_nat n) l.
Definition string_gt (x y : string) : bool := bool_decide (¬ String.le x y).

Definition query (A : Type) : Type := DB → result A.
Definition statement (A : Type) : Type := DB → result (A * DB).

(** ** VPC statements *)
Definition q_InsertVPC (id ws : string) (short : Z) (name cidr : string) (created updated : Z)
    : statement unit := λ d,
  check (name_check name) ;;
  primary_key (negb (bool_decide (is_Some (vpcs d !! id)))) ;;
  unique (negb (any (λ r, v_ShortIndex r =? short) (vpcs d))) ;;
  unique (negb (any (λ r, (v_WorkspaceID r ==? ws) && (v_Name r ==? name)) (vpcs d))) ;;
  foreign_key (bool_decide (ws ∈ workspaces d)) ;;
  foreign_key (bool_decide (is_Some (kernel_indexes d !! short))) ;;
  Ok (tt, set_vpcs (<[id := MkVpc id ws short name cidr 1 0 "pending" "" created updated 0]> (vpcs d)) d).

Definition q_GetVPC (id ws : string) : query Vpc := λ d,
  r ← of_option ErrNoRows (vpcs d !! id);
  require (v_WorkspaceID r ==? ws) ErrNoRows ;; Ok r.

Definition q_GetVPCByName (ws name : string) : query Vpc := λ d,
  of_option ErrNoRows (select_one (λ r, (v_WorkspaceID r ==? ws) && (v_Name r ==? name)) (vpcs d)).

Definition q_ListVPCPage (ws after : string) (limit : Z) : query (list Vpc) := λ d,
  Ok (limit_rows limit
        (List.filter (λ r, (v_WorkspaceID r ==? ws) && string_gt (v_ID r) after) (by_id (vpcs d)))).

Definition vpc_check (r : Vpc) : bool :=
  name_check (v_Name r) && state_check (v_State r) &&
  generation_check (v_Generation r) (v_ObservedGeneration r) &&
  ((v_DeletionRequested r =? 0) || (v_DeletionRequested r =? 1)).

Definition vpc_with_status (r : Vpc) (state reason : string) (observed updated : Z) : Vpc :=
  MkVpc (v_ID r) (v_WorkspaceID r) (v_ShortIndex r) (v_Name r) (v_CidrBlock r) (v_Generation r)
        observed state reason (v_CreatedAt r) updated (v_DeletionRequested r).

Definition q_UpdateVPCStatus (state reason : string) (observed updated : Z) (id ws : string)
    : statement unit := λ d,
  match q_GetVPC id ws d with
  | Err _ => Ok (tt, d)
  | Ok r =>
      let r' := vpc_with_status r state reason observed updated in
      check (vpc_check r') ;; Ok (tt, set_vpcs (<[id := r']> (vpcs d)) d)
  end.

Definition vpc_deleting (r : Vpc) (updated : Z) : Vpc :=
  MkVpc (v_ID r) (v_WorkspaceID r) (v_ShortIndex r) (v_Name r) (v_CidrBlock r) (v_Generation r + 1)
        (v_ObservedGeneration r) "deleting" "" (v_CreatedAt r) updated 1.

Definition q_MarkVPCDeleting (updated : Z) (id ws : string) : statement unit := λ d,
  match q_GetVPC id ws d with
  | Err _ => Ok (tt, d)
  | Ok r =>
      if v_DeletionRequested r =? 0 then
        check (vpc_check (vpc_deleting r updated)) ;;
        Ok (tt, set_vpcs (<[id := vpc_deleting r updated]> (vpcs d)) d)
      else Ok (tt, d)
  end.

Definition q_DeleteVPC (id ws : string) : statement unit := λ d,
  match q_GetVPC id ws d with
  | Err _ => Ok (tt, d)
  | Ok _ =>
      foreign_key (negb (any (λ s, (s_VpcID s ==? id) && (s_WorkspaceID s ==? ws)) (subnets d))) ;;
      Ok (tt, set_vpcs (delete id (vpcs d)) d)
  end.

(** ** Subnet statements *)
Definition q_InsertSubnet (id ws vpc : string) (short : Z) (name cidr zone : string)
    (created updated : Z) : statement unit := λ d,
  check (name_check name) ;;
  check (zone_check zone) ;;
  primary_key (negb (bool_decide (is_Some (subnets d !! id)))) ;;
  unique (negb (any (λ r, s_ShortIndex r =? short) (subnets d))) ;;
  unique (negb (any (λ r, (s_WorkspaceID r ==? ws) && (s_Name r ==? name)) (subnets d))) ;;
  foreign_key (bool_decide (ws ∈ workspaces d)) ;;
  foreign_key (bool_decide (is_Some (kernel_indexes d !! short))) ;;
  foreign_key (is_Ok (q_GetVPC vpc ws d)) ;;
  Ok (tt, set_subnets (<[id := MkSubnetRow id ws vpc short name cidr zone 1 0 "pending" ""
                                           created updated 0]> (subnets d)) d).

Definition q_GetSubnet (id ws : string) : query SubnetRow := λ d,
  r ← of_option ErrNoRows (subnets d !! id);
  require (s_WorkspaceID r ==? ws) ErrNoRows ;; Ok r.

Definition q_GetSubnetByName (ws name : string) : query SubnetRow := λ d,
  of_option ErrNoRows (select_one (λ r, (s_WorkspaceID r ==? ws) && (s_Name r ==? name)) (subnets d)).

Definition q_ListSubnetPage (ws after : string) (limit : Z) : query (list SubnetRow) := λ d,
  Ok (limit_rows limit
        (List.filter (λ r, (s_WorkspaceID r ==? ws) && string_gt (s_ID r) after) (by_id (subnets d)))).

Definition q_ListSubnetsByVPC (vpc : string) : query (list SubnetRow) := λ d,
  Ok (List.filter (λ r, s_VpcID r ==? vpc) (by_id (subnets d))).

Definition subnet_check (r : SubnetRow) : bool :=
  name_check (s_Name r) && zone_check (s_AvailabilityZone r) && state_check (s_State r) &&
  generation_check (s_Generation r) (s_ObservedGeneration r) &&
  ((s_DeletionRequested r =? 0) || (s_DeletionRequested r =? 1)).

Definition subnet_with_status (r : SubnetRow) (state reason : string) (observed updated : Z) : SubnetRow :=
  MkSubnetRow (s_ID r) (s_WorkspaceID r) (s_VpcID r) (s_ShortIndex r) (s_Name r) (s_CidrBlock r)
    (s_AvailabilityZone r) (s_Generation r) observed state reason (s_CreatedAt r) updated
    (s_DeletionRequested r).

Definition q_UpdateSubnetStatus (state reason : string) (observed updated : Z) (id ws : string)
    : statement unit := λ d,
  match q_GetSubnet id ws d with
  | Err _ => Ok (tt, d)
  | Ok r =>
      let r' := subnet_with_status r state reason observed updated in
      check (subnet_check r') ;; Ok (tt, set_subnets (<[id := r']> (subnets d)) d)
  end.

Definition subnet_deleting (r : SubnetRow) (updated : Z) : SubnetRow :=
  MkSubnetRow (s_ID r) (s_WorkspaceID r) (s_VpcID r) (s_ShortIndex r) (s_Name r) (s_CidrBlock r)
    (s_AvailabilityZone r) (s_Generation r + 1) (s_ObservedGeneration r) "deleting" ""
    (s_CreatedAt r) updated 1.

Definition q_MarkSubnetDeleting (updated : Z) (id ws : string) : statement unit := λ d,
  match q_GetSubnet id ws d with
  | Err _ => Ok (tt, d)
  | Ok r =>
      if s_DeletionRequested r =? 0 then
        check (subnet_check (subnet_deleting r updated)) ;;
        Ok (tt, set_subnets (<[id := subnet_deleting r updated]> (subnets d)) d)
      else Ok (tt, d)
  end.

Definition q_DeleteSubnet (id ws : string) : statement unit := λ d,
  match q_GetSubnet id ws d with
  | Err _ => Ok (tt, d)
  | Ok _ =>
      foreign_key (negb (any (λ r, (i_SubnetID r ==? id) && (i_WorkspaceID r ==? ws)) (instances d))) ;;
      foreign_key (negb (any (λ r, (e_SubnetID r ==? id) && (e_WorkspaceID r ==? ws)) (enis d))) ;;
      Ok (tt, set_subnets (delete id (subnets d)) d)
  end.

(** ** Instance and ENI statements *)
Definition q_CountInstancesInSubnet (subnet : string) : query Z := λ d,
  Ok (Z.of_nat (length (List.filter (λ r, i_SubnetID r ==? subnet) (rows (instances d))))).

Definition q_GetInstance (id ws : string) : query InstanceRow := λ d,
  r ← of_option ErrNoRows (instances d !! id);
  require (i_WorkspaceID r ==? ws) ErrNoRows ;; Ok r.

Definition q_GetInstanceByName (ws name : string) : query InstanceRow := λ d,
  of_option ErrNoRows (select_one (λ r, (i_WorkspaceID r ==? ws) && (i_Name r ==? name)) (instances d)).

Definition q_GetPrimaryENI (inst ws : string) : query EniRow := λ d,
  of_option ErrNoRows (select_one (λ r, (e_InstanceID r ==? inst) && (e_WorkspaceID r ==? ws)) (enis d)).

Definition q_ListInstancePage (ws after : string) (limit : Z) : query (list InstanceRow) := λ d,
  Ok (limit_rows limit
        (List.filter (λ r, (i_WorkspaceID r ==? ws) && string_gt (i_ID r) after) (by_id (instances d)))).

Definition q_ListENIAddresses (subnet : string) : query (list string) := λ d,
  Ok (merge_sort String.le (e_PrivateIp <$> List.filter (λ r, e_SubnetID r ==? subnet) (rows (enis d)))).

Definition q_InsertInstance (id ws subnet : string) (short : Z) (name : string)
    (created updated : Z) : statement unit := λ d,
  check (name_check name) ;;
  primary_key (negb (bool_decide (is_Some (instances d !! id)))) ;;
  unique (negb (any (λ r, i_ShortIndex r =? short) (instances d))) ;;
  unique (negb (any (λ r, (i_WorkspaceID r ==? ws) && (i_Name r ==? name)) (instances d))) ;;
  foreign_key (bool_decide (ws ∈ workspaces d)) ;;
  foreign_key (bool_decide (is_Some (kernel_indexes d !! short))) ;;
  foreign_key (is_Ok (q_GetSubnet subnet ws d)) ;;
  Ok (tt, set_instances (<[id := MkInstanceRow id ws subnet short name 1 0 "pending" ""
                                               created updated 0 None]> (instances d)) d).

Definition q_InsertENI (id ws inst subnet : string) (short : Z) (ip mac : string)
    (created updated : Z) : statement unit := λ d,
  primary_key (negb (bool_decide (is_Some (enis d !! id)))) ;;
  unique (negb (any (λ r, e_ShortIndex r =? short) (enis d))) ;;
  unique (negb (any (λ r, e_MacAddress r ==? mac) (enis d))) ;;
  unique (negb (any (λ r, (e_SubnetID r ==? subnet) && (e_PrivateIp r ==? ip)) (enis d))) ;;
  unique (negb (any (λ r, e_InstanceID r ==? inst) (enis d))) ;;
  foreign_key (bool_decide (ws ∈ workspaces d)) ;;
  foreign_key (bool_decide (is_Some (kernel_indexes d !! short))) ;;
  foreign_key (is_Ok (q_GetInstance inst ws d)) ;;
  foreign_key (is_Ok (q_GetSubnet subnet ws d)) ;;
  Ok (tt, set_enis (<[id := MkEniRow id ws inst subnet short ip mac 1 0 "pending" ""
                                     created updated]> (enis d)) d).

Definition instance_check (r : InstanceRow) : bool :=
  name_check (i_Name r) && instance_state_check (i_State r) &&
  generation_check (i_Generation r) (i_ObservedGeneration r) &&
  ((i_DeletionRequested r =? 0) || (i_DeletionRequested r =? 1)).

Definition instance_terminating (r : InstanceRow) (updated : Z) : InstanceRow :=
  MkInstanceRow (i_ID r) (i_WorkspaceID r) (i_SubnetID r) (i_ShortIndex r) (i_Name r)
    (i_Generation r + 1) (i_ObservedGeneration r) "shutting-down" "" (i_CreatedAt r) updated 1
    (i_RuntimeID r).

Definition q_MarkInstanceTerminating (updated : Z) (id ws : string) : statement unit := λ d,
  match q_GetInstance id ws d with
  | Err _ => Ok (tt, d)
  | Ok r =>
      if i_DeletionRequested r =? 0 then
        check (instance_check (instance_terminating r updated)) ;;
        Ok (tt, set_instances (<[id := instance_terminating r updated]> (instances d)) d)
      else Ok (tt, d)
  end.

Definition instance_with_runtime (r : InstanceRow) (rt : string) : InstanceRow :=
  MkInstanceRow (i_ID r) (i_WorkspaceID r) (i_SubnetID r) (i_ShortIndex r) (i_Name r)
    (i_Generation r) (i_ObservedGeneration r) (i_State r) (i_StateReason r) (i_CreatedAt r)
    (i_UpdatedAt r) (i_DeletionRequested r) (Some rt).

(** The two [:execrows] updates return the number of rows they changed. *)
Definition q_RecordRuntimeID (rt id : string) (generation : Z) : statement Z := λ d,
  match instances d !! id with
  | Some r =>
      if (i_Generation r =? generation) && (i_DeletionRequested r =? 0) &&
         match i_RuntimeID r with None => true | Some rt' => rt' ==? rt end
      then Ok (1, set_instances (<[id := instance_with_runtime r rt]> (instances d)) d)
      else Ok (0, d)
  | None => Ok (0, d)
  end.

Definition q_RetainTerminatingRuntimeID (rt id : string) : statement Z := λ d,
  match instances d !! id with
  | Some r =>
      if (i_DeletionRequested r =? 1) && bool_decide (i_RuntimeID r = None)
      then Ok (1, set_instances (<[id := instance_with_runtime r rt]> (instances d)) d)
      else Ok (0, d)
  | None => Ok (0, d)
  end.

Definition instance_with_status (r : InstanceRow) (state reason : string) (observed updated : Z) : InstanceRow :=
  MkInstanceRow (i_ID r) (i_WorkspaceID r) (i_SubnetID r) (i_ShortIndex r) (i_Name r)
    (i_Generation r) observed state reason (i_CreatedAt r) updated (i_DeletionRequested r)
    (i_RuntimeID r).

Definition q_UpdateInstanceStatus (state reason : string) (observed updated : Z) (id ws : string)
    : statement unit := λ d,
  match q_GetInstance id ws d with
  | Err _ => Ok (tt, d)
  | Ok r =>
      let r' := instance_with_status r state reason observed updated in
      check (instance_check r') ;; Ok (tt, set_instances (<[id := r']> (instances d)) d)
  end.

Definition eni_with_status (r : EniRow) (state reason : string) (observed updated : Z) : EniRow :=
  MkEniRow (e_ID r) (e_WorkspaceID r) (e_InstanceID r) (e_SubnetID r) (e_ShortIndex r)
    (e_PrivateIp r) (e_MacAddress r) (e_Generation r) observed state reason (e_CreatedAt r) updated.

Definition q_UpdateInstanceENIStatus (state reason : string) (observed updated : Z) (id ws : string)
    : statement unit := λ d,
  match enis d !! id with
  | Some r =>
      if e_WorkspaceID r ==? ws then
        let r' := eni_with_status r state reason observed updated in
        check (generation_check (e_Generation r') (e_ObservedGeneration r')) ;;
        Ok (tt, set_enis (<[id := r']> (enis d)) d)
      else Ok (tt, d)
  | None => Ok (tt, d)
  end.

Definition q_DeleteInstanceENI (id ws : string) : statement unit := λ d,
  match enis d !! id with
  | Some r => if e_WorkspaceID r ==? ws then Ok (tt, set_enis (delete id (enis d)) d) else Ok (tt, d)
  | None => Ok (tt, d)
  end.

Definition q_DeleteInstance (id ws : string) : statement unit := λ d,
  match q_GetInstance id ws d with
  | Err _ => Ok (tt, d)
  | Ok _ =>
      foreign_key (negb (any (λ r, (e_InstanceID r ==? id) && (e_WorkspaceID r ==? ws)) (enis d))) ;;
      Ok (tt, set_instances (delete id (instances d)) d)
  end.

(** ** Event, idempotency and index statements *)

(** AUTOINCREMENT takes the successor of the largest id ever used. *)
Definition next_id (seq : Z) : result Z :=
  require (seq <? 2 ^ 63 - 1) (ErrSQLite SQLITE_FULL) ;; Ok (seq + 1).

Definition q_InsertEvent (ws rtype rid action state : string) (generation : Z) (message : string)
    (created : Z) : statement unit := λ d,
  id ← next_id (event_seq d);
  foreign_key (bool_decide (ws ∈ workspaces d)) ;;
  Ok (tt, set_events id (events d ++ [MkEventRow id ws rtype rid action state generation message created]) d).

Definition q_EventsAfter (id limit : Z) : query (list EventRow) := λ d,
  Ok (limit_rows limit (List.filter (λ r, id <? ev_ID r) (events d))).

Definition q_GetIdempotency (ws op key : string) : query IdempotencyRequest := λ d,
  of_option ErrNoRows (idempotency d !! (ws, op, key)).

Definition q_PutIdempotency (ws op key hash rid response : string) (created expires : Z)
    : statement unit := λ d,
  foreign_key (bool_decide (ws ∈ workspaces d)) ;;
  Ok (tt, set_idempotency (<[(ws, op, key) :=
            MkIdempotencyRequest ws op key hash rid created expires response]> (idempotency d)) d).

(** [INSERT INTO kernel_indexes] of [Tx.AllocateIndex], with the new id. *)
Definition q_InsertKernelIndex (kind rid : string) : statement Z := λ d,
  id ← next_id (kernel_seq d);
  unique (negb (any (λ r, ki_ResourceID r ==? rid) (kernel_indexes d))) ;;
  Ok (id, set_kernel id (<[id := MkKernelIndex id kind rid]> (kernel_indexes d)) d).
