(* ===== verification/Sha256.v ===== *)
(** [crypto/sha256.Sum256] (FIPS 180-4), which [internal/service] uses for the
    payload hash of idempotent creates and for the MAC address of an interface.

    Words are 32-bit integers, messages lists of bytes. *)

From S2P Require Import Prelude GoStrings Encodings.
Local Open Scope Z_scope.

Definition w32 (z : Z) : Z := z mod 2 ^ 32.
Definition rotr (n x : Z) : Z := Z.lor (Z.shiftr x n) (w32 (Z.shiftl x (32 - n))).

(** The constants are, as the standard defines them, the first 32 bits of the
    fractional parts of the cube roots and of the square roots of the first primes. *)
Definition is_prime (n : Z) : bool :=
  (2 <=? n) && forallb (λ k, negb (n mod (k + 2) =? 0)) (seqZ 0 (Z.sqrt n - 1)).
Definition first_primes (count : nat) : list Z := take count (List.filter is_prime (seqZ 0 320)).

(** The largest [r] below [2 ^ n], with the bits of [acc] set, whose cube is at most [z]. *)
Fixpoint cbrt_bits (n : nat) (acc z : Z) : Z :=
  match n with
  | O => acc
  | S n' =>
      let r := acc + 2 ^ Z.of_nat n' in
      cbrt_bits n' (if r ^ 3 <=? z then r else acc) z
  end.

Definition K256 : list Z :=
  Eval vm_compute in (λ p, w32 (cbrt_bits 35 0 (p * 2 ^ 96))) <$> first_primes 64.

Record hstate := MkH { ha : Z; hb : Z; hc : Z; hd : Z; he : Z; hf : Z; hg : Z; hh : Z }.
Definition H0 : hstate :=
  Eval vm_compute in
    match (λ p, w32 (Z.sqrt (p * 2 ^ 64))) <$> first_primes 8 with
    | [a; b; c; d; e; f; g; h] => MkH a b c d e f g h
    | _ => MkH 0 0 0 0 0 0 0 0
    end.

Definition Ch (x y z : Z) : Z := Z.lxor (Z.land x y) (Z.land (2 ^ 32 - 1 - x) z).
Definition Maj (x y z : Z) : Z := Z.lxor (Z.lxor (Z.land x y) (Z.land x z)) (Z.land y z).
Definition Sigma0 (x : Z) : Z := Z.lxor (Z.lxor (rotr 2 x) (rotr 13 x)) (rotr 22 x).
Definition Sigma1 (x : Z) : Z := Z.lxor (Z.lxor (rotr 6 x) (rotr 11 x)) (rotr 25 x).
Definition sigma0 (x : Z) : Z := Z.lxor (Z.lxor (rotr 7 x) (rotr 18 x)) (Z.shiftr x 3).
Definition sigma1 (x : Z) : Z := Z.lxor (Z.lxor (rotr 17 x) (rotr 19 x)) (Z.shiftr x 10).

(** The message schedule, newest word first: [w] holds [W(t-1), W(t-2), ...]. *)
Fixpoint expand (n : nat) (w : list Z) : list Z :=
  match n with
  | O => w
  | S n' =>
      let wt := w32 (sigma1 (nth 1 w 0) + nth 6 w 0 + sigma0 (nth 14 w 0) + nth 15 w 0) in
      expand n' (wt :: w)
  end.

Definition sha_round (s : hstate) (kw : Z * Z) : hstate :=
  let t1 := w32 (hh s + Sigma1 (he s) + Ch (he s) (hf s) (hg s) + kw.1 + kw.2) in
  let t2 := w32 (Sigma0 (ha s) + Maj (ha s) (hb s) (hc s)) in
  MkH (w32 (t1 + t2)) (ha s) (hb s) (hc s) (w32 (hd s + t1)) (he s) (hf s) (hg s).

Fixpoint words (l : list Z) : list Z :=
  match l with
  | a :: b :: c :: d :: l' => ((a * 256 + b) * 256 + c) * 256 + d :: words l'
  | _ => []
  end.

Definition compress (s : hstate) (block : list Z) : hstate :=
  let w := rev (expand 48 (rev (words block))) in
  let r := fold_left sha_round (zip K256 w) s in
  MkH (w32 (ha s + ha r)) (w32 (hb s + hb r)) (w32 (hc s + hc r)) (w32 (hd s + hd r))
      (w32 (he s + he r)) (w32 (hf s + hf r)) (w32 (hg s + hg r)) (w32 (hh s + hh r)).

Fixpoint blocks (n : nat) (l : list Z) : list (list Z) :=
  match n with
  | O => []
  | S n' => take 64 l :: blocks n' (drop 64 l)
  end.

(** Big-endian bytes of a [n]-byte integer. *)
Fixpoint be_bytes (n : nat) (z : Z) : list Z :=
  match n with
  | O => []
  | S n' => (z / 256 ^ Z.of_nat n') mod 256 :: be_bytes n' z
  end.

Definition pad (l : list Z) : list Z :=
  let n := Z.of_nat (length l) in
  l ++ [0x80] ++ replicate (Z.to_nat ((55 - n) mod 64)) 0 ++ be_bytes 8 (8 * n).

Definition digest (s : hstate) : list Z :=
  concat (be_bytes 4 <$> [ha s; hb s; hc s; hd s; he s; hf s; hg s; hh s]).

Definition Sum256 (l : list Z) : list Z :=
  let p := pad l in digest (fold_left compress (blocks (length p / 64) p) H0).

(** Test vectors of FIPS 180-4 and an input of several blocks. *)
Example Sum256_abc :
  hex_EncodeToString (Sum256 (bytes "abc")) =
  "ba7816bf8f01cfea414140de5dae2223b00361a396177a9cb410ff61f20015ad".
Proof. vm_compute. reflexivity. Qed.
Example Sum256_two_blocks :
  hex_EncodeToString (Sum256 (bytes "abcdbcdecdefdefgefghfghighijhijkijkljklmklmnlmnomnopnopq")) =
  "248d6a61d20638b8e5c026930c3e6039a33ce45964ff2167f6ecedd419db06c1".
Proof. vm_compute. reflexivity. Qed.
Example Sum256_empty :
  hex_EncodeToString (Sum256 []) =
  "e3b0c44298fc1c149afbf4c8996fb92427ae41e4649b934ca495991b7852b855".
Proof. vm_compute. reflexivity. Qed.

Lemma be_bytes_byte n z : Forall is_byte (be_bytes n z).
Proof.
  induction n as [|n IH]; simpl; constructor; [|done].
  unfold is_byte. apply Z.mod_pos_bound. lia.
Qed.

Lemma be_bytes_length n z : length (be_bytes n z) = n.
Proof. induction n; simpl; congruence. Qed.

Lemma digest_parts s :
  digest s = be_bytes 4 (ha s) ++ be_bytes 4 (hb s) ++ be_bytes 4 (hc s) ++ be_bytes 4 (hd s) ++
             be_bytes 4 (he s) ++ be_bytes 4 (hf s) ++ be_bytes 4 (hg s) ++ be_bytes 4 (hh s) ++ [].
Proof. reflexivity. Qed.

(** A digest is 32 bytes. *)
Lemma Sum256_length l : length (Sum256 l) = 32%nat.
Proof. unfold Sum256. by rewrite digest_parts, !length_app, !be_bytes_length. Qed.

Lemma Sum256_byte l : Forall is_byte (Sum256 l).
Proof. unfold Sum256. rewrite digest_parts, !Forall_app. repeat split; try apply be_bytes_byte. constructor. Qed.
