(* ===== verification/Mac.v ===== *)
(** Hardware addresses: [net.HardwareAddr.String] and [net.ParseMAC] of Go's
    [net], [validENIMAC] of [internal/store/instances.go] and the derivation of
    an interface's address in [Instances.Run] of [internal/service/instance.go]. *)

From S2P Require Import Prelude Errors GoStrings Encodings Sha256.
Local Open Scope Z_scope.

Definition hexval (c : Z) : option Z :=
  if is_digit c then Some (c - 48)
  else if (97 <=? c) && (c <=? 102) then Some (c - 87)
  else if (65 <=? c) && (c <=? 70) then Some (c - 55)
  else None.

(** [xtoi2]: two hex digits; a third byte, if any, must be [e]. *)
Definition xtoi2 (s : list Z) (e : Z) : option Z :=
  match s with
  | a :: b :: s' =>
      match s' with
      | [] => h ← hexval a; l ← hexval b; Some (16 * h + l)
      | c :: _ => if c =? e then h ← hexval a; l ← hexval b; Some (16 * h + l) else None
      end
  | _ => None
  end.

Fixpoint mac_groups (n : nat) (s : list Z) (e : Z) : option (list Z) :=
  match n with
  | O => Some []
  | S n' => b ← xtoi2 s e; l ← mac_groups n' (drop 3 s) e; Some (b :: l)
  end.

Fixpoint mac_dotted (n : nat) (s : list Z) (e : Z) : option (list Z) :=
  match n with
  | O => Some []
  | S n' =>
      b ← xtoi2 (take 2 s) 0; c ← xtoi2 (drop 2 s) e;
      l ← mac_dotted n' (drop 5 s) e; Some (b :: c :: l)
  end.

Definition mac_length (n : Z) : bool := (n =? 6) || (n =? 8) || (n =? 20).

Definition ParseMAC_bytes (s : list Z) : option (list Z) :=
  let n := Z.of_nat (length s) in
  if n <? 14 then None
  else
    let c2 := nth 2 s 0 in
    if (c2 =? 58) || (c2 =? 45) then
      if ((n + 1) mod 3 =? 0) && mac_length ((n + 1) / 3)
      then mac_groups (Z.to_nat ((n + 1) / 3)) s c2 else None
    else if nth 4 s 0 =? 46 then
      if ((n + 1) mod 5 =? 0) && mac_length (2 * (n + 1) / 5)
      then mac_dotted (Z.to_nat ((n + 1) / 5)) s 46 else None
    else None.

Definition ParseMAC (s : string) : result (list Z) :=
  of_option (Errorf (Sprintf "address %s: invalid MAC address" [s])) (ParseMAC_bytes (bytes s)).

(** [HardwareAddr.String]: lower-case pairs separated by colons. *)
Fixpoint mac_bytes (l : list Z) : list Z :=
  match l with
  | [] => []
  | [b] => [hexchar (b / 16); hexchar (b mod 16)]
  | b :: l' => hexchar (b / 16) :: hexchar (b mod 16) :: 58 :: mac_bytes l'
  end.
Definition HardwareAddr_String (l : list Z) : string := of_bytes (mac_bytes l).

(** [validENIMAC]: six bytes, locally administered, unicast. *)
Definition validENIMAC (raw : string) : result (list Z) :=
  mac ← wrap_err (Sprintf "decode ENI MAC %q: %w" [raw]) (ParseMAC raw);
  require ((Z.of_nat (length mac) =? 6) && (Z.land (nth 0 mac 0) 3 =? 2))
    (Errorf (Sprintf "ENI MAC %q must be locally administered unicast" [raw])) ;;
  Ok mac.

(** [digest := sha256.Sum256([]byte(eniID)); mac := digest[:6];
    mac[0] = (mac[0] & 0xfc) | 0x02]. *)
Definition eniMAC (eniID : string) : list Z :=
  match take 6 (Sum256 (bytes eniID)) with
  | b :: l => Z.lor (Z.land b 0xfc) 0x02 :: l
  | [] => []
  end.

(** ** Lemmas *)
Lemma hexval_hexchar d : 0 ≤ d < 16 → hexval (hexchar d) = Some d.
Proof.
  intros Hd. apply (bool_decide_eq_true_1 _).
  apply (by_cases_Z 0 16 (λ d, bool_decide (hexval (hexchar d) = Some d)) d Hd). vm_compute. reflexivity.
Qed.

Lemma xtoi2_hex b s e :
  is_byte b → (∀ c s', s = c :: s' → c = e) →
  xtoi2 (hexchar (b / 16) :: hexchar (b mod 16) :: s) e = Some b.
Proof.
  intros Hb Hs. destruct (nibbles b Hb) as [Hh Hl].
  assert (16 * (b / 16) + b mod 16 = b) as E by (pose proof (Z.div_mod b 16); lia).
  unfold xtoi2. destruct s as [|c s].
  - by rewrite !hexval_hexchar by done; simpl; rewrite E.
  - rewrite (Hs c s eq_refl), Z.eqb_refl. by rewrite !hexval_hexchar by done; simpl; rewrite E.
Qed.

Lemma mac_groups_bytes l :
  Forall is_byte l → mac_groups (length l) (mac_bytes l) 58 = Some l.
Proof.
  induction 1 as [|b l Hb Hl IH]; [done|]. destruct l as [|c l].
  - cbn -[xtoi2]. by rewrite xtoi2_hex by done.
  - change (mac_groups (length (b :: c :: l)) (mac_bytes (b :: c :: l)) 58) with
      (b' ← xtoi2 (hexchar (b / 16) :: hexchar (b mod 16) :: 58 :: mac_bytes (c :: l)) 58;
       l' ← mac_groups (length (c :: l)) (mac_bytes (c :: l)) 58; Some (b' :: l')).
    rewrite xtoi2_hex by naive_solver. cbn [mbind option_bind]. by rewrite IH.
Qed.

Lemma length_mac_bytes l :
  Z.of_nat (length (mac_bytes l)) = if bool_decide (l = []) then 0 else 3 * Z.of_nat (length l) - 1.
Proof.
  induction l as [|b l IH]; [done|]. destruct l as [|c l]; [done|].
  change (mac_bytes (b :: c :: l)) with
    (hexchar (b / 16) :: hexchar (b mod 16) :: 58 :: mac_bytes (c :: l)).
  rewrite bool_decide_eq_false_2 in IH by done. rewrite bool_decide_eq_false_2 by done.
  cbn [length] in *. lia.
Qed.

Lemma mac_bytes_byte l : Forall is_byte l → Forall is_byte (mac_bytes l).
Proof.
  assert (∀ d, 0 ≤ d < 16 → is_byte (hexchar d)) as Hc.
  { intros d Hd. unfold hexchar, is_byte. case_match; reflect_bools; lia. }
  induction 1 as [|b l Hb Hl IH]; [constructor|]. destruct (nibbles b Hb) as [??].
  destruct l as [|c l]; repeat (apply Forall_cons; split); auto. done.
Qed.

(** The text of a six-byte address parses back to it. *)
Lemma ParseMAC_String l :
  length l = 6%nat → Forall is_byte l → ParseMAC (HardwareAddr_String l) = Ok l.
Proof.
  intros Hlen Hb. unfold ParseMAC, HardwareAddr_String.
  rewrite bytes_of_bytes by auto using mac_bytes_byte.
  assert (ParseMAC_bytes (mac_bytes l) = Some l) as ->; [|done].
  unfold ParseMAC_bytes. rewrite length_mac_bytes.
  rewrite bool_decide_eq_false_2 by (by intros ->). rewrite Hlen.
  assert (nth 2 (mac_bytes l) 0 = 58) as ->.
  { destruct l as [|? [|? ?]]; done. }
  transitivity (mac_groups 6 (mac_bytes l) 58); [reflexivity|]. rewrite <- Hlen.
  by apply mac_groups_bytes.
Qed.

Lemma eniMAC_shape id :
  length (eniMAC id) = 6%nat ∧ Forall is_byte (eniMAC id) ∧ Z.land (nth 0 (eniMAC id) 0) 3 = 2.
Proof.
  unfold eniMAC. pose proof (Sum256_length (bytes id)) as Hn.
  pose proof (Sum256_byte (bytes id)) as Hb.
  destruct (Sum256 (bytes id)) as [|a l]; [done|]. inversion_clear Hb as [|?? Ha Hl].
  cbn [take]. split; [cbn [length] in *; rewrite length_take; lia|].
  assert (is_byte (Z.lor (Z.land a 252) 2) ∧ Z.land (Z.lor (Z.land a 252) 2) 3 = 2) as [H1 H2].
  { assert (((0 <=? Z.lor (Z.land a 252) 2) && (Z.lor (Z.land a 252) 2 <? 256) &&
             (Z.land (Z.lor (Z.land a 252) 2) 3 =? 2)) = true) as H.
    { refine (by_cases_Z 0 256 (λ a, (0 <=? Z.lor (Z.land a 252) 2) && (Z.lor (Z.land a 252) 2 <? 256) &&
             (Z.land (Z.lor (Z.land a 252) 2) 3 =? 2)) a Ha _). vm_compute. reflexivity. }
    reflect_bools. unfold is_byte. lia. }
  split; [|done]. constructor; [done|]. by apply Forall_take.
Qed.

(** The address the service derives is one the store accepts. *)
Lemma validENIMAC_eniMAC id : validENIMAC (HardwareAddr_String (eniMAC id)) = Ok (eniMAC id).
Proof.
  destruct (eniMAC_shape id) as (Hl & Hb & Hm). unfold validENIMAC.
  rewrite ParseMAC_String by done. unfold mbind, result_bind, wrap_err. by rewrite Hl, Hm.
Qed.
