(* ===== verification/Json.v ===== *)
(** [encoding/json] as the control plane uses it: [json.Marshal] and
    [json.Unmarshal] of strings, booleans, integers, string lists and structs.

    [encode] writes a value the way [json.Marshal] does (no spaces, HTML-safe
    strings), [parse] reads any JSON text.  Struct codecs of other files are
    built from the [dec_...] functions, which follow [json.Unmarshal]: a [null]
    leaves the target unchanged, an unknown field is skipped, a repeated one
    overwrites, field names match up to case. *)

From S2P Require Import Prelude Errors GoStrings Encodings Utf8 Mac.
Local Open Scope Z_scope.

Inductive json :=
  | JNull
  | JBool (b : bool)
  | JNum (literal : list Z)
  | JStr (l : list Z)
  | JArr (l : list json)
  | JObj (fields : list (list Z * json)).

(** ** Encoding *)
Definition quoted_rune (r : rune) : list Z :=
  let c := r_code r in
  if negb (r_valid r) then [92; 117; 102; 102; 102; 100]
  else if c <? 128 then
    if (c =? 34) || (c =? 92) then [92; c]
    else if c =? 8 then [92; 98]
    else if c =? 12 then [92; 102]
    else if c =? 10 then [92; 110]
    else if c =? 13 then [92; 114]
    else if c =? 9 then [92; 116]
    else if (c <? 32) || (c =? 60) || (c =? 62) || (c =? 38)
    then [92; 117; 48; 48; hexchar (c / 16); hexchar (c mod 16)]
    else [c]
  else if (c =? 8232) || (c =? 8233) then [92; 117; 50; 48; 50; hexchar (c mod 16)]
  else r_bytes r.

Fixpoint quoted_runes (rs : list rune) : list Z :=
  match rs with
  | [] => []
  | r :: rs' => quoted_rune r ++ quoted_runes rs'
  end.
Definition quoted (l : list Z) : list Z := 34 :: quoted_runes (decode l) ++ [34].

(** Elements separated by commas. *)
Fixpoint sep_by (parts : list (list Z)) : list Z :=
  match parts with
  | [] => []
  | [p] => p
  | p :: ps => p ++ 44 :: sep_by ps
  end.

Fixpoint encode (v : json) : list Z :=
  match v with
  | JNull => bytes "null"
  | JBool b => bytes (if b then "true" else "false")
  | JNum literal => literal
  | JStr l => quoted l
  | JArr vs => 91 :: sep_by (List.map encode vs) ++ [93]
  | JObj fs => 123 :: sep_by (List.map (λ f, quoted f.1 ++ 58 :: encode f.2) fs) ++ [125]
  end.

(** ** Parsing *)
Definition is_json_space (b : Z) : bool := (b =? 32) || (b =? 9) || (b =? 10) || (b =? 13).
Fixpoint skip_space (l : list Z) : list Z :=
  match l with
  | b :: l' => if is_json_space b then skip_space l' else l
  | [] => []
  end.

(** [utf8.AppendRune] *)
Definition encode_rune (c : Z) : list Z :=
  if c <? 128 then [c]
  else if c <? 2048 then [192 + c / 64; 128 + c mod 64]
  else if c <? 65536 then [224 + c / 4096; 128 + (c / 64) mod 64; 128 + c mod 64]
  else [240 + c / 262144; 128 + (c / 4096) mod 64; 128 + (c / 64) mod 64; 128 + c mod 64].

(** [getu4] after [\u]: four hexadecimal digits. *)
Definition getu4 (l : list Z) : option (Z * list Z) :=
  match l with
  | a :: b :: c :: d :: l' =>
      a ← hexval a; b ← hexval b; c ← hexval c; d ← hexval d;
      Some (((a * 16 + b) * 16 + c) * 16 + d, l')
  | _ => None
  end.

Definition is_surrogate (c : Z) : bool := between 0xD800 0xDFFF c.

(** The code point of an escape [\uXXXX], joined with a second escape when the
    two form a surrogate pair, and the replacement character otherwise. *)
Definition unescape_u (l : list Z) : option (Z * list Z) :=
  '(c, l1) ← getu4 l;
  if is_surrogate c then
    match l1 with
    | 92 :: 117 :: l2 =>
        match getu4 l2 with
        | Some (c2, l3) =>
            if between 0xD800 0xDBFF c && between 0xDC00 0xDFFF c2
            then Some (65536 + (c - 0xD800) * 1024 + (c2 - 0xDC00), l3)
            else Some (65533, l1)
        | None => Some (65533, l1)
        end
    | _ => Some (65533, l1)
    end
  else Some (c, l1).

Definition simple_escape (b : Z) : option Z :=
  if (b =? 34) || (b =? 92) || (b =? 47) then Some b
  else if b =? 98 then Some 8
  else if b =? 102 then Some 12
  else if b =? 110 then Some 10
  else if b =? 114 then Some 13
  else if b =? 116 then Some 9
  else None.

(** A string after its opening quote. *)
Fixpoint parse_str (fuel : nat) (l : list Z) : option (list Z * list Z) :=
  match fuel, l with
  | S f, b :: l' =>
      if b =? 34 then Some ([], l')
      else if b =? 92 then
        match l' with
        | e :: l2 =>
            if e =? 117 then
              '(c, l3) ← unescape_u l2; '(s, rest) ← parse_str f l3; Some (encode_rune c ++ s, rest)
            else
              c ← simple_escape e; '(s, rest) ← parse_str f l2; Some (c :: s, rest)
        | [] => None
        end
      else if b <? 32 then None
      else
        let '(r, l2) := decode_rune b l' in
        '(s, rest) ← parse_str f l2;
        Some ((if r_valid r then r_bytes r else [239; 191; 189]) ++ s, rest)
  | _, _ => None
  end.

Fixpoint digits (l : list Z) : list Z * list Z :=
  match l with
  | b :: l' => if is_digit b then let '(ds, rest) := digits l' in (b :: ds, rest) else ([], l)
  | [] => ([], [])
  end.

Definition parse_exponent (l : list Z) : option (list Z * list Z) :=
  match l with
  | e :: l1 =>
      if (e =? 101) || (e =? 69) then
        let '(sign, l2) := match l1 with
                           | c :: l2 => if (c =? 43) || (c =? 45) then ([c], l2) else ([], l1)
                           | [] => ([], l1)
                           end in
        let '(ds, rest) := digits l2 in
        if bool_decide (ds = []) then None else Some (e :: sign ++ ds, rest)
      else Some ([], l)
  | [] => Some ([], l)
  end.

Definition parse_fraction (l : list Z) : option (list Z * list Z) :=
  match l with
  | c :: l1 =>
      if c =? 46 then
        let '(ds, rest) := digits l1 in
        if bool_decide (ds = []) then None else Some (c :: ds, rest)
      else Some ([], l)
  | [] => Some ([], l)
  end.

Definition parse_integer (l : list Z) : option (list Z * list Z) :=
  match l with
  | c :: l1 =>
      if c =? 48 then Some ([c], l1)
      else let '(ds, rest) := digits l in if bool_decide (ds = []) then None else Some (ds, rest)
  | [] => None
  end.

Definition parse_number (l : list Z) : option (list Z * list Z) :=
  let '(sign, l1) := match l with
                     | c :: l1 => if c =? 45 then ([c], l1) else ([], l)
                     | [] => ([], l)
                     end in
  '(int, l2) ← parse_integer l1;
  '(frac, l3) ← parse_fraction l2;
  '(expo, l4) ← parse_exponent l3;
  Some (sign ++ int ++ frac ++ expo, l4).

Definition parse_literal (word l : list Z) : option (list Z) :=
  if bool_decide (take (length word) l = word) then Some (drop (length word) l) else None.

(** The next byte after spaces, when it is [c]. *)
Definition eat (c : Z) (l : list Z) : option (list Z) :=
  match skip_space l with
  | b :: l' => if b =? c then Some l' else None
  | [] => None
  end.

(** One value; [fuel] bounds the nesting and the number of elements, and [depth]
    is the nesting the decoder still accepts. *)
Fixpoint parse_value (fuel depth : nat) (l : list Z) : option (json * list Z) :=
  match fuel with
  | O => None
  | S f =>
      match skip_space l with
      | [] => None
      | b :: l1 =>
          if b =? 34 then '(s, rest) ← parse_str (length l1) l1; Some (JStr s, rest)
          else if b =? 123 then
            match depth with
            | O => None
            | S dep =>
                match eat 125 l1 with
                | Some rest => Some (JObj [], rest)
                | None => '(fs, rest) ← parse_members f dep l1; Some (JObj fs, rest)
                end
            end
          else if b =? 91 then
            match depth with
            | O => None
            | S dep =>
                match eat 93 l1 with
                | Some rest => Some (JArr [], rest)
                | None => '(vs, rest) ← parse_elements f dep l1; Some (JArr vs, rest)
                end
            end
          else if b =? 110 then rest ← parse_literal (bytes "null") (b :: l1); Some (JNull, rest)
          else if b =? 116 then rest ← parse_literal (bytes "true") (b :: l1); Some (JBool true, rest)
          else if b =? 102 then rest ← parse_literal (bytes "false") (b :: l1); Some (JBool false, rest)
          else '(n, rest) ← parse_number (b :: l1); Some (JNum n, rest)
      end
  end
with parse_elements (fuel depth : nat) (l : list Z) : option (list json * list Z) :=
  match fuel with
  | O => None
  | S f =>
      '(v, l1) ← parse_value f depth l;
      match eat 44 l1 with
      | Some l2 => '(vs, rest) ← parse_elements f depth l2; Some (v :: vs, rest)
      | None => rest ← eat 93 l1; Some ([v], rest)
      end
  end
with parse_members (fuel depth : nat) (l : list Z) : option (list (list Z * json) * list Z) :=
  match fuel with
  | O => None
  | S f =>
      l1 ← eat 34 l;
      '(k, l2) ← parse_str (length l1) l1;
      l3 ← eat 58 l2;
      '(v, l4) ← parse_value f depth l3;
      match eat 44 l4 with
      | Some l5 => '(fs, rest) ← parse_members f depth l5; Some ((k, v) :: fs, rest)
      | None => rest ← eat 125 l4; Some ([(k, v)], rest)
      end
  end.

(** The decoder's bound on nesting. *)
Definition maxNestingDepth : nat := Z.to_nat 10000.
(** A value of [n] bytes has less than [2 n + 2] nested or repeated parts. *)
Definition parse (l : list Z) : option json :=
  match parse_value (2 * length l + 2) maxNestingDepth l with
  | Some (v, rest) => if bool_decide (skip_space rest = []) then Some v else None
  | None => None
  end.

(** ** Decoding into Go values *)
Definition typeError : error := Errorf (lit "json: cannot unmarshal value into Go value").
Definition syntaxError : error := Errorf (lit "json: invalid syntax").

Definition dec_string (v : json) (x : string) : result string :=
  match v with JNull => Ok x | JStr l => Ok (of_bytes l) | _ => Err typeError end.
Definition dec_bool (v : json) (x : bool) : result bool :=
  match v with JNull => Ok x | JBool b => Ok b | _ => Err typeError end.
Definition dec_int64 (v : json) (x : Z) : result Z :=
  match v with
  | JNull => Ok x
  | JNum l => of_option typeError (ParseInt (of_bytes l))
  | _ => Err typeError
  end.

(** [foldName]: ASCII letters in upper case, and the two other runes whose case
    folding is an ASCII letter. *)
Definition fold_rune (c : Z) : Z :=
  if between 97 122 c then c - 32 else if c =? 383 then 83 else if c =? 8490 then 75 else c.
Definition fold_name (l : list Z) : list Z := fold_rune <$> (r_code <$> decode l).
Definition is_field (name : string) (key : list Z) : bool :=
  bool_decide (fold_name key = fold_name (bytes name)).

(** A struct decoder: what a field's value does to the target. *)
Definition dec_struct {T} (field : list Z → option (json → T → result T)) (v : json) (x : T) : result T :=
  match v with
  | JNull => Ok x
  | JObj fs =>
      fold_left (λ acc f, x' ← acc; match field f.1 with Some set => set f.2 x' | None => Ok x' end)
                fs (Ok x)
  | _ => Err typeError
  end.

(** [json.Unmarshal] into a zero value. *)
Definition unmarshal {T} (dec : json → T → result T) (zero : T) (data : string) : result T :=
  v ← of_option syntaxError (parse (bytes data)); dec v zero.

(** ** Reading back what [encode] wrote *)

(** What may follow a value. *)
Definition delim (rest : list Z) : Prop :=
  match rest with [] => True | b :: _ => b = 44 ∨ b = 93 ∨ b = 125 ∨ b = 10 end.

Lemma format_digits_lead fuel n acc :
  0 < n < 10 ^ Z.of_nat fuel →
  ∃ d ds, bytes (format_digits fuel n acc) = 48 + d :: ds ++ bytes acc ∧ 1 ≤ d ≤ 9 ∧
          Forall (λ b, is_digit b = true) ds.
Proof.
  revert n acc. induction fuel as [|f IH]; intros n acc Hn; [simpl in Hn; lia|].
  cbn [format_digits]. destruct (n <? 10) eqn:E; reflect_bools.
  - exists n, []. rewrite Z.mod_small by lia. cbn [bytes]. rewrite digit_byte by lia.
    split_and!; auto; lia.
  - rewrite Nat2Z.inj_succ, Z.pow_succ_r in Hn by lia.
    destruct (IH (n / 10) (String (digit_char (n mod 10)) acc)) as (d & ds & H & Hd & Hds).
    { split; [apply Z.div_str_pos; lia|apply Z.div_lt_upper_bound; lia]. }
    pose proof (Z.mod_pos_bound n 10 ltac:(lia)).
    exists d, (ds ++ [48 + n mod 10]). rewrite H. cbn [bytes]. rewrite digit_byte by lia.
    split_and!; [by rewrite <- app_assoc|lia..|].
    apply Forall_app. split; [done|]. repeat constructor. apply is_digit_digit. lia.
Qed.

Lemma digits_app ds rest :
  Forall (λ b, is_digit b = true) ds → delim rest → digits (ds ++ rest) = (ds, rest).
Proof.
  intros Hds Hr. induction Hds as [|b ds Hb _ IH]; simpl.
  - destruct rest as [|b rest]; [done|]. simpl. by destruct Hr as [->|[->|[->| ->]]].
  - by rewrite Hb, IH.
Qed.

Lemma parse_fraction_delim rest : delim rest → parse_fraction rest = Some ([], rest).
Proof. destruct rest as [|b rest]; [done|]. by intros [->|[->|[->| ->]]]. Qed.
Lemma parse_exponent_delim rest : delim rest → parse_exponent rest = Some ([], rest).
Proof. destruct rest as [|b rest]; [done|]. by intros [->|[->|[->| ->]]]. Qed.

Lemma parse_integer_format n rest :
  0 ≤ n < 2 ^ 64 → delim rest →
  parse_integer (bytes (format_digits 20 n "") ++ rest) = Some (bytes (format_digits 20 n ""), rest).
Proof.
  intros Hn Hr. destruct (decide (n = 0)) as [->|Hne]; [done|].
  destruct (format_digits_lead 20 n "") as (d & ds & -> & Hd & Hds).
  { split; [lia|]. apply Z.lt_le_trans with (2 ^ 64); [lia|by vm_compute]. }
  cbn [bytes]. rewrite app_nil_r. unfold parse_integer. cbn [app].
  rewrite (proj2 (Z.eqb_neq _ _)) by lia.
  change (48 + d :: ds ++ rest) with ((48 + d :: ds) ++ rest). rewrite digits_app; auto.
  constructor; [apply is_digit_digit; lia|done].
Qed.

Lemma parse_number_format n rest :
  - 2 ^ 63 ≤ n < 2 ^ 63 → delim rest →
  parse_number (bytes (FormatInt n) ++ rest) = Some (bytes (FormatInt n), rest).
Proof.
  intros Hn Hr. unfold FormatInt. destruct (n <? 0) eqn:E; reflect_bools.
  - change (bytes ("-" +:+ ?s)) with (45 :: bytes s). unfold parse_number. cbn [app].
    rewrite Z.eqb_refl. rewrite parse_integer_format by (auto; lia). cbn [mbind option_bind].
    rewrite parse_fraction_delim by done. cbn [mbind option_bind]. rewrite parse_exponent_delim by done. cbn [mbind option_bind].
    by rewrite !app_nil_r.
  - pose proof (parse_integer_format n rest ltac:(lia) Hr) as Hp.
    destruct (bytes (format_digits 20 n "") ++ rest) as [|c l] eqn:El.
    { discriminate Hp. }
    assert ((c =? 45) = false) as Hc.
    { destruct (decide (n = 0)) as [->|Hne]; [simpl in El; by simplify_eq|].
      destruct (format_digits_lead 20 n "") as (d & ds & Hb & Hd & _).
      { split; [lia|]. apply Z.lt_le_trans with (2 ^ 64); [lia|by vm_compute]. }
      rewrite Hb in El. cbn [app] in El. injection El as <- _. apply Z.eqb_neq. lia. }
    unfold parse_number. rewrite Hc, Hp. cbn [mbind option_bind].
    rewrite parse_fraction_delim by done. cbn [mbind option_bind]. rewrite parse_exponent_delim by done. cbn [mbind option_bind].
    by rewrite !app_nil_r.
Qed.

Lemma getu4_ascii c rest :
  0 ≤ c < 128 → getu4 (48 :: 48 :: hexchar (c / 16) :: hexchar (c mod 16) :: rest) = Some (c, rest).
Proof.
  intros Hc. destruct (nibbles c) as [H1 H2]; [unfold is_byte; lia|].
  unfold getu4. change (hexval 48) with (Some 0). rewrite !hexval_hexchar by done. simpl.
  do 2 f_equal. pose proof (Z.div_mod c 16). lia.
Qed.

Lemma decode_valid_ascii b0 l r rest :
  decode_rune b0 l = (r, rest) → r_valid r = true → r_code r < 128 → 0 ≤ b0 →
  r_code r = b0 ∧ r_bytes r = [b0] ∧ rest = l.
Proof.
  intros H Hv Hc Hb. destruct (decode_rune_shape _ _ _ _ H Hv)
    as [(? & -> & ->)|[(b1 & ? & ? & ->)|[(b1 & b2 & ? & ? & ? & ? & ->)|(b1 & b2 & b3 & ? & ? & ? & ? & ? & ->)]]];
    [done|cbn [r_code] in Hc; lia..].
Qed.

(** Decomposition of a code point into the groups of its bytes. *)
Lemma group2 h x : 0 ≤ x < 64 → (h * 64 + x) / 64 = h ∧ (h * 64 + x) mod 64 = x.
Proof. intros. div_lia. Qed.

Lemma encode_rune2 h x : 2 ≤ h < 32 → 0 ≤ x < 64 → encode_rune (h * 64 + x) = [192 + h; 128 + x].
Proof.
  intros. unfold encode_rune. destruct (group2 h x) as [-> ->]; [done|].
  by rewrite (proj2 (Z.ltb_ge _ _)), (proj2 (Z.ltb_lt _ _)) by lia.
Qed.

Lemma encode_rune3 h x y :
  0 ≤ h < 16 → 0 ≤ x < 64 → 0 ≤ y < 64 → 2048 ≤ h * 4096 + x * 64 + y →
  encode_rune (h * 4096 + x * 64 + y) = [224 + h; 128 + x; 128 + y].
Proof.
  intros. unfold encode_rune.
  rewrite !(proj2 (Z.ltb_ge _ _)), (proj2 (Z.ltb_lt _ _)) by lia.
  replace (h * 4096 + x * 64 + y) with ((h * 64 + x) * 64 + y) by lia.
  destruct (group2 (h * 64 + x) y) as [-> ->]; [done|].
  destruct (group2 h x) as [_ ->]; [done|].
  replace ((_ * 64 + y) / 4096) with h by div_lia. done.
Qed.

Lemma encode_rune4 h x y z :
  0 ≤ h < 8 → 0 ≤ x < 64 → 0 ≤ y < 64 → 0 ≤ z < 64 → 65536 ≤ h * 262144 + x * 4096 + y * 64 + z →
  encode_rune (h * 262144 + x * 4096 + y * 64 + z) = [240 + h; 128 + x; 128 + y; 128 + z].
Proof.
  intros. unfold encode_rune. rewrite !(proj2 (Z.ltb_ge _ _)) by lia.
  replace (h * 262144 + x * 4096 + y * 64 + z) with (((h * 64 + x) * 64 + y) * 64 + z) by lia.
  destruct (group2 ((h * 64 + x) * 64 + y) z) as [-> ->]; [done|].
  destruct (group2 (h * 64 + x) y) as [_ ->]; [done|].
  replace ((_ * 64 + z) / 4096) with (h * 64 + x) by div_lia.
  destruct (group2 h x) as [_ ->]; [done|].
  replace ((_ * 64 + z) / 262144) with h by div_lia. done.
Qed.

(** [utf8.AppendRune] writes a well-formed rune the way it was read. *)
Lemma encode_decode_rune b0 l r rest :
  decode_rune b0 l = (r, rest) → r_valid r = true → 0 ≤ b0 → encode_rune (r_code r) = r_bytes r.
Proof.
  intros H Hv Hb. destruct (decode_rune_shape _ _ _ _ H Hv)
    as [(? & -> & ->)|[(b1 & ? & ? & ->)|[(b1 & b2 & ? & ? & ? & ? & ->)|(b1 & b2 & b3 & ? & ? & ? & ? & ? & ->)]]];
    cbn [r_code r_bytes].
  - unfold encode_rune. by rewrite (proj2 (Z.ltb_lt _ _)) by lia.
  - rewrite encode_rune2 by lia. repeat f_equal; lia.
  - rewrite encode_rune3 by lia. repeat f_equal; lia.
  - rewrite encode_rune4 by lia. repeat f_equal; lia.
Qed.

(** One step of the reader on the encoding of a rune. *)
Lemma parse_str_rune f b0 l r rest k :
  decode_rune b0 l = (r, rest) → r_valid r = true → 0 ≤ b0 →
  parse_str (S f) (quoted_rune r ++ k) =
  ('(s, rest) ← parse_str f k; Some (r_bytes r ++ s, rest)).
Proof.
  intros Hd Hv Hb. unfold quoted_rune. rewrite Hv. simpl negb. cbv iota.
  destruct (r_code r <? 128) eqn:Hc; reflect_bools.
  - destruct (decode_valid_ascii _ _ _ _ Hd Hv Hc Hb) as (Hcode & Hbytes & ->).
    rewrite Hbytes, Hcode in *. clear Hd.
    destruct ((b0 =? 34) || (b0 =? 92)) eqn:E1.
    { apply orb_true_iff in E1 as [->%Z.eqb_eq| ->%Z.eqb_eq]; done. }
    apply orb_false_iff in E1 as [E1 E1'].
    destruct (b0 =? 8) eqn:E2; [apply Z.eqb_eq in E2 as ->; done|].
    destruct (b0 =? 12) eqn:E3; [apply Z.eqb_eq in E3 as ->; done|].
    destruct (b0 =? 10) eqn:E4; [apply Z.eqb_eq in E4 as ->; done|].
    destruct (b0 =? 13) eqn:E5; [apply Z.eqb_eq in E5 as ->; done|].
    destruct (b0 =? 9) eqn:E6; [apply Z.eqb_eq in E6 as ->; done|].
    destruct (_ || _) eqn:E7.
    + cbn -[getu4 unescape_u encode_rune hexchar]. unfold unescape_u.
      rewrite getu4_ascii by lia. cbn -[getu4 encode_rune].
      unfold is_surrogate, between, encode_rune.
      rewrite (proj2 (Z.leb_gt _ _)) by lia. cbn.
      by rewrite (proj2 (Z.ltb_lt _ _)) by lia.
    + reflect_bools. cbn -[decode_rune].
      rewrite !(proj2 (Z.eqb_neq _ _)), (proj2 (Z.ltb_ge _ _)) by lia.
      unfold decode_rune. by rewrite (proj2 (Z.ltb_lt _ _)) by lia.
  - destruct (decode_rune_stable _ _ _ _ k Hd Hv) as (b & l0 & Hbs & Hstable).
    assert (parse_str (S f) (r_bytes r ++ k) = ('(s, rest) ← parse_str f k; Some (r_bytes r ++ s, rest))) as Hplain.
    { rewrite Hbs. simpl app at 1. cbn -[decode_rune]. rewrite Hstable, Hv, Hbs.
      assert (128 ≤ b) as Hge.
      { destruct (Z.lt_ge_cases b 128) as [Hlt|]; [|done]. exfalso.
        unfold decode_rune in Hstable. rewrite (proj2 (Z.ltb_lt _ _) Hlt) in Hstable.
        simplify_eq/=. lia. }
      by rewrite !(proj2 (Z.eqb_neq _ _)), (proj2 (Z.ltb_ge _ _)) by lia. }
    destruct (_ || _) eqn:E8; [|exact Hplain].
    rewrite <- (encode_decode_rune _ _ _ _ Hd Hv Hb).
    apply orb_true_iff in E8 as [->%Z.eqb_eq| ->%Z.eqb_eq]; done.
Qed.

(** Well-formed UTF-8 bytes. *)
Definition utf8 (l : list Z) : Prop := Forall is_byte l ∧ forallb r_valid (decode l) = true.

(** What a reader makes of written bytes: bytes that are no UTF-8 come back as
    the replacement character. *)
Definition repair_rune (r : rune) : list Z := if r_valid r then r_bytes r else [239; 191; 189].
Definition repair (l : list Z) : list Z := concat (repair_rune <$> decode l).

Lemma repair_utf8 l : utf8 l → repair l = l.
Proof.
  intros [_ Hv]. rewrite <- (decode_bytes l) at 2. unfold repair. induction (decode l) as [|r rs IH]; [done|].
  apply andb_true_iff in Hv as [Hr Hv]. rewrite fmap_cons. cbn [concat runes_bytes].
  rewrite IH by done. unfold repair_rune. by rewrite Hr.
Qed.

Lemma parse_str_invalid f r k :
  r_valid r = false →
  parse_str (S f) (quoted_rune r ++ k) = ('(s, rest) ← parse_str f k; Some (repair_rune r ++ s, rest)).
Proof. intros Hv. unfold quoted_rune, repair_rune. by rewrite Hv. Qed.

Lemma parse_str_runes l rest fuel :
  Forall is_byte l → (length (decode l) < fuel)%nat →
  parse_str fuel (quoted_runes (decode l) ++ 34 :: rest) = Some (repair l, rest).
Proof.
  intros Hb. unfold repair. revert fuel.
  induction l as [|b0 l r l' E IH] using decode_ind; intros [|f] Hf; [simpl in Hf; lia..|done| |].
  { lia. }
  assert (Forall is_byte l') as Hb'.
  { rewrite (decode_rune_bytes _ _ _ _ E) in Hb. by apply Forall_app in Hb as [_ ?]. }
  inversion_clear Hb as [|?? Hb0 _]. rewrite decode_cons, E in *. simpl in Hf.
  rewrite fmap_cons. cbn [quoted_runes concat]. rewrite <- app_assoc. destruct (r_valid r) eqn:Hr.
  - rewrite (parse_str_rune _ _ _ _ _ _ E Hr) by (unfold is_byte in *; lia).
    rewrite IH by (auto; lia). unfold repair_rune at 2. by rewrite Hr.
  - rewrite parse_str_invalid by done. by rewrite IH by (auto; lia).
Qed.

Lemma quoted_rune_nonempty r : r_bytes r ≠ [] → quoted_rune r ≠ [].
Proof. intros. unfold quoted_rune. by repeat case_match. Qed.

Lemma length_quoted_runes l : (length (decode l) ≤ length (quoted_runes (decode l)))%nat.
Proof.
  induction l as [|b0 l r l' E IH] using decode_ind; [done|].
  rewrite decode_cons, E. simpl. rewrite length_app.
  pose proof (quoted_rune_nonempty r (decode_rune_nonempty _ _ _ _ E)).
  destruct (quoted_rune r); simpl; [done|lia].
Qed.

Lemma parse_str_quoted l rest :
  Forall is_byte l →
  parse_str (length (quoted_runes (decode l) ++ 34 :: rest)) (quoted_runes (decode l) ++ 34 :: rest)
  = Some (repair l, rest).
Proof.
  intros Hl. apply parse_str_runes; [done|]. rewrite length_app. simpl.
  pose proof (length_quoted_runes l). lia.
Qed.

Lemma quoted_app l rest : quoted l ++ rest = 34 :: quoted_runes (decode l) ++ 34 :: rest.
Proof. unfold quoted. simpl. by rewrite <- app_assoc. Qed.

(** Values that [encode] writes, and what a reader makes of them. *)
Inductive writable : json → Prop :=
  | writable_null : writable JNull
  | writable_bool b : writable (JBool b)
  | writable_num n : - 2 ^ 63 ≤ n < 2 ^ 63 → writable (JNum (bytes (FormatInt n)))
  | writable_str l : Forall is_byte l → writable (JStr l)
  | writable_arr vs : Forall writable vs → writable (JArr vs)
  | writable_obj fs : Forall (λ f, utf8 f.1 ∧ writable f.2) fs → writable (JObj fs).
Fixpoint repair_json (v : json) : json :=
  match v with
  | JStr l => JStr (repair l)
  | JArr vs => JArr (List.map repair_json vs)
  | JObj fs => JObj (List.map (λ f, (f.1, repair_json f.2)) fs)
  | _ => v
  end.

(** Values that it writes faithfully. *)
Inductive wf : json → Prop :=
  | wf_null : wf JNull
  | wf_bool b : wf (JBool b)
  | wf_num n : - 2 ^ 63 ≤ n < 2 ^ 63 → wf (JNum (bytes (FormatInt n)))
  | wf_str l : utf8 l → wf (JStr l)
  | wf_arr vs : Forall wf vs → wf (JArr vs)
  | wf_obj fs : Forall (λ f, utf8 f.1 ∧ wf f.2) fs → wf (JObj fs).

(** The fuel a value needs, and its nesting. *)
Fixpoint size (v : json) : nat :=
  match v with
  | JArr vs => S (sum_list_with (λ v, S (size v)) vs)
  | JObj fs => S (sum_list_with (λ f, S (size f.2)) fs)
  | _ => 1
  end.
Fixpoint nesting (v : json) : nat :=
  match v with
  | JArr vs => S (max_list_with nesting vs)
  | JObj fs => S (max_list_with (λ f, nesting f.2) fs)
  | _ => 0
  end.

Definition member (f : list Z * json) : list Z := quoted f.1 ++ 58 :: encode f.2.

Lemma eat_hit c l : is_json_space c = false → eat c (c :: l) = Some l.
Proof. intros H. unfold eat. simpl. by rewrite H, Z.eqb_refl. Qed.
Lemma eat_miss b c l : is_json_space b = false → b ≠ c → eat c (b :: l) = None.
Proof. intros H Hn. unfold eat. simpl. by rewrite H, (proj2 (Z.eqb_neq _ _) Hn). Qed.

(** The first byte of a value. *)
Definition value_head (b : Z) : Prop :=
  b = 34 ∨ b = 45 ∨ 48 ≤ b ≤ 57 ∨ b = 91 ∨ b = 102 ∨ b = 110 ∨ b = 116 ∨ b = 123.

Lemma FormatInt_head n :
  - 2 ^ 63 ≤ n < 2 ^ 63 → ∃ b l, bytes (FormatInt n) = b :: l ∧ (b = 45 ∨ 48 ≤ b ≤ 57).
Proof.
  intros Hn. unfold FormatInt. destruct (n <? 0) eqn:E; reflect_bools; [by eauto|].
  destruct (decide (n = 0)) as [->|Hne]; [by eexists _, _; split; [done|]; right|].
  destruct (format_digits_lead 20 n "") as (d & ds & -> & Hd & _); [|eexists _, _; split; [done|lia]].
  split; [lia|]. apply Z.lt_le_trans with (2 ^ 64); [lia|by vm_compute].
Qed.

Lemma encode_head v : writable v → ∃ b l, encode v = b :: l ∧ value_head b.
Proof.
  unfold value_head. destruct 1 as [|[]|n Hn|l Hl|vs _|fs _]; cbn [encode].
  4: { destruct (FormatInt_head n Hn) as (b & l & -> & ?). eexists _, _. split; [done|]. lia. }
  1: by exists 110, (bytes "ull"); auto 10.
  1: by exists 116, (bytes "rue"); auto 10.
  1: by exists 102, (bytes "alse"); auto 10.
  all: eexists _, _; split; [reflexivity|lia].
Qed.

Lemma value_head_space b : value_head b → is_json_space b = false.
Proof. unfold value_head, is_json_space. rewrite !orb_false_iff, !Z.eqb_neq. lia. Qed.

Lemma sep_by_cons p q ps : sep_by (p :: q :: ps) = p ++ 44 :: sep_by (q :: ps).
Proof. done. Qed.

Section parse_encode.
Variable fuel : nat.
Hypothesis IHv : ∀ f v dep rest, (f < fuel)%nat → writable v → (size v ≤ f)%nat → (nesting v ≤ dep)%nat →
  delim rest → parse_value f dep (encode v ++ rest) = Some (repair_json v, rest).

Lemma parse_members_encode f fs dep rest :
  (f ≤ fuel)%nat → fs ≠ [] → Forall (λ f, utf8 f.1 ∧ writable f.2) fs →
  (sum_list_with (λ f, S (size f.2)) fs ≤ f)%nat → (max_list_with (λ f, nesting f.2) fs ≤ dep)%nat →
  parse_members f dep (sep_by (List.map member fs) ++ 125 :: rest) = Some (List.map (λ f, (f.1, repair_json f.2)) fs, rest).
Proof using IHv.
  intros Hf Hne Hwf. revert f Hf.
  induction Hwf as [|[k v] fs [Hk Hv] Hfs IH]; intros [|f] Hf Hs Hd; [done..|simpl in Hs; lia|].
  cbn [fst snd sum_list_with max_list_with] in *.
  destruct fs as [|g fs].
  - cbn [List.map sep_by]. unfold member. cbn [fst snd].
    rewrite <- !app_assoc, quoted_app. cbn [parse_members app].
    rewrite eat_hit by done. cbn [mbind option_bind].
    rewrite parse_str_quoted, repair_utf8 by apply Hk || done. cbn [mbind option_bind].
    rewrite eat_hit by done. cbn [mbind option_bind].
    rewrite IHv by (auto; simpl; lia). cbn [mbind option_bind].
    by rewrite eat_miss, eat_hit.
  - cbn [List.map]. rewrite sep_by_cons. unfold member at 1. cbn [fst snd].
    rewrite <- !app_assoc, quoted_app. cbn [parse_members app].
    rewrite eat_hit by done. cbn [mbind option_bind].
    rewrite <- ?app_assoc. cbn [app].
    rewrite parse_str_quoted, repair_utf8 by apply Hk || done. cbn [mbind option_bind].
    rewrite eat_hit by done. cbn [mbind option_bind].
    rewrite IHv by (auto; simpl; lia). cbn [mbind option_bind].
    rewrite eat_hit by done.
    change (member g :: List.map member fs) with (List.map member (g :: fs)).
    rewrite IH by (auto; lia). done.
Qed.

Lemma parse_elements_encode f vs dep rest :
  (f ≤ fuel)%nat → vs ≠ [] → Forall writable vs →
  (sum_list_with (λ v, S (size v)) vs ≤ f)%nat → (max_list_with nesting vs ≤ dep)%nat →
  parse_elements f dep (sep_by (List.map encode vs) ++ 93 :: rest) = Some (List.map repair_json vs, rest).
Proof using IHv.
  intros Hf Hne Hwf. revert f Hf.
  induction Hwf as [|v vs Hv Hvs IH]; intros [|f] Hf Hs Hd; [done..|simpl in Hs; lia|].
  cbn [sum_list_with max_list_with] in *.
  destruct vs as [|w vs].
  - cbn [List.map sep_by parse_elements].
    rewrite IHv by (auto; simpl; lia). cbn [mbind option_bind].
    by rewrite eat_miss, eat_hit.
  - cbn [List.map]. rewrite sep_by_cons, <- !app_assoc. cbn [parse_elements app].
    rewrite IHv by (auto; simpl; lia). cbn [mbind option_bind].
    rewrite eat_hit by done.
    change (encode w :: List.map encode vs) with (List.map encode (w :: vs)).
    rewrite IH by (auto; lia). done.
Qed.
End parse_encode.

Lemma parse_value_written f v dep rest :
  writable v → (size v ≤ f)%nat → (nesting v ≤ dep)%nat → delim rest →
  parse_value f dep (encode v ++ rest) = Some (repair_json v, rest).
Proof.
  revert v dep rest. induction f as [f IHf] using lt_wf_ind. intros v dep rest Hwf Hs Hd Hr.
  destruct f as [|f]; [destruct v; simpl in Hs; lia|].
  destruct Hwf as [|b|n Hn|l Hl|vs Hvs|fs Hfs].
  - done.
  - by destruct b.
  - cbn [encode]. pose proof (parse_number_format n rest Hn Hr) as Hp.
    destruct (FormatInt_head n Hn) as (b & l & E & Hb). rewrite E in *. cbn [app] in *.
    cbn [parse_value skip_space]. rewrite value_head_space by (unfold value_head; lia).
    rewrite !(proj2 (Z.eqb_neq _ _)) by lia. by rewrite Hp.
  - cbn [encode]. rewrite quoted_app. cbn [parse_value skip_space is_json_space orb Z.eqb Pos.eqb]. by rewrite parse_str_quoted.
  - cbn [encode]. destruct dep as [|dep]; [simpl in Hd; lia|]. cbn [size nesting] in *.
    destruct vs as [|v vs]; [done|]. cbn [app]. rewrite <- app_assoc. cbn [parse_value skip_space app is_json_space orb Z.eqb Pos.eqb].
    pose proof (encode_head v ltac:(by inversion Hvs)) as (b & l & E & Hb).
    assert (∃ l', sep_by (List.map encode (v :: vs)) ++ 93 :: rest = b :: l') as [l' El].
    { destruct vs; cbn [List.map]; rewrite ?sep_by_cons; cbn [sep_by]; rewrite E; eauto. }
    rewrite El, eat_miss by (try apply value_head_space; auto; unfold value_head in Hb; lia).
    rewrite <- El, (parse_elements_encode f); auto; try lia.
  - cbn [encode]. destruct dep as [|dep]; [simpl in Hd; lia|]. cbn [size nesting] in *.
    destruct fs as [|g fs]; [done|]. cbn [app]. rewrite <- app_assoc. cbn [parse_value skip_space app is_json_space orb Z.eqb Pos.eqb].
    assert (∃ l', sep_by (List.map member (g :: fs)) ++ 125 :: rest = 34 :: l') as [l' El].
    { destruct fs; cbn [List.map]; rewrite ?sep_by_cons; cbn [sep_by]; unfold member, quoted; simpl; eauto. }
    change (λ f0 : list Z * json, quoted f0.1 ++ 58 :: encode f0.2) with member.
    rewrite El, eat_miss by done.
    rewrite <- El, (parse_members_encode f); auto; try lia.
Qed.

Lemma length_sep_by ps : (sum_list_with length ps ≤ length (sep_by ps))%nat.
Proof.
  induction ps as [|p [|q ps] IH]; [done|simpl; lia|].
  rewrite sep_by_cons, length_app. cbn [sum_list_with length] in *. lia.
Qed.

Lemma sum_parts {A} (parts : list A) (need : A → nat) (text : A → list Z) :
  Forall (λ a, (need a ≤ 2 * length (text a))%nat) parts →
  (sum_list_with need parts ≤ 2 * length (sep_by (List.map text parts)))%nat.
Proof.
  intros H. pose proof (length_sep_by (List.map text parts)) as Hs.
  enough (sum_list_with need parts ≤ 2 * sum_list_with length (List.map text parts))%nat by lia.
  clear Hs. induction H; simpl; lia.
Qed.

(** Induction on well-formed values. *)
Lemma writable_nested_ind (P : json → Prop) :
  P JNull → (∀ b, P (JBool b)) →
  (∀ n, - 2 ^ 63 ≤ n < 2 ^ 63 → P (JNum (bytes (FormatInt n)))) →
  (∀ l, Forall is_byte l → P (JStr l)) →
  (∀ vs, Forall writable vs → Forall P vs → P (JArr vs)) →
  (∀ fs, Forall (λ f, utf8 f.1 ∧ writable f.2) fs → Forall (λ f, P f.2) fs → P (JObj fs)) →
  ∀ v, writable v → P v.
Proof.
  intros ?? ?? Harr Hobj v. remember (size v) as n eqn:Hn. revert v Hn.
  induction n as [n IH] using lt_wf_ind. intros v -> Hwf.
  destruct Hwf as [| | | |vs Hvs|fs Hfs]; auto; cbn [size] in IH.
  - apply Harr; [done|]. rewrite Forall_forall in Hvs |- *. intros v Hv.
    apply (IH (size v)); auto.
    pose proof (sum_list_with_in v (λ v, S (size v)) vs Hv). simpl in *. lia.
  - apply Hobj; [done|]. rewrite Forall_forall in Hfs |- *. intros f Hf.
    apply (IH (size f.2)); auto; [|naive_solver].
    pose proof (sum_list_with_in f (λ f, S (size f.2)) fs Hf). simpl in *. lia.
Qed.

(** The text of a value bounds the fuel its parser needs. *)
Lemma size_encode v : writable v → (size v < 2 * length (encode v))%nat.
Proof.
  induction 1 as [|[]|n Hn|l Hl|vs _ IH|fs _ IH] using writable_nested_ind; cbn [encode size];
    try (simpl; lia).
  - destruct (FormatInt_head n Hn) as (b & l & -> & _). simpl. lia.
  - apply (sum_parts vs (λ v, S (size v)) encode) in IH. cbn [length]. rewrite length_app. cbn [length]. lia.
  - assert (Forall (λ f, S (size f.2) ≤ 2 * length (member f))%nat fs) as IH'.
    { eapply Forall_impl; [exact IH|]. intros f Hf. unfold member. rewrite length_app. simpl in *. lia. }
    apply (sum_parts fs (λ f, S (size f.2)) member) in IH'.
    change (λ f0 : list Z * json, quoted f0.1 ++ 58 :: encode f0.2) with member.
    cbn [length]. rewrite length_app. cbn [length]. lia.
Qed.

(** The encoding is a sequence of bytes. *)
Lemma hexchar_byte d : 0 ≤ d < 16 → is_byte (hexchar d).
Proof. intros. by apply is_hex_lower_byte, hexchar_lower. Qed.

Lemma quoted_rune_byte b0 l r rest :
  decode_rune b0 l = (r, rest) → is_byte b0 → Forall is_byte (r_bytes r) → Forall is_byte (quoted_rune r).
Proof.
  intros E Hb0 Hb. unfold quoted_rune, is_byte in *.
  destruct (r_valid r) eqn:Hv; cbn [negb]; [|by repeat constructor].
  destruct (r_code r <? 128) eqn:Hc; reflect_bools.
  - destruct (decode_valid_ascii _ _ _ _ E Hv Hc) as (-> & _ & _); [lia|].
    assert (0 ≤ b0 / 16 < 16 ∧ 0 ≤ b0 mod 16 < 16) as [H1%hexchar_byte H2%hexchar_byte] by by apply nibbles.
    unfold is_byte in *.
    repeat case_match; repeat (apply Forall_cons_2; [lia|]); apply Forall_nil_2.
  - case_match; [|done].
    assert (0 ≤ r_code r mod 16 < 16) as H2%hexchar_byte by (apply Z.mod_pos_bound; lia).
    unfold is_byte in *. repeat (apply Forall_cons_2; [lia|]); apply Forall_nil_2.
Qed.

Lemma quoted_byte l : Forall is_byte l → Forall is_byte (quoted l).
Proof.
  intros Hl. unfold quoted. apply Forall_cons_2; [unfold is_byte; lia|]. apply Forall_app.
  split; [|apply Forall_singleton; unfold is_byte; lia].
  revert Hl. induction l as [|b0 l r rest E IH] using decode_ind; intros Hl; [constructor|].
  rewrite decode_cons, E. cbn [quoted_runes]. inversion Hl as [|?? Hb0 _]; subst.
  rewrite (decode_rune_bytes _ _ _ _ E) in Hl. apply Forall_app in Hl as [Hr Hrest].
  apply Forall_app; split; [|by apply IH]. by eapply quoted_rune_byte.
Qed.

Lemma sep_by_byte ps : Forall (Forall is_byte) ps → Forall is_byte (sep_by ps).
Proof.
  induction 1 as [|p ps Hp Hps IH]; [constructor|]. destruct ps as [|q ps]; [done|].
  rewrite sep_by_cons. apply Forall_app. split; [done|]. constructor; [unfold is_byte; lia|done].
Qed.

Lemma encode_byte v : writable v → Forall is_byte (encode v).
Proof.
  induction 1 as [|[]|n Hn|l Hl|vs _ IH|fs Hfs IH] using writable_nested_ind; cbn [encode];
    try apply bytes_range; try by apply quoted_byte.
  all: apply Forall_cons_2; [unfold is_byte; lia|]; apply Forall_app;
    split; [apply sep_by_byte|apply Forall_singleton; unfold is_byte; lia].
  - by apply Forall_map.
  - apply Forall_map. rewrite Forall_forall in *. intros f Hf.
    destruct (Hfs f Hf) as [[? _] _]. apply Forall_app. split; [by apply quoted_byte|].
    apply Forall_cons_2; [unfold is_byte; lia|]. by apply IH.
Qed.

Lemma parse_written v rest :
  writable v → (nesting v ≤ maxNestingDepth)%nat → delim rest → skip_space rest = [] →
  parse (encode v ++ rest) = Some (repair_json v).
Proof.
  intros Hwf Hn Hd Hs. unfold parse. pose proof (size_encode v Hwf).
  rewrite parse_value_written by (rewrite ?length_app; auto; lia). by rewrite bool_decide_eq_true_2.
Qed.

Lemma wf_writable v : wf v → writable v ∧ repair_json v = v.
Proof.
  remember (size v) as n eqn:Hn. revert v Hn. induction n as [n IH] using lt_wf_ind. intros v -> Hwf.
  destruct Hwf as [| | |l Hl|vs Hvs|fs Hfs]; cbn [size repair_json] in *.
  1-3: by split; [constructor|].
  - destruct Hl as [Hb Hl]. split; [by constructor|]. by rewrite repair_utf8.
  - assert (∀ v, v ∈ vs → writable v ∧ repair_json v = v) as H.
    { rewrite Forall_forall in Hvs. intros v Hv. apply (IH (size v)); auto.
      pose proof (sum_list_with_in v (λ v, S (size v)) vs Hv). simpl in *. lia. }
    split; [constructor; apply Forall_forall; intros v Hv; by apply H|]. f_equal.
    rewrite <- (List.map_id vs) at 2. apply List.map_ext_in. intros v Hv%list_elem_of_In. by apply H.
  - assert (∀ f, f ∈ fs → writable f.2 ∧ repair_json f.2 = f.2) as H.
    { rewrite Forall_forall in Hfs. intros f Hf. apply (IH (size f.2)); [|done|by apply Hfs].
      pose proof (sum_list_with_in f (λ f, S (size f.2)) fs Hf). simpl in *. lia. }
    rewrite Forall_forall in Hfs.
    split; [constructor; apply Forall_forall; intros f Hf; split; [by apply Hfs|by apply H]|]. f_equal.
    rewrite <- (List.map_id fs) at 2.
    apply List.map_ext_in. intros [k v] Hf%list_elem_of_In. destruct (H _ Hf) as [_ E]. simpl in *. by rewrite E.
Qed.

Lemma parse_encode v : wf v → (nesting v ≤ maxNestingDepth)%nat → parse (encode v) = Some v.
Proof.
  intros [Hw Hr]%wf_writable Hn. rewrite <- (app_nil_r (encode v)). by rewrite parse_written, Hr.
Qed.
