(* ===== verification/Snapshot.v ===== *)
(** JSON snapshots of resources: what [json.Marshal] and [json.Unmarshal] do
    with the structs of [internal/model], as the idempotency records store them.

    [Snapshot] is the interface the services rely on; its instances are the
    codecs of [model.VPC], [model.Subnet] and [model.Instance]. *)

From S2P Require Import Prelude Errors GoStrings Utf8 NetIP Model Json.
Local Open Scope Z_scope.

(** What a replayed create needs from the codec of its result type. *)
Class Snapshot (T : Type) := {
  Marshal : T → result string;
  Unmarshal : string → result T;
  faithful : T → Prop;
  Unmarshal_Marshal x s : faithful x → Marshal x = Ok s → Unmarshal s = Ok x;
  Marshal_total x : is_Ok (Marshal x) = true
}.

(** ** Field types *)
Definition enc_string (s : string) : json := JStr (bytes s).
Definition enc_int64 (n : Z) : json := JNum (bytes (FormatInt n)).

(** [netip.Prefix] and [netip.Addr] are text: the zero value is empty. *)
Definition zeroPrefix : Prefix := MkPrefix AddrZero (-1).
Definition enc_prefix (p : Prefix) : json :=
  enc_string (if bool_decide (p = zeroPrefix) then "" else Prefix_String p).
Definition enc_addr (a : Addr) : json :=
  enc_string (if bool_decide (a = AddrZero) then "" else Addr_String a).
Definition dec_prefix (v : json) (x : Prefix) : result Prefix :=
  match v with
  | JNull => Ok x
  | JStr [] => Ok zeroPrefix
  | JStr l => of_option typeError (ParsePrefix (of_bytes l))
  | _ => Err typeError
  end.
Definition dec_addr (v : json) (x : Addr) : result Addr :=
  match v with
  | JNull => Ok x
  | JStr [] => Ok AddrZero
  | JStr l => of_option typeError (ParseAddr (of_bytes l))
  | _ => Err typeError
  end.

(** ** Structs *)
(** [model.VPC] *)
Definition enc_VPC (x : VPC) : json :=
  JObj [(bytes "ID", enc_string (VPC_ID x));
        (bytes "WorkspaceID", enc_string (VPC_WorkspaceID x));
        (bytes "Name", enc_string (VPC_Name x));
        (bytes "CIDRBlock", enc_prefix (VPC_CIDRBlock x));
        (bytes "ShortIndex", enc_int64 (VPC_ShortIndex x));
        (bytes "State", enc_string (VPC_State x));
        (bytes "StateReason", enc_string (VPC_StateReason x));
        (bytes "DeletionRequested", JBool (VPC_DeletionRequested x));
        (bytes "Generation", enc_int64 (VPC_Generation x));
        (bytes "ObservedGeneration", enc_int64 (VPC_ObservedGeneration x))].
Definition zero_VPC : VPC := MkVPC "" "" "" zeroPrefix 0 "" "" false 0 0.
Definition field_VPC (key : list Z) : option (json → VPC → result VPC) :=
  if is_field "ID" key then
    Some (λ w '(MkVPC a b c d e f g h i j), a' ← dec_string w a; Ok (MkVPC a' b c d e f g h i j))
  else if is_field "WorkspaceID" key then
    Some (λ w '(MkVPC a b c d e f g h i j), b' ← dec_string w b; Ok (MkVPC a b' c d e f g h i j))
  else if is_field "Name" key then
    Some (λ w '(MkVPC a b c d e f g h i j), c' ← dec_string w c; Ok (MkVPC a b c' d e f g h i j))
  else if is_field "CIDRBlock" key then
    Some (λ w '(MkVPC a b c d e f g h i j), d' ← dec_prefix w d; Ok (MkVPC a b c d' e f g h i j))
  else if is_field "ShortIndex" key then
    Some (λ w '(MkVPC a b c d e f g h i j), e' ← dec_int64 w e; Ok (MkVPC a b c d e' f g h i j))
  else if is_field "State" key then
    Some (λ w '(MkVPC a b c d e f g h i j), f' ← dec_string w f; Ok (MkVPC a b c d e f' g h i j))
  else if is_field "StateReason" key then
    Some (λ w '(MkVPC a b c d e f g h i j), g' ← dec_string w g; Ok (MkVPC a b c d e f g' h i j))
  else if is_field "DeletionRequested" key then
    Some (λ w '(MkVPC a b c d e f g h i j), h' ← dec_bool w h; Ok (MkVPC a b c d e f g h' i j))
  else if is_field "Generation" key then
    Some (λ w '(MkVPC a b c d e f g h i j), i' ← dec_int64 w i; Ok (MkVPC a b c d e f g h i' j))
  else if is_field "ObservedGeneration" key then
    Some (λ w '(MkVPC a b c d e f g h i j), j' ← dec_int64 w j; Ok (MkVPC a b c d e f g h i j'))
  else None.
Definition dec_VPC : json → VPC → result VPC := dec_struct field_VPC.

(** [model.Subnet] *)
Definition enc_Subnet (x : Subnet) : json :=
  JObj [(bytes "ID", enc_string (Subnet_ID x));
        (bytes "WorkspaceID", enc_string (Subnet_WorkspaceID x));
        (bytes "VPCID", enc_string (Subnet_VPCID x));
        (bytes "Name", enc_string (Subnet_Name x));
        (bytes "CIDRBlock", enc_prefix (Subnet_CIDRBlock x));
        (bytes "AvailabilityZone", enc_string (Subnet_AvailabilityZone x));
        (bytes "ShortIndex", enc_int64 (Subnet_ShortIndex x));
        (bytes "State", enc_string (Subnet_State x));
        (bytes "StateReason", enc_string (Subnet_StateReason x));
        (bytes "DeletionRequested", JBool (Subnet_DeletionRequested x));
        (bytes "Generation", enc_int64 (Subnet_Generation x));
        (bytes "ObservedGeneration", enc_int64 (Subnet_ObservedGeneration x))].
Definition zero_Subnet : Subnet := MkSubnet "" "" "" "" zeroPrefix "" 0 "" "" false 0 0.
Definition field_Subnet (key : list Z) : option (json → Subnet → result Subnet) :=
  if is_field "ID" key then
    Some (λ w '(MkSubnet a b c d e f g h i j k l), a' ← dec_string w a; Ok (MkSubnet a' b c d e f g h i j k l))
  else if is_field "WorkspaceID" key then
    Some (λ w '(MkSubnet a b c d e f g h i j k l), b' ← dec_string w b; Ok (MkSubnet a b' c d e f g h i j k l))
  else if is_field "VPCID" key then
    Some (λ w '(MkSubnet a b c d e f g h i j k l), c' ← dec_string w c; Ok (MkSubnet a b c' d e f g h i j k l))
  else if is_field "Name" key then
    Some (λ w '(MkSubnet a b c d e f g h i j k l), d' ← dec_string w d; Ok (MkSubnet a b c d' e f g h i j k l))
  else if is_field "CIDRBlock" key then
    Some (λ w '(MkSubnet a b c d e f g h i j k l), e' ← dec_prefix w e; Ok (MkSubnet a b c d e' f g h i j k l))
  else if is_field "AvailabilityZone" key then
    Some (λ w '(MkSubnet a b c d e f g h i j k l), f' ← dec_string w f; Ok (MkSubnet a b c d e f' g h i j k l))
  else if is_field "ShortIndex" key then
    Some (λ w '(MkSubnet a b c d e f g h i j k l), g' ← dec_int64 w g; Ok (MkSubnet a b c d e f g' h i j k l))
  else if is_field "State" key then
    Some (λ w '(MkSubnet a b c d e f g h i j k l), h' ← dec_string w h; Ok (MkSubnet a b c d e f g h' i j k l))
  else if is_field "StateReason" key then
    Some (λ w '(MkSubnet a b c d e f g h i j k l), i' ← dec_string w i; Ok (MkSubnet a b c d e f g h i' j k l))
  else if is_field "DeletionRequested" key then
    Some (λ w '(MkSubnet a b c d e f g h i j k l), j' ← dec_bool w j; Ok (MkSubnet a b c d e f g h i j' k l))
  else if is_field "Generation" key then
    Some (λ w '(MkSubnet a b c d e f g h i j k l), k' ← dec_int64 w k; Ok (MkSubnet a b c d e f g h i j k' l))
  else if is_field "ObservedGeneration" key then
    Some (λ w '(MkSubnet a b c d e f g h i j k l), l' ← dec_int64 w l; Ok (MkSubnet a b c d e f g h i j k l'))
  else None.
Definition dec_Subnet : json → Subnet → result Subnet := dec_struct field_Subnet.

(** [model.ENI] *)
Definition enc_ENI (x : ENI) : json :=
  JObj [(bytes "ID", enc_string (ENI_ID x));
        (bytes "WorkspaceID", enc_string (ENI_WorkspaceID x));
        (bytes "InstanceID", enc_string (ENI_InstanceID x));
        (bytes "SubnetID", enc_string (ENI_SubnetID x));
        (bytes "ShortIndex", enc_int64 (ENI_ShortIndex x));
        (bytes "PrivateIP", enc_addr (ENI_PrivateIP x));
        (bytes "MACAddress", enc_string (ENI_MACAddress x));
        (bytes "Generation", enc_int64 (ENI_Generation x));
        (bytes "ObservedGeneration", enc_int64 (ENI_ObservedGeneration x));
        (bytes "State", enc_string (ENI_State x));
        (bytes "StateReason", enc_string (ENI_StateReason x))].
Definition zero_ENI : ENI := MkENI "" "" "" "" 0 AddrZero "" 0 0 "" "".
Definition field_ENI (key : list Z) : option (json → ENI → result ENI) :=
  if is_field "ID" key then
    Some (λ w '(MkENI a b c d e f g h i j k), a' ← dec_string w a; Ok (MkENI a' b c d e f g h i j k))
  else if is_field "WorkspaceID" key then
    Some (λ w '(MkENI a b c d e f g h i j k), b' ← dec_string w b; Ok (MkENI a b' c d e f g h i j k))
  else if is_field "InstanceID" key then
    Some (λ w '(MkENI a b c d e f g h i j k), c' ← dec_string w c; Ok (MkENI a b c' d e f g h i j k))
  else if is_field "SubnetID" key then
    Some (λ w '(MkENI a b c d e f g h i j k), d' ← dec_string w d; Ok (MkENI a b c d' e f g h i j k))
  else if is_field "ShortIndex" key then
    Some (λ w '(MkENI a b c d e f g h i j k), e' ← dec_int64 w e; Ok (MkENI a b c d e' f g h i j k))
  else if is_field "PrivateIP" key then
    Some (λ w '(MkENI a b c d e f g h i j k), f' ← dec_addr w f; Ok (MkENI a b c d e f' g h i j k))
  else if is_field "MACAddress" key then
    Some (λ w '(MkENI a b c d e f g h i j k), g' ← dec_string w g; Ok (MkENI a b c d e f g' h i j k))
  else if is_field "Generation" key then
    Some (λ w '(MkENI a b c d e f g h i j k), h' ← dec_int64 w h; Ok (MkENI a b c d e f g h' i j k))
  else if is_field "ObservedGeneration" key then
    Some (λ w '(MkENI a b c d e f g h i j k), i' ← dec_int64 w i; Ok (MkENI a b c d e f g h i' j k))
  else if is_field "State" key then
    Some (λ w '(MkENI a b c d e f g h i j k), j' ← dec_string w j; Ok (MkENI a b c d e f g h i j' k))
  else if is_field "StateReason" key then
    Some (λ w '(MkENI a b c d e f g h i j k), k' ← dec_string w k; Ok (MkENI a b c d e f g h i j k'))
  else None.
Definition dec_ENI : json → ENI → result ENI := dec_struct field_ENI.

(** [model.Instance] *)
Definition enc_Instance (x : Instance_) : json :=
  JObj [(bytes "ID", enc_string (Instance_ID x));
        (bytes "WorkspaceID", enc_string (Instance_WorkspaceID x));
        (bytes "SubnetID", enc_string (Instance_SubnetID x));
        (bytes "ShortIndex", enc_int64 (Instance_ShortIndex x));
        (bytes "Name", enc_string (Instance_Name x));
        (bytes "InstanceType", enc_string (Instance_InstanceType x));
        (bytes "State", enc_string (Instance_State x));
        (bytes "StateReason", enc_string (Instance_StateReason x));
        (bytes "Generation", enc_int64 (Instance_Generation x));
        (bytes "ObservedGeneration", enc_int64 (Instance_ObservedGeneration x));
        (bytes "DeletionRequested", JBool (Instance_DeletionRequested x));
        (bytes "RuntimeID", enc_string (Instance_RuntimeID x));
        (bytes "ENI", enc_ENI (Instance_ENI x))].
Definition zero_Instance : Instance_ := MkInstance "" "" "" 0 "" "" "" "" 0 0 false "" zero_ENI.
Definition field_Instance (key : list Z) : option (json → Instance_ → result Instance_) :=
  if is_field "ID" key then
    Some (λ w '(MkInstance a b c d e f g h i j k l m), a' ← dec_string w a; Ok (MkInstance a' b c d e f g h i j k l m))
  else if is_field "WorkspaceID" key then
    Some (λ w '(MkInstance a b c d e f g h i j k l m), b' ← dec_string w b; Ok (MkInstance a b' c d e f g h i j k l m))
  else if is_field "SubnetID" key then
    Some (λ w '(MkInstance a b c d e f g h i j k l m), c' ← dec_string w c; Ok (MkInstance a b c' d e f g h i j k l m))
  else if is_field "ShortIndex" key then
    Some (λ w '(MkInstance a b c d e f g h i j k l m), d' ← dec_int64 w d; Ok (MkInstance a b c d' e f g h i j k l m))
  else if is_field "Name" key then
    Some (λ w '(MkInstance a b c d e f g h i j k l m), e' ← dec_string w e; Ok (MkInstance a b c d e' f g h i j k l m))
  else if is_field "InstanceType" key then
    Some (λ w '(MkInstance a b c d e f g h i j k l m), f' ← dec_string w f; Ok (MkInstance a b c d e f' g h i j k l m))
  else if is_field "State" key then
    Some (λ w '(MkInstance a b c d e f g h i j k l m), g' ← dec_string w g; Ok (MkInstance a b c d e f g' h i j k l m))
  else if is_field "StateReason" key then
    Some (λ w '(MkInstance a b c d e f g h i j k l m), h' ← dec_string w h; Ok (MkInstance a b c d e f g h' i j k l m))
  else if is_field "Generation" key then
    Some (λ w '(MkInstance a b c d e f g h i j k l m), i' ← dec_int64 w i; Ok (MkInstance a b c d e f g h i' j k l m))
  else if is_field "ObservedGeneration" key then
    Some (λ w '(MkInstance a b c d e f g h i j k l m), j' ← dec_int64 w j; Ok (MkInstance a b c d e f g h i j' k l m))
  else if is_field "DeletionRequested" key then
    Some (λ w '(MkInstance a b c d e f g h i j k l m), k' ← dec_bool w k; Ok (MkInstance a b c d e f g h i j k' l m))
  else if is_field "RuntimeID" key then
    Some (λ w '(MkInstance a b c d e f g h i j k l m), l' ← dec_string w l; Ok (MkInstance a b c d e f g h i j k l' m))
  else if is_field "ENI" key then
    Some (λ w '(MkInstance a b c d e f g h i j k l m), m' ← dec_ENI w m; Ok (MkInstance a b c d e f g h i j k l m'))
  else None.
Definition dec_Instance : json → Instance_ → result Instance_ := dec_struct field_Instance.

(** ** Snapshots that survive the round trip *)
Definition int64 (n : Z) : Prop := - 2 ^ 63 ≤ n < 2 ^ 63.
Definition text8 (s : string) : Prop := ValidString s = true.
Definition addr4 (a : Addr) : Prop := ∃ v, a = Addr4 v ∧ 0 ≤ v < 2 ^ 32.

Lemma text8_utf8 s : text8 s → utf8 (bytes s).
Proof. intros H. split; [apply bytes_range|exact H]. Qed.

Lemma ascii_text8 s : Forall (λ b, b < 128) (bytes s) → text8 s.
Proof.
  unfold text8, ValidString. pose proof (bytes_range s) as Hb. revert Hb.
  induction (bytes s) as [|b l IH]; [done|]. intros Hb Hl.
  inversion_clear Hb. inversion_clear Hl as [|?? Hlt Hl'].
  rewrite decode_cons. unfold decode_rune. rewrite (proj2 (Z.ltb_lt _ _) Hlt). simpl. auto.
Qed.

Definition ascii7 (s : string) : Prop := Forall (λ b, b < 128) (bytes s).

Lemma ascii7_app s t : ascii7 s → ascii7 t → ascii7 (s +:+ t).
Proof. unfold ascii7. rewrite bytes_app. by intros; apply Forall_app. Qed.
Lemma ascii7_digits n : 0 ≤ n < 256 → ascii7 (FormatInt n).
Proof. intros. eapply Forall_impl; [by apply FormatInt_digits|]. simpl. lia. Qed.
Lemma ascii7_lit s : forallb (λ b, b <? 128) (bytes s) = true → ascii7 s.
Proof.
  intros H. apply Forall_forall. intros b Hb. apply list_elem_of_In in Hb.
  rewrite forallb_forall in H. specialize (H b Hb). simpl in H. lia.
Qed.

Lemma ascii7_Addr4 v : 0 ≤ v < 2 ^ 32 → ascii7 (Addr4_String v).
Proof.
  intros Hv. pose proof (quad_range v Hv) as Hq. unfold quad in Hq. rewrite !Forall_cons in Hq.
  destruct Hq as (? & ? & ? & ? & _). unfold Addr4_String.
  repeat (apply ascii7_app); by first [apply ascii7_digits|apply ascii7_lit].
Qed.

Lemma ascii7_Prefix p : valid4 p → ascii7 (Prefix_String p).
Proof.
  destruct p as [ip bits]. intros (v & Hip & Hv & Hb). simpl in *. subst ip.
  unfold Prefix_String, IsValid. simpl p_bits. rewrite (proj2 (Z.leb_le _ _)) by lia.
  apply ascii7_app; [by apply ascii7_Addr4|].
  apply ascii7_app; [by apply ascii7_lit|apply ascii7_digits; lia].
Qed.

Section field_round_trips.
Lemma dec_enc_string s x : dec_string (enc_string s) x = Ok s.
Proof. unfold dec_string, enc_string. by rewrite of_bytes_bytes. Qed.

Lemma dec_enc_int64 n x : int64 n → dec_int64 (enc_int64 n) x = Ok n.
Proof.
  intros Hn. unfold dec_int64, enc_int64. by rewrite of_bytes_bytes, ParseInt_FormatInt.
Qed.

Lemma dec_enc_prefix p x : valid4 p → dec_prefix (enc_prefix p) x = Ok p.
Proof.
  intros Hp. unfold enc_prefix. rewrite bool_decide_eq_false_2.
  - pose proof (ParsePrefix_String p Hp) as H. unfold dec_prefix, enc_string.
    destruct (bytes (Prefix_String p)) as [|b l] eqn:E.
    + apply (f_equal of_bytes) in E. rewrite of_bytes_bytes in E. by rewrite E in H.
    + by rewrite <- E, of_bytes_bytes, H.
  - intros ->. by destruct Hp as (v & ? & _).
Qed.

Lemma dec_enc_addr a x : addr4 a → dec_addr (enc_addr a) x = Ok a.
Proof.
  intros (v & -> & Hv). unfold enc_addr. rewrite bool_decide_eq_false_2 by done.
  pose proof (ParseAddr_Addr4_String v Hv) as H. unfold dec_addr, enc_string.
  change (Addr_String (Addr4 v)) with (Addr4_String v).
  destruct (bytes (Addr4_String v)) as [|b l] eqn:E.
  - apply (f_equal of_bytes) in E. rewrite of_bytes_bytes in E. by rewrite E in H.
  - by rewrite <- E, of_bytes_bytes, H.
Qed.

Lemma wf_enc_string s : text8 s → wf (enc_string s).
Proof. intros. by apply wf_str, text8_utf8. Qed.
Lemma wf_enc_int64 n : int64 n → wf (enc_int64 n).
Proof. apply wf_num. Qed.
Lemma wf_enc_prefix p : valid4 p → wf (enc_prefix p).
Proof.
  intros. apply wf_enc_string, ascii_text8. case_match; [apply Forall_nil_2|by apply ascii7_Prefix].
Qed.
Lemma wf_enc_addr a : addr4 a → wf (enc_addr a).
Proof. intros (v & -> & Hv). by apply wf_enc_string, ascii_text8, ascii7_Addr4. Qed.
End field_round_trips.
#[export] Hint Resolve wf_enc_string wf_enc_int64 wf_enc_prefix wf_enc_addr : nephos.
#[export] Hint Constructors wf : nephos.

(** Field names are ASCII. *)
Lemma utf8_name s : forallb (λ b, b <? 128) (bytes s) = true → utf8 (bytes s).
Proof. intros. by apply text8_utf8, ascii_text8, ascii7_lit. Qed.

(** Run a struct decoder on the object its encoder builds. *)
Ltac eval_fields field :=
  unfold dec_struct; cbn [fold_left fst snd];
  unfold field;
  repeat match goal with
  | |- context [is_field ?a ?b] =>
      let v := eval vm_compute in (is_field a b) in change (is_field a b) with v
  end;
  cbv iota beta.
Ltac wf_fields :=
  apply wf_obj; repeat (apply Forall_cons_2; [split; [by apply utf8_name|cbn [snd]; auto with nephos]|]);
  apply Forall_nil_2.

(** ** Faithful snapshots *)
Record faithful_VPC (x : VPC) : Prop := {
  fv_text : text8 (VPC_ID x) ∧ text8 (VPC_WorkspaceID x) ∧ text8 (VPC_Name x) ∧
            text8 (VPC_State x) ∧ text8 (VPC_StateReason x);
  fv_prefix : valid4 (VPC_CIDRBlock x);
  fv_int : int64 (VPC_ShortIndex x) ∧ int64 (VPC_Generation x) ∧ int64 (VPC_ObservedGeneration x)
}.
Record faithful_Subnet (x : Subnet) : Prop := {
  fs_text : text8 (Subnet_ID x) ∧ text8 (Subnet_WorkspaceID x) ∧ text8 (Subnet_VPCID x) ∧
            text8 (Subnet_Name x) ∧ text8 (Subnet_AvailabilityZone x) ∧
            text8 (Subnet_State x) ∧ text8 (Subnet_StateReason x);
  fs_prefix : valid4 (Subnet_CIDRBlock x);
  fs_int : int64 (Subnet_ShortIndex x) ∧ int64 (Subnet_Generation x) ∧
           int64 (Subnet_ObservedGeneration x)
}.
Record faithful_ENI (x : ENI) : Prop := {
  fe_text : text8 (ENI_ID x) ∧ text8 (ENI_WorkspaceID x) ∧ text8 (ENI_InstanceID x) ∧
            text8 (ENI_SubnetID x) ∧ text8 (ENI_MACAddress x) ∧ text8 (ENI_State x) ∧
            text8 (ENI_StateReason x);
  fe_addr : addr4 (ENI_PrivateIP x);
  fe_int : int64 (ENI_ShortIndex x) ∧ int64 (ENI_Generation x) ∧ int64 (ENI_ObservedGeneration x)
}.
Record faithful_Instance (x : Instance_) : Prop := {
  fi_text : text8 (Instance_ID x) ∧ text8 (Instance_WorkspaceID x) ∧ text8 (Instance_SubnetID x) ∧
            text8 (Instance_Name x) ∧ text8 (Instance_InstanceType x) ∧ text8 (Instance_State x) ∧
            text8 (Instance_StateReason x) ∧ text8 (Instance_RuntimeID x);
  fi_eni : faithful_ENI (Instance_ENI x);
  fi_int : int64 (Instance_ShortIndex x) ∧ int64 (Instance_Generation x) ∧
           int64 (Instance_ObservedGeneration x)
}.

Ltac decode_fields :=
  repeat first
    [ rewrite dec_enc_string | rewrite dec_enc_int64 by done | rewrite dec_enc_prefix by done
    | rewrite dec_enc_addr by done | progress cbn [mbind result_bind dec_bool] ].

Lemma dec_enc_VPC x : faithful_VPC x → wf (enc_VPC x) ∧ dec_VPC (enc_VPC x) zero_VPC = Ok x.
Proof.
  destruct x. intros [(?&?&?&?&?) ? (?&?&?)]. split; [wf_fields|].
  unfold dec_VPC, enc_VPC, zero_VPC. eval_fields field_VPC. by decode_fields.
Qed.

Lemma dec_enc_Subnet x :
  faithful_Subnet x → wf (enc_Subnet x) ∧ dec_Subnet (enc_Subnet x) zero_Subnet = Ok x.
Proof.
  destruct x. intros [(?&?&?&?&?&?&?) ? (?&?&?)]. split; [wf_fields|].
  unfold dec_Subnet, enc_Subnet, zero_Subnet. eval_fields field_Subnet. by decode_fields.
Qed.

Lemma dec_enc_ENI x : faithful_ENI x → wf (enc_ENI x) ∧ dec_ENI (enc_ENI x) zero_ENI = Ok x.
Proof.
  destruct x. intros [(?&?&?&?&?&?&?) ? (?&?&?)]. split; [wf_fields|].
  unfold dec_ENI, enc_ENI, zero_ENI. eval_fields field_ENI. by decode_fields.
Qed.

Lemma dec_enc_Instance x :
  faithful_Instance x → wf (enc_Instance x) ∧ dec_Instance (enc_Instance x) zero_Instance = Ok x.
Proof.
  destruct x. intros [(?&?&?&?&?&?&?&?) [Hw He]%dec_enc_ENI (?&?&?)]. split; [wf_fields|].
  unfold dec_Instance, enc_Instance, zero_Instance. eval_fields field_Instance.
  decode_fields. rewrite He. by decode_fields.
Qed.

(** ** The codecs *)
Definition marshal {T} (enc : T → json) (x : T) : result string := Ok (of_bytes (encode (enc x))).

Lemma unmarshal_marshal {T} (enc : T → json) dec zero x s :
  wf (enc x) → (nesting (enc x) ≤ 10)%nat → dec (enc x) zero = Ok x →
  marshal enc x = Ok s → unmarshal dec zero s = Ok x.
Proof.
  intros Hw Hn Hd [= <-]. unfold unmarshal.
  rewrite bytes_of_bytes by by apply encode_byte, wf_writable.
  rewrite parse_encode; [done|done|]. unfold maxNestingDepth. lia.
Qed.

#[export, program] Instance Snapshot_VPC : Snapshot VPC := {|
  Marshal := marshal enc_VPC; Unmarshal := unmarshal dec_VPC zero_VPC; faithful := faithful_VPC |}.
Next Obligation.
  intros x s [Hw Hd]%dec_enc_VPC. apply unmarshal_marshal; auto. cbn -[Nat.le]. lia.
Qed.
Next Obligation. done. Qed.

#[export, program] Instance Snapshot_Subnet : Snapshot Subnet := {|
  Marshal := marshal enc_Subnet; Unmarshal := unmarshal dec_Subnet zero_Subnet;
  faithful := faithful_Subnet |}.
Next Obligation.
  intros x s [Hw Hd]%dec_enc_Subnet. apply unmarshal_marshal; auto. cbn -[Nat.le]. lia.
Qed.
Next Obligation. done. Qed.

#[export, program] Instance Snapshot_Instance : Snapshot Instance_ := {|
  Marshal := marshal enc_Instance; Unmarshal := unmarshal dec_Instance zero_Instance;
  faithful := faithful_Instance |}.
Next Obligation.
  intros x s [Hw Hd]%dec_enc_Instance. apply unmarshal_marshal; auto. cbn -[Nat.le]. lia.
Qed.
Next Obligation. done. Qed.
