(* ===== verification/Tx.v ===== *)
(** Transactions: [Store.WithTx] of [internal/store/resources.go] and the state
    and error threading of the functions that run inside one.

    The store opens a single connection ([SetMaxOpenConns(1)]), so transactions
    run one after the other; within one, a statement sees the effects of the
    statements before it.  The environment may fail at any point (a cancelled
    context, a driver or disk error): [tx_fault = Some (n, msg)] makes every
    statement after the next [n] fail with [msg]; begin and commit count as
    statements.  A failed transaction leaves the database as it was. *)

From S2P Require Import Prelude Errors Schema.

(** When, if ever, the database starts to fail, and with what message. *)
Definition fault : Type := option (nat * string).
Record txs := MkTxs { tx_db : DB; tx_fault : fault }.

Definition Tx (A : Type) : Type := txs → result A * txs.
#[export] Instance tx_ret : MRet Tx := λ A a s, (Ok a, s).
#[export] Instance tx_bind : MBind Tx := λ A B f m s,
  match m s with
  | (Ok a, s') => f a s'
  | (Err e, s') => (Err e, s')
  end.

(** [return err] *)
Definition throw {A} (e : error) : Tx A := λ s, (Err e, s).
(** A pure computation that can fail. *)
Definition lift {A} (r : result A) : Tx A := λ s, (r, s).

Definition tick : Tx unit := λ s,
  match tx_fault s with
  | None => (Ok tt, s)
  | Some (O, msg) => (Err (ErrIO msg), s)
  | Some (S n, msg) => (Ok tt, MkTxs (tx_db s) (Some (n, msg)))
  end.

Definition execute {A} (f : statement A) : Tx A := λ s,
  match f (tx_db s) with
  | Ok (a, d') => (Ok a, MkTxs d' (tx_fault s))
  | Err e => (Err e, s)
  end.
Definition stmt {A} (f : statement A) : Tx A := tick ;; execute f.

Definition scan_rows {A} (f : query A) : Tx A := λ s, (f (tx_db s), s).
Definition read {A} (f : query A) : Tx A := tick ;; scan_rows f.

(** [if err != nil { return fmt.Errorf(t, err) }] *)
Definition wrapping {A} (t : text) (m : Tx A) : Tx A := λ s,
  let '(r, s') := m s in (wrap_err t r, s').

(** [if errors.Is(err, sql.ErrNoRows) { return e }; if err != nil { return err }] *)
Definition or_missing {A} (e : error) (m : Tx A) : Tx A := λ s,
  match m s with
  | (Err e', s') => (Err (if errors_Is e' ErrNoRows then e else e'), s')
  | r => r
  end.

(** [if _, err := m; err == nil { return e } else if !errors.Is(err,
    sql.ErrNoRows) { return err }] *)
Definition absent {A} (e : error) (m : Tx A) : Tx unit := λ s,
  match m s with
  | (Ok _, s') => (Err e, s')
  | (Err e', s') => (if errors_Is e' ErrNoRows then Ok tt else Err e', s')
  end.

(** [if err := m; err != nil { return h(err) }] *)
Definition rescue {A} (h : error → error) (m : Tx A) : Tx A := λ s,
  match m s with
  | (Err e, s') => (Err (h e), s')
  | r => r
  end.

Definition guard_tx (b : bool) (e : error) : Tx unit := lift (require b e).

(** [Store.WithTx] *)
Definition WithTx {A} (flt : fault) (fn : Tx A) (d : DB) : result A * DB :=
  match wrapping (Sprintf "begin resource transaction: %w" []) tick (MkTxs d flt) with
  | (Err e, _) => (Err e, d)
  | (Ok _, s0) =>
      match wrapping (Sprintf "resource transaction: %w" []) fn s0 with
      | (Err e, _) => (Err e, d)
      | (Ok a, s1) =>
          match wrapping (Sprintf "commit resource transaction: %w" []) tick s1 with
          | (Err e, _) => (Err e, d)
          | (Ok _, s2) => (Ok a, tx_db s2)
          end
      end
  end.

(** A statement outside a transaction is a transaction of its own. *)
Definition autocommit {A} (flt : fault) (m : Tx A) (d : DB) : result A * DB :=
  match m (MkTxs d flt) with
  | (Ok a, s') => (Ok a, tx_db s')
  | (Err e, _) => (Err e, d)
  end.

(** ** Successful runs *)
Section inversion.
Context {A B : Type}.
Implicit Types (s : txs) (m : Tx A).

Lemma tx_bind_Ok m (f : A → Tx B) s b s' :
  (m ≫= f) s = (Ok b, s') → ∃ a s1, m s = (Ok a, s1) ∧ f a s1 = (Ok b, s').
Proof. unfold mbind, tx_bind. destruct (m s) as [[a|e] s1]; naive_solver. Qed.

Lemma tick_Ok s u s' : tick s = (Ok u, s') → tx_db s' = tx_db s.
Proof. unfold tick. destruct (tx_fault s) as [[[|n] msg]|]; naive_solver. Qed.

Lemma stmt_Ok (f : statement A) s a s' :
  stmt f s = (Ok a, s') → f (tx_db s) = Ok (a, tx_db s').
Proof.
  unfold stmt, mbind, tx_bind. destruct (tick s) as [[u|e] s1] eqn:Ht; [|done].
  apply tick_Ok in Ht. rewrite <- Ht. unfold execute.
  destruct (f (tx_db s1)) as [[? ?]|]; naive_solver.
Qed.

Lemma wrapping_Ok t m s a s' : wrapping t m s = (Ok a, s') → m s = (Ok a, s').
Proof. unfold wrapping. destruct (m s) as [[?|?] ?]; simpl; naive_solver. Qed.

Lemma or_missing_Ok e m s a s' : or_missing e m s = (Ok a, s') → m s = (Ok a, s').
Proof. unfold or_missing. destruct (m s) as [[?|?] ?]; naive_solver. Qed.

Lemma rescue_Ok h m s a s' : rescue h m s = (Ok a, s') → m s = (Ok a, s').
Proof. unfold rescue. destruct (m s) as [[?|?] ?]; naive_solver. Qed.

Lemma lift_Ok (r : result A) s a s' : lift r s = (Ok a, s') → r = Ok a ∧ s' = s.
Proof. unfold lift. naive_solver. Qed.

Lemma ret_Ok (a : A) s b s' : mret (M := Tx) a s = (Ok b, s') → a = b ∧ s' = s.
Proof. unfold mret, tx_ret. naive_solver. Qed.

Lemma absent_Ok e m s u s' :
  absent e m s = (Ok u, s') → ∃ e', m s = (Err e', s') ∧ errors_Is e' ErrNoRows = true.
Proof.
  unfold absent. destruct (m s) as [[?|e'] ?]; [naive_solver|].
  destruct (errors_Is e' ErrNoRows) eqn:?; naive_solver.
Qed.

End inversion.

Section transactions.
Context {A : Type}.
Implicit Types (d : DB) (m : Tx A).

Lemma WithTx_Ok flt m d a d' :
  WithTx flt m d = (Ok a, d') →
  ∃ s s', tx_db s = d ∧ m s = (Ok a, s') ∧ d' = tx_db s'.
Proof.
  unfold WithTx. intros H.
  destruct (wrapping _ tick (MkTxs d flt)) as [[u|e] s0] eqn:E0; [|done].
  apply wrapping_Ok, tick_Ok in E0.
  destruct (wrapping _ m s0) as [[a'|e] s1] eqn:E1; [|done]. apply wrapping_Ok in E1.
  destruct (wrapping _ tick s1) as [[u'|e] s2] eqn:E2; [|done].
  apply wrapping_Ok, tick_Ok in E2. naive_solver.
Qed.

(** A failed transaction has no effect. *)
Lemma WithTx_Err flt m d e d' : WithTx flt m d = (Err e, d') → d' = d.
Proof. unfold WithTx. intros. case_all. Qed.

Lemma autocommit_Ok flt m d a d' :
  autocommit flt m d = (Ok a, d') →
  ∃ s s', tx_db s = d ∧ m s = (Ok a, s') ∧ d' = tx_db s'.
Proof.
  unfold autocommit. intros H. destruct (m (MkTxs d flt)) as [[?|?] ?] eqn:E; simplify_eq.
  by exists (MkTxs d flt); eauto.
Qed.

Lemma autocommit_Err flt m d e d' : autocommit flt m d = (Err e, d') → d' = d.
Proof. unfold autocommit. intros. case_all. Qed.
End transactions.

Lemma read_Ok {A} (f : query A) s a s' :
  read f s = (Ok a, s') → f (tx_db s) = Ok a ∧ tx_db s' = tx_db s.
Proof.
  unfold read. intros (u & s1 & Ht%tick_Ok & [= Hf ->])%tx_bind_Ok. by rewrite <- Ht.
Qed.

Lemma guard_tx_Ok b e s u s' : guard_tx b e s = (Ok u, s') → b = true ∧ s' = s.
Proof. intros [H%require_Ok ?]%lift_Ok. done. Qed.

(** Decompose a successful run inside a transaction. *)
Ltac inv_tx :=
  repeat match goal with
  | H : (_ ≫= _) ?s = (Ok _, _) |- _ =>
      apply tx_bind_Ok in H as (? & ? & H & ?)
  | H : stmt _ _ = (Ok _, _) |- _ => apply stmt_Ok in H
  | H : read _ _ = (Ok _, _) |- _ => apply read_Ok in H as [? ?]
  | H : wrapping _ _ _ = (Ok _, _) |- _ => apply wrapping_Ok in H
  | H : or_missing _ _ _ = (Ok _, _) |- _ => apply or_missing_Ok in H
  | H : rescue _ _ _ = (Ok _, _) |- _ => apply rescue_Ok in H
  | H : absent _ _ _ = (Ok _, _) |- _ => apply absent_Ok in H as (? & ? & ?)
  | H : guard_tx _ _ _ = (Ok _, _) |- _ => apply guard_tx_Ok in H as [? ->]
  | H : lift _ _ = (Ok _, _) |- _ => apply lift_Ok in H as [? ->]
  | H : mret _ _ = (Ok _, _) |- _ => apply ret_Ok in H as [<- ->]
  | H : throw _ _ = (Ok _, _) |- _ => discriminate H
  | u : unit |- _ => destruct u
  end.

(** Run the first command of a successful sequence. *)
Tactic Notation "run" hyp(H) "as" simple_intropattern(x) ident(s) ident(E) :=
  apply tx_bind_Ok in H as (x & s & E & H).

(** ** Runs without faults *)
Section no_faults.
Context {A : Type}.
Implicit Types (d : DB) (m : Tx A).

Lemma stmt_None (f : statement A) d :
  stmt f (MkTxs d None) =
  match f d with
  | Ok (a, d') => (Ok a, MkTxs d' None)
  | Err e => (Err e, MkTxs d None)
  end.
Proof. done. Qed.

Lemma read_None (f : query A) d : read f (MkTxs d None) = (f d, MkTxs d None).
Proof. done. Qed.

Lemma WithTx_None_Ok m d a d' :
  m (MkTxs d None) = (Ok a, MkTxs d' None) → WithTx None m d = (Ok a, d').
Proof. intros H. unfold WithTx. simpl. unfold wrapping at 1. by rewrite H. Qed.

Lemma WithTx_None_Err m d e s :
  m (MkTxs d None) = (Err e, s) →
  WithTx None m d = (Err (Wrapf (Sprintf "resource transaction: %w" []) e), d).
Proof. intros H. unfold WithTx. simpl. unfold wrapping at 1. by rewrite H. Qed.
End no_faults.
