(* ===== verification/Transitions.v ===== *)
(** The durable state as an abstract machine.

    [trans] lists the ways the committed database may change, each with the
    condition under which it is allowed; it is the specification the store and
    the services are proved to refine.  [Inv] is what the schema and the services
    together maintain; [Inv] holds initially and every transition preserves it. *)

From S2P Require Import Prelude Errors GoStrings NetIP Validate Ipam Mac Model Schema.
Local Open Scope Z_scope.

(** A kernel index belongs to exactly the resource it was allocated for. *)
Definition owned (d : DB) (n : Z) (kind rid : string) : Prop :=
  kernel_indexes d !! n = Some (MkKernelIndex n kind rid).

Definition no_subnets (d : DB) (vpc : string) : Prop :=
  ∀ id s, subnets d !! id = Some s → s_VpcID s ≠ vpc.
Definition no_instances (d : DB) (subnet : string) : Prop :=
  ∀ id r, instances d !! id = Some r → i_SubnetID r ≠ subnet.

(** What a status update may record: success observes the current generation of
    a live resource, failure leaves the observed generation. *)
Definition observation (live : string) (state : string) (deleting generation old observed : Z) : Prop :=
  (state = live ∧ observed = generation ∧ deleting = 0) ∨ (state = "failed" ∧ observed = old).

(** Address ranges of blocks. *)
Definition inside (q p : Prefix) : Prop :=
  base4 p ≤ base4 q ∧ base4 q + size4 q ≤ base4 p + size4 p.

Inductive trans (d : DB) : DB → Prop :=
  | t_index kind rid :
      kernel_seq d < 2 ^ 63 - 1 →
      (∀ n k, kernel_indexes d !! n = Some k → ki_ResourceID k ≠ rid) →
      trans d (set_kernel (kernel_seq d + 1)
        (<[kernel_seq d + 1 := MkKernelIndex (kernel_seq d + 1) kind rid]> (kernel_indexes d)) d)
  | t_event ws rtype rid action state generation message created :
      event_seq d < 2 ^ 63 - 1 →
      trans d (set_events (event_seq d + 1)
        (events d ++ [MkEventRow (event_seq d + 1) ws rtype rid action state generation message created]) d)
  | t_idempotency ws op key hash rid response created expires :
      trans d (set_idempotency (<[(ws, op, key) :=
        MkIdempotencyRequest ws op key hash rid created expires response]> (idempotency d)) d)
  | t_vpc_create id short name p now :
      vpcs d !! id = None → owned d short "vpc" id →
      ValidateName name = Ok name → name_check name = true →
      (∀ id' r, vpcs d !! id' = Some r → v_Name r ≠ name) → canonical p →
      trans d (set_vpcs (<[id := MkVpc id "default" short name (Prefix_String p) 1 0 "pending" ""
                                       now now 0]> (vpcs d)) d)
  | t_vpc_status id r state reason observed now :
      vpcs d !! id = Some r →
      observation "available" state (v_DeletionRequested r) (v_Generation r) (v_ObservedGeneration r) observed →
      trans d (set_vpcs (<[id := vpc_with_status r state reason observed now]> (vpcs d)) d)
  | t_vpc_deleting id r now :
      vpcs d !! id = Some r → v_DeletionRequested r = 0 → no_subnets d id →
      trans d (set_vpcs (<[id := vpc_deleting r now]> (vpcs d)) d)
  | t_vpc_delete id r :
      vpcs d !! id = Some r → v_DeletionRequested r = 1 → no_subnets d id →
      trans d (set_vpcs (delete id (vpcs d)) d)
  | t_subnet_create id vpc v p q short name zone now :
      subnets d !! id = None → owned d short "subnet" id →
      ValidateName name = Ok name → name_check name = true → zone_check zone = true →
      (∀ id' r, subnets d !! id' = Some r → s_Name r ≠ name) →
      canonical q → vpcs d !! vpc = Some v → v_DeletionRequested v = 0 →
      ParsePrefix (v_CidrBlock v) = Some p → inside q p →
      (∀ id' s q', subnets d !! id' = Some s → s_VpcID s = vpc →
        ParsePrefix (s_CidrBlock s) = Some q' → Overlaps q q' = false) →
      trans d (set_subnets (<[id := MkSubnetRow id "default" vpc short name (Prefix_String q) zone 1 0
                                       "pending" "" now now 0]> (subnets d)) d)
  | t_subnet_status id r state reason observed now :
      subnets d !! id = Some r →
      observation "available" state (s_DeletionRequested r) (s_Generation r) (s_ObservedGeneration r) observed →
      trans d (set_subnets (<[id := subnet_with_status r state reason observed now]> (subnets d)) d)
  | t_subnet_deleting id r now :
      subnets d !! id = Some r → s_DeletionRequested r = 0 → no_instances d id →
      trans d (set_subnets (<[id := subnet_deleting r now]> (subnets d)) d)
  | t_subnet_delete id r :
      subnets d !! id = Some r → s_DeletionRequested r = 1 → no_instances d id →
      trans d (set_subnets (delete id (subnets d)) d)
  | t_instance_create iid eid subnet s p a ishort eshort name mac now :
      instances d !! iid = None → enis d !! eid = None →
      owned d ishort "instance" iid → owned d eshort "eni" eid →
      ValidateName name = Ok name → name_check name = true →
      (∀ id' r, instances d !! id' = Some r → i_Name r ≠ name) →
      (∀ id' e, enis d !! id' = Some e → e_MacAddress e ≠ mac) → is_Ok (validENIMAC mac) = true →
      subnets d !! subnet = Some s → s_DeletionRequested s = 0 →
      ParsePrefix (s_CidrBlock s) = Some p → Contains p a = true → reservedAddress p a = false →
      (∀ id' e, enis d !! id' = Some e → e_SubnetID e = subnet → e_PrivateIp e ≠ Addr_String a) →
      trans d
        (set_enis (<[eid := MkEniRow eid "default" iid subnet eshort (Addr_String a) mac 1 0 "pending" ""
                                     now now]> (enis d))
          (set_instances (<[iid := MkInstanceRow iid "default" subnet ishort name 1 0 "pending" ""
                                     now now 0 None]> (instances d)) d))
  | t_instance_status id r state reason observed now :
      instances d !! id = Some r → state = "running" ∨ state = "failed" →
      (observed = i_ObservedGeneration r ∨
       observed = i_Generation r ∧ state = "running" ∧ i_DeletionRequested r = 0 ∧ is_Some (i_RuntimeID r)) →
      trans d (set_instances (<[id := instance_with_status r state reason observed now]> (instances d)) d)
  | t_eni_status id e state reason observed now :
      enis d !! id = Some e → observed = e_ObservedGeneration e ∨ observed = e_Generation e →
      trans d (set_enis (<[id := eni_with_status e state reason observed now]> (enis d)) d)
  | t_instance_terminating id r now :
      instances d !! id = Some r → i_DeletionRequested r = 0 →
      trans d (set_instances (<[id := instance_terminating r now]> (instances d)) d)
  | t_instance_runtime id r rt :
      instances d !! id = Some r → rt ≠ "" → i_RuntimeID r = None ∨ i_RuntimeID r = Some rt →
      trans d (set_instances (<[id := instance_with_runtime r rt]> (instances d)) d)
  | t_instance_delete iid eid r e :
      instances d !! iid = Some r → i_DeletionRequested r = 1 →
      enis d !! eid = Some e → e_InstanceID e = iid →
      trans d (set_instances (delete iid (instances d)) (set_enis (delete eid (enis d)) d)).

(** ** The invariant *)
Definition lifecycle (generation deleting : Z) : Prop :=
  generation = 1 + deleting ∧ (deleting = 0 ∨ deleting = 1).

Record vpc_ok (id : string) (r : Vpc) : Prop := {
  vo_id : v_ID r = id;
  vo_ws : v_WorkspaceID r = "default";
  vo_name : ValidateName (v_Name r) = Ok (v_Name r);
  vo_cidr : ∃ p, canonical p ∧ v_CidrBlock r = Prefix_String p;
  vo_check : vpc_check r = true;
  vo_life : lifecycle (v_Generation r) (v_DeletionRequested r);
  vo_live : v_State r = "available" → v_ObservedGeneration r = v_Generation r ∧ v_DeletionRequested r = 0
}.
Record subnet_ok (id : string) (r : SubnetRow) : Prop := {
  so_id : s_ID r = id;
  so_ws : s_WorkspaceID r = "default";
  so_name : ValidateName (s_Name r) = Ok (s_Name r);
  so_cidr : ∃ p, canonical p ∧ s_CidrBlock r = Prefix_String p;
  so_check : subnet_check r = true;
  so_life : lifecycle (s_Generation r) (s_DeletionRequested r);
  so_live : s_State r = "available" → s_ObservedGeneration r = s_Generation r ∧ s_DeletionRequested r = 0
}.
Record instance_ok (id : string) (r : InstanceRow) : Prop := {
  io_id : i_ID r = id;
  io_ws : i_WorkspaceID r = "default";
  io_name : ValidateName (i_Name r) = Ok (i_Name r);
  io_check : instance_check r = true;
  io_life : lifecycle (i_Generation r) (i_DeletionRequested r);
  io_runtime : i_RuntimeID r ≠ Some "";
  io_observed : i_ObservedGeneration r = 0 ∨ is_Some (i_RuntimeID r)
}.
Record eni_ok (id : string) (e : EniRow) : Prop := {
  eo_id : e_ID e = id;
  eo_ws : e_WorkspaceID e = "default";
  eo_generation : e_Generation e = 1 ∧ 0 ≤ e_ObservedGeneration e ≤ 1;
  eo_mac : is_Ok (validENIMAC (e_MacAddress e)) = true
}.

Record Inv (d : DB) : Prop := {
  inv_ws : workspaces d = {["default"]};
  inv_v : map_Forall vpc_ok (vpcs d);
  inv_s : map_Forall subnet_ok (subnets d);
  inv_i : map_Forall instance_ok (instances d);
  inv_e : map_Forall eni_ok (enis d);
  (** kernel indexes: allocated once, never beyond the sequence *)
  inv_kseq : 0 ≤ kernel_seq d < 2 ^ 63;
  inv_k : ∀ n k, kernel_indexes d !! n = Some k → ki_ID k = n ∧ 1 ≤ n ≤ kernel_seq d;
  inv_krid : ∀ n m k k', kernel_indexes d !! n = Some k → kernel_indexes d !! m = Some k' →
    ki_ResourceID k = ki_ResourceID k' → n = m;
  inv_vk : ∀ id r, vpcs d !! id = Some r → owned d (v_ShortIndex r) "vpc" id;
  inv_sk : ∀ id r, subnets d !! id = Some r → owned d (s_ShortIndex r) "subnet" id;
  inv_ik : ∀ id r, instances d !! id = Some r → owned d (i_ShortIndex r) "instance" id;
  inv_ek : ∀ id r, enis d !! id = Some r → owned d (e_ShortIndex r) "eni" id;
  (** names are unique *)
  inv_vname : ∀ i j r s, vpcs d !! i = Some r → vpcs d !! j = Some s → v_Name r = v_Name s → i = j;
  inv_sname : ∀ i j r s, subnets d !! i = Some r → subnets d !! j = Some s → s_Name r = s_Name s → i = j;
  inv_iname : ∀ i j r s, instances d !! i = Some r → instances d !! j = Some s → i_Name r = i_Name s → i = j;
  (** subnets lie inside their live VPC and are disjoint *)
  inv_parent : ∀ id s, subnets d !! id = Some s →
    ∃ v p q, vpcs d !! s_VpcID s = Some v ∧ v_DeletionRequested v = 0 ∧
             ParsePrefix (v_CidrBlock v) = Some p ∧ ParsePrefix (s_CidrBlock s) = Some q ∧ inside q p;
  inv_disjoint : ∀ i j s t p q, i ≠ j → subnets d !! i = Some s → subnets d !! j = Some t →
    s_VpcID s = s_VpcID t → ParsePrefix (s_CidrBlock s) = Some p → ParsePrefix (s_CidrBlock t) = Some q →
    Overlaps p q = false;
  (** instances live in a live subnet and own exactly one interface *)
  inv_inst : ∀ id r, instances d !! id = Some r →
    ∃ s, subnets d !! i_SubnetID r = Some s ∧ s_DeletionRequested s = 0;
  inv_has_eni : ∀ id r, instances d !! id = Some r →
    ∃ eid e, enis d !! eid = Some e ∧ e_InstanceID e = id;
  inv_eni : ∀ id e, enis d !! id = Some e →
    ∃ r s p a, instances d !! e_InstanceID e = Some r ∧ i_SubnetID r = e_SubnetID e ∧
      subnets d !! e_SubnetID e = Some s ∧ ParsePrefix (s_CidrBlock s) = Some p ∧
      e_PrivateIp e = Addr_String a ∧ Contains p a = true ∧ reservedAddress p a = false;
  inv_eni_inst : ∀ i j e f, enis d !! i = Some e → enis d !! j = Some f →
    e_InstanceID e = e_InstanceID f → i = j;
  inv_eni_ip : ∀ i j e f, enis d !! i = Some e → enis d !! j = Some f →
    e_SubnetID e = e_SubnetID f → e_PrivateIp e = e_PrivateIp f → i = j;
  inv_eni_mac : ∀ i j e f, enis d !! i = Some e → enis d !! j = Some f →
    e_MacAddress e = e_MacAddress f → i = j;
  (** the event log is numbered without gaps *)
  inv_eseq : 0 ≤ event_seq d < 2 ^ 63;
  inv_events : ev_ID <$> events d = seqZ 1 (event_seq d);
  inv_idem : ∀ ws op key k, idempotency d !! (ws, op, key) = Some k →
    k_WorkspaceID k = ws ∧ k_Operation k = op ∧ k_Key k = key
}.

Lemma initial_Inv : Inv initialDB.
Proof. split; try done; simpl; try apply map_Forall_empty; intros; by simplify_map_eq. Qed.

(** ** Preservation *)

(** Case analysis on a row of an updated table. *)
Ltac row_cases :=
  repeat match goal with
  | H : <[_ := _]> _ !! _ = Some _ |- _ => apply lookup_insert_Some in H as [[? ?]|[? H]]; subst
  | H : delete _ _ !! _ = Some _ |- _ => apply lookup_delete_Some in H as [? H]
  | H1 : ?m !! ?k = Some _, H2 : ?m !! ?k = Some _ |- _ =>
      rewrite H1 in H2; injection H2 as ?; subst
  end.

Lemma map_Forall_insert_any {A} (P : string → A → Prop) (m : gmap string A) k x :
  map_Forall P m → P k x → map_Forall P (<[k := x]> m).
Proof. intros Hm Hx j y Hj. row_cases; eauto. Qed.

Lemma map_Forall_delete_any {A} (P : string → A → Prop) (m : gmap string A) k :
  map_Forall P m → map_Forall P (delete k m).
Proof. intros Hm j y Hj. row_cases; eauto. Qed.

Lemma owned_insert d n k kind rid seq m :
  m ≠ n → owned d m kind rid → owned (set_kernel seq (<[n := k]> (kernel_indexes d)) d) m kind rid.
Proof. unfold owned. simpl. intros. by rewrite lookup_insert_ne. Qed.

(** Clauses about tables a transition does not touch, and about the other rows
    of the one it does. *)
Ltac keep I :=
  first [exact (inv_ws _ I) | exact (inv_v _ I) | exact (inv_s _ I) | exact (inv_i _ I) | exact (inv_e _ I)
        | exact (inv_kseq _ I) | exact (inv_k _ I) | exact (inv_krid _ I)
        | exact (inv_vk _ I) | exact (inv_sk _ I) | exact (inv_ik _ I) | exact (inv_ek _ I)
        | exact (inv_vname _ I) | exact (inv_sname _ I) | exact (inv_iname _ I)
        | exact (inv_parent _ I) | exact (inv_disjoint _ I) | exact (inv_inst _ I)
        | exact (inv_has_eni _ I) | exact (inv_eni _ I) | exact (inv_eni_inst _ I)
        | exact (inv_eni_ip _ I) | exact (inv_eni_mac _ I) | exact (inv_eseq _ I)
        | exact (inv_events _ I) | exact (inv_idem _ I)].

Lemma Inv_event d ws rtype rid action state generation message created :
  Inv d → event_seq d < 2 ^ 63 - 1 →
  Inv (set_events (event_seq d + 1)
        (events d ++ [MkEventRow (event_seq d + 1) ws rtype rid action state generation message created]) d).
Proof.
  intros I Hs. split; try keep I; simpl.
  - pose proof (inv_eseq d I). lia.
  - rewrite fmap_app, (inv_events d I). simpl. pose proof (inv_eseq d I).
    rewrite seqZ_app by lia. f_equal. rewrite seqZ_cons by lia. simpl. f_equal. lia.
Qed.

Lemma Inv_idempotency d ws op key hash rid response created expires :
  Inv d →
  Inv (set_idempotency (<[(ws, op, key) :=
        MkIdempotencyRequest ws op key hash rid created expires response]> (idempotency d)) d).
Proof.
  intros I. split; try keep I. simpl. intros ws' op' key' k Hk.
  apply lookup_insert_Some in Hk as [[? ?]|[? Hk]]; simplify_eq; [done|]. by apply (inv_idem d I).
Qed.

Lemma Inv_index d kind rid :
  Inv d → kernel_seq d < 2 ^ 63 - 1 →
  (∀ n k, kernel_indexes d !! n = Some k → ki_ResourceID k ≠ rid) →
  Inv (set_kernel (kernel_seq d + 1)
        (<[kernel_seq d + 1 := MkKernelIndex (kernel_seq d + 1) kind rid]> (kernel_indexes d)) d).
Proof.
  intros I Hs Hfresh. pose proof (inv_kseq d I) as Hseq.
  assert (∀ n kind' rid', owned d n kind' rid' → n ≠ kernel_seq d + 1) as Hne.
  { intros n kind' rid' Hk. apply (inv_k d I) in Hk. lia. }
  split; try keep I; simpl.
  - lia.
  - intros n k Hk. apply lookup_insert_Some in Hk as [[<- <-]|[? Hk]]; simpl; [lia|].
    apply (inv_k d I) in Hk. lia.
  - intros n m k k' Hn Hm He.
    apply lookup_insert_Some in Hn as [[<- <-]|[? Hn]], Hm as [[<- <-]|[? Hm]]; simpl in *; auto.
    + by apply Hfresh in Hm.
    + by apply Hfresh in Hn.
    + by eapply (inv_krid d I).
  - intros id r Hr. apply (inv_vk d I) in Hr as Ho. apply owned_insert; eauto.
  - intros id r Hr. apply (inv_sk d I) in Hr as Ho. apply owned_insert; eauto.
  - intros id r Hr. apply (inv_ik d I) in Hr as Ho. apply owned_insert; eauto.
  - intros id r Hr. apply (inv_ek d I) in Hr as Ho. apply owned_insert; eauto.
Qed.

(** ** VPC transitions *)

(** Replacing a VPC row by one with the same identity. *)
Lemma Inv_vpc_update d id r r' :
  Inv d → vpcs d !! id = Some r → vpc_ok id r' →
  v_ShortIndex r' = v_ShortIndex r → v_Name r' = v_Name r → v_CidrBlock r' = v_CidrBlock r →
  (v_DeletionRequested r' = v_DeletionRequested r ∨ no_subnets d id) →
  Inv (set_vpcs (<[id := r']> (vpcs d)) d).
Proof.
  intros I Hr Hok Hshort Hname Hcidr Hdel. split; try keep I; simpl.
  - apply map_Forall_insert_any; [apply (inv_v d I)|done].
  - intros id' r0 H0. row_cases.
    + rewrite Hshort. by apply (inv_vk d I).
    + by apply (inv_vk d I).
  - intros i j r1 r2 H1 H2 He. row_cases; auto.
    + eapply (inv_vname d I); eauto; congruence.
    + eapply (inv_vname d I); eauto; congruence.
    + by eapply (inv_vname d I).
  - intros id' s Hs. destruct (inv_parent d I id' s Hs) as (v & p & q & Hv & Hd & Hp & Hq & Hin).
    destruct (decide (s_VpcID s = id)) as [E|Hne].
    + rewrite E in *. row_cases. exists r', p, q. rewrite lookup_insert_eq, Hcidr. split_and!; auto.
      destruct Hdel as [->|Hno]; [done|]. by apply Hno in Hs.
    + exists v, p, q. by rewrite lookup_insert_ne by done.
Qed.

Lemma lifecycle_check g o dl : lifecycle g dl → 0 ≤ o ≤ g → generation_check g o = true ∧ ((dl =? 0) || (dl =? 1)) = true.
Proof.
  intros [-> Hd] Ho. unfold generation_check. rewrite !andb_true_iff, orb_true_iff, !Z.leb_le, !Z.eqb_eq. lia.
Qed.

Lemma generation_check_bounds g o : generation_check g o = true ↔ 1 ≤ g ∧ 0 ≤ o ≤ g.
Proof. unfold generation_check. rewrite !andb_true_iff, !Z.leb_le. lia. Qed.

Lemma vpc_check_iff r :
  vpc_check r = true ↔
  name_check (v_Name r) = true ∧ state_check (v_State r) = true ∧
  (1 ≤ v_Generation r ∧ 0 ≤ v_ObservedGeneration r ≤ v_Generation r) ∧
  (v_DeletionRequested r = 0 ∨ v_DeletionRequested r = 1).
Proof.
  unfold vpc_check. rewrite !andb_true_iff, generation_check_bounds, orb_true_iff, !Z.eqb_eq. tauto.
Qed.
Lemma subnet_check_iff r :
  subnet_check r = true ↔
  name_check (s_Name r) = true ∧ zone_check (s_AvailabilityZone r) = true ∧
  state_check (s_State r) = true ∧
  (1 ≤ s_Generation r ∧ 0 ≤ s_ObservedGeneration r ≤ s_Generation r) ∧
  (s_DeletionRequested r = 0 ∨ s_DeletionRequested r = 1).
Proof.
  unfold subnet_check. rewrite !andb_true_iff, generation_check_bounds, orb_true_iff, !Z.eqb_eq. tauto.
Qed.
Lemma instance_check_iff r :
  instance_check r = true ↔
  name_check (i_Name r) = true ∧ instance_state_check (i_State r) = true ∧
  (1 ≤ i_Generation r ∧ 0 ≤ i_ObservedGeneration r ≤ i_Generation r) ∧
  (i_DeletionRequested r = 0 ∨ i_DeletionRequested r = 1).
Proof.
  unfold instance_check. rewrite !andb_true_iff, generation_check_bounds, orb_true_iff, !Z.eqb_eq. tauto.
Qed.

Lemma Inv_vpc_create d id short name p now :
  Inv d → vpcs d !! id = None → owned d short "vpc" id →
  ValidateName name = Ok name → name_check name = true →
  (∀ id' r, vpcs d !! id' = Some r → v_Name r ≠ name) → canonical p →
  Inv (set_vpcs (<[id := MkVpc id "default" short name (Prefix_String p) 1 0 "pending" ""
                               now now 0]> (vpcs d)) d).
Proof.
  intros I Hnew Hown Hname Hcheck Hfresh Hp. split; try keep I; simpl.
  - apply map_Forall_insert_any; [apply (inv_v d I)|]. split; simpl; eauto.
    + apply vpc_check_iff. simpl. split_and!; auto; lia.
    + split; lia.
    + done.
  - intros id' r Hr. row_cases; [done|]. by apply (inv_vk d I).
  - intros i j r1 r2 H1 H2 He. row_cases; simpl in *; auto.
    + by edestruct Hfresh.
    + by edestruct Hfresh.
    + by eapply (inv_vname d I).
  - intros id' s Hs. destruct (inv_parent d I id' s Hs) as (v & pp & q & Hv & Hrest).
    exists v, pp, q. rewrite lookup_insert_ne by congruence. done.
Qed.

Lemma state_failed : state_check "failed" = true. Proof. done. Qed.
Lemma state_available : state_check "available" = true. Proof. done. Qed.

Lemma Inv_vpc_status d id r state reason observed now :
  Inv d → vpcs d !! id = Some r →
  observation "available" state (v_DeletionRequested r) (v_Generation r) (v_ObservedGeneration r) observed →
  Inv (set_vpcs (<[id := vpc_with_status r state reason observed now]> (vpcs d)) d).
Proof.
  intros I Hr Hobs. eapply Inv_vpc_update; eauto.
  destruct (inv_v d I id r Hr) as [? ? ? ? Hc ? ?]. apply vpc_check_iff in Hc as (?&?&?&?).
  split; simpl; auto.
  - apply vpc_check_iff. simpl.
    destruct Hobs as [(-> & -> & _)|(-> & ->)]; split_and!; auto; lia.
  - destruct Hobs as [(_ & -> & ->)|(-> & _)]; [done|discriminate].
Qed.

Lemma Inv_vpc_deleting d id r now :
  Inv d → vpcs d !! id = Some r → v_DeletionRequested r = 0 → no_subnets d id →
  Inv (set_vpcs (<[id := vpc_deleting r now]> (vpcs d)) d).
Proof.
  intros I Hr Hd Hno. eapply Inv_vpc_update; eauto.
  destruct (inv_v d I id r Hr) as [? ? ? ? Hc [Hg _] ?]. apply vpc_check_iff in Hc as (?&?&?&?).
  split; simpl; auto; [|split; lia|done].
  apply vpc_check_iff. simpl. split_and!; auto; lia.
Qed.

Lemma Inv_vpc_delete d id :
  Inv d → no_subnets d id → Inv (set_vpcs (delete id (vpcs d)) d).
Proof.
  intros I Hno. split; try keep I; simpl.
  - apply map_Forall_delete_any, (inv_v d I).
  - intros id' r Hr. row_cases. by apply (inv_vk d I).
  - intros i j r1 r2 H1 H2 He. row_cases. by eapply (inv_vname d I).
  - intros id' s Hs. destruct (inv_parent d I id' s Hs) as (v & p & q & Hv & Hrest).
    exists v, p, q. rewrite lookup_delete_ne; [done|]. intros E. by apply (Hno _ _ Hs).
Qed.

(** ** Subnet transitions *)

(** Replacing a subnet row by one with the same identity. *)
Lemma Inv_subnet_update d id r r' :
  Inv d → subnets d !! id = Some r → subnet_ok id r' →
  s_ShortIndex r' = s_ShortIndex r → s_Name r' = s_Name r → s_CidrBlock r' = s_CidrBlock r →
  s_VpcID r' = s_VpcID r →
  (s_DeletionRequested r' = s_DeletionRequested r ∨ no_instances d id) →
  Inv (set_subnets (<[id := r']> (subnets d)) d).
Proof.
  intros I Hr Hok Hshort Hname Hcidr Hvpc Hdel. split; try keep I; simpl.
  - apply map_Forall_insert_any; [apply (inv_s d I)|done].
  - intros id' r0 H0. row_cases; [rewrite Hshort|]; by apply (inv_sk d I).
  - intros i j r1 r2 H1 H2 He. row_cases; auto; eapply (inv_sname d I); eauto; congruence.
  - intros id' s Hs. row_cases; [|by apply (inv_parent d I id')]. rewrite Hvpc, Hcidr.
    by apply (inv_parent d I id').
  - intros i j s t p q Hne Hs Ht. row_cases; [done|rewrite ?Hvpc, ?Hcidr..|].
    + intros. by eapply (inv_disjoint d I i j).
    + intros. by eapply (inv_disjoint d I i j).
    + by apply (inv_disjoint d I i j).
  - intros id' i Hi. destruct (inv_inst d I id' i Hi) as (s & Hs & Hd).
    destruct (decide (i_SubnetID i = id)) as [E|Hne].
    + rewrite E in *. row_cases. exists r'. rewrite lookup_insert_eq. split; [done|].
      destruct Hdel as [->|Hno]; [done|]. by apply Hno in Hi.
    + exists s. by rewrite lookup_insert_ne by done.
  - intros id' e He. destruct (inv_eni d I id' e He) as (i & s & p & a & Hi & Hsub & Hs & Hp & Hrest).
    destruct (decide (e_SubnetID e = id)) as [E|Hne].
    + rewrite E in *. row_cases. exists i, r', p, a. rewrite lookup_insert_eq, Hcidr. done.
    + exists i, s, p, a. by rewrite lookup_insert_ne by done.
Qed.

Lemma canonical_parse p : canonical p → ParsePrefix (Prefix_String p) = Some p.
Proof. intros [Hv _]. by apply ParsePrefix_String. Qed.

Lemma stored_cidr_valid t p q : canonical p → t = Prefix_String p → ParsePrefix t = Some q → q = p.
Proof. intros Hp -> Hq. rewrite canonical_parse in Hq by done. congruence. Qed.

Lemma Inv_subnet_create d id vpc v p q short name zone now :
  Inv d → subnets d !! id = None → owned d short "subnet" id →
  ValidateName name = Ok name → name_check name = true → zone_check zone = true →
  (∀ id' r, subnets d !! id' = Some r → s_Name r ≠ name) →
  canonical q → vpcs d !! vpc = Some v → v_DeletionRequested v = 0 →
  ParsePrefix (v_CidrBlock v) = Some p → inside q p →
  (∀ id' s q', subnets d !! id' = Some s → s_VpcID s = vpc →
     ParsePrefix (s_CidrBlock s) = Some q' → Overlaps q q' = false) →
  Inv (set_subnets (<[id := MkSubnetRow id "default" vpc short name (Prefix_String q) zone 1 0
                               "pending" "" now now 0]> (subnets d)) d).
Proof.
  intros I Hnew Hown Hname Hcheck Hzone Hfresh Hq Hv Hlive Hp Hin Hdis. split; try keep I; simpl.
  - apply map_Forall_insert_any; [apply (inv_s d I)|]. split; simpl; eauto.
    + apply subnet_check_iff. simpl. split_and!; auto; lia.
    + split; lia.
    + done.
  - intros id' r Hr. row_cases; [done|]. by apply (inv_sk d I).
  - intros i j r1 r2 H1 H2 He. row_cases; simpl in *; auto.
    + by edestruct Hfresh.
    + by edestruct Hfresh.
    + by eapply (inv_sname d I).
  - intros id' s Hs. row_cases; [|by apply (inv_parent d I id')]. cbn [s_CidrBlock s_VpcID].
    exists v, p, q. rewrite canonical_parse by done. done.
  - intros i j s t p1 p2 Hne Hs Ht Hsame H1 H2. row_cases; cbn [s_CidrBlock s_VpcID] in *; [done|..].
    + rewrite canonical_parse in H2 by done. simplify_eq.
      destruct (inv_s d I i s Hs) as [? ? ? (p' & Hp' & E) ? ? ?].
      assert (p1 = p') as -> by by eapply stored_cidr_valid.
      rewrite Overlaps_comm by (by destruct Hp', Hq). eauto.
    + rewrite canonical_parse in H1 by done. simplify_eq. eauto.
    + by eapply (inv_disjoint d I i j).
  - intros id' i Hi. destruct (inv_inst d I id' i Hi) as (s & Hs & Hd).
    exists s. by rewrite lookup_insert_ne by congruence.
  - intros id' e He. destruct (inv_eni d I id' e He) as (i & s & pp & a & Hi & Hsub & Hs & Hrest).
    exists i, s, pp, a. by rewrite lookup_insert_ne by congruence.
Qed.

Lemma Inv_subnet_status d id r state reason observed now :
  Inv d → subnets d !! id = Some r →
  observation "available" state (s_DeletionRequested r) (s_Generation r) (s_ObservedGeneration r) observed →
  Inv (set_subnets (<[id := subnet_with_status r state reason observed now]> (subnets d)) d).
Proof.
  intros I Hr Hobs. eapply Inv_subnet_update; eauto.
  destruct (inv_s d I id r Hr) as [? ? ? ? Hc ? ?]. apply subnet_check_iff in Hc as (?&?&?&?&?).
  split; simpl; auto.
  - apply subnet_check_iff. simpl.
    destruct Hobs as [(-> & -> & _)|(-> & ->)]; split_and!; auto; lia.
  - destruct Hobs as [(_ & -> & ->)|(-> & _)]; [done|discriminate].
Qed.

Lemma Inv_subnet_deleting d id r now :
  Inv d → subnets d !! id = Some r → s_DeletionRequested r = 0 → no_instances d id →
  Inv (set_subnets (<[id := subnet_deleting r now]> (subnets d)) d).
Proof.
  intros I Hr Hd Hno. eapply Inv_subnet_update; eauto.
  destruct (inv_s d I id r Hr) as [? ? ? ? Hc [Hg _] ?]. apply subnet_check_iff in Hc as (?&?&?&?&?).
  split; simpl; auto; [|split; lia|done].
  apply subnet_check_iff. simpl. split_and!; auto; lia.
Qed.

Lemma Inv_subnet_delete d id :
  Inv d → no_instances d id → Inv (set_subnets (delete id (subnets d)) d).
Proof.
  intros I Hno. split; try keep I; simpl.
  - apply map_Forall_delete_any, (inv_s d I).
  - intros id' r Hr. row_cases. by apply (inv_sk d I).
  - intros i j r1 r2 H1 H2 He. row_cases. by eapply (inv_sname d I).
  - intros id' s Hs. row_cases. by apply (inv_parent d I id').
  - intros i j s t p q Hne Hs Ht. row_cases. by apply (inv_disjoint d I i j).
  - intros id' i Hi. destruct (inv_inst d I id' i Hi) as (s & Hs & Hd).
    exists s. rewrite lookup_delete_ne; [done|]. intros E. by apply (Hno _ _ Hi).
  - intros id' e He. destruct (inv_eni d I id' e He) as (i & s & p & a & Hi & Hsub & Hs & Hrest).
    exists i, s, p, a. rewrite lookup_delete_ne; [done|]. intros E. apply (Hno _ _ Hi). congruence.
Qed.

(** ** Instance transitions *)

(** Replacing an instance row by one with the same identity. *)
Lemma Inv_instance_update d id r r' :
  Inv d → instances d !! id = Some r → instance_ok id r' →
  i_ShortIndex r' = i_ShortIndex r → i_Name r' = i_Name r → i_SubnetID r' = i_SubnetID r →
  Inv (set_instances (<[id := r']> (instances d)) d).
Proof.
  intros I Hr Hok Hshort Hname Hsub. split; try keep I; simpl.
  - apply map_Forall_insert_any; [apply (inv_i d I)|done].
  - intros id' r0 H0. row_cases; [rewrite Hshort|]; by apply (inv_ik d I).
  - intros i j r1 r2 H1 H2 He. row_cases; auto; eapply (inv_iname d I); eauto; congruence.
  - intros id' i Hi. row_cases; [rewrite Hsub|]; by eapply (inv_inst d I).
  - intros id' i Hi. row_cases; by eapply (inv_has_eni d I).
  - intros id' e He. destruct (inv_eni d I id' e He) as (i & s & p & a & Hi & Hs & Hrest).
    destruct (decide (e_InstanceID e = id)) as [E|Hne].
    + rewrite E in *. row_cases. exists r', s, p, a. rewrite lookup_insert_eq, Hsub. done.
    + exists i, s, p, a. by rewrite lookup_insert_ne by done.
Qed.

(** Replacing an interface row by one with the same identity. *)
Lemma Inv_eni_update d id e e' :
  Inv d → enis d !! id = Some e → eni_ok id e' →
  e_ShortIndex e' = e_ShortIndex e → e_InstanceID e' = e_InstanceID e → e_SubnetID e' = e_SubnetID e →
  e_PrivateIp e' = e_PrivateIp e → e_MacAddress e' = e_MacAddress e →
  Inv (set_enis (<[id := e']> (enis d)) d).
Proof.
  intros I He Hok Hshort Hinst Hsub Hip Hmac. split; try keep I; simpl.
  - apply map_Forall_insert_any; [apply (inv_e d I)|done].
  - intros id' r0 H0. row_cases; [rewrite Hshort|]; by apply (inv_ek d I).
  - intros id' i Hi. destruct (inv_has_eni d I id' i Hi) as (eid & f & Hf & E).
    destruct (decide (eid = id)) as [->|Hne].
    + row_cases. exists id, e'. rewrite lookup_insert_eq. split; congruence.
    + exists eid, f. by rewrite lookup_insert_ne.
  - intros id' f Hf. row_cases; [|by eapply (inv_eni d I)]. rewrite Hinst, Hsub, Hip.
    by eapply (inv_eni d I).
  - intros i j r1 r2 H1 H2 E. row_cases; auto; eapply (inv_eni_inst d I); eauto; congruence.
  - intros i j r1 r2 H1 H2 E1 E2. row_cases; auto; eapply (inv_eni_ip d I); eauto; congruence.
  - intros i j r1 r2 H1 H2 E. row_cases; auto; eapply (inv_eni_mac d I); eauto; congruence.
Qed.

Lemma Inv_instance_create d iid eid subnet s p a ishort eshort name mac now :
  Inv d → instances d !! iid = None → enis d !! eid = None →
  owned d ishort "instance" iid → owned d eshort "eni" eid →
  ValidateName name = Ok name → name_check name = true →
  (∀ id' r, instances d !! id' = Some r → i_Name r ≠ name) →
  (∀ id' e, enis d !! id' = Some e → e_MacAddress e ≠ mac) → is_Ok (validENIMAC mac) = true →
  subnets d !! subnet = Some s → s_DeletionRequested s = 0 →
  ParsePrefix (s_CidrBlock s) = Some p → Contains p a = true → reservedAddress p a = false →
  (∀ id' e, enis d !! id' = Some e → e_SubnetID e = subnet → e_PrivateIp e ≠ Addr_String a) →
  Inv (set_enis (<[eid := MkEniRow eid "default" iid subnet eshort (Addr_String a) mac 1 0 "pending" ""
                                   now now]> (enis d))
        (set_instances (<[iid := MkInstanceRow iid "default" subnet ishort name 1 0 "pending" ""
                                   now now 0 None]> (instances d)) d)).
Proof.
  intros I Hi He Hown Heown Hname Hcheck Hfresh Hmac Hmacok Hs Hlive Hp Hin Hres Hip.
  assert (∀ id e, enis d !! id = Some e → e_InstanceID e ≠ iid) as Hnoeni.
  { intros id e Hid E. destruct (inv_eni d I id e Hid) as (? & ? & ? & ? & Hx & _). congruence. }
  split; try keep I; simpl.
  - apply map_Forall_insert_any; [apply (inv_i d I)|]. split; simpl; eauto.
    + apply instance_check_iff. simpl. split_and!; auto; lia.
    + split; lia.
  - apply map_Forall_insert_any; [apply (inv_e d I)|]. split; simpl; auto. lia.
  - intros id r Hr. row_cases; [done|]. by apply (inv_ik d I).
  - intros id r Hr. row_cases; [done|]. by apply (inv_ek d I).
  - intros i j r1 r2 H1 H2 E. row_cases; simpl in *; auto; [by edestruct Hfresh..|].
    by eapply (inv_iname d I).
  - intros id r Hr. row_cases; [by eauto|]. by eapply (inv_inst d I).
  - intros id r Hr. row_cases.
    + eexists eid, _. by rewrite lookup_insert_eq.
    + destruct (inv_has_eni d I id r Hr) as (eid' & e & Hx & E). exists eid', e.
      rewrite lookup_insert_ne by congruence. done.
  - intros id e Hx. row_cases; cbn [e_InstanceID e_SubnetID e_PrivateIp].
    + eexists _, s, p, a. rewrite lookup_insert_eq. done.
    + destruct (inv_eni d I id e Hx) as (r & s' & p' & a' & Hr & Hrest).
      exists r, s', p', a'. rewrite lookup_insert_ne by congruence. done.
  - intros i j r1 r2 H1 H2 E. row_cases; simpl in *; auto; [by edestruct Hnoeni..|].
    by eapply (inv_eni_inst d I).
  - intros i j r1 r2 H1 H2 E1 E2. row_cases; simpl in *; auto; [by edestruct Hip..|].
    by eapply (inv_eni_ip d I).
  - intros i j r1 r2 H1 H2 E. row_cases; simpl in *; auto; [by edestruct Hmac..|].
    by eapply (inv_eni_mac d I).
Qed.

Lemma Inv_instance_status d id r state reason observed now :
  Inv d → instances d !! id = Some r → state = "running" ∨ state = "failed" →
  (observed = i_ObservedGeneration r ∨
   observed = i_Generation r ∧ state = "running" ∧ i_DeletionRequested r = 0 ∧ is_Some (i_RuntimeID r)) →
  Inv (set_instances (<[id := instance_with_status r state reason observed now]> (instances d)) d).
Proof.
  intros I Hr Hst Hobs. eapply Inv_instance_update; eauto.
  destruct (inv_i d I id r Hr) as [? ? ? Hc ? ? Ho]. apply instance_check_iff in Hc as (?&?&?&?).
  split; simpl; auto.
  - apply instance_check_iff. simpl. split_and!; auto; [|lia..]. by destruct Hst as [->| ->].
  - destruct Hobs as [->|(_ & _ & _ & ?)]; auto.
Qed.

Lemma Inv_instance_terminating d id r now :
  Inv d → instances d !! id = Some r → i_DeletionRequested r = 0 →
  Inv (set_instances (<[id := instance_terminating r now]> (instances d)) d).
Proof.
  intros I Hr Hd. eapply Inv_instance_update; eauto.
  destruct (inv_i d I id r Hr) as [? ? ? Hc [Hg _] ? ?]. apply instance_check_iff in Hc as (?&?&?&?).
  split; simpl; auto; [|split; lia].
  apply instance_check_iff. simpl. split_and!; auto; lia.
Qed.

Lemma Inv_instance_runtime d id r rt :
  Inv d → instances d !! id = Some r → rt ≠ "" →
  Inv (set_instances (<[id := instance_with_runtime r rt]> (instances d)) d).
Proof.
  intros I Hr Hrt. eapply Inv_instance_update; eauto.
  destruct (inv_i d I id r Hr) as [? ? ? Hc ? ? ?]. apply instance_check_iff in Hc as (?&?&?&?).
  split; simpl; eauto; [|congruence]. apply instance_check_iff. simpl. split_and!; auto; lia.
Qed.

Lemma Inv_eni_status d id e state reason observed now :
  Inv d → enis d !! id = Some e → observed = e_ObservedGeneration e ∨ observed = e_Generation e →
  Inv (set_enis (<[id := eni_with_status e state reason observed now]> (enis d)) d).
Proof.
  intros I He Hobs. eapply Inv_eni_update; eauto.
  destruct (inv_e d I id e He) as [? ? ? ?]. split; simpl; auto. lia.
Qed.

Lemma Inv_instance_delete d iid eid r e :
  Inv d → instances d !! iid = Some r → enis d !! eid = Some e → e_InstanceID e = iid →
  Inv (set_instances (delete iid (instances d)) (set_enis (delete eid (enis d)) d)).
Proof.
  intros I Hr He Hei. split; try keep I; simpl.
  - apply map_Forall_delete_any, (inv_i d I).
  - apply map_Forall_delete_any, (inv_e d I).
  - intros id r' Hr'. row_cases. by apply (inv_ik d I).
  - intros id r' Hr'. row_cases. by apply (inv_ek d I).
  - intros i j r1 r2 H1 H2 E. row_cases. by eapply (inv_iname d I).
  - intros id r' Hr'. row_cases. by eapply (inv_inst d I).
  - intros id r' Hr'. row_cases. destruct (inv_has_eni d I id r' Hr') as (eid' & e' & Hx & E).
    exists eid', e'. rewrite lookup_delete_ne; [done|]. intros ->. row_cases. congruence.
  - intros id f Hf. row_cases. destruct (inv_eni d I id f Hf) as (r1 & s & p & a & H1 & Hrest).
    exists r1, s, p, a. rewrite lookup_delete_ne; [done|]. intros E.
    assert (eid = id) by (eapply (inv_eni_inst d I); eauto; congruence). done.
  - intros i j r1 r2 H1 H2 E. row_cases. by eapply (inv_eni_inst d I).
  - intros i j r1 r2 H1 H2 E1 E2. row_cases. by eapply (inv_eni_ip d I).
  - intros i j r1 r2 H1 H2 E. row_cases. by eapply (inv_eni_mac d I).
Qed.

(** ** Every transition *)
Lemma trans_Inv d d' : trans d d' → Inv d → Inv d'.
Proof.
  destruct 1; intros I;
    eauto using Inv_index, Inv_event, Inv_idempotency, Inv_vpc_status, Inv_vpc_deleting, Inv_vpc_delete,
      Inv_subnet_status, Inv_subnet_deleting, Inv_subnet_delete, Inv_instance_status, Inv_eni_status,
      Inv_instance_terminating, Inv_instance_runtime.
  - by apply Inv_vpc_create.
  - by eapply Inv_subnet_create.
  - by eapply Inv_instance_create.
  - by eapply Inv_instance_delete.
Qed.

Definition steps : DB → DB → Prop := rtc trans.

Lemma steps_Inv d d' : steps d d' → Inv d → Inv d'.
Proof. induction 1; eauto using trans_Inv. Qed.

(** Nothing erases history: events are only appended, and an allocated kernel
    index is never forgotten or given to another resource. *)
Lemma trans_history d d' :
  trans d d' → Inv d → events d `prefix_of` events d' ∧ kernel_indexes d ⊆ kernel_indexes d'.
Proof.
  intros Ht I. destruct Ht; try done; simpl.
  - split; [done|]. apply insert_subseteq, eq_None_not_Some. intros [k Hk].
    apply (inv_k d I) in Hk. lia.
  - split; [by eexists|done].
Qed.

Lemma steps_history d d' :
  steps d d' → Inv d → events d `prefix_of` events d' ∧ kernel_indexes d ⊆ kernel_indexes d'.
Proof.
  induction 1 as [|d d1 d' Ht Hs IH]; intros I; [done|].
  destruct (trans_history _ _ Ht I) as [He Hk].
  destruct (IH (trans_Inv _ _ Ht I)) as [He' Hk']. split; [by etrans|by etrans].
Qed.
