(* ===== verification/Store.v ===== *)
(** The store's operations: [internal/store/resources.go], [instances.go],
    [events.go], [reconcile.go] and [instance_reconcile.go].

    Methods of [*Tx] are named [tx_...] and run inside a transaction; methods of
    [*Store] are named [store_...], take the fault schedule of the environment
    and act on the committed database.  Where the source reads [time.Now()] the
    clock is the argument [now] (seconds). *)

From S2P Require Import Prelude Errors GoStrings NetIP Model Schema Mac Tx.
Local Open Scope Z_scope.

(** ** Rows and snapshots *)
Definition vpcFromRow (row : Vpc) : result VPC :=
  let corrupt := Errorf (Sprintf "VPC %s has corrupt CIDR block %q" [v_ID row; v_CidrBlock row]) in
  prefix ← of_option corrupt (ParsePrefix (v_CidrBlock row));
  require (Is4 (p_ip prefix)) corrupt ;;
  Ok {| VPC_ID := v_ID row; VPC_WorkspaceID := v_WorkspaceID row; VPC_Name := v_Name row;
        VPC_CIDRBlock := prefix; VPC_ShortIndex := v_ShortIndex row; VPC_State := v_State row;
        VPC_StateReason := v_StateReason row;
        VPC_DeletionRequested := negb (v_DeletionRequested row =? 0);
        VPC_Generation := v_Generation row; VPC_ObservedGeneration := v_ObservedGeneration row |}.

Definition subnetFromRow (row : SubnetRow) : result Subnet :=
  let corrupt := Errorf (Sprintf "subnet %s has corrupt CIDR block %q" [s_ID row; s_CidrBlock row]) in
  prefix ← of_option corrupt (ParsePrefix (s_CidrBlock row));
  require (Is4 (p_ip prefix)) corrupt ;;
  Ok {| Subnet_ID := s_ID row; Subnet_WorkspaceID := s_WorkspaceID row; Subnet_VPCID := s_VpcID row;
        Subnet_Name := s_Name row; Subnet_CIDRBlock := prefix;
        Subnet_AvailabilityZone := s_AvailabilityZone row; Subnet_ShortIndex := s_ShortIndex row;
        Subnet_State := s_State row; Subnet_StateReason := s_StateReason row;
        Subnet_DeletionRequested := negb (s_DeletionRequested row =? 0);
        Subnet_Generation := s_Generation row; Subnet_ObservedGeneration := s_ObservedGeneration row |}.

(** [IsUniqueViolation], [IsForeignKeyViolation] *)
Definition IsUniqueViolation (e : error) : bool :=
  bool_decide (as_SQLite e = Some SQLITE_CONSTRAINT_UNIQUE).
Definition IsForeignKeyViolation (e : error) : bool :=
  bool_decide (as_SQLite e = Some SQLITE_CONSTRAINT_FOREIGNKEY).

(** ** Events *)
Record Event := MkEvent {
  Event_ID : Z; Event_WorkspaceID : string; Event_ResourceType : string;
  Event_ResourceID : string; Event_Action : string; Event_State : string;
  Event_Generation : Z; Event_Message : string; Event_CreatedAt : Z
}.

Definition tx_AppendEvent (event : Event) : Tx unit :=
  wrapping (Sprintf "append %s event for %s: %w" [Event_Action event; Event_ResourceID event])
    (stmt (q_InsertEvent (Event_WorkspaceID event) (Event_ResourceType event)
             (Event_ResourceID event) (Event_Action event) (Event_State event)
             (Event_Generation event) (Event_Message event) (Event_CreatedAt event))).

Definition eventFromRow (row : EventRow) : Event :=
  MkEvent (ev_ID row) (ev_WorkspaceID row) (ev_ResourceType row) (ev_ResourceID row)
    (ev_Action row) (ev_State row) (ev_Generation row) (ev_Message row) (ev_CreatedAt row).

Definition store_EventsAfter (flt : fault) (id limit : Z) (d : DB) : result (list Event) :=
  if (id <? 0) || (limit <? 1) || (100 <? limit)
  then Err (Errorf (lit "invalid event cursor or limit"))
  else
    rows ← wrap_err (Sprintf "read events after %d: %w" [FormatInt id])
             (autocommit flt (read (q_EventsAfter id limit)) d).1;
    Ok (List.map eventFromRow rows).

(** ** VPCs and subnets *)
Definition tx_AllocateIndex (kind resourceID : string) : Tx Z :=
  wrapping (Sprintf "allocate %s kernel index: %w" [kind]) (stmt (q_InsertKernelIndex kind resourceID)).

Definition tx_InsertVPC (vpc : VPC) (now : Z) : Tx unit :=
  wrapping (Sprintf "insert VPC %s: %w" [VPC_ID vpc])
    (stmt (q_InsertVPC (VPC_ID vpc) (VPC_WorkspaceID vpc) (VPC_ShortIndex vpc) (VPC_Name vpc)
             (Prefix_String (VPC_CIDRBlock vpc)) now now)).

Definition tx_InsertSubnet (subnet : Subnet) (now : Z) : Tx unit :=
  wrapping (Sprintf "insert subnet %s: %w" [Subnet_ID subnet])
    (stmt (q_InsertSubnet (Subnet_ID subnet) (Subnet_WorkspaceID subnet) (Subnet_VPCID subnet)
             (Subnet_ShortIndex subnet) (Subnet_Name subnet) (Prefix_String (Subnet_CIDRBlock subnet))
             (Subnet_AvailabilityZone subnet) now now)).

Definition tx_GetVPC (workspaceID id : string) : Tx VPC :=
  row ← wrapping (Sprintf "get VPC %s: %w" [id]) (read (q_GetVPC id workspaceID));
  lift (vpcFromRow row).
Definition store_GetVPC (flt : fault) (workspaceID id : string) (d : DB) : result VPC :=
  row ← wrap_err (Sprintf "get VPC %s: %w" [id]) (autocommit flt (read (q_GetVPC id workspaceID)) d).1;
  vpcFromRow row.

Definition tx_GetVPCByName (workspaceID name : string) : Tx VPC :=
  row ← wrapping (Sprintf "get VPC name %q: %w" [name]) (read (q_GetVPCByName workspaceID name));
  lift (vpcFromRow row).

Definition store_ListVPCPage (flt : fault) (workspaceID afterID : string) (limit : Z) (d : DB)
    : result (list VPC) :=
  rows ← wrap_err (Sprintf "list VPCs: %w" [])
           (autocommit flt (read (q_ListVPCPage workspaceID afterID limit)) d).1;
  mapM vpcFromRow rows.

Definition tx_GetSubnet (workspaceID id : string) : Tx Subnet :=
  row ← wrapping (Sprintf "get subnet %s: %w" [id]) (read (q_GetSubnet id workspaceID));
  lift (subnetFromRow row).
Definition store_GetSubnet (flt : fault) (workspaceID id : string) (d : DB) : result Subnet :=
  row ← wrap_err (Sprintf "get subnet %s: %w" [id]) (autocommit flt (read (q_GetSubnet id workspaceID)) d).1;
  subnetFromRow row.

Definition tx_GetSubnetByName (workspaceID name : string) : Tx Subnet :=
  row ← wrapping (Sprintf "get subnet name %q: %w" [name]) (read (q_GetSubnetByName workspaceID name));
  lift (subnetFromRow row).

Definition store_ListSubnetPage (flt : fault) (workspaceID afterID : string) (limit : Z) (d : DB)
    : result (list Subnet) :=
  rows ← wrap_err (Sprintf "list subnets: %w" [])
           (autocommit flt (read (q_ListSubnetPage workspaceID afterID limit)) d).1;
  mapM subnetFromRow rows.

Definition tx_ListSubnetsByVPC (vpcID : string) : Tx (list Subnet) :=
  rows ← wrapping (Sprintf "list subnets for VPC %s: %w" [vpcID]) (read (q_ListSubnetsByVPC vpcID));
  lift (mapM subnetFromRow rows).
Definition store_ListSubnetsByVPC (flt : fault) (vpcID : string) (d : DB) : result (list Subnet) :=
  rows ← wrap_err (Sprintf "list subnets for VPC %s: %w" [vpcID])
           (autocommit flt (read (q_ListSubnetsByVPC vpcID)) d).1;
  mapM subnetFromRow rows.

Definition tx_CountInstancesInSubnet (subnetID : string) : Tx Z :=
  wrapping (Sprintf "count instances in subnet %s: %w" [subnetID]) (read (q_CountInstancesInSubnet subnetID)).

Definition tx_MarkVPCDeleting (workspaceID id : string) (now : Z) : Tx VPC :=
  wrapping (Sprintf "mark VPC %s deleting: %w" [id]) (stmt (q_MarkVPCDeleting now id workspaceID)) ;;
  tx_GetVPC workspaceID id.

Definition tx_MarkSubnetDeleting (workspaceID id : string) (now : Z) : Tx Subnet :=
  wrapping (Sprintf "mark subnet %s deleting: %w" [id]) (stmt (q_MarkSubnetDeleting now id workspaceID)) ;;
  tx_GetSubnet workspaceID id.

(** ** Idempotency records *)
Record Idempotency := MkIdempotency {
  Idem_WorkspaceID : string; Idem_Operation : string; Idem_Key : string;
  Idem_PayloadHash : string; Idem_ResourceID : string; Idem_ResponseJSON : string;
  Idem_CreatedAt : Z; Idem_ExpiresAt : Z
}.

Definition tx_GetIdempotency (workspaceID operation key : string) : Tx Idempotency :=
  row ← wrapping (Sprintf "get idempotency key: %w" []) (read (q_GetIdempotency workspaceID operation key));
  mret (MkIdempotency (k_WorkspaceID row) (k_Operation row) (k_Key row) (k_PayloadHash row)
          (k_ResourceID row) (k_ResponseJson row) (k_CreatedAt row) (k_ExpiresAt row)).

Definition tx_PutIdempotency (record : Idempotency) : Tx unit :=
  wrapping (Sprintf "put idempotency key: %w" [])
    (stmt (q_PutIdempotency (Idem_WorkspaceID record) (Idem_Operation record) (Idem_Key record)
             (Idem_PayloadHash record) (Idem_ResourceID record) (Idem_ResponseJSON record)
             (Idem_CreatedAt record) (Idem_ExpiresAt record))).

(** ** Instances and their primary interface *)
Definition tx_InsertInstanceWithENI (instance : Instance_) (eni : ENI) (now : Z) : Tx unit :=
  guard_tx ((ENI_InstanceID eni ==? Instance_ID instance) &&
            (ENI_SubnetID eni ==? Instance_SubnetID instance) &&
            (ENI_WorkspaceID eni ==? Instance_WorkspaceID instance))
    (Errorf (Sprintf "insert instance %s: primary ENI identity mismatch" [Instance_ID instance])) ;;
  guard_tx (Is4 (ENI_PrivateIP eni))
    (Errorf (Sprintf "insert ENI %s: invalid IPv4 address" [ENI_ID eni])) ;;
  lift (validENIMAC (ENI_MACAddress eni)) ;;
  wrapping (Sprintf "insert instance %s: %w" [Instance_ID instance])
    (stmt (q_InsertInstance (Instance_ID instance) (Instance_WorkspaceID instance)
             (Instance_SubnetID instance) (Instance_ShortIndex instance) (Instance_Name instance) now now)) ;;
  wrapping (Sprintf "insert ENI %s: %w" [ENI_ID eni])
    (stmt (q_InsertENI (ENI_ID eni) (ENI_WorkspaceID eni) (ENI_InstanceID eni) (ENI_SubnetID eni)
             (ENI_ShortIndex eni) (Addr_String (ENI_PrivateIP eni)) (ENI_MACAddress eni) now now)).

(** [netip.ParseAddr]; its several error texts are represented by one. *)
Definition parseAddr (raw : string) : result Addr :=
  of_option (Errorf (Sprintf "ParseAddr(%q): unable to parse IP" [raw])) (ParseAddr raw).

Definition instanceOfRows (row : InstanceRow) (eni : EniRow) : result Instance_ :=
  address ← wrap_err (Sprintf "decode ENI %s private address: %w" [e_ID eni]) (parseAddr (e_PrivateIp eni));
  require (Is4 address) (Errorf (Sprintf "decode ENI %s: not IPv4" [e_ID eni])) ;;
  validENIMAC (e_MacAddress eni) ;;
  Ok {| Instance_ID := i_ID row; Instance_WorkspaceID := i_WorkspaceID row;
        Instance_SubnetID := i_SubnetID row; Instance_ShortIndex := i_ShortIndex row;
        Instance_Name := i_Name row; Instance_InstanceType := "t3.micro";
        Instance_State := i_State row; Instance_StateReason := i_StateReason row;
        Instance_Generation := i_Generation row; Instance_ObservedGeneration := i_ObservedGeneration row;
        Instance_DeletionRequested := negb (i_DeletionRequested row =? 0);
        Instance_RuntimeID := default "" (i_RuntimeID row);
        Instance_ENI :=
          {| ENI_ID := e_ID eni; ENI_WorkspaceID := e_WorkspaceID eni; ENI_InstanceID := e_InstanceID eni;
             ENI_SubnetID := e_SubnetID eni; ENI_ShortIndex := e_ShortIndex eni; ENI_PrivateIP := address;
             ENI_MACAddress := e_MacAddress eni; ENI_Generation := e_Generation eni;
             ENI_ObservedGeneration := e_ObservedGeneration eni; ENI_State := e_State eni;
             ENI_StateReason := e_StateReason eni |} |}.

Definition tx_instanceFromRow (row : InstanceRow) : Tx Instance_ :=
  eni ← wrapping (Sprintf "get primary ENI for %s: %w" [i_ID row])
          (read (q_GetPrimaryENI (i_ID row) (i_WorkspaceID row)));
  lift (instanceOfRows row eni).

Definition tx_GetInstance (workspaceID id : string) : Tx Instance_ :=
  row ← wrapping (Sprintf "get instance %s: %w" [id]) (read (q_GetInstance id workspaceID));
  tx_instanceFromRow row.
Definition store_GetInstance (flt : fault) (workspaceID id : string) (d : DB) : result Instance_ :=
  (WithTx flt (tx_GetInstance workspaceID id) d).1.

Definition tx_GetInstanceByName (workspaceID name : string) : Tx Instance_ :=
  row ← wrapping (Sprintf "get instance name %q: %w" [name]) (read (q_GetInstanceByName workspaceID name));
  tx_instanceFromRow row.

Definition store_ListInstancePage (flt : fault) (workspaceID afterID : string) (limit : Z) (d : DB)
    : result (list Instance_) :=
  (WithTx flt
     (rows ← wrapping (Sprintf "list instances: %w" []) (read (q_ListInstancePage workspaceID afterID limit));
      mapM tx_instanceFromRow rows) d).1.

Definition decodeAddress (raw : string) : result Addr :=
  address ← wrap_err (Sprintf "decode ENI private address %q: %w" [raw]) (parseAddr raw);
  require (Is4 address) (Errorf (Sprintf "decode ENI private address %q: not IPv4" [raw])) ;;
  Ok address.

Definition tx_ENIAddresses (subnetID : string) : Tx (gset Addr) :=
  rows ← wrapping (Sprintf "list ENI addresses in %s: %w" [subnetID]) (read (q_ListENIAddresses subnetID));
  used ← lift (mapM decodeAddress rows);
  mret (list_to_set used).

Definition tx_MarkInstanceTerminating (workspaceID id : string) (now : Z) : Tx unit :=
  wrapping (Sprintf "mark instance %s terminating: %w" [id]) (stmt (q_MarkInstanceTerminating now id workspaceID)).

Definition store_RecordRuntimeID (flt : fault) (instanceID : string) (generation : Z) (runtimeID : string)
    (d : DB) : result unit * DB :=
  if runtimeID ==? "" then (Err (Errorf (Sprintf "record instance %s runtime: empty ID" [instanceID])), d)
  else
    match autocommit flt (wrapping (Sprintf "record instance %s runtime: %w" [instanceID])
            (stmt (q_RecordRuntimeID runtimeID instanceID generation))) d with
    | (Ok count, d') => (require (count =? 1) ErrStaleSnapshot, d')
    | (Err e, d') => (Err e, d')
    end.

Definition store_RetainTerminatingRuntimeID (flt : fault) (instanceID runtimeID : string) (d : DB)
    : result unit * DB :=
  if runtimeID ==? "" then (Err (Errorf (lit "cannot retain an empty runtime ID")), d)
  else
    match autocommit flt (wrapping (Sprintf "retain terminating runtime %s: %w" [instanceID])
            (stmt (q_RetainTerminatingRuntimeID runtimeID instanceID))) d with
    | (Ok count, d') => (require (count =? 1) ErrStaleSnapshot, d')
    | (Err e, d') => (Err e, d')
    end.

(** ** Recording what the reconcilers observed *)
Definition tx_recordVPCStatus (vpc : VPC) (state : State) (reason : string) (observed : bool) (now : Z)
    : Tx unit :=
  let generation := if observed then VPC_Generation vpc else VPC_ObservedGeneration vpc in
  if (VPC_State vpc ==? state) && (VPC_StateReason vpc ==? reason) &&
     (VPC_ObservedGeneration vpc =? generation)
  then mret tt
  else
    wrapping (Sprintf "update VPC %s status: %w" [VPC_ID vpc])
      (stmt (q_UpdateVPCStatus state reason generation now (VPC_ID vpc) (VPC_WorkspaceID vpc))) ;;
    tx_AppendEvent (MkEvent 0 (VPC_WorkspaceID vpc) "vpc" (VPC_ID vpc) "status" state
                      (VPC_Generation vpc) reason now).

Definition tx_recordSubnetStatus (subnet : Subnet) (state : State) (reason : string) (observed : bool)
    (now : Z) : Tx unit :=
  let generation := if observed then Subnet_Generation subnet else Subnet_ObservedGeneration subnet in
  if (Subnet_State subnet ==? state) && (Subnet_StateReason subnet ==? reason) &&
     (Subnet_ObservedGeneration subnet =? generation)
  then mret tt
  else
    wrapping (Sprintf "update subnet %s status: %w" [Subnet_ID subnet])
      (stmt (q_UpdateSubnetStatus state reason generation now (Subnet_ID subnet) (Subnet_WorkspaceID subnet))) ;;
    tx_AppendEvent (MkEvent 0 (Subnet_WorkspaceID subnet) "subnet" (Subnet_ID subnet) "status" state
                      (Subnet_Generation subnet) reason now).

Definition sameDesiredChild (c a : Subnet) : bool :=
  (Subnet_ID c ==? Subnet_ID a) && (Subnet_Generation c =? Subnet_Generation a) &&
  Bool.eqb (Subnet_DeletionRequested c) (Subnet_DeletionRequested a) &&
  (Subnet_ShortIndex c =? Subnet_ShortIndex a).
Definition sameDesiredChildren (current applied : list Subnet) : bool :=
  (length current =? length applied)%nat &&
  forallb (λ ca, sameDesiredChild ca.1 ca.2) (zip current applied).

(** The loop over the children of a VPC. *)
Definition recordChild (state : State) (reason : string) (ok : bool) (now : Z) (child : Subnet) : Tx unit :=
  if Subnet_DeletionRequested child && ok then
    wrapping (Sprintf "delete subnet row %s: %w" [Subnet_ID child])
      (stmt (q_DeleteSubnet (Subnet_ID child) (Subnet_WorkspaceID child))) ;;
    tx_AppendEvent (MkEvent 0 (Subnet_WorkspaceID child) "subnet" (Subnet_ID child) "deleted" "deleted"
                      (Subnet_Generation child) "" now)
  else tx_recordSubnetStatus child state reason ok now.
Fixpoint recordChildren (state : State) (reason : string) (ok : bool) (now : Z) (children : list Subnet)
    : Tx unit :=
  match children with
  | [] => mret tt
  | child :: children' =>
      recordChild state reason ok now child ;; recordChildren state reason ok now children'
  end.

(** The transaction of [RecordTopology]; [effectErr] is the engine's error. *)
Definition recordTopology (vpc : VPC) (applied : list Subnet) (effectErr : option error) (now : Z)
    : Tx unit :=
  current ← or_missing ErrStaleSnapshot (tx_GetVPC (VPC_WorkspaceID vpc) (VPC_ID vpc));
  guard_tx ((VPC_Generation current =? VPC_Generation vpc) &&
            Bool.eqb (VPC_DeletionRequested current) (VPC_DeletionRequested vpc) &&
            (VPC_ShortIndex current =? VPC_ShortIndex vpc)) ErrStaleSnapshot ;;
  children ← tx_ListSubnetsByVPC (VPC_ID vpc);
  guard_tx (sameDesiredChildren children applied) ErrStaleSnapshot ;;
  let ok := bool_decide (effectErr = None) in
  if VPC_DeletionRequested vpc && ok then
    guard_tx (length children =? 0)%nat
      (Errorf (Sprintf "cannot delete VPC %s with subnets" [VPC_ID vpc])) ;;
    wrapping (Sprintf "delete VPC row %s: %w" [VPC_ID vpc])
      (stmt (q_DeleteVPC (VPC_ID vpc) (VPC_WorkspaceID vpc))) ;;
    tx_AppendEvent (MkEvent 0 (VPC_WorkspaceID vpc) "vpc" (VPC_ID vpc) "deleted" "deleted"
                      (VPC_Generation vpc) "" now)
  else
    let state := if ok then StateAvailable else StateFailed in
    let reason := match effectErr with None => "" | Some e => error_text e end in
    tx_recordVPCStatus current state reason ok now ;;
    recordChildren state reason ok now children.

(** [ctxErr] is [ctx.Err()] at the entry of the call. *)
Definition store_RecordTopology (ctxErr : option error) (flt : fault) (now : Z) (vpc : VPC)
    (applied : list Subnet) (effectErr : option error) (d : DB) : result unit * DB :=
  match ctxErr with
  | Some e => (Err e, d)
  | None => WithTx flt (recordTopology vpc applied effectErr now) d
  end.

Definition sameInstanceDecision (current snapshot : Instance_) : bool :=
  (Instance_ID current ==? Instance_ID snapshot) &&
  (Instance_WorkspaceID current ==? Instance_WorkspaceID snapshot) &&
  (Instance_Generation current =? Instance_Generation snapshot) &&
  Bool.eqb (Instance_DeletionRequested current) (Instance_DeletionRequested snapshot) &&
  (Instance_SubnetID current ==? Instance_SubnetID snapshot) &&
  (Instance_ShortIndex current =? Instance_ShortIndex snapshot) &&
  (Instance_RuntimeID current ==? Instance_RuntimeID snapshot) &&
  (ENI_ID (Instance_ENI current) ==? ENI_ID (Instance_ENI snapshot)) &&
  (ENI_ShortIndex (Instance_ENI current) =? ENI_ShortIndex (Instance_ENI snapshot)) &&
  (ENI_PrivateIP (Instance_ENI current) ==? ENI_PrivateIP (Instance_ENI snapshot)).

Definition recordInstance (snapshot : Instance_) (status : InstanceState) (reason : string)
    (observed : bool) (now : Z) : Tx unit :=
  current ← or_missing ErrStaleSnapshot
              (tx_GetInstance (Instance_WorkspaceID snapshot) (Instance_ID snapshot));
  guard_tx (sameInstanceDecision current snapshot) ErrStaleSnapshot ;;
  let generation := if observed then Instance_Generation current else Instance_ObservedGeneration current in
  if (Instance_State current ==? status) && (Instance_StateReason current ==? reason) &&
     (Instance_ObservedGeneration current =? generation)
  then mret tt
  else
    wrapping (Sprintf "record instance %s status: %w" [Instance_ID current])
      (stmt (q_UpdateInstanceStatus status reason generation now (Instance_ID current)
               (Instance_WorkspaceID current))) ;;
    (if Instance_DeletionRequested current then mret tt
     else
       let eni := Instance_ENI current in
       let eniState := if observed then StateAvailable else StateFailed in
       let eniGeneration := if observed then ENI_Generation eni else ENI_ObservedGeneration eni in
       wrapping (Sprintf "record ENI %s status: %w" [ENI_ID eni])
         (stmt (q_UpdateInstanceENIStatus eniState reason eniGeneration now (ENI_ID eni)
                  (Instance_WorkspaceID current)))) ;;
    tx_AppendEvent (MkEvent 0 (Instance_WorkspaceID current) "instance" (Instance_ID current) "status"
                      status (Instance_Generation current) reason now).

Definition store_RecordInstance (flt : fault) (now : Z) (snapshot : Instance_) (status : InstanceState)
    (reason : string) (observed : bool) (d : DB) : result unit * DB :=
  if (status !=? InstanceRunning) && (status !=? InstanceFailed)
  then (Err (Errorf (Sprintf "invalid reconciled instance status %q" [status])), d)
  else if observed && ((status !=? InstanceRunning) || (Instance_RuntimeID snapshot ==? "") ||
                       Instance_DeletionRequested snapshot)
  then (Err (Errorf (Sprintf "cannot observe instance %s as %s" [Instance_ID snapshot; status])), d)
  else WithTx flt (recordInstance snapshot status reason observed now) d.

Definition finishInstanceTermination (snapshot : Instance_) (now : Z) : Tx unit :=
  current ← or_missing ErrStaleSnapshot
              (tx_GetInstance (Instance_WorkspaceID snapshot) (Instance_ID snapshot));
  guard_tx (sameInstanceDecision current snapshot && Instance_DeletionRequested current) ErrStaleSnapshot ;;
  wrapping (Sprintf "delete ENI %s row: %w" [ENI_ID (Instance_ENI current)])
    (stmt (q_DeleteInstanceENI (ENI_ID (Instance_ENI current)) (Instance_WorkspaceID current))) ;;
  wrapping (Sprintf "delete instance %s row: %w" [Instance_ID current])
    (stmt (q_DeleteInstance (Instance_ID current) (Instance_WorkspaceID current))) ;;
  tx_AppendEvent (MkEvent 0 (Instance_WorkspaceID current) "instance" (Instance_ID current) "deleted"
                    "deleted" (Instance_Generation current) "" now).

Definition store_FinishInstanceTermination (flt : fault) (now : Z) (snapshot : Instance_) (d : DB)
    : result unit * DB :=
  WithTx flt (finishInstanceTermination snapshot now) d.
