(* ===== verification/Idempotency.v ===== *)
(** Idempotent creates: [internal/service/idempotency.go].

    A create with a key stores its result as a JSON snapshot beside the rows it
    writes; a later create with the same key and payload returns that snapshot. *)

From S2P Require Import Prelude Errors GoStrings Encodings Utf8 Validate Sha256 Json Snapshot.
From S2P Require Import Schema Tx Store.
Local Open Scope Z_scope.

Definition validateIdempotencyKey (key : string) : result unit :=
  if key ==? "" then Ok tt
  else if (255 <? slen key) || negb (ValidString key)
  then Err (invalidParameter (lit "Idempotency-Key must be valid UTF-8 and at most 255 bytes"))
  else if existsb IsControl (range_runes key)
  then Err (invalidParameter (lit "Idempotency-Key must not contain control characters"))
  else Ok tt.

(** The canonical form of a request is the JSON list of its fields. *)
Definition canonicalJSON (fields : list string) : list Z :=
  encode (JArr (List.map (λ f, JStr (bytes f)) fields)).
Definition hashPayload (fields : list string) : result string :=
  Ok (hex_EncodeToString (Sum256 (canonicalJSON fields))).

(** [v, err := m; if errors.Is(err, sql.ErrNoRows) { v is absent }] *)
Definition optional {A} (m : Tx A) : Tx (option A) := λ s,
  match m s with
  | (Ok a, s') => (Ok (Some a), s')
  | (Err e, s') => (if errors_Is e ErrNoRows then Ok None else Err e, s')
  end.

Definition parameterMismatch : error :=
  ErrService (MkError "IdempotentParameterMismatch"
    (lit "Idempotency-Key was already used for different parameters") "" 409).

Definition day : Z := 86400.

Section replay.
Context {T : Type} `{Snapshot T}.

Definition loadReplay (operation key hash : string) (now : Z) : Tx (option T) :=
  if key ==? "" then mret None
  else
    found ← optional (tx_GetIdempotency "default" operation key);
    match found with
    | None => mret None
    | Some record =>
        if Idem_ExpiresAt record <=? now then mret None
        else
          guard_tx (Idem_PayloadHash record ==? hash) parameterMismatch ;;
          result ← lift (wrap_err (Sprintf "decode original %s result: %w" [operation])
                           (Unmarshal (Idem_ResponseJSON record)));
          mret (Some result)
    end.

Definition saveReplay (operation key hash resourceID : string) (result : T) (now : Z) : Tx unit :=
  if key ==? "" then mret tt
  else
    snapshot ← lift (wrap_err (Sprintf "encode original %s result: %w" [operation]) (Marshal result));
    tx_PutIdempotency (MkIdempotency "default" operation key hash resourceID snapshot now (now + day)).
End replay.

(** ** Successful runs *)
Lemma optional_Ok {A} (m : Tx A) s o s' :
  optional m s = (Ok o, s') →
  (∃ a, o = Some a ∧ m s = (Ok a, s')) ∨
  (∃ e, o = None ∧ m s = (Err e, s') ∧ errors_Is e ErrNoRows = true).
Proof.
  unfold optional. destruct (m s) as [[a|e] s1]; [naive_solver|].
  destruct (errors_Is e ErrNoRows) eqn:?; naive_solver.
Qed.
