(* ===== verification/Refine.v ===== *)
(** The store's statements refine the abstract machine: a successful run of a
    transaction of [Store.v] is a sequence of transitions of [Transitions.v]. *)

From S2P Require Import Prelude Errors GoStrings NetIP Validate Ipam Mac Model Snapshot.
From S2P Require Import Schema Tx Transitions Store Idempotency.
Local Open Scope Z_scope.

(** ** Computations that only read *)
Class ReadOnly {A} (m : Tx A) : Prop := read_only s : tx_db (m s).2 = tx_db s.

Lemma read_only_run {A} (m : Tx A) `{!ReadOnly m} s r s' : m s = (r, s') → tx_db s' = tx_db s.
Proof. intros H. specialize (read_only (m := m) s). by rewrite H. Qed.

#[export] Instance ReadOnly_tick : ReadOnly tick.
Proof. intros s. unfold tick. destruct (tx_fault s) as [[[|n] msg]|]; done. Qed.
#[export] Instance ReadOnly_ret {A} (a : A) : ReadOnly (mret a).
Proof. done. Qed.
#[export] Instance ReadOnly_lift {A} (r : result A) : ReadOnly (lift r).
Proof. done. Qed.
#[export] Instance ReadOnly_guard b e : ReadOnly (guard_tx b e).
Proof. done. Qed.
#[export] Instance ReadOnly_bind {A B} (m : Tx A) (f : A → Tx B) :
  ReadOnly m → (∀ a, ReadOnly (f a)) → ReadOnly (m ≫= f).
Proof.
  intros Hm Hf s. specialize (Hm s). unfold mbind, tx_bind.
  destruct (m s) as [[a|e] s1]; [|done]. simpl in Hm. by rewrite (Hf a s1).
Qed.
#[export] Instance ReadOnly_scan {A} (q : query A) : ReadOnly (scan_rows q).
Proof. done. Qed.
#[export] Instance ReadOnly_read {A} (q : query A) : ReadOnly (read q).
Proof. unfold read. apply _. Qed.
#[export] Instance ReadOnly_wrapping {A} t (m : Tx A) : ReadOnly m → ReadOnly (wrapping t m).
Proof. intros Hm s. specialize (Hm s). unfold wrapping. by destruct (m s). Qed.
#[export] Instance ReadOnly_or_missing {A} e (m : Tx A) : ReadOnly m → ReadOnly (or_missing e m).
Proof. intros Hm s. specialize (Hm s). unfold or_missing. by destruct (m s) as [[] ?]. Qed.
#[export] Instance ReadOnly_absent {A} e (m : Tx A) : ReadOnly m → ReadOnly (absent e m).
Proof. intros Hm s. specialize (Hm s). unfold absent. by destruct (m s) as [[] ?]. Qed.
#[export] Instance ReadOnly_optional {A} (m : Tx A) : ReadOnly m → ReadOnly (optional m).
Proof. intros Hm s. specialize (Hm s). unfold optional. by destruct (m s) as [[] ?]. Qed.

#[export] Instance ReadOnly_GetVPC ws id : ReadOnly (tx_GetVPC ws id).
Proof. unfold tx_GetVPC. apply _. Qed.
#[export] Instance ReadOnly_GetVPCByName ws name : ReadOnly (tx_GetVPCByName ws name).
Proof. unfold tx_GetVPCByName. apply _. Qed.
#[export] Instance ReadOnly_GetSubnet ws id : ReadOnly (tx_GetSubnet ws id).
Proof. unfold tx_GetSubnet. apply _. Qed.
#[export] Instance ReadOnly_GetSubnetByName ws name : ReadOnly (tx_GetSubnetByName ws name).
Proof. unfold tx_GetSubnetByName. apply _. Qed.
#[export] Instance ReadOnly_ListSubnetsByVPC id : ReadOnly (tx_ListSubnetsByVPC id).
Proof. unfold tx_ListSubnetsByVPC. apply _. Qed.
#[export] Instance ReadOnly_CountInstances id : ReadOnly (tx_CountInstancesInSubnet id).
Proof. unfold tx_CountInstancesInSubnet. apply _. Qed.
#[export] Instance ReadOnly_instanceFromRow row : ReadOnly (tx_instanceFromRow row).
Proof. unfold tx_instanceFromRow. apply _. Qed.
#[export] Instance ReadOnly_GetInstance ws id : ReadOnly (tx_GetInstance ws id).
Proof. unfold tx_GetInstance. apply _. Qed.
#[export] Instance ReadOnly_GetInstanceByName ws name : ReadOnly (tx_GetInstanceByName ws name).
Proof. unfold tx_GetInstanceByName. apply _. Qed.
#[export] Instance ReadOnly_ENIAddresses id : ReadOnly (tx_ENIAddresses id).
Proof. unfold tx_ENIAddresses. apply _. Qed.
#[export] Instance ReadOnly_GetIdempotency ws op key : ReadOnly (tx_GetIdempotency ws op key).
Proof. unfold tx_GetIdempotency. apply _. Qed.
#[export] Instance ReadOnly_loadReplay `{Snapshot T} op key hash now :
  ReadOnly (loadReplay (T := T) op key hash now).
Proof.
  unfold loadReplay. destruct (key ==? ""); [apply _|].
  apply ReadOnly_bind; [apply _|]. intros [rec|]; [|apply _].
  destruct (Idem_ExpiresAt rec <=? now); apply _.
Qed.

(** Replace the database after a read by the one before it. *)
Ltac same_db :=
  repeat match goal with
  | H : ?m ?s = (_, ?s') |- _ =>
      lazymatch goal with
      | _ : tx_db s' = tx_db s |- _ => fail
      | _ => let E := fresh "Edb" in
             assert (tx_db s' = tx_db s) as E by (by eapply (read_only_run m))
      end
  end.

(** ** Writes *)

(** A successful statement: its constraints hold and the new database is known. *)
Ltac inv_stmt :=
  inv_tx; unfold check, primary_key, unique, foreign_key in *; inv_ok; simplify_eq/=;
  repeat match goal with
  | H : negb (any _ _) = true |- _ => apply negb_true_iff in H; rewrite any_false in H
  end; reflect_bools.
Ltac new_db :=
  match goal with H : ?X = tx_db ?s |- context [tx_db ?s] => rewrite <- H end.

(** What the UNIQUE constraints of an insertion say of an existing row. *)
Ltac use_unique Hr :=
  repeat match goal with
  | Hf : ∀ k r, _ !! k = Some r → _ = false |- _ =>
      let H := fresh in pose proof (Hf _ _ Hr) as H; clear Hf; cbn beta in H;
      try apply andb_false_iff in H as [H|H]; reflect_bools
  end; try done; try congruence.

Lemma AppendEvent_inv e s u s' :
  tx_AppendEvent e s = (Ok u, s') →
  event_seq (tx_db s) < 2 ^ 63 - 1 ∧
  tx_db s' = set_events (event_seq (tx_db s) + 1)
    (events (tx_db s) ++
      [MkEventRow (event_seq (tx_db s) + 1) (Event_WorkspaceID e) (Event_ResourceType e)
         (Event_ResourceID e) (Event_Action e) (Event_State e) (Event_Generation e)
         (Event_Message e) (Event_CreatedAt e)]) (tx_db s).
Proof.
  unfold tx_AppendEvent, q_InsertEvent, next_id. intros. inv_stmt. done.
Qed.

Lemma AppendEvent_steps e s u s' :
  tx_AppendEvent e s = (Ok u, s') → steps (tx_db s) (tx_db s').
Proof. intros [? ->]%AppendEvent_inv. by apply rtc_once, t_event. Qed.

Lemma PutIdempotency_inv r s u s' :
  tx_PutIdempotency r s = (Ok u, s') →
  tx_db s' = set_idempotency (<[(Idem_WorkspaceID r, Idem_Operation r, Idem_Key r) :=
    MkIdempotencyRequest (Idem_WorkspaceID r) (Idem_Operation r) (Idem_Key r) (Idem_PayloadHash r)
      (Idem_ResourceID r) (Idem_CreatedAt r) (Idem_ExpiresAt r) (Idem_ResponseJSON r)]>
    (idempotency (tx_db s))) (tx_db s).
Proof. unfold tx_PutIdempotency, q_PutIdempotency. intros. inv_stmt. done. Qed.

Lemma saveReplay_steps `{Snapshot T} op key hash rid (x : T) now s u s' :
  saveReplay op key hash rid x now s = (Ok u, s') → steps (tx_db s) (tx_db s').
Proof.
  unfold saveReplay. destruct (key ==? ""); intros; inv_tx; [apply rtc_refl|].
  match goal with H : tx_PutIdempotency _ _ = _ |- _ => apply PutIdempotency_inv in H as -> end.
  apply rtc_once, t_idempotency.
Qed.

Lemma AllocateIndex_inv kind rid s n s' :
  tx_AllocateIndex kind rid s = (Ok n, s') →
  n = kernel_seq (tx_db s) + 1 ∧ kernel_seq (tx_db s) < 2 ^ 63 - 1 ∧
  (∀ m k, kernel_indexes (tx_db s) !! m = Some k → ki_ResourceID k ≠ rid) ∧
  tx_db s' = set_kernel n (<[n := MkKernelIndex n kind rid]> (kernel_indexes (tx_db s))) (tx_db s).
Proof.
  unfold tx_AllocateIndex, q_InsertKernelIndex, next_id. intros. inv_stmt.
  split_and!; auto. intros m k Hk. match goal with Hf : ∀ _ _, _ → _ |- _ => apply Hf in Hk end. by reflect_bools.
Qed.

Lemma AllocateIndex_steps kind rid s n s' :
  tx_AllocateIndex kind rid s = (Ok n, s') →
  steps (tx_db s) (tx_db s') ∧ owned (tx_db s') n kind rid.
Proof.
  intros (-> & Hn & Hfresh & ->)%AllocateIndex_inv. split; [by apply rtc_once, t_index|].
  unfold owned. simpl. by rewrite lookup_insert_eq.
Qed.

Lemma InsertVPC_inv v now s u s' :
  tx_InsertVPC v now s = (Ok u, s') →
  name_check (VPC_Name v) = true ∧ vpcs (tx_db s) !! VPC_ID v = None ∧
  (∀ id r, vpcs (tx_db s) !! id = Some r → v_WorkspaceID r = VPC_WorkspaceID v → v_Name r ≠ VPC_Name v) ∧
  tx_db s' = set_vpcs (<[VPC_ID v := MkVpc (VPC_ID v) (VPC_WorkspaceID v) (VPC_ShortIndex v) (VPC_Name v)
    (Prefix_String (VPC_CIDRBlock v)) 1 0 "pending" "" now now 0]> (vpcs (tx_db s))) (tx_db s).
Proof.
  unfold tx_InsertVPC, q_InsertVPC. intros. inv_stmt. split_and!; auto.
  - by apply eq_None_not_Some.
  - intros id r Hr Hw Hn. use_unique Hr.
Qed.

Lemma InsertSubnet_inv v now s u s' :
  tx_InsertSubnet v now s = (Ok u, s') →
  name_check (Subnet_Name v) = true ∧ zone_check (Subnet_AvailabilityZone v) = true ∧
  subnets (tx_db s) !! Subnet_ID v = None ∧
  (∀ id r, subnets (tx_db s) !! id = Some r → s_WorkspaceID r = Subnet_WorkspaceID v →
     s_Name r ≠ Subnet_Name v) ∧
  tx_db s' = set_subnets (<[Subnet_ID v := MkSubnetRow (Subnet_ID v) (Subnet_WorkspaceID v) (Subnet_VPCID v)
    (Subnet_ShortIndex v) (Subnet_Name v) (Prefix_String (Subnet_CIDRBlock v)) (Subnet_AvailabilityZone v)
    1 0 "pending" "" now now 0]> (subnets (tx_db s))) (tx_db s).
Proof.
  unfold tx_InsertSubnet, q_InsertSubnet. intros. inv_stmt. split_and!; auto.
  - by apply eq_None_not_Some.
  - intros id r Hr Hw Hn. use_unique Hr.
Qed.

Lemma InsertInstanceWithENI_inv i e now s u s' :
  tx_InsertInstanceWithENI i e now s = (Ok u, s') →
  name_check (Instance_Name i) = true ∧ instances (tx_db s) !! Instance_ID i = None ∧
  enis (tx_db s) !! ENI_ID e = None ∧
  ENI_InstanceID e = Instance_ID i ∧ ENI_SubnetID e = Instance_SubnetID i ∧
  ENI_WorkspaceID e = Instance_WorkspaceID i ∧
  is_Ok (validENIMAC (ENI_MACAddress e)) = true ∧
  (∀ id r, instances (tx_db s) !! id = Some r → i_WorkspaceID r = Instance_WorkspaceID i →
     i_Name r ≠ Instance_Name i) ∧
  (∀ id r, enis (tx_db s) !! id = Some r → e_MacAddress r ≠ ENI_MACAddress e) ∧
  (∀ id r, enis (tx_db s) !! id = Some r → e_SubnetID r = ENI_SubnetID e →
     e_PrivateIp r ≠ Addr_String (ENI_PrivateIP e)) ∧
  tx_db s' =
    set_enis (<[ENI_ID e := MkEniRow (ENI_ID e) (ENI_WorkspaceID e) (ENI_InstanceID e) (ENI_SubnetID e)
      (ENI_ShortIndex e) (Addr_String (ENI_PrivateIP e)) (ENI_MACAddress e) 1 0 "pending" "" now now]>
      (enis (tx_db s)))
    (set_instances (<[Instance_ID i := MkInstanceRow (Instance_ID i) (Instance_WorkspaceID i)
      (Instance_SubnetID i) (Instance_ShortIndex i) (Instance_Name i) 1 0 "pending" "" now now 0 None]>
      (instances (tx_db s))) (tx_db s)).
Proof.
  unfold tx_InsertInstanceWithENI, q_InsertInstance, q_InsertENI. intros. inv_stmt.
  repeat match goal with H : _ = tx_db ?s1 |- _ => rewrite <- H in *; clear H end. simpl in *.
  split_and!; auto.
  - by apply eq_None_not_Some.
  - by apply eq_None_not_Some.
  - by match goal with H : validENIMAC _ = Ok _ |- _ => rewrite H end.
  - intros id r Hr Hw Hn. use_unique Hr.
  - intros id r Hr Hn. use_unique Hr.
  - intros id r Hr Hw Hn. use_unique Hr.
Qed.

(** ** Reads *)
Lemma elem_of_by_id {R} (t : gmap string R) r : r ∈ by_id t ↔ ∃ k, t !! k = Some r.
Proof.
  unfold by_id. rewrite list_elem_of_fmap. setoid_rewrite merge_sort_Permutation. split.
  - intros ([k r'] & -> & Hin). exists k. by apply elem_of_map_to_list.
  - intros [k Hk]. exists (k, r). split; [done|]. by apply elem_of_map_to_list.
Qed.

Lemma elem_of_filter_by_id {R} (f : R → bool) (t : gmap string R) r :
  r ∈ List.filter f (by_id t) ↔ f r = true ∧ ∃ k, t !! k = Some r.
Proof.
  rewrite list_elem_of_In, filter_In, <- list_elem_of_In, elem_of_by_id. tauto.
Qed.

Lemma mapM_Ok {A B} (f : A → result B) l k :
  mapM f l = Ok k → Forall2 (λ x y, f x = Ok y) l k.
Proof.
  revert k. induction l as [|x l IH]; intros k H; [injection H as <-; constructor|].
  cbn [mapM] in H. inv_ok. subst. constructor; [done|]. by apply IH.
Qed.

Lemma vpcFromRow_inv r v :
  vpcFromRow r = Ok v →
  ∃ p, ParsePrefix (v_CidrBlock r) = Some p ∧
  v = MkVPC (v_ID r) (v_WorkspaceID r) (v_Name r) p (v_ShortIndex r) (v_State r) (v_StateReason r)
        (negb (v_DeletionRequested r =? 0)) (v_Generation r) (v_ObservedGeneration r).
Proof. unfold vpcFromRow. intros. inv_ok. subst. eauto. Qed.

Lemma subnetFromRow_inv r v :
  subnetFromRow r = Ok v →
  ∃ p, ParsePrefix (s_CidrBlock r) = Some p ∧
  v = MkSubnet (s_ID r) (s_WorkspaceID r) (s_VpcID r) (s_Name r) p (s_AvailabilityZone r)
        (s_ShortIndex r) (s_State r) (s_StateReason r) (negb (s_DeletionRequested r =? 0))
        (s_Generation r) (s_ObservedGeneration r).
Proof. unfold subnetFromRow. intros. inv_ok. subst. eauto. Qed.

Lemma GetVPC_inv ws id s v s' :
  tx_GetVPC ws id s = (Ok v, s') →
  ∃ r, vpcs (tx_db s) !! id = Some r ∧ v_WorkspaceID r = ws ∧ vpcFromRow r = Ok v ∧ tx_db s' = tx_db s.
Proof. unfold tx_GetVPC, q_GetVPC. intros. inv_stmt. eauto 10. Qed.

Lemma GetSubnet_inv ws id s v s' :
  tx_GetSubnet ws id s = (Ok v, s') →
  ∃ r, subnets (tx_db s) !! id = Some r ∧ s_WorkspaceID r = ws ∧ subnetFromRow r = Ok v ∧
       tx_db s' = tx_db s.
Proof. unfold tx_GetSubnet, q_GetSubnet. intros. inv_stmt. eauto 10. Qed.

Lemma instanceOfRows_inv r e i :
  instanceOfRows r e = Ok i →
  ∃ a, ParseAddr (e_PrivateIp e) = Some a ∧ Is4 a = true ∧
  i = MkInstance (i_ID r) (i_WorkspaceID r) (i_SubnetID r) (i_ShortIndex r) (i_Name r) "t3.micro"
        (i_State r) (i_StateReason r) (i_Generation r) (i_ObservedGeneration r)
        (negb (i_DeletionRequested r =? 0)) (default "" (i_RuntimeID r))
        (MkENI (e_ID e) (e_WorkspaceID e) (e_InstanceID e) (e_SubnetID e) (e_ShortIndex e) a
           (e_MacAddress e) (e_Generation e) (e_ObservedGeneration e) (e_State e) (e_StateReason e)).
Proof. unfold instanceOfRows, parseAddr. intros. inv_ok. subst. eauto. Qed.

Lemma GetPrimaryENI_inv inst ws d e :
  q_GetPrimaryENI inst ws d = Ok e →
  e_InstanceID e = inst ∧ e_WorkspaceID e = ws ∧ ∃ eid, enis d !! eid = Some e.
Proof.
  unfold q_GetPrimaryENI. intros. inv_ok.
  match goal with H : select_one _ _ = _ |- _ => apply select_one_Some in H as [? ?] end.
  by reflect_bools.
Qed.

Lemma GetInstance_inv ws id s i s' :
  tx_GetInstance ws id s = (Ok i, s') →
  ∃ r eid e, instances (tx_db s) !! id = Some r ∧ i_WorkspaceID r = ws ∧
    enis (tx_db s) !! eid = Some e ∧ e_InstanceID e = i_ID r ∧ e_WorkspaceID e = ws ∧
    instanceOfRows r e = Ok i ∧ tx_db s' = tx_db s.
Proof.
  unfold tx_GetInstance, tx_instanceFromRow, q_GetInstance. intros. inv_stmt.
  match goal with H : q_GetPrimaryENI _ _ _ = _ |- _ => apply GetPrimaryENI_inv in H as (? & ? & eid & ?) end.
  repeat match goal with H : tx_db _ = tx_db _ |- _ => rewrite H in *; clear H end.
  eexists _, eid, _. split_and!; eauto; congruence.
Qed.

Lemma ListSubnetsByVPC_inv vpc s l s' :
  tx_ListSubnetsByVPC vpc s = (Ok l, s') →
  tx_db s' = tx_db s ∧
  Forall2 (λ r x, subnetFromRow r = Ok x)
    (List.filter (λ r, s_VpcID r ==? vpc) (by_id (subnets (tx_db s)))) l.
Proof.
  unfold tx_ListSubnetsByVPC, q_ListSubnetsByVPC. intros. inv_stmt. split; [done|]. by apply mapM_Ok.
Qed.

(** Every subnet of the VPC is in the list. *)
Lemma listed_subnet vpc d l id r :
  Forall2 (λ r x, subnetFromRow r = Ok x) (List.filter (λ r, s_VpcID r ==? vpc) (by_id (subnets d))) l →
  subnets d !! id = Some r → s_VpcID r = vpc → ∃ x, x ∈ l ∧ subnetFromRow r = Ok x.
Proof.
  intros Hl Hr Hv. assert (r ∈ List.filter (λ r, s_VpcID r ==? vpc) (by_id (subnets d))) as Hin.
  { apply elem_of_filter_by_id. split; [by apply beq_true|eauto]. }
  apply list_elem_of_lookup in Hin as [n Hn]. eapply Forall2_lookup_l in Hl as (x & Hx & ?); [|done].
  exists x. split; [|done]. by eapply list_elem_of_lookup_2.
Qed.

Lemma no_listed_subnets vpc d :
  Forall2 (λ r x, subnetFromRow r = Ok x) (List.filter (λ r, s_VpcID r ==? vpc) (by_id (subnets d))) [] →
  no_subnets d vpc.
Proof.
  intros Hl id r Hr Hv. destruct (listed_subnet _ _ _ _ _ Hl Hr Hv) as (x & Hx & _). by apply not_elem_of_nil in Hx.
Qed.

Lemma CountInstances_zero subnet s n s' :
  tx_CountInstancesInSubnet subnet s = (Ok n, s') → n = 0 → no_instances (tx_db s) subnet.
Proof.
  unfold tx_CountInstancesInSubnet, q_CountInstancesInSubnet. intros. inv_stmt.
  intros id r Hr E.
  assert (r ∈ List.filter (λ r, i_SubnetID r ==? subnet) (rows (instances (tx_db s)))) as Hin.
  { rewrite list_elem_of_In, filter_In, <- list_elem_of_In, elem_of_rows, beq_true. eauto. }
  destruct (List.filter _ _); [by apply not_elem_of_nil in Hin|]. simpl in *. lia.
Qed.

(** ** Updates and deletions of a row that is there *)
Section hits.
Implicit Types d : DB.

Lemma q_GetVPC_hit d id ws r : vpcs d !! id = Some r → v_WorkspaceID r = ws → q_GetVPC id ws d = Ok r.
Proof. intros Hr <-. unfold q_GetVPC. rewrite Hr. simpl. by rewrite beq_refl. Qed.
Lemma q_GetSubnet_hit d id ws r :
  subnets d !! id = Some r → s_WorkspaceID r = ws → q_GetSubnet id ws d = Ok r.
Proof. intros Hr <-. unfold q_GetSubnet. rewrite Hr. simpl. by rewrite beq_refl. Qed.
Lemma q_GetInstance_hit d id ws r :
  instances d !! id = Some r → i_WorkspaceID r = ws → q_GetInstance id ws d = Ok r.
Proof. intros Hr <-. unfold q_GetInstance. rewrite Hr. simpl. by rewrite beq_refl. Qed.

Lemma UpdateVPCStatus_hit d id ws r state reason observed now u d' :
  vpcs d !! id = Some r → v_WorkspaceID r = ws →
  q_UpdateVPCStatus state reason observed now id ws d = Ok (u, d') →
  d' = set_vpcs (<[id := vpc_with_status r state reason observed now]> (vpcs d)) d.
Proof.
  intros Hr Hw. unfold q_UpdateVPCStatus. rewrite (q_GetVPC_hit d id ws r) by done.
  intros. inv_ok. done.
Qed.

Lemma UpdateSubnetStatus_hit d id ws r state reason observed now u d' :
  subnets d !! id = Some r → s_WorkspaceID r = ws →
  q_UpdateSubnetStatus state reason observed now id ws d = Ok (u, d') →
  d' = set_subnets (<[id := subnet_with_status r state reason observed now]> (subnets d)) d.
Proof.
  intros Hr Hw. unfold q_UpdateSubnetStatus. rewrite (q_GetSubnet_hit d id ws r) by done.
  intros. inv_ok. done.
Qed.

Lemma UpdateInstanceStatus_hit d id ws r state reason observed now u d' :
  instances d !! id = Some r → i_WorkspaceID r = ws →
  q_UpdateInstanceStatus state reason observed now id ws d = Ok (u, d') →
  d' = set_instances (<[id := instance_with_status r state reason observed now]> (instances d)) d.
Proof.
  intros Hr Hw. unfold q_UpdateInstanceStatus. rewrite (q_GetInstance_hit d id ws r) by done.
  intros. inv_ok. done.
Qed.

Lemma UpdateENIStatus_hit d id ws r state reason observed now u d' :
  enis d !! id = Some r → e_WorkspaceID r = ws →
  q_UpdateInstanceENIStatus state reason observed now id ws d = Ok (u, d') →
  d' = set_enis (<[id := eni_with_status r state reason observed now]> (enis d)) d.
Proof.
  intros Hr <-. unfold q_UpdateInstanceENIStatus. rewrite Hr, beq_refl. intros. inv_ok. done.
Qed.

Lemma MarkVPCDeleting_hit d id ws r now u d' :
  vpcs d !! id = Some r → v_WorkspaceID r = ws → v_DeletionRequested r = 0 →
  q_MarkVPCDeleting now id ws d = Ok (u, d') →
  d' = set_vpcs (<[id := vpc_deleting r now]> (vpcs d)) d.
Proof.
  intros Hr Hw Hd. unfold q_MarkVPCDeleting. rewrite (q_GetVPC_hit d id ws r), Hd by done.
  simpl. intros. inv_ok. done.
Qed.

Lemma MarkSubnetDeleting_hit d id ws r now u d' :
  subnets d !! id = Some r → s_WorkspaceID r = ws → s_DeletionRequested r = 0 →
  q_MarkSubnetDeleting now id ws d = Ok (u, d') →
  d' = set_subnets (<[id := subnet_deleting r now]> (subnets d)) d.
Proof.
  intros Hr Hw Hd. unfold q_MarkSubnetDeleting. rewrite (q_GetSubnet_hit d id ws r), Hd by done.
  simpl. intros. inv_ok. done.
Qed.

Lemma MarkInstanceTerminating_hit d id ws r now u d' :
  instances d !! id = Some r → i_WorkspaceID r = ws → i_DeletionRequested r = 0 →
  q_MarkInstanceTerminating now id ws d = Ok (u, d') →
  d' = set_instances (<[id := instance_terminating r now]> (instances d)) d.
Proof.
  intros Hr Hw Hd. unfold q_MarkInstanceTerminating. rewrite (q_GetInstance_hit d id ws r), Hd by done.
  simpl. intros. inv_ok. done.
Qed.

Lemma DeleteVPC_hit d id ws r u d' :
  vpcs d !! id = Some r → v_WorkspaceID r = ws → q_DeleteVPC id ws d = Ok (u, d') →
  d' = set_vpcs (delete id (vpcs d)) d.
Proof.
  intros Hr Hw. unfold q_DeleteVPC. rewrite (q_GetVPC_hit d id ws r) by done. intros. inv_ok. done.
Qed.

Lemma DeleteSubnet_hit d id ws r u d' :
  subnets d !! id = Some r → s_WorkspaceID r = ws → q_DeleteSubnet id ws d = Ok (u, d') →
  (∀ i x, instances d !! i = Some x → i_WorkspaceID x = ws → i_SubnetID x ≠ id) ∧
  d' = set_subnets (delete id (subnets d)) d.
Proof.
  intros Hr Hw. unfold q_DeleteSubnet, foreign_key. rewrite (q_GetSubnet_hit d id ws r) by done.
  intros. inv_ok. split; [|done]. intros i y Hx Hwx E.
  repeat match goal with
  | H : negb (any _ _) = true |- _ => apply negb_true_iff in H; rewrite any_false in H
  end. use_unique Hx.
Qed.

Lemma DeleteInstance_hit d id ws r u d' :
  instances d !! id = Some r → i_WorkspaceID r = ws → q_DeleteInstance id ws d = Ok (u, d') →
  d' = set_instances (delete id (instances d)) d.
Proof.
  intros Hr Hw. unfold q_DeleteInstance. rewrite (q_GetInstance_hit d id ws r) by done.
  intros. inv_ok. done.
Qed.

Lemma DeleteInstanceENI_hit d id ws r u d' :
  enis d !! id = Some r → e_WorkspaceID r = ws → q_DeleteInstanceENI id ws d = Ok (u, d') →
  d' = set_enis (delete id (enis d)) d.
Proof. intros Hr <-. unfold q_DeleteInstanceENI. rewrite Hr, beq_refl. intros. inv_ok. done. Qed.
End hits.
