(* ===== verification/RecordRefine.v ===== *)
(** What the reconcilers record refines the abstract machine: [RecordTopology],
    [RecordInstance], [FinishInstanceTermination], [RecordRuntimeID] and
    [RetainTerminatingRuntimeID] of [internal/store], for any snapshot, however
    stale, that a reconciler may hold. *)

From S2P Require Import Prelude Errors GoStrings NetIP Validate Ipam Mac Model Snapshot.
From S2P Require Import Schema Tx Transitions Store Idempotency Refine.
Local Open Scope Z_scope.

Lemma WithTx_steps {A} (P : DB → Prop) (m : Tx A) flt d r d' :
  P d → (∀ s a s', P (tx_db s) → m s = (Ok a, s') → steps (tx_db s) (tx_db s')) →
  WithTx flt m d = (r, d') → steps d d'.
Proof.
  intros HP Hm H. destruct r as [a|e].
  - apply WithTx_Ok in H as (s & s' & <- & Hrun & ->). by eapply Hm.
  - apply WithTx_Err in H as ->. apply rtc_refl.
Qed.

(** ** The children of a VPC *)

(** The snapshots of a list agree with the rows they were read from. *)
Definition current_rows (d : DB) (l : list Subnet) : Prop :=
  Forall (λ x, ∃ r, subnets d !! Subnet_ID x = Some r ∧ subnetFromRow r = Ok x) l ∧
  NoDup (Subnet_ID <$> l).

Lemma by_id_keys d : Inv d → s_ID <$> by_id (subnets d) = (merge_sort key_le (map_to_list (subnets d))).*1.
Proof.
  intros I. unfold by_id. rewrite <- list_fmap_compose. apply list_fmap_ext.
  intros i [k r] Hin. simpl. apply list_elem_of_lookup_2 in Hin.
  rewrite merge_sort_Permutation in Hin. apply elem_of_map_to_list in Hin.
  by destruct (inv_s d I k r Hin).
Qed.

Lemma filter_fmap_sublist {A B} (f : A → B) (g : A → bool) l :
  sublist (f <$> List.filter g l) (f <$> l).
Proof.
  induction l as [|x l IH]; [constructor|]. simpl. destruct (g x); by constructor.
Qed.

Lemma listed_current d vpc l :
  Inv d →
  Forall2 (λ r x, subnetFromRow r = Ok x) (List.filter (λ r, s_VpcID r ==? vpc) (by_id (subnets d))) l →
  current_rows d l.
Proof.
  intros I Hl. split.
  - apply Forall_forall. intros x Hx. apply list_elem_of_lookup in Hx as [n Hn].
    eapply Forall2_lookup_r in Hl as (r & Hr & Hfrom); [|done].
    apply list_elem_of_lookup_2, elem_of_filter_by_id in Hr as (_ & k & Hk). exists r.
    pose proof Hfrom as (p & _ & ->)%subnetFromRow_inv. split; [|done]. simpl.
    by destruct (inv_s d I k r Hk) as [-> _ _ _ _ _ _].
  - assert (Subnet_ID <$> l = s_ID <$> List.filter (λ r, s_VpcID r ==? vpc) (by_id (subnets d))) as ->.
    { clear I. induction Hl as [|r x rs l Hx _ IH]; [done|]. rewrite !fmap_cons. f_equal; [|done].
      by apply subnetFromRow_inv in Hx as (p & _ & ->). }
    eapply sublist_NoDup; [|apply filter_fmap_sublist]. rewrite by_id_keys by done.
    rewrite merge_sort_Permutation. apply NoDup_fst_map_to_list.
Qed.

(** Changing the row of another subnet keeps the rest of the list current. *)
Lemma current_rows_other d d' x l :
  current_rows d (x :: l) → (∀ id, id ≠ Subnet_ID x → subnets d' !! id = subnets d !! id) →
  current_rows d' l.
Proof.
  intros [Hf Hnd] Hother. apply Forall_cons in Hf as [_ Hf]. apply NoDup_cons in Hnd as [Hnotin Hnd].
  split; [|done]. rewrite Forall_forall in *. intros y Hy. destruct (Hf y Hy) as (r & Hr & Hfrom).
  exists r. rewrite Hother; [done|]. intros E. apply Hnotin. rewrite <- E. by apply list_elem_of_fmap_2.
Qed.

Lemma recordSubnetStatus_inv x r state reason ok now s u s' :
  Inv (tx_db s) → subnets (tx_db s) !! Subnet_ID x = Some r → subnetFromRow r = Ok x →
  (ok = true → s_DeletionRequested r = 0) → state = (if ok then "available" else "failed") →
  tx_recordSubnetStatus x state reason ok now s = (Ok u, s') →
  steps (tx_db s) (tx_db s') ∧ ∀ id, id ≠ Subnet_ID x → subnets (tx_db s') !! id = subnets (tx_db s) !! id.
Proof.
  intros I Hr Hx Hlive Hst H. pose proof (inv_s _ I _ _ Hr) as Hok.
  unfold tx_recordSubnetStatus in H. destruct (_ && _); [inv_tx; split; [apply rtc_refl|done]|].
  run H as u1 s1 E1. apply subnetFromRow_inv in Hx as (p & _ & ->). simpl in *.
  apply wrapping_Ok, stmt_Ok, (UpdateSubnetStatus_hit _ _ _ r) in E1; [|done..].
  pose proof (AppendEvent_steps _ _ _ _ H) as Hev. apply AppendEvent_inv in H as [_ H].
  assert (trans (tx_db s) (tx_db s1)) as Ht.
  { rewrite E1. apply t_subnet_status; [done|]. unfold observation. destruct ok; naive_solver. }
  split; [eapply rtc_l; [exact Ht|exact Hev]|]. intros id Hne. rewrite H, E1. simpl.
  by rewrite lookup_insert_ne.
Qed.

Lemma recordChild_inv x r state reason (ok : bool) now s u s' :
  Inv (tx_db s) → subnets (tx_db s) !! Subnet_ID x = Some r → subnetFromRow r = Ok x →
  state = (if ok then "available" else "failed") →
  recordChild state reason ok now x s = (Ok u, s') →
  steps (tx_db s) (tx_db s') ∧ ∀ id, id ≠ Subnet_ID x → subnets (tx_db s') !! id = subnets (tx_db s) !! id.
Proof.
  intros I Hr Hx Hst H. pose proof (inv_s _ I _ _ Hr) as [Hid Hws _ _ _ [_ Hlife] _].
  unfold recordChild in H. pose proof Hx as (p & _ & Ex)%subnetFromRow_inv.
  destruct (Subnet_DeletionRequested x && ok) eqn:Hd.
  - subst x. simpl in *. reflect_bools. run H as u1 s1 E1.
    apply wrapping_Ok, stmt_Ok, (DeleteSubnet_hit _ _ _ r) in E1 as [Hno E1]; [|done..].
    pose proof (AppendEvent_steps _ _ _ _ H) as Hev. apply AppendEvent_inv in H as [_ H].
    assert (trans (tx_db s) (tx_db s1)) as Ht.
    { rewrite E1. apply (t_subnet_delete _ (s_ID r) r); [done|lia|]. intros i y Hy. apply (Hno i y Hy).
      rewrite Hws. by destruct (inv_i _ I i y Hy). }
    split; [eapply rtc_l; [exact Ht|exact Hev]|]. intros id Hne. rewrite H, E1. simpl.
    by rewrite lookup_delete_ne.
  - apply (recordSubnetStatus_inv x r state reason ok now s u s'); auto. intros Hok.
    rewrite Hok, andb_true_r in Hd. subst x. simpl in Hd. by reflect_bools.
Qed.

Lemma recordChildren_steps state reason (ok : bool) now l s u s' :
  Inv (tx_db s) → current_rows (tx_db s) l → state = (if ok then "available" else "failed") →
  recordChildren state reason ok now l s = (Ok u, s') → steps (tx_db s) (tx_db s').
Proof.
  revert s. induction l as [|x l IH]; intros s I Hc Hst H; simpl in H; [inv_tx; apply rtc_refl|].
  run H as u1 s1 E1. pose proof Hc as [Hf _]. apply Forall_cons in Hf as [(r & Hr & Hx) _].
  destruct (recordChild_inv x r state reason ok now s u1 s1) as [Hsteps Hother]; auto.
  etrans; [exact Hsteps|]. eapply IH; eauto using steps_Inv, current_rows_other.
Qed.

(** ** Topology *)
Lemma recordVPCStatus_inv v r state reason ok now s u s' :
  Inv (tx_db s) → vpcs (tx_db s) !! VPC_ID v = Some r → vpcFromRow r = Ok v →
  (ok = true → v_DeletionRequested r = 0) → state = (if ok then "available" else "failed") →
  tx_recordVPCStatus v state reason ok now s = (Ok u, s') →
  steps (tx_db s) (tx_db s') ∧ subnets (tx_db s') = subnets (tx_db s).
Proof.
  intros I Hr Hx Hlive Hst H. unfold tx_recordVPCStatus in H.
  destruct (_ && _); [inv_tx; split; [apply rtc_refl|done]|].
  run H as u1 s1 E1. apply vpcFromRow_inv in Hx as (p & _ & ->). simpl in *.
  apply wrapping_Ok, stmt_Ok, (UpdateVPCStatus_hit _ _ _ r) in E1; [|done..].
  pose proof (AppendEvent_steps _ _ _ _ H) as Hev. apply AppendEvent_inv in H as [_ H].
  assert (trans (tx_db s) (tx_db s1)) as Ht.
  { rewrite E1. apply t_vpc_status; [done|]. unfold observation. destruct ok; naive_solver. }
  split; [eapply rtc_l; [exact Ht|exact Hev]|]. by rewrite H, E1.
Qed.

Lemma recordTopology_steps v applied effectErr now s u s' :
  Inv (tx_db s) → recordTopology v applied effectErr now s = (Ok u, s') → steps (tx_db s) (tx_db s').
Proof.
  intros I H. unfold recordTopology in H.
  run H as c s1 E1. apply or_missing_Ok, GetVPC_inv in E1 as (row & Hrow & Hws & Hc & E1). rewrite <- E1 in *.
  run H as u2 s2 E2. apply guard_tx_Ok in E2 as [Hsame ->]. reflect_bools.
  run H as l s3 E3. apply ListSubnetsByVPC_inv in E3 as [E3 Hl]. rewrite <- E3 in *.
  run H as u4 s4 E4. apply guard_tx_Ok in E4 as [_ ->].
  pose proof (inv_v _ I _ _ Hrow) as [Hid Hdef _ _ _ [_ Hlife] _].
  pose proof Hc as (p & _ & Ec)%vpcFromRow_inv.
  assert (negb (v_DeletionRequested row =? 0) = VPC_DeletionRequested v) as Hdel.
  { match goal with H : Bool.eqb _ _ = true |- _ => apply Bool.eqb_prop in H; rewrite <- H end. by subst c. }
  destruct (VPC_DeletionRequested v && _) eqn:Hd; reflect_bools.
  - run H as u5 s5 E5. apply guard_tx_Ok in E5 as [Hlen ->].
    apply Nat.eqb_eq, nil_length_inv in Hlen as ->. apply no_listed_subnets in Hl.
    run H as u6 s6 E6. apply wrapping_Ok, stmt_Ok, (DeleteVPC_hit _ _ _ row) in E6; [|done..].
    eapply rtc_l; [apply (t_vpc_delete _ (VPC_ID v) row)|]; [done| |done|].
    + destruct Hlife as [Hz|]; [|done]. rewrite Hz in Hdel. simpl in Hdel. congruence.
    + rewrite <- E6. exact (AppendEvent_steps _ _ _ _ H).
  - run H as u5 s5 E5.
    assert (VPC_ID c = VPC_ID v) as Eid by (by subst c).
    destruct (recordVPCStatus_inv c row (if bool_decide (effectErr = None) then StateAvailable else StateFailed)
      (match effectErr with None => "" | Some e => error_text e end)
      (bool_decide (effectErr = None)) now s3 u5 s5) as [Hs5 Hsub]; try done.
    + by rewrite Eid.
    + intros Hok. rewrite Hok, andb_true_r in Hd. rewrite Hd in Hdel. by reflect_bools.
    + etrans; [exact Hs5|]. eapply recordChildren_steps; [by eapply steps_Inv| | |exact H]; [|done].
      pose proof (listed_current _ _ _ I Hl) as [Hf Hnd]. split; [|done]. by rewrite Hsub.
Qed.

(** ** Instances *)
Lemma recordInstance_steps snap status reason (observed : bool) now s u s' :
  Inv (tx_db s) → status = "running" ∨ status = "failed" →
  (observed = true → status = "running" ∧ Instance_RuntimeID snap ≠ "" ∧ Instance_DeletionRequested snap = false) →
  recordInstance snap status reason observed now s = (Ok u, s') → steps (tx_db s) (tx_db s').
Proof.
  intros I Hst Hobs H. unfold recordInstance in H.
  run H as c s1 E1.
  apply or_missing_Ok, GetInstance_inv in E1 as (row & eid & e & Hrow & Hws & He & Hei & Hew & Hc & E1).
  rewrite <- E1 in *. run H as u2 s2 E2. apply guard_tx_Ok in E2 as [Hsame ->].
  unfold sameInstanceDecision in Hsame. reflect_bools.
  destruct (_ && _); [inv_tx; apply rtc_refl|].
  pose proof (inv_i _ I _ _ Hrow) as [Hid Hdef _ _ _ Hrt _].
  pose proof (inv_e _ I _ _ He) as [Heid Hedef _ _].
  apply instanceOfRows_inv in Hc as (a & _ & _ & ->). simpl in *.
  match goal with H : Bool.eqb _ _ = true |- _ => apply Bool.eqb_prop in H as Hdel end.
  run H as u3 s3 E3. apply wrapping_Ok, stmt_Ok, (UpdateInstanceStatus_hit _ _ _ row) in E3; [|congruence..].
  assert (trans (tx_db s1) (tx_db s3)) as Ht.
  { rewrite E3. apply t_instance_status; [congruence|done|]. destruct observed; [right|by left].
    destruct Hobs as (-> & Hne & Hnd); [done|]. rewrite Hnd in Hdel. reflect_bools. split_and!; auto.
    destruct (i_RuntimeID row); [eauto|]. simpl in *. congruence. }
  pose proof (trans_Inv _ _ Ht I) as I3. eapply rtc_l; [exact Ht|].
  run H as u4 s4 E4. etrans; [|exact (AppendEvent_steps _ _ _ _ H)].
  destruct (negb _); [inv_tx; apply rtc_refl|].
  apply wrapping_Ok, stmt_Ok, (UpdateENIStatus_hit _ _ _ e) in E4; [|rewrite ?E3; simpl; congruence..].
  rewrite E4. apply rtc_once, t_eni_status; [rewrite E3; simpl; congruence|]. destruct observed; auto.
Qed.

Lemma finishInstanceTermination_steps snap now s u s' :
  Inv (tx_db s) → finishInstanceTermination snap now s = (Ok u, s') → steps (tx_db s) (tx_db s').
Proof.
  intros I H. unfold finishInstanceTermination in H.
  run H as c s1 E1.
  apply or_missing_Ok, GetInstance_inv in E1 as (row & eid & e & Hrow & Hws & He & Hei & Hew & Hc & E1).
  rewrite <- E1 in *. run H as u2 s2 E2. apply guard_tx_Ok in E2 as [Hsame ->].
  apply andb_true_iff in Hsame as [_ Hdel].
  pose proof (inv_i _ I _ _ Hrow) as [Hid Hdef _ _ [_ Hlife] _ _].
  pose proof (inv_e _ I _ _ He) as [Heid Hedef _ _].
  apply instanceOfRows_inv in Hc as (a & _ & _ & ->). simpl in *. reflect_bools.
  run H as u3 s3 E3. apply wrapping_Ok, stmt_Ok, (DeleteInstanceENI_hit _ _ _ e) in E3; [|congruence..].
  run H as u4 s4 E4. apply wrapping_Ok, stmt_Ok, (DeleteInstance_hit _ _ _ row) in E4;
    [|rewrite ?E3; simpl; congruence..].
  assert (trans (tx_db s1) (tx_db s4)) as Ht.
  { rewrite E4, E3. change (instances (set_enis ?a ?b)) with (instances b).
    apply (t_instance_delete _ (i_ID row) (e_ID e) row e); [congruence|lia|congruence..]. }
  eapply rtc_l; [exact Ht|]. exact (AppendEvent_steps _ _ _ _ H).
Qed.

Lemma autocommit_steps {A} flt (m : Tx A) d r d' :
  (∀ s a s', tx_db s = d → m s = (Ok a, s') → steps (tx_db s) (tx_db s')) →
  autocommit flt m d = (r, d') → steps d d'.
Proof.
  intros Hm H. destruct r as [a|e].
  - apply autocommit_Ok in H as (s & s' & <- & Hrun & ->). by eapply Hm.
  - apply autocommit_Err in H as ->. apply rtc_refl.
Qed.

(** ** The operations of the store *)
Section recorders.
Variables (flt : fault) (now : Z) (d : DB).
Hypothesis I : Inv d.

Lemma store_RecordTopology_steps ctxErr v applied effectErr r d' :
  store_RecordTopology ctxErr flt now v applied effectErr d = (r, d') → steps d d'.
Proof using I.
  unfold store_RecordTopology. destruct ctxErr; [intros; simplify_eq; apply rtc_refl|].
  eapply (WithTx_steps Inv); eauto using recordTopology_steps.
Qed.

Lemma store_RecordInstance_steps snap status reason observed r d' :
  store_RecordInstance flt now snap status reason observed d = (r, d') → steps d d'.
Proof using I.
  unfold store_RecordInstance.
  destruct (_ && _) eqn:H1; [intros; simplify_eq; apply rtc_refl|].
  destruct (observed && _) eqn:H2; [intros; simplify_eq; apply rtc_refl|].
  eapply (WithTx_steps Inv); [done|]. intros s a s' Is. apply recordInstance_steps; [done|..].
  - apply andb_false_iff in H1 as [H1|H1]; reflect_bools; auto.
  - intros ->. simpl in H2. reflect_bools. done.
Qed.

Lemma store_FinishInstanceTermination_steps snap r d' :
  store_FinishInstanceTermination flt now snap d = (r, d') → steps d d'.
Proof using I. eapply (WithTx_steps Inv); eauto using finishInstanceTermination_steps. Qed.

Lemma store_RecordRuntimeID_steps id generation rt r d' :
  store_RecordRuntimeID flt id generation rt d = (r, d') → steps d d'.
Proof using I.
  unfold store_RecordRuntimeID. destruct (rt ==? "") eqn:Hrt; [intros; simplify_eq; apply rtc_refl|].
  destruct (autocommit _ _ _) as [r0 d0] eqn:E. intros H.
  assert (d' = d0) as -> by (destruct r0; by simplify_eq).
  eapply autocommit_steps; [|exact E]. intros s a s' <- Hs. apply wrapping_Ok, stmt_Ok in Hs.
  unfold q_RecordRuntimeID in Hs. reflect_bools.
  destruct (instances _ !! id) as [row|] eqn:Hrow; [|inv_ok; new_db; apply rtc_refl].
  destruct (_ && _) eqn:Hg; inv_ok; new_db; [|apply rtc_refl]. reflect_bools.
  apply rtc_once, t_instance_runtime; auto.
  destruct (i_RuntimeID row); [right|by left]. reflect_bools. by subst.
Qed.

Lemma store_RetainTerminatingRuntimeID_steps id rt r d' :
  store_RetainTerminatingRuntimeID flt id rt d = (r, d') → steps d d'.
Proof using I.
  unfold store_RetainTerminatingRuntimeID.
  destruct (rt ==? "") eqn:Hrt; [intros; simplify_eq; apply rtc_refl|].
  destruct (autocommit _ _ _) as [r0 d0] eqn:E. intros H.
  assert (d' = d0) as -> by (destruct r0; by simplify_eq).
  eapply autocommit_steps; [|exact E]. intros s a s' <- Hs. apply wrapping_Ok, stmt_Ok in Hs.
  unfold q_RetainTerminatingRuntimeID in Hs. reflect_bools.
  destruct (instances _ !! id) as [row|] eqn:Hrow; [|inv_ok; new_db; apply rtc_refl].
  destruct (_ && _) eqn:Hg; inv_ok; new_db; [|apply rtc_refl]. reflect_bools.
  apply rtc_once, t_instance_runtime; auto.
Qed.
End recorders.
