(* ===== verification/NetworkService.v ===== *)
(** The VPC and subnet service: [internal/service/network.go].

    An operation takes the environment of the call, its input and the database,
    and returns its result, the database it leaves behind and the identifiers it
    hands to the reconciler after the commit. *)

From S2P Require Import Prelude Errors GoStrings NetIP Validate Model Snapshot.
From S2P Require Import Schema Tx Store Idempotency.
Local Open Scope Z_scope.

Definition defaultWorkspace : string := "default".

(** Clock (Unix seconds), entropy of the identifiers, fault schedule of the
    database, and whether an [enqueue] callback is wired. *)
Record Env := MkEnv {
  env_now : Z; env_random : list Z; env_random2 : list Z; env_fault : fault; env_enqueue : bool
}.

Record CreateVPCInput := MkCreateVPCInput { cv_Name : string; cv_CIDRBlock : string }.
Record CreateSubnetInput := MkCreateSubnetInput {
  cs_Name : string; cs_VPCID : string; cs_CIDRBlock : string; cs_AvailabilityZone : string
}.

(** ** Errors *)
Definition nameConflict (kind name : string) : error :=
  ErrService (MkError "InvalidParameterValue" (Sprintf "%s name %q already exists" [kind; name]) "" 409).
Definition dependencyViolation (id message : string) : error :=
  ErrService (MkError "DependencyViolation" (lit message) id 409).
Definition vpcNotFound (id : string) : error :=
  ErrService (MkError "InvalidVpcID.NotFound" (lit "VPC does not exist") id 404).
Definition subnetNotFound (id : string) : error :=
  ErrService (MkError "InvalidSubnetID.NotFound" (lit "subnet does not exist") id 404).

(** [if errors.Is(err, sql.ErrNoRows) { return e }; return v, err] *)
Definition missing {A} (e : error) (r : result A) : result A :=
  match r with
  | Err e' => Err (if errors_Is e' ErrNoRows then e else e')
  | Ok a => Ok a
  end.

(** [if err != nil { return zero, err }; if changed && enqueue != nil { enqueue(id) }] *)
Definition after_commit {A} (env : Env) (id : A → string) (r : result (A * bool) * DB)
    : result A * DB * list string :=
  match r with
  | (Err e, d') => (Err e, d', [])
  | (Ok (a, changed), d') => (Ok a, d', if changed && env_enqueue env then [id a] else [])
  end.

(** ** VPCs *)
Definition createVPC (name : string) (cidr : Prefix) (key hash id : string) (now : Z)
    : Tx (VPC * bool) :=
  replay ← loadReplay "create-vpc" key hash now;
  match replay with
  | Some result => mret (result, false)
  | None =>
      absent (nameConflict "VPC" name) (tx_GetVPCByName defaultWorkspace name) ;;
      shortIndex ← tx_AllocateIndex "vpc" id;
      let result := MkVPC id defaultWorkspace name cidr shortIndex StatePending "" false 1 0 in
      rescue (λ e, if IsUniqueViolation e then nameConflict "VPC" name else e)
        (tx_InsertVPC result now) ;;
      tx_AppendEvent (MkEvent 0 defaultWorkspace "vpc" id "created" (VPC_State result) 1 "" now) ;;
      saveReplay "create-vpc" key hash id result now ;;
      mret (result, true)
  end.

Definition CreateVPC (env : Env) (input : CreateVPCInput) (key : string) (d : DB)
    : result VPC * DB * list string :=
  match
    name ← ValidateName (cv_Name input);
    cidr ← ParseCIDR (cv_CIDRBlock input);
    validateIdempotencyKey key ;;
    hash ← hashPayload [name; Prefix_String cidr];
    id ← NewID "vpc-" (env_random env);
    Ok (name, cidr, hash, id)
  with
  | Err e => (Err e, d, [])
  | Ok (name, cidr, hash, id) =>
      after_commit env VPC_ID
        (WithTx (env_fault env) (createVPC name cidr key hash id (env_now env)) d)
  end.

Definition GetVPC (env : Env) (id : string) (d : DB) : result VPC :=
  missing (vpcNotFound id) (store_GetVPC (env_fault env) defaultWorkspace id d).

(** A page of [size] items and the token of the next page. *)
Definition cut_page {A} (kind : string) (id : A → string) (size : Z) (items : list A)
    : list A * string :=
  if Z.of_nat (length items) <=? size then (items, "")
  else (take (Z.to_nat size) items,
        match items !! Z.to_nat (size - 1) with
        | Some x => encodePageToken kind (id x)
        | None => ""
        end).

Definition ListVPCs (env : Env) (limit : Z) (token : string) (d : DB) : result (list VPC * string) :=
  size ← pageSize limit;
  afterID ← decodePageToken "vpc" token;
  items ← store_ListVPCPage (env_fault env) defaultWorkspace afterID (size + 1) d;
  Ok (cut_page "vpc" VPC_ID size items).

Definition deleteVPC (id : string) (now : Z) : Tx (VPC * bool) :=
  vpc ← or_missing (vpcNotFound id) (tx_GetVPC defaultWorkspace id);
  children ← tx_ListSubnetsByVPC id;
  guard_tx (length children =? 0)%nat (dependencyViolation id "VPC still has subnets") ;;
  if VPC_DeletionRequested vpc then mret (vpc, false)
  else
    result ← tx_MarkVPCDeleting defaultWorkspace id now;
    tx_AppendEvent (MkEvent 0 defaultWorkspace "vpc" id "deleting" (VPC_State result)
                      (VPC_Generation result) "" now) ;;
    mret (result, true).

Definition DeleteVPC (env : Env) (id : string) (d : DB) : result VPC * DB * list string :=
  after_commit env (λ _, id) (WithTx (env_fault env) (deleteVPC id (env_now env)) d).

(** ** Subnets *)
Definition createSubnet (input : CreateSubnetInput) (name : string) (cidr : Prefix)
    (key hash id : string) (now : Z) : Tx (Subnet * bool) :=
  replay ← loadReplay "create-subnet" key hash now;
  match replay with
  | Some result => mret (result, false)
  | None =>
      vpc ← or_missing (vpcNotFound (cs_VPCID input)) (tx_GetVPC defaultWorkspace (cs_VPCID input));
      guard_tx (negb (VPC_DeletionRequested vpc)) (dependencyViolation (VPC_ID vpc) "VPC is deleting") ;;
      lift (ValidateSubnetRange (VPC_CIDRBlock vpc) cidr) ;;
      siblings ← tx_ListSubnetsByVPC (VPC_ID vpc);
      lift (ValidateSubnetDisjoint cidr (Subnet_CIDRBlock <$> siblings)) ;;
      absent (nameConflict "subnet" name) (tx_GetSubnetByName defaultWorkspace name) ;;
      shortIndex ← tx_AllocateIndex "subnet" id;
      let result := MkSubnet id defaultWorkspace (VPC_ID vpc) name cidr (cs_AvailabilityZone input)
                      shortIndex StatePending "" false 1 0 in
      rescue (λ e, if IsUniqueViolation e then nameConflict "subnet" name
                   else if IsForeignKeyViolation e then vpcNotFound (cs_VPCID input) else e)
        (tx_InsertSubnet result now) ;;
      tx_AppendEvent (MkEvent 0 defaultWorkspace "subnet" id "created" (Subnet_State result) 1 "" now) ;;
      saveReplay "create-subnet" key hash id result now ;;
      mret (result, true)
  end.

Definition CreateSubnet (env : Env) (input : CreateSubnetInput) (key : string) (d : DB)
    : result Subnet * DB * list string :=
  match
    name ← ValidateName (cs_Name input);
    cidr ← ParseCIDR (cs_CIDRBlock input);
    require ((cs_AvailabilityZone input ==? "local-1a") || (cs_AvailabilityZone input ==? "local-1b") ||
             (cs_AvailabilityZone input ==? "local-1c"))
      (invalidParameter (lit "availability_zone must be local-1a, local-1b, or local-1c")) ;;
    validateIdempotencyKey key ;;
    hash ← hashPayload [name; cs_VPCID input; Prefix_String cidr; cs_AvailabilityZone input];
    id ← NewID "subnet-" (env_random env);
    Ok (name, cidr, hash, id)
  with
  | Err e => (Err e, d, [])
  | Ok (name, cidr, hash, id) =>
      after_commit env Subnet_VPCID
        (WithTx (env_fault env) (createSubnet input name cidr key hash id (env_now env)) d)
  end.

Definition GetSubnet (env : Env) (id : string) (d : DB) : result Subnet :=
  missing (subnetNotFound id) (store_GetSubnet (env_fault env) defaultWorkspace id d).

Definition ListSubnets (env : Env) (limit : Z) (token : string) (d : DB) : result (list Subnet * string) :=
  size ← pageSize limit;
  afterID ← decodePageToken "subnet" token;
  items ← store_ListSubnetPage (env_fault env) defaultWorkspace afterID (size + 1) d;
  Ok (cut_page "subnet" Subnet_ID size items).

Definition deleteSubnet (id : string) (now : Z) : Tx (Subnet * bool) :=
  subnet ← or_missing (subnetNotFound id) (tx_GetSubnet defaultWorkspace id);
  instances ← tx_CountInstancesInSubnet id;
  guard_tx (instances =? 0) (dependencyViolation id "subnet still has instances") ;;
  if Subnet_DeletionRequested subnet then mret (subnet, false)
  else
    result ← tx_MarkSubnetDeleting defaultWorkspace id now;
    tx_AppendEvent (MkEvent 0 defaultWorkspace "subnet" id "deleting" (Subnet_State result)
                      (Subnet_Generation result) "" now) ;;
    mret (result, true).

Definition DeleteSubnet (env : Env) (id : string) (d : DB) : result Subnet * DB * list string :=
  after_commit env Subnet_VPCID (WithTx (env_fault env) (deleteSubnet id (env_now env)) d).
