(* ===== verification/InstanceService.v ===== *)
(** The instance service: [internal/service/instance.go]. *)

From S2P Require Import Prelude Errors GoStrings NetIP Validate Ipam Model Mac Snapshot.
From S2P Require Import Schema Tx Store Idempotency NetworkService.
Local Open Scope Z_scope.

Record RunInstanceInput := MkRunInstanceInput { ri_Name : string; ri_SubnetID : string }.

Definition instanceNotFound (id : string) : error :=
  ErrService (MkError "InvalidInstanceID.NotFound" (lit "instance does not exist") id 404).
Definition incorrectInstanceState (id message : string) : error :=
  ErrService (MkError "IncorrectState" (lit message) id 409).
Definition addressLimitExceeded (id : string) : error :=
  ErrService (MkError "AddressLimitExceeded" (lit "subnet has no free private addresses") id 409).

(** [if errors.Is(err, errAddressExhausted) { return e }; if err != nil { return err }] *)
Definition exhausted {A} (e : error) (r : result A) : result A :=
  match r with
  | Err e' => Err (if errors_Is e' errAddressExhausted then e else e')
  | Ok a => Ok a
  end.

Definition runInstance (input : RunInstanceInput) (name key hash id eniID : string) (now : Z)
    : Tx (Instance_ * bool) :=
  replay ← loadReplay "run-instance" key hash now;
  match replay with
  | Some result => mret (result, false)
  | None =>
      subnet ← or_missing (subnetNotFound (ri_SubnetID input))
                 (tx_GetSubnet defaultWorkspace (ri_SubnetID input));
      guard_tx (negb (Subnet_DeletionRequested subnet))
        (incorrectInstanceState (Subnet_ID subnet) "subnet is being deleted") ;;
      absent (nameConflict "instance" name) (tx_GetInstanceByName defaultWorkspace name) ;;
      used ← tx_ENIAddresses (Subnet_ID subnet);
      address ← lift (exhausted (addressLimitExceeded (Subnet_ID subnet))
                        (nextPrivateIP (Subnet_CIDRBlock subnet) used));
      index ← tx_AllocateIndex "instance" id;
      eniIndex ← tx_AllocateIndex "eni" eniID;
      let mac := HardwareAddr_String (eniMAC eniID) in
      let eni := MkENI eniID defaultWorkspace id (Subnet_ID subnet) eniIndex address mac 1 0
                   StatePending "" in
      let result := MkInstance id defaultWorkspace (Subnet_ID subnet) index name "t3.micro"
                      InstancePending "" 1 0 false "" eni in
      tx_InsertInstanceWithENI result eni now ;;
      tx_AppendEvent (MkEvent 0 defaultWorkspace "instance" id "created" (Instance_State result) 1 "" now) ;;
      saveReplay "run-instance" key hash id result now ;;
      mret (result, true)
  end.

Definition Run (env : Env) (input : RunInstanceInput) (key : string) (d : DB)
    : result Instance_ * DB * list string :=
  match
    name ← ValidateName (ri_Name input);
    validateIdempotencyKey key ;;
    hash ← hashPayload [name; ri_SubnetID input];
    id ← NewID "i-" (env_random env);
    eniID ← NewID "eni-" (env_random2 env);
    Ok (name, hash, id, eniID)
  with
  | Err e => (Err e, d, [])
  | Ok (name, hash, id, eniID) =>
      after_commit env Instance_ID
        (WithTx (env_fault env) (runInstance input name key hash id eniID (env_now env)) d)
  end.

Definition Get (env : Env) (id : string) (d : DB) : result Instance_ :=
  missing (instanceNotFound id) (store_GetInstance (env_fault env) defaultWorkspace id d).

Definition List_ (env : Env) (limit : Z) (token : string) (d : DB) : result (list Instance_ * string) :=
  size ← pageSize limit;
  after ← decodePageToken "instance" token;
  items ← store_ListInstancePage (env_fault env) defaultWorkspace after (size + 1) d;
  Ok (cut_page "instance" Instance_ID size items).

(** The snapshot [TerminateSnapshot] returns, computed from the one it read. *)
Definition terminating (c : Instance_) : Instance_ :=
  MkInstance (Instance_ID c) (Instance_WorkspaceID c) (Instance_SubnetID c) (Instance_ShortIndex c)
    (Instance_Name c) (Instance_InstanceType c) InstanceShuttingDown "" (wrap64 (Instance_Generation c + 1))
    (Instance_ObservedGeneration c) true (Instance_RuntimeID c) (Instance_ENI c).

Definition terminateSnapshot (id : string) (now : Z) : Tx (Instance_ * bool) :=
  current ← or_missing (instanceNotFound id) (tx_GetInstance defaultWorkspace id);
  if Instance_DeletionRequested current then mret (current, false)
  else
    tx_MarkInstanceTerminating defaultWorkspace id now ;;
    tx_AppendEvent (MkEvent 0 defaultWorkspace "instance" id "terminating" InstanceShuttingDown
                      (wrap64 (Instance_Generation current + 1)) "" now) ;;
    mret (terminating current, true).

Definition TerminateSnapshot (env : Env) (id : string) (d : DB) : result Instance_ * DB * list string :=
  after_commit env (λ _, id) (WithTx (env_fault env) (terminateSnapshot id (env_now env)) d).

Definition Terminate (env : Env) (id : string) (d : DB) : result unit * DB * list string :=
  let '(r, d', enqueued) := TerminateSnapshot env id d in ((λ _, tt) <$> r, d', enqueued).
