(* ===== verification/ServiceRefine.v ===== *)
(** The services refine the abstract machine: whatever an operation of
    [NetworkService.v] and [InstanceService.v] answers, and whenever the
    environment makes it fail, the database moves by transitions of
    [Transitions.v], or not at all. *)

From S2P Require Import Prelude Errors GoStrings NetIP Validate Ipam Mac Model Snapshot.
From S2P Require Import Schema Tx Transitions Store Idempotency Refine RecordRefine NetworkService InstanceService.
Local Open Scope Z_scope.

(** ** VPCs *)
Lemma createVPC_steps name cidr key hash id now s r s' :
  Inv (tx_db s) → ValidateName name = Ok name → canonical cidr →
  createVPC name cidr key hash id now s = (Ok r, s') → steps (tx_db s) (tx_db s').
Proof.
  intros I Hn Hc H. unfold createVPC in H.
  run H as rep s1 E1. apply read_only_run in E1; [|apply _]. rewrite <- E1 in *.
  destruct rep as [x|]; [inv_tx; apply rtc_refl|].
  run H as u s2 E2. apply read_only_run in E2; [|apply _]. rewrite <- E2 in *.
  run H as n s3 E3. pose proof (AllocateIndex_steps _ _ _ _ _ E3) as [Hs3 Hown].
  pose proof (steps_Inv _ _ Hs3 I) as I3. etrans; [exact Hs3|].
  run H as u1 s4 E4. apply rescue_Ok, InsertVPC_inv in E4 as (Hchk & Hnew & Hfresh & E4). simpl in Hchk, Hnew, Hfresh, E4.
  assert (trans (tx_db s3) (tx_db s4)) as Ht.
  { rewrite E4. apply t_vpc_create; auto. intros id' r' Hr'. apply (Hfresh id'); auto.
    by destruct (inv_v _ I3 id' r' Hr'). }
  eapply rtc_l; [exact Ht|].
  run H as u2 s5 E5. etrans; [eapply AppendEvent_steps, E5|].
  run H as u3 s6 E6. etrans; [exact (saveReplay_steps _ _ _ _ _ _ _ _ _ E6)|]. inv_tx. apply rtc_refl.
Qed.

Lemma deleteVPC_steps id now s r s' :
  Inv (tx_db s) → deleteVPC id now s = (Ok r, s') → steps (tx_db s) (tx_db s').
Proof.
  intros I H. unfold deleteVPC in H.
  run H as v s1 E1. apply or_missing_Ok, GetVPC_inv in E1 as (row & Hrow & Hws & Hv & E1).
  rewrite <- E1 in *. run H as l s2 E2. apply ListSubnetsByVPC_inv in E2 as [E2 Hl]. rewrite <- E2 in *.
  run H as u s3 E3. apply guard_tx_Ok in E3 as [Hlen ->]. apply Nat.eqb_eq, nil_length_inv in Hlen as ->.
  apply no_listed_subnets in Hl. apply vpcFromRow_inv in Hv as (p & Hp & ->). cbn [VPC_DeletionRequested] in H.
  destruct (negb _) eqn:Hd; [inv_tx; apply rtc_refl|]. reflect_bools.
  run H as v' s4 E4. unfold tx_MarkVPCDeleting in E4. run E4 as u5 s5 E5.
  apply GetVPC_inv in E4 as (_ & _ & _ & _ & E4).
  apply wrapping_Ok, stmt_Ok, (MarkVPCDeleting_hit _ _ _ row) in E5; [|done..].
  eapply rtc_l; [by eapply (t_vpc_deleting _ id row now)|]. rewrite <- E5, <- E4.
  run H as u6 s6 E6. inv_tx. exact (AppendEvent_steps _ _ _ _ E6).
Qed.

(** ** Subnets *)
Lemma createSubnet_steps input name cidr key hash id now s r s' :
  Inv (tx_db s) → ValidateName name = Ok name → canonical cidr →
  createSubnet input name cidr key hash id now s = (Ok r, s') → steps (tx_db s) (tx_db s').
Proof.
  intros I Hn Hc H. unfold createSubnet in H.
  run H as rep s1 E1. apply read_only_run in E1; [|apply _]. rewrite <- E1 in *.
  destruct rep as [x|]; [inv_tx; apply rtc_refl|].
  run H as v s2 E2. apply or_missing_Ok, GetVPC_inv in E2 as (row & Hrow & Hws & Hv & E2). rewrite <- E2 in *.
  run H as u3 s3 E3. apply guard_tx_Ok in E3 as [Hlive ->].
  run H as u4 s4 E4. apply lift_Ok in E4 as [Hrange ->]. destruct u4.
  run H as l s5 E5. apply ListSubnetsByVPC_inv in E5 as [E5 Hl]. rewrite <- E5 in *.
  run H as u6 s6 E6. apply lift_Ok in E6 as [Hdis ->]. destruct u6.
  apply ValidateSubnetDisjoint_Ok in Hdis. rewrite Forall_fmap, Forall_forall in Hdis.
  pose proof (inv_v _ I _ _ Hrow) as [Hid _ _ (p & Hpc & Hp) _ _ _].
  apply vpcFromRow_inv in Hv as (p' & Hp' & ->). cbn [VPC_ID VPC_CIDRBlock VPC_DeletionRequested] in *.
  pose proof (stored_cidr_valid _ _ _ Hpc Hp Hp') as ->.
  apply ValidateSubnetRange_ranges in Hrange; [|by destruct Hpc|by destruct Hc].
  run H as u7 s7 E7. apply read_only_run in E7; [|apply _]. rewrite <- E7 in *.
  run H as n s8 E8. pose proof (AllocateIndex_steps _ _ _ _ _ E8) as [Hs8 Hown].
  apply AllocateIndex_inv in E8 as (_ & _ & _ & E8).
  pose proof (steps_Inv _ _ Hs8 I) as I8. etrans; [exact Hs8|].
  run H as u9 s9 E9. apply rescue_Ok, InsertSubnet_inv in E9 as (Hchk & Hzone & Hnew & Hfresh & E9).
  simpl in Hchk, Hzone, Hnew, Hfresh, E9. rewrite Hid in *.
  assert (trans (tx_db s8) (tx_db s9)) as Ht.
  { rewrite E9. apply (t_subnet_create _ _ _ row p cidr); auto; try (by rewrite E8); try by reflect_bools.
    - intros id' r' Hr'. apply (Hfresh id'); auto. by destruct (inv_s _ I8 id' r' Hr').
    - intros id' sib q Hs' Hvpc Hq. rewrite E8 in Hs'.
      destruct (listed_subnet _ _ _ _ _ Hl Hs' Hvpc) as (x & Hx & Hfrom).
      apply subnetFromRow_inv in Hfrom as (q' & Hq' & ->). apply Hdis in Hx. simpl in Hx. congruence. }
  eapply rtc_l; [exact Ht|].
  run H as u10 s10 E10. etrans; [eapply AppendEvent_steps, E10|].
  run H as u11 s11 E11. inv_tx. exact (saveReplay_steps _ _ _ _ _ _ _ _ _ E11).
Qed.

Lemma deleteSubnet_steps id now s r s' :
  Inv (tx_db s) → deleteSubnet id now s = (Ok r, s') → steps (tx_db s) (tx_db s').
Proof.
  intros I H. unfold deleteSubnet in H.
  run H as v s1 E1. apply or_missing_Ok, GetSubnet_inv in E1 as (row & Hrow & Hws & Hv & E1).
  rewrite <- E1 in *. run H as n s2 E2. pose proof (CountInstances_zero _ _ _ _ E2) as Hno.
  apply read_only_run in E2; [|apply _]. rewrite <- E2 in *.
  run H as u s3 E3. apply guard_tx_Ok in E3 as [Hn ->]. apply Z.eqb_eq, Hno in Hn.
  apply subnetFromRow_inv in Hv as (p & Hp & ->). cbn [Subnet_DeletionRequested] in H.
  destruct (negb _) eqn:Hd; [inv_tx; apply rtc_refl|]. reflect_bools.
  run H as v' s4 E4. unfold tx_MarkSubnetDeleting in E4. run E4 as u5 s5 E5.
  apply GetSubnet_inv in E4 as (_ & _ & _ & _ & E4).
  apply wrapping_Ok, stmt_Ok, (MarkSubnetDeleting_hit _ _ _ row) in E5; [|done..].
  eapply rtc_l; [by eapply (t_subnet_deleting _ id row now)|]. rewrite <- E5, <- E4.
  run H as u6 s6 E6. inv_tx. exact (AppendEvent_steps _ _ _ _ E6).
Qed.

(** ** Instances *)
Lemma exhausted_Ok {A} e (r : result A) a : exhausted e r = Ok a → r = Ok a.
Proof. by destruct r. Qed.

Lemma runInstance_steps input name key hash id eniID now s r s' :
  Inv (tx_db s) → ValidateName name = Ok name →
  runInstance input name key hash id eniID now s = (Ok r, s') → steps (tx_db s) (tx_db s').
Proof.
  intros I Hn H. unfold runInstance in H.
  run H as rep s1 E1. apply read_only_run in E1; [|apply _]. rewrite <- E1 in *.
  destruct rep as [x|]; [inv_tx; apply rtc_refl|].
  run H as v s2 E2. apply or_missing_Ok, GetSubnet_inv in E2 as (row & Hrow & Hws & Hv & E2). rewrite <- E2 in *.
  run H as u3 s3 E3. apply guard_tx_Ok in E3 as [Hlive ->].
  run H as u4 s4 E4. apply read_only_run in E4; [|apply _]. rewrite <- E4 in *.
  run H as used s5 E5. apply read_only_run in E5; [|apply _]. rewrite <- E5 in *.
  run H as a s6 E6. apply lift_Ok in E6 as [Ha%exhausted_Ok ->].
  pose proof (inv_s _ I _ _ Hrow) as [Hid _ _ (p & Hpc & Hp) _ _ _].
  apply subnetFromRow_inv in Hv as (p' & Hp' & ->).
  cbn [Subnet_ID Subnet_CIDRBlock Subnet_DeletionRequested] in *. rewrite Hid in *. clear Hid.
  pose proof (stored_cidr_valid _ _ _ Hpc Hp Hp') as ->.
  destruct (nextPrivateIP_usable _ _ _ Hpc Ha) as (Hin & Hres & _).
  run H as n s7 E7. pose proof (AllocateIndex_steps _ _ _ _ _ E7) as [Hs7 Hown].
  apply AllocateIndex_inv in E7 as (_ & _ & _ & E7). pose proof (steps_Inv _ _ Hs7 I) as I7.
  run H as m s8 E8. pose proof (AllocateIndex_steps _ _ _ _ _ E8) as [Hs8 Hown8].
  apply AllocateIndex_inv in E8 as (Hm & _ & _ & E8). pose proof (steps_Inv _ _ Hs8 I7) as I8.
  assert (owned (tx_db s8) n "instance" id) as Hown'.
  { rewrite E8. apply owned_insert; [|done]. apply (inv_k _ I7) in Hown. lia. }
  etrans; [exact Hs7|]. etrans; [exact Hs8|].
  run H as u9 s9 E9.
  apply InsertInstanceWithENI_inv in E9 as (Hchk & Hnew & Hnewe & _ & _ & _ & Hmac & Hname & Hmacs & Hips & E9).
  simpl in Hchk, Hnew, Hnewe, Hname, Hips.
  assert (trans (tx_db s8) (tx_db s9)) as Ht.
  { rewrite E9. apply (t_instance_create _ _ _ _ row p); auto; try (by rewrite E8, E7); try by reflect_bools.
    intros id' r' Hr'. apply (Hname id'); auto. by destruct (inv_i _ I8 id' r' Hr'). }
  eapply rtc_l; [exact Ht|].
  run H as u10 s10 E10. etrans; [eapply AppendEvent_steps, E10|].
  run H as u11 s11 E11. inv_tx. exact (saveReplay_steps _ _ _ _ _ _ _ _ _ E11).
Qed.

Lemma terminateSnapshot_steps id now s r s' :
  Inv (tx_db s) → terminateSnapshot id now s = (Ok r, s') → steps (tx_db s) (tx_db s').
Proof.
  intros I H. unfold terminateSnapshot in H.
  run H as c s1 E1. apply or_missing_Ok, GetInstance_inv in E1 as (row & eid & e & Hrow & Hws & _ & _ & _ & Hc & E1).
  rewrite <- E1 in *. apply instanceOfRows_inv in Hc as (a & _ & _ & ->).
  cbn [Instance_DeletionRequested] in H.
  destruct (negb _) eqn:Hd; [inv_tx; apply rtc_refl|]. reflect_bools.
  run H as u2 s2 E2. unfold tx_MarkInstanceTerminating in E2.
  apply wrapping_Ok, stmt_Ok, (MarkInstanceTerminating_hit _ _ _ row) in E2; [|done..].
  eapply rtc_l; [by eapply (t_instance_terminating _ id row now)|]. rewrite <- E2.
  run H as u3 s3 E3. inv_tx. exact (AppendEvent_steps _ _ _ _ E3).
Qed.

(** ** The operations of the services *)
Lemma after_commit_steps {A} env (id : A → string) res d r d' q :
  (∀ r0 d0, res = (r0, d0) → steps d d0) → after_commit env id res = (r, d', q) → steps d d'.
Proof.
  intros Hs H. destruct res as [[[a c]|e] d0]; simpl in H; simplify_eq; by eapply Hs.
Qed.

Section services.
Variables (env : Env) (d : DB).
Hypothesis I : Inv d.

Lemma CreateVPC_steps input key r d' q :
  CreateVPC env input key d = (r, d', q) → steps d d'.
Proof using I.
  unfold CreateVPC. destruct (_ ≫= _) as [[[[name cidr] hash] id]|e] eqn:E; [|intros; simplify_eq; apply rtc_refl].
  inv_ok. simplify_eq. apply after_commit_steps. intros r0 d0. eapply (WithTx_steps Inv); [done|].
  intros. eapply createVPC_steps; eauto using ValidateName_fixed, ParseCIDR_canonical.
Qed.

Lemma DeleteVPC_steps id r d' q : DeleteVPC env id d = (r, d', q) → steps d d'.
Proof using I.
  apply after_commit_steps. intros r0 d0. eapply (WithTx_steps Inv); eauto using deleteVPC_steps.
Qed.

Lemma CreateSubnet_steps input key r d' q :
  CreateSubnet env input key d = (r, d', q) → steps d d'.
Proof using I.
  unfold CreateSubnet. destruct (_ ≫= _) as [[[[name cidr] hash] id]|e] eqn:E; [|intros; simplify_eq; apply rtc_refl].
  inv_ok. simplify_eq. apply after_commit_steps. intros r0 d0. eapply (WithTx_steps Inv); [done|].
  intros. eapply createSubnet_steps; eauto using ValidateName_fixed, ParseCIDR_canonical.
Qed.

Lemma DeleteSubnet_steps id r d' q : DeleteSubnet env id d = (r, d', q) → steps d d'.
Proof using I.
  apply after_commit_steps. intros r0 d0. eapply (WithTx_steps Inv); eauto using deleteSubnet_steps.
Qed.

Lemma Run_steps input key r d' q : Run env input key d = (r, d', q) → steps d d'.
Proof using I.
  unfold Run. destruct (_ ≫= _) as [[[[name hash] id] eniID]|e] eqn:E; [|intros; simplify_eq; apply rtc_refl].
  inv_ok. simplify_eq. apply after_commit_steps. intros r0 d0. eapply (WithTx_steps Inv); [done|].
  intros. eapply runInstance_steps; eauto using ValidateName_fixed.
Qed.

Lemma TerminateSnapshot_steps id r d' q : TerminateSnapshot env id d = (r, d', q) → steps d d'.
Proof using I.
  apply after_commit_steps. intros r0 d0. eapply (WithTx_steps Inv); eauto using terminateSnapshot_steps.
Qed.
End services.
