(* ===== verification/System.v ===== *)
(** The control plane as a whole: any sequence of service calls and reconciler
    recordings, with any input, clock, entropy, fault schedule and (possibly
    stale) snapshot.  SQLite serializes transactions, so every interleaving of
    concurrent callers is such a sequence. *)

From S2P Require Import Prelude Errors GoStrings NetIP Validate Ipam Mac Model Snapshot.
From S2P Require Import Schema Tx Transitions Store Idempotency Refine RecordRefine.
From S2P Require Import NetworkService InstanceService ServiceRefine.
Local Open Scope Z_scope.

(** The operations that may change the database, with their arguments. *)
Inductive op :=
  | OpCreateVPC (env : Env) (input : CreateVPCInput) (key : string)
  | OpDeleteVPC (env : Env) (id : string)
  | OpCreateSubnet (env : Env) (input : CreateSubnetInput) (key : string)
  | OpDeleteSubnet (env : Env) (id : string)
  | OpRun (env : Env) (input : RunInstanceInput) (key : string)
  | OpTerminate (env : Env) (id : string)
  | OpRecordTopology (ctxErr : option error) (flt : fault) (now : Z) (vpc : VPC)
      (applied : list Subnet) (effectErr : option error)
  | OpRecordRuntimeID (flt : fault) (id : string) (generation : Z) (rt : string)
  | OpRetainRuntimeID (flt : fault) (id rt : string)
  | OpRecordInstance (flt : fault) (now : Z) (snap : Instance_) (status : InstanceState)
      (reason : string) (observed : bool)
  | OpFinishTermination (flt : fault) (now : Z) (snap : Instance_).

Definition outcome {A} (r : result A * DB * list string) : result unit * DB :=
  ((λ _, tt) <$> r.1.1, r.1.2).

Definition perform (o : op) (d : DB) : result unit * DB :=
  match o with
  | OpCreateVPC env input key => outcome (CreateVPC env input key d)
  | OpDeleteVPC env id => outcome (DeleteVPC env id d)
  | OpCreateSubnet env input key => outcome (CreateSubnet env input key d)
  | OpDeleteSubnet env id => outcome (DeleteSubnet env id d)
  | OpRun env input key => outcome (Run env input key d)
  | OpTerminate env id => outcome (Terminate env id d)
  | OpRecordTopology ctxErr flt now vpc applied effectErr =>
      store_RecordTopology ctxErr flt now vpc applied effectErr d
  | OpRecordRuntimeID flt id generation rt => store_RecordRuntimeID flt id generation rt d
  | OpRetainRuntimeID flt id rt => store_RetainTerminatingRuntimeID flt id rt d
  | OpRecordInstance flt now snap status reason observed =>
      store_RecordInstance flt now snap status reason observed d
  | OpFinishTermination flt now snap => store_FinishInstanceTermination flt now snap d
  end.

Definition execute_all (ops : list op) (d : DB) : DB := foldl (λ d o, (perform o d).2) d ops.

(** ** Every operation refines the abstract machine *)
Lemma perform_steps o d : Inv d → steps d (perform o d).2.
Proof.
  intros I. destruct o; simpl.
  - destruct (CreateVPC _ _ _ _) as [[r d'] q] eqn:E. by eapply CreateVPC_steps.
  - destruct (DeleteVPC _ _ _) as [[r d'] q] eqn:E. by eapply DeleteVPC_steps.
  - destruct (CreateSubnet _ _ _ _) as [[r d'] q] eqn:E. by eapply CreateSubnet_steps.
  - destruct (DeleteSubnet _ _ _) as [[r d'] q] eqn:E. by eapply DeleteSubnet_steps.
  - destruct (Run _ _ _ _) as [[r d'] q] eqn:E. by eapply Run_steps.
  - unfold Terminate. destruct (TerminateSnapshot _ _ _) as [[r d'] q] eqn:E. by eapply TerminateSnapshot_steps.
  - destruct (store_RecordTopology _ _ _ _ _ _ _) as [r d'] eqn:E. by eapply store_RecordTopology_steps.
  - destruct (store_RecordRuntimeID _ _ _ _ _) as [r d'] eqn:E. by eapply store_RecordRuntimeID_steps.
  - destruct (store_RetainTerminatingRuntimeID _ _ _ _) as [r d'] eqn:E.
    by eapply store_RetainTerminatingRuntimeID_steps.
  - destruct (store_RecordInstance _ _ _ _ _ _ _) as [r d'] eqn:E. by eapply store_RecordInstance_steps.
  - destruct (store_FinishInstanceTermination _ _ _ _) as [r d'] eqn:E.
    by eapply store_FinishInstanceTermination_steps.
Qed.

Lemma execute_all_steps ops d : Inv d → steps d (execute_all ops d) ∧ Inv (execute_all ops d).
Proof.
  revert d. induction ops as [|o ops IH]; intros d I; [split; [apply rtc_refl|done]|].
  pose proof (perform_steps o d I) as Hs. pose proof (steps_Inv _ _ Hs I) as I'.
  destruct (IH _ I') as [Hs' I'']. split; [by etrans|done].
Qed.

(** The states the control plane can be in. *)
Definition reachable (d : DB) : Prop := ∃ ops, d = execute_all ops initialDB.

Lemma reachable_Inv d : reachable d → Inv d.
Proof. intros [ops ->]. apply execute_all_steps, initial_Inv. Qed.

(** ** Atomicity *)
Lemma after_commit_Err {A} env (id : A → string) flt (m : Tx (A * bool)) d e :
  (after_commit env id (WithTx flt m d)).1.1 = Err e → (after_commit env id (WithTx flt m d)).1.2 = d.
Proof.
  unfold after_commit. destruct (WithTx flt m d) as [[[a c]|e'] d'] eqn:E; [done|].
  by apply WithTx_Err in E as ->.
Qed.

Lemma fmap_Err {A B} (f : A → B) (r : result A) e : f <$> r = Err e → r = Err e.
Proof. destruct r; simpl; congruence. Qed.

(** A kernel index in use by a resource of the given kind. *)
Inductive uses_index (d : DB) (n : Z) : string → string → Prop :=
  | uses_vpc id r : vpcs d !! id = Some r → v_ShortIndex r = n → uses_index d n "vpc" id
  | uses_subnet id r : subnets d !! id = Some r → s_ShortIndex r = n → uses_index d n "subnet" id
  | uses_instance id r : instances d !! id = Some r → i_ShortIndex r = n → uses_index d n "instance" id
  | uses_eni id r : enis d !! id = Some r → e_ShortIndex r = n → uses_index d n "eni" id.

Lemma uses_index_owned d n kind id : Inv d → uses_index d n kind id → owned d n kind id.
Proof.
  intros I. destruct 1; subst;
    [by apply (inv_vk d I)|by apply (inv_sk d I)|by apply (inv_ik d I)|by apply (inv_ek d I)].
Qed.

Lemma canonical_row_cidr t p : (∃ p', canonical p' ∧ t = Prefix_String p') → ParsePrefix t = Some p → canonical p.
Proof. intros (p' & Hp' & E) Hp. by rewrite (stored_cidr_valid _ _ _ Hp' E Hp). Qed.

(** ** A scenario: one VPC, two subnets, two instances *)
Section scenario.
Definition bytes9 (b : Z) : list Z := [b; 2; 3; 4; 5; 6; 7; 8; 9].
Definition at_time (now b : Z) : Env := MkEnv now (bytes9 b) (bytes9 b) None true.
Definition demo_vpc : string := "vpc-01020304050607080".
Definition demo_subnet (b : string) : string := "subnet-" +:+ b +:+ "020304050607080".
Definition demo_instance (b : string) : string := "i-" +:+ b +:+ "020304050607080".
Definition demo_eni (b : string) : string := "eni-" +:+ b +:+ "020304050607080".
Definition demo_ops : list op := [
  OpCreateVPC (at_time 1000 1) (MkCreateVPCInput "main" "10.0.0.0/16") "key-1";
  OpCreateSubnet (at_time 1001 2) (MkCreateSubnetInput "a" demo_vpc "10.0.1.0/28" "local-1a") "";
  OpCreateSubnet (at_time 1002 3) (MkCreateSubnetInput "b" demo_vpc "10.0.2.0/24" "local-1b") "";
  OpRun (at_time 1003 4) (MkRunInstanceInput "web" (demo_subnet "02")) "";
  OpRun (at_time 1004 5) (MkRunInstanceInput "db" (demo_subnet "02")) ""].
Definition demo_db : DB := execute_all demo_ops initialDB.
Definition demo_subnet_row : SubnetRow :=
  MkSubnetRow (demo_subnet "02") "default" demo_vpc 2 "a" "10.0.1.0/28" "local-1a" 1 0 "pending" ""
    1001 1001 0.
Definition demo_eni_row : EniRow :=
  MkEniRow (demo_eni "05") "default" (demo_instance "05") (demo_subnet "02") 7 "10.0.1.5"
    (HardwareAddr_String (eniMAC (demo_eni "05"))) 1 0 "pending" "" 1004 1004.
End scenario.

(** ** Properties of the whole system *)

(** C1: Every operation of the services and of the reconcilers' store interface,
    with any input and fault schedule, from any state the system can reach, moves
    the durable state by transitions of the abstract machine: rows are created,
    updated, marked and deleted only under the machine's conditions. *)
Theorem operations_refine_machine ops o :
  rtc trans (execute_all ops initialDB) (perform o (execute_all ops initialDB)).2.
Proof. apply perform_steps, execute_all_steps, initial_Inv. Qed.

(** C2: The invariant of the durable state (keys, canonical CIDR blocks, foreign
    and unique keys, containment and disjointness of subnets, one interface per
    instance with a usable address, ownership of kernel indexes, numbering of the
    events) holds in every reachable state. *)
Theorem reachable_states_satisfy_invariant ops : Inv (execute_all ops initialDB).
Proof. apply execute_all_steps, initial_Inv. Qed.

(** C14: An operation that returns an error has left the database exactly as it
    was, whatever the reason of the failure. *)
Theorem failed_operation_changes_nothing o d e :
  (perform o d).1 = Err e → (perform o d).2 = d.
Proof.
  destruct o; simpl; try (intros H%fmap_Err).
  - revert H. unfold CreateVPC. destruct (_ ≫= _) as [[[[? ?] ?] ?]|]; [apply after_commit_Err|done].
  - by eapply after_commit_Err.
  - revert H. unfold CreateSubnet. destruct (_ ≫= _) as [[[[? ?] ?] ?]|]; [apply after_commit_Err|done].
  - by eapply after_commit_Err.
  - revert H. unfold Run. destruct (_ ≫= _) as [[[[? ?] ?] ?]|]; [apply after_commit_Err|done].
  - unfold Terminate in *. destruct (TerminateSnapshot env id d) as [[r d'] q] eqn:E. simpl in *.
    apply fmap_Err in H. subst r. pose proof (after_commit_Err env (λ _, id) (env_fault env)
      (terminateSnapshot id (env_now env)) d e) as Ha. unfold TerminateSnapshot in E. rewrite E in Ha. by apply Ha.
  - unfold store_RecordTopology. destruct ctxErr; [done|].
    destruct (WithTx _ _ _) as [r d'] eqn:E. simpl. intros ->. by eapply WithTx_Err.
  - unfold store_RecordRuntimeID, autocommit, wrapping. destruct (rt ==? ""); [done|].
    destruct (stmt _ _) as [[n|e'] s'] eqn:E; simpl; [|done]. apply stmt_Ok in E. simpl in E.
    unfold q_RecordRuntimeID in E. repeat case_match; inv_ok; by simplify_eq/=.
  - unfold store_RetainTerminatingRuntimeID, autocommit, wrapping. destruct (rt ==? ""); [done|].
    destruct (stmt _ _) as [[n|e'] s'] eqn:E; simpl; [|done]. apply stmt_Ok in E. simpl in E.
    unfold q_RetainTerminatingRuntimeID in E. repeat case_match; inv_ok; by simplify_eq/=.
  - unfold store_RecordInstance. destruct (_ && _); [done|]. destruct (_ && _); [done|].
    destruct (WithTx _ _ _) as [r d'] eqn:E. simpl. intros ->. by eapply WithTx_Err.
  - unfold store_FinishInstanceTermination.
    destruct (WithTx _ _ _) as [r d'] eqn:E. simpl. intros ->. by eapply WithTx_Err.
Qed.

(** Witness: creating a second VPC with a taken name, and a disk that fails in
    the middle of the transaction. *)
Lemma failed_operation_witness :
  let o := OpCreateVPC (at_time 2000 7) (MkCreateVPCInput "main" "10.9.0.0/16") "" in
  let o' := OpRun (MkEnv 2000 (bytes9 8) (bytes9 8) (Some (6%nat, "disk I/O error")) true)
              (MkRunInstanceInput "x" (demo_subnet "02")) "" in
  (perform o demo_db).2 = demo_db ∧ (perform o' demo_db).2 = demo_db.
Proof.
  split.
  - eapply failed_operation_changes_nothing. vm_compute. reflexivity.
  - eapply failed_operation_changes_nothing. vm_compute. reflexivity.
Defined.

(** C16: In a reachable state no address belongs to two subnets of one VPC, and
    every address of a subnet belongs to its VPC, which is not being deleted. *)
Theorem subnets_partition_their_vpc ops i s p w :
  subnets (execute_all ops initialDB) !! i = Some s → ParsePrefix (s_CidrBlock s) = Some p →
  Contains p (Addr4 w) = true →
  (∃ v q, vpcs (execute_all ops initialDB) !! s_VpcID s = Some v ∧ v_DeletionRequested v = 0 ∧
          ParsePrefix (v_CidrBlock v) = Some q ∧ Contains q (Addr4 w) = true) ∧
  (∀ j t q, subnets (execute_all ops initialDB) !! j = Some t → s_VpcID t = s_VpcID s →
     ParsePrefix (s_CidrBlock t) = Some q → Contains q (Addr4 w) = true → j = i).
Proof.
  intros Hs Hp Hw. pose proof (proj2 (execute_all_steps ops initialDB initial_Inv)) as I.
  set (d := execute_all ops initialDB) in *.
  pose proof (inv_s d I i s Hs) as [_ _ _ Hcs _ _ _]. apply (canonical_row_cidr _ p) in Hp as Hpc; [|done].
  pose proof Hpc as [Hv _]. apply Contains4 in Hw as Hr; [|done]. split.
  - destruct (inv_parent d I i s Hs) as (v & q & p' & Hvp & Hlive & Hq & Hp' & Hin).
    rewrite Hp in Hp'. simplify_eq. exists v, q. split_and!; auto.
    pose proof (inv_v d I _ v Hvp) as [_ _ _ Hcv _ _ _].
    apply (canonical_row_cidr _ q) in Hq as [Hqv _]; [|done]. apply Contains4; [done|].
    unfold inside in Hin. lia.
  - intros j t q Ht Hsame Hq Hwq. destruct (decide (j = i)) as [|Hne]; [done|]. exfalso.
    pose proof (inv_s d I j t Ht) as [_ _ _ Hct _ _ _].
    apply (canonical_row_cidr _ q) in Hq as Hqc; [|done]. destruct Hqc as [Hqv _].
    apply Contains4 in Hwq; [|done].
    pose proof (inv_disjoint d I j i t s q p Hne Ht Hs Hsame Hq Hp) as Hdis.
    assert (Overlaps q p = true); [|congruence]. apply Overlaps_ranges; [done..|lia].
Qed.

(** Witness: an address of the first subnet of the scenario. *)
Lemma subnets_partition_witness :
  (∃ v q, vpcs (execute_all demo_ops initialDB) !! s_VpcID demo_subnet_row = Some v ∧
     v_DeletionRequested v = 0 ∧ ParsePrefix (v_CidrBlock v) = Some q ∧
     Contains q (Addr4 167772420) = true) ∧
  (∀ j t q, subnets (execute_all demo_ops initialDB) !! j = Some t → s_VpcID t = s_VpcID demo_subnet_row →
     ParsePrefix (s_CidrBlock t) = Some q → Contains q (Addr4 167772420) = true → j = demo_subnet "02").
Proof.
  apply (subnets_partition_their_vpc demo_ops (demo_subnet "02") demo_subnet_row
           (MkPrefix (Addr4 167772416) 28) 167772420).
  - vm_compute. reflexivity.
  - vm_compute. reflexivity.
  - vm_compute. reflexivity.
Defined.

(** C17: In a reachable state an interface belongs to an existing instance of the
    same subnet, its private address parses, lies in the subnet's block and is
    none of the reserved addresses, and no other interface of the subnet has it. *)
Theorem leases_are_usable_and_exclusive ops i e :
  enis (execute_all ops initialDB) !! i = Some e →
  ∃ r s p a, instances (execute_all ops initialDB) !! e_InstanceID e = Some r ∧
    i_SubnetID r = e_SubnetID e ∧ subnets (execute_all ops initialDB) !! e_SubnetID e = Some s ∧
    ParsePrefix (s_CidrBlock s) = Some p ∧ ParseAddr (e_PrivateIp e) = Some a ∧
    Contains p a = true ∧ reservedAddress p a = false ∧
    (∀ j f, enis (execute_all ops initialDB) !! j = Some f → e_SubnetID f = e_SubnetID e →
       ParseAddr (e_PrivateIp f) = Some a → j = i).
Proof.
  intros He. pose proof (proj2 (execute_all_steps ops initialDB initial_Inv)) as I.
  set (d := execute_all ops initialDB) in *.
  assert (∀ j f s p a, subnets d !! e_SubnetID f = Some s → ParsePrefix (s_CidrBlock s) = Some p →
    e_PrivateIp f = Addr_String a → Contains p a = true → enis d !! j = Some f →
    ParseAddr (e_PrivateIp f) = Some a) as Hparse.
  { intros j f s p a Hs Hp Ha Hin _. pose proof (inv_s d I _ s Hs) as [_ _ _ Hc _ _ _].
    apply (canonical_row_cidr _ p) in Hp as [Hv _]; [|done].
    destruct (Contains4_Is4 p a Hv Hin) as [w ->]. rewrite Ha. apply ParseAddr_Addr4_String.
    apply Contains4 in Hin; [|done]. pose proof (base4_range p Hv). lia. }
  destruct (inv_eni d I i e He) as (r & s & p & a & Hr & Hsub & Hs & Hp & Ha & Hin & Hres).
  exists r, s, p, a. split_and!; eauto. intros j f Hf Hsame Hpf.
  destruct (inv_eni d I j f Hf) as (r' & s' & p' & a' & Hr' & Hsub' & Hs' & Hp' & Ha' & Hin' & _).
  rewrite (Hparse j f s' p' a') in Hpf by done. simplify_eq.
  eapply (inv_eni_ip d I); eauto. congruence.
Qed.

(** Witness: the second instance of the scenario. *)
Lemma leases_witness :
  ∃ r s p a, instances (execute_all demo_ops initialDB) !! e_InstanceID demo_eni_row = Some r ∧
    i_SubnetID r = e_SubnetID demo_eni_row ∧
    subnets (execute_all demo_ops initialDB) !! e_SubnetID demo_eni_row = Some s ∧
    ParsePrefix (s_CidrBlock s) = Some p ∧ ParseAddr (e_PrivateIp demo_eni_row) = Some a ∧
    Contains p a = true ∧ reservedAddress p a = false ∧
    (∀ j f, enis (execute_all demo_ops initialDB) !! j = Some f → e_SubnetID f = e_SubnetID demo_eni_row →
       ParseAddr (e_PrivateIp f) = Some a → j = demo_eni "05").
Proof.
  apply (leases_are_usable_and_exclusive demo_ops (demo_eni "05") demo_eni_row).
  vm_compute. reflexivity.
Defined.

(** C18: A short kernel index is never given to a second resource: if it names a
    resource now and a resource later, it is the same one, even when the first
    was deleted in between. *)
Theorem kernel_index_never_reused ops ops' n kind id kind' id' :
  uses_index (execute_all ops initialDB) n kind id →
  uses_index (execute_all ops' (execute_all ops initialDB)) n kind' id' → kind = kind' ∧ id = id'.
Proof.
  intros H1 H2. destruct (execute_all_steps ops initialDB initial_Inv) as [_ I1].
  destruct (execute_all_steps ops' _ I1) as [Hs I2].
  apply uses_index_owned in H1, H2; [|done..].
  destruct (steps_history _ _ Hs I1) as [_ Hk].
  unfold owned in *. eapply lookup_weaken in H1; [|exact Hk]. rewrite H1 in H2. by simplify_eq.
Qed.

(** Witness: the VPC of the scenario keeps index 1. *)
Lemma kernel_index_witness : "vpc" = "vpc" ∧ demo_vpc = demo_vpc.
Proof.
  apply (kernel_index_never_reused (take 1 demo_ops) (drop 1 demo_ops) 1 "vpc" demo_vpc "vpc" demo_vpc).
  - apply (uses_vpc _ _ _ (MkVpc demo_vpc "default" 1 "main" "10.0.0.0/16" 1 0 "pending" "" 1000 1000 0));
      vm_compute; reflexivity.
  - apply (uses_vpc _ _ _ (MkVpc demo_vpc "default" 1 "main" "10.0.0.0/16" 1 0 "pending" "" 1000 1000 0));
      vm_compute; reflexivity.
Defined.

(** The event log is append-only and numbered 1, 2, 3, ... without gaps, so
    a reader that resumes after the last number it saw misses nothing. *)
Lemma event_log_is_append_only ops ops' :
  let d := execute_all ops initialDB in let d' := execute_all ops' d in
  events d `prefix_of` events d' ∧
  ev_ID <$> events d' = seqZ 1 (Z.of_nat (length (events d'))).
Proof.
  intros d d'. destruct (execute_all_steps ops initialDB initial_Inv) as [_ I1].
  destruct (execute_all_steps ops' _ I1) as [Hs I2]. split; [by eapply steps_history|].
  pose proof (inv_events _ I2) as He. pose proof (inv_eseq _ I2) as Hq. fold d in He, Hq. fold d' in He, Hq.
  rewrite He. f_equal. apply (f_equal length) in He. rewrite length_fmap, length_seqZ in He. lia.
Qed.

(** A VPC marked for deletion has no subnet, a subnet marked for deletion has
    no instance and no interface, and every instance has exactly one interface. *)
Lemma deletion_waits_for_dependents ops :
  let d := execute_all ops initialDB in
  (∀ id v, vpcs d !! id = Some v → v_DeletionRequested v = 1 → no_subnets d id) ∧
  (∀ id s, subnets d !! id = Some s → s_DeletionRequested s = 1 →
     no_instances d id ∧ ∀ eid e, enis d !! eid = Some e → e_SubnetID e ≠ id) ∧
  (∀ id r, instances d !! id = Some r →
     ∃ eid, (∃ e, enis d !! eid = Some e ∧ e_InstanceID e = id) ∧
       ∀ eid' e', enis d !! eid' = Some e' → e_InstanceID e' = id → eid' = eid).
Proof.
  intros d. pose proof (proj2 (execute_all_steps ops initialDB initial_Inv)) as I. fold d in I. split_and!.
  - intros id v Hv Hd i s Hs E. destruct (inv_parent d I i s Hs) as (v' & p & q & Hv' & Hd' & _).
    rewrite E in Hv'. simplify_eq. lia.
  - intros id s Hs Hd. split.
    + intros i r Hr E. destruct (inv_inst d I i r Hr) as (s' & Hs' & Hd'). rewrite E in Hs'. simplify_eq. lia.
    + intros eid e He E. destruct (inv_eni d I eid e He) as (r & s' & p & a & Hr & Hsub & _).
      destruct (inv_inst d I _ r Hr) as (s1 & Hs1 & Hd1). rewrite Hsub, E in Hs1. simplify_eq. lia.
  - intros id r Hr. destruct (inv_has_eni d I id r Hr) as (eid & e & He & E). exists eid. split; [eauto|].
    intros eid' e' He' E'. eapply (inv_eni_inst d I); eauto. congruence.
Qed.

(** Generations count desired changes: 1 after creation, 2 once deletion is
    requested, so they never overflow; the observed generation never exceeds
    them, and [available] means that the current generation of a live resource
    was observed. *)
Lemma generations_and_observation ops :
  let d := execute_all ops initialDB in
  (∀ id v, vpcs d !! id = Some v →
     v_Generation v = 1 + v_DeletionRequested v ∧ 0 ≤ v_ObservedGeneration v ≤ v_Generation v ≤ 2 ∧
     (v_State v = "available" → v_ObservedGeneration v = v_Generation v ∧ v_DeletionRequested v = 0)) ∧
  (∀ id s, subnets d !! id = Some s →
     s_Generation s = 1 + s_DeletionRequested s ∧ 0 ≤ s_ObservedGeneration s ≤ s_Generation s ≤ 2 ∧
     (s_State s = "available" → s_ObservedGeneration s = s_Generation s ∧ s_DeletionRequested s = 0)) ∧
  (∀ id r, instances d !! id = Some r →
     i_Generation r = 1 + i_DeletionRequested r ∧ 0 ≤ i_ObservedGeneration r ≤ i_Generation r ≤ 2 ∧
     (i_ObservedGeneration r ≠ 0 → ∃ rt, i_RuntimeID r = Some rt ∧ rt ≠ "")).
Proof.
  intros d. pose proof (proj2 (execute_all_steps ops initialDB initial_Inv)) as I. fold d in I. split_and!.
  - intros id v [_ _ _ _ Hc%vpc_check_iff [Hg Hd] Hlive]%(inv_v d I). split_and!; try done; try lia.
  - intros id s [_ _ _ _ Hc%subnet_check_iff [Hg Hd] Hlive]%(inv_s d I). split_and!; try done; try lia.
  - intros id r [_ _ _ Hc%instance_check_iff [Hg Hd] Hrt Ho]%(inv_i d I). split_and!; try done; try lia.
    intros Hne. destruct Ho as [|[rt E]]; [done|]. exists rt. split; [done|congruence].
Qed.

(** C19: In a reachable state the resources are consistent.  A VPC marked for
    deletion has no subnet, a subnet marked for deletion has no instance and no
    interface, and every instance has exactly one interface.  Generations count desired
    changes: 1 after creation, 2 once deletion is requested, so they never overflow;
    the observed generation never exceeds them, and [available] means that the
    current generation of a live resource was observed. *)
Theorem resources_are_consistent ops :
  let d := execute_all ops initialDB in
  (∀ id v, vpcs d !! id = Some v → v_DeletionRequested v = 1 → no_subnets d id) ∧
  (∀ id s, subnets d !! id = Some s → s_DeletionRequested s = 1 →
     no_instances d id ∧ ∀ eid e, enis d !! eid = Some e → e_SubnetID e ≠ id) ∧
  (∀ id r, instances d !! id = Some r →
     ∃ eid, (∃ e, enis d !! eid = Some e ∧ e_InstanceID e = id) ∧
       ∀ eid' e', enis d !! eid' = Some e' → e_InstanceID e' = id → eid' = eid) ∧
  (∀ id v, vpcs d !! id = Some v →
     v_Generation v = 1 + v_DeletionRequested v ∧ 0 ≤ v_ObservedGeneration v ≤ v_Generation v ≤ 2 ∧
     (v_State v = "available" → v_ObservedGeneration v = v_Generation v ∧ v_DeletionRequested v = 0)) ∧
  (∀ id s, subnets d !! id = Some s →
     s_Generation s = 1 + s_DeletionRequested s ∧ 0 ≤ s_ObservedGeneration s ≤ s_Generation s ≤ 2 ∧
     (s_State s = "available" → s_ObservedGeneration s = s_Generation s ∧ s_DeletionRequested s = 0)) ∧
  (∀ id r, instances d !! id = Some r →
     i_Generation r = 1 + i_DeletionRequested r ∧ 0 ≤ i_ObservedGeneration r ≤ i_Generation r ≤ 2 ∧
     (i_ObservedGeneration r ≠ 0 → ∃ rt, i_RuntimeID r = Some rt ∧ rt ≠ "")).
Proof.
  intros d. destruct (deletion_waits_for_dependents ops) as (H1 & H2 & H3). destruct (generations_and_observation ops) as (H4 & H5 & H6).
  by split_and!.
Qed.
