(* ===== verification/Replay.v ===== *)
(** Idempotent creation: [internal/service/idempotency.go] in the create
    operations.  A request repeated with its Idempotency-Key within a day gets the
    original answer and changes nothing, whatever happened in between. *)

From S2P Require Import Prelude Errors GoStrings Encodings Utf8 NetIP Validate Ipam Sha256 Mac Model Snapshot.
From S2P Require Import Schema Tx Transitions Store Idempotency Refine RecordRefine.
From S2P Require Import NetworkService InstanceService ServiceRefine System.
Local Open Scope Z_scope.

(** ** Computations that leave an idempotency record alone *)
Abbreviation record_key := (string * string * string)%type.
Class Keeps (k : record_key) {A} (m : Tx A) : Prop :=
  keeps s : idempotency (tx_db (m s).2) !! k = idempotency (tx_db s) !! k.
Class KeepsAll {A} (f : statement A) : Prop :=
  keeps_all d a d' : f d = Ok (a, d') → idempotency d' = idempotency d.

#[export] Instance Keeps_ReadOnly k {A} (m : Tx A) : ReadOnly m → Keeps k m | 10.
Proof. intros H s. by rewrite (H s). Qed.
#[export] Instance Keeps_bind k {A B} (m : Tx A) (f : A → Tx B) :
  Keeps k m → (∀ a, Keeps k (f a)) → Keeps k (m ≫= f).
Proof.
  intros Hm Hf s. specialize (Hm s). unfold mbind, tx_bind.
  destruct (m s) as [[a|e] s1]; [|done]. simpl in Hm. by rewrite (Hf a s1).
Qed.
#[export] Instance Keeps_wrapping k {A} t (m : Tx A) : Keeps k m → Keeps k (wrapping t m).
Proof. intros Hm s. specialize (Hm s). unfold wrapping. by destruct (m s). Qed.
#[export] Instance Keeps_or_missing k {A} e (m : Tx A) : Keeps k m → Keeps k (or_missing e m).
Proof. intros Hm s. specialize (Hm s). unfold or_missing. by destruct (m s) as [[] ?]. Qed.
#[export] Instance Keeps_rescue k {A} h (m : Tx A) : Keeps k m → Keeps k (rescue h m).
Proof. intros Hm s. specialize (Hm s). unfold rescue. by destruct (m s) as [[] ?]. Qed.
#[export] Instance Keeps_stmt k {A} (f : statement A) : KeepsAll f → Keeps k (stmt f).
Proof.
  intros Hf s. unfold stmt, mbind, tx_bind. pose proof (ReadOnly_tick s) as Ht.
  destruct (tick s) as [[u|e] s1]; [|simpl in *; by rewrite Ht]. simpl in Ht. unfold execute.
  destruct (f (tx_db s1)) as [[a d']|e] eqn:E; simpl; [|by rewrite Ht]. by rewrite (Hf _ _ _ E), Ht.
Qed.
#[export] Instance Keeps_if k {A} (b : bool) (m m' : Tx A) : Keeps k m → Keeps k m' → Keeps k (if b then m else m').
Proof. by destruct b. Qed.

(** Statements on other tables. *)
Ltac keeps_all := intros ? ? ?; intros; repeat case_match; inv_ok; by simplify_eq/=.
#[export] Instance KeepsAll_InsertEvent ws t r a s g m c : KeepsAll (q_InsertEvent ws t r a s g m c).
Proof. unfold q_InsertEvent, next_id, foreign_key. keeps_all. Qed.
#[export] Instance KeepsAll_InsertKernelIndex a b : KeepsAll (q_InsertKernelIndex a b).
Proof. unfold q_InsertKernelIndex, next_id, unique. keeps_all. Qed.
#[export] Instance KeepsAll_InsertVPC a b c d e f g : KeepsAll (q_InsertVPC a b c d e f g).
Proof. unfold q_InsertVPC, check, primary_key, unique, foreign_key. keeps_all. Qed.
#[export] Instance KeepsAll_InsertSubnet a b c d e f g h i : KeepsAll (q_InsertSubnet a b c d e f g h i).
Proof. unfold q_InsertSubnet, check, primary_key, unique, foreign_key. keeps_all. Qed.
#[export] Instance KeepsAll_InsertInstance a b c d e f g : KeepsAll (q_InsertInstance a b c d e f g).
Proof. unfold q_InsertInstance, check, primary_key, unique, foreign_key. keeps_all. Qed.
#[export] Instance KeepsAll_InsertENI a b c d e f g h i : KeepsAll (q_InsertENI a b c d e f g h i).
Proof. unfold q_InsertENI, primary_key, unique, foreign_key. keeps_all. Qed.
#[export] Instance KeepsAll_UpdateVPCStatus a b c d e f : KeepsAll (q_UpdateVPCStatus a b c d e f).
Proof. unfold q_UpdateVPCStatus, check. keeps_all. Qed.
#[export] Instance KeepsAll_UpdateSubnetStatus a b c d e f : KeepsAll (q_UpdateSubnetStatus a b c d e f).
Proof. unfold q_UpdateSubnetStatus, check. keeps_all. Qed.
#[export] Instance KeepsAll_UpdateInstanceStatus a b c d e f : KeepsAll (q_UpdateInstanceStatus a b c d e f).
Proof. unfold q_UpdateInstanceStatus, check. keeps_all. Qed.
#[export] Instance KeepsAll_UpdateENIStatus a b c d e f : KeepsAll (q_UpdateInstanceENIStatus a b c d e f).
Proof. unfold q_UpdateInstanceENIStatus, check. keeps_all. Qed.
#[export] Instance KeepsAll_MarkVPCDeleting a b c : KeepsAll (q_MarkVPCDeleting a b c).
Proof. unfold q_MarkVPCDeleting, check. keeps_all. Qed.
#[export] Instance KeepsAll_MarkSubnetDeleting a b c : KeepsAll (q_MarkSubnetDeleting a b c).
Proof. unfold q_MarkSubnetDeleting, check. keeps_all. Qed.
#[export] Instance KeepsAll_MarkInstanceTerminating a b c : KeepsAll (q_MarkInstanceTerminating a b c).
Proof. unfold q_MarkInstanceTerminating, check. keeps_all. Qed.
#[export] Instance KeepsAll_RecordRuntimeID a b c : KeepsAll (q_RecordRuntimeID a b c).
Proof. unfold q_RecordRuntimeID. keeps_all. Qed.
#[export] Instance KeepsAll_RetainRuntimeID a b : KeepsAll (q_RetainTerminatingRuntimeID a b).
Proof. unfold q_RetainTerminatingRuntimeID. keeps_all. Qed.
#[export] Instance KeepsAll_DeleteVPC a b : KeepsAll (q_DeleteVPC a b).
Proof. unfold q_DeleteVPC, foreign_key. keeps_all. Qed.
#[export] Instance KeepsAll_DeleteSubnet a b : KeepsAll (q_DeleteSubnet a b).
Proof. unfold q_DeleteSubnet, foreign_key. keeps_all. Qed.
#[export] Instance KeepsAll_DeleteInstance a b : KeepsAll (q_DeleteInstance a b).
Proof. unfold q_DeleteInstance, foreign_key. keeps_all. Qed.
#[export] Instance KeepsAll_DeleteInstanceENI a b : KeepsAll (q_DeleteInstanceENI a b).
Proof. unfold q_DeleteInstanceENI. keeps_all. Qed.

(** Operations of the store. *)
#[export] Instance Keeps_AppendEvent k e : Keeps k (tx_AppendEvent e).
Proof. unfold tx_AppendEvent. apply _. Qed.
#[export] Instance Keeps_saveReplay k `{Snapshot T} op key hash rid (x : T) now :
  k ≠ ("default", op, key) → Keeps k (saveReplay op key hash rid x now).
Proof.
  intros Hne. unfold saveReplay. destruct (key ==? ""); [apply _|]. apply Keeps_bind; [apply _|].
  intros snap. apply Keeps_wrapping. intros s. unfold stmt, mbind, tx_bind.
  pose proof (ReadOnly_tick s) as Ht. destruct (tick s) as [[u|e] s1]; [|simpl in *; by rewrite Ht].
  simpl in Ht. unfold execute, q_PutIdempotency, foreign_key. rewrite <- Ht.
  destruct (require _ _); simpl; [|done]. by rewrite lookup_insert_ne.
Qed.
#[export] Instance Keeps_recordChildren k state reason ok now l :
  Keeps k (recordChildren state reason ok now l).
Proof.
  induction l as [|x l IH]; cbn [recordChildren]; [apply _|].
  apply Keeps_bind; [|done]. unfold recordChild, tx_recordSubnetStatus. apply _.
Qed.
#[export] Instance Keeps_recordTopology k v l e now : Keeps k (recordTopology v l e now).
Proof. unfold recordTopology, tx_recordVPCStatus. apply _. Qed.
#[export] Instance Keeps_recordInstance k snap status reason observed now :
  Keeps k (recordInstance snap status reason observed now).
Proof. unfold recordInstance. apply _. Qed.
#[export] Instance Keeps_finish k snap now : Keeps k (finishInstanceTermination snap now).
Proof. unfold finishInstanceTermination. apply _. Qed.

(** Operations of the services. *)
#[export] Instance Keeps_deleteVPC k id now : Keeps k (deleteVPC id now).
Proof. unfold deleteVPC, tx_MarkVPCDeleting. apply _. Qed.
#[export] Instance Keeps_deleteSubnet k id now : Keeps k (deleteSubnet id now).
Proof. unfold deleteSubnet, tx_MarkSubnetDeleting. apply _. Qed.
#[export] Instance Keeps_terminateSnapshot k id now : Keeps k (terminateSnapshot id now).
Proof. unfold terminateSnapshot, tx_MarkInstanceTerminating. apply _. Qed.

Lemma Keeps_WithTx k {A} flt (m : Tx A) d : Keeps k m → idempotency (WithTx flt m d).2 !! k = idempotency d !! k.
Proof.
  intros Hk. destruct (WithTx flt m d) as [[a|e] d'] eqn:E; simpl.
  - apply WithTx_Ok in E as (s & s' & <- & Hrun & ->). specialize (Hk s). by rewrite Hrun in Hk.
  - by apply WithTx_Err in E as ->.
Qed.
Lemma Keeps_autocommit k {A} flt (m : Tx A) d :
  Keeps k m → idempotency (autocommit flt m d).2 !! k = idempotency d !! k.
Proof.
  intros Hk. destruct (autocommit flt m d) as [[a|e] d'] eqn:E; simpl.
  - apply autocommit_Ok in E as (s & s' & <- & Hrun & ->). specialize (Hk s). by rewrite Hrun in Hk.
  - by apply autocommit_Err in E as ->.
Qed.

(** ** A stored record answers *)
Definition record_of (op key : string) : record_key := ("default", op, key).

(** The shape of the create transactions. *)
Definition guarded `{Snapshot T} (op key hash : string) (now : Z) (body : Tx (T * bool)) : Tx (T * bool) :=
  replay ← loadReplay op key hash now;
  match replay with Some result => mret (result, false) | None => body end.

Section guarded.
Context {T : Type} `{Snapshot T} (op key : string) (Hkey : key ≠ "").
Implicit Types (x : T) (body : Tx (T * bool)) (rec : IdempotencyRequest).

Lemma tx_GetIdempotency_None ws (o k : string) s :
  idempotency (tx_db s) !! (ws, o, k) = None → ∀ a s', tx_GetIdempotency ws o k s ≠ (Ok a, s').
Proof.
  intros Hn a s' Hrun. unfold tx_GetIdempotency, q_GetIdempotency in Hrun. inv_tx.
  match goal with H : of_option _ (idempotency _ !! _) = _ |- _ => by rewrite Hn in H end.
Qed.

(** Without faults the original answer is returned. *)
Lemma loadReplay_hit rec x hash now d :
  idempotency d !! record_of op key = Some rec → k_PayloadHash rec = hash → now < k_ExpiresAt rec →
  Unmarshal (k_ResponseJson rec) = Ok x →
  loadReplay op key hash now (MkTxs d None) = (Ok (Some x), MkTxs d None).
Proof using Hkey.
  intros Hr Hh Hn Hx. unfold loadReplay. rewrite (proj2 (beq_false _ _) Hkey).
  unfold tx_GetIdempotency, q_GetIdempotency, record_of in *.
  unfold mbind, tx_bind, optional, wrapping. rewrite read_None. cbv beta. rewrite Hr. simpl.
  rewrite (proj2 (Z.leb_gt _ _)), Hh by done. unfold guard_tx. rewrite beq_refl. simpl. by rewrite Hx.
Qed.

Lemma loadReplay_mismatch rec hash now d :
  idempotency d !! record_of op key = Some rec → k_PayloadHash rec ≠ hash → now < k_ExpiresAt rec →
  loadReplay (T := T) op key hash now (MkTxs d None) = (Err parameterMismatch, MkTxs d None).
Proof using Hkey.
  intros Hr Hh Hn. unfold loadReplay. rewrite (proj2 (beq_false _ _) Hkey).
  unfold tx_GetIdempotency, q_GetIdempotency, record_of in *.
  unfold mbind, tx_bind, optional, wrapping. rewrite read_None. cbv beta. rewrite Hr. simpl.
  rewrite (proj2 (Z.leb_gt _ _)) by done. unfold guard_tx. by rewrite (proj2 (beq_false _ _) Hh).
Qed.

(** Whatever fails, a live record is not taken for a missing one. *)
Lemma loadReplay_live rec hash now s s' :
  idempotency (tx_db s) !! record_of op key = Some rec → now < k_ExpiresAt rec →
  loadReplay (T := T) op key hash now s ≠ (Ok None, s').
Proof using Hkey.
  intros Hr Hn Hrun. unfold loadReplay in Hrun. rewrite (proj2 (beq_false _ _) Hkey) in Hrun.
  run Hrun as found s1 E1. destruct found as [r|].
  - apply optional_Ok in E1 as [(a & [= <-] & E1)|(e & ? & _)]; [|done].
    unfold tx_GetIdempotency, q_GetIdempotency, record_of in *. inv_tx.
    match goal with H : of_option _ (idempotency _ !! _) = _ |- _ => rewrite Hr in H; injection H as <- end.
    simpl in Hrun. rewrite (proj2 (Z.leb_gt _ _)) in Hrun by done. by inv_tx.
  - apply optional_Ok in E1 as [(a & ? & _)|(e & _ & E1 & He)]; [done|].
    unfold tx_GetIdempotency, q_GetIdempotency, record_of in *.
    unfold mbind, tx_bind, wrapping, read, tick, scan_rows in E1. simpl in E1.
    unfold mbind, tx_bind in E1. destruct (tx_fault s) as [[[|m] msg]|]; simpl in E1; rewrite ?Hr in E1; by simplify_eq.
Qed.

Lemma guarded_live rec hash now body flt d :
  idempotency d !! record_of op key = Some rec → now < k_ExpiresAt rec →
  (WithTx flt (guarded op key hash now body) d).2 = d.
Proof using Hkey.
  intros Hr Hn. destruct (WithTx flt _ d) as [[a|e] d'] eqn:E; simpl; [|by apply WithTx_Err in E].
  apply WithTx_Ok in E as (s & s' & Hs & Hrun & ->). unfold guarded in Hrun.
  run Hrun as found s1 E1. destruct found as [x|].
  - inv_tx. rewrite <- Hs. by apply read_only_run in E1; [|apply _].
  - exfalso. eapply loadReplay_live; [|exact Hn|exact E1]. by rewrite Hs.
Qed.

Lemma guarded_replays rec x hash now body d :
  idempotency d !! record_of op key = Some rec → k_PayloadHash rec = hash → now < k_ExpiresAt rec →
  Unmarshal (k_ResponseJson rec) = Ok x →
  WithTx None (guarded op key hash now body) d = (Ok (x, false), d).
Proof using Hkey.
  intros. apply WithTx_None_Ok. unfold guarded, mbind, tx_bind. by rewrite (loadReplay_hit rec x).
Qed.

Lemma guarded_mismatch rec hash now body d :
  idempotency d !! record_of op key = Some rec → k_PayloadHash rec ≠ hash → now < k_ExpiresAt rec →
  WithTx None (guarded op key hash now body) d =
  (Err (Wrapf (Sprintf "resource transaction: %w" []) parameterMismatch), d).
Proof using Hkey.
  intros. eapply WithTx_None_Err. unfold guarded, mbind, tx_bind. by rewrite (loadReplay_mismatch rec).
Qed.

(** A new key: the body runs. *)
Lemma loadReplay_new hash now s o s' :
  idempotency (tx_db s) !! record_of op key = None →
  loadReplay (T := T) op key hash now s = (Ok o, s') → o = None ∧ tx_db s' = tx_db s.
Proof using Hkey.
  intros Hn Hrun. pose proof (read_only_run _ _ _ _ Hrun) as Edb. split; [|done].
  unfold loadReplay in Hrun. rewrite (proj2 (beq_false _ _) Hkey) in Hrun.
  run Hrun as found s1 E1. destruct found as [r|]; [|by inv_tx].
  apply optional_Ok in E1 as [(a & _ & E1)|(e & ? & _)]; [|done].
  by apply tx_GetIdempotency_None in E1.
Qed.

Lemma saveReplay_stores hash rid x now s u s' :
  saveReplay op key hash rid x now s = (Ok u, s') →
  ∃ snap, Marshal x = Ok snap ∧
    idempotency (tx_db s') !! record_of op key =
      Some (MkIdempotencyRequest "default" op key hash rid now (now + day) snap).
Proof using Hkey.
  unfold saveReplay. rewrite (proj2 (beq_false _ _) Hkey). intros. inv_tx.
  match goal with H : tx_PutIdempotency _ _ = _ |- _ => apply PutIdempotency_inv in H as -> end.
  match goal with H : wrap_err _ (Marshal x) = Ok _ |- _ => rename H into Hm end.
  destruct (Marshal x) as [snap|]; simplify_eq/=. eexists. split; [done|]. simpl. by rewrite lookup_insert_eq.
Qed.
End guarded.

(** ** A record survives until it expires *)

(** Requests that reuse the key of an operation come before [until]. *)
Definition early (operation key : string) (until : Z) (o : op) : Prop :=
  match o with
  | OpCreateVPC env _ key' => operation = "create-vpc" → key' = key → env_now env < until
  | OpCreateSubnet env _ key' => operation = "create-subnet" → key' = key → env_now env < until
  | OpRun env _ key' => operation = "run-instance" → key' = key → env_now env < until
  | _ => True
  end.

#[local] Hint Extern 0 (¬ (_ = _)) => assumption : typeclass_instances.

(** With another key the record is not written; with the same, the live record
    stops the body. *)
Lemma create_record {T} `{Snapshot T} o k' hash now body flt d operation key rec :
  key ≠ "" → idempotency d !! record_of operation key = Some rec →
  (operation = o → k' = key → now < k_ExpiresAt rec) →
  (record_of operation key ≠ record_of o k' → Keeps (record_of operation key) body) →
  idempotency (WithTx flt (guarded (T := T) o k' hash now body) d).2 !! record_of operation key = Some rec.
Proof.
  intros Hkey Hr Hlate Hbody. destruct (decide (record_of operation key = record_of o k')) as [[= -> ->]|Hne].
  - by rewrite (guarded_live o k' Hkey rec) by auto.
  - rewrite Keeps_WithTx; [done|]. specialize (Hbody Hne). apply Keeps_bind; [apply _|]. intros [x|]; apply _.
Qed.

Lemma after_commit_db {A} env (id : A → string) r : (after_commit env id r).1.2 = r.2.
Proof. by destruct r as [[[a c]|e] d']. Qed.

Lemma createVPC_record name cidr key' hash id now flt d operation key rec :
  key ≠ "" → idempotency d !! record_of operation key = Some rec →
  (operation = "create-vpc" → key' = key → now < k_ExpiresAt rec) →
  idempotency (WithTx flt (createVPC name cidr key' hash id now) d).2 !! record_of operation key = Some rec.
Proof.
  intros Hkey Hr Hlate. refine (create_record _ _ _ _ _ _ _ _ _ _ Hkey Hr Hlate _).
Qed.
Lemma createSubnet_record input name cidr key' hash id now flt d operation key rec :
  key ≠ "" → idempotency d !! record_of operation key = Some rec →
  (operation = "create-subnet" → key' = key → now < k_ExpiresAt rec) →
  idempotency (WithTx flt (createSubnet input name cidr key' hash id now) d).2 !! record_of operation key = Some rec.
Proof.
  intros Hkey Hr Hlate. refine (create_record _ _ _ _ _ _ _ _ _ _ Hkey Hr Hlate _).
Qed.
Lemma runInstance_record input name key' hash id eniID now flt d operation key rec :
  key ≠ "" → idempotency d !! record_of operation key = Some rec →
  (operation = "run-instance" → key' = key → now < k_ExpiresAt rec) →
  idempotency (WithTx flt (runInstance input name key' hash id eniID now) d).2 !! record_of operation key = Some rec.
Proof.
  intros Hkey Hr Hlate. refine (create_record _ _ _ _ _ _ _ _ _ _ Hkey Hr Hlate _).
Qed.

(** Requests with another key, or of another operation. *)
Definition elsewhere (operation key : string) (o : op) : Prop :=
  match o with
  | OpCreateVPC _ _ key' => operation = "create-vpc" → key' ≠ key
  | OpCreateSubnet _ _ key' => operation = "create-subnet" → key' ≠ key
  | OpRun _ _ key' => operation = "run-instance" → key' ≠ key
  | _ => True
  end.

Lemma create_elsewhere {T} `{Snapshot T} o k' hash now body flt d operation key :
  (operation = o → k' ≠ key) →
  (record_of operation key ≠ record_of o k' → Keeps (record_of operation key) body) →
  idempotency (WithTx flt (guarded (T := T) o k' hash now body) d).2 !! record_of operation key =
  idempotency d !! record_of operation key.
Proof.
  intros Ho Hbody. assert (record_of operation key ≠ record_of o k') as Hne.
  { intros [= -> ->]. by apply Ho. }
  rewrite Keeps_WithTx; [done|]. specialize (Hbody Hne). apply Keeps_bind; [apply _|]. intros [x|]; apply _.
Qed.

Lemma perform_elsewhere o d operation key :
  elsewhere operation key o →
  idempotency (perform o d).2 !! record_of operation key = idempotency d !! record_of operation key.
Proof.
  intros He. destruct o; simpl in *.
  - unfold CreateVPC. destruct (_ ≫= _) as [[[[? ?] ?] ?]|]; [|done]. rewrite after_commit_db.
    refine (create_elsewhere _ _ _ _ _ _ _ _ _ He _).
  - unfold DeleteVPC. rewrite after_commit_db, Keeps_WithTx; [done|apply _].
  - unfold CreateSubnet. destruct (_ ≫= _) as [[[[? ?] ?] ?]|]; [|done]. rewrite after_commit_db.
    refine (create_elsewhere _ _ _ _ _ _ _ _ _ He _).
  - unfold DeleteSubnet. rewrite after_commit_db, Keeps_WithTx; [done|apply _].
  - unfold Run. destruct (_ ≫= _) as [[[[? ?] ?] ?]|]; [|done]. rewrite after_commit_db.
    refine (create_elsewhere _ _ _ _ _ _ _ _ _ He _).
  - unfold Terminate. destruct (TerminateSnapshot env id d) as [[r d'] q] eqn:E. simpl.
    pose proof (after_commit_db env (λ _ : Instance_, id)
      (WithTx (env_fault env) (terminateSnapshot id (env_now env)) d)) as Hd.
    unfold TerminateSnapshot in E. rewrite E in Hd. simpl in Hd. rewrite Hd, Keeps_WithTx; [done|apply _].
  - unfold store_RecordTopology. destruct ctxErr; [done|]. rewrite Keeps_WithTx; [done|apply _].
  - unfold store_RecordRuntimeID. destruct (rt ==? ""); [done|].
    match goal with |- context [autocommit ?f ?m d] => pose proof (Keeps_autocommit (record_of operation key) f m d _) as Hk;
      destruct (autocommit f m d) as [[]] end; simpl in *; congruence.
  - unfold store_RetainTerminatingRuntimeID. destruct (rt ==? ""); [done|].
    match goal with |- context [autocommit ?f ?m d] => pose proof (Keeps_autocommit (record_of operation key) f m d _) as Hk;
      destruct (autocommit f m d) as [[]] end; simpl in *; congruence.
  - unfold store_RecordInstance. destruct (_ && _); [done|]. destruct (_ && _); [done|].
    rewrite Keeps_WithTx; [done|apply _].
  - unfold store_FinishInstanceTermination. rewrite Keeps_WithTx; [done|apply _].
Qed.

Lemma perform_record o d operation key rec :
  key ≠ "" → idempotency d !! record_of operation key = Some rec →
  early operation key (k_ExpiresAt rec) o →
  idempotency (perform o d).2 !! record_of operation key = Some rec.
Proof.
  intros Hkey Hr Hearly. destruct o; try (rewrite perform_elsewhere; [exact Hr|exact I]); simpl in *.
  - unfold CreateVPC. destruct (_ ≫= _) as [[[[? ?] ?] ?]|]; [|done]. rewrite after_commit_db.
    by apply createVPC_record.
  - unfold CreateSubnet. destruct (_ ≫= _) as [[[[? ?] ?] ?]|]; [|done]. rewrite after_commit_db.
    by apply createSubnet_record.
  - unfold Run. destruct (_ ≫= _) as [[[[? ?] ?] ?]|]; [|done]. rewrite after_commit_db.
    by apply runInstance_record.
Qed.

Lemma execute_all_record ops d operation key rec :
  key ≠ "" → idempotency d !! record_of operation key = Some rec →
  Forall (early operation key (k_ExpiresAt rec)) ops →
  idempotency (execute_all ops d) !! record_of operation key = Some rec.
Proof.
  intros Hkey. revert d. induction ops as [|o ops IH]; intros d Hr Hall; [done|].
  apply Forall_cons in Hall as [Ho Hall]. unfold execute_all. simpl. apply IH; [|done]. by apply perform_record.
Qed.

(** ** The snapshots the create operations store decode to themselves *)
Lemma NewID_text8 prefix random id :
  Forall is_byte random → ascii7 prefix → NewID prefix random = Ok id → text8 id.
Proof.
  intros Hr Hp (hex & -> & _ & Hhex)%NewID_shape; [|done]. apply ascii_text8, ascii7_app; [done|].
  apply Forall_forall. intros b Hb%list_elem_of_In. rewrite forallb_forall in Hhex. apply Hhex in Hb.
  unfold is_hex_lower, is_digit in Hb. apply orb_true_iff in Hb as [Hb|Hb]; reflect_bools; lia.
Qed.

Lemma lit_text8 s : forallb (λ b, b <? 128) (bytes s) = true → text8 s.
Proof. intros. by apply ascii_text8, ascii7_lit. Qed.

Lemma name_text8 name : ValidateName name = Ok name → text8 name.
Proof. by intros (Hv & _)%ValidateName_inv. Qed.

Lemma index_int64 s n kind rid s' : Inv (tx_db s) → tx_AllocateIndex kind rid s = (Ok n, s') → int64 n.
Proof. intros I (-> & Hlt & _)%AllocateIndex_inv. pose proof (inv_kseq _ I). unfold int64. lia. Qed.

(** What a create operation with a new key leaves. *)
Definition remembered `{Snapshot T} (op key hash : string) (now : Z) (x : T) (d : DB) : Prop :=
  ∃ rec, idempotency d !! record_of op key = Some rec ∧ k_PayloadHash rec = hash ∧
         k_ExpiresAt rec = now + day ∧ Unmarshal (k_ResponseJson rec) = Ok x.

Lemma saveReplay_remembers `{Snapshot T} op key hash rid (x : T) now s u s' :
  key ≠ "" → faithful x → saveReplay op key hash rid x now s = (Ok u, s') →
  remembered op key hash now x (tx_db s').
Proof.
  intros Hkey Hx (snap & Hm & Hrec)%saveReplay_stores; [|done]. eexists. split_and!; [exact Hrec|done..|].
  simpl. by eapply Unmarshal_Marshal.
Qed.

Lemma createVPC_remembers name cidr key hash random id now s v c s' :
  Inv (tx_db s) → key ≠ "" → idempotency (tx_db s) !! record_of "create-vpc" key = None →
  ValidateName name = Ok name → canonical cidr → Forall is_byte random → NewID "vpc-" random = Ok id →
  createVPC name cidr key hash id now s = (Ok (v, c), s') →
  remembered "create-vpc" key hash now v (tx_db s').
Proof.
  intros I Hkey Hnew Hname Hcidr Hrand Hid H. unfold createVPC in H.
  run H as rep s1 E1. apply loadReplay_new in E1 as [-> E1]; [|done..].
  run H as u s2 E2. apply read_only_run in E2; [|apply _]. run H as n s3 E3.
  apply index_int64 in E3; [|by rewrite E2, E1]. run H as u1 s4 E4. run H as u2 s5 E5.
  run H as u3 s6 E6. apply ret_Ok in H as [[= <- <-] ->]. refine (saveReplay_remembers _ _ _ _ _ _ _ _ _ Hkey _ E6).
  split; simpl; [split_and!|by destruct Hcidr|unfold int64 in *; lia]; try by apply lit_text8.
  - by eapply (NewID_text8 "vpc-"); [|apply ascii7_lit|].
  - by apply name_text8.
Qed.

Lemma createSubnet_remembers input name cidr key hash random id now s v c s' :
  Inv (tx_db s) → key ≠ "" → idempotency (tx_db s) !! record_of "create-subnet" key = None →
  ValidateName name = Ok name → canonical cidr → Forall is_byte random → NewID "subnet-" random = Ok id →
  text8 (cs_VPCID input) → text8 (cs_AvailabilityZone input) →
  createSubnet input name cidr key hash id now s = (Ok (v, c), s') →
  remembered "create-subnet" key hash now v (tx_db s').
Proof.
  intros I Hkey Hnew Hname Hcidr Hrand Hid Hvpc Hzone H. unfold createSubnet in H.
  run H as rep s1 E1. apply loadReplay_new in E1 as [-> E1]; [|done..].
  run H as vpc s2 E2. apply or_missing_Ok, GetVPC_inv in E2 as (r & Hr & _ & Hv & E2).
  run H as u3 s3 E3. apply guard_tx_Ok in E3 as [_ ->]. run H as u4 s4 E4. apply lift_Ok in E4 as [_ ->].
  run H as l s5 E5. apply read_only_run in E5; [|apply _]. run H as u6 s6 E6. apply lift_Ok in E6 as [_ ->].
  run H as u7 s7 E7. apply read_only_run in E7; [|apply _]. run H as n s8 E8.
  apply index_int64 in E8; [|by rewrite E7, E5, E2, E1]. run H as u9 s9 E9. run H as u10 s10 E10.
  run H as u11 s11 E11. apply ret_Ok in H as [[= <- <-] ->]. refine (saveReplay_remembers _ _ _ _ _ _ _ _ _ Hkey _ E11).
  rewrite E1 in Hr. destruct (inv_v _ I _ r Hr) as [Eid _ _ _ _ _ _].
  apply vpcFromRow_inv in Hv as (p & _ & ->). simpl in *.
  split; simpl; [split_and!|by destruct Hcidr|unfold int64 in *; lia]; try by apply lit_text8.
  - by eapply (NewID_text8 "subnet-"); [|apply ascii7_lit|].
  - by rewrite Eid.
  - by apply name_text8.
  - done.
Qed.

Lemma mac_text8 l : Forall is_byte l → text8 (HardwareAddr_String l).
Proof.
  intros Hb. apply ascii_text8. unfold ascii7, HardwareAddr_String.
  rewrite bytes_of_bytes by auto using mac_bytes_byte.
  assert (∀ d, 0 ≤ d < 16 → hexchar d < 128) as Hc by (intros d Hd; unfold hexchar; case_match; lia).
  induction Hb as [|b l Hb Hl IH]; [constructor|]. destruct (nibbles b Hb) as [??].
  destruct l as [|c l]; repeat (apply Forall_cons; split); auto. done.
Qed.

Lemma runInstance_remembers input name key hash random random2 id eniID now s v c s' :
  Inv (tx_db s) → key ≠ "" → idempotency (tx_db s) !! record_of "run-instance" key = None →
  ValidateName name = Ok name → Forall is_byte random → Forall is_byte random2 →
  NewID "i-" random = Ok id → NewID "eni-" random2 = Ok eniID → text8 (ri_SubnetID input) →
  runInstance input name key hash id eniID now s = (Ok (v, c), s') →
  remembered "run-instance" key hash now v (tx_db s').
Proof.
  intros I Hkey Hnew Hname Hrand Hrand2 Hid Heni Hsub H. unfold runInstance in H.
  run H as rep s1 E1. apply loadReplay_new in E1 as [-> E1]; [|done..].
  run H as subnet s2 E2. apply or_missing_Ok, GetSubnet_inv in E2 as (r & Hr & _ & Hv & E2).
  run H as u3 s3 E3. apply guard_tx_Ok in E3 as [_ ->].
  run H as u4 s4 E4. apply read_only_run in E4; [|apply _].
  run H as used s5 E5. apply read_only_run in E5; [|apply _].
  run H as address s6 E6. apply lift_Ok in E6 as [Haddr%exhausted_Ok ->].
  assert (Inv (tx_db s5)) as I5 by (by rewrite E5, E4, E2, E1).
  run H as n s7 E7. pose proof (AllocateIndex_steps _ _ _ _ _ E7) as [Hs7 _].
  apply index_int64 in E7; [|done]. pose proof (steps_Inv _ _ Hs7 I5) as I7.
  run H as m s8 E8. apply index_int64 in E8; [|done]. run H as u9 s9 E9. run H as u10 s10 E10.
  run H as u11 s11 E11. apply ret_Ok in H as [[= <- <-] ->].
  refine (saveReplay_remembers _ _ _ _ _ _ _ _ _ Hkey _ E11).
  rewrite E1 in Hr. destruct (inv_s _ I _ r Hr) as [Eid _ _ (q & Hq & Ht) _ _ _].
  apply subnetFromRow_inv in Hv as (p & Hp & ->). simpl in *.
  pose proof (stored_cidr_valid _ _ _ Hq Ht Hp) as ->.
  apply nextPrivateIP_usable in Haddr as (Hin & _ & _); [|done].
  assert (text8 id) by (by eapply (NewID_text8 "i-" random); [|apply ascii7_lit|]).
  assert (text8 eniID) by (by eapply (NewID_text8 "eni-" random2); [|apply ascii7_lit|]).
  assert (text8 (s_ID r)) by (by rewrite Eid).
  split; simpl; [split_and!; auto using name_text8, lit_text8| |unfold int64 in *; lia].
  split; simpl; [split_and!; auto using lit_text8| |unfold int64 in *; lia].
  - apply mac_text8. by destruct (eniMAC_shape eniID) as (_ & ? & _).
  - destruct Hq as [Hqv _]. destruct (Contains4_Is4 q address Hqv Hin) as [w ->]. exists w. split; [done|].
    apply Contains4 in Hin; [|done]. pose proof (base4_range q Hqv). lia.
Qed.

(** A remembered answer is given again, after anything but a late reuse of the key. *)
Lemma remembered_replays `{Snapshot T} op key hash now (x : T) d ops now' body :
  key ≠ "" → remembered op key hash now x d → Forall (early op key (now + day)) ops → now' < now + day →
  WithTx None (guarded op key hash now' body) (execute_all ops d) = (Ok (x, false), execute_all ops d).
Proof.
  intros Hkey (rec & Hrec & Hh & Hx & Hu) Hops Hnow.
  apply (execute_all_record ops) in Hrec; [|done|by rewrite Hx]. apply (guarded_replays op key Hkey rec); auto. lia.
Qed.

Lemma remembered_mismatch `{Snapshot T} op key hash hash' now (x : T) d ops now' body :
  key ≠ "" → remembered op key hash now x d → Forall (early op key (now + day)) ops → now' < now + day →
  hash ≠ hash' →
  WithTx None (guarded (T := T) op key hash' now' body) (execute_all ops d) =
  (Err (Wrapf (Sprintf "resource transaction: %w" []) parameterMismatch), execute_all ops d).
Proof.
  intros Hkey (rec & Hrec & Hh & Hx & Hu) Hops Hnow Hne.
  apply (execute_all_record ops) in Hrec; [|done|by rewrite Hx]. apply (guarded_mismatch op key Hkey rec); auto; [congruence|lia].
Qed.

Lemma NewID_total prefix random : validIDPrefix prefix = true → (9 ≤ length random)%nat → ∃ id, NewID prefix random = Ok id.
Proof. intros Hp Hl. unfold NewID. rewrite Hp. simpl. rewrite (proj2 (Nat.ltb_ge _ _)) by lia. eauto. Qed.

(** The accepted parameters of the create requests, and their hash. *)
Definition vpc_request (input : CreateVPCInput) (name : string) (cidr : Prefix) (hash : string) : Prop :=
  ValidateName (cv_Name input) = Ok name ∧ ParseCIDR (cv_CIDRBlock input) = Ok cidr ∧
  hashPayload [name; Prefix_String cidr] = Ok hash.
Definition subnet_request (input : CreateSubnetInput) (name : string) (cidr : Prefix) (hash : string) : Prop :=
  ValidateName (cs_Name input) = Ok name ∧ ParseCIDR (cs_CIDRBlock input) = Ok cidr ∧
  zone_check (cs_AvailabilityZone input) = true ∧
  hashPayload [name; cs_VPCID input; Prefix_String cidr; cs_AvailabilityZone input] = Ok hash.
Definition instance_request (input : RunInstanceInput) (name hash : string) : Prop :=
  ValidateName (ri_Name input) = Ok name ∧ hashPayload [name; ri_SubnetID input] = Ok hash.

(** What the first request of a key leaves, and how a later one runs. *)
Lemma CreateVPC_remembers env input key d v d1 hints name cidr hash :
  Inv d → Forall is_byte (env_random env) → key ≠ "" →
  idempotency d !! record_of "create-vpc" key = None → vpc_request input name cidr hash →
  CreateVPC env input key d = (Ok v, d1, hints) →
  remembered "create-vpc" key hash (env_now env) v d1 ∧ validateIdempotencyKey key = Ok tt.
Proof.
  intros I Hr Hkey Hnew (Hname & Hcidr & Hh) H. unfold CreateVPC in H. rewrite Hname, Hcidr in H. simpl in H.
  destruct (validateIdempotencyKey key) as [[]|]; [|done]. split; [|done].
  destruct (NewID "vpc-" (env_random env)) as [id|] eqn:Hid; [|done]. simpl in H.
  unfold after_commit in H. destruct (WithTx _ _ d) as [[[v' c]|] d'] eqn:E; [|done]. simplify_eq/=.
  apply WithTx_Ok in E as (s & s' & Hs & Hrun & ->). injection Hh as <-.
  eapply createVPC_remembers; [..|exact Hrun]; eauto using ValidateName_fixed, ParseCIDR_canonical; by rewrite Hs.
Qed.

Lemma CreateVPC_run env input key d name cidr hash :
  vpc_request input name cidr hash → validateIdempotencyKey key = Ok tt → env_fault env = None →
  (9 ≤ length (env_random env))%nat →
  ∃ body, CreateVPC env input key d =
    after_commit env VPC_ID (WithTx None (guarded "create-vpc" key hash (env_now env) body) d).
Proof.
  intros (Hname & Hcidr & [= <-]) Hk Hf Hlen. destruct (NewID_total "vpc-" _ eq_refl Hlen) as [id Hid].
  unfold CreateVPC. rewrite Hname, Hcidr, Hk, Hid, Hf. simpl. eexists. reflexivity.
Qed.

Lemma CreateSubnet_remembers env input key d v d1 hints name cidr hash :
  Inv d → Forall is_byte (env_random env) → key ≠ "" → text8 (cs_VPCID input) →
  idempotency d !! record_of "create-subnet" key = None → subnet_request input name cidr hash →
  CreateSubnet env input key d = (Ok v, d1, hints) →
  remembered "create-subnet" key hash (env_now env) v d1 ∧ validateIdempotencyKey key = Ok tt.
Proof.
  intros I Hr Hkey Hv Hnew (Hname & Hcidr & Hz & Hh) H. unfold CreateSubnet in H. rewrite Hname, Hcidr in H. simpl in H.
  destruct (require _ _) as [[]|] eqn:Hzone; [|done]. simpl in H. clear Hzone.
  destruct (validateIdempotencyKey key) as [[]|]; [|done]. split; [|done].
  destruct (NewID "subnet-" (env_random env)) as [id|] eqn:Hid; [|done]. simpl in H.
  unfold after_commit in H. destruct (WithTx _ _ d) as [[[v' c]|] d'] eqn:E; [|done]. simplify_eq/=.
  apply WithTx_Ok in E as (s & s' & Hs & Hrun & ->). injection Hh as <-.
  eapply createSubnet_remembers; [..|exact Hrun]; eauto using ValidateName_fixed, ParseCIDR_canonical; try by rewrite Hs.
  unfold zone_check, in_list in Hz. apply bool_decide_eq_true in Hz.
  repeat (apply elem_of_cons in Hz as [->|Hz]; [by apply lit_text8|]). by apply not_elem_of_nil in Hz.
Qed.

Lemma zone_required z :
  zone_check z = true → (z ==? "local-1a") || (z ==? "local-1b") || (z ==? "local-1c") = true.
Proof.
  unfold zone_check, in_list. intros Hz. apply bool_decide_eq_true in Hz.
  repeat (apply elem_of_cons in Hz as [->|Hz]; [done|]). by apply not_elem_of_nil in Hz.
Qed.

Lemma CreateSubnet_run env input key d name cidr hash :
  subnet_request input name cidr hash → validateIdempotencyKey key = Ok tt → env_fault env = None →
  (9 ≤ length (env_random env))%nat →
  ∃ body, CreateSubnet env input key d =
    after_commit env Subnet_VPCID (WithTx None (guarded "create-subnet" key hash (env_now env) body) d).
Proof.
  intros (Hname & Hcidr & Hz%zone_required & [= <-]) Hk Hf Hlen. destruct (NewID_total "subnet-" _ eq_refl Hlen) as [id Hid].
  unfold CreateSubnet. rewrite Hname, Hcidr, Hz, Hk, Hid, Hf. simpl. eexists. reflexivity.
Qed.

Lemma Run_remembers env input key d v d1 hints name hash :
  Inv d → Forall is_byte (env_random env) → Forall is_byte (env_random2 env) → key ≠ "" →
  text8 (ri_SubnetID input) →
  idempotency d !! record_of "run-instance" key = None → instance_request input name hash →
  Run env input key d = (Ok v, d1, hints) →
  remembered "run-instance" key hash (env_now env) v d1 ∧ validateIdempotencyKey key = Ok tt.
Proof.
  intros I Hr Hr2 Hkey Hv Hnew (Hname & Hh) H. unfold Run in H. rewrite Hname in H. simpl in H.
  destruct (validateIdempotencyKey key) as [[]|]; [|done]. split; [|done].
  destruct (NewID "i-" (env_random env)) as [id|] eqn:Hid; [|done]. simpl in H.
  destruct (NewID "eni-" (env_random2 env)) as [eni|] eqn:Heni; [|done]. simpl in H.
  unfold after_commit in H. destruct (WithTx _ _ d) as [[[v' c]|] d'] eqn:E; [|done]. simplify_eq/=.
  apply WithTx_Ok in E as (s & s' & Hs & Hrun & ->). injection Hh as <-.
  eapply (runInstance_remembers _ _ _ _ (env_random env) (env_random2 env)); [..|exact Hrun];
    eauto using ValidateName_fixed; by rewrite Hs.
Qed.

Lemma Run_run env input key d name hash :
  instance_request input name hash → validateIdempotencyKey key = Ok tt → env_fault env = None →
  (9 ≤ length (env_random env))%nat → (9 ≤ length (env_random2 env))%nat →
  ∃ body, Run env input key d =
    after_commit env Instance_ID (WithTx None (guarded "run-instance" key hash (env_now env) body) d).
Proof.
  intros (Hname & [= <-]) Hk Hf Hlen Hlen2. destruct (NewID_total "i-" _ eq_refl Hlen) as [id Hid].
  destruct (NewID_total "eni-" _ eq_refl Hlen2) as [eni Heni].
  unfold Run. rewrite Hname, Hk, Hid, Heni, Hf. simpl. eexists. reflexivity.
Qed.

(** ** Properties *)

(** A CreateVPC with a new Idempotency-Key is repeated within a day, by a request
    with the same normalized parameters, after any operations of the system in between
    (requests that reuse the key included): the original answer is returned, nothing
    changes and nothing is enqueued.  With other parameters (another payload hash) it
    is refused as IdempotentParameterMismatch and changes nothing. *)
Lemma create_vpc_is_idempotent env env' input input' key d v d1 hints ops name cidr name' cidr' hash hash' :
  Inv d → Forall is_byte (env_random env) → key ≠ "" →
  idempotency d !! ("default", "create-vpc", key) = None →
  vpc_request input name cidr hash → CreateVPC env input key d = (Ok v, d1, hints) →
  Forall (early "create-vpc" key (env_now env + day)) ops → vpc_request input' name' cidr' hash' →
  env_now env' < env_now env + day → env_fault env' = None → (9 ≤ length (env_random env'))%nat →
  CreateVPC env' input' key (execute_all ops d1) =
  if hash ==? hash' then (Ok v, execute_all ops d1, [])
  else (Err (Wrapf (Sprintf "resource transaction: %w" []) parameterMismatch), execute_all ops d1, []).
Proof.
  intros I Hr Hkey Hnew Hreq H Hops Hreq' Hnow Hf Hlen.
  eapply CreateVPC_remembers in H as [Hrem Hk]; [|done..].
  destruct (CreateVPC_run env' input' key (execute_all ops d1) name' cidr' hash') as [body ->]; auto.
  destruct (hash ==? hash') eqn:E; reflect_bools.
  - subst hash'. by rewrite (remembered_replays _ _ _ (env_now env) v).
  - by rewrite (remembered_mismatch _ _ hash _ (env_now env) v).
Qed.

(** The same of CreateSubnet. *)
Lemma create_subnet_is_idempotent env env' input input' key d v d1 hints ops name cidr name' cidr' hash hash' :
  Inv d → Forall is_byte (env_random env) → text8 (cs_VPCID input) → key ≠ "" →
  idempotency d !! ("default", "create-subnet", key) = None →
  subnet_request input name cidr hash → CreateSubnet env input key d = (Ok v, d1, hints) →
  Forall (early "create-subnet" key (env_now env + day)) ops → subnet_request input' name' cidr' hash' →
  env_now env' < env_now env + day → env_fault env' = None → (9 ≤ length (env_random env'))%nat →
  CreateSubnet env' input' key (execute_all ops d1) =
  if hash ==? hash' then (Ok v, execute_all ops d1, [])
  else (Err (Wrapf (Sprintf "resource transaction: %w" []) parameterMismatch), execute_all ops d1, []).
Proof.
  intros I Hr Hv Hkey Hnew Hreq H Hops Hreq' Hnow Hf Hlen.
  eapply CreateSubnet_remembers in H as [Hrem Hk]; [|done..].
  destruct (CreateSubnet_run env' input' key (execute_all ops d1) name' cidr' hash') as [body ->]; auto.
  destruct (hash ==? hash') eqn:E; reflect_bools.
  - subst hash'. by rewrite (remembered_replays _ _ _ (env_now env) v).
  - by rewrite (remembered_mismatch _ _ hash _ (env_now env) v).
Qed.

(** The same of Run: an instance and its interface are created once per key. *)
Lemma run_instance_is_idempotent env env' input input' key d v d1 hints ops name name' hash hash' :
  Inv d → Forall is_byte (env_random env) → Forall is_byte (env_random2 env) → text8 (ri_SubnetID input) →
  key ≠ "" → idempotency d !! ("default", "run-instance", key) = None →
  instance_request input name hash → Run env input key d = (Ok v, d1, hints) →
  Forall (early "run-instance" key (env_now env + day)) ops → instance_request input' name' hash' →
  env_now env' < env_now env + day → env_fault env' = None →
  (9 ≤ length (env_random env'))%nat → (9 ≤ length (env_random2 env'))%nat →
  Run env' input' key (execute_all ops d1) =
  if hash ==? hash' then (Ok v, execute_all ops d1, [])
  else (Err (Wrapf (Sprintf "resource transaction: %w" []) parameterMismatch), execute_all ops d1, []).
Proof.
  intros I Hr Hr2 Hv Hkey Hnew Hreq H Hops Hreq' Hnow Hf Hlen Hlen2.
  eapply Run_remembers in H as [Hrem Hk]; [|done..].
  destruct (Run_run env' input' key (execute_all ops d1) name' hash') as [body ->]; auto.
  destruct (hash ==? hash') eqn:E; reflect_bools.
  - subst hash'. by rewrite (remembered_replays _ _ _ (env_now env) v).
  - by rewrite (remembered_mismatch _ _ hash _ (env_now env) v).
Qed.

(** C15: A request that creates a VPC, a subnet or an instance, with a new
    Idempotency-Key, is repeated within a day by a request with the same normalized
    parameters, after any operations of the system in between (requests that reuse the
    key included): the original answer is returned, nothing changes and nothing is
    enqueued.  With other parameters (another payload hash) it is refused as
    IdempotentParameterMismatch and changes nothing. *)
Theorem creations_are_idempotent :
  (∀ env env' input input' key d v d1 hints ops name cidr name' cidr' hash hash',
     Inv d → Forall is_byte (env_random env) → key ≠ "" →
     idempotency d !! ("default", "create-vpc", key) = None →
     vpc_request input name cidr hash → CreateVPC env input key d = (Ok v, d1, hints) →
     Forall (early "create-vpc" key (env_now env + day)) ops → vpc_request input' name' cidr' hash' →
     env_now env' < env_now env + day → env_fault env' = None → (9 ≤ length (env_random env'))%nat →
     CreateVPC env' input' key (execute_all ops d1) =
     if hash ==? hash' then (Ok v, execute_all ops d1, [])
     else (Err (Wrapf (Sprintf "resource transaction: %w" []) parameterMismatch), execute_all ops d1, [])) ∧
  (∀ env env' input input' key d v d1 hints ops name cidr name' cidr' hash hash',
     Inv d → Forall is_byte (env_random env) → text8 (cs_VPCID input) → key ≠ "" →
     idempotency d !! ("default", "create-subnet", key) = None →
     subnet_request input name cidr hash → CreateSubnet env input key d = (Ok v, d1, hints) →
     Forall (early "create-subnet" key (env_now env + day)) ops → subnet_request input' name' cidr' hash' →
     env_now env' < env_now env + day → env_fault env' = None → (9 ≤ length (env_random env'))%nat →
     CreateSubnet env' input' key (execute_all ops d1) =
     if hash ==? hash' then (Ok v, execute_all ops d1, [])
     else (Err (Wrapf (Sprintf "resource transaction: %w" []) parameterMismatch), execute_all ops d1, [])) ∧
  (∀ env env' input input' key d v d1 hints ops name name' hash hash',
     Inv d → Forall is_byte (env_random env) → Forall is_byte (env_random2 env) → text8 (ri_SubnetID input) →
     key ≠ "" → idempotency d !! ("default", "run-instance", key) = None →
     instance_request input name hash → Run env input key d = (Ok v, d1, hints) →
     Forall (early "run-instance" key (env_now env + day)) ops → instance_request input' name' hash' →
     env_now env' < env_now env + day → env_fault env' = None →
     (9 ≤ length (env_random env'))%nat → (9 ≤ length (env_random2 env'))%nat →
     Run env' input' key (execute_all ops d1) =
     if hash ==? hash' then (Ok v, execute_all ops d1, [])
     else (Err (Wrapf (Sprintf "resource transaction: %w" []) parameterMismatch), execute_all ops d1, [])).
Proof.
  split_and!; intros; [by eapply create_vpc_is_idempotent|by eapply create_subnet_is_idempotent|by eapply run_instance_is_idempotent].
Qed.

(** Witness: a lost answer is asked for again when the VPC already has subnets, the key
    of a subnet is reused for another one, and a launch is repeated after the
    instance's termination was requested. *)
Lemma creations_witness :
  (let input := MkCreateVPCInput "main" "10.0.0.0/16" in
  let input' := MkCreateVPCInput " main " "10.0.7.7/16" in
  let v := MkVPC demo_vpc "default" "main" (MkPrefix (Addr4 167772160) 16) 1 "pending" "" false 1 0 in
  let d1 := (perform (OpCreateVPC (at_time 1000 1) input "key-1") initialDB).2 in
  CreateVPC (at_time 2000 9) input' "key-1" (execute_all (drop 1 demo_ops) d1) =
    (Ok v, execute_all (drop 1 demo_ops) d1, [])) ∧
  (let input := MkCreateSubnetInput "a" demo_vpc "10.0.1.0/28" "local-1a" in
  let input' := MkCreateSubnetInput "c" demo_vpc "10.0.5.0/28" "local-1a" in
  let v := MkSubnet (demo_subnet "02") "default" demo_vpc "a" (MkPrefix (Addr4 167772416) 28) "local-1a" 2
             "pending" "" false 1 0 in
  let d := execute_all (take 1 demo_ops) initialDB in
  let d1 := (perform (OpCreateSubnet (at_time 1001 2) input "key-2") d).2 in
  CreateSubnet (at_time 2000 9) input' "key-2" d1 =
    (Err (Wrapf (Sprintf "resource transaction: %w" []) parameterMismatch), d1, [])) ∧
  (let input := MkRunInstanceInput "api" (demo_subnet "02") in
  let v := MkInstance (demo_instance "06") "default" (demo_subnet "02") 8 "api" "t3.micro" "pending" "" 1 0 false ""
             (MkENI (demo_eni "06") "default" (demo_instance "06") (demo_subnet "02") 9 (Addr4 167772422)
                (HardwareAddr_String (eniMAC (demo_eni "06"))) 1 0 "pending" "") in
  let d1 := (perform (OpRun (at_time 1500 6) input "key-3") demo_db).2 in
  let ops := [OpTerminate (at_time 1600 1) (demo_instance "06")] in
  Run (at_time 2000 9) input "key-3" (execute_all ops d1) = (Ok v, execute_all ops d1, [])).
Proof.
  destruct creations_are_idempotent as (H1 & H2 & H3). split_and!.
  - intros input input' v d1. set (hash := hex_EncodeToString (Sum256 (canonicalJSON ["main"; "10.0.0.0/16"]))).
    pose proof (H1 (at_time 1000 1) (at_time 2000 9) input input' "key-1" initialDB v d1
    [demo_vpc] (drop 1 demo_ops) "main" (MkPrefix (Addr4 167772160) 16) "main" (MkPrefix (Addr4 167772160) 16)
    hash hash) as H.
    rewrite beq_refl in H. apply H.
    + apply initial_Inv.
    + repeat constructor; lia.
    + discriminate.
    + vm_compute. reflexivity.
    + split_and!; vm_compute; reflexivity.
    + vm_compute. reflexivity.
    + repeat constructor; done.
    + split_and!; vm_compute; reflexivity.
    + vm_compute. reflexivity.
    + reflexivity.
    + simpl. lia.
  - intros input input' v d d1.
    set (hash := hex_EncodeToString (Sum256 (canonicalJSON ["a"; demo_vpc; "10.0.1.0/28"; "local-1a"]))).
    set (hash' := hex_EncodeToString (Sum256 (canonicalJSON ["c"; demo_vpc; "10.0.5.0/28"; "local-1a"]))).
    pose proof (H2 (at_time 1001 2) (at_time 2000 9) input input' "key-2" d v d1
    [demo_vpc] [] "a" (MkPrefix (Addr4 167772416) 28) "c" (MkPrefix (Addr4 167773440) 28) hash hash') as H.
    assert ((hash ==? hash') = false) as E by (vm_compute; reflexivity). rewrite E in H. apply H.
    + apply execute_all_steps, initial_Inv.
    + repeat constructor; lia.
    + vm_compute. reflexivity.
    + discriminate.
    + vm_compute. reflexivity.
    + split_and!; vm_compute; reflexivity.
    + vm_compute. reflexivity.
    + constructor.
    + split_and!; vm_compute; reflexivity.
    + vm_compute. reflexivity.
    + reflexivity.
    + simpl. lia.
  - intros input v d1 ops.
    set (hash := hex_EncodeToString (Sum256 (canonicalJSON ["api"; demo_subnet "02"]))).
    pose proof (H3 (at_time 1500 6) (at_time 2000 9) input input "key-3" demo_db v d1
    [demo_instance "06"] ops "api" "api" hash hash) as H.
    rewrite beq_refl in H. apply H.
    + apply execute_all_steps, initial_Inv.
    + repeat constructor; lia.
    + repeat constructor; lia.
    + vm_compute. reflexivity.
    + discriminate.
    + vm_compute. reflexivity.
    + split_and!; vm_compute; reflexivity.
    + vm_compute. reflexivity.
    + repeat constructor.
    + split_and!; vm_compute; reflexivity.
    + vm_compute. reflexivity.
    + reflexivity.
    + simpl. lia.
    + simpl. lia.
Defined.
