(* ===== verification/IdShape.v ===== *)
(** Identifiers keep the shape [service.NewID] gives them: a kind's prefix and 17
    hexadecimal digits.  Every VPC, subnet and instance owns a kernel index under its
    identifier, so it is enough to watch the index table, which only
    [Tx.AllocateIndex] extends. *)

From S2P Require Import Prelude Errors GoStrings Encodings Utf8 NetIP Validate Ipam Mac Model Snapshot.
From S2P Require Import Schema Tx Transitions Store Idempotency Refine RecordRefine.
From S2P Require Import NetworkService InstanceService ServiceRefine System Replay.
Local Open Scope Z_scope.

Definition shaped_index (k : KernelIndex) : Prop :=
  ki_ResourceKind k ∈ ["vpc"; "subnet"; "instance"] → validPageID (ki_ResourceKind k) (ki_ResourceID k) = true.
Definition shaped (d : DB) : Prop := ∀ n k, kernel_indexes d !! n = Some k → shaped_index k.

(** ** Computations that leave the shape alone *)
Class Shapes {A} (m : Tx A) : Prop := shapes s : shaped (tx_db s) → shaped (tx_db (m s).2).
Class NoIndex {A} (f : statement A) : Prop :=
  no_index d a d' : f d = Ok (a, d') → kernel_indexes d' = kernel_indexes d.

#[export] Instance Shapes_ReadOnly {A} (m : Tx A) : ReadOnly m → Shapes m | 10.
Proof. intros H s Hs. by rewrite (H s). Qed.
#[export] Instance Shapes_bind {A B} (m : Tx A) (f : A → Tx B) : Shapes m → (∀ a, Shapes (f a)) → Shapes (m ≫= f).
Proof.
  intros Hm Hf s Hs. specialize (Hm s Hs). unfold mbind, tx_bind. destruct (m s) as [[a|e] s1]; [|done]. by apply Hf.
Qed.
#[export] Instance Shapes_wrapping {A} t (m : Tx A) : Shapes m → Shapes (wrapping t m).
Proof. intros Hm s Hs. specialize (Hm s Hs). unfold wrapping. by destruct (m s). Qed.
#[export] Instance Shapes_or_missing {A} e (m : Tx A) : Shapes m → Shapes (or_missing e m).
Proof. intros Hm s Hs. specialize (Hm s Hs). unfold or_missing. by destruct (m s) as [[] ?]. Qed.
#[export] Instance Shapes_rescue {A} h (m : Tx A) : Shapes m → Shapes (rescue h m).
Proof. intros Hm s Hs. specialize (Hm s Hs). unfold rescue. by destruct (m s) as [[] ?]. Qed.
#[export] Instance Shapes_if {A} (b : bool) (m m' : Tx A) : Shapes m → Shapes m' → Shapes (if b then m else m').
Proof. by destruct b. Qed.

Lemma Shapes_stmt_of {A} (f : statement A) :
  (∀ d a d', shaped d → f d = Ok (a, d') → shaped d') → Shapes (stmt f).
Proof.
  intros Hf s Hs. unfold stmt, mbind, tx_bind. pose proof (ReadOnly_tick s) as Ht.
  destruct (tick s) as [[u|e] s1]; [|simpl in *; by rewrite Ht]. simpl in Ht. unfold execute.
  destruct (f (tx_db s1)) as [[a d']|e] eqn:E; simpl; [|by rewrite Ht]. eapply Hf; [|exact E]. by rewrite Ht.
Qed.
#[export] Instance Shapes_stmt {A} (f : statement A) : NoIndex f → Shapes (stmt f).
Proof. intros Hf. apply Shapes_stmt_of. intros d a d' Hd E n k. rewrite (Hf _ _ _ E). apply Hd. Qed.

Ltac no_index := intros ? ? ?; intros; repeat case_match; inv_ok; by simplify_eq/=.
#[export] Instance NoIndex_InsertEvent ws t r a s g m c : NoIndex (q_InsertEvent ws t r a s g m c).
Proof. unfold q_InsertEvent, next_id, foreign_key. no_index. Qed.
#[export] Instance NoIndex_InsertVPC a b c d e f g : NoIndex (q_InsertVPC a b c d e f g).
Proof. unfold q_InsertVPC, check, primary_key, unique, foreign_key. no_index. Qed.
#[export] Instance NoIndex_InsertSubnet a b c d e f g h i : NoIndex (q_InsertSubnet a b c d e f g h i).
Proof. unfold q_InsertSubnet, check, primary_key, unique, foreign_key. no_index. Qed.
#[export] Instance NoIndex_InsertInstance a b c d e f g : NoIndex (q_InsertInstance a b c d e f g).
Proof. unfold q_InsertInstance, check, primary_key, unique, foreign_key. no_index. Qed.
#[export] Instance NoIndex_InsertENI a b c d e f g h i : NoIndex (q_InsertENI a b c d e f g h i).
Proof. unfold q_InsertENI, primary_key, unique, foreign_key. no_index. Qed.
#[export] Instance NoIndex_PutIdempotency a b c d e f g h : NoIndex (q_PutIdempotency a b c d e f g h).
Proof. unfold q_PutIdempotency, foreign_key. no_index. Qed.
#[export] Instance NoIndex_UpdateVPCStatus a b c d e f : NoIndex (q_UpdateVPCStatus a b c d e f).
Proof. unfold q_UpdateVPCStatus, check. no_index. Qed.
#[export] Instance NoIndex_UpdateSubnetStatus a b c d e f : NoIndex (q_UpdateSubnetStatus a b c d e f).
Proof. unfold q_UpdateSubnetStatus, check. no_index. Qed.
#[export] Instance NoIndex_UpdateInstanceStatus a b c d e f : NoIndex (q_UpdateInstanceStatus a b c d e f).
Proof. unfold q_UpdateInstanceStatus, check. no_index. Qed.
#[export] Instance NoIndex_UpdateENIStatus a b c d e f : NoIndex (q_UpdateInstanceENIStatus a b c d e f).
Proof. unfold q_UpdateInstanceENIStatus, check. no_index. Qed.
#[export] Instance NoIndex_MarkVPCDeleting a b c : NoIndex (q_MarkVPCDeleting a b c).
Proof. unfold q_MarkVPCDeleting, check. no_index. Qed.
#[export] Instance NoIndex_MarkSubnetDeleting a b c : NoIndex (q_MarkSubnetDeleting a b c).
Proof. unfold q_MarkSubnetDeleting, check. no_index. Qed.
#[export] Instance NoIndex_MarkInstanceTerminating a b c : NoIndex (q_MarkInstanceTerminating a b c).
Proof. unfold q_MarkInstanceTerminating, check. no_index. Qed.
#[export] Instance NoIndex_RecordRuntimeID a b c : NoIndex (q_RecordRuntimeID a b c).
Proof. unfold q_RecordRuntimeID. no_index. Qed.
#[export] Instance NoIndex_RetainRuntimeID a b : NoIndex (q_RetainTerminatingRuntimeID a b).
Proof. unfold q_RetainTerminatingRuntimeID. no_index. Qed.
#[export] Instance NoIndex_DeleteVPC a b : NoIndex (q_DeleteVPC a b).
Proof. unfold q_DeleteVPC, foreign_key. no_index. Qed.
#[export] Instance NoIndex_DeleteSubnet a b : NoIndex (q_DeleteSubnet a b).
Proof. unfold q_DeleteSubnet, foreign_key. no_index. Qed.
#[export] Instance NoIndex_DeleteInstance a b : NoIndex (q_DeleteInstance a b).
Proof. unfold q_DeleteInstance, foreign_key. no_index. Qed.
#[export] Instance NoIndex_DeleteInstanceENI a b : NoIndex (q_DeleteInstanceENI a b).
Proof. unfold q_DeleteInstanceENI. no_index. Qed.

#[export] Instance Shapes_AllocateIndex kind rid :
  shaped_index (MkKernelIndex 0 kind rid) → Shapes (tx_AllocateIndex kind rid).
Proof.
  intros Hk. apply Shapes_wrapping, Shapes_stmt_of. intros d a d' Hd E. unfold q_InsertKernelIndex, next_id, unique in E.
  inv_ok. simplify_eq/=. intros n k Hn. simpl in Hn. apply lookup_insert_Some in Hn as [[_ <-]|[_ Hn]]; [exact Hk|by eapply Hd].
Qed.
#[export] Instance Shapes_AppendEvent e : Shapes (tx_AppendEvent e).
Proof. unfold tx_AppendEvent. apply _. Qed.
#[export] Instance Shapes_saveReplay `{Snapshot T} op key hash rid (x : T) now : Shapes (saveReplay op key hash rid x now).
Proof. unfold saveReplay, tx_PutIdempotency. apply _. Qed.
#[export] Instance Shapes_recordChildren state reason ok now l : Shapes (recordChildren state reason ok now l).
Proof.
  induction l as [|x l IH]; cbn [recordChildren]; [apply _|].
  apply Shapes_bind; [|done]. unfold recordChild, tx_recordSubnetStatus. apply _.
Qed.
#[export] Instance Shapes_recordTopology v l e now : Shapes (recordTopology v l e now).
Proof. unfold recordTopology, tx_recordVPCStatus. apply _. Qed.
#[export] Instance Shapes_recordInstance snap status reason observed now : Shapes (recordInstance snap status reason observed now).
Proof. unfold recordInstance. apply _. Qed.
#[export] Instance Shapes_finish snap now : Shapes (finishInstanceTermination snap now).
Proof. unfold finishInstanceTermination. apply _. Qed.

(** ** The operations *)
Lemma Shapes_WithTx {A} flt (m : Tx A) d : Shapes m → shaped d → shaped (WithTx flt m d).2.
Proof.
  intros Hm Hd. destruct (WithTx flt m d) as [[a|e] d'] eqn:E; simpl.
  - apply WithTx_Ok in E as (s & s' & <- & Hrun & ->). specialize (Hm s Hd). by rewrite Hrun in Hm.
  - by apply WithTx_Err in E as ->.
Qed.
Lemma Shapes_autocommit {A} flt (m : Tx A) d : Shapes m → shaped d → shaped (autocommit flt m d).2.
Proof.
  intros Hm Hd. destruct (autocommit flt m d) as [[a|e] d'] eqn:E; simpl.
  - apply autocommit_Ok in E as (s & s' & <- & Hrun & ->). specialize (Hm s Hd). by rewrite Hrun in Hm.
  - by apply autocommit_Err in E as ->.
Qed.

Lemma NewID_shaped kind random id :
  Forall is_byte random → NewID (if kind ==? "instance" then "i-" else kind +:+ "-") random = Ok id →
  shaped_index (MkKernelIndex 0 kind id).
Proof. intros Hr (hex & -> & Hl & Hh)%NewID_shape _; [|done]. simpl. apply validPageID_shape. eauto. Qed.
Lemma eni_shaped id : shaped_index (MkKernelIndex 0 "eni" id).
Proof. intros H. simpl in H. set_solver. Qed.

#[local] Hint Extern 0 (shaped_index _) => first [assumption | apply eni_shaped] : typeclass_instances.

#[export] Instance Shapes_createVPC name cidr key hash id now :
  shaped_index (MkKernelIndex 0 "vpc" id) → Shapes (createVPC name cidr key hash id now).
Proof. intros. unfold createVPC, tx_InsertVPC. apply Shapes_bind; [apply _|]. intros [r|]; apply _. Qed.
#[export] Instance Shapes_createSubnet input name cidr key hash id now :
  shaped_index (MkKernelIndex 0 "subnet" id) → Shapes (createSubnet input name cidr key hash id now).
Proof. intros. unfold createSubnet, tx_InsertSubnet. apply Shapes_bind; [apply _|]. intros [r|]; apply _. Qed.
#[export] Instance Shapes_runInstance input name key hash id eni now :
  shaped_index (MkKernelIndex 0 "instance" id) → Shapes (runInstance input name key hash id eni now).
Proof. intros. unfold runInstance, tx_InsertInstanceWithENI. apply Shapes_bind; [apply _|]. intros [r|]; apply _. Qed.
#[export] Instance Shapes_deleteVPC id now : Shapes (deleteVPC id now).
Proof. unfold deleteVPC, tx_MarkVPCDeleting. apply _. Qed.
#[export] Instance Shapes_deleteSubnet id now : Shapes (deleteSubnet id now).
Proof. unfold deleteSubnet, tx_MarkSubnetDeleting. apply _. Qed.
#[export] Instance Shapes_terminateSnapshot id now : Shapes (terminateSnapshot id now).
Proof. unfold terminateSnapshot, tx_MarkInstanceTerminating. apply _. Qed.

(** The entropy of an operation is bytes. *)
Definition byte_entropy (o : op) : Prop :=
  match o with
  | OpCreateVPC env _ _ | OpCreateSubnet env _ _ | OpRun env _ _ => Forall is_byte (env_random env)
  | _ => True
  end.

Lemma perform_shaped o d : byte_entropy o → shaped d → shaped (perform o d).2.
Proof.
  intros Hb Hd. destruct o; simpl in *.
  - unfold CreateVPC. destruct (ValidateName _) as [name|]; [|done]. destruct (ParseCIDR _) as [cidr|]; [|done]. simpl.
    destruct (validateIdempotencyKey _) as [[]|]; [|done]. destruct (NewID _ _) as [id|] eqn:Hid; [|done]. simpl.
    rewrite after_commit_db. apply Shapes_WithTx; [|done]. apply Shapes_createVPC. by eapply (NewID_shaped "vpc").
  - unfold DeleteVPC. rewrite after_commit_db. apply Shapes_WithTx; [apply _|done].
  - unfold CreateSubnet. destruct (ValidateName _) as [name|]; [|done]. destruct (ParseCIDR _) as [cidr|]; [|done]. simpl.
    destruct (require _ _) as [[]|]; [|done]. simpl.
    destruct (validateIdempotencyKey _) as [[]|]; [|done]. destruct (NewID _ _) as [id|] eqn:Hid; [|done]. simpl.
    rewrite after_commit_db. apply Shapes_WithTx; [|done]. apply Shapes_createSubnet. by eapply (NewID_shaped "subnet").
  - unfold DeleteSubnet. rewrite after_commit_db. apply Shapes_WithTx; [apply _|done].
  - unfold Run. destruct (ValidateName _) as [name|]; [|done]. simpl.
    destruct (validateIdempotencyKey _) as [[]|]; [|done]. simpl. destruct (NewID "i-" _) as [id|] eqn:Hid; [|done]. simpl.
    destruct (NewID "eni-" _) as [eni|]; [|done]. simpl.
    rewrite after_commit_db. apply Shapes_WithTx; [|done]. apply Shapes_runInstance. by eapply (NewID_shaped "instance").
  - unfold Terminate. pose proof (after_commit_db env (λ _ : Instance_, id)
      (WithTx (env_fault env) (terminateSnapshot id (env_now env)) d)) as Hc.
    unfold TerminateSnapshot. destruct (after_commit _ _ _) as [[r d'] q]. simpl in *. subst d'.
    apply Shapes_WithTx; [apply _|done].
  - unfold store_RecordTopology. destruct ctxErr; [done|]. apply Shapes_WithTx; [apply _|done].
  - unfold store_RecordRuntimeID. destruct (rt ==? ""); [done|].
    match goal with |- context [autocommit ?f ?m d] => pose proof (Shapes_autocommit f m d _ Hd);
      destruct (autocommit f m d) as [[]] end; done.
  - unfold store_RetainTerminatingRuntimeID. destruct (rt ==? ""); [done|].
    match goal with |- context [autocommit ?f ?m d] => pose proof (Shapes_autocommit f m d _ Hd);
      destruct (autocommit f m d) as [[]] end; done.
  - unfold store_RecordInstance. destruct (_ && _); [done|]. destruct (_ && _); [done|].
    apply Shapes_WithTx; [apply _|done].
  - unfold store_FinishInstanceTermination. apply Shapes_WithTx; [apply _|done].
Qed.

Lemma execute_all_shaped ops d : Forall byte_entropy ops → shaped d → shaped (execute_all ops d).
Proof.
  intros Hall. revert d. induction Hall as [|o ops Ho _ IH]; intros d Hd; [done|].
  change (execute_all (o :: ops) d) with (execute_all ops (perform o d).2). by apply IH, perform_shaped.
Qed.
Lemma initial_shaped : shaped initialDB.
Proof. intros n k Hk. simpl in Hk. by simplify_map_eq. Qed.

(** ** The identifiers of resources *)
Section ids.
Context (d : DB) (I : Inv d) (Hs : shaped d).

Lemma vpc_id_shape id r : vpcs d !! id = Some r → validPageID "vpc" id = true.
Proof using I Hs. intros Hr. apply (Hs _ _ (inv_vk d I id r Hr)). by left. Qed.
Lemma subnet_id_shape id r : subnets d !! id = Some r → validPageID "subnet" id = true.
Proof using I Hs. intros Hr. apply (Hs _ _ (inv_sk d I id r Hr)). right. by left. Qed.
Lemma instance_id_shape id r : instances d !! id = Some r → validPageID "instance" id = true.
Proof using I Hs. intros Hr. apply (Hs _ _ (inv_ik d I id r Hr)). do 2 right. by left. Qed.
End ids.
