(* ===== verification/ErrorStatus.v ===== *)
(** The errors of the services carry HTTP error statuses: whatever makes an
    operation fail, a [service.Error] in its error chain has a status from 400 to 599. *)

From S2P Require Import Prelude Errors GoStrings Utf8 NetIP Validate Ipam Mac Model Json Snapshot.
From S2P Require Import Schema Tx Store Idempotency NetworkService InstanceService.
Local Open Scope Z_scope.

Class ClientError (e : error) : Prop :=
  client_error s : as_Service e = Some s → 400 ≤ Status s ≤ 599.
#[export] Instance ClientError_service c m r st :
  TCEq ((400 <=? st) && (st <=? 599)) true → ClientError (ErrService (MkError c m r st)).
Proof. intros [=]%TCEq_eq s [= <-]. reflect_bools. by simpl. Qed.
#[export] Instance ClientError_norows : ClientError ErrNoRows. Proof. done. Qed.
#[export] Instance ClientError_stale : ClientError ErrStaleSnapshot. Proof. done. Qed.
#[export] Instance ClientError_exhausted : ClientError errAddressExhausted. Proof. done. Qed.
#[export] Instance ClientError_sqlite c : ClientError (ErrSQLite c). Proof. done. Qed.
#[export] Instance ClientError_io m : ClientError (ErrIO m). Proof. done. Qed.
#[export] Instance ClientError_errorf t : ClientError (Errorf t). Proof. done. Qed.
#[export] Instance ClientError_wrapf t e : ClientError e → ClientError (Wrapf t e). Proof. done. Qed.
#[export] Instance ClientError_if (b : bool) e e' : ClientError e → ClientError e' → ClientError (if b then e else e').
Proof. by destruct b. Qed.
#[export] Instance ClientError_invalid m : ClientError (invalidParameter m).
Proof. unfold invalidParameter. apply _. Qed.

(** ** Results *)
Class Declines {A} (r : result A) : Prop := declines e : r = Err e → ClientError e.
#[export] Instance Declines_ok {A} (a : A) : Declines (Ok a). Proof. intros e [=]. Qed.
#[export] Instance Declines_ret {A} (a : A) : Declines (mret a). Proof. intros e [=]. Qed.
#[export] Instance Declines_err {A} e : ClientError e → Declines (Err (A := A) e). Proof. by intros H e' [= <-]. Qed.
#[export] Instance Declines_bind {A B} (r : result A) (f : A → result B) :
  Declines r → (∀ a, Declines (f a)) → Declines (r ≫= f).
Proof. intros Hr Hf e. destruct r as [a|e']; simpl; [exact (Hf a e)|intros [= <-]; exact (Hr e' eq_refl)]. Qed.
#[export] Instance Declines_if {A} (b : bool) (r r' : result A) : Declines r → Declines r' → Declines (if b then r else r').
Proof. by destruct b. Qed.
#[export] Instance Declines_wrap {A} t (r : result A) : Declines r → Declines (wrap_err t r).
Proof. intros Hr e. destruct r as [a|e']; simpl; [done|]. intros [= <-]. exact (Hr e' eq_refl). Qed.
#[export] Instance Declines_of_option {A} e (o : option A) : ClientError e → Declines (of_option e o).
Proof. intros He e'. destruct o; simpl; [done|]. by intros [= <-]. Qed.
#[export] Instance Declines_require b e : ClientError e → Declines (require b e).
Proof. intros He e'. destruct b; simpl; [done|]. by intros [= <-]. Qed.
#[export] Instance Declines_missing {A} e (r : result A) : ClientError e → Declines r → Declines (missing e r).
Proof. intros He Hr e'. destruct r; simpl; [done|]. intros [= <-]. apply ClientError_if; [done|by apply Hr]. Qed.
#[export] Instance Declines_exhausted {A} e (r : result A) : ClientError e → Declines r → Declines (exhausted e r).
Proof. intros He Hr e'. destruct r; simpl; [done|]. intros [= <-]. apply ClientError_if; [done|by apply Hr]. Qed.
#[export] Instance Declines_mapM {A B} (f : A → result B) l : (∀ a, Declines (f a)) → Declines (mapM f l).
Proof. intros Hf. induction l as [|a l IH]; cbn [mapM]; apply _. Qed.

(** Split the remaining matches. *)
Ltac decline := repeat (try apply _; case_match).

(** ** Transactions *)
Class Refuses {A} (m : Tx A) : Prop := refuses s : Declines (m s).1.
#[export] Instance Refuses_ret {A} (a : A) : Refuses (mret a). Proof. intros s. by apply Declines_ok. Qed.
#[export] Instance Refuses_lift {A} (r : result A) : Declines r → Refuses (lift r). Proof. by intros H s. Qed.
#[export] Instance Refuses_guard b e : ClientError e → Refuses (guard_tx b e).
Proof. intros H. apply Refuses_lift, _. Qed.
#[export] Instance Refuses_bind {A B} (m : Tx A) (f : A → Tx B) : Refuses m → (∀ a, Refuses (f a)) → Refuses (m ≫= f).
Proof.
  intros Hm Hf s. specialize (Hm s). unfold mbind, tx_bind. destruct (m s) as [[a|e] s1]; simpl in *; [apply Hf|].
  intros e' [= <-]. by apply Hm.
Qed.
#[export] Instance Refuses_if {A} (b : bool) (m m' : Tx A) : Refuses m → Refuses m' → Refuses (if b then m else m').
Proof. by destruct b. Qed.
#[export] Instance Refuses_wrapping {A} t (m : Tx A) : Refuses m → Refuses (wrapping t m).
Proof. intros Hm s. specialize (Hm s). unfold wrapping. destruct (m s). by apply Declines_wrap. Qed.
#[export] Instance Refuses_or_missing {A} e (m : Tx A) : ClientError e → Refuses m → Refuses (or_missing e m).
Proof.
  intros He Hm s. specialize (Hm s). unfold or_missing. destruct (m s) as [[a|e'] s1]; simpl in *; [done|].
  apply Declines_err, ClientError_if; [done|by apply Hm].
Qed.
#[export] Instance Refuses_absent {A} e (m : Tx A) : ClientError e → Refuses m → Refuses (absent e m).
Proof.
  intros He Hm s. specialize (Hm s). unfold absent. destruct (m s) as [[a|e'] s1]; simpl in *; [by apply Declines_err|].
  apply Declines_if; [apply _|]. by apply Declines_err, Hm.
Qed.
#[export] Instance Refuses_rescue {A} h (m : Tx A) :
  (∀ e, ClientError e → ClientError (h e)) → Refuses m → Refuses (rescue h m).
Proof.
  intros Hh Hm s. specialize (Hm s). unfold rescue. destruct (m s) as [[a|e'] s1]; simpl in *; [done|].
  by apply Declines_err, Hh, Hm.
Qed.
#[export] Instance Refuses_optional {A} (m : Tx A) : Refuses m → Refuses (optional m).
Proof.
  intros Hm s. specialize (Hm s). unfold optional. destruct (m s) as [[a|e'] s1]; simpl in *; [apply _|].
  apply Declines_if; [apply _|]. by apply Declines_err, Hm.
Qed.
#[export] Instance Refuses_tick : Refuses tick.
Proof. intros s. unfold tick. destruct (tx_fault s) as [[[|n] msg]|]; apply _. Qed.
#[export] Instance Refuses_stmt {A} (f : statement A) : (∀ d, Declines (f d)) → Refuses (stmt f).
Proof.
  intros Hf. unfold stmt. apply @Refuses_bind; [apply _|]. intros _ s. specialize (Hf (tx_db s)). unfold execute.
  destruct (f (tx_db s)) as [[a d']|e]; simpl; [apply _|]. by apply Declines_err, Hf.
Qed.
#[export] Instance Refuses_read {A} (q : query A) : (∀ d, Declines (q d)) → Refuses (read q).
Proof. intros Hf. unfold read. apply @Refuses_bind; [apply _|]. intros _ s. apply Hf. Qed.

Lemma Declines_WithTx {A} flt (m : Tx A) d : Refuses m → Declines (WithTx flt m d).1.
Proof.
  intros Hm. unfold WithTx.
  assert (∀ t, Refuses (wrapping t tick) ∧ Refuses (wrapping t m)) as Hw by (split; apply _).
  pose proof (proj1 (Hw (Sprintf "begin resource transaction: %w" [])) (MkTxs d flt)) as Hb.
  destruct (wrapping _ tick (MkTxs d flt)) as [[u|e] s0]; simpl in *; [|by apply Declines_err, Hb].
  pose proof (proj2 (Hw (Sprintf "resource transaction: %w" [])) s0) as Hbody.
  destruct (wrapping _ m s0) as [[a|e] s1]; simpl in *; [|by apply Declines_err, Hbody].
  pose proof (proj1 (Hw (Sprintf "commit resource transaction: %w" [])) s1) as Hc.
  destruct (wrapping _ tick s1) as [[v|e] s2]; simpl in *; [apply _|by apply Declines_err, Hc].
Qed.
Lemma Declines_autocommit {A} flt (m : Tx A) d : Refuses m → Declines (autocommit flt m d).1.
Proof.
  intros Hm. specialize (Hm (MkTxs d flt)). unfold autocommit.
  destruct (m _) as [[a|e] s]; simpl in *; [apply _|by apply Declines_err, Hm].
Qed.

(** ** Statements and queries *)
#[export] Instance Declines_check b : Declines (check b). Proof. apply _. Qed.
#[export] Instance Declines_primary_key b : Declines (primary_key b). Proof. apply _. Qed.
#[export] Instance Declines_unique b : Declines (unique b). Proof. apply _. Qed.
#[export] Instance Declines_foreign_key b : Declines (foreign_key b). Proof. apply _. Qed.
#[export] Instance Declines_next_id n : Declines (next_id n). Proof. unfold next_id. apply _. Qed.
#[export] Instance Declines_GetVPC a b d : Declines (q_GetVPC a b d). Proof. unfold q_GetVPC. apply _. Qed.
#[export] Instance Declines_GetVPCByName a b d : Declines (q_GetVPCByName a b d). Proof. unfold q_GetVPCByName. apply _. Qed.
#[export] Instance Declines_ListVPCPage a b c d : Declines (q_ListVPCPage a b c d). Proof. unfold q_ListVPCPage. apply _. Qed.
#[export] Instance Declines_GetSubnet a b d : Declines (q_GetSubnet a b d). Proof. unfold q_GetSubnet. apply _. Qed.
#[export] Instance Declines_GetSubnetByName a b d : Declines (q_GetSubnetByName a b d). Proof. unfold q_GetSubnetByName. apply _. Qed.
#[export] Instance Declines_ListSubnetPage a b c d : Declines (q_ListSubnetPage a b c d). Proof. unfold q_ListSubnetPage. apply _. Qed.
#[export] Instance Declines_ListSubnetsByVPC a d : Declines (q_ListSubnetsByVPC a d). Proof. unfold q_ListSubnetsByVPC. apply _. Qed.
#[export] Instance Declines_Count a d : Declines (q_CountInstancesInSubnet a d). Proof. unfold q_CountInstancesInSubnet. apply _. Qed.
#[export] Instance Declines_GetInstance a b d : Declines (q_GetInstance a b d). Proof. unfold q_GetInstance. apply _. Qed.
#[export] Instance Declines_GetInstanceByName a b d : Declines (q_GetInstanceByName a b d). Proof. unfold q_GetInstanceByName. apply _. Qed.
#[export] Instance Declines_GetPrimaryENI a b d : Declines (q_GetPrimaryENI a b d). Proof. unfold q_GetPrimaryENI. apply _. Qed.
#[export] Instance Declines_ListInstancePage a b c d : Declines (q_ListInstancePage a b c d). Proof. unfold q_ListInstancePage. apply _. Qed.
#[export] Instance Declines_ListENIAddresses a d : Declines (q_ListENIAddresses a d). Proof. unfold q_ListENIAddresses. apply _. Qed.
#[export] Instance Declines_GetIdempotency a b c d : Declines (q_GetIdempotency a b c d). Proof. unfold q_GetIdempotency. apply _. Qed.
#[export] Instance Declines_InsertVPC a b c e f g h d : Declines (q_InsertVPC a b c e f g h d).
Proof. unfold q_InsertVPC. apply _. Qed.
#[export] Instance Declines_InsertSubnet a b c e f g h i j d : Declines (q_InsertSubnet a b c e f g h i j d).
Proof. unfold q_InsertSubnet. apply _. Qed.
#[export] Instance Declines_InsertInstance a b c e f g h d : Declines (q_InsertInstance a b c e f g h d).
Proof. unfold q_InsertInstance. apply _. Qed.
#[export] Instance Declines_InsertENI a b c e f g h i j d : Declines (q_InsertENI a b c e f g h i j d).
Proof. unfold q_InsertENI. apply _. Qed.
#[export] Instance Declines_InsertEvent a b c e f g h i d : Declines (q_InsertEvent a b c e f g h i d).
Proof. unfold q_InsertEvent. apply _. Qed.
#[export] Instance Declines_PutIdempotency a b c e f g h i d : Declines (q_PutIdempotency a b c e f g h i d).
Proof. unfold q_PutIdempotency. apply _. Qed.
#[export] Instance Declines_InsertKernelIndex a b d : Declines (q_InsertKernelIndex a b d).
Proof. unfold q_InsertKernelIndex. apply _. Qed.
#[export] Instance Declines_MarkVPCDeleting a b c d : Declines (q_MarkVPCDeleting a b c d).
Proof. unfold q_MarkVPCDeleting. decline. Qed.
#[export] Instance Declines_MarkSubnetDeleting a b c d : Declines (q_MarkSubnetDeleting a b c d).
Proof. unfold q_MarkSubnetDeleting. decline. Qed.
#[export] Instance Declines_MarkInstanceTerminating a b c d : Declines (q_MarkInstanceTerminating a b c d).
Proof. unfold q_MarkInstanceTerminating. decline. Qed.

(** ** Decoding and validation *)
#[export] Instance Declines_vpcFromRow r : Declines (vpcFromRow r). Proof. unfold vpcFromRow. apply _. Qed.
#[export] Instance Declines_subnetFromRow r : Declines (subnetFromRow r). Proof. unfold subnetFromRow. apply _. Qed.
#[export] Instance Declines_ParseMAC s : Declines (ParseMAC s). Proof. unfold ParseMAC. decline. Qed.
#[export] Instance Declines_validENIMAC s : Declines (validENIMAC s). Proof. unfold validENIMAC. apply _. Qed.
#[export] Instance Declines_parseAddr s : Declines (parseAddr s). Proof. unfold parseAddr. apply _. Qed.
#[export] Instance Declines_decodeAddress s : Declines (decodeAddress s). Proof. unfold decodeAddress. apply _. Qed.
#[export] Instance Declines_instanceOfRows r e : Declines (instanceOfRows r e). Proof. unfold instanceOfRows. apply _. Qed.
#[export] Instance Declines_ParseCIDR s : Declines (ParseCIDR s). Proof. unfold ParseCIDR. decline. Qed.
#[export] Instance Declines_ValidateName s : Declines (ValidateName s). Proof. unfold ValidateName. apply _. Qed.
#[export] Instance Declines_key s : Declines (validateIdempotencyKey s). Proof. unfold validateIdempotencyKey. apply _. Qed.
#[export] Instance Declines_hash l : Declines (hashPayload l). Proof. unfold hashPayload. apply _. Qed.
#[export] Instance Declines_NewID p r : Declines (NewID p r). Proof. unfold NewID. apply _. Qed.
#[export] Instance Declines_pageSize n : Declines (pageSize n). Proof. unfold pageSize. apply _. Qed.
#[export] Instance Declines_token k s : Declines (decodePageToken k s). Proof. unfold decodePageToken. decline. Qed.
#[export] Instance Declines_range a b : Declines (ValidateSubnetRange a b). Proof. unfold ValidateSubnetRange, subnetRangeError. decline. Qed.
#[export] Instance Declines_disjoint a l : Declines (ValidateSubnetDisjoint a l).
Proof. induction l as [|b l IH]; simpl; unfold subnetConflictError; decline. Qed.
#[export] Instance Declines_scan n a b u : Declines (scan n a b u).
Proof. revert a. induction n as [|n IH]; intros; simpl; apply _. Qed.
#[export] Instance Declines_nextPrivateIP p u : Declines (nextPrivateIP p u). Proof. unfold nextPrivateIP. apply _. Qed.

#[export] Instance Declines_string v x : Declines (dec_string v x). Proof. unfold dec_string. decline. Qed.
#[export] Instance Declines_bool v x : Declines (dec_bool v x). Proof. unfold dec_bool. decline. Qed.
#[export] Instance Declines_int64 v x : Declines (dec_int64 v x). Proof. unfold dec_int64. decline. Qed.
#[export] Instance Declines_prefix v x : Declines (dec_prefix v x). Proof. unfold dec_prefix. decline. Qed.
#[export] Instance Declines_addr v x : Declines (dec_addr v x). Proof. unfold dec_addr. decline. Qed.

Lemma Declines_struct {T} field v (x : T) :
  (∀ key set v x, field key = Some set → Declines (set v x)) → Declines (dec_struct field v x).
Proof.
  intros Hf. unfold dec_struct. destruct v as [| | | | |fs]; try apply _.
  assert (∀ acc, Declines acc → Declines (fold_left (λ acc f,
    x' ← acc; match field f.1 with Some set => set f.2 x' | None => Ok x' end) fs acc)) as H; [|by apply H, Declines_ok].
  induction fs as [|f fs IH]; intros acc Hacc; simpl; [done|]. apply IH, Declines_bind; [done|].
  intros x'. destruct (field f.1) eqn:E; [by eapply Hf|apply _].
Qed.

Ltac fields := clear; intros ? ? ? x; repeat (case_match; [intros [= <-]; destruct x; apply _|]); done.
#[export] Instance Declines_dec_VPC v x : Declines (dec_VPC v x).
Proof. apply Declines_struct. unfold field_VPC. fields. Qed.
#[export] Instance Declines_dec_Subnet v x : Declines (dec_Subnet v x).
Proof. apply Declines_struct. unfold field_Subnet. fields. Qed.
#[export] Instance Declines_dec_ENI v x : Declines (dec_ENI v x).
Proof. apply Declines_struct. unfold field_ENI. fields. Qed.
#[export] Instance Declines_dec_Instance v x : Declines (dec_Instance v x).
Proof. apply Declines_struct. unfold field_Instance. fields. Qed.

(** Snapshots that cannot be read back fail without a domain error. *)
Class Readable (T : Type) `{Snapshot T} : Prop := readable s :: Declines (Unmarshal (T := T) s).
#[export] Instance Readable_VPC : Readable VPC. Proof. intros s. simpl. unfold unmarshal. apply _. Qed.
#[export] Instance Readable_Subnet : Readable Subnet. Proof. intros s. simpl. unfold unmarshal. apply _. Qed.
#[export] Instance Readable_Instance : Readable Instance_. Proof. intros s. simpl. unfold unmarshal. apply _. Qed.
#[export] Instance Declines_Marshal {T} `{Snapshot T} (x : T) : Declines (Marshal x).
Proof. intros e E. pose proof (Marshal_total x) as Ht. by rewrite E in Ht. Qed.

(** ** The operations *)
#[export] Instance Refuses_AppendEvent e : Refuses (tx_AppendEvent e). Proof. unfold tx_AppendEvent. apply _. Qed.
#[export] Instance Refuses_GetVPC a b : Refuses (tx_GetVPC a b). Proof. unfold tx_GetVPC. apply _. Qed.
#[export] Instance Refuses_GetSubnet a b : Refuses (tx_GetSubnet a b). Proof. unfold tx_GetSubnet. apply _. Qed.
#[export] Instance Refuses_instanceFromRow r : Refuses (tx_instanceFromRow r). Proof. unfold tx_instanceFromRow. apply _. Qed.
#[export] Instance Refuses_GetInstance a b : Refuses (tx_GetInstance a b). Proof. unfold tx_GetInstance. apply _. Qed.
#[export] Instance Refuses_loadReplay {T} `{Readable T} a b c n : Refuses (loadReplay (T := T) a b c n).
Proof.
  unfold loadReplay, tx_GetIdempotency, parameterMismatch. apply Refuses_if; [apply _|].
  apply Refuses_bind; [apply _|]. intros [r|]; apply _.
Qed.
#[export] Instance Refuses_saveReplay {T} `{Snapshot T} a b c i (x : T) n : Refuses (saveReplay a b c i x n).
Proof. unfold saveReplay, tx_PutIdempotency. apply _. Qed.

Section operations.
Context (env : Env) (d : DB).

Lemma Declines_after_commit {A} id flt (m : Tx (A * bool)) : Refuses m → Declines (after_commit env id (WithTx flt m d)).1.1.
Proof.
  intros Hm. pose proof (Declines_WithTx flt m d Hm) as Hd. unfold after_commit.
  destruct (WithTx flt m d) as [[[a c]|e] d']; simpl in *; [apply _|by apply Declines_err, Hd].
Qed.

#[export] Instance Declines_CreateVPC input key : Declines (CreateVPC env input key d).1.1.
Proof.
  unfold CreateVPC. match goal with |- context [match ?r with Ok _ => _ | Err _ => _ end] =>
    assert (Declines r) as Hv by apply _; destruct r as [[[[name cidr] hash] id]|e]; [|by apply Declines_err, Hv] end.
  apply Declines_after_commit. unfold createVPC, nameConflict, tx_GetVPCByName, tx_AllocateIndex, tx_InsertVPC.
  apply Refuses_bind; [apply _|]. intros [r|]; apply _.
Qed.
#[export] Instance Declines_CreateSubnet input key : Declines (CreateSubnet env input key d).1.1.
Proof.
  unfold CreateSubnet. match goal with |- context [match ?r with Ok _ => _ | Err _ => _ end] =>
    assert (Declines r) as Hv by apply _; destruct r as [[[[name cidr] hash] id]|e]; [|by apply Declines_err, Hv] end.
  apply Declines_after_commit. unfold createSubnet, nameConflict, dependencyViolation, vpcNotFound,
    tx_ListSubnetsByVPC, tx_GetSubnetByName, tx_AllocateIndex, tx_InsertSubnet.
  apply Refuses_bind; [apply _|]. intros [r|]; apply _.
Qed.
#[export] Instance Declines_Run input key : Declines (Run env input key d).1.1.
Proof.
  unfold Run. match goal with |- context [match ?r with Ok _ => _ | Err _ => _ end] =>
    assert (Declines r) as Hv by apply _; destruct r as [[[[name hash] id] eni]|e]; [|by apply Declines_err, Hv] end.
  apply Declines_after_commit. unfold runInstance, nameConflict, subnetNotFound, incorrectInstanceState,
    addressLimitExceeded, tx_GetInstanceByName, tx_ENIAddresses, tx_AllocateIndex, tx_InsertInstanceWithENI.
  apply Refuses_bind; [apply _|]. intros [r|]; apply _.
Qed.
#[export] Instance Declines_DeleteVPC id : Declines (DeleteVPC env id d).1.1.
Proof.
  apply Declines_after_commit. unfold deleteVPC, vpcNotFound, dependencyViolation, tx_ListSubnetsByVPC, tx_MarkVPCDeleting.
  apply _.
Qed.
#[export] Instance Declines_DeleteSubnet id : Declines (DeleteSubnet env id d).1.1.
Proof.
  apply Declines_after_commit. unfold deleteSubnet, subnetNotFound, dependencyViolation, tx_CountInstancesInSubnet, tx_MarkSubnetDeleting.
  apply _.
Qed.
#[export] Instance Declines_TerminateSnapshot id : Declines (TerminateSnapshot env id d).1.1.
Proof.
  apply Declines_after_commit. unfold terminateSnapshot, instanceNotFound, tx_MarkInstanceTerminating. apply _.
Qed.

#[export] Instance Declines_service_GetVPC id : Declines (GetVPC env id d).
Proof.
  unfold GetVPC, vpcNotFound, store_GetVPC. apply Declines_missing; [apply _|]. apply Declines_bind; [|apply _].
  apply Declines_wrap, Declines_autocommit, _.
Qed.
#[export] Instance Declines_service_GetSubnet id : Declines (GetSubnet env id d).
Proof.
  unfold GetSubnet, subnetNotFound, store_GetSubnet. apply Declines_missing; [apply _|]. apply Declines_bind; [|apply _].
  apply Declines_wrap, Declines_autocommit, _.
Qed.
#[export] Instance Declines_Get id : Declines (Get env id d).
Proof.
  unfold Get, instanceNotFound, store_GetInstance. apply Declines_missing; [apply _|]. apply Declines_WithTx, _.
Qed.
#[export] Instance Declines_ListVPCs limit token : Declines (ListVPCs env limit token d).
Proof.
  unfold ListVPCs. do 2 (apply Declines_bind; [apply _|intros ?]). apply Declines_bind; [|apply _].
  apply Declines_bind; [|apply _]. apply Declines_wrap, Declines_autocommit, _.
Qed.
#[export] Instance Declines_ListSubnets limit token : Declines (ListSubnets env limit token d).
Proof.
  unfold ListSubnets. do 2 (apply Declines_bind; [apply _|intros ?]). apply Declines_bind; [|apply _].
  apply Declines_bind; [|apply _]. apply Declines_wrap, Declines_autocommit, _.
Qed.
#[export] Instance Declines_ListInstances limit token : Declines (List_ env limit token d).
Proof.
  unfold List_. do 2 (apply Declines_bind; [apply _|intros ?]). apply Declines_bind; [|apply _].
  apply Declines_WithTx. apply Refuses_bind; [apply _|]. intros rows.
  induction rows as [|r rows IH]; cbn [mapM]; apply _.
Qed.
End operations.
