(* ===== verification/Api.v ===== *)
(** The HTTP API: [internal/apiserver] ([auth.go], [network.go], [instance.go],
    [server.go]) with the response types of its generated package.

    A handler gets the routed request (workspace, path and query parameters,
    headers, body), the environment of the service call and the database; it
    returns the response, the database it leaves and the reconciler hints.
    Routing and the binding of parameters are generated code; [mime.ParseMediaType]
    of the Content-Type header is part of the request ([rq_mediaType]). *)

From S2P Require Import Prelude Errors GoStrings Utf8 NetIP Validate Ipam Mac Model Json Snapshot.
From S2P Require Import Schema Tx Store Idempotency NetworkService InstanceService.
Local Open Scope Z_scope.

(** ** Response bodies *)
Record ErrorBody := MkErrorBody { eb_Code : string; eb_Message : string; eb_ResourceId : option string }.
Record VpcBody := MkVpcBody {
  vb_CidrBlock : string; vb_Generation : Z; vb_Id : string; vb_Name : string;
  vb_ObservedGeneration : Z; vb_State : string; vb_StateReason : string
}.
Record SubnetBody := MkSubnetBody {
  sb_AvailabilityZone : string; sb_CidrBlock : string; sb_Generation : Z; sb_Id : string; sb_Name : string;
  sb_ObservedGeneration : Z; sb_State : string; sb_StateReason : string; sb_VpcId : string
}.
Record InstanceBody := MkInstanceBody {
  ib_EniId : string; ib_Generation : Z; ib_Id : string; ib_InstanceType : string; ib_Name : string;
  ib_ObservedGeneration : Z; ib_PrivateIp : string; ib_State : string; ib_StateReason : string; ib_SubnetId : string
}.
Record Page (A : Type) := MkPage { Items : list A; NextPageToken : option string }.
Arguments MkPage {A} _ _.
Arguments Items {A} _.
Arguments NextPageToken {A} _.

Inductive Body :=
  | BError (e : ErrorBody)
  | BHealth (status : string)
  | BVersion (api build commit : string)
  | BVpc (v : VpcBody)
  | BVpcs (p : Page VpcBody)
  | BSubnet (s : SubnetBody)
  | BSubnets (p : Page SubnetBody)
  | BInstance (i : InstanceBody)
  | BInstances (p : Page InstanceBody).

(** [writeJSON]: the status and the body. *)
Record Response := MkResponse { code : Z; body : Body }.

(** A field with [omitempty]. *)
Definition optional_field (name : string) (o : option string) : list (list Z * json) :=
  match o with Some s => [(bytes name, enc_string s)] | None => [] end.
Definition enc_ErrorBody (e : ErrorBody) : json :=
  JObj ([(bytes "code", enc_string (eb_Code e)); (bytes "message", enc_string (eb_Message e))] ++
        optional_field "resource_id" (eb_ResourceId e)).
Definition enc_VpcBody (v : VpcBody) : json :=
  JObj [(bytes "cidr_block", enc_string (vb_CidrBlock v)); (bytes "generation", enc_int64 (vb_Generation v));
        (bytes "id", enc_string (vb_Id v)); (bytes "name", enc_string (vb_Name v));
        (bytes "observed_generation", enc_int64 (vb_ObservedGeneration v));
        (bytes "state", enc_string (vb_State v)); (bytes "state_reason", enc_string (vb_StateReason v))].
Definition enc_SubnetBody (s : SubnetBody) : json :=
  JObj [(bytes "availability_zone", enc_string (sb_AvailabilityZone s));
        (bytes "cidr_block", enc_string (sb_CidrBlock s)); (bytes "generation", enc_int64 (sb_Generation s));
        (bytes "id", enc_string (sb_Id s)); (bytes "name", enc_string (sb_Name s));
        (bytes "observed_generation", enc_int64 (sb_ObservedGeneration s));
        (bytes "state", enc_string (sb_State s)); (bytes "state_reason", enc_string (sb_StateReason s));
        (bytes "vpc_id", enc_string (sb_VpcId s))].
Definition enc_InstanceBody (i : InstanceBody) : json :=
  JObj [(bytes "eni_id", enc_string (ib_EniId i)); (bytes "generation", enc_int64 (ib_Generation i));
        (bytes "id", enc_string (ib_Id i)); (bytes "instance_type", enc_string (ib_InstanceType i));
        (bytes "name", enc_string (ib_Name i));
        (bytes "observed_generation", enc_int64 (ib_ObservedGeneration i));
        (bytes "private_ip", enc_string (ib_PrivateIp i)); (bytes "state", enc_string (ib_State i));
        (bytes "state_reason", enc_string (ib_StateReason i)); (bytes "subnet_id", enc_string (ib_SubnetId i))].
Definition enc_Page {A} (enc : A → json) (p : Page A) : json :=
  JObj ((bytes "items", JArr (List.map enc (Items p))) :: optional_field "next_page_token" (NextPageToken p)).
Definition enc_Body (b : Body) : json :=
  match b with
  | BError e => enc_ErrorBody e
  | BHealth status => JObj [(bytes "status", enc_string status)]
  | BVersion api build commit =>
      JObj [(bytes "api_version", enc_string api); (bytes "build_commit", enc_string commit);
            (bytes "build_version", enc_string build)]
  | BVpc v => enc_VpcBody v
  | BVpcs p => enc_Page enc_VpcBody p
  | BSubnet s => enc_SubnetBody s
  | BSubnets p => enc_Page enc_SubnetBody p
  | BInstance i => enc_InstanceBody i
  | BInstances p => enc_Page enc_InstanceBody p
  end.
(** What [writeJSON] sends; [Encoder.Encode] ends the body with a newline. *)
Definition writeJSON (r : Response) : list Z := encode (enc_Body (body r)) ++ [10].

Definition vpcResponse (v : VPC) : VpcBody :=
  MkVpcBody (Prefix_String (VPC_CIDRBlock v)) (VPC_Generation v) (VPC_ID v) (VPC_Name v)
    (VPC_ObservedGeneration v) (VPC_State v) (VPC_StateReason v).
Definition subnetResponse (s : Subnet) : SubnetBody :=
  MkSubnetBody (Subnet_AvailabilityZone s) (Prefix_String (Subnet_CIDRBlock s)) (Subnet_Generation s)
    (Subnet_ID s) (Subnet_Name s) (Subnet_ObservedGeneration s) (Subnet_State s) (Subnet_StateReason s)
    (Subnet_VPCID s).
Definition instanceResponse (i : Instance_) : InstanceBody :=
  MkInstanceBody (ENI_ID (Instance_ENI i)) (Instance_Generation i) (Instance_ID i) (Instance_InstanceType i)
    (Instance_Name i) (Instance_ObservedGeneration i) (Addr_String (ENI_PrivateIP (Instance_ENI i)))
    (Instance_State i) (Instance_StateReason i) (Instance_SubnetID i).

(** ** Errors *)
Definition writeAPIError (status : Z) (c message resourceID : string) : Response :=
  MkResponse status (BError (MkErrorBody c message (if resourceID !=? "" then Some resourceID else None))).

Definition writeServiceError (err : error) : Response :=
  match as_Service err with
  | Some domain => writeAPIError (Status domain) (Code domain) (text_string (Message domain)) (ResourceID domain)
  | None => writeAPIError 500 "InternalError" "resource operation failed" ""
  end.

(** A guard of a handler: [Some] is the response it wrote before returning. *)
Definition checkWorkspace (workspace : string) : option Response :=
  if workspace ==? "default" then None
  else Some (writeAPIError 404 "InvalidWorkspace.NotFound" "workspace does not exist" workspace).

(** Which services the server was given. *)
Record server := MkServer {
  srv_resources : bool; srv_instances : bool; srv_events : bool;
  srv_ready : bool; srv_version : string; srv_commit : string
}.
Definition checkResources (s : server) : option Response :=
  if srv_resources s then None
  else Some (writeAPIError 503 "ServiceUnavailable" "resource service is not ready" "").
Definition checkInstances (s : server) : option Response :=
  if srv_instances s then None
  else Some (writeAPIError 503 "ServiceUnavailable" "instance service is not ready" "").
Fixpoint required (fields : list string) : option Response :=
  match fields with
  | [] => None
  | field :: fields' =>
      if field ==? "" then Some (writeAPIError 400 "InvalidParameterValue" "required request field is empty" "")
      else required fields'
  end.

(** ** Request bodies *)
Record Request := MkRequest { rq_mediaType : option string; rq_body : list Z }.

(** [DisallowUnknownFields] *)
Definition dec_strict {T} (field : list Z → option (json → T → result T)) (v : json) (x : T) : result T :=
  match v with
  | JNull => Ok x
  | JObj fs =>
      fold_left (λ acc f, x' ← acc;
                   match field f.1 with
                   | Some set => set f.2 x'
                   | None => Err (Errorf (Sprintf "json: unknown field %q" [of_bytes f.1]))
                   end) fs (Ok x)
  | _ => Err typeError
  end.

(** [MaxBytesReader] lets through one MiB; reading on is an error. *)
Definition maxBody : nat := Z.to_nat (2 ^ 20).

Definition decodeBody {T} (field : list Z → option (json → T → result T)) (zero : T) (r : Request)
    : Response + T :=
  match rq_mediaType r with
  | Some mediaType =>
      if mediaType !=? "application/json"
      then inl (writeAPIError 400 "InvalidParameterValue" "Content-Type must be application/json" "")
      else
        let data := take maxBody (rq_body r) in
        match parse_value (2 * length data + 2) maxNestingDepth data with
        | None =>
            inl (writeAPIError 400 "InvalidParameterValue"
                   ("invalid JSON body: " +:+ error_text syntaxError) "")
        | Some (v, rest) =>
            match dec_strict field v zero with
            | Err e =>
                inl (writeAPIError 400 "InvalidParameterValue" ("invalid JSON body: " +:+ error_text e) "")
            | Ok target =>
                if bool_decide (skip_space rest = []) && (length (rq_body r) <=? maxBody)%nat
                then inr target
                else inl (writeAPIError 400 "InvalidParameterValue"
                            "request body must contain exactly one JSON object" "")
            end
        end
  | None => inl (writeAPIError 400 "InvalidParameterValue" "Content-Type must be application/json" "")
  end.

Definition field_CreateVpcRequest (key : list Z) : option (json → CreateVPCInput → result CreateVPCInput) :=
  if is_field "cidr_block" key then Some (λ v x, s ← dec_string v (cv_CIDRBlock x); Ok (MkCreateVPCInput (cv_Name x) s))
  else if is_field "name" key then Some (λ v x, s ← dec_string v (cv_Name x); Ok (MkCreateVPCInput s (cv_CIDRBlock x)))
  else None.
Definition field_CreateSubnetRequest (key : list Z)
    : option (json → CreateSubnetInput → result CreateSubnetInput) :=
  if is_field "availability_zone" key then Some (λ v x,
    s ← dec_string v (cs_AvailabilityZone x); Ok (MkCreateSubnetInput (cs_Name x) (cs_VPCID x) (cs_CIDRBlock x) s))
  else if is_field "cidr_block" key then Some (λ v x,
    s ← dec_string v (cs_CIDRBlock x); Ok (MkCreateSubnetInput (cs_Name x) (cs_VPCID x) s (cs_AvailabilityZone x)))
  else if is_field "name" key then Some (λ v x,
    s ← dec_string v (cs_Name x); Ok (MkCreateSubnetInput s (cs_VPCID x) (cs_CIDRBlock x) (cs_AvailabilityZone x)))
  else if is_field "vpc_id" key then Some (λ v x,
    s ← dec_string v (cs_VPCID x); Ok (MkCreateSubnetInput (cs_Name x) s (cs_CIDRBlock x) (cs_AvailabilityZone x)))
  else None.
Definition field_RunInstanceRequest (key : list Z) : option (json → RunInstanceInput → result RunInstanceInput) :=
  if is_field "name" key then Some (λ v x, s ← dec_string v (ri_Name x); Ok (MkRunInstanceInput s (ri_SubnetID x)))
  else if is_field "subnet_id" key then Some (λ v x, s ← dec_string v (ri_SubnetID x); Ok (MkRunInstanceInput (ri_Name x) s))
  else None.

(** ** Handlers *)
Definition Outcome : Type := Response * DB * list string.

(** [if !guard(w) { return }; ...] *)
Definition unless (guard : option Response) (d : DB) (next : Outcome) : Outcome :=
  match guard with Some r => (r, d, []) | None => next end.

(** [if err != nil { writeServiceError(w, err); return }; writeJSON(w, status, ...)] *)
Definition reply {A} (status : Z) (f : A → Body) (r : result A * DB * list string) : Outcome :=
  let '(a, d', hints) := r in
  (match a with Ok x => MkResponse status (f x) | Err e => writeServiceError e end, d', hints).
Definition reply_read {A} (f : A → Body) (r : result A) (d : DB) : Outcome := reply 200 f (r, d, []).

(** The page of a list and its token, absent when empty. *)
Definition page_body {A B} (f : A → B) (r : list A * string) : Page B :=
  MkPage (List.map f r.1) (if r.2 !=? "" then Some r.2 else None).

Section handlers.
Context (s : server) (env : Env) (workspace : string).

Definition CreateVpc (key : option string) (r : Request) (d : DB) : Outcome :=
  unless (checkWorkspace workspace) d (unless (checkResources s) d
  (match decodeBody field_CreateVpcRequest (MkCreateVPCInput "" "") r with
   | inl response => (response, d, [])
   | inr input =>
       unless (required [cv_Name input; cv_CIDRBlock input]) d
         (reply 201 (λ v, BVpc (vpcResponse v)) (CreateVPC env input (default "" key) d))
   end)).

Definition ListVpcs (limit : option Z) (token : option string) (d : DB) : Outcome :=
  unless (checkWorkspace workspace) d (unless (checkResources s) d
    (reply_read (λ p, BVpcs (page_body vpcResponse p)) (ListVPCs env (default 0 limit) (default "" token) d) d)).

Definition GetVpc (id : string) (d : DB) : Outcome :=
  unless (checkWorkspace workspace) d (unless (checkResources s) d
    (reply_read (λ v, BVpc (vpcResponse v)) (GetVPC env id d) d)).

Definition DeleteVpc (id : string) (d : DB) : Outcome :=
  unless (checkWorkspace workspace) d (unless (checkResources s) d
    (reply 202 (λ v, BVpc (vpcResponse v)) (DeleteVPC env id d))).

Definition api_CreateSubnet (key : option string) (r : Request) (d : DB) : Outcome :=
  unless (checkWorkspace workspace) d (unless (checkResources s) d
  (match decodeBody field_CreateSubnetRequest (MkCreateSubnetInput "" "" "" "") r with
   | inl response => (response, d, [])
   | inr input =>
       unless (required [cs_Name input; cs_VPCID input; cs_CIDRBlock input; cs_AvailabilityZone input]) d
         (reply 201 (λ x, BSubnet (subnetResponse x)) (CreateSubnet env input (default "" key) d))
   end)).

Definition api_ListSubnets (limit : option Z) (token : option string) (d : DB) : Outcome :=
  unless (checkWorkspace workspace) d (unless (checkResources s) d
    (reply_read (λ p, BSubnets (page_body subnetResponse p)) (ListSubnets env (default 0 limit) (default "" token) d) d)).

Definition api_GetSubnet (id : string) (d : DB) : Outcome :=
  unless (checkWorkspace workspace) d (unless (checkResources s) d
    (reply_read (λ x, BSubnet (subnetResponse x)) (GetSubnet env id d) d)).

Definition api_DeleteSubnet (id : string) (d : DB) : Outcome :=
  unless (checkWorkspace workspace) d (unless (checkResources s) d
    (reply 202 (λ x, BSubnet (subnetResponse x)) (DeleteSubnet env id d))).

Definition RunInstance (key : option string) (r : Request) (d : DB) : Outcome :=
  unless (checkWorkspace workspace) d (unless (checkInstances s) d
  (match decodeBody field_RunInstanceRequest (MkRunInstanceInput "" "") r with
   | inl response => (response, d, [])
   | inr input =>
       unless (required [ri_Name input; ri_SubnetID input]) d
         (reply 201 (λ i, BInstance (instanceResponse i)) (Run env input (default "" key) d))
   end)).

Definition ListInstances (limit : option Z) (token : option string) (d : DB) : Outcome :=
  unless (checkWorkspace workspace) d (unless (checkInstances s) d
    (reply_read (λ p, BInstances (page_body instanceResponse p)) (List_ env (default 0 limit) (default "" token) d) d)).

Definition GetInstance (id : string) (d : DB) : Outcome :=
  unless (checkWorkspace workspace) d (unless (checkInstances s) d
    (reply_read (λ i, BInstance (instanceResponse i)) (Get env id d) d)).

Definition TerminateInstance (id : string) (d : DB) : Outcome :=
  unless (checkWorkspace workspace) d (unless (checkInstances s) d
    (reply 202 (λ i, BInstance (instanceResponse i)) (TerminateSnapshot env id d))).

Definition GetHealth (d : DB) : Outcome :=
  (if srv_ready s then MkResponse 200 (BHealth "ready") else MkResponse 503 (BHealth "starting"), d, []).
Definition GetVersion (d : DB) : Outcome := (MkResponse 200 (BVersion "v1" (srv_version s) (srv_commit s)), d, []).
End handlers.

(** ** The boundary: [localOnly(requireBearer(token, routes))] *)

(** A list around the first, and around the last, occurrence of a byte. *)
Fixpoint split_first (b : Z) (l : list Z) : option (list Z * list Z) :=
  match l with
  | [] => None
  | c :: l' => if c =? b then Some ([], l') else '(x, y) ← split_first b l'; Some (c :: x, y)
  end.
Fixpoint split_last (b : Z) (l : list Z) : option (list Z * list Z) :=
  match l with
  | [] => None
  | c :: l' =>
      match split_last b l' with
      | Some (x, y) => Some (c :: x, y)
      | None => if c =? b then Some ([], l') else None
      end
  end.

(** The host of [net.SplitHostPort], [None] for its errors. *)
Definition SplitHostPort (hostport : list Z) : option (list Z) :=
  '(before, port) ← split_last 58 hostport;
  if bool_decide (head hostport = Some 91) then
    let l := drop 1 hostport in
    '(host, after) ← split_first 93 l;
    if (length after =? 0)%nat then None
    else if negb (length before =? 2 + length host)%nat then None
    else if bool_decide (91 ∈ l) || bool_decide (93 ∈ after) then None
    else Some host
  else if bool_decide (58 ∈ before) || bool_decide (91 ∈ hostport) || bool_decide (93 ∈ hostport) then None
  else Some before.

Definition requireBearer (token path authorization : string) : option Response :=
  if path ==? "/v1/health" then None
  else
    match CutPrefix authorization "Bearer " with
    | Some given =>
        if (token ==? "") || (given !=? token)
        then Some (MkResponse 401 (BError (MkErrorBody "AuthFailure" "missing or invalid bearer token" None)))
        else None
    | None => Some (MkResponse 401 (BError (MkErrorBody "AuthFailure" "missing or invalid bearer token" None)))
    end.

Definition localOnly (host origin : string) : option Response :=
  let host := match SplitHostPort (bytes host) with Some h => of_bytes h | None => host end in
  if ((host !=? "localhost") && (host !=? "127.0.0.1") && (host !=? "::1")) || (origin !=? "")
  then Some (MkResponse 403 (BError (MkErrorBody "AccessDenied" "non-local host or browser origin rejected" None)))
  else None.

(** A request at the boundary: Host, Origin and Authorization headers, and path. *)
Record Headers := MkHeaders { h_Host : string; h_Origin : string; h_Authorization : string; h_Path : string }.
Definition boundary (token : string) (h : Headers) (next : DB → Outcome) (d : DB) : Outcome :=
  unless (localOnly (h_Host h) (h_Origin h)) d
    (unless (requireBearer token (h_Path h) (h_Authorization h)) d (next d)).
