(* ===== verification/ApiSafety.v ===== *)
(** What the HTTP API guarantees: errors change nothing, successes are exactly
    the operations of the services, and only local, authenticated requests get
    through. *)

From S2P Require Import Prelude Errors GoStrings Utf8 NetIP Validate Ipam Mac Model Json Snapshot.
From S2P Require Import Schema Tx Transitions Store Idempotency Refine RecordRefine.
From S2P Require Import NetworkService InstanceService ServiceRefine System ErrorStatus Api.
Local Open Scope Z_scope.

(** The routed calls. *)
Inductive api_call :=
  | CallCreateVpc (key : option string) (r : Request)
  | CallListVpcs (limit : option Z) (token : option string)
  | CallGetVpc (id : string)
  | CallDeleteVpc (id : string)
  | CallCreateSubnet (key : option string) (r : Request)
  | CallListSubnets (limit : option Z) (token : option string)
  | CallGetSubnet (id : string)
  | CallDeleteSubnet (id : string)
  | CallRunInstance (key : option string) (r : Request)
  | CallListInstances (limit : option Z) (token : option string)
  | CallGetInstance (id : string)
  | CallTerminateInstance (id : string)
  | CallGetVersion.

Definition serve (s : server) (env : Env) (ws : string) (c : api_call) (d : DB) : Outcome :=
  match c with
  | CallCreateVpc key r => CreateVpc s env ws key r d
  | CallListVpcs limit token => ListVpcs s env ws limit token d
  | CallGetVpc id => GetVpc s env ws id d
  | CallDeleteVpc id => DeleteVpc s env ws id d
  | CallCreateSubnet key r => api_CreateSubnet s env ws key r d
  | CallListSubnets limit token => api_ListSubnets s env ws limit token d
  | CallGetSubnet id => api_GetSubnet s env ws id d
  | CallDeleteSubnet id => api_DeleteSubnet s env ws id d
  | CallRunInstance key r => RunInstance s env ws key r d
  | CallListInstances limit token => ListInstances s env ws limit token d
  | CallGetInstance id => GetInstance s env ws id d
  | CallTerminateInstance id => TerminateInstance s env ws id d
  | CallGetVersion => GetVersion s d
  end.

(** A sound answer to a call in state [d]: an error status with an error body and
    no effect, or a success whose effect the machine allows. *)
Definition sound (d : DB) (o : Outcome) : Prop :=
  let '(r, d', hints) := o in
  steps d d' ∧
  ((400 ≤ code r ≤ 599 ∧ (∃ e, body r = BError e) ∧ d' = d ∧ hints = []) ∨
   (200 ≤ code r ≤ 202 ∧ ∀ e, body r ≠ BError e)).

Lemma sound_error d status c m rid : 400 ≤ status ≤ 599 → sound d (writeAPIError status c m rid, d, []).
Proof. intros Hs. split; [apply rtc_refl|]. left. simpl. split_and!; try done; try lia. by eexists. Qed.

Lemma sound_unless guard d next :
  (∀ r, guard = Some r → 400 ≤ code r ≤ 599 ∧ ∃ e, body r = BError e) → sound d next → sound d (unless guard d next).
Proof. intros Hg Hn. destruct guard; [|done]. split; [apply rtc_refl|]. left. destruct (Hg _ eq_refl). auto. Qed.

Lemma sound_reply {A} status f (r : result A) d d' hints :
  200 ≤ status ≤ 202 → (∀ a e, f a ≠ BError e) → Declines r → steps d d' →
  (∀ e, r = Err e → d' = d ∧ hints = []) → sound d (reply status f (r, d', hints)).
Proof.
  intros Hst Hf Hr Hs He. destruct r as [a|e]; (split; [done|]); simpl; [right; auto|left].
  destruct (He e eq_refl) as [-> ->]. unfold writeServiceError. destruct (as_Service e) as [x|] eqn:E; simpl.
  - pose proof (Hr e eq_refl x E). split_and!; eauto; lia.
  - split_and!; eauto; lia.
Qed.

Lemma workspace_guard ws r : checkWorkspace ws = Some r → 400 ≤ code r ≤ 599 ∧ ∃ e, body r = BError e.
Proof. unfold checkWorkspace. destruct (_ ==? _); [done|]. intros [= <-]. simpl. eauto with lia. Qed.
Lemma resources_guard s r : checkResources s = Some r → 400 ≤ code r ≤ 599 ∧ ∃ e, body r = BError e.
Proof. unfold checkResources. destruct (srv_resources s); [done|]. intros [= <-]. simpl. eauto with lia. Qed.
Lemma instances_guard s r : checkInstances s = Some r → 400 ≤ code r ≤ 599 ∧ ∃ e, body r = BError e.
Proof. unfold checkInstances. destruct (srv_instances s); [done|]. intros [= <-]. simpl. eauto with lia. Qed.
Lemma required_guard fs r : required fs = Some r → 400 ≤ code r ≤ 599 ∧ ∃ e, body r = BError e.
Proof. induction fs; simpl; [done|]. destruct (_ ==? _); [|done]. intros [= <-]. simpl. eauto with lia. Qed.
Lemma decode_guard {T} field (zero : T) rq r : decodeBody field zero rq = inl r → 400 ≤ code r ≤ 599 ∧ ∃ e, body r = BError e.
Proof. unfold decodeBody. intros H. repeat case_match; simplify_eq; simpl; eauto with lia. Qed.

(** Failed operations of the services have no effect. *)
Lemma after_commit_nothing {A} env (id : A → string) flt m d e :
  (after_commit env id (WithTx flt m d)).1.1 = Err e →
  (after_commit env id (WithTx flt m d)).1.2 = d ∧ (after_commit env id (WithTx flt m d)).2 = [].
Proof.
  intros H. split; [by eapply after_commit_Err|]. unfold after_commit in *.
  by destruct (WithTx flt m d) as [[[a c]|e'] d'].
Qed.

Lemma sound_write {A} status f d (o : result A * DB * list string) :
  200 ≤ status ≤ 202 → (∀ a e, f a ≠ BError e) → Declines o.1.1 → steps d o.1.2 →
  (∀ e, o.1.1 = Err e → o.1.2 = d ∧ o.2 = []) → sound d (reply status f o).
Proof. destruct o as [[r d'] hints]. apply sound_reply. Qed.

Lemma sound_read {A} f d (r : result A) : (∀ a e, f a ≠ BError e) → Declines r → sound d (reply_read f r d).
Proof. intros Hf Hr. apply sound_reply; auto; [lia|apply rtc_refl]. Qed.

Lemma creation_nothing env input key d e :
  (CreateVPC env input key d).1.1 = Err e → (CreateVPC env input key d).1.2 = d ∧ (CreateVPC env input key d).2 = [].
Proof. unfold CreateVPC. destruct (_ ≫= _) as [[[[? ?] ?] ?]|]; [apply after_commit_nothing|done]. Qed.
Lemma subnet_creation_nothing env input key d e :
  (CreateSubnet env input key d).1.1 = Err e →
  (CreateSubnet env input key d).1.2 = d ∧ (CreateSubnet env input key d).2 = [].
Proof. unfold CreateSubnet. destruct (_ ≫= _) as [[[[? ?] ?] ?]|]; [apply after_commit_nothing|done]. Qed.
Lemma launch_nothing env input key d e :
  (Run env input key d).1.1 = Err e → (Run env input key d).1.2 = d ∧ (Run env input key d).2 = [].
Proof. unfold Run. destruct (_ ≫= _) as [[[[? ?] ?] ?]|]; [apply after_commit_nothing|done]. Qed.

Lemma sound_resources s ws d next : sound d next → sound d (unless (checkWorkspace ws) d (unless (checkResources s) d next)).
Proof. intros Hn. apply sound_unless; [apply workspace_guard|]. apply sound_unless; [apply resources_guard|done]. Qed.
Lemma sound_instances s ws d next : sound d next → sound d (unless (checkWorkspace ws) d (unless (checkInstances s) d next)).
Proof. intros Hn. apply sound_unless; [apply workspace_guard|]. apply sound_unless; [apply instances_guard|done]. Qed.

(** A body that was decoded and has its fields. *)
Lemma sound_body {T} field (zero : T) r fields d (next : T → Outcome) :
  (∀ input, sound d (next input)) →
  sound d (match decodeBody field zero r with
           | inl response => (response, d, [])
           | inr input => unless (required (fields input)) d (next input)
           end).
Proof.
  intros Hn. destruct (decodeBody field zero r) as [resp|input] eqn:E.
  - apply decode_guard in E as [Hc Hb]. split; [apply rtc_refl|left; auto].
  - apply sound_unless; [apply required_guard|done].
Qed.

Lemma serve_sound s env ws c d : Inv d → sound d (serve s env ws c d).
Proof.
  intros I. pose proof (λ o, perform_steps o d I) as Hsteps. destruct c as [key r| | |id|key r| | |id|key r| | |id|].
  - apply sound_resources, (sound_body _ _ _ (λ input, [cv_Name input; cv_CIDRBlock input])). intros input.
    apply sound_write; [lia|done|apply _|exact (Hsteps (OpCreateVPC env input (default "" key)))|apply creation_nothing].
  - apply sound_resources, sound_read; [done|apply _].
  - apply sound_resources, sound_read; [done|apply _].
  - apply sound_resources, sound_write; [lia|done|apply _|exact (Hsteps (OpDeleteVPC env id))|apply after_commit_nothing].
  - apply sound_resources,
      (sound_body _ _ _ (λ input, [cs_Name input; cs_VPCID input; cs_CIDRBlock input; cs_AvailabilityZone input])).
    intros input. apply sound_write;
      [lia|done|apply _|exact (Hsteps (OpCreateSubnet env input (default "" key)))|apply subnet_creation_nothing].
  - apply sound_resources, sound_read; [done|apply _].
  - apply sound_resources, sound_read; [done|apply _].
  - apply sound_resources, sound_write; [lia|done|apply _|exact (Hsteps (OpDeleteSubnet env id))|apply after_commit_nothing].
  - apply sound_instances, (sound_body _ _ _ (λ input, [ri_Name input; ri_SubnetID input])). intros input.
    apply sound_write; [lia|done|apply _|exact (Hsteps (OpRun env input (default "" key)))|apply launch_nothing].
  - apply sound_instances, sound_read; [done|apply _].
  - apply sound_instances, sound_read; [done|apply _].
  - apply sound_instances, sound_write; [lia|done|apply _| |apply after_commit_nothing].
    specialize (Hsteps (OpTerminate env id)). simpl in Hsteps. unfold Terminate, outcome in Hsteps.
    by destruct (TerminateSnapshot env id d) as [[? ?] ?].
  - split; [apply rtc_refl|]. right. split; [simpl; lia|done].
Qed.

(** ** The boundary *)
Lemma split_first_Some b l x y : split_first b l = Some (x, y) ↔ l = x ++ b :: y ∧ b ∉ x.
Proof.
  revert x. induction l as [|c l IH]; intros x; simpl.
  - split; [done|]. intros [E _]. by destruct x.
  - destruct (c =? b) eqn:E; reflect_bools.
    + split; [intros [= <- <-]; subst; split; [done|by apply not_elem_of_nil]|].
      intros [Hl Hn]. destruct x as [|z x]; [by injection Hl as -> ->|]. injection Hl as -> ->. set_solver.
    + split.
      * destruct (split_first b l) as [[x' y']|]; [|done]. simpl. intros [= <- <-].
        destruct (proj1 (IH x')) as [-> Hn]; [done|]. split; [done|set_solver].
      * intros [Hl Hn]. destruct x as [|z x]; [by injection Hl as ->|]. injection Hl as -> ->.
        rewrite (proj2 (IH x)); [done|]. split; [done|set_solver].
Qed.
Lemma split_last_None b l : split_last b l = None ↔ b ∉ l.
Proof.
  induction l as [|c l IH]; simpl; [split; [intros _; by apply not_elem_of_nil|done]|].
  destruct (split_last b l) as [[x y]|] eqn:E.
  - split; [done|]. intros Hn. assert (b ∉ l) as Hl by set_solver. by apply IH in Hl.
  - rewrite not_elem_of_cons, <- IH. destruct (c =? b) eqn:E'; reflect_bools; split; naive_solver.
Qed.
Lemma split_last_Some b l x y : split_last b l = Some (x, y) ↔ l = x ++ b :: y ∧ b ∉ y.
Proof.
  revert x. induction l as [|c l IH]; intros x; simpl.
  - split; [done|]. intros [E _]. by destruct x.
  - destruct (split_last b l) as [[x' y']|] eqn:E.
    + split.
      * intros [= <- <-]. destruct (proj1 (IH x')) as [-> Hn]; done.
      * intros [Hl Hn]. destruct x as [|z x].
        -- injection Hl as -> ->. apply split_last_None in Hn. congruence.
        -- injection Hl as -> ->. assert (Some (x', y') = Some (x, y)) as [= -> ->]; [|done]. by apply IH.
    + apply split_last_None in E. destruct (c =? b) eqn:E'; reflect_bools.
      * split; [by intros [= <- <-]; subst|]. intros [Hl Hn]. destruct x as [|z x]; [by injection Hl as -> ->|].
        injection Hl as -> ->. set_solver.
      * split; [done|]. intros [Hl Hn]. destruct x as [|z x]; [by injection Hl as ->|]. injection Hl as -> ->. set_solver.
Qed.

(** [host:port] and [[host]:port]. *)
Definition plain_text (l : list Z) : Prop := (91 ∉ l) ∧ (93 ∉ l).
Definition names_host (hostport host : list Z) : Prop :=
  ∃ port, plain_text port ∧ (58 ∉ port) ∧ plain_text host ∧
    (((58 ∉ host) ∧ hostport = host ++ 58 :: port) ∨ hostport = 91 :: host ++ 93 :: 58 :: port).

Lemma SplitHostPort_names l h : SplitHostPort l = Some h → names_host l h.
Proof.
  unfold SplitHostPort. intros H. destruct (split_last 58 l) as [[before port]|] eqn:E; [|done]. simpl in H.
  apply split_last_Some in E as [El Hp]. case_bool_decide as Hh.
  - destruct l as [|c l]; [done|]. injection Hh as ->. simpl in H. rewrite drop_0 in H.
    destruct (split_first 93 l) as [[host after]|] eqn:E; [|done]. simpl in H. apply split_first_Some in E as [Es Hn].
    destruct (length after =? 0)%nat eqn:H0; [done|]. destruct (negb _) eqn:H1; [done|].
    destruct (_ || _) eqn:H2; [done|]. injection H as <-. reflect_bools. apply Nat.eqb_eq in H1.
    assert ((91 :: host ++ [93]) ++ after = before ++ 58 :: port) as E.
    { rewrite <- El, Es. simpl. by rewrite <- app_assoc. }
    apply app_inj_1 in E as [<- ->]; [|simpl; rewrite length_app; simpl; lia].
    exists port. unfold plain_text. set_solver.
  - destruct (_ || _) eqn:H2; [done|]. injection H as <-. reflect_bools.
    exists port. unfold plain_text. set_solver.
Qed.

Lemma names_SplitHostPort l h : names_host l h → SplitHostPort l = Some h.
Proof.
  intros (port & [Hp1 Hp2] & Hp & [Hh1 Hh2] & [[Hc ->]| ->]); unfold SplitHostPort.
  - rewrite (proj2 (split_last_Some 58 _ h port)) by done. simpl.
    rewrite bool_decide_false; [|destruct h; simpl; [done|set_solver]].
    by rewrite !bool_decide_false by set_solver.
  - rewrite (proj2 (split_last_Some 58 _ (91 :: h ++ [93]) port)) by (split; [simpl; by rewrite <- app_assoc|done]).
    simpl. rewrite drop_0, (proj2 (split_first_Some 93 _ h (58 :: port))) by done. simpl.
    rewrite length_app, Nat.add_1_r, Nat.eqb_refl. simpl. by rewrite !bool_decide_false by set_solver.
Qed.

(** The hosts that are the local machine. *)
Definition local_names : list string := ["localhost"; "127.0.0.1"; "::1"].
Definition local_host (host : string) : Prop :=
  ∃ name, name ∈ local_names ∧ (host = name ∨ names_host (bytes host) (bytes name)).

Lemma names_host_bytes s h : names_host (bytes s) h → bytes (of_bytes h) = h.
Proof.
  intros (port & _ & _ & _ & Hl). apply bytes_of_bytes. pose proof (bytes_range s) as Hr.
  destruct Hl as [[_ E]|E]; rewrite E in Hr; [by apply Forall_app in Hr as [? _]|].
  apply Forall_cons in Hr as [_ Hr]. by apply Forall_app in Hr as [? _].
Qed.

(** The host that [localOnly] compares. *)
Lemma parsed_host_local host :
  (match SplitHostPort (bytes host) with Some h => of_bytes h | None => host end) ∈ local_names ↔ local_host host.
Proof.
  unfold local_host. destruct (SplitHostPort (bytes host)) as [x|] eqn:E.
  - pose proof (SplitHostPort_names _ _ E) as Hn. split.
    + intros Hin. eexists. split; [exact Hin|]. right. by rewrite (names_host_bytes host x).
    + intros (name & Hin & [->|Hnm%names_SplitHostPort]).
      * unfold local_names in Hin. repeat (apply elem_of_cons in Hin as [->|Hin]; [by vm_compute in E|]).
        by apply not_elem_of_nil in Hin.
      * rewrite E in Hnm. injection Hnm as ->. by rewrite of_bytes_bytes.
  - split; [intros Hin; exists host; auto|]. intros (name & Hin & [->|Hnm%names_SplitHostPort]); [done|congruence].
Qed.

Lemma localOnly_passes host origin : localOnly host origin = None ↔ local_host host ∧ origin = "".
Proof.
  unfold localOnly. rewrite <- parsed_host_local.
  set (h := match SplitHostPort _ with Some _ => _ | None => _ end). unfold local_names.
  destruct (_ || _) eqn:E.
  - split; [done|]. intros [Hin ->]. apply orb_true_iff in E as [E|E]; [|by rewrite beq_refl in E].
    reflect_bools. set_solver.
  - split; [intros _|done]. apply orb_false_iff in E as [E1 E2]. reflect_bools. split; [|done].
    rewrite !andb_false_iff, !negb_false_iff in E1.
    destruct E1 as [[E1|E1]|E1]; apply (proj1 (beq_true _ _)) in E1; rewrite E1; set_solver.
Qed.

Lemma requireBearer_passes token path auth :
  requireBearer token path auth = None ↔ path = "/v1/health" ∨ (token ≠ "" ∧ auth = "Bearer " +:+ token).
Proof.
  unfold requireBearer. destruct (path ==? "/v1/health") eqn:E; reflect_bools; [naive_solver|].
  destruct (CutPrefix auth "Bearer ") as [given|] eqn:Ec.
  - apply CutPrefix_Some in Ec as ->. destruct (_ || _) eqn:Et.
    + split; [done|]. intros [?|[Hne Ha]]; [done|].
      apply (inj (String.append "Bearer ")) in Ha as ->. apply orb_true_iff in Et as [Et|Et]; reflect_bools; done.
    + split; [intros _; right|done]. reflect_bools. by subst.
  - split; [done|]. intros [?|[_ ->]]; [done|]. by rewrite CutPrefix_app in Ec.
Qed.

(** The requests that get through. *)
Definition admitted (token : string) (h : Headers) : Prop :=
  local_host (h_Host h) ∧ h_Origin h = "" ∧
  (h_Path h = "/v1/health" ∨ (token ≠ "" ∧ h_Authorization h = "Bearer " +:+ token)).

(** ** Properties *)


(** The body of a POST. *)
Definition posted (text : string) : Request := MkRequest (Some "application/json") (bytes text).
(** A JSON object with one or two string members. *)
Definition pair_text (k1 v1 k2 v2 : string) : string :=
  "{" +:+ dquote +:+ k1 +:+ dquote +:+ ":" +:+ dquote +:+ v1 +:+ dquote +:+ "," +:+
  dquote +:+ k2 +:+ dquote +:+ ":" +:+ dquote +:+ v2 +:+ dquote +:+ "}".


(** The answers to that call, and to creations over HTTP. *)
Example api_examples :
  let s := MkServer true true true true "dev" "none" in
  let answer c := let '(r, _, hints) := serve s (at_time 3000 9) "default" c demo_db in (code r, hints) in
  answer (CallDeleteSubnet (demo_subnet "02")) = (409, []) ∧
  answer (CallCreateVpc None (posted (pair_text "name" "second" "cidr_block" "10.1.0.0/16"))) =
    (201, ["vpc-09020304050607080"]) ∧
  answer (CallCreateVpc None (posted (pair_text "name" "second" "cidr" "10.1.0.0/16"))) = (400, []) ∧
  answer (CallCreateVpc None (posted (pair_text "name" "main" "cidr_block" "10.1.0.0/16"))) = (409, []).
Proof. vm_compute. done. Qed.

(** C11: A request reaches the API exactly when it is addressed to this machine (as
    localhost, 127.0.0.1 or ::1, with or without a port), has no Origin and carries
    the daemon's token (no request is admitted for an empty one) or asks for the
    health; any other request is answered with 401 or 403 and has no effect. *)
Theorem boundary_admits_exactly token h next d :
  (admitted token h → boundary token h next d = next d) ∧
  (¬ admitted token h →
     ∃ r, boundary token h next d = (r, d, []) ∧ (code r = 401 ∨ code r = 403)).
Proof.
  unfold boundary, admitted. pose proof (localOnly_passes (h_Host h) (h_Origin h)) as Hl.
  pose proof (requireBearer_passes token (h_Path h) (h_Authorization h)) as Hb.
  split.
  - intros (H1 & H2 & H3). by rewrite (proj2 Hl), (proj2 Hb).
  - intros Hn. destruct (localOnly _ _) as [r|] eqn:El; simpl.
    + exists r. split; [done|]. right. unfold localOnly in El. destruct (_ || _); [|done]. by injection El as <-.
    + destruct (requireBearer _ _ _) as [r|] eqn:Eb; simpl; [|tauto]. exists r. split; [done|]. left.
      unfold requireBearer in Eb. repeat case_match; by simplify_eq.
Qed.

(** Witness: the CLI's requests pass, a browser's do not. *)
Lemma boundary_witness :
  let next := λ d : DB, (MkResponse 200 (BHealth "ready"), d, []) : Outcome in
  let cli := MkHeaders "127.0.0.1:7788" "" "Bearer secret" "/v1/workspaces/default/vpcs" in
  let web := MkHeaders "127.0.0.1:7788" "https://evil.example" "Bearer secret" "/v1/workspaces/default/vpcs" in
  boundary "secret" cli next initialDB = next initialDB ∧
  ∃ r, boundary "secret" web next initialDB = (r, initialDB, []) ∧ (code r = 401 ∨ code r = 403).
Proof.
  intros next cli web. split.
  - apply (boundary_admits_exactly "secret" cli next initialDB). split_and!; [|done|].
    + exists "127.0.0.1". split; [set_solver|]. right. apply SplitHostPort_names. vm_compute. reflexivity.
    + right. by split.
  - apply (boundary_admits_exactly "secret" web next initialDB). by intros (_ & H & _).
Defined.
