(* ===== verification/Paging.v ===== *)
(** Keyset pagination: the [WHERE id > ? ORDER BY id LIMIT ?] queries of
    [internal/store/queries.sql].  What is left of a table after an identifier is
    a strictly ordered list, of which a page is a prefix; continuing after the last
    row of a page leaves exactly the rest. *)

From S2P Require Import Prelude Errors GoStrings Schema.
Local Open Scope Z_scope.

Lemma string_gt_spec x y : string_gt x y = true ↔ ¬ String.le x y.
Proof. apply bool_decide_eq_true. Qed.

Lemma string_gt_trans x y z : string_gt x y = true → string_gt y z = true → string_gt x z = true.
Proof.
  rewrite !string_gt_spec. intros H1 H2 Hle. apply H1. etrans; [exact Hle|].
  by destruct (total String.le z y).
Qed.

Lemma string_gt_irrefl x : string_gt x x = false.
Proof. apply bool_decide_eq_false. intros H. by apply H. Qed.

Lemma string_gt_empty x : x ≠ "" → string_gt x "" = true.
Proof. rewrite string_gt_spec. intros Hne Hle. apply Hne. destruct x; [done|]. by vm_compute in Hle. Qed.

Lemma elem_of_filter {A} (f : A → bool) l x : x ∈ List.filter f l ↔ x ∈ l ∧ f x = true.
Proof. rewrite !list_elem_of_In. apply filter_In. Qed.

Lemma filter_none {A} (f : A → bool) l : (∀ x, x ∈ l → f x = false) → List.filter f l = [].
Proof.
  induction l as [|x l IH]; intros H; [done|]. simpl. rewrite (H x) by (by left). apply IH.
  intros y Hy. apply H. by right.
Qed.
Lemma filter_all {A} (f : A → bool) l : (∀ x, x ∈ l → f x = true) → List.filter f l = l.
Proof.
  induction l as [|x l IH]; intros H; [done|]. simpl. rewrite (H x) by (by left). f_equal. apply IH.
  intros y Hy. apply H. by right.
Qed.
Lemma filter_weaken {A} (f g : A → bool) l :
  (∀ x, f x = true → g x = true) → List.filter f (List.filter g l) = List.filter f l.
Proof.
  intros Hfg. induction l as [|x l IH]; [done|]. simpl. destruct (g x) eqn:Hg; simpl; rewrite IH; [done|].
  destruct (f x) eqn:Hf; [|done]. apply Hfg in Hf. congruence.
Qed.

#[export] Instance key_le_trans {R} : Transitive (@key_le R).
Proof. intros x y z. unfold key_le. apply transitivity. Qed.
#[export] Instance key_le_total {R} : Total (@key_le R).
Proof. intros x y. unfold key_le. apply (total String.le). Qed.

Section paging.
Context {R : Type} (key : R → string).
Implicit Types (t : gmap string R) (l : list R) (f : R → bool).

(** Rows are stored under their identifiers. *)
Definition keyed t : Prop := ∀ k r, t !! k = Some r → key r = k.

Definition ordered : list R → Prop := StronglySorted (λ a b, string_gt (key b) (key a) = true).

Lemma by_id_ordered t : keyed t → ordered (by_id t).
Proof.
  intros Hk. unfold by_id, ordered.
  assert (StronglySorted key_le (merge_sort key_le (map_to_list t))) as Hs
    by apply (StronglySorted_merge_sort key_le).
  assert (NoDup (merge_sort key_le (map_to_list t)).*1) as Hnd
    by (rewrite merge_sort_Permutation; apply NoDup_fst_map_to_list).
  assert (∀ p, p ∈ merge_sort key_le (map_to_list t) → key p.2 = p.1) as Hkey.
  { intros [k r] Hp. rewrite merge_sort_Permutation in Hp. by apply Hk, elem_of_map_to_list. }
  revert Hs Hnd Hkey. generalize (merge_sort key_le (map_to_list t)) as l.
  induction l as [|[k r] l IH]; intros Hs Hnd Hkey; simpl; [constructor|].
  apply StronglySorted_inv in Hs as [Hs Hall]. apply NoDup_cons in Hnd as [Hnotin Hnd].
  constructor; [apply IH; auto; intros; apply Hkey; by right|].
  rewrite Forall_fmap, Forall_forall in *. intros [k' r'] Hin. simpl.
  pose proof (Hkey (k, r) ltac:(by left)) as E1. pose proof (Hkey (k', r') ltac:(by right)) as E2.
  simpl in E1, E2. rewrite E1, E2, string_gt_spec. intros Hle.
  assert (k = k') as -> by (apply (anti_symm String.le); [apply (Hall (k', r') Hin)|done]).
  apply Hnotin. by apply (list_elem_of_fmap_2 fst _ (k', r')).
Qed.

Lemma ordered_filter f l : ordered l → ordered (List.filter f l).
Proof.
  induction 1 as [|x l Hs IH Hall]; simpl; [constructor|]. destruct (f x); [|done].
  constructor; [done|]. rewrite Forall_forall in *. intros y Hy. apply elem_of_filter in Hy as [Hy _]. auto.
Qed.

Lemma ordered_NoDup l : ordered l → NoDup (key <$> l).
Proof.
  induction 1 as [|r l Hs IH Hall]; [constructor|]. rewrite fmap_cons. constructor; [|done].
  intros (r' & E & Hr')%list_elem_of_fmap. rewrite Forall_forall in Hall. specialize (Hall r' Hr').
  by rewrite E, string_gt_irrefl in Hall.
Qed.

Lemma ordered_take n l : ordered l → ordered (take n l).
Proof. intros Hs. rewrite <- (take_drop n l) in Hs. by apply StronglySorted_app_1_l in Hs. Qed.

(** The last element of an ordered list is its greatest. *)
Lemma ordered_last l v r : ordered l → last l = Some v → r ∈ l → string_gt (key r) (key v) = false.
Proof.
  intros Hs (l' & ->)%last_Some Hr. apply not_true_iff_false. intros Hgt.
  apply elem_of_app in Hr as [Hr| ->%list_elem_of_singleton]; [|by rewrite string_gt_irrefl in Hgt].
  apply (StronglySorted_app_1_elem_of _ _ _ r v) in Hs; [|done|by left].
  pose proof (string_gt_trans _ _ _ Hs Hgt) as Hirr. by rewrite string_gt_irrefl in Hirr.
Qed.

(** Skipping up to an element of an ordered list leaves what follows it. *)
Lemma ordered_after l1 v l2 :
  ordered (l1 ++ v :: l2) → List.filter (λ r, string_gt (key r) (key v)) (l1 ++ v :: l2) = l2.
Proof.
  intros Hs. rewrite List.filter_app. simpl. rewrite string_gt_irrefl.
  rewrite (filter_none _ l1), (filter_all _ l2); [done| |].
  - apply StronglySorted_app_1_r, StronglySorted_inv in Hs as [_ Hall]. by rewrite Forall_forall in Hall.
  - intros x Hx. apply (StronglySorted_app_1_elem_of _ _ _ x v) in Hs; [|done|by left].
    apply not_true_iff_false. intros Hgt. pose proof (string_gt_trans _ _ _ Hs Hgt) as Hirr.
    by rewrite string_gt_irrefl in Hirr.
Qed.

(** The rows of interest after an identifier. *)
Definition rest f (after : string) t : list R :=
  List.filter (λ r, f r && string_gt (key r) after) (by_id t).

Lemma rest_ordered f after t : keyed t → ordered (rest f after t).
Proof. intros. by apply ordered_filter, by_id_ordered. Qed.

(** The next page starts where the last one ended. *)
Lemma rest_drop f after n t v :
  keyed t → last (take n (rest f after t)) = Some v → rest f (key v) t = drop n (rest f after t).
Proof.
  intros Hk Hlast. pose proof (rest_ordered f after t Hk) as Hord.
  apply last_Some in Hlast as [l' Hl].
  assert (rest f after t = l' ++ v :: drop n (rest f after t)) as Hsplit.
  { rewrite <- (take_drop n (rest f after t)) at 1. by rewrite Hl, <- app_assoc. }
  assert (f v && string_gt (key v) after = true) as Hv.
  { assert (v ∈ rest f after t) as Hin by (rewrite Hsplit; set_solver). by apply elem_of_filter in Hin as [_ ?]. }
  reflect_bools. transitivity (List.filter (λ r, string_gt (key r) (key v)) (rest f after t)).
  - unfold rest. rewrite <- (filter_weaken _ (λ r, f r && string_gt (key r) after)).
    + apply List.filter_ext_in. intros r Hr%list_elem_of_In%elem_of_filter.
      destruct Hr as [_ Hr]. reflect_bools. by match goal with H : f r = true |- _ => rewrite H end.
    + intros r Hr. reflect_bools. match goal with H : f r = true |- _ => rewrite H end. simpl.
      by eapply string_gt_trans.
  - rewrite Hsplit at 1. apply ordered_after. by rewrite <- Hsplit.
Qed.

Lemma limit_rows_take n l : 0 ≤ n → limit_rows n l = take (Z.to_nat n) l.
Proof. intros. unfold limit_rows. by rewrite (proj2 (Z.ltb_ge _ _)). Qed.

(** A row after the identifier is on the page or after its last row. *)
Lemma page_progress f after n t k r :
  keyed t → (0 < n)%nat → t !! k = Some r → f r = true → string_gt k after = true →
  r ∈ take n (rest f after t) ∨
  ∃ v, last (take n (rest f after t)) = Some v ∧ string_gt k (key v) = true.
Proof.
  intros Hk Hn Hr Hf Hgt.
  assert (r ∈ rest f after t) as Hin.
  { apply elem_of_filter. rewrite Hf, (Hk k r Hr), Hgt. split; [|done].
    unfold by_id. apply list_elem_of_fmap. exists (k, r). split; [done|].
    rewrite merge_sort_Permutation. by apply elem_of_map_to_list. }
  rewrite <- (take_drop n (rest f after t)) in Hin. apply elem_of_app in Hin as [|Hin]; [by left|right].
  destruct (last (take n (rest f after t))) as [v|] eqn:Hlast.
  - exists v. split; [done|]. erewrite <- rest_drop in Hin by done. apply elem_of_filter in Hin as [_ Hin].
    reflect_bools. by rewrite <- (Hk k r Hr).
  - exfalso. apply last_None in Hlast. destruct n; [lia|].
    destruct (rest f after t); [by apply not_elem_of_nil in Hin|done].
Qed.
End paging.
