(* ===== verification/EventStream.v ===== *)
(** The event stream: [GetEvents] of [internal/apiserver/events.go].

    The stream polls the durable log; what happens around it is a list of polls,
    each with the database it sees, the faults of the database, which write to the
    connection fails, and whether the client is gone when the stream waits. *)

From S2P Require Import Prelude Errors GoStrings Utf8 NetIP Validate Ipam Mac Model Json Snapshot.
From S2P Require Import Schema Tx Transitions Store Idempotency Refine RecordRefine.
From S2P Require Import NetworkService InstanceService ServiceRefine System Api.
Local Open Scope Z_scope.

(** [eventResponse] and the JSON of its fields. *)
Definition eventResponse (event : Event) : json :=
  JObj [(bytes "id", enc_int64 (Event_ID event));
        (bytes "workspace_id", enc_string (Event_WorkspaceID event));
        (bytes "resource_type", enc_string (Event_ResourceType event));
        (bytes "resource_id", enc_string (Event_ResourceID event));
        (bytes "action", enc_string (Event_Action event));
        (bytes "state", enc_string (Event_State event));
        (bytes "generation", enc_int64 (Event_Generation event));
        (bytes "message", enc_string (Event_Message event));
        (bytes "created_at", enc_int64 (Event_CreatedAt event))].

(** One server-sent event: the id line, the data line and a blank line. *)
Definition frame (event : Event) : list Z :=
  bytes "id: " ++ bytes (FormatInt (Event_ID event)) ++ [10] ++
  bytes "data: " ++ encode (eventResponse event) ++ [10; 10].

(** The loop over a batch; [failing] is the number of writes until one fails.
    Returns the new cursor, what was sent, and whether every write succeeded. *)
Fixpoint send (failing : option nat) (cursor : Z) (events : list Event) : Z * list Z * bool :=
  match events with
  | [] => (cursor, [], true)
  | event :: events' =>
      match failing with
      | Some O => (cursor, [], false)
      | _ =>
          let '(cursor', out, ok) := send (pred <$> failing) (Event_ID event) events' in
          (cursor', frame event ++ out, ok)
      end
  end.

Record Poll := MkPoll { p_db : DB; p_fault : fault; p_write : option nat; p_gone : bool }.

(** The polling loop. *)
Fixpoint stream (polls : list Poll) (cursor : Z) : Z * list Z :=
  match polls with
  | [] => (cursor, [])
  | p :: polls' =>
      match store_EventsAfter (p_fault p) cursor 100 (p_db p) with
      | Err _ => (cursor, [])
      | Ok events =>
          let '(cursor', out, ok) := send (p_write p) cursor events in
          if negb ok then (cursor', out)
          else if negb (length events =? 0)%nat || negb (p_gone p) then
            let '(cursor'', out') := stream polls' cursor' in (cursor'', out ++ out')
          else (cursor', out)
      end
  end.

(** [GetEvents]: an error response, or the cursor the stream starts at. *)
Definition GetEvents (s : server) (lastEventID : option string) (flushes : bool) : Response + Z :=
  if negb (srv_events s) then inl (writeAPIError 503 "ServiceUnavailable" "event store is not ready" "")
  else
    let bad := writeAPIError 400 "InvalidParameterValue" "Last-Event-ID must be a nonnegative integer" "" in
    let start :=
      match lastEventID with
      | None => inr 0
      | Some raw => match ParseInt raw with
                    | Some n => if n <? 0 then inl bad else inr n
                    | None => inl bad
                    end
      end in
    match start with
    | inl r => inl r
    | inr cursor =>
        if negb flushes then inl (writeAPIError 500 "InternalError" "event stream cannot flush" "")
        else inr cursor
    end.

(** ** What is sent *)
Definition frames (rows : list EventRow) : list Z := concat (frame <$> (eventFromRow <$> rows)).

Lemma frames_app l k : frames (l ++ k) = frames l ++ frames k.
Proof. unfold frames. by rewrite !fmap_app, concat_app. Qed.

(** Rows with consecutive numbers. *)
Definition numbered (k : Z) (l : list EventRow) : Prop := ev_ID <$> l = seqZ k (Z.of_nat (length l)).

Lemma numbered_cons k r l : numbered k (r :: l) ↔ ev_ID r = k ∧ numbered (k + 1) l.
Proof.
  unfold numbered. rewrite length_cons, seqZ_cons, fmap_cons by lia.
  replace (Z.pred (Z.of_nat (S (length l)))) with (Z.of_nat (length l)) by lia. rewrite Z.add_1_r.
  split; [by intros [= -> ->]|by intros [-> ->]].
Qed.
Lemma numbered_take k n l : numbered k l → numbered k (take n l).
Proof.
  revert k n. induction l as [|r l IH]; intros k n Hl; [by rewrite take_nil|]. destruct n as [|n]; [done|].
  simpl. rewrite numbered_cons in *. naive_solver.
Qed.
Lemma numbered_drop k n l : numbered k l → numbered (k + Z.of_nat n) (drop n l).
Proof.
  revert k n. induction l as [|r l IH]; intros k n Hl; [by rewrite drop_nil|].
  destruct n as [|n]; [by rewrite Z.add_0_r|]. rewrite numbered_cons in Hl. destruct Hl as [_ Hl].
  replace (k + Z.of_nat (S n)) with (k + 1 + Z.of_nat n) by lia. by apply IH.
Qed.
Lemma numbered_app k l l' : numbered k l → numbered (k + Z.of_nat (length l)) l' → numbered k (l ++ l').
Proof.
  revert k. induction l as [|r l IH]; intros k Hl Hl'; [by rewrite Z.add_0_r in Hl'|].
  simpl. rewrite numbered_cons in *. destruct Hl as [Hr Hl]. split; [done|]. apply IH; [done|].
  rewrite length_cons in Hl'. by replace (k + 1 + Z.of_nat (length l)) with (k + Z.of_nat (S (length l))) by lia.
Qed.

Lemma Inv_numbered d : Inv d → numbered 1 (events d) ∧ Z.of_nat (length (events d)) = event_seq d.
Proof.
  intros I. pose proof (inv_events d I) as He. pose proof (inv_eseq d I) as Hs.
  assert (Z.of_nat (length (events d)) = event_seq d) as Hl.
  { apply (f_equal length) in He. rewrite length_fmap, length_seqZ in He. lia. }
  split; [|done]. unfold numbered. by rewrite He, Hl.
Qed.

(** The rows after an identifier. *)
Lemma rows_after c k l : numbered k l → List.filter (λ r, c <? ev_ID r) l = drop (Z.to_nat (c + 1 - k)) l.
Proof.
  revert k. induction l as [|r l IH]; intros k Hl; [by rewrite drop_nil|].
  apply numbered_cons in Hl as [Hr Hl]. specialize (IH _ Hl). simpl. rewrite Hr, IH.
  destruct (c <? k) eqn:E; reflect_bools.
  - replace (Z.to_nat (c + 1 - k)) with 0%nat by lia. by replace (Z.to_nat (c + 1 - (k + 1))) with 0%nat by lia.
  - replace (Z.to_nat (c + 1 - k)) with (S (Z.to_nat (c + 1 - (k + 1)))) by lia. done.
Qed.

(** A poll after [c]. *)
Definition batch (c : Z) (d : DB) : list EventRow := take 100 (drop (Z.to_nat c) (events d)).

Lemma batch_numbered c d : Inv d → 0 ≤ c → numbered (c + 1) (batch c d).
Proof.
  intros I Hc. destruct (Inv_numbered d I) as [Hn _]. unfold batch. apply numbered_take.
  replace (c + 1) with (1 + Z.of_nat (Z.to_nat c)) by lia. by apply numbered_drop.
Qed.

Lemma EventsAfter_Ok flt c d evs :
  Inv d → 0 ≤ c → store_EventsAfter flt c 100 d = Ok evs → evs = eventFromRow <$> batch c d.
Proof.
  intros I Hc H. unfold store_EventsAfter in H. rewrite (proj2 (Z.ltb_ge c 0)) in H by lia. simpl in H. inv_ok.
  match goal with H : (autocommit _ _ _).1 = _ |- _ => rename H into Ha end.
  destruct (autocommit _ _ d) as [r d'] eqn:E. simpl in Ha. subst r.
  apply autocommit_Ok in E as (s & s' & <- & [Hq _]%read_Ok & _). unfold q_EventsAfter in Hq. injection Hq as <-.
  subst evs. destruct (Inv_numbered _ I) as [Hn _]. rewrite (rows_after c 1) by done.
  by replace (c + 1 - 1) with c by lia.
Qed.

(** A batch of consecutive rows. *)
Lemma send_spec failing c rows c' out ok :
  numbered (c + 1) rows → send failing c (eventFromRow <$> rows) = (c', out, ok) →
  ∃ n, (n ≤ length rows)%nat ∧ c' = c + Z.of_nat n ∧ out = frames (take n rows) ∧ (ok = true → n = length rows).
Proof.
  revert failing c c' out ok. induction rows as [|r rows IH]; intros failing c c' out ok Hn H.
  - injection H as <- <- <-. exists 0%nat. split_and!; [simpl; lia|lia|done|done].
  - apply numbered_cons in Hn as [Hr Hn]. rewrite fmap_cons in H. cbn [send] in H.
    assert (failing = Some 0%nat ∨ (let '(cursor', out, ok) :=
      send (pred <$> failing) (ev_ID r) (eventFromRow <$> rows) in
      (cursor', frame (eventFromRow r) ++ out, ok)) = (c', out, ok)) as [->|H'].
    { destruct failing as [[|n]|]; auto. }
    + injection H as <- <- <-. exists 0%nat. split_and!; [lia|lia|done|done].
    + clear H. destruct (send _ (ev_ID r) _) as [[c1 out1] ok1] eqn:E.
      rewrite !pair_eq in H'. destruct H' as [[-> <-] ->].
      apply IH in E as (n & Hle & -> & -> & Hok); [|by rewrite Hr].
      exists (S n). split_and!; [simpl; lia|rewrite Hr; lia|done|]. intros Ht. simpl. by rewrite (Hok Ht).
Qed.

(** The polls see the database grow. *)
Fixpoint history (d : DB) (polls : list Poll) (d' : DB) : Prop :=
  match polls with
  | [] => steps d d'
  | p :: polls' => steps d (p_db p) ∧ history (p_db p) polls' d'
  end.

Lemma history_prefix d polls d' : Inv d → history d polls d' → events d `prefix_of` events d' ∧ Inv d'.
Proof.
  revert d. induction polls as [|p polls IH]; intros d I H; simpl in H.
  - split; [by eapply steps_history|by eapply steps_Inv].
  - destruct H as [Hs H]. apply IH in H as [Hp I']; [|by eapply steps_Inv]. split; [|done].
    etrans; [by eapply steps_history|done].
Qed.

Lemma drop_prefix {A} n (l k : list A) : l `prefix_of` k → drop n l `prefix_of` drop n k.
Proof. intros [t ->]. rewrite drop_app. by eexists. Qed.

(** Two consecutive pieces of a list. *)
Lemma prefix_drop_app {A} n (l k w : list A) :
  l `prefix_of` drop n w → k `prefix_of` drop (n + length l) w → l ++ k `prefix_of` drop n w.
Proof.
  intros [t Ht] [u Hu]. rewrite <-drop_drop, Ht, drop_app_length in Hu. subst t.
  rewrite Ht, app_assoc. by eexists.
Qed.

Lemma stream_gapless polls d d' c :
  Inv d → history d polls d' → 0 ≤ c →
  ∃ rows, rows `prefix_of` drop (Z.to_nat c) (events d') ∧
    stream polls c = (c + Z.of_nat (length rows), frames rows).
Proof.
  revert d c. induction polls as [|p polls IH]; intros d c I H Hc; cbn [stream].
  { exists []. split; [apply prefix_nil|]. by rewrite Z.add_0_r. }
  destruct H as [Hs H]. assert (Inv (p_db p)) as Ip by (by eapply steps_Inv).
  destruct (history_prefix _ _ _ Ip H) as [Ht _].
  destruct (store_EventsAfter _ _ _ _) as [evs|e] eqn:E.
  2: { exists []. split; [apply prefix_nil|]. by rewrite Z.add_0_r. }
  apply EventsAfter_Ok in E as ->; [|done..]. pose proof (batch_numbered c _ Ip Hc) as Hb.
  destruct (send _ _ _) as [[c1 out] ok] eqn:Es. apply send_spec in Es as (n & Hle & -> & -> & Hok); [|done].
  set (sent := take n (batch c (p_db p))).
  assert (length sent = n) as Hlen by (unfold sent; rewrite length_take; lia).
  assert (sent `prefix_of` drop (Z.to_nat c) (events d')) as Hin.
  { etrans; [|by apply drop_prefix]. etrans; [apply prefix_take|apply prefix_take]. }
  destruct (negb ok); [exists sent; by rewrite Hlen|].
  destruct (_ || _); [|exists sent; by rewrite Hlen].
  destruct (IH (p_db p) (c + Z.of_nat n) Ip H ltac:(lia)) as (rows & Hin' & ->).
  exists (sent ++ rows). split.
  - apply prefix_drop_app; [done|]. rewrite Hlen. by replace (Z.to_nat c + n)%nat with (Z.to_nat (c + Z.of_nat n)) by lia.
  - rewrite length_app, frames_app, Hlen. f_equal. lia.
Qed.

Lemma GetEvents_cursor s last fl c : GetEvents s last fl = inr c → 0 ≤ c.
Proof. unfold GetEvents. intros. repeat case_match; simplify_eq; reflect_bools; lia. Qed.

(** A reconnection names the event it saw last. *)
Lemma GetEvents_resume s last fl c n :
  GetEvents s last fl = inr c → 0 ≤ n < 2 ^ 63 → GetEvents s (Some (FormatInt n)) fl = inr n.
Proof.
  unfold GetEvents. intros H Hn. rewrite ParseInt_FormatInt by lia. rewrite (proj2 (Z.ltb_ge n 0)) by lia.
  repeat case_match; by simplify_eq.
Qed.

(** ** An undisturbed stream *)
Definition quiet (d : DB) : Poll := MkPoll d None None false.

Lemma EventsAfter_quiet c d : Inv d → 0 ≤ c → store_EventsAfter None c 100 d = Ok (eventFromRow <$> batch c d).
Proof.
  intros I Hc. unfold store_EventsAfter. rewrite (proj2 (Z.ltb_ge c 0)) by lia. simpl.
  destruct (Inv_numbered _ I) as [Hn _]. rewrite (rows_after c 1) by done. by replace (c + 1 - 1) with c by lia.
Qed.

Lemma send_all c rows :
  numbered (c + 1) rows → send None c (eventFromRow <$> rows) = (c + Z.of_nat (length rows), frames rows, true).
Proof.
  revert c. induction rows as [|r rows IH]; intros c Hn; [by rewrite Z.add_0_r|].
  apply numbered_cons in Hn as [Hr Hn]. rewrite fmap_cons. cbn [send fmap option_fmap option_map].
  change (Event_ID (eventFromRow r)) with (ev_ID r). rewrite Hr, (IH _ Hn). simpl length.
  f_equal. f_equal. lia.
Qed.

Lemma stream_quiet n c d :
  Inv d → 0 ≤ c → event_seq d - c ≤ 100 * Z.of_nat n →
  stream (replicate n (quiet d)) c = (Z.max c (event_seq d), frames (drop (Z.to_nat c) (events d))).
Proof.
  intros I. destruct (Inv_numbered _ I) as [_ Hlen]. revert c.
  induction n as [|n IH]; intros c Hc Hn.
  { rewrite drop_ge by lia. cbn. f_equal. lia. }
  cbn [replicate stream]. cbn [quiet p_db p_fault p_write p_gone]. rewrite (EventsAfter_quiet c d I Hc).
  rewrite (send_all _ _ (batch_numbered c d I Hc)). cbn [negb]. rewrite orb_true_r.
  assert (length (batch c d) = Nat.min 100 (length (events d) - Z.to_nat c)) as Hb
    by (unfold batch; by rewrite length_take, length_drop).
  rewrite IH by lia. rewrite Hb.
  destruct (decide (length (events d) - Z.to_nat c ≤ 100)%nat) as [Hs|Hs].
  - rewrite Nat.min_r by lia. unfold batch. rewrite take_ge by (rewrite length_drop; lia).
    rewrite (drop_ge (events d) (Z.to_nat (c + _))) by lia. rewrite (app_nil_r (frames _)). f_equal. lia.
  - rewrite Nat.min_l by lia. rewrite <-frames_app. f_equal; [lia|]. f_equal. unfold batch.
    replace (Z.to_nat (c + Z.of_nat 100)) with (Z.to_nat c + 100)%nat by lia.
    by rewrite <-drop_drop, take_drop.
Qed.

(** C12: What a client receives on a connection, whatever the store, the connection
    and the other transactions do meanwhile, is a piece of the durable event log
    that starts right after its Last-Event-ID: every event once, in order and
    without a gap; and when it reconnects with the last identifier it saw, the two
    connections together are again such a piece. *)
Theorem event_stream_is_gapless s last fl c polls polls' d d' d'' :
  Inv d → history d polls d' → history d' polls' d'' →
  GetEvents s last fl = inr c → (stream polls c).1 < 2 ^ 63 →
  ∃ rows rows',
    stream polls c = (c + Z.of_nat (length rows), frames rows) ∧
    GetEvents s (Some (FormatInt (stream polls c).1)) fl = inr (stream polls c).1 ∧
    (stream polls' (stream polls c).1).2 = frames rows' ∧
    rows ++ rows' `prefix_of` drop (Z.to_nat c) (events d'') ∧
    ev_ID <$> rows ++ rows' = seqZ (c + 1) (Z.of_nat (length (rows ++ rows'))).
Proof.
  intros I H H' Hc Hmax. pose proof (GetEvents_cursor _ _ _ _ Hc) as H0.
  destruct (stream_gapless _ _ _ _ I H H0) as (rows & Hp & E). rewrite E in *. simpl in *.
  destruct (history_prefix _ _ _ I H) as [_ I']. destruct (history_prefix _ _ _ I' H') as [Hpre I''].
  destruct (stream_gapless _ _ _ (c + Z.of_nat (length rows)) I' H' ltac:(lia)) as (rows' & Hp' & E').
  exists rows, rows'. assert (rows ++ rows' `prefix_of` drop (Z.to_nat c) (events d'')) as Hall.
  { apply prefix_drop_app; [etrans; [done|by apply drop_prefix]|].
    by replace (Z.to_nat c + length rows)%nat with (Z.to_nat (c + Z.of_nat (length rows))) by lia. }
  split_and!; [done|by apply (GetEvents_resume s last fl c); [|lia]|by rewrite E'|done|].
  destruct (Inv_numbered _ I'') as [Hn _]. apply (numbered_drop 1 (Z.to_nat c)) in Hn.
  destruct Hall as [t Ht]. rewrite Ht in Hn. apply (numbered_take _ (length (rows ++ rows'))) in Hn.
  rewrite take_app_length in Hn. unfold numbered in Hn. rewrite Hn. f_equal. lia.
Qed.

(** Witness: two connections to the log of five creations, the first one cut after
    two events. *)
Lemma event_stream_witness :
  let s := MkServer true true true true "dev" "none" in
  let p := MkPoll demo_db None (Some 2%nat) false in
  (stream [p] 1).1 = 3 ∧
  ∃ rows rows',
    stream [p] 1 = (1 + Z.of_nat (length rows), frames rows) ∧
    GetEvents s (Some (FormatInt (stream [p] 1).1)) true = inr (stream [p] 1).1 ∧
    (stream [quiet demo_db] (stream [p] 1).1).2 = frames rows' ∧
    rows ++ rows' `prefix_of` drop (Z.to_nat 1) (events demo_db) ∧
    ev_ID <$> rows ++ rows' = seqZ (1 + 1) (Z.of_nat (length (rows ++ rows'))).
Proof.
  intros s p. split; [vm_compute; reflexivity|].
  apply (event_stream_is_gapless s (Some "1") true 1 [p] [quiet demo_db] demo_db demo_db demo_db).
  - apply execute_all_steps, initial_Inv.
  - split; apply rtc_refl.
  - split; apply rtc_refl.
  - vm_compute. reflexivity.
  - apply Z.ltb_lt. vm_compute. reflexivity.
Defined.

(** C13: A connection that nothing disturbs delivers the whole log after its cursor
    within one poll per hundred missing events. *)
Theorem event_stream_catches_up c d n :
  Inv d → 0 ≤ c ≤ event_seq d → event_seq d - c ≤ 100 * Z.of_nat n →
  stream (replicate n (quiet d)) c = (event_seq d, frames (drop (Z.to_nat c) (events d))).
Proof. intros I Hc Hn. rewrite stream_quiet by (done || lia). f_equal. lia. Qed.

(** Witness: the log of the demonstration, in one poll. *)
Lemma event_stream_catches_up_witness :
  stream (replicate 1 (quiet demo_db)) 2 = (event_seq demo_db, frames (drop (Z.to_nat 2) (events demo_db))).
Proof.
  apply event_stream_catches_up; [apply execute_all_steps, initial_Inv| |].
  - split; apply Z.leb_le; vm_compute; reflexivity.
  - apply Z.leb_le. vm_compute. reflexivity.
Defined.
