(* ===== verification/Client.v ===== *)
(** The API client: the generated [pkg/client] reads responses, and the request
    helpers of [cmd/nephos/network_client.go].

    A response arrives as its status, its Content-Type and its body; a
    [Parse...Response] function decodes the body into the type its status calls
    for. *)

From S2P Require Import Prelude Errors GoStrings Encodings Utf8 NetIP Validate Model Json Snapshot.
From S2P Require Import Schema Tx Store Idempotency NetworkService InstanceService Api.
Local Open Scope Z_scope.

(** ** Decoding of bodies *)
Definition dec_pointer (v : json) (x : option string) : result (option string) :=
  match v with
  | JNull => Ok None
  | _ => s ← dec_string v (default "" x); Ok (Some s)
  end.

(** The elements of an array are decoded into those of the target slice. *)
Fixpoint dec_elems {A} (dec : json → A → result A) (zero : A) (vs : list json) (xs : list A) : result (list A) :=
  match vs with
  | [] => Ok []
  | v :: vs' =>
      a ← dec v (default zero (head xs));
      rest ← dec_elems dec zero vs' (tail xs);
      Ok (a :: rest)
  end.
Definition dec_slice {A} (dec : json → A → result A) (zero : A) (v : json) (xs : list A) : result (list A) :=
  match v with
  | JNull => Ok []
  | JArr vs => dec_elems dec zero vs xs
  | _ => Err typeError
  end.

Definition zero_ErrorBody : ErrorBody := MkErrorBody "" "" None.
Definition field_ErrorBody (key : list Z) : option (json → ErrorBody → result ErrorBody) :=
  if is_field "code" key then Some (λ v x,
    s ← dec_string v (eb_Code x); Ok (MkErrorBody s (eb_Message x) (eb_ResourceId x)))
  else if is_field "docs_url" key then Some (λ v x, _ ← dec_pointer v None; Ok x)
  else if is_field "message" key then Some (λ v x,
    s ← dec_string v (eb_Message x); Ok (MkErrorBody (eb_Code x) s (eb_ResourceId x)))
  else if is_field "resource_id" key then Some (λ v x,
    s ← dec_pointer v (eb_ResourceId x); Ok (MkErrorBody (eb_Code x) (eb_Message x) s))
  else None.
Definition dec_ErrorBody : json → ErrorBody → result ErrorBody := dec_struct field_ErrorBody.

Definition zero_VpcBody : VpcBody := MkVpcBody "" 0 "" "" 0 "" "".
Definition field_VpcBody (key : list Z) : option (json → VpcBody → result VpcBody) :=
  if is_field "cidr_block" key then Some (λ v '(MkVpcBody a b c d e f g),
    s ← dec_string v a; Ok (MkVpcBody s b c d e f g))
  else if is_field "generation" key then Some (λ v '(MkVpcBody a b c d e f g),
    n ← dec_int64 v b; Ok (MkVpcBody a n c d e f g))
  else if is_field "id" key then Some (λ v '(MkVpcBody a b c d e f g),
    s ← dec_string v c; Ok (MkVpcBody a b s d e f g))
  else if is_field "name" key then Some (λ v '(MkVpcBody a b c d e f g),
    s ← dec_string v d; Ok (MkVpcBody a b c s e f g))
  else if is_field "observed_generation" key then Some (λ v '(MkVpcBody a b c d e f g),
    n ← dec_int64 v e; Ok (MkVpcBody a b c d n f g))
  else if is_field "state" key then Some (λ v '(MkVpcBody a b c d e f g),
    s ← dec_string v f; Ok (MkVpcBody a b c d e s g))
  else if is_field "state_reason" key then Some (λ v '(MkVpcBody a b c d e f g),
    s ← dec_string v g; Ok (MkVpcBody a b c d e f s))
  else None.
Definition dec_VpcBody : json → VpcBody → result VpcBody := dec_struct field_VpcBody.

Definition zero_SubnetBody : SubnetBody := MkSubnetBody "" "" 0 "" "" 0 "" "" "".
Definition field_SubnetBody (key : list Z) : option (json → SubnetBody → result SubnetBody) :=
  if is_field "availability_zone" key then Some (λ v '(MkSubnetBody a b c d e f g h i),
    s ← dec_string v a; Ok (MkSubnetBody s b c d e f g h i))
  else if is_field "cidr_block" key then Some (λ v '(MkSubnetBody a b c d e f g h i),
    s ← dec_string v b; Ok (MkSubnetBody a s c d e f g h i))
  else if is_field "generation" key then Some (λ v '(MkSubnetBody a b c d e f g h i),
    n ← dec_int64 v c; Ok (MkSubnetBody a b n d e f g h i))
  else if is_field "id" key then Some (λ v '(MkSubnetBody a b c d e f g h i),
    s ← dec_string v d; Ok (MkSubnetBody a b c s e f g h i))
  else if is_field "name" key then Some (λ v '(MkSubnetBody a b c d e f g h i),
    s ← dec_string v e; Ok (MkSubnetBody a b c d s f g h i))
  else if is_field "observed_generation" key then Some (λ v '(MkSubnetBody a b c d e f g h i),
    n ← dec_int64 v f; Ok (MkSubnetBody a b c d e n g h i))
  else if is_field "state" key then Some (λ v '(MkSubnetBody a b c d e f g h i),
    s ← dec_string v g; Ok (MkSubnetBody a b c d e f s h i))
  else if is_field "state_reason" key then Some (λ v '(MkSubnetBody a b c d e f g h i),
    s ← dec_string v h; Ok (MkSubnetBody a b c d e f g s i))
  else if is_field "vpc_id" key then Some (λ v '(MkSubnetBody a b c d e f g h i),
    s ← dec_string v i; Ok (MkSubnetBody a b c d e f g h s))
  else None.
Definition dec_SubnetBody : json → SubnetBody → result SubnetBody := dec_struct field_SubnetBody.

Definition zero_InstanceBody : InstanceBody := MkInstanceBody "" 0 "" "" "" 0 "" "" "" "".
Definition field_InstanceBody (key : list Z) : option (json → InstanceBody → result InstanceBody) :=
  if is_field "eni_id" key then Some (λ v '(MkInstanceBody a b c d e f g h i j),
    s ← dec_string v a; Ok (MkInstanceBody s b c d e f g h i j))
  else if is_field "generation" key then Some (λ v '(MkInstanceBody a b c d e f g h i j),
    n ← dec_int64 v b; Ok (MkInstanceBody a n c d e f g h i j))
  else if is_field "id" key then Some (λ v '(MkInstanceBody a b c d e f g h i j),
    s ← dec_string v c; Ok (MkInstanceBody a b s d e f g h i j))
  else if is_field "instance_type" key then Some (λ v '(MkInstanceBody a b c d e f g h i j),
    s ← dec_string v d; Ok (MkInstanceBody a b c s e f g h i j))
  else if is_field "name" key then Some (λ v '(MkInstanceBody a b c d e f g h i j),
    s ← dec_string v e; Ok (MkInstanceBody a b c d s f g h i j))
  else if is_field "observed_generation" key then Some (λ v '(MkInstanceBody a b c d e f g h i j),
    n ← dec_int64 v f; Ok (MkInstanceBody a b c d e n g h i j))
  else if is_field "private_ip" key then Some (λ v '(MkInstanceBody a b c d e f g h i j),
    s ← dec_string v g; Ok (MkInstanceBody a b c d e f s h i j))
  else if is_field "state" key then Some (λ v '(MkInstanceBody a b c d e f g h i j),
    s ← dec_string v h; Ok (MkInstanceBody a b c d e f g s i j))
  else if is_field "state_reason" key then Some (λ v '(MkInstanceBody a b c d e f g h i j),
    s ← dec_string v i; Ok (MkInstanceBody a b c d e f g h s j))
  else if is_field "subnet_id" key then Some (λ v '(MkInstanceBody a b c d e f g h i j),
    s ← dec_string v j; Ok (MkInstanceBody a b c d e f g h i s))
  else None.
Definition dec_InstanceBody : json → InstanceBody → result InstanceBody := dec_struct field_InstanceBody.

Definition zero_Page {A} : Page A := MkPage [] None.
Definition field_Page {A} (dec : json → A → result A) (zero : A) (key : list Z)
    : option (json → Page A → result (Page A)) :=
  if is_field "items" key then Some (λ v x,
    l ← dec_slice dec zero v (Items x); Ok (MkPage l (NextPageToken x)))
  else if is_field "next_page_token" key then Some (λ v x,
    t ← dec_pointer v (NextPageToken x); Ok (MkPage (Items x) t))
  else None.
Definition dec_Page {A} (dec : json → A → result A) (zero : A) : json → Page A → result (Page A) :=
  dec_struct (field_Page dec zero).

(** ** Responses *)
Record HTTPResponse := MkHTTPResponse { rsp_StatusCode : Z; rsp_ContentType : string; rsp_Body : list Z }.

(** What [writeJSON] puts on the wire. *)
Definition wire (r : Response) : HTTPResponse := MkHTTPResponse (code r) "application/json" (writeJSON r).

(** A parsed response: [cr_JSON] is the field of the success status (JSON200,
    JSON201 or JSON202), [cr_Error] that of the error statuses. *)
Record ClientResponse (A : Type) := MkClientResponse {
  cr_Body : list Z; cr_StatusCode : Z; cr_JSON : option A; cr_Error : option ErrorBody
}.
Arguments MkClientResponse {A} _ _ _ _.
Arguments cr_Body {A} _.
Arguments cr_StatusCode {A} _.
Arguments cr_JSON {A} _.
Arguments cr_Error {A} _.

Fixpoint strings_Contains (s sub : string) : bool :=
  HasPrefix s sub || match s with EmptyString => false | String _ s' => strings_Contains s' sub end.

Definition unmarshal_body {T} (dec : json → T → result T) (zero : T) (data : list Z) : result T :=
  v ← of_option syntaxError (parse data); dec v zero.

Definition parseResponse {A} (success : Z) (dec : json → A → result A) (zero : A) (rsp : HTTPResponse)
    : result (ClientResponse A) :=
  let isJSON := strings_Contains (rsp_ContentType rsp) "json" in
  let status := rsp_StatusCode rsp in
  if isJSON && (status =? success) then
    dest ← unmarshal_body dec zero (rsp_Body rsp);
    Ok (MkClientResponse (rsp_Body rsp) status (Some dest) None)
  else if isJSON && ((status =? 400) || (status =? 401) || (status =? 404) || (status =? 409)) then
    dest ← unmarshal_body dec_ErrorBody zero_ErrorBody (rsp_Body rsp);
    Ok (MkClientResponse (rsp_Body rsp) status None (Some dest))
  else Ok (MkClientResponse (rsp_Body rsp) status None None).

Definition ParseListInstancesResponse := parseResponse 200 (dec_Page dec_InstanceBody zero_InstanceBody) zero_Page.
Definition ParseRunInstanceResponse := parseResponse 201 dec_InstanceBody zero_InstanceBody.
Definition ParseTerminateInstanceResponse := parseResponse 202 dec_InstanceBody zero_InstanceBody.
Definition ParseGetInstanceResponse := parseResponse 200 dec_InstanceBody zero_InstanceBody.
Definition ParseListSubnetsResponse := parseResponse 200 (dec_Page dec_SubnetBody zero_SubnetBody) zero_Page.
Definition ParseCreateSubnetResponse := parseResponse 201 dec_SubnetBody zero_SubnetBody.
Definition ParseDeleteSubnetResponse := parseResponse 202 dec_SubnetBody zero_SubnetBody.
Definition ParseGetSubnetResponse := parseResponse 200 dec_SubnetBody zero_SubnetBody.
Definition ParseListVpcsResponse := parseResponse 200 (dec_Page dec_VpcBody zero_VpcBody) zero_Page.
Definition ParseCreateVpcResponse := parseResponse 201 dec_VpcBody zero_VpcBody.
Definition ParseDeleteVpcResponse := parseResponse 202 dec_VpcBody zero_VpcBody.
Definition ParseGetVpcResponse := parseResponse 200 dec_VpcBody zero_VpcBody.

(** ** Requests with a body: [json.Marshal] of the request types *)
Definition jsonRequest (v : json) : Request := MkRequest (Some "application/json") (encode v).
Definition CreateVpcRequest (name cidr : string) : Request :=
  jsonRequest (JObj [(bytes "cidr_block", enc_string cidr); (bytes "name", enc_string name)]).
Definition CreateSubnetRequest (name vpcID cidr zone : string) : Request :=
  jsonRequest (JObj [(bytes "availability_zone", enc_string zone); (bytes "cidr_block", enc_string cidr);
                     (bytes "name", enc_string name); (bytes "vpc_id", enc_string vpcID)]).
Definition RunInstanceRequest (name subnetID : string) : Request :=
  jsonRequest (JObj [(bytes "name", enc_string name); (bytes "subnet_id", enc_string subnetID)]).

(** ** Helpers of the CLI *)
Definition responseError {A} (operation : string) (r : ClientResponse A) : error :=
  match unmarshal_body dec_ErrorBody zero_ErrorBody (cr_Body r) with
  | Ok body =>
      if eb_Code body !=? "" then Errorf (Sprintf "%s: %s: %s" [operation; eb_Code body; eb_Message body])
      else Errorf (Sprintf "%s: HTTP %d" [operation; FormatInt (cr_StatusCode r)])
  | Err _ => Errorf (Sprintf "%s: HTTP %d" [operation; FormatInt (cr_StatusCode r)])
  end.

(** [random] is what [rand.Read] returns. *)
Definition newIdempotencyKey (random : result (list Z)) : result string :=
  bs ← wrap_err (Sprintf "generate request idempotency key: %w" []) random;
  Ok (b64_EncodeToString bs).

Definition looksLikeID (value prefix : string) : bool :=
  if negb (HasPrefix value prefix) || negb (slen value =? slen prefix + 17) then false
  else forallb (λ digit, negb (((digit <? 48) || (57 <? digit)) && ((digit <? 97) || (102 <? digit))))
         (range_runes (of_bytes (drop (String.length prefix) (bytes value)))).
