(* ===== verification/Requests.v ===== *)
(** How the command-line client makes its HTTP requests: the endpoint and the
    credential of [cmd/nephos/network_client.go], and the request builders of the
    generated client [pkg/client/client.gen.go].

    The [runtime] package of oapi-codegen, which styles parameters on the client
    and binds them on the server, is a library: the class [Runtime] names its
    functions and [RuntimeLaws] what its documentation says of them. *)

From S2P Require Import Prelude Errors GoStrings Encodings NetIP Url Validate Model Json Snapshot.
From S2P Require Import Schema Tx Store Idempotency NetworkService InstanceService Api Client.
Local Open Scope Z_scope.

(** ** The oapi-codegen runtime *)
Inductive location := ParamLocationPath | ParamLocationQuery | ParamLocationHeader.
Inductive parameter := PString (s : string) | PInt (n : Z).

Class Runtime := {
  (** style, explode, name, value, location *)
  StyleParamWithOptions : string → bool → string → parameter → location → result (list Z);
  (** style, name, value, location, required, whether the value is unescaped *)
  BindStyledParameterWithOptions : string → string → list Z → location → bool → bool → result string;
  (** name and query, for an optional string and an optional integer *)
  BindQueryString : string → list (list Z * list Z) → result (option string);
  BindQueryInt : string → list (list Z * list Z) → result (option Z)
}.

Class RuntimeLaws (rt : Runtime) : Prop := {
  (** A path parameter is escaped, a header parameter is sent as it is, a query
      parameter is sent as its name and its escaped value. *)
  style_path : ∀ name s,
    StyleParamWithOptions "simple" false name (PString s) ParamLocationPath = Ok (PathEscape (bytes s));
  style_header : ∀ name s,
    StyleParamWithOptions "simple" false name (PString s) ParamLocationHeader = Ok (bytes s);
  style_query : ∀ name s,
    StyleParamWithOptions "form" true name (PString s) ParamLocationQuery
    = Ok (bytes name ++ 61 :: QueryEscape (bytes s));
  style_query_int : ∀ name n,
    StyleParamWithOptions "form" true name (PInt n) ParamLocationQuery
    = Ok (bytes name ++ 61 :: bytes (FormatInt n));
  (** An unescaped required path parameter is bound to its value unless it is
      empty; so is a header. *)
  bind_path : ∀ name s, s ≠ "" →
    BindStyledParameterWithOptions "simple" name (bytes s) ParamLocationPath true true = Ok s;
  bind_header : ∀ name s,
    BindStyledParameterWithOptions "simple" name (bytes s) ParamLocationHeader false false = Ok s;
  (** An optional query parameter is absent, or bound to its only value. *)
  bind_query_absent : ∀ name q, values name q = [] → BindQueryString name q = Ok None;
  bind_query : ∀ name q s, values name q = [bytes s] → BindQueryString name q = Ok (Some s);
  bind_query_int_absent : ∀ name q, values name q = [] → BindQueryInt name q = Ok None;
  bind_query_int : ∀ name q n,
    - 2 ^ 63 ≤ n < 2 ^ 63 → values name q = [bytes (FormatInt n)] → BindQueryInt name q = Ok (Some n)
}.

(** ** [net/http] requests *)

(** [http.CanonicalHeaderKey]: a letter is upper case first and after a hyphen,
    lower case elsewhere. *)
Fixpoint canonical_from (up : bool) (l : list Z) : list Z :=
  match l with
  | [] => []
  | c :: l' =>
      (if up && ((97 <=? c) && (c <=? 122)) then c - 32
       else if negb up && ((65 <=? c) && (c <=? 90)) then c + 32 else c) :: canonical_from (c =? 45) l'
  end.
Definition CanonicalHeaderKey (key : string) : string := of_bytes (canonical_from true (bytes key)).

Abbreviation Header := (gmap string (list string)).
Definition Header_Set (key value : string) (h : Header) : Header := <[CanonicalHeaderKey key := [value]]> h.
Definition Header_Add (key value : string) (h : Header) : Header :=
  <[CanonicalHeaderKey key := default [] (h !! CanonicalHeaderKey key) ++ [value]]> h.
Definition Header_Get (key : string) (h : Header) : string :=
  default "" (default [] (h !! CanonicalHeaderKey key) !! 0%nat).

Record httpRequest := MkHttpRequest {
  hr_Method : string; hr_URL : URL; hr_Host : list Z; hr_Header : Header; hr_Body : list Z
}.
Definition with_header (f : Header → Header) (r : httpRequest) : httpRequest :=
  MkHttpRequest (hr_Method r) (hr_URL r) (hr_Host r) (f (hr_Header r)) (hr_Body r).

(** [removeEmptyPort]: a colon after the brackets that ends the host. *)
Definition removeEmptyPort (host : list Z) : list Z :=
  if bool_decide (last host = Some 58) then removelast host else host.

(** [http.NewRequest] *)
Definition http_NewRequest (method : string) (url body : list Z) : result httpRequest :=
  u ← Parse url;
  let host := removeEmptyPort (u_Host u) in
  Ok (MkHttpRequest method (with_host u host) host ∅ body).

(** ** Request builders of the generated client *)
Record ListParams := MkListParams { lp_Limit : option Z; lp_PageToken : option string }.

Section builders.
Context `{rt : Runtime}.

Definition operation_request (method : string) (server operationPath : list Z) (edit : URL → result URL)
    (body : list Z) : result httpRequest :=
  serverURL ← Parse server;
  queryURL ← URL_Parse serverURL (if starts_with [47] operationPath then 46 :: operationPath else operationPath);
  queryURL ← edit queryURL;
  http_NewRequest method (URL_String queryURL) body.

Definition path_param (name value : string) : result (list Z) :=
  StyleParamWithOptions "simple" false name (PString value) ParamLocationPath.

Definition optional_header (name : string) (value : option string) (req : httpRequest) : result httpRequest :=
  match value with
  | None => Ok req
  | Some v =>
      p ← StyleParamWithOptions "simple" false name (PString v) ParamLocationHeader;
      Ok (with_header (Header_Set name (of_bytes p)) req)
  end.

Definition list_query (params : option ListParams) (queryURL : URL) : result URL :=
  match params with
  | None => Ok queryURL
  | Some p =>
      let queryValues := Query queryURL in
      limit ← match lp_Limit p with
              | None => Ok []
              | Some n => frag ← StyleParamWithOptions "form" true "limit" (PInt n) ParamLocationQuery; Ok (split 38 frag)
              end;
      token ← match lp_PageToken p with
              | None => Ok []
              | Some t => frag ← StyleParamWithOptions "form" true "page_token" (PString t) ParamLocationQuery;
                          Ok (split 38 frag)
              end;
      let encoded := Values_Encode queryValues in
      Ok (with_query queryURL (join 38 (limit ++ token ++ (if bool_decide (encoded ≠ []) then [encoded] else []))))
  end.

Definition collection_path (p0 : list Z) (kind : string) : list Z :=
  bytes "/v1/workspaces/" ++ p0 ++ bytes "/" ++ bytes kind.
Definition item_path (p0 : list Z) (kind : string) (p1 : list Z) : list Z :=
  collection_path p0 kind ++ bytes "/" ++ p1.

Definition plain_request (method : string) (server path : list Z) : result httpRequest :=
  operation_request method server path Ok [].
Definition list_request (server : list Z) (workspace kind : string) (params : option ListParams) : result httpRequest :=
  p0 ← path_param "workspace" workspace;
  operation_request "GET" server (collection_path p0 kind) (list_query params) [].
Definition create_request (server : list Z) (workspace kind : string) (key : option string)
    (contentType : string) (body : list Z) : result httpRequest :=
  p0 ← path_param "workspace" workspace;
  req ← operation_request "POST" server (collection_path p0 kind) Ok body;
  optional_header "Idempotency-Key" key (with_header (Header_Add "Content-Type" contentType) req).
Definition item_request (method : string) (server : list Z) (workspace kind id suffix : string) : result httpRequest :=
  p0 ← path_param "workspace" workspace;
  p1 ← path_param "id" id;
  operation_request method server (item_path p0 kind p1 ++ bytes suffix) Ok [].

Definition NewGetEventsRequest (server : list Z) (lastEventID : option string) : result httpRequest :=
  req ← plain_request "GET" server (bytes "/v1/events");
  optional_header "Last-Event-ID" lastEventID req.
Definition NewGetHealthRequest (server : list Z) := plain_request "GET" server (bytes "/v1/health").
Definition NewGetVersionRequest (server : list Z) := plain_request "GET" server (bytes "/v1/version").

Definition NewListInstancesRequest server workspace := list_request server workspace "instances".
Definition NewRunInstanceRequestWithBody server workspace key contentType body :=
  create_request server workspace "instances" key contentType body.
Definition NewRunInstanceRequest server workspace key (name subnetID : string) :=
  NewRunInstanceRequestWithBody server workspace key "application/json" (rq_body (RunInstanceRequest name subnetID)).
Definition NewTerminateInstanceRequest server workspace id := item_request "DELETE" server workspace "instances" id "".
Definition NewGetInstanceRequest server workspace id := item_request "GET" server workspace "instances" id "".
Definition NewGetInstanceConsoleRequest server workspace id :=
  item_request "GET" server workspace "instances" id "/console".

Definition NewListSubnetsRequest server workspace := list_request server workspace "subnets".
Definition NewCreateSubnetRequestWithBody server workspace key contentType body :=
  create_request server workspace "subnets" key contentType body.
Definition NewCreateSubnetRequest server workspace key (name vpcID cidr zone : string) :=
  NewCreateSubnetRequestWithBody server workspace key "application/json"
    (rq_body (CreateSubnetRequest name vpcID cidr zone)).
Definition NewDeleteSubnetRequest server workspace id := item_request "DELETE" server workspace "subnets" id "".
Definition NewGetSubnetRequest server workspace id := item_request "GET" server workspace "subnets" id "".

Definition NewListVpcsRequest server workspace := list_request server workspace "vpcs".
Definition NewCreateVpcRequestWithBody server workspace key contentType body :=
  create_request server workspace "vpcs" key contentType body.
Definition NewCreateVpcRequest server workspace key (name cidr : string) :=
  NewCreateVpcRequestWithBody server workspace key "application/json" (rq_body (CreateVpcRequest name cidr)).
Definition NewDeleteVpcRequest server workspace id := item_request "DELETE" server workspace "vpcs" id "".
Definition NewGetVpcRequest server workspace id := item_request "GET" server workspace "vpcs" id "".

(** ** The client *)
Definition RequestEditorFn : Type := httpRequest → result httpRequest.
Record GenClient := MkGenClient { gc_Server : list Z; gc_RequestEditors : list RequestEditorFn }.
Definition ClientOption : Type := GenClient → result GenClient.

Fixpoint apply_options (opts : list ClientOption) (c : GenClient) : result GenClient :=
  match opts with
  | [] => Ok c
  | o :: opts' => c' ← o c; apply_options opts' c'
  end.
Definition NewClient (server : list Z) (opts : list ClientOption) : result GenClient :=
  c ← apply_options opts (MkGenClient server []);
  Ok (if bool_decide (last (gc_Server c) = Some 47) then c
      else MkGenClient (gc_Server c ++ [47]) (gc_RequestEditors c)).
Definition WithRequestEditorFn (fn : RequestEditorFn) : ClientOption :=
  λ c, Ok (MkGenClient (gc_Server c) (gc_RequestEditors c ++ [fn])).

Fixpoint run_editors (editors : list RequestEditorFn) (req : httpRequest) : result httpRequest :=
  match editors with
  | [] => Ok req
  | e :: editors' => req' ← e req; run_editors editors' req'
  end.
Definition applyEditors (c : GenClient) (req : httpRequest) (additional : list RequestEditorFn) : result httpRequest :=
  req' ← run_editors (gc_RequestEditors c) req; run_editors additional req'.

(** Each method hands the request it built and edited to [Client.Do]. *)
Definition prepared (c : GenClient) (build : list Z → result httpRequest) (additional : list RequestEditorFn)
    : result httpRequest :=
  req ← build (gc_Server c); applyEditors c req additional.

Section methods.
Context (c : GenClient).
Definition Client_GetEvents last := prepared c (λ server, NewGetEventsRequest server last).
Definition Client_GetHealth := prepared c NewGetHealthRequest.
Definition Client_GetVersion := prepared c NewGetVersionRequest.
Definition Client_ListInstances workspace params := prepared c (λ server, NewListInstancesRequest server workspace params).
Definition Client_RunInstanceWithBody workspace key contentType body :=
  prepared c (λ server, NewRunInstanceRequestWithBody server workspace key contentType body).
Definition Client_RunInstance workspace key name subnetID :=
  prepared c (λ server, NewRunInstanceRequest server workspace key name subnetID).
Definition Client_TerminateInstance workspace id := prepared c (λ server, NewTerminateInstanceRequest server workspace id).
Definition Client_GetInstance workspace id := prepared c (λ server, NewGetInstanceRequest server workspace id).
Definition Client_GetInstanceConsole workspace id := prepared c (λ server, NewGetInstanceConsoleRequest server workspace id).
Definition Client_ListSubnets workspace params := prepared c (λ server, NewListSubnetsRequest server workspace params).
Definition Client_CreateSubnetWithBody workspace key contentType body :=
  prepared c (λ server, NewCreateSubnetRequestWithBody server workspace key contentType body).
Definition Client_CreateSubnet workspace key name vpcID cidr zone :=
  prepared c (λ server, NewCreateSubnetRequest server workspace key name vpcID cidr zone).
Definition Client_DeleteSubnet workspace id := prepared c (λ server, NewDeleteSubnetRequest server workspace id).
Definition Client_GetSubnet workspace id := prepared c (λ server, NewGetSubnetRequest server workspace id).
Definition Client_ListVpcs workspace params := prepared c (λ server, NewListVpcsRequest server workspace params).
Definition Client_CreateVpcWithBody workspace key contentType body :=
  prepared c (λ server, NewCreateVpcRequestWithBody server workspace key contentType body).
Definition Client_CreateVpc workspace key name cidr :=
  prepared c (λ server, NewCreateVpcRequest server workspace key name cidr).
Definition Client_DeleteVpc workspace id := prepared c (λ server, NewDeleteVpcRequest server workspace id).
Definition Client_GetVpc workspace id := prepared c (λ server, NewGetVpcRequest server workspace id).
End methods.

(** The operations of the API with their arguments. *)
Inductive clientCall :=
  | CallGetEvents (lastEventID : option string)
  | CallGetHealth
  | CallGetVersion
  | CallListInstances (workspace : string) (params : option ListParams)
  | CallRunInstance (workspace : string) (key : option string) (name subnetID : string)
  | CallTerminateInstance (workspace id : string)
  | CallGetInstance (workspace id : string)
  | CallGetInstanceConsole (workspace id : string)
  | CallListSubnets (workspace : string) (params : option ListParams)
  | CallCreateSubnet (workspace : string) (key : option string) (name vpcID cidr zone : string)
  | CallDeleteSubnet (workspace id : string)
  | CallGetSubnet (workspace id : string)
  | CallListVpcs (workspace : string) (params : option ListParams)
  | CallCreateVpc (workspace : string) (key : option string) (name cidr : string)
  | CallDeleteVpc (workspace id : string)
  | CallGetVpc (workspace id : string).

Definition Client_request (c : GenClient) (call : clientCall) (additional : list RequestEditorFn)
    : result httpRequest :=
  match call with
  | CallGetEvents last => Client_GetEvents c last additional
  | CallGetHealth => Client_GetHealth c additional
  | CallGetVersion => Client_GetVersion c additional
  | CallListInstances w p => Client_ListInstances c w p additional
  | CallRunInstance w k name subnetID => Client_RunInstance c w k name subnetID additional
  | CallTerminateInstance w id => Client_TerminateInstance c w id additional
  | CallGetInstance w id => Client_GetInstance c w id additional
  | CallGetInstanceConsole w id => Client_GetInstanceConsole c w id additional
  | CallListSubnets w p => Client_ListSubnets c w p additional
  | CallCreateSubnet w k name vpcID cidr zone => Client_CreateSubnet c w k name vpcID cidr zone additional
  | CallDeleteSubnet w id => Client_DeleteSubnet c w id additional
  | CallGetSubnet w id => Client_GetSubnet c w id additional
  | CallListVpcs w p => Client_ListVpcs c w p additional
  | CallCreateVpc w k name cidr => Client_CreateVpc c w k name cidr additional
  | CallDeleteVpc w id => Client_DeleteVpc c w id additional
  | CallGetVpc w id => Client_GetVpc c w id additional
  end.
End builders.

(** ** The configuration of the command line *)
Definition defaultEndpoint : string := "http://127.0.0.1:7788".
Record resourceConfig := MkResourceConfig { cfg_endpoint : string; cfg_credentialPath : string; cfg_pollInterval : Z }.

Definition loopbackError : error := Errorf (lit "API endpoint must be an HTTP loopback address").

(** [home] is what [os.UserHomeDir] finds, joined with [.nephos/credentials];
    durations are in nanoseconds. *)
Definition normalized (home : result string) (cfg : resourceConfig) : result resourceConfig :=
  let endpoint := if cfg_endpoint cfg ==? "" then defaultEndpoint else cfg_endpoint cfg in
  match Parse (bytes endpoint) with
  | Err _ => Err loopbackError
  | Ok parsed =>
      if bool_decide (u_Scheme parsed ≠ bytes "http") || bool_decide (u_User parsed ≠ None)
         || bool_decide (u_RawQuery parsed ≠ []) || bool_decide (u_Fragment parsed ≠ [])
         || bool_decide (u_Path parsed ≠ [])
      then Err loopbackError
      else
        let host := Hostname parsed in
        if (host ==? bytes "localhost") || (host ==? bytes "127.0.0.1") || (host ==? bytes "::1") then
          path ← (if cfg_credentialPath cfg ==? "" then wrap_err (lit "find home directory: %w") home
                  else Ok (cfg_credentialPath cfg));
          Ok (MkResourceConfig endpoint path
                (if cfg_pollInterval cfg <=? 0 then 500 * 10 ^ 6 else cfg_pollInterval cfg))
        else Err loopbackError
  end.

(** A file as [os.Lstat] and [os.ReadFile] report it. *)
Record file := MkFile { f_regular : bool; f_perm : Z; f_size : Z; f_data : result string }.

Definition loadCredential (lstat : result file) : result string :=
  info ← wrap_err (lit "read ~/.nephos/credentials: %w") lstat;
  _ ← require (f_regular info && (Z.land (f_perm info) 63 =? 0) && (f_size info <=? 128))
        (Errorf (lit "credential file must be a private regular file"));
  data ← wrap_err (lit "read credential file: %w") (f_data info);
  match b64_DecodeString data with
  | Some raw =>
      if negb (length raw =? 32)%nat || (b64_EncodeToString raw !=? data)
      then Err (Errorf (lit "credential file is malformed")) else Ok data
  | None => Err (Errorf (lit "credential file is malformed"))
  end.

Definition bearer (token : string) : RequestEditorFn :=
  λ req, Ok (with_header (Header_Set "Authorization" ("Bearer " +:+ token)) req).

(** [files] is the file system. *)
Definition newResourceClient (home : result string) (files : string → result file) (cfg : resourceConfig)
    : result (GenClient * resourceConfig) :=
  cfg ← normalized home cfg;
  token ← loadCredential (files (cfg_credentialPath cfg));
  api ← wrap_err (lit "create API client: %w")
          (NewClient (bytes (cfg_endpoint cfg)) [WithRequestEditorFn (bearer token)]);
  Ok (api, cfg).
