(* ===== verification/Endpoint.v ===== *)
(** What the command line accepts as an endpoint: a loopback host, from which the
    generated client builds its requests. *)

From S2P Require Import Prelude Errors GoStrings Encodings NetIP Url UrlFacts Validate Model Json Snapshot.
From S2P Require Import Schema Tx Store Idempotency NetworkService InstanceService Api Client Requests.
Local Open Scope Z_scope.

(** ** Unescaping a host *)
Lemma unescape_nonempty m s t : unescape m s = Ok t → t = [] → s = [].
Proof.
  destruct s as [|c s]; [done|]. simpl. intros H ->. destruct (c =? 37).
  - destruct s as [|a [|b s]]; try done. destruct (hexval a), (hexval b); try done.
    repeat (case_match; [done|]). by apply bind_Ok in H as (? & _ & [=]).
  - case_match; [done|]. by apply bind_Ok in H as (? & _ & [=]).
Qed.

Lemma unescape_split m c a b h :
  hexval c = None → unescape m (a ++ c :: b) = Ok h →
  ∃ a' b', unescape m a = Ok a' ∧ unescape m (c :: b) = Ok b' ∧ h = a' ++ b'.
Proof.
  intros Hx. remember (c :: b) as t eqn:Et. remember (length a) as n eqn:Hn. revert a h Hn.
  induction (lt_wf n) as [n _ IH]. intros [|d a] h -> H; [by exists [], h|]. cbn [app unescape length] in *.
  assert (∀ a2 r, (length a2 < S (length a))%nat → unescape m (a2 ++ t) = Ok r →
            ∃ a' b', unescape m a2 = Ok a' ∧ unescape m t = Ok b' ∧ r = a' ++ b') as IH' by eauto. clear IH.
  destruct (d =? 37).
  - destruct a as [|x [|y a]]; [subst t; cbn [app] in H; rewrite Hx in H; by repeat case_match..|].
    cbn [app] in H. destruct (hexval x), (hexval y); [|done..].
    destruct (_ && _ && _); [done|]. destruct (_ && _ && _ && _); [done|].
    apply bind_Ok in H as (r & Hr & [= <-]). destruct (IH' a r) as (a' & b' & Ha & Hb & ->); [simpl; lia|done|].
    rewrite Ha, Hb. by eexists _, _.
  - destruct (_ && _ && _); [done|]. apply bind_Ok in H as (r & Hr & [= <-]).
    destruct (IH' a r) as (a' & b' & Ha & Hb & ->); [lia|done|]. rewrite Ha, Hb. by eexists _, _.
Qed.

Lemma unescape_host_bytes a h c : unescape encodeHost a = Ok h → c ∈ h → c ∈ a ∨ c = 37 ∨ 128 ≤ c.
Proof.
  remember (length a) as n eqn:Hn. revert a h Hn.
  induction (lt_wf n) as [n _ IH]. intros [|d a] h -> H Hin; simpl in H.
  { simplify_eq. by apply elem_of_nil in Hin. }
  destruct (d =? 37).
  - destruct a as [|x [|y a]]; simplify_eq/=.
    destruct (hexval x) as [v|], (hexval y) as [w|] eqn:Hw; simplify_eq/=.
    case_match eqn:E; simplify_eq/=. apply bind_Ok in H as (r & Hr & [= <-]).
    apply elem_of_cons in Hin as [->|Hin].
    + right. assert (0 ≤ w). { unfold hexval, is_digit in Hw. repeat case_match; reflect_bools; simplify_eq; lia. }
      apply andb_false_iff in E as [E|E]; reflect_bools; [right; lia|left; done].
    + edestruct (IH (length a)) as [?|?]; [simpl; lia|reflexivity|eassumption|eassumption| |by right]. left. set_solver.
  - case_match; [done|]. rewrite andb_false_r in H. apply bind_Ok in H as (r & Hr & [= <-]).
    apply elem_of_cons in Hin as [->|Hin]; [left; by left|].
    edestruct (IH (length a)) as [?|?]; [simpl; lia|reflexivity|eassumption|eassumption| |by right]. left. by right.
Qed.

(** ** The host of an accepted endpoint *)
Definition accepted_name (name : list Z) : Prop :=
  name = bytes "localhost" ∨ name = bytes "127.0.0.1" ∨ name = bytes "::1".
Definition strip_brackets (host : list Z) : list Z :=
  if starts_with [91] host && bool_decide (last host = Some 93) then removelast (tail host) else host.

Lemma digits_no c ds : forallb is_digit ds = true → is_digit c = false → c ∉ ds.
Proof. intros H%forallb_Forall Hc. by apply (not_in is_digit). Qed.

(** [Hostname] drops a port. *)
Lemma Hostname_port u x port :
  u_Host u = x ++ port → validOptionalPort port = true →
  (port = [] → ∀ y z, x = y ++ 58 :: z → forallb is_digit z = false) →
  Hostname u = strip_brackets x.
Proof.
  intros Hh Hp Hx. unfold Hostname, strip_brackets. rewrite Hh. destruct port as [|c ds].
  - rewrite app_nil_r. pose proof (cut_last_inv 58 x) as I. destruct (cut_last 58 x) as [[y z]|]; [|done].
    destruct I as [E _]. by rewrite (Hx eq_refl y z E).
  - simpl in Hp. apply andb_true_iff in Hp as [->%Z.eqb_eq Hd].
    rewrite cut_last_app by by apply digits_no. by rewrite Hd.
Qed.

Lemma bracketed_name name : strip_brackets (91 :: name ++ [93]) = name.
Proof.
  unfold strip_brackets. change (91 :: name ++ [93]) with ((91 :: name) ++ [93]). rewrite last_snoc.
  rewrite bool_decide_true by done. cbn [starts_with app tail andb].
  assert (starts_with [91] (91 :: name ++ [93]) = true) as -> by done. apply removelast_last.
Qed.
Lemma unbracketed_name name : 91 ∉ name → strip_brackets name = name.
Proof.
  intros H. unfold strip_brackets. destruct name as [|c name]; [done|].
  assert (starts_with [91] (c :: name) = false) as ->; [|done].
  unfold starts_with. apply bool_decide_eq_false. cbn. intros [= ->]. apply H. left.
Qed.

Lemma parseHost_bracketed a h u :
  parseHost a = Ok h → u_Host u = h → 91 ∈ a → accepted_name (Hostname u) → loopback_host h.
Proof.
  intros H Hu Ha Hn. unfold parseHost in H. pose proof (cut_last_inv 91 a) as I.
  destruct (cut_last 91 a) as [[[|? ?] inner]|]; [|done..]. clear I.
  pose proof (cut_last_inv 93 inner) as I. destruct (cut_last 93 inner) as [[name port]|]; [|done]. clear I.
  apply bind_Ok in H as (? & Hport%require_Ok & H). apply bind_Ok in H as (port' & Hp' & H).
  rewrite unescape_plain in Hp' by by apply port_bytes. simplify_eq.
  apply bind_Ok in H as (name' & _ & H). apply bind_Ok in H as (addr & Haddr%of_option_Ok & H).
  apply bind_Ok in H as (? & H4%require_Ok & [= Hh]).
  erewrite (Hostname_port u (91 :: name' ++ [93]) port') in Hn; [|by rewrite <- Hh; cbn; rewrite <- app_assoc|done|].
  - rewrite bracketed_name in Hn. destruct Hn as [->|[->| ->]]; [done|by vm_compute in Haddr; simplify_eq|].
    exists "[::1]", port'. split; [by rewrite <- Hh|]. split; [set_solver|done].
  - intros _ y z E. apply not_true_iff_false. intros Hd.
    assert (last (y ++ 58 :: z) = Some 93) as L by (rewrite <- E; change (91 :: name' ++ [93]) with ((91 :: name') ++ [93]); apply last_snoc).
    destruct z as [|c z]; [by rewrite last_snoc in L|].
    destruct (exists_last (l := c :: z) ltac:(done)) as (z' & w & Ez). rewrite Ez in *.
    change (y ++ 58 :: z' ++ [w]) with (y ++ (58 :: z') ++ [w]) in L. rewrite app_assoc, last_snoc in L. simplify_eq.
    rewrite forallb_app in Hd. by apply andb_true_iff in Hd as [_ Hd].
Qed.

Lemma parseHost_plain a h u :
  parseHost a = Ok h → u_Host u = h → 91 ∉ a → accepted_name (Hostname u) → loopback_host h.
Proof.
  intros H Hu Ha Hn. unfold parseHost in H. rewrite cut_last_none in H by done.
  apply bind_Ok in H as ([] & Hport%require_Ok & H).
  assert (∃ x port, h = x ++ port ∧ validOptionalPort port = true ∧ (58 ∉ x) ∧ 91 ∉ x) as (x & port & -> & Hp & H58 & H91).
  { destruct (cut_inv 58 a) as [Hx Ea]. destruct (cut 58 a) as [x [ds|]]; cbn [fst snd] in *.
    - subst a. destruct (unescape_split encodeHost 58 x ds h) as (x' & p' & H1 & H2 & ->); [done..|].
      assert (validOptionalPort (58 :: ds) = true) as Hv by done.
      rewrite unescape_plain in H2 by by apply port_bytes. simplify_eq.
      exists x', (58 :: ds). repeat split; [done|..]; intros Hin;
        destruct (unescape_host_bytes _ _ _ H1 Hin) as [?|[?|?]]; try done; set_solver.
    - rewrite app_nil_r in Ea. subst x. exists h, []. rewrite app_nil_r. repeat split; intros Hin;
        destruct (unescape_host_bytes _ _ _ H Hin) as [?|[?|?]]; done. }
  rewrite (Hostname_port u x port Hu Hp) in Hn.
  - rewrite unbracketed_name in Hn by done. destruct Hn as [->|[->| ->]].
    + exists "localhost", port. split; [done|]. split; [set_solver|done].
    + exists "127.0.0.1", port. split; [done|]. split; [set_solver|done].
    + exfalso. apply H58. by apply (bool_decide_unpack _).
  - intros _ y z ->. exfalso. apply H58. set_solver.
Qed.

Lemma parseAuthority_loopback_inv a h u :
  parseAuthority a = Ok (None, h) → u_Host u = h → accepted_name (Hostname u) → loopback_host h.
Proof.
  intros H Hu Hn. unfold parseAuthority in H. destruct (cut_last 64 a) as [[user raw]|].
  - apply bind_Ok in H as (? & _ & H). apply bind_Ok in H as (? & _ & H).
    destruct (cut 58 user) as [n [p|]]; apply bind_Ok in H as (? & _ & H); [apply bind_Ok in H as (? & _ & H)|]; done.
  - apply bind_Ok in H as (h' & H & [= ->]). destruct (decide (91 ∈ a)).
    + by eapply parseHost_bracketed.
    + by eapply parseHost_plain.
Qed.

(** ** Parsing an accepted endpoint, and with the slash the client adds *)
Lemma getScheme_from_inv first l s rest :
  getScheme_from first l = Ok (Some (s, rest)) →
  l = s ++ 58 :: rest ∧ ∀ rest', getScheme_from first (s ++ 58 :: rest') = Ok (Some (s, rest')).
Proof.
  revert first s. induction l as [|c l IH]; intros first s H; simpl in H; [done|].
  destruct (is_letter c || (negb first && (is_digit c || one_of "+-." c))) eqn:E.
  - apply bind_Ok in H as (r & Hr & [= H]). destruct r as [[s' rest']|]; simplify_eq/=.
    destruct (IH _ _ Hr) as [-> Hf]. split; [done|]. intros r'. by rewrite E, Hf.
  - destruct (Z.eqb_spec c 58); [|done]. subst c. destruct first; [done|]. simplify_eq/=. done.
Qed.
Lemma getScheme_inv raw s rest :
  getScheme raw = Ok (s, rest) → s ≠ [] → raw = s ++ 58 :: rest ∧ ∀ rest', getScheme (s ++ 58 :: rest') = Ok (s, rest').
Proof.
  unfold getScheme. intros H Hs. apply bind_Ok in H as (r & Hr & [= H]). destruct r as [[s' rest']|]; simplify_eq/=.
  destruct (getScheme_from_inv _ _ _ _ Hr) as [-> Hf]. split; [done|]. intros r'. by rewrite Hf.
Qed.

Definition bare_URL (scheme host : list Z) (force : bool) (query fragment : list Z) : URL :=
  MkURL scheme [] None host [] [] false force query fragment.

Lemma parse_rest_inv scheme force query rest url :
  parse_rest false (bare_URL scheme [] force query []) rest = Ok url →
  u_Host url ≠ [] → u_Path url = [] → u_User url = None →
  ∃ a, rest = 47 :: 47 :: a ∧ (47 ∉ a) ∧ parseAuthority a = Ok (None, u_Host url) ∧
       url = bare_URL scheme (u_Host url) force query [].
Proof.
  unfold parse_rest. intros H Hh Hp Hu. destruct (negb (starts_with [47] rest) && _); [by simplify_eq/=|].
  apply bind_Ok in H as ([] & _ & H). apply bind_Ok in H as ([] & _ & H).
  assert (∀ u p, setPath u p = Ok url → u_Host url = u_Host u ∧ u_User url = u_User u ∧ p = [] ∧ url = with_path u [] []) as Hset.
  { intros u p Hs. unfold setPath in Hs. apply bind_Ok in Hs as (path & Hpath & [= <-]). cbn in Hp. subst path.
    rewrite (unescape_nonempty _ _ _ Hpath eq_refl). done. }
  destruct (_ && starts_with [47; 47] rest) eqn:E.
  - apply andb_true_iff in E as [_ E%bool_decide_eq_true]. destruct rest as [|x [|y rest]]; simplify_eq/=.
    rewrite drop_0 in H. destruct (cut_inv 47 rest) as [Hx Er]. destruct (cut 47 rest) as [a tail]. cbn [fst snd] in *.
    destruct tail as [p|]; apply bind_Ok in H as ([user host] & Ha & H); apply Hset in H as (Q1 & Q2 & Q3 & Q4); [done|].
    rewrite app_nil_r in Er. subst rest. exists a. cbn in Q1, Q2. rewrite Hu in Q2. subst user.
    rewrite Q1 in *. repeat split; done.
  - apply Hset in H as (Q1 & _). by rewrite Q1 in Hh.
Qed.

Lemma parse_rest_bare scheme force query a h p :
  scheme ≠ [] → (47 ∉ a) → parseAuthority a = Ok (None, h) → p = [] ∨ p = [47] →
  parse_rest false (bare_URL scheme [] force query []) (47 :: 47 :: a ++ p) =
  Ok (with_path (bare_URL scheme h force query []) p []).
Proof.
  intros Hs Ha Hpa Hp. unfold parse_rest.
  assert (cut 47 (drop 2 (47 :: 47 :: a ++ p)) = (a, if bool_decide (p = []) then None else Some [])) as ->.
  { cbn [drop]. destruct Hp as [->| ->]; [rewrite app_nil_r; by apply cut_none|by apply cut_app]. }
  cbn [bare_URL u_Scheme]. rewrite (bool_decide_true (scheme ≠ [])) by done.
  destruct Hp as [->| ->]; cbn; by rewrite Hpa.
Qed.

Lemma parse_http raw s rest :
  existsb is_ctl raw = false → s ≠ [] → raw = s ++ 58 :: rest → (∀ rest', getScheme (s ++ 58 :: rest') = Ok (s, rest')) →
  Url.parse false raw =
  match cut 63 rest with
  | (before, Some []) => parse_rest false (bare_URL (lower <$> s) [] true [] []) before
  | (before, Some query) => parse_rest false (bare_URL (lower <$> s) [] false query []) before
  | (before, None) => parse_rest false (bare_URL (lower <$> s) [] false [] []) before
  end.
Proof.
  intros Hctl Hs -> Hg. unfold Url.parse. rewrite Hctl.
  rewrite (bool_decide_false (_ = [42])) by (by destruct s as [|? [|? ?]]). rewrite orb_true_r.
  cbn [negb require mbind result_bind]. rewrite Hg. cbn [mbind result_bind].
  destruct (cut 63 rest) as [before [[|c q]|]]; done.
Qed.

Lemma Hostname_empty u : u_Host u = [] → Hostname u = [].
Proof. unfold Hostname. by intros ->. Qed.

Lemma parse_rest_keeps via u rest url :
  parse_rest via u rest = Ok url → u_Scheme url = u_Scheme u ∧ u_RawQuery url = u_RawQuery u.
Proof.
  unfold parse_rest. intros H. destruct (_ && _); [by simplify_eq|].
  apply bind_Ok in H as ([] & _ & H). apply bind_Ok in H as ([] & _ & H).
  assert (∀ u0 p, setPath u0 p = Ok url → u_Scheme url = u_Scheme u0 ∧ u_RawQuery url = u_RawQuery u0) as Hset.
  { intros u0 p Hs. by apply bind_Ok in Hs as (? & _ & [= <-]). }
  destruct (_ && _); [|by apply Hset in H].
  destruct (cut 47 _) as [a [p|]]; apply bind_Ok in H as ([user host] & _ & H); by apply Hset in H.
Qed.

(** The shape of an accepted endpoint: a scheme, a host, and possibly an empty
    query and an empty fragment. *)
Lemma endpoint_shape e parsed :
  Parse e = Ok parsed → u_Scheme parsed = bytes "http" → u_User parsed = None → u_RawQuery parsed = [] →
  u_Fragment parsed = [] → u_Path parsed = [] → u_Host parsed ≠ [] →
  ∃ s a mark frag, e = s ++ 58 :: 47 :: 47 :: a ++ mark ++ frag ∧ (mark = [] ∨ mark = [63]) ∧ (frag = [] ∨ frag = [35]) ∧
    s ≠ [] ∧ lower <$> s = bytes "http" ∧ (∀ rest, getScheme (s ++ 58 :: rest) = Ok (s, rest)) ∧
    (47 ∉ a) ∧ (63 ∉ a) ∧ (35 ∉ s ++ 58 :: 47 :: 47 :: a) ∧ existsb is_ctl (s ++ 58 :: 47 :: 47 :: a) = false ∧
    parseAuthority a = Ok (None, u_Host parsed).
Proof.
  intros HP Hs Hu Hq Hf Hp Hh. unfold Parse in HP. destruct (cut_inv 35 e) as [H35 Ee].
  destruct (cut 35 e) as [u frag]. cbn [fst snd] in *. apply bind_Ok in HP as (url & Hurl & HP).
  assert (url = parsed ∧ (match frag with Some k => 35 :: k | None => [] end = [] ∨
                          match frag with Some k => 35 :: k | None => [] end = [35])) as [-> Hfrag].
  { destruct frag as [[|c f]|]; [by simplify_eq; auto| |by simplify_eq; auto]. exfalso.
    apply bind_Ok in HP as (t & Ht & [= <-]). cbn in Hf. by apply (unescape_nonempty _ _ _ Ht) in Hf. }
  assert (existsb is_ctl u = false) as Hctl.
  { unfold Url.parse in Hurl. apply bind_Ok in Hurl as ([] & Hc%require_Ok & _). by apply negb_true_iff in Hc. }
  assert (∃ s rest, getScheme u = Ok (s, rest) ∧ lower <$> s = bytes "http") as (s & rest & Hg & Hl).
  { unfold Url.parse in Hurl. apply bind_Ok in Hurl as (? & _ & Hurl). apply bind_Ok in Hurl as (? & _ & Hurl).
    case_bool_decide; [by simplify_eq/=|]. apply bind_Ok in Hurl as ([s rest] & Hg & Hurl). exists s, rest. split; [done|].
    destruct (cut 63 rest) as [before [[|? ?]|]]; apply parse_rest_keeps in Hurl as [Hk _]; cbn in Hk; congruence. }
  assert (s ≠ []) as Hne by (by intros ->).
  destruct (getScheme_inv _ _ _ Hg Hne) as [-> Hgs]. erewrite parse_http in Hurl by done.
  destruct (cut_inv 63 rest) as [H63 Er]. destruct (cut 63 rest) as [before q]. cbn [fst snd] in *.
  assert (∃ force query, parse_rest false (bare_URL (lower <$> s) [] force query []) before = Ok parsed ∧
            (match q with Some k => 63 :: k | None => [] end = [] ∨ match q with Some k => 63 :: k | None => [] end = [63]))
    as (force & query & Hr & Hmark).
  { destruct q as [[|c q]|]; [by eauto| |by eauto]. apply parse_rest_keeps in Hurl as [_ Hk]. by rewrite Hq in Hk. }
  destruct (parse_rest_inv _ _ _ _ _ Hr Hh Hp Hu) as (a & -> & Ha & Hpa & _).
  exists s, a, (match q with Some k => 63 :: k | None => [] end), (match frag with Some k => 35 :: k | None => [] end).
  rewrite Er in H35, Hctl, Ee. clear Er. rewrite !not_elem_of_cons in H63.
  rewrite Ee. split; [cbn; by rewrite <- !app_assoc; cbn; rewrite <- app_assoc|]. split; [done|]. split; [done|].
  split; [done|]. split; [done|]. split; [done|]. split; [done|]. split; [tauto|].
  assert (∀ mark, s ++ 58 :: (47 :: 47 :: a) ++ mark = (s ++ 58 :: 47 :: 47 :: a) ++ mark) as As
    by (intros m; by rewrite <- app_assoc).
  rewrite As in H35, Hctl. rewrite existsb_app in Hctl. apply orb_false_iff in Hctl as [Hctl _].
  rewrite not_elem_of_app in H35. by destruct H35.
Qed.

Definition slash_server (e : list Z) : list Z := if bool_decide (last e = Some 47) then e else e ++ [47].

Lemma bare_server scheme h force q f p :
  scheme = bytes "http" → p = [] ∨ p = [47] → server_URL h (with_path (bare_URL scheme h force q f) p []).
Proof. intros -> Hp. repeat split. by destruct Hp as [->| ->]; [left|right]. Qed.

Section shape.
Context (s a h : list Z) (Hne : s ≠ []) (Hl : lower <$> s = bytes "http")
  (Hg : ∀ rest, getScheme (s ++ 58 :: rest) = Ok (s, rest)) (H47 : 47 ∉ a) (H63 : 63 ∉ a)
  (H35 : 35 ∉ s ++ 58 :: 47 :: 47 :: a) (Hctl : existsb is_ctl (s ++ 58 :: 47 :: 47 :: a) = false)
  (Ha : parseAuthority a = Ok (None, h)).

Lemma parse_shape t :
  t ∈ [[]; [47]; [63]; [63; 47]] →
  ∃ force q p, Url.parse false ((s ++ 58 :: 47 :: 47 :: a) ++ t) = Ok (with_path (bare_URL (bytes "http") h force q []) p []) ∧
    (p = [] ∨ p = [47]).
Proof using All.
  intros Ht. assert (existsb is_ctl ((s ++ 58 :: 47 :: 47 :: a) ++ t) = false) as Hc.
  { rewrite existsb_app, Hctl. rewrite !elem_of_cons in Ht. by destruct Ht as [->|[->|[->|[->|[]%elem_of_nil]]]]. }
  rewrite (parse_http _ s (47 :: 47 :: a ++ t)); [|done|done|by rewrite <- app_assoc|done]. rewrite Hl.
  assert (63 ∉ 47 :: 47 :: a) as H by (rewrite !not_elem_of_cons; done).
  rewrite !elem_of_cons in Ht. destruct Ht as [->|[->|[->|[->|[]%elem_of_nil]]]].
  - rewrite cut_none by (rewrite app_nil_r; done). rewrite (parse_rest_bare _ _ _ a h) by auto. eauto 6.
  - rewrite cut_none; [rewrite (parse_rest_bare _ _ _ a h) by auto; eauto 6|].
    change (63 ∉ (47 :: 47 :: a) ++ [47]). rewrite not_elem_of_app, !not_elem_of_cons. split; [done|]. split; [done|apply not_elem_of_nil].
  - change (47 :: 47 :: a ++ [63]) with ((47 :: 47 :: a) ++ 63 :: []). rewrite cut_app by done.
    rewrite <- (app_nil_r a), (parse_rest_bare _ _ _ a h) by auto. eauto 6.
  - change (47 :: 47 :: a ++ [63; 47]) with ((47 :: 47 :: a) ++ 63 :: [47]). rewrite cut_app by done.
    rewrite <- (app_nil_r a), (parse_rest_bare _ _ _ a h) by auto. eauto 6.
Qed.

Lemma Parse_shape mark frag :
  mark = [] ∨ mark = [63] → frag = [] ∨ frag = [35] →
  ∃ su, Parse (((s ++ 58 :: 47 :: 47 :: a) ++ mark ++ frag) ++ [47]) = Ok su ∧ server_URL h su.
Proof using All.
  intros Hmark Hfrag. unfold Parse. destruct Hfrag as [->| ->].
  - rewrite app_nil_r, <- app_assoc. rewrite cut_none.
    + destruct (parse_shape (mark ++ [47])) as (force & q & p & -> & Hp); [destruct Hmark as [->| ->]; set_solver|].
      cbn [mbind result_bind]. eexists. split; [done|]. by apply bare_server.
    + rewrite not_elem_of_app. split; [done|]. destruct Hmark as [->| ->]; apply (bool_decide_unpack _); by vm_compute.
  - assert (∀ P, (P ++ mark ++ [35]) ++ [47] = (P ++ mark) ++ 35 :: [47]) as -> by (intros P; by rewrite <- !app_assoc).
    rewrite cut_app.
    + destruct (parse_shape mark) as (force & q & p & -> & Hp); [destruct Hmark as [->| ->]; set_solver|].
      cbn [mbind result_bind]. eexists. split; [done|]. by apply (bare_server _ h force q [47] p).
    + rewrite not_elem_of_app. split; [done|]. destruct Hmark as [->| ->]; apply (bool_decide_unpack _); by vm_compute.
Qed.
End shape.

Lemma endpoint_server e parsed :
  Parse e = Ok parsed → u_Scheme parsed = bytes "http" → u_User parsed = None → u_RawQuery parsed = [] →
  u_Fragment parsed = [] → u_Path parsed = [] → accepted_name (Hostname parsed) →
  loopback_host (u_Host parsed) ∧ ∃ su, Parse (slash_server e) = Ok su ∧ server_URL (u_Host parsed) su.
Proof.
  intros HP Hs Hu Hq Hf Hp Hn.
  assert (u_Host parsed ≠ []) as Hh by (intros E; rewrite Hostname_empty in Hn by done; by destruct Hn as [|[|]]).
  destruct (endpoint_shape e parsed) as (s & a & mark & frag & -> & Hmark & Hfrag & Hne & Hl & Hg & H47 & H63 & H35 & Hctl & Ha); [done..|].
  pose proof (parseAuthority_loopback_inv a _ parsed Ha eq_refl Hn) as Hloop. split; [done|].
  assert (a ≠ []) as Hane. { intros ->. assert (parseAuthority [] = Ok (None, [])) as E by done. rewrite E in Ha. congruence. }
  assert (s ++ 58 :: 47 :: 47 :: a ++ mark ++ frag = (s ++ 58 :: 47 :: 47 :: a) ++ mark ++ frag) as -> by (by rewrite <- app_assoc).
  unfold slash_server. rewrite bool_decide_false; [by apply Parse_shape|].
  destruct (exists_last Hane) as (b & c & ->). intros L. apply H47.
  destruct Hfrag as [->| ->]; [rewrite app_nil_r in L; destruct Hmark as [->| ->]|]; rewrite ?app_assoc, ?last_snoc in L; try done.
  rewrite app_nil_r in L. change (58 :: 47 :: 47 :: b ++ [c]) with ((58 :: 47 :: 47 :: b) ++ [c]) in L.
  rewrite app_assoc, last_snoc in L. simplify_eq. set_solver.
Qed.

(** ** The credential *)
Lemma b64value_sextet b v : b64value b = Some v → sextet v.
Proof. unfold b64value, sextet. intros H. repeat case_match; reflect_bools; simplify_eq; lia. Qed.
Lemma b64_octets_bytes l r : Forall sextet l → b64_octets l = Some r → Forall is_byte r.
Proof.
  remember (length l) as n eqn:Hn. revert l r Hn. induction (lt_wf n) as [n _ IH]. intros l r -> Hl H.
  unfold sextet, is_byte in *.
  destruct l as [|p [|q [|a [|b l]]]]; simplify_eq/=; repeat (apply Forall_cons in Hl as [? Hl]).
  - constructor.
  - repeat constructor; div_lia.
  - repeat constructor; div_lia.
  - destruct (b64_octets l) as [rest|] eqn:E; simplify_eq/=.
    repeat (constructor; [div_lia|]). eapply (IH (length l)); [lia|done..].
Qed.

(** Text of visible ASCII is a header value that is neither refused nor trimmed. *)
Definition visible (v : string) : Prop := Forall (λ c, 33 ≤ c < 127) (bytes v).
Lemma loadCredential_visible info token : loadCredential info = Ok token → visible token ∧ token ≠ "".
Proof.
  unfold loadCredential. intros H. apply bind_Ok in H as (f & _ & H). apply bind_Ok in H as ([] & _ & H).
  apply bind_Ok in H as (data & _ & H). destruct (b64_DecodeString data) as [raw|] eqn:E; [|done].
  destruct (_ || _) eqn:G; [done|]. simplify_eq. apply orb_false_iff in G as [G1 G2]. reflect_bools.
  apply Nat.eqb_eq in G1.
  assert (Forall is_byte raw) as Hraw.
  { unfold b64_DecodeString in E. apply bind_Some in E as (l & Hl & Ho). eapply b64_octets_bytes; [|exact Ho].
    apply mapM_Some in Hl. clear -Hl. induction Hl; constructor; eauto using b64value_sextet. }
  rewrite <- G2. split; [|destruct raw; [done|apply b64_Encode_nonempty]].
  assert (Forall (λ c, 33 ≤ c < 127) (b64char <$> b64_sextets raw)) as Hv.
  { apply Forall_fmap. eapply Forall_impl; [by apply b64_sextets_range|]. intros v Hs%b64char_range. simpl. lia. }
  unfold visible, b64_EncodeToString. rewrite bytes_of_bytes; [done|].
  eapply Forall_impl; [exact Hv|]. unfold is_byte. intros c ?. simpl in *. lia.
Qed.

(** ** The client the configuration gives *)
Lemma newResourceClient_Ok home files cfg api cfg' :
  newResourceClient home files cfg = Ok (api, cfg') →
  ∃ token parsed su,
    loadCredential (files (cfg_credentialPath cfg')) = Ok token ∧
    Parse (bytes (cfg_endpoint cfg')) = Ok parsed ∧ loopback_host (u_Host parsed) ∧
    Parse (gc_Server api) = Ok su ∧ server_URL (u_Host parsed) su ∧ gc_RequestEditors api = [bearer token].
Proof.
  unfold newResourceClient. intros H. apply bind_Ok in H as (c & Hc & H). apply bind_Ok in H as (token & Ht & H).
  apply bind_Ok in H as (api' & Ha & [= -> ->]). apply wrap_err_Ok in Ha.
  unfold NewClient in Ha. cbn [apply_options mbind result_bind WithRequestEditorFn gc_Server gc_RequestEditors app] in Ha.
  unfold normalized in Hc. set (ep := if cfg_endpoint cfg ==? "" then _ else _) in Hc.
  destruct (Parse (bytes ep)) as [parsed|] eqn:HP; [|done].
  destruct (_ || _ || _ || _ || _) eqn:G; [done|]. reflect_bools.
  destruct (_ || _ || _) eqn:N; [|done]. apply bind_Ok in Hc as (path & _ & [= <-]). cbn [cfg_endpoint cfg_credentialPath] in *.
  exists token, parsed.
  destruct (endpoint_server (bytes ep) parsed) as (Hl & su & Hsu & Hserver); try done; try (by apply dec_stable).
  { apply orb_true_iff in N as [[N|N]%orb_true_iff|N]; reflect_bools; unfold accepted_name; auto. }
  exists su. split; [done|]. split; [done|]. split; [done|].
  assert (gc_Server api = slash_server (bytes ep) ∧ gc_RequestEditors api = [bearer token]) as [-> ->].
  { unfold slash_server. injection Ha as <-. cbn [gc_Server gc_RequestEditors]. by case_bool_decide. }
  done.
Qed.
