(* ===== verification/EniPolicy.v ===== *)
(** Markers and source checks of instance interfaces:
    [internal/network/topology/eni_policy_linux.go], the functions that need no
    kernel.

    The router's end of an interface is a link [ve<index>]; its alias records the
    interface, its address, its hardware address and the namespace of its other
    end.  From the aliases of all links the engine renders one nftables table that
    admits a packet from such a link only with the recorded source address. *)

From S2P Require Import Prelude Errors GoStrings Encodings Utf8 NetIP Netns Mac Model.
Local Open Scope Z_scope.

Definition eniPolicyComment : string := "nephos:m1".

Record eniIdentity := MkIdentity { id_ID : string; id_IP : Addr; id_MAC : string; id_Namespace : Z }.
#[export] Instance eniIdentity_eq_dec : EqDecision eniIdentity.
Proof. solve_decision. Defined.

Definition eniLinkName (index : Z) : result string :=
  if (index <? 1) || (9999999999999 <? index)
  then Err (Errorf (Sprintf "ENI index %d exceeds the kernel name budget" [FormatInt index]))
  else Ok ("ve" +:+ FormatInt index).

Definition canonicalENILink (name : string) : bool :=
  match CutPrefix name "ve" with
  | None => false
  | Some digits =>
      match ParseInt digits with
      | None => false
      | Some index => match eniLinkName index with Ok canonical => canonical ==? name | Err _ => false end
      end
  end.

Definition eniAlias (eni : ENI) (inode : Z) : string :=
  "nephos:eni:" +:+ ENI_ID eni +:+ " " +:+ Addr_String (ENI_PrivateIP eni) +:+ " " +:+
  ENI_MACAddress eni +:+ " " +:+ FormatInt inode.

(** [strings.Fields]: the maximal runs of runes that are no white space. *)
Fixpoint fields_from (rs cur : list rune) : list string :=
  match rs with
  | [] => match cur with [] => [] | _ => [of_bytes (runes_bytes cur)] end
  | r :: rs' =>
      if IsSpace (r_code r)
      then match cur with [] => fields_from rs' [] | _ => of_bytes (runes_bytes cur) :: fields_from rs' [] end
      else fields_from rs' (cur ++ [r])
  end.
Definition Fields (s : string) : list string := fields_from (decode (bytes s)) [].

Definition parseENIAlias (alias : string) : result eniIdentity :=
  match Fields alias with
  | [f0; f1; f2; f3] =>
      let invalid := Errorf (lit "invalid ENI ownership ID") in
      id ← of_option invalid (CutPrefix f0 "nephos:eni:");
      require ((slen id =? 21) && HasPrefix id "eni-") invalid ;;
      require (forallb (λ ch, ((48 <=? ch) && (ch <=? 57)) || ((97 <=? ch) && (ch <=? 102)))
                 (range_runes (of_bytes (drop 4 (bytes id))))) invalid ;;
      ip ← wrap_err (lit "decode ENI marker IP: %w")
             (of_option (ErrIO ("ParseAddr: " +:+ f1)) (ParseAddr f1));
      require (Is4 ip) (Errorf (lit "ENI marker IP is not IPv4")) ;;
      mac ← wrap_err (lit "decode ENI marker MAC: %w") (ParseMAC f2);
      require ((Z.of_nat (length mac) =? 6) && (Z.land (nth 0 mac 0) 3 =? 2)) (Errorf (lit "invalid ENI marker MAC")) ;;
      inode ← wrap_err (lit "decode ENI namespace inode: %w")
                (of_option (ErrIO ("strconv.ParseUint: " +:+ f3)) (ParseUint f3 64));
      require (negb (inode =? 0)) (Errorf (lit "invalid ENI namespace inode")) ;;
      Ok (MkIdentity id ip (HardwareAddr_String mac) inode)
  | _ => Err (Errorf (Sprintf "foreign ENI ownership marker %q" [alias]))
  end.

(** ** Rendering *)
Definition nl : string := String (char_of 10) "".
Definition element (name : string) (record : eniIdentity) : string :=
  Quote name +:+ " . " +:+ Addr_String (id_IP record).
Fixpoint join_elements (l : list string) : string :=
  match l with
  | [] => ""
  | [e] => e
  | e :: l' => e +:+ ", " +:+ join_elements l'
  end.

(** The first entry, in the order in which the map is visited, that is not one. *)
Fixpoint check_records (visit : list (string * eniIdentity)) : result unit :=
  match visit with
  | [] => Ok tt
  | (name, record) :: visit' =>
      if negb (canonicalENILink name) || negb (Is4 (id_IP record))
      then Err (Errorf (Sprintf "invalid source-check interface or address %q" [name]))
      else check_records visit'
  end.

Definition table_head (exists_ : bool) : string :=
  (if exists_ then "delete table inet nephos" +:+ nl else "") +:+
  "table inet nephos {" +:+ nl +:+ " comment " +:+ dquote +:+ eniPolicyComment +:+ dquote +:+ nl +:+
  " set eni_sources {" +:+ nl +:+ " type ifname . ipv4_addr" +:+ nl.
Definition table_tail : string :=
  " }" +:+ nl +:+ " chain source_check {" +:+ nl +:+
  " type filter hook prerouting priority -300; policy accept;" +:+ nl +:+
  " iifname . ip saddr @eni_sources return" +:+ nl +:+
  " iifname " +:+ dquote +:+ "ve*" +:+ dquote +:+ " counter drop comment " +:+ dquote +:+ "nephos:anti-spoof" +:+ dquote +:+ nl +:+
  " }" +:+ nl +:+ "}" +:+ nl.

(** [visit] is the order in which [range] visits the map [records]. *)
Definition renderENISourceChecks (visit : list (string * eniIdentity)) (records : gmap string eniIdentity)
    (exists_ : bool) : result string :=
  check_records visit ;;
  let names := merge_sort String.le visit.*1 in
  let elements := (λ name, element name (default (MkIdentity "" AddrZero "" 0) (records !! name))) <$> names in
  Ok (table_head exists_ +:+
      (match names with [] => "" | _ => " elements = { " +:+ join_elements elements +:+ " }" +:+ nl end) +:+
      table_tail).

(** ** Names *)
Lemma eniLinkName_Ok index name :
  eniLinkName index = Ok name ↔ 1 ≤ index ≤ 9999999999999 ∧ name = "ve" +:+ FormatInt index.
Proof.
  unfold eniLinkName. destruct (_ || _) eqn:E.
  - apply orb_true_iff in E. split; [done|]. intros [? _]. destruct E; reflect_bools; lia.
  - reflect_bools. split; [intros [= <-]; split; [lia|done]|]. by intros [_ ->].
Qed.
Lemma canonicalENILink_iff name : canonicalENILink name = true ↔ ∃ index, eniLinkName index = Ok name.
Proof.
  unfold canonicalENILink. split.
  - destruct (CutPrefix name "ve") as [digits|]; [|done]. destruct (ParseInt digits) as [index|]; [|done].
    destruct (eniLinkName index) as [c|] eqn:E; [|done]. intros H. apply beq_true in H as ->. eauto.
  - intros [index Hn]. pose proof Hn as [Hi ->]%eniLinkName_Ok. rewrite CutPrefix_app, ParseInt_FormatInt by lia.
    rewrite Hn. apply beq_refl.
Qed.
Lemma eniLinkName_inj i j name : eniLinkName i = Ok name → eniLinkName j = Ok name → i = j.
Proof.
  intros [Hi ->]%eniLinkName_Ok [Hj Hn]%eniLinkName_Ok. apply (inj _) in Hn. apply FormatInt_inj; [lia..|done].
Qed.

(** ** Markers *)
Definition word (s : string) : Prop := s ≠ "" ∧ Forall (λ b, 33 ≤ b < 127) (bytes s).

Lemma decode_ascii_cons b l : 0 ≤ b < 128 → decode (b :: l) = MkRune b [b] true :: decode l.
Proof.
  intros Hb. rewrite decode_cons. unfold decode_rune. rewrite (proj2 (Z.ltb_lt b 128)) by lia. done.
Qed.
Lemma IsSpace_word b : 33 ≤ b < 127 → IsSpace b = false.
Proof.
  intros Hb. unfold IsSpace, between.
  repeat (apply orb_false_iff; split); first [apply Z.eqb_neq; lia | apply andb_false_iff; first [left; apply Z.leb_gt; lia | right; apply Z.leb_gt; lia]].
Qed.
Lemma fields_word l rest cur :
  Forall (λ b, 33 ≤ b < 127) l →
  fields_from (decode (l ++ rest)) cur = fields_from (decode rest) (cur ++ ((λ b, MkRune b [b] true) <$> l)).
Proof.
  intros H. revert cur. induction H as [|b l Hb Hl IH]; intros cur; cbn [app fmap list_fmap]; [by rewrite app_nil_r|].
  rewrite decode_ascii_cons by lia. cbn [fields_from r_code]. rewrite IsSpace_word by done. rewrite IH, <- app_assoc. done.
Qed.
Lemma runes_of_ascii l : runes_bytes ((λ b, MkRune b [b] true) <$> l) = l.
Proof. induction l as [|b l IH]; [done|]. cbn. by rewrite IH. Qed.
Lemma Fields_word s rest : word s → fields_from (decode (bytes s ++ 32 :: rest)) [] = s :: fields_from (decode rest) [].
Proof.
  intros [Hne Hs]. rewrite fields_word by done. rewrite decode_ascii_cons by lia. cbn [fields_from r_code app].
  change (IsSpace 32) with true. cbv iota.
  destruct s as [|c s]; [done|]. cbn [bytes fmap list_fmap]. f_equal.
  change (MkRune (byte_of c) [byte_of c] true :: _) with ((λ b, MkRune b [b] true) <$> bytes (String c s)).
  by rewrite runes_of_ascii, of_bytes_bytes.
Qed.
Lemma Fields_last s : word s → fields_from (decode (bytes s)) [] = [s].
Proof.
  intros [Hne Hs]. rewrite <- (app_nil_r (bytes s)), fields_word by done. change (decode []) with (@nil rune). cbn [fields_from app].
  destruct s as [|c s]; [done|]. cbn [bytes fmap list_fmap].
  change (MkRune (byte_of c) [byte_of c] true :: _) with ((λ b, MkRune b [b] true) <$> bytes (String c s)).
  by rewrite runes_of_ascii, of_bytes_bytes.
Qed.
Lemma Fields_four a b c d :
  word a → word b → word c → word d → Fields (a +:+ " " +:+ b +:+ " " +:+ c +:+ " " +:+ d) = [a; b; c; d].
Proof.
  intros Ha Hb Hc Hd. unfold Fields. rewrite !bytes_app. change (bytes " ") with [32]. cbn [app].
  by rewrite !Fields_word, Fields_last.
Qed.

(** What the service gives an interface. *)
Definition eni_id_shape (id : string) : Prop :=
  ∃ hex, id = "eni-" +:+ hex ∧ String.length hex = 17%nat ∧ forallb is_hex_lower (bytes hex) = true.
Definition mac_shape (s : string) : Prop :=
  ∃ mac, s = HardwareAddr_String mac ∧ length mac = 6%nat ∧ Forall is_byte mac ∧ Z.land (nth 0 mac 0) 3 = 2.
Definition ip_shape (a : Addr) : Prop := ∃ v, a = Addr4 v ∧ 0 ≤ v < 2 ^ 32.
Definition markable (eni : ENI) : Prop :=
  eni_id_shape (ENI_ID eni) ∧ ip_shape (ENI_PrivateIP eni) ∧ mac_shape (ENI_MACAddress eni).
Definition well_formed (r : eniIdentity) : Prop :=
  eni_id_shape (id_ID r) ∧ ip_shape (id_IP r) ∧ mac_shape (id_MAC r) ∧ 1 ≤ id_Namespace r < 2 ^ 64.

Lemma hex_word hex : forallb is_hex_lower (bytes hex) = true → Forall (λ b, 33 ≤ b < 127) (bytes hex).
Proof.
  intros H. apply Forall_forall. intros b Hb%list_elem_of_In. rewrite forallb_forall in H. apply H in Hb.
  unfold is_hex_lower, is_digit in Hb. apply orb_true_iff in Hb as [Hb|Hb]; reflect_bools; lia.
Qed.
Lemma word_app s t : s ≠ "" → Forall (λ b, 33 ≤ b < 127) (bytes s) → Forall (λ b, 33 ≤ b < 127) (bytes t) → word (s +:+ t).
Proof. intros Hn Hs Ht. split; [by destruct s|]. rewrite bytes_app. by apply Forall_app. Qed.
Lemma Addr4_chars v : 0 ≤ v < 2 ^ 32 → Forall (λ b, 46 ≤ b ≤ 57) (bytes (Addr4_String v)).
Proof.
  intros Hv. pose proof (quad_range v Hv) as Hq. unfold quad in Hq. rewrite !Forall_cons in Hq. destruct Hq as (? & ? & ? & ? & _).
  assert (∀ n, 0 ≤ n < 256 → Forall (λ b, 46 ≤ b ≤ 57) (bytes (FormatInt n))) as Hd.
  { intros n Hn. eapply Forall_impl; [by apply FormatInt_digits|]. cbn. lia. }
  assert (Forall (λ b, 46 ≤ b ≤ 57) (bytes dot)) as Hdot by (repeat constructor; vm_compute; congruence).
  unfold Addr4_String. rewrite !bytes_app. repeat apply Forall_app_2; auto.
Qed.
Lemma word_Addr4 v : 0 ≤ v < 2 ^ 32 → word (Addr4_String v).
Proof.
  intros Hv. split; [|eapply Forall_impl; [by apply Addr4_chars|]; cbn; lia]. unfold Addr4_String.
  pose proof (quad_range v Hv) as Hq. apply Forall_cons in Hq as [Ha _].
  pose proof (FormatInt_bytes_nonempty _ Ha) as Hn. by destruct (FormatInt (v / 2 ^ 24)).
Qed.
Lemma word_MAC mac : length mac = 6%nat → Forall is_byte mac → word (HardwareAddr_String mac).
Proof.
  intros Hl Hb. unfold HardwareAddr_String. split.
  - destruct mac as [|a [|b l]]; done.
  - rewrite bytes_of_bytes by by apply mac_bytes_byte. clear Hl.
    assert (∀ d, 0 ≤ d < 16 → 33 ≤ hexchar d < 127) as Hc.
    { intros d Hd. unfold hexchar. case_match; reflect_bools; lia. }
    induction Hb as [|b l Hb Hl IH]; [constructor|]. unfold is_byte in Hb.
    assert (0 ≤ b / 16 < 16 ∧ 0 ≤ b mod 16 < 16) as [??] by div_lia.
    destruct l as [|c l]; repeat (apply Forall_cons; split); auto. lia.
Qed.
Lemma digits_FormatInt n : 0 ≤ n < 2 ^ 64 → Forall (λ b, 48 ≤ b ≤ 57) (bytes (FormatInt n)).
Proof.
  intros Hn. unfold FormatInt. rewrite (proj2 (Z.ltb_ge n 0)) by lia.
  pose proof (ParseUint_format n 64 Hn ltac:(lia)) as Hp. unfold ParseUint in Hp. case_match; [done|].
  destruct (parse_digits _ 0) eqn:E; [|done]. clear -E. revert E. generalize 0 as acc.
  induction (bytes (format_digits 20 n "")) as [|b l IH]; intros acc E; [constructor|]. cbn in E.
  destruct (is_digit b) eqn:Ed; [|done]. unfold is_digit in Ed. reflect_bools. constructor; [lia|by eapply IH].
Qed.
Lemma word_FormatInt n : 0 ≤ n < 2 ^ 64 → word (FormatInt n).
Proof.
  intros Hn. split; [|eapply Forall_impl; [by apply digits_FormatInt|]; cbn; lia].
  unfold FormatInt. rewrite (proj2 (Z.ltb_ge n 0)) by lia.
  destruct (format_digits_nonempty 20 n "") as (c & s & Hcs & _); [done|]. by rewrite Hcs.
Qed.
Lemma range_words l : Forall (λ b, 33 ≤ b < 127) l → r_code <$> decode l = l.
Proof.
  induction 1 as [|b l Hb Hl IH]; [done|]. rewrite decode_ascii_cons by lia. rewrite fmap_cons. cbn. by rewrite IH.
Qed.
Lemma parse_eniAlias eni inode :
  markable eni → 1 ≤ inode < 2 ^ 64 →
  parseENIAlias (eniAlias eni inode) =
  Ok (MkIdentity (ENI_ID eni) (ENI_PrivateIP eni) (ENI_MACAddress eni) inode).
Proof.
  intros ((hex & Hid & Hlen & Hhex) & (v & Hip & Hv) & mac & Hm & Hl & Hb & Hu) Hi.
  unfold parseENIAlias, eniAlias. rewrite Hid, Hip, Hm. cbn [Addr_String].
  rewrite <- (string_app_assoc "nephos:eni:").
  rewrite Fields_four; [|rewrite <- string_app_assoc; apply word_app; [done|repeat constructor; vm_compute; congruence|by apply hex_word]
    |by apply word_Addr4|by apply word_MAC|apply word_FormatInt; lia].
  rewrite CutPrefix_app. cbn [of_option mbind result_bind].
  assert (slen ("eni-" +:+ hex) = 21) as ->.
  { unfold slen. rewrite length_string_app, Hlen. done. }
  rewrite (proj2 (HasPrefix_spec ("eni-" +:+ hex) "eni-")) by eauto. cbn [Z.eqb Pos.eqb andb require mbind result_bind].
  rewrite bytes_app. change (drop 4 (bytes "eni-" ++ bytes hex)) with (bytes hex). rewrite of_bytes_bytes.
  assert (forallb is_hex_lower (range_runes hex) = true) as Hrunes by (unfold range_runes; by rewrite range_words by by apply hex_word).
  unfold is_hex_lower, is_digit in Hrunes. rewrite Hrunes. cbn [require mbind result_bind].
  rewrite ParseAddr_Addr4_String by done. cbn [of_option wrap_err mbind result_bind Is4 require].
  rewrite ParseMAC_String by done. cbn [wrap_err mbind result_bind]. rewrite Hl, Hu.
  cbn [Z.of_nat Z.eqb Pos.eqb andb Pos.of_succ_nat Pos.succ require mbind result_bind].
  unfold FormatInt. rewrite (proj2 (Z.ltb_ge inode 0)), ParseUint_format by lia.
  cbn [of_option wrap_err mbind result_bind]. by rewrite (proj2 (Z.eqb_neq inode 0)) by lia.
Qed.

(** A marker that is accepted says something well formed. *)
Lemma hexval_range c d : hexval c = Some d → 0 ≤ d < 16.
Proof. unfold hexval, is_digit. repeat case_match; intros [= <-]; reflect_bools; lia. Qed.
Lemma xtoi2_byte s e b : xtoi2 s e = Some b → is_byte b.
Proof.
  assert (∀ a b' c, (h ← hexval a; l ← hexval b'; Some (16 * h + l)) = Some c → is_byte c) as H.
  { intros a b' c H. destruct (hexval a) as [h|] eqn:E1; [|done]. destruct (hexval b') as [l|] eqn:E2; [|done].
    injection H as <-. apply hexval_range in E1, E2. unfold is_byte. lia. }
  unfold xtoi2. destruct s as [|a [|b' [|c s]]]; try done; [by apply H|]. case_match; [by apply H|done].
Qed.
Lemma mac_groups_byte n s e l : mac_groups n s e = Some l → Forall is_byte l.
Proof.
  revert s l. induction n as [|n IH]; cbn [mac_groups]; intros s l H; [by injection H as <-|].
  destruct (xtoi2 s e) eqn:E1; [|done]. cbn in H. destruct (mac_groups n (drop 3 s) e) eqn:E2; [|done].
  injection H as <-. constructor; [by eapply xtoi2_byte|by eapply IH].
Qed.
Lemma mac_dotted_byte n s e l : mac_dotted n s e = Some l → Forall is_byte l.
Proof.
  revert s l. induction n as [|n IH]; cbn [mac_dotted]; intros s l H; [by injection H as <-|].
  destruct (xtoi2 (take 2 s) 0) eqn:E1; [|done]. cbn [mbind option_bind] in H. destruct (xtoi2 (drop 2 s) e) eqn:E3; [|done].
  cbn [mbind option_bind] in H. destruct (mac_dotted n (drop 5 s) e) eqn:E2; [|done].
  injection H as <-. repeat constructor; [by eapply xtoi2_byte..|by eapply IH].
Qed.
Lemma ParseMAC_byte s l : ParseMAC s = Ok l → Forall is_byte l.
Proof.
  unfold ParseMAC. intros H%of_option_Ok. unfold ParseMAC_bytes in H. repeat case_match; try done;
    [by eapply mac_groups_byte|by eapply mac_dotted_byte].
Qed.
Lemma parse_digits_ge l acc n : 0 ≤ acc → parse_digits l acc = Some n → 0 ≤ n.
Proof.
  revert acc. induction l as [|b l IH]; cbn; intros acc Ha H; [by injection H as <-|].
  destruct (is_digit b) eqn:E; [|done]. unfold is_digit in E. reflect_bools. eapply IH; [|exact H]. lia.
Qed.
Lemma ParseUint_range s bits n : ParseUint s bits = Some n → 0 ≤ n < 2 ^ bits.
Proof.
  unfold ParseUint. case_match; [done|]. destruct (parse_digits _ _) as [k|] eqn:E; [|done]. case_match; [|done].
  intros [= <-]. reflect_bools. split; [|done]. by eapply parse_digits_ge in E.
Qed.

Lemma decode_rune_small b0 l r rest : decode_rune b0 l = (r, rest) → 0 ≤ r_code r < 128 → r = MkRune b0 [b0] true ∧ rest = l.
Proof.
  intros E Hr. destruct (r_valid r) eqn:Hv.
  - apply decode_rune_shape in E; [|done].
    destruct E as [(? & -> & ->)|[(? & ? & ? & ->)|[(? & ? & ? & ? & ? & ? & ->)|(? & ? & ? & ? & ? & ? & ? & ? & ->)]]]; cbn in Hr; [done|lia..].
  - exfalso. unfold decode_rune in E. repeat case_match; simplify_eq/=; lia.
Qed.
Lemma ascii_runes_bytes l : Forall (λ r, 0 ≤ r < 128) (r_code <$> decode l) → r_code <$> decode l = l.
Proof.
  induction l as [|b0 l r rest E IH] using decode_ind; [done|]. rewrite decode_cons, E, fmap_cons.
  intros [Hr Hrest]%Forall_cons. destruct (decode_rune_small _ _ _ _ E Hr) as [-> ->]. cbn. f_equal. by apply IH.
Qed.
Lemma id_shape_runes id :
  slen id = 21 → HasPrefix id "eni-" = true → forallb is_hex_lower (range_runes (of_bytes (drop 4 (bytes id)))) = true →
  eni_id_shape id.
Proof.
  intros Hs [hex ->]%HasPrefix_spec. unfold slen in Hs. rewrite length_string_app in Hs. cbn [String.length] in Hs.
  rewrite bytes_app. change (drop 4 (bytes "eni-" ++ bytes hex)) with (bytes hex). rewrite of_bytes_bytes.
  unfold range_runes. intros H. rewrite ascii_runes_bytes in H.
  - exists hex. split; [done|]. split; [lia|done].
  - apply Forall_forall. intros r Hr%list_elem_of_In. rewrite forallb_forall in H. apply H in Hr.
    unfold is_hex_lower, is_digit in Hr. apply orb_true_iff in Hr as [Hr|Hr]; reflect_bools; lia.
Qed.
Lemma parse_well_formed alias r : parseENIAlias alias = Ok r → well_formed r.
Proof.
  unfold parseENIAlias. destruct (Fields alias) as [|f0 [|f1 [|f2 [|f3 [|]]]]]; try done. cbv zeta. intros H. inv_ok.
  subst r. unfold well_formed. cbn [id_ID id_IP id_MAC id_Namespace]. reflect_bools. split_and!.
  - by apply id_shape_runes.
  - match goal with H : Is4 ?a = true, H' : ParseAddr _ = Some ?a |- _ => destruct a as [|v|]; try done; exists v; by eapply parseAddrBytes_4 in H' end.
  - match goal with H : ParseMAC _ = Ok ?m |- _ => exists m; split_and!; [done|lia|by eapply ParseMAC_byte|done] end.
  - match goal with H : ParseUint _ _ = Some ?n |- _ => apply ParseUint_range in H; lia end.
  - match goal with H : ParseUint _ _ = Some ?n |- _ => apply ParseUint_range in H; lia end.
Qed.

(** ** Scripts *)
Definition admissible (p : string * eniIdentity) : Prop := canonicalENILink p.1 = true ∧ Is4 (id_IP p.2) = true.
Lemma check_records_Ok visit : check_records visit = Ok tt ↔ Forall admissible visit.
Proof.
  induction visit as [|[name r] visit IH]; cbn [check_records]; [split; [constructor|done]|]. rewrite Forall_cons, <- IH.
  unfold admissible. cbn [fst snd]. destruct (canonicalENILink name), (Is4 (id_IP r)); cbn; naive_solver.
Qed.
Lemma sorted_names (l k : list string) : l ≡ₚ k → merge_sort String.le l = merge_sort String.le k.
Proof.
  intros H. apply (StronglySorted_unique String.le); [by apply StronglySorted_merge_sort; apply _..|]. by rewrite !merge_sort_Permutation.
Qed.
Lemma sorted_records visit (m : gmap string eniIdentity) name :
  visit ≡ₚ map_to_list m → name ∈ merge_sort String.le visit.*1 ↔ is_Some (m !! name).
Proof.
  intros Hv. rewrite merge_sort_Permutation, Hv, list_elem_of_fmap. split.
  - intros ([n r] & -> & Hr%elem_of_map_to_list). cbn. by rewrite Hr.
  - intros [r Hr]. exists (name, r). split; [done|]. by apply elem_of_map_to_list.
Qed.

Lemma split_at_none b x : b ∉ x → split_at b x = None.
Proof.
  induction x as [|a x IH]; [done|]. intros H. cbn [split_at]. rewrite (proj2 (Z.eqb_neq a b)) by set_solver. rewrite IH by set_solver. done.
Qed.
Lemma join_inj l k :
  Forall (λ e, 44 ∉ bytes e) l → Forall (λ e, 44 ∉ bytes e) k → l ≠ [] → k ≠ [] →
  join_elements l = join_elements k → l = k.
Proof.
  assert (∀ e l', l' ≠ [] → bytes (join_elements (e :: l')) = bytes e ++ 44 :: 32 :: bytes (join_elements l')) as Hcons.
  { intros e [|e' l'] H; [done|]. cbn [join_elements]. by rewrite !bytes_app. }
  intros Hl. revert k. induction Hl as [|e l He Hl IH]; intros k Hk Hl' Hk' E; [done|].
  destruct Hk as [|f k Hf Hk]; [done|]. pose proof E as Es. apply (f_equal (λ s, split_at 44 (bytes s))) in Es.
  destruct l as [|e' l], k as [|f' k].
  - cbn [join_elements] in E. by subst.
  - rewrite (Hcons f) in Es by done. cbn [join_elements] in Es. by rewrite split_at_app, split_at_none in Es.
  - rewrite (Hcons e) in Es by done. cbn [join_elements] in Es. by rewrite split_at_app, split_at_none in Es.
  - rewrite (Hcons e), (Hcons f), !split_at_app in Es by done. injection Es as Ee Er. apply bytes_inj in Ee as ->, Er. f_equal. by apply IH.
Qed.

Lemma quote_plain s : Forall (λ b, 48 ≤ b < 127 ∧ b ≠ 92) (bytes s) → quote_body s = s.
Proof.
  induction s as [|c s IH]; cbn [bytes quote_body]; [done|]. intros [[Hc Hn] Hs]%Forall_cons. rewrite IH by done.
  enough (quote_byte c = String c "") as -> by done. clear -Hc Hn. unfold byte_of in *.
  unfold quote_byte. set (n := Ascii.N_of_ascii c) in *.
  assert (∃ k, k = Z.of_N n) as [k Hk] by eauto.
  destruct ((n <? 32) || (n =? 127))%N eqn:E.
  { apply orb_true_iff in E as [E|E]; [apply N.ltb_lt in E|apply N.eqb_eq in E]; lia. }
  clear E. clearbody n. destruct n as [|q]; [lia|]. do 7 (destruct q as [q|q|]; try reflexivity; try lia).
Qed.
Lemma link_plain name : canonicalENILink name = true → Forall (λ b, 48 ≤ b < 127 ∧ b ≠ 92 ∧ b ≠ 44) (bytes name).
Proof.
  intros (index & [Hi ->]%eniLinkName_Ok)%canonicalENILink_iff. rewrite bytes_app. apply Forall_app. split; [repeat constructor; vm_compute; congruence|].
  eapply Forall_impl; [apply digits_FormatInt; lia|]. cbn. lia.
Qed.

Lemma element_bytes name r v :
  canonicalENILink name = true → id_IP r = Addr4 v →
  bytes (element name r) = 34 :: bytes name ++ 34 :: bytes " . " ++ bytes (Addr4_String v).
Proof.
  intros Hn Hr. unfold element, Quote. rewrite Hr. cbn [Addr_String]. rewrite quote_plain.
  - rewrite !bytes_app, <- !app_assoc. done.
  - eapply Forall_impl; [by apply link_plain|]. naive_solver.
Qed.
Definition record_ok (r : eniIdentity) : Prop := ip_shape (id_IP r).
Lemma element_comma name r : canonicalENILink name = true → record_ok r → 44 ∉ bytes (element name r).
Proof.
  intros Hn (v & Hr & Hv). rewrite (element_bytes _ _ v) by done. pose proof (link_plain name Hn) as Hp.
  pose proof (Addr4_chars v Hv) as Hw. rewrite Forall_forall in Hp, Hw.
  intros [|[H|H]%elem_of_app]%elem_of_cons; [lia|by apply Hp in H as (_ & _ & ?)|].
  apply elem_of_cons in H as [|[H|H]%elem_of_app]; [lia|vm_compute in H; set_solver|apply Hw in H; lia].
Qed.
Lemma element_inj n n' r r' :
  canonicalENILink n = true → canonicalENILink n' = true → record_ok r → record_ok r' →
  element n r = element n' r' → n = n' ∧ id_IP r = id_IP r'.
Proof.
  intros Hn Hn' (v & Hr & Hv) (v' & Hr' & Hv') E. apply (f_equal bytes) in E.
  rewrite (element_bytes _ _ v), (element_bytes _ _ v') in E by done. injection E as E.
  assert (∀ m, canonicalENILink m = true → 34 ∉ bytes m) as Hq.
  { intros m Hm Hin. pose proof (link_plain m Hm) as Hp. rewrite Forall_forall in Hp. apply Hp in Hin. lia. }
  apply (f_equal (split_at 34)) in E. rewrite !split_at_app in E by auto. injection E as En Ev.
  apply bytes_inj in En as ->. apply bytes_inj in Ev. apply (f_equal ParseAddr) in Ev.
  rewrite !ParseAddr_Addr4_String in Ev by done. split; [done|]. congruence.
Qed.
Lemma elements_inj (f g : string → eniIdentity) (l k : list string) :
  (∀ n, n ∈ l → canonicalENILink n = true ∧ record_ok (f n)) → (∀ n, n ∈ k → canonicalENILink n = true ∧ record_ok (g n)) →
  (λ n, element n (f n)) <$> l = (λ n, element n (g n)) <$> k → l = k ∧ ∀ n, n ∈ l → id_IP (f n) = id_IP (g n).
Proof.
  revert k. induction l as [|n l IH]; intros [|n' k] Hl Hk E; try done; [split; [done|set_solver]|].
  rewrite !fmap_cons in E. apply (inj2 cons) in E as [E1 E2].
  destruct (Hl n ltac:(left)), (Hk n' ltac:(left)). apply element_inj in E1 as [-> Hip]; [|done..].
  destruct (IH k) as [-> Hrest]; [set_solver..|]. split; [done|]. intros m [->|Hm]%elem_of_cons; auto.
Qed.

Lemma render_Ok visit records exists_ script :
  visit ≡ₚ map_to_list records → renderENISourceChecks visit records exists_ = Ok script →
  map_Forall (λ n r, canonicalENILink n = true ∧ Is4 (id_IP r) = true) records.
Proof.
  intros Hv H. unfold renderENISourceChecks in H. destruct (check_records visit) as [[]|] eqn:E; [|done].
  apply check_records_Ok in E. rewrite Hv, Forall_forall in E. intros n r Hn. apply (E (n, r)). by apply elem_of_map_to_list.
Qed.
Lemma render_order visit visit' records exists_ script :
  visit ≡ₚ map_to_list records → visit' ≡ₚ map_to_list records →
  renderENISourceChecks visit records exists_ = Ok script → renderENISourceChecks visit' records exists_ = Ok script.
Proof.
  intros Hv Hv' H. unfold renderENISourceChecks in *. destruct (check_records visit) as [[]|] eqn:E; [|done].
  apply check_records_Ok in E. rewrite Hv, <- Hv' in E. apply check_records_Ok in E as ->. rewrite <- H.
  cbn [mbind result_bind]. rewrite (sorted_names visit'.*1 visit.*1); [done|]. by rewrite Hv, Hv'.
Qed.

Lemma string_app_inv_r s t u : s +:+ u = t +:+ u → s = t.
Proof. intros H%(f_equal bytes). rewrite !bytes_app in H. by apply app_inv_tail, bytes_inj in H. Qed.

(** The set of a script is read off its text. *)
Lemma elements_text (l k : list string) (x y : list string) :
  (l = [] ↔ x = []) → (k = [] ↔ y = []) →
  Forall (λ e, 44 ∉ bytes e) x → Forall (λ e, 44 ∉ bytes e) y →
  match l with [] => "" | _ => " elements = { " +:+ join_elements x +:+ " }" +:+ nl end =
  match k with [] => "" | _ => " elements = { " +:+ join_elements y +:+ " }" +:+ nl end → x = y.
Proof.
  intros Hl Hk Hx Hy E. destruct l, k; try done; [by rewrite (proj1 Hl), (proj1 Hk)|].
  apply (inj (String.append _)) in E. apply string_app_inv_r in E. apply join_inj; [done|done|naive_solver..|done].
Qed.
Lemma fmap_nil_iff' {A B} (f : A → B) l : l = [] ↔ f <$> l = [].
Proof. by destruct l. Qed.

Definition all_records (records : gmap string eniIdentity) : Prop := map_Forall (λ _ r, record_ok r) records.
Lemma records_at visit records n :
  visit ≡ₚ map_to_list records → all_records records →
  map_Forall (λ n r, canonicalENILink n = true ∧ Is4 (id_IP r) = true) records →
  n ∈ merge_sort String.le visit.*1 →
  canonicalENILink n = true ∧ record_ok (default (MkIdentity "" AddrZero "" 0) (records !! n)).
Proof.
  intros Hv Ha Hr [r Hn]%(sorted_records visit records n Hv). rewrite Hn. split; [by apply (Hr n r)|by apply (Ha n r)].
Qed.
Lemma elements_comma visit records :
  visit ≡ₚ map_to_list records → all_records records →
  map_Forall (λ n r, canonicalENILink n = true ∧ Is4 (id_IP r) = true) records →
  Forall (λ e, 44 ∉ bytes e)
    ((λ n, element n (default (MkIdentity "" AddrZero "" 0) (records !! n))) <$> merge_sort String.le visit.*1).
Proof.
  intros Hv Ha Hr. apply Forall_fmap, Forall_forall. intros n Hn. destruct (records_at visit records n) as [H1 H2]; [done..|].
  by apply element_comma.
Qed.
Lemma render_inj visit visit' records records' e e' script :
  visit ≡ₚ map_to_list records → visit' ≡ₚ map_to_list records' → all_records records → all_records records' →
  renderENISourceChecks visit records e = Ok script → renderENISourceChecks visit' records' e' = Ok script →
  e = e' ∧ ∀ n, id_IP <$> records !! n = id_IP <$> records' !! n.
Proof.
  intros Hv Hv' Ha Ha' H H'. pose proof (render_Ok _ _ _ _ Hv H) as Hr. pose proof (render_Ok _ _ _ _ Hv' H') as Hr'.
  unfold renderENISourceChecks in H, H'. destruct (check_records visit) as [[]|]; [|done]. destruct (check_records visit') as [[]|]; [|done].
  cbn [mbind result_bind] in H, H'. injection H as H. injection H' as H'. rewrite <- H' in H. clear H'.
  assert (e = e') as ->. { apply (f_equal bytes) in H. rewrite !bytes_app in H. by destruct e, e'. }
  split; [done|]. apply (inj (String.append _)), string_app_inv_r in H.
  apply elements_text in H; [|apply fmap_nil_iff'|apply fmap_nil_iff'|by eapply elements_comma|by eapply elements_comma].
  apply (elements_inj (λ n, default _ (records !! n)) (λ n, default _ (records' !! n))) in H as [Hn Hip];
    [|by intros n Hn; eapply records_at|by intros n Hn; eapply records_at].
  intros n. pose proof (sorted_records visit records n Hv) as H1. pose proof (sorted_records visit' records' n Hv') as H2.
  specialize (Hip n). rewrite H1 in Hip. rewrite Hn, H2 in H1.
  destruct (records !! n) as [r|], (records' !! n) as [r'|]; cbn in *; [f_equal; by apply Hip|..|done]; exfalso.
  - destruct (proj2 H1) as [? [=]]. eauto.
  - destruct (proj1 H1) as [? [=]]. eauto.
Qed.

Lemma keys_Permutation visit visit' (m m' : gmap string eniIdentity) :
  visit ≡ₚ map_to_list m → visit' ≡ₚ map_to_list m' → (∀ n, is_Some (m !! n) ↔ is_Some (m' !! n)) → visit.*1 ≡ₚ visit'.*1.
Proof.
  intros Hv Hv' H. apply NoDup_Permutation; [rewrite Hv; apply NoDup_fst_map_to_list|rewrite Hv'; apply NoDup_fst_map_to_list|].
  intros n. rewrite <- (merge_sort_Permutation String.le visit.*1), <- (merge_sort_Permutation String.le visit'.*1).
  by rewrite (sorted_records visit m), (sorted_records visit' m').
Qed.
Lemma render_same visit visit' records records' e script :
  visit ≡ₚ map_to_list records → visit' ≡ₚ map_to_list records' →
  (∀ n, id_IP <$> records !! n = id_IP <$> records' !! n) →
  renderENISourceChecks visit records e = Ok script → renderENISourceChecks visit' records' e = Ok script.
Proof.
  intros Hv Hv' Heq H. pose proof (render_Ok _ _ _ _ Hv H) as Hr. unfold renderENISourceChecks in *.
  destruct (check_records visit) as [[]|]; [|done]. rewrite <- H.
  assert (check_records visit' = Ok tt) as ->.
  { apply check_records_Ok. rewrite Hv'. apply Forall_forall. intros [n r'] Hn%elem_of_map_to_list. specialize (Heq n).
    rewrite Hn in Heq. destruct (records !! n) as [r|] eqn:E; [|done]. destruct (Hr n r E) as [Hc H4]. cbn in Heq. injection Heq as Heq.
    split; [done|]. cbn. by rewrite <- Heq. }
  cbn [mbind result_bind]. rewrite (sorted_names visit'.*1 visit.*1).
  - set (names := merge_sort _ _). do 3 f_equal.
    assert (((λ n, element n (default (MkIdentity "" AddrZero "" 0) (records' !! n))) <$> names) =
            ((λ n, element n (default (MkIdentity "" AddrZero "" 0) (records !! n))) <$> names)) as ->; [|done].
    apply list_fmap_ext. intros _ n _. specialize (Heq n). unfold element.
    destruct (records !! n), (records' !! n); cbn in *; simplify_eq; [|done]. congruence.
  - eapply keys_Permutation; [done..|]. intros n. specialize (Heq n).
    destruct (records !! n), (records' !! n); cbn in *; simplify_eq; done.
Qed.

Lemma eniLinkName_length index name : eniLinkName index = Ok name → slen name ≤ 15.
Proof.
  intros [Hi ->]%eniLinkName_Ok. unfold slen. rewrite length_string_app.
  unfold FormatInt. rewrite (proj2 (Z.ltb_ge _ _)) by lia.
  pose proof (length_format_digits 20 index "" 13 ltac:(simpl; lia) ltac:(lia) ltac:(lia)).
  change (String.length "ve") with 2%nat. change (String.length "") with 0%nat in *. lia.
Qed.

(** ** Properties *)

(** A marker names its interface: of an interface as the service makes it,
    the marker that the engine writes on a link is read back as the same
    identifier, address, hardware address and namespace.  Whatever text an alias
    holds, what is accepted is well formed: an identifier of an interface, an IPv4
    address, a canonical local unicast hardware address and a namespace other than
    0.  Link names are exactly those the engine makes of an index, one per index,
    and fit the kernel's 15 bytes. *)
Lemma markers_identify_interfaces eni inode :
  markable eni → 1 ≤ inode < 2 ^ 64 →
  parseENIAlias (eniAlias eni inode) = Ok (MkIdentity (ENI_ID eni) (ENI_PrivateIP eni) (ENI_MACAddress eni) inode) ∧
  (∀ alias r, parseENIAlias alias = Ok r → well_formed r) ∧
  (∀ name, canonicalENILink name = true ↔ ∃ index, eniLinkName index = Ok name) ∧
  (∀ i j name, eniLinkName i = Ok name → eniLinkName j = Ok name → i = j ∧ slen name ≤ 15).
Proof.
  intros Hm Hi. split_and!; [by apply parse_eniAlias|apply parse_well_formed|apply canonicalENILink_iff|].
  intros i j name H1 H2. split; [by eapply eniLinkName_inj|by eapply eniLinkName_length].
Qed.

(** The source-check script is rendered exactly when every interface has a
    canonical link name and an IPv4 address, whatever the order in which the map is
    visited; and the script determines, for every link name, which address it
    admits: two sets of interfaces with the same script admit the same pairs. *)
Lemma source_checks_are_exact visit visit' records records' e e' :
  visit ≡ₚ map_to_list records → visit' ≡ₚ map_to_list records' →
  map_Forall (λ _ r, well_formed r) records → map_Forall (λ _ r, well_formed r) records' →
  (is_Ok (renderENISourceChecks visit records e) = true ↔ map_Forall (λ n _, canonicalENILink n = true) records) ∧
  (∀ script, renderENISourceChecks visit records e = Ok script →
     (∀ order, order ≡ₚ map_to_list records → renderENISourceChecks order records e = Ok script) ∧
     (renderENISourceChecks visit' records' e' = Ok script ↔
        e = e' ∧ ∀ n, id_IP <$> records !! n = id_IP <$> records' !! n)).
Proof.
  intros Hv Hv' Hw Hw'.
  assert (∀ m, map_Forall (λ _ r, well_formed r) m → all_records m) as Hall by (intros m H n r Hn; by apply (H n r)).
  split.
  - unfold renderENISourceChecks. destruct (check_records visit) as [[]|] eqn:E.
    + apply check_records_Ok in E. rewrite Hv, Forall_forall in E. split; [|done]. intros _ n r Hn.
      apply (E (n, r)). by apply elem_of_map_to_list.
    + split; [done|]. intros H. exfalso. enough (check_records visit = Ok tt) by congruence.
      apply check_records_Ok. rewrite Hv. apply Forall_forall. intros [n r] Hn%elem_of_map_to_list.
      split; [by apply (H n r)|]. destruct (Hw n r Hn) as (_ & (v & Hip & _) & _). cbn. by rewrite Hip.
  - intros script H. split; [intros order Ho; by eapply (render_order visit)|]. split; [intros H'; eapply (render_inj visit visit'); eauto|].
    intros [<- Heq]. by eapply (render_same visit visit').
Qed.

(** C34: Interfaces are marked and guarded exactly.  The marker of an interface as the
    service makes it is read back as the same identifier, address, hardware address
    and namespace; whatever text an alias holds, what is accepted is well formed; link
    names are exactly those the engine makes of an index, one per index, and fit the
    kernel's 15 bytes.  The source-check script is rendered exactly when every interface
    has a canonical link name, whatever the order in which the map is visited, and
    determines which address every link admits: two sets of interfaces with the same
    script admit the same pairs. *)
Theorem interfaces_are_marked_and_guarded eni inode visit visit' records records' e e' :
  markable eni → 1 ≤ inode < 2 ^ 64 → visit ≡ₚ map_to_list records → visit' ≡ₚ map_to_list records' →
  map_Forall (λ _ r, well_formed r) records → map_Forall (λ _ r, well_formed r) records' →
  parseENIAlias (eniAlias eni inode) = Ok (MkIdentity (ENI_ID eni) (ENI_PrivateIP eni) (ENI_MACAddress eni) inode) ∧
  (∀ alias r, parseENIAlias alias = Ok r → well_formed r) ∧
  (∀ name, canonicalENILink name = true ↔ ∃ index, eniLinkName index = Ok name) ∧
  (∀ i j name, eniLinkName i = Ok name → eniLinkName j = Ok name → i = j ∧ slen name ≤ 15) ∧
  (is_Ok (renderENISourceChecks visit records e) = true ↔ map_Forall (λ n _, canonicalENILink n = true) records) ∧
  (∀ script, renderENISourceChecks visit records e = Ok script →
     (∀ order, order ≡ₚ map_to_list records → renderENISourceChecks order records e = Ok script) ∧
     (renderENISourceChecks visit' records' e' = Ok script ↔
        e = e' ∧ ∀ n, id_IP <$> records !! n = id_IP <$> records' !! n)).
Proof.
  intros Hm Hi Hv Hv' Hw Hw'. destruct (markers_identify_interfaces eni inode Hm Hi) as (H1 & H2 & H3 & H4).
  destruct (source_checks_are_exact visit visit' records records' e e' Hv Hv' Hw Hw') as [H5 H6]. by split_and!.
Qed.

(** Witness: the marker of an interface, and the checks of two. *)
Lemma interfaces_witness :
  let eni := MkENI "eni-0123456789abcdef0" "default" "i-0123456789abcdef0" "subnet-0123456789abcdef0" 7 (Addr4 167772420)
               "02:00:00:00:00:01" 1 0 "pending" "" in
  let r n := MkIdentity "eni-0123456789abcdef0" (Addr4 n) "02:00:00:00:00:01" 4026532001 in
  let records := <["ve7" := r 167772420]> {["ve12" := r 167772421]} in
  eniAlias eni 4026532001 = "nephos:eni:eni-0123456789abcdef0 10.0.1.4 02:00:00:00:00:01 4026532001" ∧
  parseENIAlias (eniAlias eni 4026532001) = Ok (r 167772420) ∧
  is_Ok (renderENISourceChecks (map_to_list records) records false) = true.
Proof.
  intros eni r records. split; [vm_compute; reflexivity|].
  assert (map_Forall (λ _ x, well_formed x) records) as Hw.
  { intros n x Hx. assert (x = r 167772420 ∨ x = r 167772421) as [->| ->].
    { apply lookup_insert_Some in Hx as [[_ <-]|[_ Hx]]; [by left|]. apply lookup_singleton_Some in Hx as [_ <-]. by right. }
    all: split_and!; [exists "0123456789abcdef0"; split_and!; reflexivity|eexists; split; [reflexivity|lia]
      |exists [2; 0; 0; 0; 0; 1]; split_and!; [reflexivity|reflexivity|repeat constructor; lia|reflexivity]|cbn; lia|cbn; lia]. }
  destruct (interfaces_are_marked_and_guarded eni 4026532001 (map_to_list records) (map_to_list records) records records false false)
    as (H1 & _ & _ & _ & H5 & _); [|lia|done|done|exact Hw|exact Hw|].
  - split_and!.
    + exists "0123456789abcdef0". split_and!; reflexivity.
    + exists 167772420. split; [reflexivity|lia].
    + exists [2; 0; 0; 0; 0; 1]. split_and!; [reflexivity|reflexivity| |reflexivity]. repeat constructor; lia.
  - split; [exact H1|]. apply H5. intros n x Hx. apply lookup_insert_Some in Hx as [[<- _]|[_ Hx]]; [reflexivity|].
    apply lookup_singleton_Some in Hx as [<- _]. reflexivity.
Defined.
