(* ===== verification/Programs.v ===== *)
(** Programs that call something outside the model.

    A program makes calls one after another and continues with the replies; it is
    a finite tree, so every program ends.  [run] executes a program against a
    handler that answers from a state of its own.  [wp] reasons about all replies at
    once, with the history of calls and replies: whatever the outside does, no call
    is made that is not [allowed] after what happened before it, and [Q] holds at
    the end. *)

From S2P Require Import Prelude Errors.

Class Signature (C : Type) := reply : C → Type.

Section programs.
Context {C : Type} `{!Signature C}.

Inductive prog (A : Type) : Type :=
  | Done (a : A)
  | Call (c : C) (k : reply c → prog A).
Arguments Done {_} _.
Arguments Call {_} _ _.

#[export] Instance prog_ret : MRet prog := @Done.
#[export] Instance prog_bind : MBind prog := λ A B f,
  fix bind p := match p with Done a => f a | Call c k => Call c (λ b, bind (k b)) end.
Definition call (c : C) : prog (reply c) := Call c Done.

(** [x, err := m; if err != nil { return err }] *)
Definition got {A B} (m : prog (result A)) (f : A → prog (result B)) : prog (result B) :=
  r ← m; match r with Ok a => f a | Err e => mret (Err e) end.
(** The same, with [fmt.Errorf] around the error. *)
Definition got_as {A B} (t : text) (m : prog (result A)) (f : A → prog (result B)) : prog (result B) :=
  r ← m; match r with Ok a => f a | Err e => mret (Err (Wrapf t e)) end.
(** A check that calls nothing. *)
Definition checked {A B} (r : result A) (f : A → prog (result B)) : prog (result B) :=
  match r with Ok a => f a | Err e => mret (Err e) end.
(** [for _, x := range l { ... }] with an early return. *)
Fixpoint for_each {A} (l : list A) (f : A → prog (result unit)) (next : prog (result unit)) : prog (result unit) :=
  match l with
  | [] => next
  | x :: l' => got (f x) (λ _, for_each l' f next)
  end.

(** ** Running *)
Definition handler (S : Type) : Type := ∀ c : C, S → reply c * S.
Record event := Ev { ev_call : C; ev_reply : reply ev_call }.

Fixpoint run {S A} (h : handler S) (p : prog A) (s : S) : A * S :=
  match p with
  | Done a => (a, s)
  | Call c k => let '(b, s') := h c s in run h (k b) s'
  end.
Fixpoint trace {S A} (h : handler S) (p : prog A) (s : S) : list event :=
  match p with
  | Done _ => []
  | Call c k => let '(b, s') := h c s in Ev c b :: trace h (k b) s'
  end.

Lemma run_bind {S A B} (h : handler S) (p : prog A) (f : A → prog B) s :
  run h (p ≫= f) s = run h (f (run h p s).1) (run h p s).2.
Proof.
  revert s. induction p as [a|c k IH]; intros s; [done|]. unfold mbind, prog_bind in *. cbn [run].
  destruct (h c s) as [b s']. apply IH.
Qed.

Lemma trace_bind {S A B} (h : handler S) (p : prog A) (f : A → prog B) s :
  trace h (p ≫= f) s = trace h p s ++ trace h (f (run h p s).1) (run h p s).2.
Proof.
  revert s. induction p as [a|c k IH]; intros s; [done|]. unfold mbind, prog_bind in *. cbn [run trace].
  destruct (h c s) as [b s']. cbn [app]. f_equal. apply IH.
Qed.

(** ** All replies *)
Fixpoint wp {A} (allowed : list event → C → Prop) (p : prog A) (t : list event) (Q : list event → A → Prop) : Prop :=
  match p with
  | Done a => Q t a
  | Call c k => allowed t c ∧ ∀ b, wp allowed (k b) (t ++ [Ev c b]) Q
  end.

Lemma wp_sound {S A} (h : handler S) allowed (p : prog A) s t Q :
  wp allowed p t Q →
  Q (t ++ trace h p s) (run h p s).1 ∧
  ∀ t1 e t2, trace h p s = t1 ++ e :: t2 → allowed (t ++ t1) (ev_call e).
Proof.
  revert s t. induction p as [a|c k IH]; intros s t H; cbn [wp trace run] in *.
  - split; [by rewrite app_nil_r|]. by intros [].
  - destruct H as [Hc H]. destruct (h c s) as [b s']. destruct (IH b s' (t ++ [Ev c b]) (H b)) as [H1 H2].
    split; [by rewrite <- app_assoc in H1|]. intros [|e' t1] e t2 E; cbn [app] in E; apply (inj2 cons) in E as [<- E].
    + by rewrite app_nil_r.
    + specialize (H2 t1 e t2 E). by rewrite <- app_assoc in H2.
Qed.
Lemma wp_mono {A} (allowed allowed' : list event → C → Prop) (p : prog A) t (Q Q' : list event → A → Prop) :
  wp allowed p t Q → (∀ t c, allowed t c → allowed' t c) → (∀ t a, Q t a → Q' t a) → wp allowed' p t Q'.
Proof.
  intros H Ha HQ. revert t H. induction p as [a|c k IH]; intros t H; cbn [wp] in *; [by apply HQ|].
  destruct H as [Hc H]. split; [by apply Ha|]. intros b. by apply IH.
Qed.
Lemma wp_bind {A B} allowed (p : prog A) (f : A → prog B) t Q :
  wp allowed p t (λ t a, wp allowed (f a) t Q) → wp allowed (p ≫= f) t Q.
Proof.
  revert t. induction p as [a|c k IH]; intros t H; cbn [wp] in *; [done|]. unfold mbind, prog_bind in *. cbn [wp].
  destruct H as [Hc H]. split; [done|]. intros b. by apply IH.
Qed.
Lemma wp_call allowed c t (Q : list event → reply c → Prop) :
  allowed t c → (∀ b, Q (t ++ [Ev c b]) b) → wp allowed (call c) t Q.
Proof. intros Hc H. by split. Qed.

Lemma wp_got {A B} allowed (m : prog (result A)) (f : A → prog (result B)) t Q :
  wp allowed m t (λ t r, match r with Ok a => wp allowed (f a) t Q | Err e => Q t (Err e) end) →
  wp allowed (got m f) t Q.
Proof.
  intros H. unfold got. apply wp_bind. eapply wp_mono; [exact H|done|]. by intros t' [a|e] H'.
Qed.
Lemma wp_got_as {A B} allowed tx (m : prog (result A)) (f : A → prog (result B)) t Q :
  wp allowed m t (λ t r, match r with Ok a => wp allowed (f a) t Q | Err e => Q t (Err (Wrapf tx e)) end) →
  wp allowed (got_as tx m f) t Q.
Proof.
  intros H. unfold got_as. apply wp_bind. eapply wp_mono; [exact H|done|]. by intros t' [a|e] H'.
Qed.
Lemma wp_checked {A B} allowed (r : result A) (f : A → prog (result B)) t Q :
  (∀ a, r = Ok a → wp allowed (f a) t Q) → (∀ e, r = Err e → Q t (Err e)) → wp allowed (checked r f) t Q.
Proof. intros Ho He. unfold checked. destruct r as [a|e]; [by apply Ho|by apply He]. Qed.

Lemma wp_ret {A} allowed (a : A) t (Q : list event → A → Prop) : Q t a → wp allowed (mret a) t Q.
Proof. done. Qed.
(** The history only grows. *)
Lemma wp_extends {A} allowed (p : prog A) t0 t Q :
  t0 `prefix_of` t → wp allowed p t Q → wp allowed p t (λ t' a, t0 `prefix_of` t' ∧ Q t' a).
Proof.
  revert t. induction p as [a|c k IH]; intros t Ht H; cbn [wp] in *; [done|]. destruct H as [Hc H]. split; [done|].
  intros b. apply IH; [by apply prefix_app_r|done].
Qed.

(** Two ways of looking at a run. *)
Lemma wp_and {A} (allowed : list event → C → Prop) (P : C → Prop) (p : prog A) t t' Q :
  wp allowed p t Q → wp (λ _, P) p t' (λ _ _, True) → wp (λ t c, allowed t c ∧ P c) p t Q.
Proof.
  revert t t'. induction p as [a|c k IH]; intros t t' H H'; cbn [wp] in *; [done|]. destruct H as [Hc H], H' as [Hc' H'].
  split; [done|]. intros b. by eapply IH.
Qed.
Lemma any_got {A B} allowed (m : prog (result A)) (f : A → prog (result B)) t :
  wp allowed m t (λ _ _, True) → (∀ a t, wp allowed (f a) t (λ _ _, True)) → wp allowed (got m f) t (λ _ _, True).
Proof. intros Hm Hf. apply wp_got. eapply wp_mono; [exact Hm|done|]. by intros ? [a|e] _. Qed.
Lemma any_got_as {A B} allowed tx (m : prog (result A)) (f : A → prog (result B)) t :
  wp allowed m t (λ _ _, True) → (∀ a t, wp allowed (f a) t (λ _ _, True)) → wp allowed (got_as tx m f) t (λ _ _, True).
Proof. intros Hm Hf. apply wp_got_as. eapply wp_mono; [exact Hm|done|]. by intros ? [a|e] _. Qed.
Lemma any_checked {A B} allowed (r : result A) (f : A → prog (result B)) t :
  (∀ a t, wp allowed (f a) t (λ _ _, True)) → wp allowed (checked r f) t (λ _ _, True).
Proof. intros Hf. by destruct r; [apply Hf|]. Qed.
Lemma any_call allowed c t : allowed t c → wp allowed (call c) t (λ _ _, True).
Proof. by intros H; split. Qed.
Lemma any_bind {A B} allowed (m : prog A) (f : A → prog B) t :
  wp allowed m t (λ _ _, True) → (∀ a t, wp allowed (f a) t (λ _ _, True)) → wp allowed (m ≫= f) t (λ _ _, True).
Proof. intros Hm Hf. apply wp_bind. eapply wp_mono; [exact Hm|done|]. by intros. Qed.
Lemma any_for_each {A} allowed (l : list A) f next t :
  (∀ x t, wp allowed (f x) t (λ _ _, True)) → (∀ t, wp allowed next t (λ _ _, True)) →
  wp allowed (for_each l f next) t (λ _ _, True).
Proof. intros Hf Hn. revert t. induction l as [|x l IH]; intros t; cbn [for_each]; [done|]. apply any_got; auto. Qed.

(** A loop keeps an invariant of the history. *)
Lemma wp_for_each {A} allowed (l : list A) f next t Q (I : list A → list event → Prop) :
  I l t →
  (∀ x l' t, I (x :: l') t → wp allowed (f x) t (λ t r, match r with Ok _ => I l' t | Err e => Q t (Err e) end)) →
  (∀ t, I [] t → wp allowed next t Q) → wp allowed (for_each l f next) t Q.
Proof.
  intros Hi Hf Hn. revert t Hi. induction l as [|x l IH]; intros t Hi; cbn [for_each]; [by apply Hn|].
  apply wp_got. eapply wp_mono; [by apply Hf|done|]. intros t' [[]|e] H; [by apply IH|done].
Qed.
End programs.
Arguments prog C {_} A.
Arguments event C {_}.
Arguments handler C {_} S.
Arguments Done {_ _ _} _.
Arguments Call {_ _ _} _ _.

Lemma prefix_elem {A} (x : A) (t t' : list A) : t `prefix_of` t' → x ∈ t → x ∈ t'.
Proof. intros [u ->] H. apply elem_of_app. by left. Qed.
