(* ===== verification/Kernel.v ===== *)
(** Network namespaces: [internal/network/netns/netns_linux.go] and
    [instance_linux.go], as programs over the calls they make.

    The calls are those of the kernel, the file system and the netlink library; a
    handle names the namespace a call acts in.  A program that runs in another
    namespace does so on a thread of its own, which is not modelled: its calls carry
    the namespace instead. *)

From S2P Require Import Prelude Errors GoStrings Utf8 NetIP Netns EniPolicy Programs.
Local Open Scope Z_scope.

(** ** Calls *)
Inductive handle := InVPC (name : string) | InInstance.
Record link := MkLink {
  l_Name : string; l_Type : string; l_Alias : string; l_Index : Z; l_ParentIndex : Z; l_NetNsID : Z
}.
(** An address of a link: [None] when it has no network. *)
Record kaddr := MkKAddr { ka_IP : option (list Z); ka_Ones : Z; ka_Bits : Z; ka_Label : string }.
Inductive newLink := Dummy (name : string) | Veth (name alias peer : string) (fd : Z).
(** [net.IPNet] of IPv4; the mask is [None] when [net.CIDRMask] refuses it. *)
Record ipNet := MkIPNet { n_IP : Z; n_Ones : option Z }.
Record rule := MkRule { r_Priority : Z; r_Dst : option ipNet; r_Table : Z; r_Type : Z }.
(** A rule as the kernel sends it: the length of the message, its header, and the
    attributes (number and value) as [nl.ParseRouteAttr] splits them. *)
Record rawRule := MkRawRule {
  w_Len : Z; w_Table : Z; w_Type : Z; w_DstLen : Z; w_Attrs : result (list (Z * list Z))
}.
Record route := MkRoute { t_LinkIndex : Z; t_Dst : option ipNet; t_Gw : option Addr; t_ScopeLink : bool; t_Table : Z }.
(** Device and inode of a file. *)
Record stat := MkStat { st_Ino : Z; st_Dev : Z }.

Inductive kcall :=
  | CtxErr
  | Lstat (path : string) | Statfs (path : string) | MkdirAll (path : string) | ReadDir (path : string)
  | CreateExcl (path : string) | CloseFile (path : string) | Remove (path : string)
  | Unshare | BindMount (path : string) | Unmount (path : string)
  | OpenNs (path : string) | SetNs (h : handle) | GetNs (h : handle) | NewHandleAt (h : handle)
  | WriteFile (h : handle) (path value : string)
  | LinkByName (h : handle) (name : string) | LinkList (h : handle) | LinkAdd (h : handle) (l : newLink)
  | LinkDel (h : handle) (l : link) | LinkSetUp (h : handle) (l : link) | LinkSetDown (h : handle) (l : link)
  | LinkSetAlias (h : handle) (l : link) (alias : string) | LinkSetName (h : handle) (l : link) (name : string)
  | LinkSetHardwareAddr (h : handle) (l : link) (mac : list Z)
  | AddrList (h : handle) (l : link) | AddrAdd (h : handle) (l : link) (a : kaddr) | AddrDel (h : handle) (l : link) (a : kaddr)
  | AddrReplace (h : handle) (l : link) (p : Prefix)
  | RuleDump (h : handle) | RuleAdd (h : handle) (r : rule)
  | RouteReplace (h : handle) (r : route)
  | GetNetNsIdByFd (h : handle) (fd : Z)
  | Nft (h : handle) (args : list string) (stdin : string)
  | DupFd
  | OpenProcess (pid : Z) | OpenAt (path : string) | ReadAt (path : string) | Fstatfs | Fstat (path : string)
  | StatSelf (path : string) | NsGetUserns | FstatOwner.

#[export] Instance kernel : Signature kcall := λ c,
  match c with
  | CtxErr => option error
  | Lstat _ => result bool (* is it a symbolic link *)
  | Statfs _ | Fstatfs => result Z (* the type of the file system *)
  | ReadDir _ => result (list string)
  | LinkByName _ _ => result link
  | LinkList _ => result (list link)
  | AddrList _ _ => result (list kaddr)
  | RuleDump _ => result (list rawRule)
  | GetNetNsIdByFd _ _ | DupFd => result Z
  | Nft _ _ _ => (string * option error)%type (* output and exit *)
  | ReadAt _ => result string
  | Fstat _ | StatSelf _ | FstatOwner => result stat
  | _ => result unit
  end.
Abbreviation K := (prog kcall).

Definition NSFS_MAGIC : Z := 0x6e736673.
Definition os_ErrNotExist : error := ErrIO "file does not exist".
Definition LinkNotFoundError : error := ErrIO "Link not found".

(** [if err := ctx.Err(); err != nil { return err }] *)
Definition unless_done {A} (next : K (result A)) : K (result A) :=
  e ← call CtxErr; match e : option error with Some e => mret (Err e) | None => next end.

(** ** VPC namespaces *)
Definition namespaceDir : string := "/run/netns".
Definition namespacePath (name : string) : string := namespaceDir +:+ "/" +:+ name.

Definition requireNamespaceMount (path : string) : K (result unit) :=
  got_as (Sprintf "inspect namespace mount %s: %w" [path]) (call (Lstat path)) (λ symlink : bool,
  if symlink then mret (Err (Errorf (Sprintf "refusing symlink namespace mount %s" [path])))
  else
    got_as (Sprintf "stat namespace filesystem %s: %w" [path]) (call (Statfs path)) (λ type : Z,
    mret (require (type =? NSFS_MAGIC) (Errorf (Sprintf "refusing non-namespace mount %s (filesystem %#x)" [path]))))).

(** What runs on the thread that is thrown away. *)
Definition makeNamespace (name : string) : K (result unit) :=
  unless_done (
  got_as (Sprintf "unshare VPC namespace %s: %w" [name]) (call Unshare) (λ _,
  got_as (Sprintf "bind VPC namespace %s: %w" [name]) (call (BindMount (namespacePath name))) (λ _,
  mret (Ok tt)))).

Definition Ensure (name : string) : K (result unit) :=
  checked (validateName name) (λ _,
  unless_done (
  got_as (lit "create network namespace directory: %w") (call (MkdirAll namespaceDir)) (λ _,
  let path := namespacePath name in
  found ← call (Lstat path);
  match found : result bool with
  | Ok _ => requireNamespaceMount path
  | Err e =>
      if negb (errors_Is e os_ErrNotExist) then mret (Err (Wrapf (Sprintf "inspect VPC namespace %s: %w" [name]) e))
      else
        unless_done (
        got_as (Sprintf "create namespace mount point %s: %w" [name]) (call (CreateExcl path)) (λ _,
        closed ← call (CloseFile path);
        match closed : result unit with
        | Err e => call (Remove path) ;; mret (Err (Wrapf (Sprintf "close namespace mount point %s: %w" [name]) e))
        | Ok _ =>
            made ← makeNamespace name;
            match made with
            | Err e =>
                removed ← call (Remove path);
                match removed : result unit with
                | Err e' => mret (Err (Joinf (lit "%w
%w") e (Wrapf (Sprintf "remove failed namespace mount point %s: %w" [name]) e')))
                | Ok _ => mret (Err e)
                end
            | Ok _ => requireNamespaceMount path
            end
        end))
  end))).

(** [Do] and [WithHandle]: [fn] gets the handle of the namespace. *)
Definition Do (name : string) (fn : handle → K (result unit)) : K (result unit) :=
  checked (validateName name) (λ _,
  unless_done (
  let path := namespacePath name in
  got (requireNamespaceMount path) (λ _,
  got_as (Sprintf "open VPC namespace %s: %w" [name]) (call (OpenNs path)) (λ _,
  unless_done (
  got_as (Sprintf "enter VPC namespace %s: %w" [name]) (call (SetNs (InVPC name))) (λ _,
  fn (InVPC name))))))).
Definition WithHandle (name : string) (fn : handle → K (result unit)) : K (result unit) :=
  Do name (λ h,
  got_as (Sprintf "capture entered namespace %s: %w" [name]) (call (GetNs h)) (λ _,
  got_as (Sprintf "open bound netlink handle for %s: %w" [name]) (call (NewHandleAt h)) (λ _,
  fn h))).

Definition Delete (name : string) : K (result unit) :=
  checked (validateName name) (λ _,
  unless_done (
  let path := namespacePath name in
  found ← call (Lstat path);
  match found : result bool with
  | Err e =>
      if errors_Is e os_ErrNotExist then mret (Ok tt)
      else mret (Err (Wrapf (Sprintf "inspect VPC namespace %s: %w" [name]) e))
  | Ok _ =>
      got (requireNamespaceMount path) (λ _,
      got_as (Sprintf "unmount VPC namespace %s: %w" [name]) (call (Unmount path)) (λ _,
      got_as (Sprintf "remove VPC namespace mount point %s: %w" [name]) (call (Remove path)) (λ _,
      mret (Ok tt))))
  end)).

(** The entries of the directory that are namespaces of VPCs. *)
Fixpoint ownedEntries (entries names : list string) : K (result (list string)) :=
  match entries with
  | [] => mret (Ok names)
  | entry :: entries' =>
      unless_done (
      match validateName entry with
      | Err _ => ownedEntries entries' names
      | Ok _ => got (requireNamespaceMount (namespacePath entry)) (λ _, ownedEntries entries' (names ++ [entry]))
      end)
  end.
Definition List_ : K (result (list string)) :=
  unless_done (
  entries ← call (ReadDir namespaceDir);
  match entries : result (list string) with
  | Err e =>
      if errors_Is e os_ErrNotExist then mret (Ok [])
      else mret (Err (Wrapf (lit "list VPC namespaces: %w") e))
  | Ok entries => got (ownedEntries entries []) (λ names, mret (Ok (merge_sort String.le names)))
  end).

(** ** Instance namespaces *)
Definition validRuntimeID (id : string) : bool :=
  (slen id =? 64) &&
  forallb (λ ch, ((48 <=? ch) && (ch <=? 57)) || ((97 <=? ch) && (ch <=? 102))) (range_runes id).

(** [strings.Split] at a byte. *)
Fixpoint split_byte (b : Z) (l cur : list Z) : list string :=
  match l with
  | [] => [of_bytes cur]
  | x :: l' => if x =? b then of_bytes cur :: split_byte b l' [] else split_byte b l' (cur ++ [x])
  end.
Definition Split (s : string) (b : Z) : list string := split_byte b (bytes s) [].

Definition runtimeCgroupMatches (raw id : string) : bool :=
  match Split (TrimSpace raw) 10 with
  | [line] =>
      match CutPrefix line "0::/" with
      | None => false
      | Some path =>
          existsb (λ part, (part ==? "libpod-" +:+ id) || (part ==? "libpod-" +:+ id +:+ ".scope")) (Split path 47)
      end
  | _ => false
  end.

(** The lines of a UID map, up to the one that maps root. *)
Definition parseUID (what s : string) : result Z :=
  wrap_err (Sprintf what []) (of_option (ErrIO ("strconv.ParseUint: " +:+ s)) (ParseUint s 32)).
Fixpoint validateMappings (lines : list string) : result unit :=
  match lines with
  | [] => Err (Errorf (lit "instance root has no nonzero appliance UID mapping"))
  | line :: lines' =>
      match Fields line with
      | [f0; f1; f2] =>
          inside ← parseUID "decode mapped UID: %w" f0;
          outside ← parseUID "decode appliance UID: %w" f1;
          count ← parseUID "decode UID range: %w" f2;
          if (count =? 0) || (2 ^ 32 <? outside + count) || (2 ^ 32 <? inside + count)
          then Err (Errorf (lit "invalid instance UID range"))
          else if inside =? 0 then
            require (negb (outside =? 0)) (Errorf (lit "instance root maps to appliance root"))
          else validateMappings lines'
      | _ => Err (Errorf (lit "invalid instance UID mapping"))
      end
  end.
Definition validateRootMapping (raw : string) : result unit := validateMappings (Split (TrimSpace raw) 10).

(** A pinned namespace: open or closed, and its inode. *)
Record InstanceTarget := MkTarget { tg_Open : bool; tg_Inode : Z }.
Definition Inode (t : option InstanceTarget) : Z := match t with Some t => tg_Inode t | None => 0 end.

Definition openAt (path : string) {A} (f : K (result A)) : K (result A) :=
  got_as (Sprintf "open process %s: %w" [path]) (call (OpenAt path)) (λ _, f).
Definition readAt (path : string) : K (result string) :=
  openAt path (
  got_as (Sprintf "read process %s: %w" [path]) (call (ReadAt path)) (λ data : string,
  let data := of_bytes (take (Z.to_nat 65537) (bytes data)) in
  if 65536 <? slen data then mret (Err (Errorf (Sprintf "process %s exceeds identity limit" [path])))
  else mret (Ok data))).
Definition same (a b : stat) : bool := (st_Ino a =? st_Ino b) && (st_Dev a =? st_Dev b).

Definition OpenInstance (pid : Z) (runtimeID : string) : K (result InstanceTarget) :=
  unless_done (
  if (pid <=? 0) || negb (validRuntimeID runtimeID) then mret (Err (Errorf (lit "invalid instance PID or full runtime ID")))
  else
    got_as (lit "open instance process: %w") (call (OpenProcess pid)) (λ _,
    openAt "ns/net" (
    got_as (lit "inspect instance namespace filesystem: %w") (call Fstatfs) (λ type : Z,
    if negb (type =? NSFS_MAGIC) then mret (Err (Errorf (lit "instance target is not a namespace")))
    else
      got_as (lit "inspect instance netns: %w") (call (Fstat "ns/net")) (λ target : stat,
      got_as (lit "inspect appliance netns: %w") (call (StatSelf "/proc/thread-self/ns/net")) (λ root : stat,
      if same target root then mret (Err (Errorf (lit "refusing appliance network namespace")))
      else
        got (readAt "cgroup") (λ cgroup,
        if negb (runtimeCgroupMatches cgroup runtimeID)
        then mret (Err (Errorf (Sprintf "PID %d does not belong to runtime %s" [FormatInt pid; runtimeID])))
        else
          got (readAt "uid_map") (λ mapping,
          checked (validateRootMapping mapping) (λ _,
          openAt "ns/user" (
          got_as (lit "inspect instance user namespace: %w") (call (Fstat "ns/user")) (λ user : stat,
          got_as (lit "inspect appliance user namespace: %w") (call (StatSelf "/proc/thread-self/ns/user")) (λ root : stat,
          if same user root then mret (Err (Errorf (lit "instance shares appliance user namespace")))
          else
            got_as (lit "inspect network namespace owner: %w") (call NsGetUserns) (λ _,
            got_as (lit "inspect owning user namespace: %w") (call FstatOwner) (λ owner : stat,
            if negb (same owner user)
            then mret (Err (Errorf (lit "network namespace is not owned by instance user namespace")))
            else unless_done (mret (Ok (MkTarget true (st_Ino target)))))))))))))))))).

Definition WithFD {A} (t : option InstanceTarget) (fn : Z → K (result A)) : K (result A) :=
  unless_done (
  match t with
  | None => mret (Err (Errorf (lit "missing instance namespace target")))
  | Some t =>
      if negb (tg_Open t) then mret (Err (Errorf (lit "instance namespace target is closed")))
      else got_as (lit "duplicate instance namespace: %w") (call DupFd) (λ fd : Z, fn fd)
  end).
Definition WithInstanceHandle (t : option InstanceTarget) (fn : handle → K (result unit)) : K (result unit) :=
  WithFD t (λ _,
  unless_done (
  got_as (lit "enter pinned instance namespace: %w") (call (SetNs InInstance)) (λ _,
  got_as (lit "bind instance netlink handle: %w") (call (NewHandleAt InInstance)) (λ _,
  fn InInstance)))).
(** [Close] forgets the descriptor even when closing it fails. *)
Definition Close (t : option InstanceTarget) : K (result unit * option InstanceTarget) :=
  match t with
  | None => mret (Ok tt, None)
  | Some t =>
      if negb (tg_Open t) then mret (Ok tt, Some t)
      else
        closed ← call (CloseFile "ns/net");
        mret (wrap_err (lit "close instance namespace: %w") closed, Some (MkTarget false (tg_Inode t)))
  end.
