(* ===== verification/Engine.v ===== *)
(** The network engine: [internal/network/topology], [vpc_linux.go], [policy_linux.go],
    [eni_linux.go] and the part of [eni_policy_linux.go] that needs the kernel.

    [Engine] serialises its operations with a mutex, so each is one program. *)

From S2P Require Import Prelude Errors GoStrings Encodings Utf8 NetIP Netns Mac Model Json EniPolicy Programs Kernel.
From S2P Require Import Validate Snapshot Schema Tx Store Idempotency NetworkService InstanceService Api Client.
Local Open Scope Z_scope.

Definition routerLinkName : string := "nxr0".
Definition gatewayLabel : string := "nxr0:gw".
Definition localPriority : Z := 100.
Definition dropPriority : Z := 32000.
Definition mainRouteTable : Z := 254.

(** ** Gateways *)
Definition bad_prefix (p : Prefix) : bool :=
  negb (IsValid p) || negb (Is4 (p_ip p)) || negb (bool_decide (Masked p = p)).
Fixpoint gatewaysOf (vpc : VPC) (subnets : list Subnet) (seen : list Prefix) (gateways : list Addr) : result (list Addr) :=
  match subnets with
  | [] => Ok gateways
  | s :: subnets' =>
      let cidr := Subnet_CIDRBlock s in
      if (Subnet_VPCID s !=? VPC_ID vpc) || bad_prefix cidr || (p_bits cidr <? p_bits (VPC_CIDRBlock vpc)) ||
         (28 <? p_bits cidr) || negb (Contains (VPC_CIDRBlock vpc) (p_ip cidr))
      then Err (Errorf (Sprintf "subnet %s is not a valid range inside VPC %s" [Subnet_ID s; VPC_ID vpc]))
      else
        match List.find (Overlaps_prefix cidr) seen with
        | Some prior => Err (Errorf (Sprintf "subnet %s overlaps %s in VPC %s" [Subnet_ID s; Prefix_String prior; VPC_ID vpc]))
        | None => gatewaysOf vpc subnets' (seen ++ [cidr]) (gateways ++ [Next (p_ip cidr)])
        end
  end.
Definition addr_le (a b : Addr) : Prop := Compare a b ≤ 0.
#[export] Instance addr_le_dec : RelDecision addr_le.
Proof. intros a b. unfold addr_le. apply _. Defined.

Definition desiredGateways (vpc : VPC) (subnets : list Subnet) : result (list Addr) :=
  let prefix := VPC_CIDRBlock vpc in
  if bad_prefix prefix || (p_bits prefix <? 16) || (28 <? p_bits prefix)
  then Err (Errorf (Sprintf "VPC %s has invalid IPv4 CIDR %s" [VPC_ID vpc; Prefix_String prefix]))
  else gateways ← gatewaysOf vpc subnets [] []; Ok (merge_sort addr_le gateways).

(** ** Router links *)
Definition upRouter (h : handle) (found : result link) : K (result unit) :=
  match found with
  | Err e => mret (Err (Wrapf (lit "find router dummy: %w") e))
  | Ok link =>
      if l_Type link !=? "dummy"
      then mret (Err (Errorf (Sprintf "refusing non-dummy router link %s (%s)" [routerLinkName; l_Type link])))
      else got_as (lit "bring up router dummy: %w") (call (LinkSetUp h link)) (λ _, mret (Ok tt))
  end.
(** The dummy link is made when there is none. *)
Definition routerLink (h : handle) (found : result link) : K (result unit) :=
  match found with
  | Ok l => upRouter h (Ok l)
  | Err e =>
      if errors_Is e LinkNotFoundError then
        got_as (lit "create router dummy: %w") (call (LinkAdd h (Dummy routerLinkName))) (λ _ : unit,
        again ← call (LinkByName h routerLinkName); upRouter h again)
      else upRouter h (Err e)
  end.
Definition ensureRouterLinks (h : handle) : K (result unit) :=
  got_as (lit "find loopback: %w") (call (LinkByName h "lo")) (λ lo : link,
  got_as (lit "bring up loopback: %w") (call (LinkSetUp h lo)) (λ _ : unit,
  found ← call (LinkByName h routerLinkName); routerLink h found)).

Definition setNamespaceSysctl (h : handle) (key value : string) : K (result unit) :=
  if HasPrefix key "net/ipv4/conf/all/" || strings_Contains key ".."
  then mret (Err (Errorf (Sprintf "refusing non-local sysctl %q" [key])))
  else if negb ((key ==? "net/ipv4/ip_forward") || (key ==? "net/ipv4/conf/default/send_redirects") ||
                (key ==? "net/ipv4/conf/nxr0/send_redirects"))
  then mret (Err (Errorf (Sprintf "sysctl %q is not permitted by the VPC engine" [key])))
  else
    got_as (Sprintf "set VPC sysctl %s=%s: %w" [key; value]) (call (WriteFile h ("/proc/sys/" +:+ key) value)) (λ _,
    mret (Ok tt)).

(** ** Gateway addresses *)

(** [netip.AddrFromSlice] and [Unmap]. *)
Definition AddrFromSlice (l : list Z) : option Addr :=
  if (length l =? 4)%nat then Some (Addr4 (bytes_value l))
  else if (length l =? 16)%nat then Some (Addr6 (bytes_value l) "") else None.
Definition Unmap (a : Addr) : Addr :=
  match a with
  | Addr6 v _ => if v / 2 ^ 32 =? 0xffff then Addr4 (v mod 2 ^ 32) else a
  | _ => a
  end.
(** [Addr.AsSlice] of an IPv4 address. *)
Definition AsSlice (a : Addr) : list Z := match a with Addr4 v => octets v | _ => [] end.
Definition gatewayAddr (a : Addr) : kaddr := MkKAddr (Some (AsSlice a)) 32 32 gatewayLabel.

(** The addresses the link has; those that are wanted and there are noted. *)
Fixpoint dropStale (h : handle) (link : link) (existing : list kaddr) (wanted : gmap string bool)
    : K (result (gmap string bool)) :=
  match existing with
  | [] => mret (Ok wanted)
  | a :: existing' =>
      match ka_IP a with
      | None => dropStale h link existing' wanted
      | Some ip =>
          match AddrFromSlice ip with
          | None => mret (Err (Errorf (Sprintf "router has unparsable IPv4 address %s" [TrimSpace ("<nil> " +:+ ka_Label a)])))
          | Some addr =>
              let key := Addr_String (Unmap addr) in
              let needed := bool_decide (is_Some (wanted !! key)) in
              if needed && (ka_Label a !=? gatewayLabel)
              then mret (Err (Errorf (Sprintf "gateway address %s is owned by label %q" [key; ka_Label a])))
              else if ka_Label a !=? gatewayLabel
              then mret (Err (Errorf (Sprintf "unmanaged router address %s with label %q" [key; ka_Label a])))
              else if needed then
                if negb (ka_Ones a =? 32) || negb (ka_Bits a =? 32)
                then mret (Err (Errorf (Sprintf "gateway %s has unexpected prefix length %d" [key; FormatInt (ka_Ones a)])))
                else dropStale h link existing' (<[key := true]> wanted)
              else
                got_as (Sprintf "remove stale gateway %s: %w" [key]) (call (AddrDel h link a)) (λ _,
                dropStale h link existing' wanted)
          end
      end
  end.
Fixpoint addMissing (h : handle) (link : link) (desired : list Addr) (wanted : gmap string bool) : K (result unit) :=
  match desired with
  | [] => mret (Ok tt)
  | addr :: desired' =>
      if default false (wanted !! Addr_String addr) then addMissing h link desired' wanted
      else
        got_as (Sprintf "add gateway %s: %w" [Addr_String addr]) (call (AddrAdd h link (gatewayAddr addr))) (λ _,
        addMissing h link desired' wanted)
  end.
Definition wantedOf (desired : list Addr) : gmap string bool :=
  foldl (λ m a, <[Addr_String a := false]> m) ∅ desired.
Definition reconcileGateways (h : handle) (desired : list Addr) : K (result unit) :=
  got_as (lit "find router dummy: %w") (call (LinkByName h routerLinkName)) (λ link : link,
  got_as (lit "list router addresses: %w") (call (AddrList h link)) (λ existing : list kaddr,
  got (dropStale h link existing (wantedOf desired)) (λ wanted,
  addMissing h link desired wanted))).

(** ** Policy rules *)
Record kernelPolicyRule := MkPolicyRule {
  pr_priority : Z; pr_table : Z; pr_action : Z; pr_dst : option ipNet; pr_extra : list string
}.
Definition FRA_DST : Z := 1.
Definition FRA_PRIORITY : Z := 6.
Definition FRA_SUPPRESS_PREFIXLEN : Z := 14.
Definition FRA_TABLE : Z := 15.
Definition FRA_PROTOCOL : Z := 21.
Definition RTPROT_BOOT : Z := 3.
Definition RTN_UNICAST : Z := 1.
Definition RTN_BLACKHOLE : Z := 6.

(** [nl.NativeEndian().Uint32] on the architectures the appliance runs on. *)
Definition native_uint32 (l : list Z) : Z := bytes_value (reverse l).
Definition CIDRMask (ones : Z) : option Z := if (0 <=? ones) && (ones <=? 32) then Some ones else None.
Definition extra (type : Z) (value : list Z) : string :=
  FormatInt type +:+ ":" +:+ hex_EncodeToString value.

Definition policyAttr (dstLen : Z) (r : kernelPolicyRule) (attr : Z * list Z) : result kernelPolicyRule :=
  let '(type, value) := attr in
  let four := (length value =? 4)%nat in
  if type =? FRA_PRIORITY then
    require four (Errorf (Sprintf "invalid policy-rule priority length %d" [FormatInt (Z.of_nat (length value))])) ;;
    Ok (MkPolicyRule (native_uint32 value) (pr_table r) (pr_action r) (pr_dst r) (pr_extra r))
  else if type =? FRA_TABLE then
    require four (Errorf (Sprintf "invalid policy-rule table length %d" [FormatInt (Z.of_nat (length value))])) ;;
    Ok (MkPolicyRule (pr_priority r) (native_uint32 value) (pr_action r) (pr_dst r) (pr_extra r))
  else if type =? FRA_DST then
    require four (Errorf (Sprintf "invalid IPv4 policy-rule destination length %d" [FormatInt (Z.of_nat (length value))])) ;;
    Ok (MkPolicyRule (pr_priority r) (pr_table r) (pr_action r) (Some (MkIPNet (bytes_value value) (CIDRMask dstLen))) (pr_extra r))
  else
    let plain :=
      if type =? FRA_SUPPRESS_PREFIXLEN then four && (native_uint32 value =? 2 ^ 32 - 1)
      else if type =? FRA_PROTOCOL then
        (length value =? 1)%nat && ((nth 0 value 0 =? 0) || (nth 0 value 0 =? RTPROT_BOOT))
      else false in
    Ok (if plain then r
        else MkPolicyRule (pr_priority r) (pr_table r) (pr_action r) (pr_dst r) (pr_extra r ++ [extra type value])).
Fixpoint policyAttrs (dstLen : Z) (attrs : list (Z * list Z)) (r : kernelPolicyRule) : result kernelPolicyRule :=
  match attrs with
  | [] => Ok r
  | a :: attrs' => r' ← policyAttr dstLen r a; policyAttrs dstLen attrs' r'
  end.
Fixpoint policyRules (messages : list rawRule) : result (list kernelPolicyRule) :=
  match messages with
  | [] => Ok []
  | raw :: messages' =>
      require (negb (w_Len raw <? 12)) (Errorf (lit "short kernel policy-rule reply")) ;;
      attrs ← wrap_err (lit "decode kernel policy-rule attributes: %w") (w_Attrs raw);
      r ← policyAttrs (w_DstLen raw) attrs (MkPolicyRule 0 (w_Table raw) (w_Type raw) None []);
      rest ← policyRules messages'; Ok (r :: rest)
  end.
Definition listKernelPolicyRules (h : handle) : K (result (list kernelPolicyRule)) :=
  got_as (lit "query IPv4 policy rules: %w") (call (RuleDump h)) (λ messages : list rawRule, mret (policyRules messages)).

Definition IPNet_String (n : ipNet) : string :=
  match n_Ones n with
  | Some ones => Addr4_String (n_IP n) +:+ "/" +:+ FormatInt ones
  | None => "<nil>"
  end.
Definition sameDestination (a b : option ipNet) : bool :=
  match a, b with
  | None, None => true
  | Some a, Some b => IPNet_String a ==? IPNet_String b
  | _, _ => false
  end.

(** [%v] of a destination and of a list of strings. *)
Definition show_dst (d : option ipNet) : string := match d with Some n => IPNet_String n | None => "<nil>" end.
Fixpoint spaced (l : list string) : string :=
  match l with [] => "" | [x] => x | x :: l' => x +:+ " " +:+ spaced l' end.
Definition show_list (l : list string) : string := "[" +:+ spaced l +:+ "]".
(** Whether the wanted rule is there; an error if its priority has another one. *)
Fixpoint findRule (want : rule) (rules : list kernelPolicyRule) (found : bool) : result bool :=
  match rules with
  | [] => Ok found
  | r :: rules' =>
      if negb (pr_priority r =? r_Priority want) then findRule want rules' found
      else if found || negb (pr_table r =? r_Table want) || negb (pr_action r =? r_Type want) ||
              negb (bool_decide (pr_extra r = [])) || negb (sameDestination (pr_dst r) (r_Dst want))
      then Err (Errorf (Sprintf "priority %d has unexpected or duplicate policy rule: table=%d action=%d destination=%v extra=%v; want table=%d action=%d destination=%v"
             [FormatInt (r_Priority want); FormatInt (pr_table r); FormatInt (pr_action r); show_dst (pr_dst r); show_list (pr_extra r);
              FormatInt (r_Table want); FormatInt (r_Type want); show_dst (r_Dst want)]))
      else findRule want rules' true
  end.
Definition ensureRule (h : handle) (want : rule) : K (result unit) :=
  got (listKernelPolicyRules h) (λ rules,
  checked (findRule want rules false) (λ found : bool,
  if found then mret (Ok tt)
  else got_as (Sprintf "add priority %d policy rule: %w" [FormatInt (r_Priority want)]) (call (RuleAdd h want)) (λ _, mret (Ok tt)))).

(** [net.ParseCIDR] of an IPv4 block: the network. *)
Definition ParseCIDR_net (s : string) : result ipNet :=
  match ParsePrefix s with
  | Some p =>
      match p_ip (Masked p) with
      | Addr4 v => Ok (MkIPNet v (Some (p_bits p)))
      | _ => Err (ErrIO ("invalid CIDR address: " +:+ s))
      end
  | None => Err (ErrIO ("invalid CIDR address: " +:+ s))
  end.
Definition localRule (destination : ipNet) : rule := MkRule localPriority (Some destination) mainRouteTable RTN_UNICAST.
Definition dropRule : rule := MkRule dropPriority None mainRouteTable RTN_BLACKHOLE.
Definition ensurePolicyRules (h : handle) (cidr : Prefix) : K (result unit) :=
  checked (wrap_err (Sprintf "parse VPC policy CIDR %s: %w" [Prefix_String cidr]) (ParseCIDR_net (Prefix_String cidr))) (λ destination,
  got_as (lit "local VPC rule: %w") (ensureRule h (localRule destination)) (λ _,
  got_as (lit "unmatched blackhole rule: %w") (ensureRule h dropRule) (λ _, mret (Ok tt)))).

(** ** VPCs *)
Definition convergeVPC (vpc : VPC) (gateways : list Addr) (h : handle) : K (result unit) :=
  unless_done (
  got_as (Sprintf "VPC %s router links: %w" [VPC_ID vpc]) (ensureRouterLinks h) (λ _,
  got (setNamespaceSysctl h "net/ipv4/ip_forward" "1") (λ _,
  got (setNamespaceSysctl h "net/ipv4/conf/default/send_redirects" "0") (λ _,
  got (setNamespaceSysctl h "net/ipv4/conf/nxr0/send_redirects" "0") (λ _,
  got_as (Sprintf "VPC %s gateways: %w" [VPC_ID vpc]) (reconcileGateways h gateways) (λ _,
  got_as (Sprintf "VPC %s policy rules: %w" [VPC_ID vpc]) (ensurePolicyRules h (VPC_CIDRBlock vpc)) (λ _,
  unless_done (mret (Ok tt))))))))).
Definition EnsureVPC (vpc : VPC) (subnets : list Subnet) : K (result unit) :=
  checked (Name (VPC_ShortIndex vpc)) (λ name,
  checked (desiredGateways vpc subnets) (λ gateways,
  got_as (Sprintf "ensure VPC %s namespace %s: %w" [VPC_ID vpc; name]) (Kernel.Ensure name) (λ _,
  WithHandle name (convergeVPC vpc gateways)))).
Definition DeleteVPC (vpc : VPC) : K (result unit) :=
  checked (Name (VPC_ShortIndex vpc)) (λ name,
  got_as (Sprintf "delete VPC %s namespace %s: %w" [VPC_ID vpc; name]) (Kernel.Delete name) (λ _, mret (Ok tt))).
Definition ListVPCNames : K (result (list string)) := Kernel.List_.

(** ** Source checks *)
Record nftTable := MkNftTable { nt_Family : string; nt_Name : string; nt_Comment : string }.
Definition field_nftTable (key : list Z) : option (json → nftTable → result nftTable) :=
  if is_field "Family" key then Some (λ v x, s ← dec_string v (nt_Family x); Ok (MkNftTable s (nt_Name x) (nt_Comment x)))
  else if is_field "Name" key then Some (λ v x, s ← dec_string v (nt_Name x); Ok (MkNftTable (nt_Family x) s (nt_Comment x)))
  else if is_field "Comment" key then Some (λ v x, s ← dec_string v (nt_Comment x); Ok (MkNftTable (nt_Family x) (nt_Name x) s))
  else None.
(** An entry of the list: a pointer to a table. *)
Definition field_nftEntry (key : list Z) : option (json → option nftTable → result (option nftTable)) :=
  if is_field "Table" key then Some (λ v x,
    match v with
    | JNull => Ok None
    | _ => t ← dec_struct field_nftTable v (default (MkNftTable "" "" "") x); Ok (Some t)
    end)
  else None.
Definition field_nftables (key : list Z) : option (json → list (option nftTable) → result (list (option nftTable))) :=
  if is_field "Nftables" key then Some (dec_slice (dec_struct field_nftEntry) None) else None.

(** Whether the table is there and ours. *)
Fixpoint ownTable (entries : list (option nftTable)) (exists_ : bool) : result bool :=
  match entries with
  | [] => Ok exists_
  | entry :: entries' =>
      match entry with
      | Some t =>
          if (nt_Family t ==? "inet") && (nt_Name t ==? "nephos") then
            if nt_Comment t !=? eniPolicyComment then Err (Errorf (lit "refusing foreign nftables table inet nephos"))
            else ownTable entries' true
          else ownTable entries' exists_
      | None => ownTable entries' exists_
      end
  end.

(** The records of the router's links. *)
Fixpoint linkRecords (links : list link) (records : gmap string eniIdentity) : result (gmap string eniIdentity) :=
  match links with
  | [] => Ok records
  | l :: links' =>
      if negb (HasPrefix (l_Name l) "ve") then linkRecords links' records
      else if negb (canonicalENILink (l_Name l)) || (l_Type l !=? "veth")
      then Err (Errorf (Sprintf "refusing foreign ENI link %q" [l_Name l]))
      else record ← parseENIAlias (l_Alias l); linkRecords links' (<[l_Name l := record]> records)
  end.
Definition nftList : list string := ["-j"; "list"; "ruleset"].
Definition nftApply : list string := ["-f"; "-"].
Definition applyENISourceChecks (h : handle) : K (result unit) :=
  got_as (lit "list router ENIs: %w") (call (LinkList h)) (λ links : list link,
  checked (linkRecords links ∅) (λ records,
  listed ← call (Nft h nftList "");
  match listed : string * option error with
  | (_, Some e) => mret (Err (Wrapf (lit "inspect VPC nftables: %w") e))
  | (output, None) =>
      checked (wrap_err (lit "decode VPC nftables: %w") (unmarshal (dec_struct field_nftables) [] output)) (λ entries,
      checked (ownTable entries false) (λ exists_ : bool,
      checked (renderENISourceChecks (map_to_list records) records exists_) (λ script,
      applied ← call (Nft h nftApply script);
      match applied : string * option error with
      | (output, Some e) => mret (Err (Wrapf (Sprintf "apply ENI source checks: %w: %s" [TrimSpace output]) e))
      | (_, None) => mret (Ok tt)
      end)))
  end)).

(** ** Interfaces *)

(** [visit] is the order in which the map of settings is visited. *)
Definition eniSysctls : list (string * string) := [("proxy_arp", "1"); ("send_redirects", "0"); ("rp_filter", "0")].
Definition setENISysctls (h : handle) (visit : list (string * string)) (name : string) : K (result unit) :=
  if negb (canonicalENILink name) then mret (Err (Errorf (Sprintf "invalid ENI sysctl target %q" [name])))
  else
    for_each visit (λ kv,
      got_as (Sprintf "set router ENI %s %s: %w" [name; kv.1])
        (call (WriteFile h ("/proc/sys/net/ipv4/conf/" +:+ name +:+ "/" +:+ kv.1) kv.2)) (λ _, mret (Ok tt)))
      (mret (Ok tt)).

(** The guards before anything is touched. *)
Definition eniGuards (vpc : VPC) (subnet : Subnet) (eni : ENI) (target : option InstanceTarget) : result (string * string * string) :=
  require (negb (Inode target =? 0)) (Errorf (lit "missing verified instance namespace")) ;;
  _ ← desiredGateways vpc [subnet];
  require (negb ((ENI_SubnetID eni !=? Subnet_ID subnet) || (ENI_WorkspaceID eni !=? Subnet_WorkspaceID subnet) ||
                 (Subnet_WorkspaceID subnet !=? VPC_WorkspaceID vpc) ||
                 negb (Contains (Subnet_CIDRBlock subnet) (ENI_PrivateIP eni))))
    (Errorf (Sprintf "ENI %s does not belong to subnet %s in VPC %s" [ENI_ID eni; Subnet_ID subnet; VPC_ID vpc])) ;;
  let first := Next (Next (Next (Next (p_ip (Subnet_CIDRBlock subnet))))) in
  require (negb ((Compare (ENI_PrivateIP eni) first <? 0) || negb (Contains (Subnet_CIDRBlock subnet) (Next (ENI_PrivateIP eni)))))
    (Errorf (Sprintf "ENI %s uses a reserved subnet address" [ENI_ID eni])) ;;
  name ← eniLinkName (ENI_ShortIndex eni);
  namespace ← Name (VPC_ShortIndex vpc);
  let alias := eniAlias eni (Inode target) in
  _ ← parseENIAlias alias;
  Ok (name, namespace, alias).

(** [net.IP.Equal] to an IPv4 address of four bytes. *)
Definition IP_Equal (ip four : list Z) : bool :=
  bool_decide (ip = four) || bool_decide (ip = replicate 10 0 ++ [255; 255] ++ four).

Section interface.
Context (subnet : Subnet) (eni : ENI) (target : option InstanceTarget) (visit : list (string * string)).
Context (name alias : string) (fd : Z).
Let gateway := Next (p_ip (Subnet_CIDRBlock subnet)).
Let peerName := "vp" +:+ FormatInt (ENI_ShortIndex eni).

(** The instance has no [eth0] yet. *)
Definition noForeignPeer : K (result unit) :=
  WithInstanceHandle target (λ p,
  found ← call (LinkByName p "eth0");
  match found : result link with
  | Ok _ => mret (Err (Errorf (lit "refusing pre-existing foreign eth0")))
  | Err e => if errors_Is e LinkNotFoundError then mret (Ok tt) else mret (Err e)
  end).

(** The router's end of the pair, which is created when there is none. *)
Definition routerEnd (h : handle) : K (result (link * bool)) :=
  found ← call (LinkByName h name);
  match found : result link with
  | Ok router =>
      if (l_Type router !=? "veth") || (l_Alias router !=? alias)
      then mret (Err (Errorf (Sprintf "refusing foreign or mismatched router link %s" [name])))
      else mret (Ok (router, false))
  | Err e =>
      if errors_Is e LinkNotFoundError then
        got noForeignPeer (λ _,
        got_as (Sprintf "create ENI pair %s: %w" [name]) (call (LinkAdd h (Veth name alias peerName fd))) (λ _ : unit,
        got_as (Sprintf "find created ENI %s: %w" [name]) (call (LinkByName h name)) (λ router : link,
        mret (Ok (router, true)))))
      else mret (Err (Wrapf (Sprintf "find router ENI %s: %w" [name]) e))
  end.

(** A new link is marked and read again; next to the result, what the variable
    [router] holds afterwards ([None] is nil). *)
Definition markRouter (h : handle) (router : link) (created : bool) : K (result link * option link) :=
  if created then
    marked ← call (LinkSetAlias h router alias);
    match marked : result unit with
    | Err e => mret (Err (Wrapf (Sprintf "mark router ENI %s: %w" [name]) e), Some router)
    | Ok _ =>
        found ← call (LinkByName h name);
        match found : result link with
        | Err e => mret (Err e, None)
        | Ok router =>
            mret (if l_Alias router !=? alias
                  then Err (Errorf (Sprintf "router ENI %s ownership marker did not persist" [name])) else Ok router, Some router)
        end
    end
  else mret (Ok router, Some router).

(** The other end, found by its name. *)
Definition peerLink (p : handle) (found : result link) : K (result link) :=
  match found with
  | Err e => if errors_Is e LinkNotFoundError then call (LinkByName p peerName) else mret (Err e)
  | Ok l => mret (Ok l)
  end.
Definition addressPeer (p : handle) (peer : link) : K (result unit) :=
  checked (ParseMAC (ENI_MACAddress eni)) (λ mac,
  got_as (lit "set instance MAC: %w") (call (LinkSetHardwareAddr p peer mac)) (λ _ : unit,
  got_as (lit "set instance address: %w")
    (call (AddrReplace p peer (MkPrefix (ENI_PrivateIP eni) (p_bits (Subnet_CIDRBlock subnet))))) (λ _ : unit,
  got (call (LinkByName p "lo")) (λ lo : link, call (LinkSetUp p lo))))).
Definition setPeer (p : handle) (peer : link) : K (result unit) :=
  got (call (LinkSetDown p peer)) (λ _ : unit,
  got_as (lit "mark instance ENI: %w") (call (LinkSetAlias p peer alias)) (λ _ : unit,
  got (if l_Name peer !=? "eth0" then
         got_as (lit "rename instance ENI: %w") (call (LinkSetName p peer "eth0")) (λ _ : unit, call (LinkByName p "eth0"))
       else mret (Ok peer)) (addressPeer p))).
Definition adoptPeer (router : link) (created : bool) (p : handle) (peer : link) : K (result unit) :=
  if (l_Type peer !=? "veth") || negb (l_ParentIndex peer =? l_Index router) || negb (l_ParentIndex router =? l_Index peer)
  then mret (Err (Errorf (lit "refusing unrelated instance link")))
  else if (l_Alias peer !=? alias) && (negb created || (l_Alias peer !=? ""))
  then mret (Err (Errorf (lit "refusing foreign instance ENI")))
  else setPeer p peer.
Definition configurePeer (router : link) (created : bool) (p : handle) : K (result unit) :=
  found ← call (LinkByName p "eth0");
  got_as (lit "find instance ENI: %w") (peerLink p found) (adoptPeer router created p).

Definition activatePeer (p : handle) : K (result unit) :=
  got (call (LinkByName p "eth0")) (λ peer : link,
  got (call (LinkSetUp p peer)) (λ _ : unit,
  checked (ParseCIDR_net (Addr_String gateway +:+ "/32")) (λ gatewayNet,
  got_as (lit "set on-link gateway route: %w")
    (call (RouteReplace p (MkRoute (l_Index peer) (Some gatewayNet) None true 0))) (λ _ : unit,
  got_as (lit "set instance default route: %w")
    (call (RouteReplace p (MkRoute (l_Index peer) None (Some gateway) false 0))) (λ _ : unit, mret (Ok tt)))))).

(** From the marked link to the active pair. *)
Definition plumbPair (h : handle) (router : link) (created : bool) : K (result unit) :=
  got_as (Sprintf "quiesce ENI %s: %w" [name]) (call (LinkSetDown h router)) (λ _ : unit,
  got (setENISysctls h visit name) (λ _,
  got_as (lit "verify ENI peer namespace: %w") (call (GetNetNsIdByFd h fd)) (λ nsID : Z,
  if (nsID <? 0) || negb (l_NetNsID router =? nsID)
  then mret (Err (Errorf (Sprintf "ENI %s peer is not in pinned instance namespace" [name])))
  else
    got (WithInstanceHandle target (configurePeer router created)) (λ _,
    got (applyENISourceChecks h) (λ _,
    got (WithInstanceHandle target activatePeer) (λ _,
    got_as (Sprintf "activate ENI %s: %w" [name]) (call (LinkSetUp h router)) (λ _ : unit,
    checked (ParseCIDR_net (Addr_String (ENI_PrivateIP eni) +:+ "/32")) (λ hostNet,
    got_as (lit "set ENI host route: %w")
      (call (RouteReplace h (MkRoute (l_Index router) (Some hostNet) None true mainRouteTable))) (λ _ : unit, mret (Ok tt)))))))))).

(** The deferred removal of a new link; of a nil link it panics. *)
Definition nilLink : error := ErrIO "runtime error: invalid memory address or nil pointer dereference".
Definition undo (h : handle) (router : option link) (created : bool) (r : result unit) : K (result unit) :=
  match r with
  | Ok _ => mret (Ok tt)
  | Err e =>
      if created then
        match router with
        | Some router => _ ← call (LinkDel h router); mret (Err e)
        | None => mret (Err nilLink)
        end
      else mret (Err e)
  end.

Definition gatewayReady (addresses : list kaddr) : bool :=
  existsb (λ a, match ka_IP a with Some ip => IP_Equal ip (AsSlice gateway) | None => false end && (ka_Label a ==? gatewayLabel)) addresses.
Definition ensurePair (h : handle) : K (result unit) :=
  unless_done (
  got_as (lit "find converged router: %w") (call (LinkByName h routerLinkName)) (λ dummy : link,
  got (call (AddrList h dummy)) (λ addresses : list kaddr,
  if negb (gatewayReady addresses) then mret (Err (Errorf (Sprintf "subnet %s gateway is not ready" [Subnet_ID subnet])))
  else
    got (routerEnd h) (λ found,
    let '(router, created) := found in
    marked ← markRouter h router created;
    r ← match marked.1 with Ok router => plumbPair h router created | Err e => mret (Err e) end;
    undo h marked.2 created r)))).
End interface.

Definition EnsureENI (vpc : VPC) (subnet : Subnet) (eni : ENI) (target : option InstanceTarget) (visit : list (string * string))
    : K (result unit) :=
  checked (eniGuards vpc subnet eni target) (λ names,
  let '(name, namespace, alias) := names in
  WithFD target (λ fd, WithHandle namespace (ensurePair subnet eni target visit name alias fd))).

(** The link is deleted when its marker names the interface. *)
Definition deleteMarked (name : string) (eni : ENI) (h : handle) (found : result link) : K (result unit) :=
  match found with
  | Err e => if errors_Is e LinkNotFoundError then mret (Ok tt) else mret (Err e)
  | Ok link =>
      checked (parseENIAlias (l_Alias link)) (λ record,
      if (l_Type link !=? "veth") || (id_ID record !=? ENI_ID eni) || (id_IP record !=? ENI_PrivateIP eni) ||
         (id_MAC record !=? ENI_MACAddress eni)
      then mret (Err (Errorf (Sprintf "refusing foreign router ENI %s" [name])))
      else got_as (Sprintf "delete ENI %s: %w" [name]) (call (LinkDel h link)) (λ _ : unit, mret (Ok tt)))
  end.
Definition removeENI (namespace name : string) (eni : ENI) : K (result unit) :=
  WithHandle namespace (λ h,
  found ← call (LinkByName h name);
  got (deleteMarked name eni h found) (λ _, applyENISourceChecks h)).
Definition DeleteENI (vpc : VPC) (eni : ENI) : K (result unit) :=
  checked (eniLinkName (ENI_ShortIndex eni)) (λ name,
  checked (Name (VPC_ShortIndex vpc)) (λ namespace,
  r ← removeENI namespace name eni;
  match r with
  | Err e => if errors_Is e os_ErrNotExist then mret (Ok tt) else mret (Err e)
  | Ok _ => mret (Ok tt)
  end)).
