(* ===== verification/EngineSafety.v ===== *)
(** What the network engine does to the kernel, whatever the kernel answers. *)

From S2P Require Import Prelude Errors GoStrings Encodings Utf8 NetIP Netns Mac Model Json EniPolicy Programs Kernel Engine.
Local Open Scope Z_scope.

Abbreviation history := (list (event kcall)).

(** ** Tactics *)
Ltac wp_do := match goal with |- wp ?a (call ?c) ?t ?Q => refine (wp_call a c t Q _ _) end.

Lemma wp_unless {A} allowed (next : K (result A)) t Q :
  allowed t CtxErr → (∀ e, Q (t ++ [Ev CtxErr (Some e)]) (Err e)) → wp allowed next (t ++ [Ev CtxErr None]) Q →
  wp allowed (unless_done next) t Q.
Proof. intros Ha He Hn. unfold unless_done. apply wp_bind. wp_do; [done|]. intros [e|]; [apply He|exact Hn]. Qed.

(** One call whose error is returned. *)
Ltac wp_try := first [apply wp_got_as | apply wp_got]; wp_do;
  [|let a := fresh "a" in let e := fresh "e" in intros [a|e]; cbv beta iota;
    [lazymatch type of a with unit => destruct a | _ => idtac end|]].
(** An event is in the history. *)
Ltac in_hist :=
  first
    [ assumption
    | apply list_elem_of_singleton; reflexivity
    | apply elem_of_app; right; in_hist
    | apply elem_of_app; left; in_hist ].
Ltac wp_check := apply wp_checked; [intros ? ?|intros ? ?].

(** ** Namespaces *)
Section mounts.
Context (allowed : history → kcall → Prop).
Context (Hctx : ∀ t, allowed t CtxErr) (Hlstat : ∀ t p, allowed t (Lstat p)) (Hstatfs : ∀ t p, allowed t (Statfs p)).

Definition mounted (path : string) (t : history) : Prop :=
  Ev (Lstat path) (Ok false) ∈ t ∧ Ev (Statfs path) (Ok NSFS_MAGIC) ∈ t.
Lemma requireNamespaceMount_wp path t (Q : history → result unit → Prop) :
  (∀ t' e, Q t' (Err e)) → (∀ t', t `prefix_of` t' → mounted path t' → Q t' (Ok tt)) →
  wp allowed (requireNamespaceMount path) t Q.
Proof using Hctx Hlstat Hstatfs.
  intros He Ho. unfold requireNamespaceMount. wp_try; [done| |by apply He].
  destruct a; [apply wp_ret, He|]. wp_try; [done| |by apply He]. apply wp_ret.
  destruct (Z.eqb_spec a NSFS_MAGIC) as [->|]; [|by apply He]. apply Ho; [by do 2 apply prefix_app_r|].
  split; in_hist.
Qed.
End mounts.

(** Calls that look or switch namespaces. *)
Definition passive (c : kcall) : Prop :=
  match c with
  | CtxErr | Lstat _ | Statfs _ | OpenNs _ | SetNs _ | GetNs _ | NewHandleAt _ | DupFd => True
  | _ => False
  end.
(** A run of such calls. *)
Definition quiet (t t' : history) : Prop := ∃ u, t' = t ++ u ∧ Forall (λ e, passive (ev_call e)) u.
Lemma quiet_refl t : quiet t t.
Proof. exists []. by rewrite app_nil_r. Qed.
Lemma quiet_step t t' c b : passive c → quiet t t' → quiet t (t' ++ [Ev c b]).
Proof.
  intros Hc (u & -> & Hu). exists (u ++ [Ev c b]). rewrite <- app_assoc. split; [done|]. apply Forall_app. by repeat constructor.
Qed.
Lemma quiet_prefix t t' : quiet t t' → t `prefix_of` t'.
Proof. intros (u & -> & _). by apply prefix_app_r. Qed.

Section wrappers.
Context (allowed : history → kcall → Prop) (Hpassive : ∀ t c, passive c → allowed t c).

Ltac grows := repeat (apply quiet_step; [exact I|]); first [apply quiet_refl | done].
Lemma within_wp name fn t (Q : history → result unit → Prop) :
  (∀ t' e, quiet t t' → Q t' (Err e)) → (∀ t', quiet t t' → wp allowed (fn (InVPC name)) t' Q) →
  wp allowed (WithHandle name fn) t Q.
Proof using Hpassive.
  intros He Hfn. unfold WithHandle, Do. wp_check; [|apply He; grows]. apply wp_unless; [by apply Hpassive|intros; apply He; grows|].
  apply wp_got. unfold requireNamespaceMount. wp_try; [by apply Hpassive| |apply He; grows]. rename a0 into sym.
  destruct sym; [apply wp_ret, He; grows|]. wp_try; [by apply Hpassive| |apply He; grows]. rename a0 into type. apply wp_ret.
  destruct (type =? NSFS_MAGIC); cbn [require]; [|apply He; grows].
  wp_try; [by apply Hpassive| |apply He; grows]. apply wp_unless; [by apply Hpassive|intros; apply He; grows|].
  wp_try; [by apply Hpassive| |apply He; grows]. wp_try; [by apply Hpassive| |apply He; grows].
  wp_try; [by apply Hpassive| |apply He; grows]. apply Hfn. grows.
Qed.
Lemma pinned_wp {A} target fn t (Q : history → result A → Prop) :
  (∀ t' e, quiet t t' → Q t' (Err e)) → (∀ t' fd, quiet t t' → Ev DupFd (Ok fd) ∈ t' → wp allowed (fn fd) t' Q) →
  wp allowed (WithFD target fn) t Q.
Proof using Hpassive.
  intros He Hf. unfold WithFD. apply wp_unless; [by apply Hpassive|intros; apply He; grows|].
  destruct target as [tg|]; [|apply wp_ret, He; grows]. destruct (tg_Open tg); cbn [negb]; [|apply wp_ret, He; grows].
  wp_try; [by apply Hpassive|apply Hf; [grows|in_hist]|apply He; grows].
Qed.
Lemma instance_wp target fn t (Q : history → result unit → Prop) :
  (∀ t' e, t `prefix_of` t' → Q t' (Err e)) → (∀ t', t `prefix_of` t' → wp allowed (fn InInstance) t' Q) →
  wp allowed (WithInstanceHandle target fn) t Q.
Proof using Hpassive.
  intros He Hf. unfold WithInstanceHandle. apply pinned_wp; [intros t' e Ht'; by apply He, quiet_prefix|]. intros t' fd Ht'%quiet_prefix _.
  apply wp_unless; [by apply Hpassive|intros; apply He; by apply prefix_app_r|].
  wp_try; [by apply Hpassive| |apply He; by do 2 apply prefix_app_r].
  wp_try; [by apply Hpassive| |apply He; by do 3 apply prefix_app_r]. apply Hf. by do 3 apply prefix_app_r.
Qed.
End wrappers.

(** ** VPCs *)
Definition sysctls : list (string * string) :=
  [("/proc/sys/net/ipv4/ip_forward", "1"); ("/proc/sys/net/ipv4/conf/default/send_redirects", "0");
   ("/proc/sys/net/ipv4/conf/nxr0/send_redirects", "0")].

(** What [EnsureVPC] may do after [t]. *)
Definition vpc_allowed (name : string) (gateways : list Addr) (cidr : Prefix) (t : history) (c : kcall) : Prop :=
  match c with
  | CtxErr | Lstat _ | Statfs _ | MkdirAll _ | CloseFile _ | Unshare | OpenNs _ | SetNs _ | GetNs _ | NewHandleAt _ | DupFd
  | LinkByName _ _ | AddrList _ _ | RuleDump _ => True
  | CreateExcl p => p = namespacePath name ∧ ∃ e, Ev (Lstat p) (Err e) ∈ t ∧ errors_Is e os_ErrNotExist = true
  | BindMount p | Remove p => p = namespacePath name ∧ Ev (CreateExcl p) (Ok tt) ∈ t
  | LinkAdd h l => h = InVPC name ∧ l = Dummy routerLinkName ∧
      ∃ e, Ev (LinkByName h routerLinkName) (Err e) ∈ t ∧ errors_Is e LinkNotFoundError = true
  | LinkSetUp h l => h = InVPC name ∧
      (Ev (LinkByName h "lo") (Ok l) ∈ t ∨ (Ev (LinkByName h routerLinkName) (Ok l) ∈ t ∧ l_Type l = "dummy"))
  | WriteFile h p v => h = InVPC name ∧ (p, v) ∈ sysctls
  | AddrAdd h l a => h = InVPC name ∧ Ev (LinkByName h routerLinkName) (Ok l) ∈ t ∧ ∃ g, g ∈ gateways ∧ a = gatewayAddr g
  | AddrDel h l a => h = InVPC name ∧ ∃ existing, Ev (AddrList h l) (Ok existing) ∈ t ∧ a ∈ existing ∧
      ka_Label a = gatewayLabel ∧ ∀ ip x, ka_IP a = Some ip → AddrFromSlice ip = Some x → Unmap x ∉ gateways
  | RuleAdd h r => h = InVPC name ∧
      (r = dropRule ∨ ∃ d, ParseCIDR_net (Prefix_String cidr) = Ok d ∧ r = localRule d) ∧
      ∃ messages rules, Ev (RuleDump h) (Ok messages) ∈ t ∧ policyRules messages = Ok rules ∧
        ∀ k, k ∈ rules → pr_priority k ≠ r_Priority r
  | _ => False
  end.

Section vpc.
Context (name : string) (gateways : list Addr) (cidr : Prefix).
Let allowed := vpc_allowed name gateways cidr.
Let h := InVPC name.

Definition created (t : history) : Prop := Ev (CreateExcl (namespacePath name)) (Ok tt) ∈ t.
Lemma makeNamespace_wp t (Q : history → result unit → Prop) :
  created t → (∀ t' r, created t' → Q t' r) → wp allowed (makeNamespace name) t Q.
Proof.
  intros Hc HQ. assert (∀ t' e, created t' → created (t' ++ [e])) as Hm by (intros; by apply elem_of_app; left).
  unfold makeNamespace. apply wp_unless; [done|by auto|]. wp_try; [done| |by auto]. wp_try; [| |by auto 6].
  - split; [done|]. exact (Hm _ _ (Hm _ _ Hc)).
  - apply wp_ret. auto 6.
Qed.
Lemma Ensure_wp t (Q : history → result unit → Prop) : (∀ t' r, Q t' r) → wp allowed (Kernel.Ensure name) t Q.
Proof.
  intros HQ. assert (∀ t' e, created t' → created (t' ++ [e])) as Hm by (intros; by apply elem_of_app; left).
  unfold Kernel.Ensure. wp_check; [|by apply HQ]. apply wp_unless; [done|by intros; apply HQ|].
  wp_try; [done| |by apply HQ]. apply wp_bind. wp_do; [done|]. intros [s|e]; cbv beta iota.
  { apply requireNamespaceMount_wp; try done; intros; apply HQ. }
  destruct (errors_Is e os_ErrNotExist) eqn:Ee; cbn [negb]; [|apply wp_ret, HQ].
  apply wp_unless; [done|by intros; apply HQ|]. wp_try; [split; [done|]; exists e; split; [in_hist|done]| |by apply HQ].
  match goal with |- wp _ _ ?u _ => assert (created u) as Hcu by (unfold created; in_hist); revert Hcu; generalize u end.
  clear t. intros t Hcu. apply wp_bind. wp_do; [done|]. intros [[]|e']; cbv beta iota.
  - apply wp_bind. apply makeNamespace_wp; [by apply Hm|]. intros t' [[]|e'] Hc'.
    + apply requireNamespaceMount_wp; try done; intros; apply HQ.
    + apply wp_bind. wp_do; [done|]. intros [[]|]; apply wp_ret, HQ.
  - apply wp_bind. wp_do; [split; [done|exact (Hm _ _ Hcu)]|]. intros ?. apply wp_ret, HQ.
Qed.

(** Nothing is claimed of the end of a run here. *)
Abbreviation any := (λ (_ : history) (_ : result unit), True).

Lemma routerLinks_wp t : wp allowed (ensureRouterLinks h) t any.
Proof.
  unfold ensureRouterLinks. wp_try; [done| |done]. wp_try; [split; [done|]; left; in_hist| |done].
  apply wp_bind. wp_do; [done|].
  assert (∀ t l, wp allowed (upRouter h (Ok l)) (t ++ [Ev (LinkByName h routerLinkName) (Ok l)]) any) as Hup.
  { intros t' l. unfold upRouter. destruct (l_Type l ==? "dummy") eqn:E; cbn [negb]; [|done]. apply (proj1 (beq_true _ _)) in E.
    wp_try; [|done..]. split; [done|]. right. split; [in_hist|done]. }
  intros [l|e]; cbv beta; unfold routerLink; [apply Hup|]. destruct (errors_Is e LinkNotFoundError) eqn:E; [|exact I].
  wp_try; [split; [done|]; split; [done|]; exists e; split; [in_hist|done]| |done].
  apply wp_bind. wp_do; [done|]. intros [l|e']; [apply Hup|exact I].
Qed.
Lemma sysctl_wp t key value : ("/proc/sys/" +:+ key, value) ∈ sysctls → wp allowed (setNamespaceSysctl h key value) t any.
Proof.
  intros H. unfold setNamespaceSysctl. destruct (_ || _); [exact I|]. destruct (negb _); [exact I|].
  wp_try; [by split|exact I..].
Qed.

Definition listed (l : link) (existing : list kaddr) (t : history) : Prop := Ev (AddrList h l) (Ok existing) ∈ t.
Lemma wantedOf_keys a : a ∈ gateways → is_Some (wantedOf gateways !! Addr_String a).
Proof.
  unfold wantedOf. clear. intros Ha. assert (∀ m, a ∈ gateways ∨ is_Some (m !! Addr_String a) →
    is_Some (foldl (λ (m : gmap string bool) a, <[Addr_String a := false]> m) m gateways !! Addr_String a)) as H; [|by apply H; left].
  clear Ha. induction gateways as [|g l IH]; intros m [H|H]; cbn [foldl]; [set_solver|done|..]; apply IH.
  - apply elem_of_cons in H as [->|H]; [right|by left]. rewrite lookup_insert_eq. eauto.
  - right. destruct (decide (Addr_String g = Addr_String a)) as [->|]; [rewrite lookup_insert_eq; eauto|]. by rewrite lookup_insert_ne.
Qed.
Lemma dropStale_wp l all existing wanted t (Q : history → result (gmap string bool) → Prop) :
  listed l all t → existing ⊆ all → (∀ a, a ∈ gateways → is_Some (wanted !! Addr_String a)) →
  (∀ t' e, Q t' (Err e)) → (∀ t' w, t `prefix_of` t' → Q t' (Ok w)) →
  wp allowed (dropStale h l existing wanted) t Q.
Proof.
  intros Hl Hsub Hw He Ho. revert wanted t Hl Hw Ho. induction existing as [|a existing IH]; intros wanted t Hl Hw Ho; cbn [dropStale].
  { by apply wp_ret, Ho. }
  assert (existing ⊆ all) as Hsub' by set_solver. destruct (ka_IP a) as [ip|] eqn:Ei; [|by apply IH].
  destruct (AddrFromSlice ip) as [x|] eqn:Ex; [|by apply wp_ret, He]. cbv zeta.
  destruct (_ && _); [by apply wp_ret, He|]. destruct (ka_Label a ==? gatewayLabel) eqn:El; cbn [negb]; [|by apply wp_ret, He].
  apply (proj1 (beq_true _ _)) in El. destruct (bool_decide _) eqn:En.
  - destruct (_ || _); [by apply wp_ret, He|]. apply IH; [done|done| |done]. intros g Hg.
    destruct (decide (Addr_String (Unmap x) = Addr_String g)) as [->|]; [rewrite lookup_insert_eq; eauto|].
    rewrite lookup_insert_ne by done. by apply Hw.
  - apply bool_decide_eq_false in En. wp_try; [| |by apply He].
    + split; [done|]. exists all. split; [done|]. split; [set_solver|]. split; [done|]. intros ip' x' E1 E2 Hin.
      apply En. simplify_eq. by apply Hw.
    + apply IH; [done|by apply elem_of_app; left|done|]. intros t' w Ht'. apply Ho. etrans; [|exact Ht']. by apply prefix_app_r.
Qed.
Lemma addMissing_wp l desired wanted t :
  Ev (LinkByName h routerLinkName) (Ok l) ∈ t → desired ⊆ gateways → wp allowed (addMissing h l desired wanted) t any.
Proof.
  intros Hl. revert t Hl. induction desired as [|g desired IH]; intros t Hl Hsub; cbn [addMissing]; [done|].
  assert (desired ⊆ gateways) by set_solver. case_match; [by apply IH|]. wp_try; [|apply IH; [by apply elem_of_app; left|done]|done].
  split; [done|]. split; [done|]. exists g. split; [set_solver|done].
Qed.
Lemma reconcileGateways_wp t : wp allowed (reconcileGateways h gateways) t any.
Proof.
  unfold reconcileGateways. wp_try; [done| |done]. wp_try; [done| |done].
  apply wp_got. eapply dropStale_wp; [unfold listed; in_hist|done|apply wantedOf_keys|done|].
  intros t' w Ht'. apply addMissing_wp; [|done]. eapply prefix_elem; [exact Ht'|]. in_hist.
Qed.

Lemma findRule_absent want rules found :
  findRule want rules found = Ok false → ∀ k, k ∈ rules → pr_priority k ≠ r_Priority want.
Proof.
  revert found. induction rules as [|r rules IH]; intros found H k Hk; [set_solver|]. cbn [findRule] in H.
  destruct (Z.eqb_spec (pr_priority r) (r_Priority want)) as [E|E]; cbn [negb] in H.
  - destruct (_ || _) in H; [done|]. exfalso. clear -H. induction rules as [|r rules IH]; [done|]. cbn [findRule] in H.
    destruct (negb _); [by apply IH|]. done.
  - apply elem_of_cons in Hk as [->|Hk]; [done|]. by eapply IH.
Qed.
Lemma ensureRule_wp want t :
  want = dropRule ∨ (∃ d, ParseCIDR_net (Prefix_String cidr) = Ok d ∧ want = localRule d) →
  wp allowed (ensureRule h want) t any.
Proof.
  intros Hw. unfold ensureRule, listKernelPolicyRules. apply wp_got. wp_try; [done| |done]. apply wp_ret.
  destruct (policyRules a) as [rules|] eqn:Er; [|done]. wp_check; [|done]. destruct a0; [done|].
  wp_try; [|done..]. split; [done|]. split; [done|]. exists a, rules. split; [in_hist|]. split; [done|]. by eapply findRule_absent.
Qed.
Lemma converge_wp vpc t : VPC_CIDRBlock vpc = cidr → wp allowed (convergeVPC vpc gateways h) t any.
Proof.
  intros Hc. unfold convergeVPC. rewrite Hc. apply wp_unless; [done..|].
  apply any_got_as; [apply routerLinks_wp|intros _ ?]. do 3 (apply any_got; [apply sysctl_wp; set_solver|intros _ ?]).
  apply any_got_as; [apply reconcileGateways_wp|intros _ ?]. apply any_got_as; [|intros _ ?; by apply wp_unless].
  unfold ensurePolicyRules. wp_check; [|done]. match goal with H : wrap_err _ _ = Ok _ |- _ => apply wrap_err_Ok in H end.
  apply any_got_as; [apply ensureRule_wp; eauto|intros _ ?]. apply any_got_as; [apply ensureRule_wp; by left|done].
Qed.
End vpc.

(** What [DeleteVPC] may do, and what [ListVPCNames] may do. *)
Definition delete_allowed (name : string) (t : history) (c : kcall) : Prop :=
  match c with
  | CtxErr | Lstat _ | Statfs _ => True
  | Unmount p | Remove p => p = namespacePath name ∧ mounted p t
  | _ => False
  end.
Definition list_allowed (t : history) (c : kcall) : Prop :=
  match c with CtxErr | Lstat _ | Statfs _ | ReadDir _ => True | _ => False end.

Lemma mounted_app path t u : mounted path t → mounted path (t ++ u).
Proof. intros [H1 H2]. split; apply elem_of_app; by left. Qed.
Lemma Delete_wp name t : wp (delete_allowed name) (Kernel.Delete name) t (λ _ _, True).
Proof.
  unfold Kernel.Delete. wp_check; [|done]. apply wp_unless; [done..|]. apply wp_bind. wp_do; [done|].
  intros [s|e]; cbv beta iota zeta; [|by destruct (errors_Is _ _)].
  apply wp_got, requireNamespaceMount_wp; try done. intros t' _ Hm.
  wp_try; [done| |done]. wp_try; [|done..]. split; [done|]. by apply mounted_app.
Qed.

(** The names that are reported. *)
Definition reported (t : history) (names : list string) : Prop :=
  ∀ n, n ∈ names → (∃ index, Name index = Ok n) ∧ mounted (namespacePath n) t.
Lemma reported_prefix t t' names : t `prefix_of` t' → reported t names → reported t' names.
Proof. intros [u ->] H n Hn. destruct (H n Hn). split; [done|]. by apply mounted_app. Qed.
Lemma ownedEntries_wp entries names t (Q : history → result (list string) → Prop) :
  reported t names → (∀ t' e, Q t' (Err e)) → (∀ t' l, reported t' l → Q t' (Ok l)) →
  wp list_allowed (ownedEntries entries names) t Q.
Proof.
  intros Hr He Ho. revert names t Hr. induction entries as [|n entries IH]; intros names t Hr; cbn [ownedEntries]; [by apply wp_ret, Ho|].
  apply wp_unless; [done|done|].
  assert (∀ u, reported (t ++ u) names) as Hr' by (intros u; eapply reported_prefix; [by apply prefix_app_r|done]).
  destruct (validateName n) as [[]|e] eqn:E; [|by apply IH].
  apply wp_got, requireNamespaceMount_wp; try done. intros t' Ht' Hm. apply IH. intros m Hm'. apply elem_of_app in Hm' as [Hm'|Hm']; [|apply list_elem_of_singleton in Hm' as ->].
  - eapply reported_prefix; [exact Ht'| |exact Hm']. apply Hr'.
  - split; [by apply validateName_iff|done].
Qed.
Lemma List_wp t :
  wp list_allowed ListVPCNames t (λ t' r, ∀ names, r = Ok names → reported t' names ∧ Sorted String.le names).
Proof.
  unfold ListVPCNames, List_. apply wp_unless; [done|done|]. apply wp_bind. wp_do; [done|]. intros [entries|e]; cbv beta iota.
  - apply wp_got, ownedEntries_wp; [intros n Hn; by apply not_elem_of_nil in Hn|done|].
    intros t' l Hl. apply wp_ret. intros names [= <-]. split; [|apply Sorted_merge_sort; apply _].
    intros n Hn. rewrite merge_sort_Permutation in Hn. by apply Hl.
  - destruct (errors_Is e os_ErrNotExist); apply wp_ret; [|done]. intros names [= <-]. split; [intros n Hn; by apply not_elem_of_nil in Hn|constructor].
Qed.

(** ** Properties *)

(** C23: Whatever the kernel answers, [EnsureVPC] changes nothing outside the VPC's
    own namespace: it makes the mount point only when it is absent and removes only
    one it made, brings up only the loopback and the dummy router, writes the three
    settings, adds only gateways that the subnets want, removes only addresses that
    it listed, that carry its label and that no subnet wants, and adds its two rules
    only when it saw no rule of that priority.  [DeleteVPC] unmounts and removes
    only the VPC's path, after it saw a namespace mounted there, and
    [ListVPCNames] changes nothing and reports, in order, only names that the engine
    gives to an index and that are mounted namespaces. *)
Theorem engine_keeps_to_its_own {S} (k : handler kcall S) (s : S) vpc subnets :
  (∀ t1 e t2, trace k (EnsureVPC vpc subnets) s = t1 ++ e :: t2 →
     ∃ name gateways, Name (VPC_ShortIndex vpc) = Ok name ∧ desiredGateways vpc subnets = Ok gateways ∧
       vpc_allowed name gateways (VPC_CIDRBlock vpc) t1 (ev_call e)) ∧
  (∀ t1 e t2, trace k (DeleteVPC vpc) s = t1 ++ e :: t2 →
     ∃ name, Name (VPC_ShortIndex vpc) = Ok name ∧ delete_allowed name t1 (ev_call e)) ∧
  (∀ t1 e t2, trace k ListVPCNames s = t1 ++ e :: t2 → list_allowed t1 (ev_call e)) ∧
  (∀ names, (run k ListVPCNames s).1 = Ok names → reported (trace k ListVPCNames s) names ∧ Sorted String.le names).
Proof.
  split_and!.
  - unfold EnsureVPC, checked. destruct (Name _) as [name|]; [|by intros []]. destruct (desiredGateways _ _) as [gateways|]; [|by intros []].
    intros t1 e t2 E. exists name, gateways. split; [done|]. split; [done|].
    refine (proj2 (wp_sound k (vpc_allowed name gateways (VPC_CIDRBlock vpc)) _ s [] (λ _ _, True) _) t1 e t2 E).
    apply wp_got_as, Ensure_wp. intros t' [a|e']; [|exact I]. apply within_wp; [by intros ? []|done|]. intros t3 _. by apply converge_wp.
  - unfold DeleteVPC, checked. destruct (Name _) as [name|]; [|by intros []]. intros t1 e t2 E. exists name. split; [done|].
    refine (proj2 (wp_sound k (delete_allowed name) _ s [] (λ _ _, True) _) t1 e t2 E). apply wp_got_as.
    eapply wp_mono; [apply Delete_wp|done|]. by intros ? [] _.
  - intros t1 e t2 E. exact (proj2 (wp_sound k _ _ s [] _ (List_wp [])) t1 e t2 E).
  - exact (proj1 (wp_sound k _ _ s [] _ (List_wp []))).
Qed.
