(* ===== verification/EniSafety.v ===== *)
(** How the engine plumbs and removes an instance's interface, whatever the kernel
    answers. *)

From S2P Require Import Prelude Errors GoStrings Encodings Utf8 NetIP Netns Mac Model Json EniPolicy Programs Kernel Engine.
From S2P Require Import EngineSafety.
Local Open Scope Z_scope.

(** ** Facts about the history *)
Section facts.
Context (h : handle) (name alias : string).

Definition found (l : link) (t : history) : Prop := Ev (LinkByName h name) (Ok l) ∈ t.
Definition missing (h : handle) (n : string) (t : history) : Prop :=
  ∃ e, Ev (LinkByName h n) (Err e) ∈ t ∧ errors_Is e LinkNotFoundError = true.
(** The source checks were computed from the links that were there and applied. *)
Definition rendered (script : string) (t : history) : Prop :=
  ∃ links records exists_, Ev (LinkList h) (Ok links) ∈ t ∧ linkRecords links ∅ = Ok records ∧
    renderENISourceChecks (map_to_list records) records exists_ = Ok script.
Definition checks_applied (t : history) : Prop :=
  ∃ script output, rendered script t ∧ Ev (Nft h nftApply script) (output, None) ∈ t.
(** The link was taken down and the checks were applied after that. *)
Definition protected (t : history) : Prop :=
  ∃ t1 l t2, t = t1 ++ Ev (LinkSetDown h l) (Ok tt) :: t2 ∧ checks_applied t2.
(** The other end of the link is in the namespace that is pinned. *)
Definition pinned (router : link) (t : history) : Prop :=
  ∃ fd, Ev DupFd (Ok fd) ∈ t ∧ Ev (GetNetNsIdByFd h fd) (Ok (l_NetNsID router)) ∈ t.
Lemma pinned_app router t u : pinned router t → pinned router (t ++ u).
Proof. intros (fd & H1 & H2). exists fd. split; apply elem_of_app; by left. Qed.
(** The other end of the marked link was seen in the pinned namespace. *)
Definition verified (t : history) : Prop :=
  ∃ router n peer, found router t ∧ l_Alias router = alias ∧
    pinned router t ∧ 0 ≤ l_NetNsID router ∧
    Ev (LinkByName InInstance n) (Ok peer) ∈ t ∧ l_Type peer = "veth" ∧
    l_ParentIndex peer = l_Index router ∧ l_ParentIndex router = l_Index peer.

Lemma rendered_app script t u : rendered script t → rendered script (t ++ u).
Proof. intros (links & records & e & H & ?). exists links, records, e. split; [|done]. apply elem_of_app. by left. Qed.
Lemma checks_applied_app t u : checks_applied t → checks_applied (t ++ u).
Proof. intros (s & o & H1 & H2). exists s, o. split; [by apply rendered_app|]. apply elem_of_app. by left. Qed.
Lemma protected_app t u : protected t → protected (t ++ u).
Proof.
  intros (t1 & l & t2 & -> & H). exists t1, l, (t2 ++ u). split; [|by apply checks_applied_app]. by rewrite <- app_assoc.
Qed.
Lemma verified_app t u : verified t → verified (t ++ u).
Proof.
  intros (r & n & p & H1 & H2 & H3 & H4 & H5 & H6). exists r, n, p.
  split; [by apply elem_of_app; left|]. split; [done|]. split; [by apply pinned_app|]. split; [done|]. split; [by apply elem_of_app; left|done].
Qed.
End facts.

(** Facts that stay. *)
Definition stays (P : history → Prop) : Prop := ∀ t t', t `prefix_of` t' → P t → P t'.
Lemma stays_app (P : history → Prop) : (∀ t u, P t → P (t ++ u)) → stays P.
Proof. intros H t t' [u ->]. apply H. Qed.
Lemma stays_in e : stays (λ t, e ∈ t).
Proof. intros t t' Ht. by apply prefix_elem. Qed.

Section checks.
Context (allowed : history → kcall → Prop) (h : handle).
Context (Hlist : ∀ t, allowed t (LinkList h)) (Hnft : ∀ t, allowed t (Nft h nftList "")).
Context (Happly : ∀ t script, rendered h script t → allowed t (Nft h nftApply script)).

Lemma checks_wp t (Q : history → result unit → Prop) :
  (∀ t' e, t `prefix_of` t' → Q t' (Err e)) → (∀ u, checks_applied h u → Q (t ++ u) (Ok tt)) →
  wp allowed (applyENISourceChecks h) t Q.
Proof using Hlist Hnft Happly.
  intros He Ho. unfold applyENISourceChecks. wp_try; [apply Hlist| |apply He; by apply prefix_app_r]. rename a into links.
  wp_check; [|apply He; by apply prefix_app_r]. rename a into records.
  apply wp_bind. wp_do; [apply Hnft|]. intros [output [e|]]; cbv beta iota; [apply wp_ret, He; by do 2 apply prefix_app_r|].
  wp_check; [|apply He; by do 2 apply prefix_app_r]. wp_check; [|apply He; by do 2 apply prefix_app_r].
  wp_check; [|apply He; by do 2 apply prefix_app_r]. rename a1 into script.
  assert (∀ u, rendered h script ((t ++ [Ev (LinkList h) (Ok links)]) ++ u)) as Hr.
  { intros u. exists links, records, a0. split; [in_hist|done]. }
  apply wp_bind. wp_do; [apply Happly, Hr|].
  intros [output' [e|]]; cbv beta iota; apply wp_ret; [apply He; by do 3 apply prefix_app_r|].
  rewrite <- !app_assoc. apply Ho. exists script, output'. split; [|in_hist].
  exists links, records, a0. split; [in_hist|done].
Qed.

End checks.

Section plumbing.
Context (subnet : Subnet) (eni : ENI) (target : option InstanceTarget) (visit : list (string * string)).
Context (namespace name alias : string).
Let h := InVPC namespace.
Let gateway := Next (p_ip (Subnet_CIDRBlock subnet)).
Let pair fd := Veth name alias ("vp" +:+ FormatInt (ENI_ShortIndex eni)) fd.
(** The pair was made, its other end in the namespace [fd]. *)
Definition made (t : history) : Prop := ∃ fd, Ev (LinkAdd h (pair fd)) (Ok tt) ∈ t.

(** What [EnsureENI] may do after [t]. *)
Definition eni_allowed (t : history) (c : kcall) : Prop :=
  match c with
  | CtxErr | Lstat _ | Statfs _ | OpenNs _ | SetNs _ | GetNs _ | NewHandleAt _ | DupFd
  | LinkByName _ _ | LinkList _ | AddrList _ _ | GetNetNsIdByFd _ _ => True
  | LinkAdd g l => g = h ∧ (∃ fd, Ev DupFd (Ok fd) ∈ t ∧ l = pair fd) ∧ missing h name t ∧ missing InInstance "eth0" t
  | LinkDel g l => g = h ∧ made t ∧ found h name l t
  | LinkSetAlias (InVPC n) l a => n = namespace ∧ a = alias ∧ made t ∧ found h name l t
  | LinkSetDown (InVPC n) l => n = namespace ∧ found h name l t ∧ l_Alias l = alias
  | LinkSetUp (InVPC n) l => n = namespace ∧ found h name l t ∧ l_Alias l = alias ∧ protected h t
  | LinkSetUp InInstance l => Ev (LinkByName InInstance "lo") (Ok l) ∈ t ∨ (protected h t ∧ verified h name alias t)
  | LinkSetDown InInstance _ | LinkSetAlias InInstance _ _ | LinkSetName InInstance _ _
  | LinkSetHardwareAddr InInstance _ _ | AddrReplace InInstance _ _ => verified h name alias t
  | RouteReplace g _ => (g = InInstance ∨ g = h) ∧ protected h t
  | WriteFile g p v => g = h ∧ ∃ kv, kv ∈ visit ∧ p = "/proc/sys/net/ipv4/conf/" +:+ name +:+ "/" +:+ kv.1 ∧ v = kv.2
  | Nft g args stdin => g = h ∧ ((args = nftList ∧ stdin = "") ∨ (args = nftApply ∧ rendered h stdin t))
  | _ => False
  end.
Let allowed := eni_allowed.

Lemma eni_passive t c : passive c → allowed t c.
Proof. by destruct c. Qed.

Lemma source_checks_wp t (Q : history → result unit → Prop) :
  (∀ t' e, t `prefix_of` t' → Q t' (Err e)) → (∀ u, checks_applied h u → Q (t ++ u) (Ok tt)) →
  wp allowed (applyENISourceChecks h) t Q.
Proof. apply checks_wp; [done|by split; [|left]|]. intros t' s Hs. split; [done|]. right. done. Qed.

(** *** The instance's end *)
Definition identified (router : link) (t : history) : Prop :=
  found h name router t ∧ l_Alias router = alias ∧ pinned h router t ∧ 0 ≤ l_NetNsID router.
Definition configured (t : history) : Prop :=
  verified h name alias t ∧
  ∃ p mac, ParseMAC (ENI_MACAddress eni) = Ok mac ∧ Ev (LinkSetHardwareAddr InInstance p mac) (Ok tt) ∈ t ∧
    Ev (AddrReplace InInstance p (MkPrefix (ENI_PrivateIP eni) (p_bits (Subnet_CIDRBlock subnet)))) (Ok tt) ∈ t.
Lemma configured_stays : stays configured.
Proof.
  apply stays_app. intros t u (Hv & p & mac & Hm & H1 & H2). split; [by apply verified_app|]. exists p, mac.
  split; [done|]. split; apply elem_of_app; by left.
Qed.
Lemma identified_app (router : link) t u : identified router t → identified router (t ++ u).
Proof. intros (H1 & H2 & H3 & H4). split; [by apply elem_of_app; left|]. split; [done|]. split; [by apply pinned_app|done]. Qed.

Ltac grows := repeat apply prefix_app_r; done.

(** Once the peer is verified. *)
Lemma addressPeer_wp peer t (Q : history → result unit → Prop) :
  verified h name alias t →
  (∀ t' e, t `prefix_of` t' → Q t' (Err e)) → (∀ t' r, t `prefix_of` t' → configured t' → Q t' r) →
  wp allowed (addressPeer subnet eni InInstance peer) t Q.
Proof.
  intros Hv He Ho. unfold addressPeer. wp_check; [|by apply He]. rename a into mac. wp_try; [done| |apply He; grows].
  wp_try; [by apply verified_app| |apply He; grows]. wp_try; [done| |apply He; grows]. wp_do; [left; in_hist|]. intros r. apply Ho; [grows|].
  split; [by do 4 apply verified_app|]. exists peer, mac. split; [done|]. split; in_hist.
Qed.
Lemma setPeer_wp peer t (Q : history → result unit → Prop) :
  verified h name alias t →
  (∀ t' e, t `prefix_of` t' → Q t' (Err e)) → (∀ t' r, t `prefix_of` t' → configured t' → Q t' r) →
  wp allowed (setPeer subnet eni alias InInstance peer) t Q.
Proof.
  intros Hv He Ho. unfold setPeer. wp_try; [done| |apply He; grows]. wp_try; [by apply verified_app| |apply He; grows].
  assert (∀ l t', t `prefix_of` t' → wp allowed (addressPeer subnet eni InInstance l) t' Q) as Hrest.
  { intros l t' Ht'. apply addressPeer_wp; [by destruct Ht' as [? ->]; apply verified_app|..]; intros; [apply He|apply Ho]; done || by etrans. }
  apply wp_got. destruct (l_Name peer !=? "eth0"); [|apply wp_ret, Hrest; grows].
  wp_try; [by do 2 apply verified_app| |apply He; grows]. wp_do; [done|]. intros [l|e]; [apply Hrest; grows|apply He; grows].
Qed.
Lemma adoptPeer_wp (router : link) (created : bool) peer n t (Q : history → result unit → Prop) :
  identified router t → Ev (LinkByName InInstance n) (Ok peer) ∈ t →
  (∀ t' e, t `prefix_of` t' → Q t' (Err e)) → (∀ t' r, t `prefix_of` t' → configured t' → Q t' r) →
  wp allowed (adoptPeer subnet eni alias router created InInstance peer) t Q.
Proof.
  intros (F1 & F2 & F3 & F4) Hp He Ho. unfold adoptPeer. destruct (_ || _) eqn:E; [apply wp_ret; by apply He|].
  apply orb_false_iff in E as [[E1 E2]%orb_false_iff E3]. apply negb_false_iff in E1, E2, E3.
  apply (proj1 (beq_true _ _)) in E1. apply Z.eqb_eq in E2, E3. destruct (_ && _); [apply wp_ret; by apply He|].
  apply setPeer_wp; [|done..]. by exists router, n, peer.
Qed.
Lemma configurePeer_wp (router : link) (created : bool) t (Q : history → result unit → Prop) :
  identified router t →
  (∀ t' e, t `prefix_of` t' → Q t' (Err e)) → (∀ t' r, t `prefix_of` t' → configured t' → Q t' r) →
  wp allowed (configurePeer subnet eni alias router created InInstance) t Q.
Proof.
  intros Hid He Ho. unfold configurePeer. apply wp_bind. wp_do; [done|]. intros first. cbv beta. apply wp_got_as. unfold peerLink.
  destruct first as [peer|e].
  - apply wp_ret. apply (adoptPeer_wp router created peer "eth0"); [by apply identified_app|in_hist|..]; intros; [apply He|apply Ho]; try done;
      (etrans; [|eassumption]; grows).
  - destruct (errors_Is e LinkNotFoundError); [|apply wp_ret, He; grows]. wp_do; [done|]. intros [peer|e']; [|apply He; grows].
    eapply adoptPeer_wp; [by do 2 apply identified_app|in_hist|..]; intros; [apply He|apply Ho]; try done; (etrans; [|eassumption]; grows).
Qed.

(** *** Activation *)
Definition routed (t : history) : Prop :=
  ∃ peer, Ev (RouteReplace InInstance (MkRoute (l_Index peer) None (Some gateway) false 0)) (Ok tt) ∈ t.
Lemma activatePeer_wp t (Q : history → result unit → Prop) :
  protected h t → verified h name alias t →
  (∀ t' e, t `prefix_of` t' → Q t' (Err e)) → (∀ t', t `prefix_of` t' → routed t' → Q t' (Ok tt)) →
  wp allowed (activatePeer subnet InInstance) t Q.
Proof.
  intros Hp Hv He Ho. unfold activatePeer. wp_try; [done| |apply He; grows].
  wp_try; [right; split; [by apply protected_app|by apply verified_app]| |apply He; grows]. wp_check; [|apply He; grows].
  wp_try; [split; [by left|by do 2 apply protected_app]| |apply He; grows].
  wp_try; [split; [by left|by do 3 apply protected_app]| |apply He; grows]. apply wp_ret, Ho; [grows|]. eexists. in_hist.
Qed.

(** What has happened when the pair is active. *)
Definition active (t : history) : Prop :=
  ∃ router hostNet, found h name router t ∧ l_Alias router = alias ∧ protected h t ∧ configured t ∧ routed t ∧
    Ev (LinkSetUp h router) (Ok tt) ∈ t ∧ ParseCIDR_net (Addr_String (ENI_PrivateIP eni) +:+ "/32") = Ok hostNet ∧
    Ev (RouteReplace h (MkRoute (l_Index router) (Some hostNet) None true mainRouteTable)) (Ok tt) ∈ t.

Lemma sysctls_wp t (Q : history → result unit → Prop) :
  (∀ t' r, t `prefix_of` t' → Q t' r) → wp allowed (setENISysctls h visit name) t Q.
Proof.
  intros HQ. unfold setENISysctls. destruct (canonicalENILink name); cbn [negb]; [|by apply wp_ret, HQ].
  apply (wp_for_each allowed visit _ _ t Q (λ l t', l ⊆ visit ∧ t `prefix_of` t')); [done| |].
  - intros kv l t' [Hl Ht']. wp_try; [|apply wp_ret; split; [set_solver|grows]|apply HQ; grows].
    split; [done|]. exists kv. split; [set_solver|done].
  - intros t' [_ Ht']. by apply wp_ret, HQ.
Qed.

Lemma plumbPair_wp (router : link) created fd t (Q : history → result unit → Prop) :
  Ev DupFd (Ok fd) ∈ t → found h name router t → l_Alias router = alias →
  (∀ t' e, t `prefix_of` t' → Q t' (Err e)) → (∀ t', t `prefix_of` t' → active t' → Q t' (Ok tt)) →
  wp allowed (plumbPair subnet eni target visit name alias fd h router created) t Q.
Proof.
  intros Hfd Hf Ha He Ho. unfold plumbPair. wp_try; [done| |apply He; grows].
  set (t1 := t ++ [Ev (LinkSetDown h router) (Ok tt)]).
  assert (t `prefix_of` t1) as Ht1 by by apply prefix_app_r.
  apply wp_got, sysctls_wp. intros t2 [[]|e] Ht2; [|apply He; by etrans].
  assert (t `prefix_of` t2) as Ht02 by by etrans.
  wp_try; [done| |apply He; grows]. rename a into nsID. destruct (_ || _) eqn:E; [apply wp_ret, He; grows|].
  apply orb_false_iff in E as [E1%Z.ltb_ge E2%negb_false_iff%Z.eqb_eq]. subst nsID.
  assert (identified router (t2 ++ [Ev (GetNetNsIdByFd h fd) (Ok (l_NetNsID router))])) as Hid.
  { split; [apply elem_of_app; left; by eapply prefix_elem|]. split; [done|]. split; [|done].
    exists fd. split; [apply elem_of_app; left; by eapply prefix_elem|in_hist]. }
  set (t3 := t2 ++ _) in *. assert (t1 `prefix_of` t3) as Ht13 by by apply prefix_app_r.
  assert (t `prefix_of` t3) as Ht03 by by apply prefix_app_r.
  apply wp_got, instance_wp; [apply eni_passive|intros t4 e Ht4; apply He; by etrans|]. intros t4 Ht4.
  assert (identified router t4) as Hid4 by (destruct Ht4 as [u ->]; by apply identified_app).
  assert (∀ t', t4 `prefix_of` t' → t `prefix_of` t') as Htr by (intros t' H'; etrans; [exact Ht03|]; by etrans).
  apply configurePeer_wp; [done|intros; apply He; auto|]. intros t5 [[]|e] Ht5 Hc5; [|apply He; auto].
  apply wp_got, source_checks_wp; [intros t6 e Ht6; apply He, Htr; by etrans|]. intros u Hu.
  assert (protected h (t5 ++ u)) as Hp.
  { assert (t1 `prefix_of` t5) as [v ->] by (etrans; [exact Ht13|]; by etrans). exists t, router, (v ++ u).
    unfold t1. split; [by rewrite <- !app_assoc|]. destruct Hu as (s & o & (ls & rs & ex & R1 & R2) & H2).
    exists s, o. split; [exists ls, rs, ex; split; [apply elem_of_app; by right|done]|apply elem_of_app; by right]. }
  assert (configured (t5 ++ u)) as Hc6 by (eapply configured_stays; [|exact Hc5]; by apply prefix_app_r).
  assert (t `prefix_of` t5 ++ u) as Ht6 by (apply prefix_app_r; auto). set (t6 := t5 ++ u) in *. clearbody t6.
  apply wp_got, instance_wp; [apply eni_passive|intros t7 e Ht7; apply He; by etrans|]. intros t7 [w ->].
  apply activatePeer_wp; [by apply protected_app|by apply verified_app, Hc6|intros t8 e Ht8; apply He; etrans; [|exact Ht8]; grows|].
  intros t8 [x ->] Hr. rewrite <- app_assoc in *. set (y := w ++ x) in *. clearbody y.
  assert (found h name router (t6 ++ y)) as Hf8 by (eapply prefix_elem; [|exact Hf]; grows).
  wp_try; [split; [done|]; split; [done|]; split; [done|by apply protected_app]| |apply He; grows].
  wp_check; [|apply He; grows]. wp_try; [split; [by right|by do 2 apply protected_app]| |apply He; grows].
  apply wp_ret, Ho; [grows|]. exists router, a. split; [do 2 (apply elem_of_app; left); done|]. split; [done|].
  split; [by do 3 apply protected_app|]. split; [eapply configured_stays; [|exact Hc6]; grows|].
  split; [destruct Hr as [p Hp']; exists p; do 2 (apply elem_of_app; left); done|]. split; [in_hist|]. split; [done|in_hist].
Qed.

(** How a failed run ends once the pair was made: the link is deleted, or it could
    not be read. *)
Definition undone (t : history) : Prop :=
  (∃ t' l r, t = t' ++ [Ev (LinkDel h l) r]) ∨ (∃ t' e, t = t' ++ [Ev (LinkByName h name) (Err e)]).

Lemma made_app t c b : (∀ g l, c ≠ LinkAdd g l) → made (t ++ [Ev c b]) → made t.
Proof.
  intros Hc (fd & [H|H]%elem_of_app); [by exists fd|]. apply list_elem_of_singleton in H. apply (f_equal ev_call) in H. cbn in H. by destruct (Hc _ _ (eq_sym H)).
Qed.
(** A part of a run that makes no link. *)
Definition no_add (c : kcall) : Prop := match c with LinkAdd _ _ => False | _ => True end.
Lemma calm_wp {A} (p : K A) t t0 Q :
  wp allowed p t Q → wp (λ _, no_add) p t0 (λ _ _, True) → wp allowed p t (λ t' a, (made t' → made t) ∧ Q t' a).
Proof.
  intros H H0. pose proof (wp_and _ _ _ _ _ _ H H0) as Hw. clear H H0. revert t Hw.
  induction p as [a|c k IH]; intros t H; cbn [wp] in *; [done|]. destruct H as [[Ha Hc] H]. split; [done|]. intros b.
  eapply wp_mono; [apply IH, H|done|]. intros t' a [H1 H2]. split; [|done]. intros Hm. eapply made_app; [|by apply H1].
  intros g l ->. done.
Qed.

(** Programs without a [LinkAdd], piece by piece. *)
Ltac pieces :=
  repeat first
    [ exact I
    | apply any_got; [|intros ? ?]
    | apply any_got_as; [|intros ? ?]
    | apply any_checked; intros ? ?
    | apply any_for_each; [intros ? ?|intros ?]
    | match goal with
      | |- wp ?a (call ?c) ?t _ => refine (any_call a c t _)
      | |- wp _ (mbind _ (call ?c)) ?t _ => refine (any_bind _ (call c) _ t (any_call _ c t _) _); [|intros ? ?]
      end
    | case_match ].
Lemma unless_pieces {A} (p : K (result A)) t : (∀ t, wp (λ _, no_add) p t (λ _ _, True)) → wp (λ _, no_add) (unless_done p) t (λ _ _, True).
Proof. intros H. by apply wp_unless. Qed.
Lemma instance_pieces fn t : (∀ t, wp (λ _, no_add) (fn InInstance) t (λ _ _, True)) → wp (λ _, no_add) (WithInstanceHandle target fn) t (λ _ _, True).
Proof. intros H. apply instance_wp; [by intros ? []|done|]. intros. apply H. Qed.
Lemma plumbPair_pieces (router : link) created fd t :
  wp (λ _, no_add) (plumbPair subnet eni target visit name alias fd h router created) t (λ _ _, True).
Proof.
  unfold plumbPair, setENISysctls, applyENISourceChecks. pieces.
  - apply instance_pieces. intros. unfold configurePeer, peerLink, adoptPeer, setPeer, addressPeer. pieces.
  - apply instance_pieces. intros. unfold activatePeer. pieces.
Qed.

Definition ends (t : history) (r : result unit) : Prop :=
  match r with Ok _ => active t | Err _ => made t → undone t end.

(** Whether an event is a link that was made. *)
Definition add_ok (e : event kcall) : bool :=
  match e with Ev c b => match c return reply c → bool with LinkAdd _ _ => λ r, is_Ok r | _ => λ _, false end b end.
Lemma made_failed t g l e : made (t ++ [Ev (LinkAdd g l) (Err e)]) → made t.
Proof. intros (fd & [H|H]%elem_of_app); [by exists fd|]. apply list_elem_of_singleton in H. by apply (f_equal add_ok) in H. Qed.
Ltac unmade :=
  let Hm := fresh in intros Hm; exfalso;
  repeat first [contradiction | apply made_app in Hm; [|by intros ? ?] | apply made_failed in Hm]; auto.

Lemma noForeignPeer_wp t (Q : history → result unit → Prop) :
  (∀ t' e, (made t' → made t) → Q t' (Err e)) →
  (∀ t', t `prefix_of` t' → (made t' → made t) → missing InInstance "eth0" t' → Q t' (Ok tt)) →
  wp allowed (noForeignPeer target) t Q.
Proof.
  intros He Ho. eapply wp_mono.
  - apply (calm_wp (noForeignPeer target) t [] (λ t' r, t `prefix_of` t' ∧ (r = Ok tt → missing InInstance "eth0" t'))).
    + apply instance_wp; [apply eni_passive|intros t' e Ht'; done|]. intros t' Ht'. apply wp_bind. wp_do; [done|].
      intros [l|e]; cbv beta iota; [apply wp_ret; split; [grows|done]|].
      destruct (errors_Is e LinkNotFoundError) eqn:E; apply wp_ret; (split; [grows|]); [|done]. intros _. exists e. split; [in_hist|done].
    + apply instance_pieces. intros. pieces.
  - done.
  - intros t' [[]|e] [Hm [Ht' Hr]]; [by apply Ho; auto|by apply He].
Qed.

Lemma routerEnd_wp fd t (Q : history → result (link * bool) → Prop) :
  Ev DupFd (Ok fd) ∈ t → ¬ made t →
  (∀ t' e, (made t' → undone t') → Q t' (Err e)) →
  (∀ t' router, t `prefix_of` t' → found h name router t' → l_Alias router = alias → ¬ made t' → Q t' (Ok (router, false))) →
  (∀ t' router, t `prefix_of` t' → found h name router t' → made t' → Q t' (Ok (router, true))) →
  wp allowed (routerEnd eni target name alias fd h) t Q.
Proof.
  intros Hfd Hn He Ho Hc. unfold routerEnd. apply wp_bind. wp_do; [done|]. intros [router|e]; cbv beta iota.
  - destruct (_ || _) eqn:E; [apply wp_ret, He; unmade|]. apply orb_false_iff in E as [_ E%negb_false_iff].
    apply (proj1 (beq_true _ _)) in E. apply wp_ret, Ho; [grows|unfold found; in_hist|done|unmade].
  - destruct (errors_Is e LinkNotFoundError) eqn:E; [|apply wp_ret, He; unmade].
    assert (¬ made (t ++ [Ev (LinkByName h name) (Err e)])) as Hn1 by unmade.
    apply wp_got, noForeignPeer_wp; [intros t' e' Hm; apply He; by intros H%Hm|]. intros t' Ht' Hm Hmiss.
    assert (¬ made t') as Hn2 by (by intros H%Hm).
    wp_try; [|wp_try; [done| |]|apply He; unmade].
    + split; [done|]. split; [exists fd; split; [|done]; eapply prefix_elem; [exact Ht'|]; apply elem_of_app; by left|].
      split; [|done]. exists e. split; [|done]. eapply prefix_elem; [exact Ht'|]. in_hist.
    + apply wp_ret, Hc; [do 2 apply prefix_app_r; etrans; [|exact Ht']; grows|unfold found; in_hist|exists fd; in_hist].
    + apply He. intros _. right. eauto.
Qed.

Lemma markRouter_wp (router : link) (created : bool) t (Q : history → result link * option link → Prop) :
  found h name router t → (if created then made t else l_Alias router = alias) →
  (∀ t' e l, t `prefix_of` t' → created = true → found h name l t' → Q t' (Err e, Some l)) →
  (∀ t' e e', created = true → Q (t' ++ [Ev (LinkByName h name) (Err e)]) (Err e', None)) →
  (∀ t' l, t `prefix_of` t' → (if created then True else t' = t) → found h name l t' → l_Alias l = alias → Q t' (Ok l, Some l)) →
  wp allowed (markRouter name alias h router created) t Q.
Proof.
  intros Hf Hc He Hn Ho. unfold markRouter. destruct created; [|by apply wp_ret, Ho].
  apply wp_bind. wp_do; [done|]. intros [[]|e]; cbv beta iota; [|apply wp_ret, He; [grows|done|apply elem_of_app; by left]].
  apply wp_bind. wp_do; [done|]. intros [l|e]; cbv beta iota; apply wp_ret; [|by apply Hn].
  destruct (l_Alias l ==? alias) eqn:E; cbn [negb]; [|apply He; [grows|done|unfold found; in_hist]].
  apply (proj1 (beq_true _ _)) in E. apply Ho; [grows|done|unfold found; in_hist|done].
Qed.

Lemma ensurePair_wp fd t : Ev DupFd (Ok fd) ∈ t → ¬ made t → wp allowed (ensurePair subnet eni target visit name alias fd h) t ends.
Proof.
  intros Hfd Hn. unfold ensurePair. apply wp_unless; [done|intros e; unmade|]. wp_try; [done| |unmade]. wp_try; [done| |unmade].
  destruct (negb _); [apply wp_ret; unmade|]. apply wp_got, routerEnd_wp; [by do 3 (apply elem_of_app; left)|unmade|done|..].
  - intros t' router Ht' Hf Ha Hn'.
    assert (Ev DupFd (Ok fd) ∈ t') as Hfd' by (eapply prefix_elem; [exact Ht'|]; by do 3 (apply elem_of_app; left)). apply wp_bind, markRouter_wp; [done|done|done|done|]. intros t1 l _ -> Hl Hal. cbn [fst snd].
    apply wp_bind. eapply wp_mono; [apply (calm_wp _ _ [] (λ t r, match r with Ok _ => active t | Err _ => True end))|done|].
    + apply (plumbPair_wp l false fd); auto.
    + apply plumbPair_pieces.
    + intros t2 [[]|e] [Hm Hr]; cbn [undo]; apply wp_ret; [done|]. by intros H%Hm.
  - intros t' router Ht' Hf Hmade.
    assert (Ev DupFd (Ok fd) ∈ t') as Hfd' by (eapply prefix_elem; [exact Ht'|]; by do 3 (apply elem_of_app; left)).
    assert (∀ t1 l e, t' `prefix_of` t1 → found h name l t1 → wp allowed (undo h (Some l) true (Err e)) t1 ends) as Hundo.
    { intros t1 l e Ht1 Hl. cbn [undo]. apply wp_bind. wp_do; [split; [done|]; split; [destruct Hmade as [fd' Hm']; exists fd'; by eapply prefix_elem|done]|].
      intros r. apply wp_ret. intros _. left. eauto. }
    apply wp_bind, markRouter_wp; [done|done|..].
    + intros t1 e l Ht1 _ Hl. cbn [fst snd]. by apply wp_bind, wp_ret, Hundo.
    + intros t1 e e' _. cbn [fst snd]. apply wp_bind, wp_ret. cbn [undo]. apply wp_ret. intros _. right. eauto.
    + intros t1 l Ht1 _ Hl Hal. cbn [fst snd]. apply wp_bind, (plumbPair_wp l true fd); [by eapply prefix_elem|done|done|..].
      * intros t2 e Ht2. apply Hundo; [by etrans|by eapply prefix_elem].
      * intros t2 Ht2 Hact. by apply wp_ret.
Qed.
Lemma made_quiet t t' : quiet t t' → made t' → made t.
Proof.
  intros (u & -> & Hu). revert t. induction Hu as [|[c b] u Hc Hu IH]; intros t; [by rewrite app_nil_r|].
  rewrite cons_middle, app_assoc. intros H%IH. eapply made_app; [|exact H]. intros g l ->. done.
Qed.
End plumbing.

Lemma EnsureENI_wp vpc subnet eni target visit name namespace alias :
  eniGuards vpc subnet eni target = Ok (name, namespace, alias) →
  wp (eni_allowed eni visit namespace name alias) (EnsureENI vpc subnet eni target visit) [] (ends subnet eni namespace name alias).
Proof.
  intros Eg. unfold EnsureENI. rewrite Eg. cbn [checked].
  assert (¬ made eni namespace name alias []) as Hn by (intros [? H]; by apply not_elem_of_nil in H).
  apply pinned_wp; [apply eni_passive|intros t e Ht Hm; by apply (made_quiet eni namespace name alias []) in Hm|]. intros t fd Ht Hfd.
  assert (¬ made eni namespace name alias t) as Hn1 by (intros Hm; by apply (made_quiet eni namespace name alias []) in Hm).
  apply within_wp; [apply eni_passive|intros t' e Ht' Hm; by apply (made_quiet eni namespace name alias t) in Hm|]. intros t' Ht'.
  apply ensurePair_wp; [eapply prefix_elem; [by apply quiet_prefix|done]|]. intros Hm. by apply (made_quiet eni namespace name alias t) in Hm.
Qed.

(** ** Removal *)
Section removal.
Context (namespace name : string) (eni : ENI).
Let h := InVPC namespace.

(** What [DeleteENI] may do after [t]. *)
Definition remove_allowed (t : history) (c : kcall) : Prop :=
  match c with
  | CtxErr | Lstat _ | Statfs _ | OpenNs _ | SetNs _ | GetNs _ | NewHandleAt _ | DupFd | LinkByName _ _ | LinkList _ => True
  | LinkDel g l => g = h ∧ found h name l t ∧ l_Type l = "veth" ∧
      ∃ r, parseENIAlias (l_Alias l) = Ok r ∧ id_ID r = ENI_ID eni ∧ id_IP r = ENI_PrivateIP eni ∧ id_MAC r = ENI_MACAddress eni
  | Nft g args stdin => g = h ∧ ((args = nftList ∧ stdin = "") ∨ (args = nftApply ∧ rendered h stdin t))
  | _ => False
  end.
Definition removed (t : history) : Prop :=
  (missing h name t ∨ ∃ l, Ev (LinkDel h l) (Ok tt) ∈ t) ∧ checks_applied h t.

Lemma removeENI_wp t : wp remove_allowed (removeENI namespace name eni) t (λ t r, r = Ok tt → removed t).
Proof.
  unfold removeENI. apply within_wp; [by intros ? []|done|]. intros t1 _. apply wp_bind. wp_do; [done|]. intros seen. cbv beta.
  assert (∀ t2, missing h name t2 ∨ (∃ l, Ev (LinkDel h l) (Ok tt) ∈ t2) →
    wp remove_allowed (applyENISourceChecks h) t2 (λ t r, r = Ok tt → removed t)) as Hchecks.
  { intros t2 H2. apply checks_wp; [done|by split; [|left]|intros; split; [done|by right]|done|].
    intros u (s & o & (ls & rs & ex & R1 & R2) & H3) _. split.
    - destruct H2 as [(e & He & ?)|[l Hl]]; [left; exists e; split; [by apply elem_of_app; left|done]|].
      right. exists l. apply elem_of_app. by left.
    - exists s, o. split; [exists ls, rs, ex; split; [by apply elem_of_app; right|done]|by apply elem_of_app; right]. }
  apply wp_got. unfold deleteMarked. destruct seen as [l|e].
  - wp_check; [|done]. rename a into record. destruct (_ || _) eqn:E; [done|].
    apply orb_false_iff in E as [E E4]. apply orb_false_iff in E as [E E3]. apply orb_false_iff in E as [E1 E2].
    apply negb_false_iff in E1, E2, E3, E4.
    apply (proj1 (beq_true _ _)) in E1, E2, E3, E4.
    wp_try; [| |done].
    + split; [done|]. split; [unfold found; in_hist|]. split; [done|]. exists record. done.
    + apply wp_ret, Hchecks. right. exists l. in_hist.
  - destruct (errors_Is e LinkNotFoundError) eqn:E; [|done]. apply wp_ret, Hchecks. left. exists e. split; [in_hist|done].
Qed.
End removal.

(** ** Properties *)

(** C22: Whatever the kernel answers, [EnsureENI] makes a pair only when neither end
    exists, touches the instance's end only after it saw it paired with the marked
    link in the pinned namespace, and brings up either end only after the link was
    taken down and source checks computed from the links that were then there were
    applied.  When it succeeds, all of that has happened and both ends, the address,
    the hardware address and the routes are set; when it fails after it made the
    pair, its last call deletes the link, unless its last call is the reading of the
    new link that failed.  [DeleteENI] deletes only a link whose marker names the
    interface, and when it succeeds the link is gone and the checks were applied,
    or something it needed does not exist. *)
Theorem interfaces_are_plumbed_safely {S} (k : handler kcall S) (s : S) vpc subnet eni target visit :
  (∀ t1 e t2, trace k (EnsureENI vpc subnet eni target visit) s = t1 ++ e :: t2 →
     ∃ name namespace alias, eniGuards vpc subnet eni target = Ok (name, namespace, alias) ∧
       eni_allowed eni visit namespace name alias t1 (ev_call e)) ∧
  (∀ name namespace alias, eniGuards vpc subnet eni target = Ok (name, namespace, alias) →
     let t := trace k (EnsureENI vpc subnet eni target visit) s in
     match (run k (EnsureENI vpc subnet eni target visit) s).1 with
     | Ok _ => active subnet eni namespace name alias t
     | Err _ => made eni namespace name alias t → undone namespace name t
     end) ∧
  (∀ t1 e t2, trace k (DeleteENI vpc eni) s = t1 ++ e :: t2 →
     ∃ name namespace, eniLinkName (ENI_ShortIndex eni) = Ok name ∧ Name (VPC_ShortIndex vpc) = Ok namespace ∧
       remove_allowed namespace name eni t1 (ev_call e)) ∧
  ((run k (DeleteENI vpc eni) s).1 = Ok tt →
     ∃ name namespace, eniLinkName (ENI_ShortIndex eni) = Ok name ∧ Name (VPC_ShortIndex vpc) = Ok namespace ∧
       (removed namespace name (trace k (DeleteENI vpc eni) s) ∨
        ∃ e, (run k (removeENI namespace name eni) s).1 = Err e ∧ errors_Is e os_ErrNotExist = true)).
Proof.
  split_and!.
  - intros t1 e t2 E. destruct (eniGuards vpc subnet eni target) as [[[name namespace] alias]|] eqn:Eg;
      [|unfold EnsureENI in E; rewrite Eg in E; by destruct t1].
    exists name, namespace, alias. split; [done|].
    exact (proj2 (wp_sound k _ _ s [] _ (EnsureENI_wp vpc subnet eni target visit name namespace alias Eg)) t1 e t2 E).
  - intros name namespace alias Eg. exact (proj1 (wp_sound k _ _ s [] _ (EnsureENI_wp vpc subnet eni target visit name namespace alias Eg))).
  - intros t1 e t2. unfold DeleteENI, checked. destruct (eniLinkName _) as [name|]; [|by destruct t1]. destruct (Name _) as [namespace|]; [|by destruct t1].
    intros E. exists name, namespace. split; [done|]. split; [done|].
    refine (proj2 (wp_sound k (remove_allowed namespace name eni) _ s [] (λ _ _, True) _) t1 e t2 E).
    apply any_bind; [eapply wp_mono; [apply removeENI_wp|done|done]|]. intros [[]|e'] t; [done|]. by destruct (errors_Is _ _).
  - unfold DeleteENI, checked. destruct (eniLinkName _) as [name|]; [|done]. destruct (Name _) as [namespace|]; [|done].
    intros H. exists name, namespace. split; [done|]. split; [done|]. rewrite run_bind in H. rewrite trace_bind.
    pose proof (proj1 (wp_sound k _ _ s [] _ (removeENI_wp namespace name eni []))) as Hr. cbn [app] in Hr.
    destruct (run k (removeENI namespace name eni) s) as [[[]|e] s'] eqn:Er; cbn [fst snd] in *.
    + left. rewrite app_nil_r. by apply Hr.
    + right. exists e. split; [done|]. by destruct (errors_Is e os_ErrNotExist).
Qed.
