(* ===== verification/EngineConverge.v ===== *)
(** [EnsureVPC] converges: with a kernel that does what it says, a run that succeeds
    leaves exactly the wanted gateways and rules, a second run changes nothing, and a
    run succeeds when the kernel does not fail and the router is managed.

    [Router] is what the engine needs of netlink and the kernel. *)

From S2P Require Import Prelude Errors GoStrings Encodings Utf8 NetIP Netns Mac Model Json EniPolicy Programs Kernel Engine.
From S2P Require Import EngineSafety.
Local Open Scope Z_scope.

(** How the kernel reports a rule. *)
Definition reported_rule (r : rule) : kernelPolicyRule := MkPolicyRule (r_Priority r) (r_Table r) (r_Type r) (r_Dst r) [].

(** A rule the kernel has room for. *)
Definition u32 (v : Z) : Prop := 0 ≤ v < 2 ^ 32.
Definition sane_rule (r : rule) : Prop :=
  u32 (r_Priority r) ∧ match r_Dst r with Some d => u32 (n_IP d) ∧ match n_Ones d with Some o => 0 ≤ o ≤ 32 | None => False end | None => True end.
#[export] Instance sane_rule_dec r : Decision (sane_rule r).
Proof. unfold sane_rule, u32. destruct (r_Dst r) as [[v [o|]]|]; apply _. Defined.

(** Calls that change addresses or rules. *)
Definition changes (c : kcall) : Prop :=
  match c with AddrAdd _ _ _ | AddrDel _ _ _ | RuleAdd _ _ => True | _ => False end.

Class Router {S : Type} (k : handler kcall S) := {
  addr_at : S → string → kaddr → Prop;
  policy : S → string → list kernelPolicyRule;
  link_named n m s l s' : k (LinkByName (InVPC n) m) s = (Ok l, s') → l_Name l = m;
  addr_list n l s xs s' :
    l_Name l = routerLinkName → k (AddrList (InVPC n) l) s = (Ok xs, s') → ∀ x, x ∈ xs ↔ addr_at s n x;
  addr_add n l a s r s' :
    l_Name l = routerLinkName → k (AddrAdd (InVPC n) l a) s = (r, s') →
    policy s' n = policy s n ∧ ∀ x, addr_at s' n x ↔ addr_at s n x ∨ (r = Ok tt ∧ x = a);
  addr_del n l a s r s' :
    l_Name l = routerLinkName → k (AddrDel (InVPC n) l a) s = (r, s') →
    policy s' n = policy s n ∧ ∀ x, addr_at s' n x ↔ addr_at s n x ∧ ¬ (r = Ok tt ∧ x = a);
  rule_dump n s ms s' : k (RuleDump (InVPC n)) s = (Ok ms, s') → ∃ rs, policyRules ms = Ok rs ∧ rs ≡ₚ policy s n;
  rule_add n r s b s' :
    k (RuleAdd (InVPC n) r) s = (b, s') →
    (∀ x, addr_at s' n x ↔ addr_at s n x) ∧
    policy s' n ≡ₚ policy s n ++ (if is_Ok b then [reported_rule r] else []);
  others_frame c s b s' n : ¬ changes c → k c s = (b, s') →
    (∀ x, addr_at s' n x ↔ addr_at s n x) ∧ policy s' n = policy s n
}.

(** ** Runs with their state *)
Section runs.
Context {S : Type} (k : handler kcall S).

Definition sees {A} (p : K A) (s : S) (Q : A → S → history → Prop) : Prop :=
  Q (run k p s).1 (run k p s).2 (trace k p s).
Lemma sees_ret {A} (a : A) s (Q : A → S → history → Prop) : Q a s [] → sees (mret a) s Q.
Proof. done. Qed.
Lemma sees_call c s (Q : reply c → S → history → Prop) :
  (∀ b s', k c s = (b, s') → Q b s' [Ev c b]) → sees (call c) s Q.
Proof. intros H. unfold sees. cbn [run trace call]. destruct (k c s) as [b s'] eqn:E. by apply H. Qed.
Lemma sees_bind {A B} (p : K A) (f : A → K B) s (Q : B → S → history → Prop) :
  sees p s (λ a s' t, sees (f a) s' (λ b s'' t', Q b s'' (t ++ t'))) → sees (p ≫= f) s Q.
Proof. unfold sees. rewrite run_bind, trace_bind. done. Qed.
Lemma sees_mono {A} (p : K A) s (Q Q' : A → S → history → Prop) :
  sees p s Q → (∀ a s' t, Q a s' t → Q' a s' t) → sees p s Q'.
Proof. intros H HQ. by apply HQ. Qed.
Lemma sees_got {A B} (m : K (result A)) (f : A → K (result B)) s (Q : result B → S → history → Prop) :
  sees m s (λ r s' t, match r with Ok a => sees (f a) s' (λ b s'' t', Q b s'' (t ++ t')) | Err e => Q (Err e) s' t end) →
  sees (got m f) s Q.
Proof.
  intros H. apply sees_bind. eapply sees_mono; [exact H|]. intros [a|e] s' t H'; [done|]. apply sees_ret. by rewrite app_nil_r.
Qed.
Lemma sees_got_as {A B} tx (m : K (result A)) (f : A → K (result B)) s (Q : result B → S → history → Prop) :
  sees m s (λ r s' t, match r with Ok a => sees (f a) s' (λ b s'' t', Q b s'' (t ++ t')) | Err e => Q (Err (Wrapf tx e)) s' t end) →
  sees (got_as tx m f) s Q.
Proof.
  intros H. apply sees_bind. eapply sees_mono; [exact H|]. intros [a|e] s' t H'; [done|]. apply sees_ret. by rewrite app_nil_r.
Qed.
(** A part of a run that changes no address and no rule. *)
Definition still (t : history) : Prop := Forall (λ e, ¬ changes (ev_call e)) t.
Context `{!Router k}.
Definition unchanged (n : string) (s s' : S) : Prop :=
  (∀ x, addr_at s' n x ↔ addr_at s n x) ∧ policy s' n = policy s n.
Lemma still_sees {A} (p : K A) s n Q :
  wp (λ _ c, ¬ changes c) p [] (λ _, Q) → sees p s (λ a s' t, Q a ∧ unchanged n s s' ∧ still t).
Proof.
  assert (∀ t s, wp (λ _ c, ¬ changes c) p t (λ _, Q) → sees p s (λ a s' t, Q a ∧ unchanged n s s' ∧ still t)) as H; [|by apply H].
  clear s. induction p as [a|c f IH]; intros t s H; cbn [wp] in H.
  - split; [done|]. split; [done|constructor].
  - destruct H as [Hc H]. unfold sees in *. cbn [run trace]. destruct (k c s) as [b s'] eqn:E.
    destruct (others_frame c s b s' n Hc E) as [F1 F2].
    destruct (IH b (t ++ [Ev c b]) s' (H b)) as (H1 & [H2 H3] & H4). split; [done|].
    split; [split; [intros x; by rewrite H2|by rewrite H3]|]. by constructor.
Qed.
End runs.

Ltac sees_do := match goal with |- sees ?k (call ?c) ?s ?Q => refine (sees_call k c s Q _) end.

(** ** Gateways *)
Definition key_of (x : kaddr) : option string :=
  ip ← ka_IP x; a ← AddrFromSlice ip; Some (Addr_String (Unmap a)).
Definition owned (x : kaddr) : Prop := ka_Label x = gatewayLabel ∧ ka_Ones x = 32 ∧ ka_Bits x = 32.
Definition is_gateway (g : Addr) (x : kaddr) : Prop := owned x ∧ key_of x = Some (Addr_String g).
Definition addr4 (a : Addr) : Prop := ∃ v, a = Addr4 v ∧ 0 ≤ v < 2 ^ 32.

Lemma key_gateway g : addr4 g → key_of (gatewayAddr g) = Some (Addr_String g).
Proof.
  intros (v & -> & Hv). unfold key_of, gatewayAddr, AsSlice. cbn [ka_IP mbind option_bind]. unfold octets, AddrFromSlice. cbn [length Nat.eqb mbind option_bind Unmap].
  do 3 f_equal. by apply bytes_value_octets.
Qed.

Section gateways.
Context {S : Type} (k : handler kcall S) `{!Router k} (n : string) (l : link) (Hl : l_Name l = routerLinkName).
Let h := InVPC n.

(** An address that is settled: it has no network, or its key is wanted and noted. *)
Definition settled (wanted : gmap string bool) (x : kaddr) : Prop :=
  ka_IP x = None ∨ ∃ key, key_of x = Some key ∧ wanted !! key = Some true ∧ owned x.
Definition noted (wanted : gmap string bool) (s : S) : Prop :=
  ∀ key, wanted !! key = Some true → ∃ x, addr_at s n x ∧ key_of x = Some key ∧ owned x.

(** The state between two steps of the loop over the listed addresses. *)
Record between (existing : list kaddr) (wanted : gmap string bool) (s : S) : Prop := {
  b_rest : ∀ x, addr_at s n x → x ∈ existing ∨ settled wanted x;
  b_noted : noted wanted s;
  b_there : ∀ x key, x ∈ existing → key_of x = Some key → is_Some (wanted !! key) → addr_at s n x
}.
Definition dropped (policy0 : list kernelPolicyRule) (keys : gset string) (r : result (gmap string bool)) (s' : S) : Prop :=
  policy s' n = policy0 ∧ match r with Ok w => dom w = keys ∧ between [] w s' | Err _ => True end.

Lemma dropStale_sees existing wanted s :
  between existing wanted s →
  sees k (dropStale h l existing wanted) s (λ r s' _, dropped (policy s n) (dom wanted) r s').
Proof using Hl.
  revert wanted s. induction existing as [|x existing IH]; intros wanted s [H1 H2 H3]; cbn [dropStale].
  { by apply sees_ret. }
  assert (∀ e, dropped (policy s n) (dom wanted) (Err e) s) as He by done.
  destruct (ka_IP x) as [ip|] eqn:Ei.
  2: { apply IH. constructor; [|done|intros; by eapply H3; [right|..]]. intros y [[->|Hy]%elem_of_cons|Hy]%H1; [right; by left|by left|by right]. }
  destruct (AddrFromSlice ip) as [a|] eqn:Ea; [|by apply sees_ret]. cbv zeta.
  assert (key_of x = Some (Addr_String (Unmap a))) as Hkey by (unfold key_of; rewrite Ei; cbn; by rewrite Ea).
  set (key := Addr_String (Unmap a)) in *.
  destruct (_ && _); [by apply sees_ret|]. destruct (ka_Label x ==? gatewayLabel) eqn:El; cbn [negb]; [|by apply sees_ret].
  apply (proj1 (beq_true _ _)) in El. destruct (bool_decide _) eqn:En.
  - apply bool_decide_eq_true in En. destruct (_ || _) eqn:Eb; [by apply sees_ret|].
    apply orb_false_iff in Eb as [E1%negb_false_iff%Z.eqb_eq E2%negb_false_iff%Z.eqb_eq].
    rewrite <- (dom_insert_lookup_L wanted key true) by done. apply IH. constructor.
    + intros y [[->|Hy]%elem_of_cons|Hy]%H1; [right|by left|right].
      * right. exists key. rewrite lookup_insert_eq. done.
      * destruct Hy as [Hy|(key' & Hk' & Hw & Ho)]; [by left|]. right. exists key'. split; [done|]. split; [|done].
        destruct (decide (key = key')) as [->|]; [by rewrite lookup_insert_eq|by rewrite lookup_insert_ne].
    + intros key' Hk'. destruct (decide (key = key')) as [<-|]; [|rewrite lookup_insert_ne in Hk' by done; by apply H2].
      exists x. split; [|done]. by eapply H3; [left|..].
    + intros y key' Hy Hk' Hw. eapply H3; [by right|exact Hk'|]. destruct (decide (key = key')) as [<-|]; [done|].
      by rewrite lookup_insert_ne in Hw.
  - apply bool_decide_eq_false in En. apply sees_got_as. sees_do. intros r s' Hk.
    destruct (addr_del n l x s r s' Hl Hk) as [Hp Hd]. destruct r as [[]|e]; [|split; [by rewrite Hp|done]].
    rewrite <- Hp. eapply sees_mono; [apply IH|done]. constructor.
    + intros y [Hy Hne]%Hd. apply H1 in Hy as [[->|Hy]%elem_of_cons|Hy]; [|by left|by right]. by destruct Hne.
    + intros key' Hk'. destruct (H2 key' Hk') as (y & Hy & Hky & Ho). exists y. split; [|done]. apply Hd. split; [done|].
      intros [_ ->]. rewrite Hkey in Hky. injection Hky as ->. apply En. by rewrite Hk'.
    + intros y key' Hy Hk' Hw. apply Hd. split; [eapply H3; [by right|done|done]|]. intros [_ ->]. rewrite Hkey in Hk'.
      injection Hk' as ->. done.
Qed.

(** The gateways that are still missing are added. *)
Lemma addMissing_sees desired wanted s :
  sees k (addMissing h l desired wanted) s (λ r s' _,
    policy s' n = policy s n ∧
    (∀ x, addr_at s' n x → addr_at s n x ∨ ∃ g, g ∈ desired ∧ x = gatewayAddr g) ∧ (∀ x, addr_at s n x → addr_at s' n x) ∧
    (r = Ok tt → ∀ g, g ∈ desired → wanted !! Addr_String g = Some true ∨ addr_at s' n (gatewayAddr g))).
Proof using Hl.
  revert s. induction desired as [|g desired IH]; intros s; cbn [addMissing].
  { apply sees_ret. split_and!; auto. intros _ g Hg. by apply not_elem_of_nil in Hg. }
  destruct (default false (wanted !! Addr_String g)) eqn:E.
  - eapply sees_mono; [apply IH|]. intros r s' _ (H1 & H2 & H3 & H4). split_and!; [done| |done|].
    + intros x [Hx|(g' & Hg' & ->)]%H2; [by left|]. right. exists g'. split; [by right|done].
    + intros Hr g' [->|Hg']%elem_of_cons; [left|by apply H4]. destruct (wanted !! Addr_String g) as [[]|]; done.
  - apply sees_got_as. sees_do. intros r s1 Hk. destruct (addr_add n l (gatewayAddr g) s r s1 Hl Hk) as [Hp Ha]. destruct r as [[]|e].
    + eapply sees_mono; [apply IH|]. cbv beta. intros r s' _ (H1 & H2 & H3 & H4). split_and!; [by rewrite H1, Hp| | |].
      * intros x [[Hx|[_ ->]]%Ha|(g' & Hg' & ->)]%H2; [by left|right; exists g; split; [by left|done]|].
        right. exists g'. split; [by right|done].
      * intros x Hx. apply H3, Ha. by left.
      * intros Hr g' [->|Hg']%elem_of_cons; [right; apply H3, Ha; by right|by apply H4].
    + split_and!; [by rewrite Hp| | |done].
      * intros x [Hx|[? _]]%Ha; [by left|done].
      * intros x Hx. apply Ha. by left.
Qed.
End gateways.

(** ** Rules *)
Definition of_priority (p : Z) (rs : list kernelPolicyRule) : list kernelPolicyRule := List.filter (λ r, pr_priority r =? p) rs.
Definition fits (want : rule) (r : kernelPolicyRule) : bool :=
  (pr_table r =? r_Table want) && (pr_action r =? r_Type want) && bool_decide (pr_extra r = []) && sameDestination (pr_dst r) (r_Dst want).
(** The rule is there and no other one has its priority. *)
Definition has_rule (want : rule) (rs : list kernelPolicyRule) : Prop :=
  ∃ r, of_priority (r_Priority want) rs = [r] ∧ fits want r = true.

Lemma findRule_found want rules b : findRule want rules true = Ok b → of_priority (r_Priority want) rules = [] ∧ b = true.
Proof.
  induction rules as [|r rules IH]; cbn; [by intros [= <-]|]. destruct (pr_priority r =? r_Priority want); cbn [negb]; [done|]. apply IH.
Qed.
Lemma findRule_Ok want rules b :
  findRule want rules false = Ok b →
  if b then has_rule want rules else of_priority (r_Priority want) rules = [].
Proof.
  induction rules as [|r rules IH]; cbn; [by intros [= <-]|]. unfold has_rule. cbn [of_priority List.filter].
  destruct (pr_priority r =? r_Priority want) eqn:E; cbn [negb orb]; [|apply IH].
  destruct (_ || _) eqn:Eb; [done|]. intros [Hn ->]%findRule_found. exists r. split; [by f_equal|]. unfold fits.
  rewrite !orb_false_iff, !negb_false_iff in Eb. destruct Eb as [[[-> ->] ->] ->]. done.
Qed.
Lemma findRule_none want rules b : of_priority (r_Priority want) rules = [] → findRule want rules b = Ok b.
Proof.
  induction rules as [|r rules IH]; [done|]. cbn [of_priority List.filter findRule].
  destruct (pr_priority r =? r_Priority want); cbn [negb]; [done|apply IH].
Qed.
Lemma findRule_has want rules : has_rule want rules → findRule want rules false = Ok true.
Proof.
  intros (r0 & Hf & Hr). induction rules as [|r rules IH]; [done|]. cbn [of_priority List.filter findRule] in *.
  destruct (pr_priority r =? r_Priority want); cbn [negb orb]; [|by apply IH]. injection Hf as -> Hf.
  unfold fits in Hr. rewrite !andb_true_iff in Hr. destruct Hr as [[[-> ->] ->] ->]. by apply findRule_none.
Qed.
Lemma of_priority_Permutation p rs rs' : rs ≡ₚ rs' → of_priority p rs ≡ₚ of_priority p rs'.
Proof.
  induction 1 as [|x l l' H IH|x y l|l l' l'' H1 IH1 H2 IH2]; [done| | |by etrans]; cbn [of_priority List.filter].
  - destruct (pr_priority x =? p); [by constructor|done].
  - destruct (pr_priority x =? p), (pr_priority y =? p); try done. constructor.
Qed.
#[export] Instance has_rule_Proper want : Proper ((≡ₚ) ==> iff) (has_rule want).
Proof.
  intros rs rs' H. apply (of_priority_Permutation (r_Priority want)) in H. unfold has_rule.
  split; intros (r & E & Hr); exists r; (split; [|done]); rewrite E in H; [symmetry in H|]; by apply Permutation_singleton_r in H.
Qed.
Lemma sameDestination_refl d : sameDestination d d = true.
Proof. destruct d; [apply beq_refl|done]. Qed.
Lemma has_reported want rs : of_priority (r_Priority want) rs = [] → has_rule want (rs ++ [reported_rule want]).
Proof.
  intros H. exists (reported_rule want). unfold of_priority in *. rewrite List.filter_app, H. cbn. rewrite Z.eqb_refl. split; [done|].
  unfold fits. cbn. by rewrite !Z.eqb_refl, sameDestination_refl.
Qed.
Lemma has_other want want' rs :
  r_Priority want ≠ r_Priority want' → has_rule want rs → has_rule want (rs ++ [reported_rule want']).
Proof.
  intros Hne (r & E & Hr). exists r. split; [|done]. unfold of_priority in *. rewrite List.filter_app, E. cbn.
  by rewrite (proj2 (Z.eqb_neq _ _)).
Qed.

(** Nothing is in the way of the rule. *)
Definition rule_ready (want : rule) (rs : list kernelPolicyRule) : Prop :=
  of_priority (r_Priority want) rs = [] ∨ has_rule want rs.
#[export] Instance rule_ready_Proper want : Proper ((≡ₚ) ==> iff) (rule_ready want).
Proof.
  assert (∀ rs rs', rs ≡ₚ rs' → rule_ready want rs → rule_ready want rs') as H.
  { intros rs rs' H [E|E]; [left|right; by rewrite <- H]. apply (of_priority_Permutation (r_Priority want)) in H. rewrite E in H. by apply Permutation_nil_l in H. }
  intros rs rs' Hp. split; apply H; done.
Qed.
Lemma ready_other want want' rs :
  r_Priority want ≠ r_Priority want' → rule_ready want rs → rule_ready want (rs ++ [reported_rule want']).
Proof.
  intros Hne [E|H]; [left|right; by apply has_other]. unfold of_priority in *. rewrite List.filter_app, E. cbn.
  by rewrite (proj2 (Z.eqb_neq _ _)).
Qed.

Section rules.
Context {S : Type} (k : handler kcall S) `{!Router k} (n : string).
Lemma ensureRule_sees want s :
  sees k (ensureRule (InVPC n) want) s (λ r s' _,
    (∀ x, addr_at s' n x ↔ addr_at s n x) ∧ (r = Ok tt → has_rule want (policy s' n)) ∧
    (∀ want', r_Priority want' ≠ r_Priority want → has_rule want' (policy s n) → has_rule want' (policy s' n)) ∧
    (∀ want', r_Priority want' ≠ r_Priority want → rule_ready want' (policy s n) → rule_ready want' (policy s' n))).
Proof.
  unfold ensureRule, listKernelPolicyRules. apply sees_got, sees_got_as. sees_do. intros ms s1 Hk.
  destruct (others_frame (RuleDump (InVPC n)) s ms s1 n ltac:(by intros []) Hk) as [F1 F2].
  destruct ms as [ms|e]; [|split_and!; [done|done|by rewrite F2|by rewrite F2]]. destruct (rule_dump n s ms s1 Hk) as (rs & Hrs & Hperm).
  apply sees_ret. rewrite Hrs. unfold checked. destruct (findRule want rs false) as [b|e] eqn:Ef; [|apply sees_ret; split_and!; [done|done|by rewrite F2|by rewrite F2]].
  apply findRule_Ok in Ef. destruct b.
  - apply sees_ret. split_and!; [done| |by rewrite F2|by rewrite F2]. intros _. by rewrite F2, <- Hperm.
  - apply sees_got_as. sees_do. intros b s2 Hk2. destruct (rule_add n want s1 b s2 Hk2) as [A1 A2].
    assert (of_priority (r_Priority want) (policy s1 n) = []) as Hnone.
    { rewrite F2. apply Permutation_nil. rewrite <- Ef. by apply of_priority_Permutation. }
    destruct b as [[]|e]; cbn [is_Ok] in A2; [apply sees_ret|]; (split_and!; [intros x; by rewrite A1|..]).
    + intros _. rewrite A2. by apply has_reported.
    + intros want' Hne Hw. rewrite A2, F2. by apply has_other.
    + intros want' Hne Hw. rewrite A2, F2. by apply ready_other.
    + done.
    + intros want' Hne Hw. by rewrite A2, app_nil_r, F2.
    + intros want' Hne Hw. by rewrite A2, app_nil_r, F2.
Qed.
End rules.

(** ** The whole VPC *)
Lemma wantedOf_lookup gs key : wantedOf gs !! key = Some false ↔ ∃ g, g ∈ gs ∧ key = Addr_String g.
Proof.
  unfold wantedOf. assert (∀ m : gmap string bool, (∀ b, m !! key = Some b → b = false) →
    foldl (λ (m : gmap string bool) a, <[Addr_String a := false]> m) m gs !! key = Some false ↔
    m !! key = Some false ∨ ∃ g, g ∈ gs ∧ key = Addr_String g) as H.
  { induction gs as [|g gs IH]; intros m Hm; cbn [foldl].
    - split; [by left|]. intros [|(g & Hg & _)]; [done|]. by apply not_elem_of_nil in Hg.
    - rewrite IH.
      + destruct (decide (Addr_String g = key)) as [<-|Hne]; [rewrite lookup_insert_eq|rewrite lookup_insert_ne by done].
        * split; [intros _; right; exists g; split; [by left|done]|by left].
        * split; [intros [|(g' & Hg' & ->)]; [by left|right; exists g'; split; [by right|done]]|].
          intros [|(g' & [->|Hg']%elem_of_cons & ->)]; [by left|done|right; eauto].
      + intros b. destruct (decide (Addr_String g = key)) as [<-|Hne]; [rewrite lookup_insert_eq; congruence|rewrite lookup_insert_ne by done; apply Hm]. }
  rewrite H by (intros b; by rewrite lookup_empty). rewrite lookup_empty. naive_solver.
Qed.
Lemma wantedOf_false gs key b : wantedOf gs !! key = Some b → b = false.
Proof.
  unfold wantedOf. assert (∀ m : gmap string bool, (∀ key b, m !! key = Some b → b = false) →
    ∀ key b, foldl (λ (m : gmap string bool) a, <[Addr_String a := false]> m) m gs !! key = Some b → b = false) as H.
  { induction gs as [|g gs IH]; intros m Hm; cbn [foldl]; [done|]. apply IH. intros key' b' Hb.
    apply lookup_insert_Some in Hb as [[_ <-]|[_ Hb]]; [done|by eapply Hm]. }
  eapply H. intros ?? Hx. by rewrite lookup_empty in Hx.
Qed.
Lemma wantedOf_dom gs key : is_Some (wantedOf gs !! key) ↔ ∃ g, g ∈ gs ∧ key = Addr_String g.
Proof.
  rewrite <- wantedOf_lookup. split; [intros [b Hb]; pose proof (wantedOf_false _ _ _ Hb); by subst|by intros ->].
Qed.

Section converge.
Context {S : Type} (k : handler kcall S) `{!Router k} (n : string) (gateways : list Addr).
Let h := InVPC n.

Definition exact (s : S) : Prop :=
  (∀ x, addr_at s n x → ka_IP x = None ∨ ∃ g, g ∈ gateways ∧ is_gateway g x) ∧
  (∀ g, g ∈ gateways → ∃ x, addr_at s n x ∧ is_gateway g x).

Lemma reconcileGateways_sees s :
  Forall addr4 gateways →
  sees k (reconcileGateways h gateways) s (λ r s' _, policy s' n = policy s n ∧ (r = Ok tt → exact s')).
Proof.
  intros H4. unfold reconcileGateways. apply sees_got_as. sees_do. intros r s1 Hk1.
  destruct (others_frame _ s r s1 n ltac:(by intros []) Hk1) as [F1 P1]. destruct r as [l|e]; [|done].
  pose proof (link_named n _ s l s1 Hk1) as Hl. apply sees_got_as. sees_do. intros r s2 Hk2.
  destruct (others_frame _ s1 r s2 n ltac:(by intros []) Hk2) as [F2 P2]. destruct r as [xs|e]; [|by rewrite P2].
  pose proof (addr_list n l s1 xs s2 Hl Hk2) as Hxs. apply sees_got.
  eapply sees_mono; [apply (dropStale_sees k n l Hl xs (wantedOf gateways))|].
  { constructor.
    - intros x Hx. left. apply Hxs. by apply F2.
    - intros key Hw%wantedOf_false. done.
    - intros x key Hx _ _. apply F2. by apply Hxs. }
  intros r s3 _ [P3 Hr]. destruct r as [w|e]; [|by rewrite P3, P2]. destruct Hr as [Hdom [B1 B2 _]].
  eapply sees_mono; [apply (addMissing_sees k n l Hl)|]. cbv beta. intros r s4 _ (P4 & A1 & A2 & A3).
  split; [by rewrite P4, P3, P2|]. intros Hok. rewrite Forall_forall in H4. split.
  - intros x [Hx|(g & Hg & ->)]%A1.
    + apply B1 in Hx as [Hx|[Hx|(key & Hkey & Hw & Ho)]]; [by apply not_elem_of_nil in Hx|by left|]. right.
      assert (key ∈ dom w) as Hd by (by apply elem_of_dom_2 in Hw). rewrite Hdom in Hd. apply elem_of_dom, wantedOf_dom in Hd as (g & Hg & ->).
      by exists g.
    + right. exists g. split; [done|]. split; [done|]. by apply key_gateway, H4.
  - intros g Hg. destruct (A3 Hok g Hg) as [Hw|Hx].
    + destruct (B2 _ Hw) as (x & Hx & Hkey & Ho). exists x. split; [by apply A2|done].
    + exists (gatewayAddr g). split; [done|]. split; [done|]. by apply key_gateway, H4.
Qed.

Definition converged (cidr : Prefix) (s : S) : Prop :=
  exact s ∧ has_rule dropRule (policy s n) ∧
  ∃ d, ParseCIDR_net (Prefix_String cidr) = Ok d ∧ has_rule (localRule d) (policy s n).

Ltac still_call := match goal with |- wp ?a (call ?c) ?t _ => refine (any_call a c t _); by intros [] end.
Lemma links_still s : sees k (ensureRouterLinks h) s (λ _ s' t, unchanged k n s s' ∧ still t).
Proof.
  eapply sees_mono; [apply (still_sees k (ensureRouterLinks h) s n (λ _, True))|by intros ? ? ? [_ ?]].
  assert (∀ r t, wp (λ _ c, ¬ changes c) (upRouter h r) t (λ _ _, True)) as Hup.
  { intros [l|e] t; unfold upRouter; [|done]. case_match; [done|]. apply any_got_as; [still_call|done]. }
  unfold ensureRouterLinks. apply any_got_as; [still_call|]. intros lo ?. apply any_got_as; [still_call|]. intros _ ?.
  apply any_bind; [still_call|]. intros [l|e] ?; unfold routerLink; [apply Hup|]. case_match; [|apply Hup].
  apply any_got_as; [still_call|]. intros _ ?. apply any_bind; [still_call|]. intros. apply Hup.
Qed.
Lemma sysctl_still key value s : sees k (setNamespaceSysctl h key value) s (λ _ s' t, unchanged k n s s' ∧ still t).
Proof.
  eapply sees_mono; [apply (still_sees k (setNamespaceSysctl h key value) s n (λ _, True))|by intros ? ? ? [_ ?]].
  unfold setNamespaceSysctl. do 2 (case_match; [done|]). apply any_got_as; [still_call|done].
Qed.
Lemma ensure_still s : sees k (Kernel.Ensure n) s (λ _ s' t, unchanged k n s s' ∧ still t).
Proof.
  eapply sees_mono; [apply (still_sees k (Kernel.Ensure n) s n (λ _, True))|by intros ? ? ? [_ ?]].
  assert (∀ p t, wp (λ _ c, ¬ changes c) (requireNamespaceMount p) t (λ _ _, True)) as Hreq.
  { intros p t. unfold requireNamespaceMount. apply any_got_as; [still_call|]. intros [] ?; [done|]. by apply any_got_as; [still_call|]. }
  unfold Kernel.Ensure. apply any_checked. intros _ ?. apply wp_unless; [by intros []|done|]. apply any_got_as; [still_call|]. intros _ ?.
  apply any_bind; [still_call|]. intros [?|e] ?; [apply Hreq|]. case_match; [done|]. apply wp_unless; [by intros []|done|].
  apply any_got_as; [still_call|]. intros _ ?. apply any_bind; [still_call|]. intros [?|?] ?.
  - apply any_bind.
    + unfold makeNamespace. apply wp_unless; [by intros []|done|]. do 2 (apply any_got_as; [still_call|intros _ ?]). done.
    + intros [?|?] ?; [apply Hreq|]. apply any_bind; [still_call|]. by intros [?|?] ?.
  - apply any_bind; [still_call|]. done.
Qed.

(** What may follow such a part. *)
Definition closed {A} (Q : result A → S → history → Prop) : Prop := ∀ t0 r s t, still t0 → Q r s t → Q r s (t0 ++ t).
Lemma unchanged_trans s s' s'' : unchanged k n s s' → unchanged k n s' s'' → unchanged k n s s''.
Proof. intros [H1 H2] [H3 H4]. split; [intros x; by rewrite H3|by rewrite H4]. Qed.
Lemma unchanged_refl s : unchanged k n s s.
Proof. done. Qed.
Lemma then_got {A B} (m : K (result A)) (f : A → K (result B)) s Q :
  closed Q → sees k m s (λ _ s' t, unchanged k n s s' ∧ still t) →
  (∀ e s' t, unchanged k n s s' → still t → Q (Err e) s' t) → (∀ a s', unchanged k n s s' → sees k (f a) s' Q) →
  sees k (got m f) s Q.
Proof.
  intros Hc Hm He Hf. apply sees_got. eapply sees_mono; [exact Hm|]. intros [a|e] s' t [Hu Ht]; [|by apply He].
  eapply sees_mono; [by apply Hf|]. intros. by apply Hc.
Qed.
Lemma then_got_as {A B} tx (m : K (result A)) (f : A → K (result B)) s Q :
  closed Q → sees k m s (λ _ s' t, unchanged k n s s' ∧ still t) →
  (∀ e s' t, unchanged k n s s' → still t → Q (Err e) s' t) → (∀ a s', unchanged k n s s' → sees k (f a) s' Q) →
  sees k (got_as tx m f) s Q.
Proof.
  intros Hc Hm He Hf. apply sees_got_as. eapply sees_mono; [exact Hm|]. intros [a|e] s' t [Hu Ht]; [|by apply He].
  eapply sees_mono; [by apply Hf|]. intros. by apply Hc.
Qed.
Lemma call_still c s : ¬ changes c → sees k (call c) s (λ _ s' t, unchanged k n s s' ∧ still t).
Proof. intros Hc. sees_do. intros b s' Hk. split; [by eapply others_frame|]. by constructor. Qed.
Ltac quiet_call := match goal with |- sees _ (call ?c) ?s _ => refine (call_still c s _); by intros [] end.
Lemma then_unless {A} (next : K (result A)) s Q :
  closed Q → (∀ e s' t, unchanged k n s s' → still t → Q (Err e) s' t) → (∀ s', unchanged k n s s' → sees k next s' Q) →
  sees k (unless_done next) s Q.
Proof.
  intros Hc He Hn. unfold unless_done. apply sees_bind. eapply sees_mono; [apply (call_still CtxErr); by intros []|].
  intros [e|] s' t [Hu Ht].
  - apply sees_ret. rewrite app_nil_r. by apply He.
  - eapply sees_mono; [by apply Hn|]. intros. by apply Hc.
Qed.
Lemma mount_still path s : sees k (requireNamespaceMount path) s (λ _ s' t, unchanged k n s s' ∧ still t).
Proof.
  eapply sees_mono; [apply (still_sees k (requireNamespaceMount path) s n (λ _, True))|by intros ? ? ? [_ ?]].
  unfold requireNamespaceMount. apply any_got_as; [still_call|]. intros [] ?; [done|]. by apply any_got_as; [still_call|].
Qed.
Lemma within_sees fn s Q :
  closed Q → (∀ e s' t, unchanged k n s s' → still t → Q (Err e) s' t) → (∀ s', unchanged k n s s' → sees k (fn h) s' Q) →
  sees k (WithHandle n fn) s Q.
Proof.
  intros Hc He Hf. unfold WithHandle, Do, checked. destruct (validateName n) as [[]|e]; [|apply sees_ret, He; [done|constructor]].
  assert (∀ s1 e s' t, unchanged k n s s1 → unchanged k n s1 s' → still t → Q (Err e) s' t) as He' by (intros; apply He; [by eapply unchanged_trans|done]).
  apply then_unless; [done|by eauto|]. intros s1 U1. apply then_got; [done|apply mount_still|by eauto|]. intros _ s2 U2.
  pose proof (unchanged_trans _ _ _ U1 U2) as U02. apply then_got_as; [done|quiet_call|by eauto|]. intros _ s3 U3.
  pose proof (unchanged_trans _ _ _ U02 U3) as U03. apply then_unless; [done|by eauto|]. intros s4 U4.
  pose proof (unchanged_trans _ _ _ U03 U4) as U04. apply then_got_as; [done|quiet_call|by eauto|]. intros _ s5 U5.
  pose proof (unchanged_trans _ _ _ U04 U5) as U05. apply then_got_as; [done|quiet_call|by eauto|]. intros _ s6 U6.
  pose proof (unchanged_trans _ _ _ U05 U6) as U06. apply then_got_as; [done|quiet_call|by eauto|]. intros _ s7 U7.
  apply Hf. by eapply unchanged_trans.
Qed.

(** A run that succeeds leaves the wanted gateways and rules. *)
Lemma convergeVPC_sees vpc s :
  Forall addr4 gateways →
  sees k (convergeVPC vpc gateways h) s (λ r s' _, r = Ok tt → converged (VPC_CIDRBlock vpc) s').
Proof.
  intros H4. unfold convergeVPC. set (Q := λ (r : result unit) s' (_ : history), r = Ok tt → converged (VPC_CIDRBlock vpc) s').
  assert (closed Q) as Hc by (intros t0 r s' t _ HQ; exact HQ).
  assert (∀ s0 e s' t, unchanged k n s0 s' → still t → Q (Err e) s' t) as He by (intros s0 e s' t _ _ [=]).
  apply then_unless; [done|apply He|]. intros s1 _. apply then_got_as; [done|apply links_still|apply He|]. intros _ s2 _.
  do 3 (apply then_got; [done|apply sysctl_still|apply He|]; intros _ ? _).
  apply sees_got_as. eapply sees_mono; [by apply reconcileGateways_sees|]. cbv beta. intros [[]|e] s4 ? [_ H]; [|done].
  specialize (H eq_refl). apply sees_got_as. unfold ensurePolicyRules, checked.
  destruct (wrap_err _ _) as [d|e] eqn:Ed; [|by apply sees_ret]. apply wrap_err_Ok in Ed.
  apply sees_got_as. eapply sees_mono; [apply ensureRule_sees|]. cbv beta. intros [[]|e] s5 ? (A5 & R5 & _ & _); [|done].
  specialize (R5 eq_refl). apply sees_got_as. eapply sees_mono; [apply ensureRule_sees|]. cbv beta. intros [[]|e] s6 ? (A6 & R6 & O6 & _); [|done].
  specialize (R6 eq_refl). apply sees_ret. apply then_unless; [done|apply He|]. intros s7 [A7 P7]. apply sees_ret. intros _.
  assert (∀ x, addr_at s7 n x ↔ addr_at s4 n x) as Hx by (intros x; by rewrite A7, A6, A5).
  split; [|split].
  - destruct H as [X1 X2]. split; [intros x Hx'; by apply X1, Hx|]. intros g Hg. destruct (X2 g Hg) as (x & Hx1 & Hx2).
    exists x. split; [by apply Hx|done].
  - by rewrite P7.
  - exists d. split; [done|]. rewrite P7. by apply O6.
Qed.
Lemma EnsureVPC_sees vpc subnets s :
  Name (VPC_ShortIndex vpc) = Ok n → desiredGateways vpc subnets = Ok gateways → Forall addr4 gateways →
  sees k (EnsureVPC vpc subnets) s (λ r s' _, r = Ok tt → converged (VPC_CIDRBlock vpc) s').
Proof.
  intros Hn Hg H4. unfold EnsureVPC, checked. rewrite Hn, Hg.
  apply then_got_as; [by intros t0 r s' t _ HQ|apply ensure_still|by intros|]. intros _ s1 _.
  apply within_sees; [by intros t0 r s' t _ HQ|by intros|]. intros. by apply convergeVPC_sees.
Qed.

(** *** A second run *)
Ltac stills := unfold still; cbn [app]; repeat (apply Forall_cons_2; [by intros []|]); apply Forall_nil_2.
Definition same_as {A} (s0 : S) : result A → S → history → Prop := λ _ s' t, unchanged k n s0 s' ∧ still t.
Lemma same_closed {A} s0 : closed (@same_as A s0).
Proof. intros t0 r s t H0 [H1 H2]. split; [done|]. by apply Forall_app. Qed.
Lemma same_error {A} s0 s e s' t : unchanged k n s0 s → unchanged k n s s' → still t → @same_as A s0 (Err e) s' t.
Proof. intros H1 H2 Ht. split; [by eapply unchanged_trans|done]. Qed.

Lemma dropStale_done l xs wanted :
  (∀ x, x ∈ xs → ka_IP x = None ∨ ∃ key, key_of x = Some key ∧ owned x ∧ is_Some (wanted !! key)) →
  ∃ w, dropStale h l xs wanted = mret (Ok w) ∧
    ∀ key, wanted !! key = Some true ∨ (∃ x, x ∈ xs ∧ key_of x = Some key) → w !! key = Some true.
Proof.
  revert wanted. induction xs as [|x xs IH]; intros wanted H; cbn [dropStale].
  { exists wanted. split; [done|]. intros key [|(x & Hx & _)]; [done|]. by apply not_elem_of_nil in Hx. }
  destruct (H x ltac:(by left)) as [Hn|(key & Hk & (H1 & H2 & H3) & Hw)].
  - rewrite Hn. destruct (IH wanted) as (w & E & Hw); [intros; apply H; by right|]. exists w. split; [done|]. intros key Hkey. apply Hw.
    destruct Hkey as [|(y & [->|Hy]%elem_of_cons & Hky)]; [by left| |right; eauto]. unfold key_of in Hky. by rewrite Hn in Hky.
  - pose proof Hk as Hk'. unfold key_of in Hk'. destruct (ka_IP x) as [ip|]; [|done]. cbn [mbind option_bind] in Hk'.
    destruct (AddrFromSlice ip) as [a|]; [|done]. injection Hk' as Hk'. cbv zeta. rewrite Hk', H1, H2, H3, beq_refl.
    rewrite bool_decide_eq_true_2 by done. cbn [negb andb orb Z.eqb Pos.eqb].
    destruct (IH (<[key := true]> wanted)) as (w & E & Hw').
    { intros y Hy. destruct (H y ltac:(by right)) as [|(key' & ? & ? & ?)]; [by left|]. right. exists key'. split_and!; [done..|].
      destruct (decide (key = key')) as [->|]; [rewrite lookup_insert_eq; eauto|by rewrite lookup_insert_ne]. }
    exists w. split; [done|]. intros key' Hkey. apply Hw'. destruct (decide (key = key')) as [->|]; [left; by rewrite lookup_insert_eq|].
    rewrite lookup_insert_ne by done. destruct Hkey as [|(y & [->|Hy]%elem_of_cons & Hky)]; [by left|congruence|right; eauto].
Qed.
Lemma addMissing_done l desired w :
  (∀ g, g ∈ desired → w !! Addr_String g = Some true) → addMissing h l desired w = mret (Ok tt).
Proof.
  induction desired as [|g desired IH]; intros H; cbn [addMissing]; [done|]. rewrite H by by left. apply IH. intros. apply H. by right.
Qed.
Lemma reconcile_stays s : exact s → sees k (reconcileGateways h gateways) s (same_as s).
Proof.
  intros [X1 X2]. unfold reconcileGateways. apply sees_got_as. sees_do. intros r s1 Hk1.
  pose proof (others_frame _ s r s1 n ltac:(by intros []) Hk1) as U1. destruct r as [l|e]; [|split; [done|stills]].
  pose proof (link_named n _ s l s1 Hk1) as Hl. apply sees_got_as. sees_do. intros r s2 Hk2.
  pose proof (others_frame _ s1 r s2 n ltac:(by intros []) Hk2) as U2. pose proof (unchanged_trans _ _ _ U1 U2) as U.
  destruct r as [xs|e]; [|split; [done|stills]]. pose proof (addr_list n l s1 xs s2 Hl Hk2) as Hxs.
  destruct U1 as [F1 _]. destruct (dropStale_done l xs (wantedOf gateways)) as (w & E & Hw).
  { intros x [Hx|(g & Hg & Ho & Hkey)]%Hxs%F1%X1; [by left|]. right. exists (Addr_String g). split_and!; [done..|].
    apply wantedOf_dom. eauto. }
  rewrite E. apply sees_got, sees_ret. rewrite addMissing_done; [apply sees_ret; split; [done|stills]|].
  intros g Hg. apply Hw. right. destruct (X2 g Hg) as (x & Hx & Ho & Hkey). exists x. split; [|done]. by apply Hxs, F1.
Qed.
Lemma ensureRule_stays want s : has_rule want (policy s n) → sees k (ensureRule h want) s (same_as s).
Proof.
  intros Hw. unfold ensureRule, listKernelPolicyRules. apply sees_got, sees_got_as. sees_do. intros r s1 Hk.
  pose proof (others_frame (RuleDump (InVPC n)) s r s1 n ltac:(by intros []) Hk) as U. destruct r as [ms|e]; [|split; [done|stills]].
  destruct (rule_dump n s ms s1 Hk) as (rs & Hrs & Hperm). apply sees_ret. rewrite Hrs. unfold checked.
  rewrite findRule_has by (by rewrite Hperm). apply sees_ret. split; [done|stills].
Qed.
Lemma converged_unchanged cidr s s' : unchanged k n s s' → converged cidr s → converged cidr s'.
Proof.
  intros [H1 H2] ([X1 X2] & Hd & d & Ed & Hld). split; [split|].
  - intros x Hx. by apply X1, H1.
  - intros g Hg. destruct (X2 g Hg) as (x & Hx & ?). exists x. split; [by apply H1|done].
  - rewrite H2. eauto.
Qed.
Lemma convergeVPC_stays vpc s0 s :
  unchanged k n s0 s → converged (VPC_CIDRBlock vpc) s0 → sees k (convergeVPC vpc gateways h) s (same_as s0).
Proof.
  intros U0 Hc. unfold convergeVPC. assert (∀ s e s' t, unchanged k n s0 s → unchanged k n s s' → still t → same_as s0 (Err e : result unit) s' t) as He
    by (intros s1 e s' t H1 H2 H3; exact (same_error s0 s1 e s' t H1 H2 H3)). pose proof (same_closed s0 : closed (@same_as unit s0)) as Hcl.
  assert (∀ s1, unchanged k n s0 s1 → converged (VPC_CIDRBlock vpc) s1) as Hs by (intros; by eapply converged_unchanged).
  apply then_unless; [done|by eauto|]. intros s1 U1. apply (unchanged_trans _ _ _ U0) in U1. apply then_got_as; [done|apply links_still|by eauto|].
  intros _ s2 U2. apply (unchanged_trans _ _ _ U1) in U2. apply then_got; [done|apply sysctl_still|by eauto|]. intros _ s3 U3. apply (unchanged_trans _ _ _ U2) in U3.
  apply then_got; [done|apply sysctl_still|by eauto|]. intros _ s4 U4. apply (unchanged_trans _ _ _ U3) in U4.
  apply then_got; [done|apply sysctl_still|by eauto|]. intros _ s5 U5. apply (unchanged_trans _ _ _ U4) in U5.
  apply then_got_as; [done|apply reconcile_stays, (Hs s5 U5)|by eauto|]. intros _ s6 U6. apply (unchanged_trans _ _ _ U5) in U6.
  destruct (Hs s6 U6) as (_ & Hd & d & Ed & Hl). apply then_got_as; [done| |by eauto|].
  - unfold ensurePolicyRules, checked. rewrite Ed. cbn [wrap_err].
    assert (∀ s e s' t, unchanged k n s6 s → unchanged k n s s' → still t → same_as s6 (Err e : result unit) s' t) as He6 by (intros s9 e s' t H1 H2 H3; exact (same_error s6 s9 e s' t H1 H2 H3)).
    apply then_got_as; [apply same_closed|by apply ensureRule_stays|intros e s' t H1 H2; exact (He6 s6 e s' t (unchanged_refl s6) H1 H2)|]. intros _ s7 [A7 P7].
    apply then_got_as; [apply same_closed|apply ensureRule_stays; by rewrite P7|intros e s' t H1 H2; exact (He6 s7 e s' t (conj A7 P7) H1 H2)|]. intros _ s8 U8. apply sees_ret.
    split; [by eapply unchanged_trans|constructor].
  - intros _ s7 U7. apply (unchanged_trans _ _ _ U6) in U7. apply then_unless; [done|by eauto|]. intros s8 U8. apply sees_ret.
    split; [by eapply unchanged_trans|constructor].
Qed.
Lemma EnsureVPC_stays vpc subnets s :
  Name (VPC_ShortIndex vpc) = Ok n → desiredGateways vpc subnets = Ok gateways → converged (VPC_CIDRBlock vpc) s →
  sees k (EnsureVPC vpc subnets) s (same_as s).
Proof.
  intros Hn Hg Hc. unfold EnsureVPC, checked. rewrite Hn, Hg.
  apply then_got_as; [apply same_closed|apply ensure_still|done|]. intros _ s1 U1.
  apply within_sees; [apply same_closed|intros; by eapply same_error|]. intros s2 U2. apply convergeVPC_stays; [by eapply unchanged_trans|done].
Qed.

(** *** A run that succeeds *)

(** A reply that is not a failure; links have the type they should, and the
    namespace is mounted. *)
Definition obliges (c : kcall) : reply c → Prop :=
  match c return reply c → Prop with
  | CtxErr => λ e, e = None
  | Lstat _ => λ r, r = Ok false
  | Statfs _ => λ r, r = Ok NSFS_MAGIC
  | LinkByName _ m => λ r, ∃ l, r = Ok l ∧ (m = routerLinkName → l_Type l = "dummy")
  | Fstatfs | GetNetNsIdByFd _ _ | DupFd => λ r, is_Ok r = true
  | ReadDir _ | ReadAt _ | LinkList _ | AddrList _ _ | RuleDump _ | Fstat _ | StatSelf _ | FstatOwner => λ r, is_Ok r = true
  | Nft _ _ _ => λ r, r.2 = None
  | RuleAdd _ want => λ r, sane_rule want → is_Ok r = true
  | _ => λ r, is_Ok r = true
  end.
Definition obliging : Prop := ∀ c s, obliges c (k c s).1.
(** No address is in the way. *)
Definition manageable (x : kaddr) : Prop :=
  ka_IP x = None ∨ ∃ key, key_of x = Some key ∧ ka_Label x = gatewayLabel ∧
    ((∃ g, g ∈ gateways ∧ key = Addr_String g) → ka_Ones x = 32 ∧ ka_Bits x = 32).
Definition manageable_router (cidr : Prefix) (s : S) : Prop :=
  (∀ x, addr_at s n x → manageable x) ∧ rule_ready dropRule (policy s n) ∧
  ∃ d, ParseCIDR_net (Prefix_String cidr) = Ok d ∧ rule_ready (localRule d) (policy s n).

Section obliged.
Context (Hob : obliging).
Definition works {A} (p : K (result A)) (s : S) : Prop := sees k p s (λ r _ _, is_Ok r = true).

Lemma works_got {A B} (m : K (result A)) (f : A → K (result B)) s (R : A → S → Prop) :
  sees k m s (λ r s' _, ∃ a, r = Ok a ∧ R a s') → (∀ a s', R a s' → works (f a) s') → works (got m f) s.
Proof. intros Hm Hf. apply sees_got. eapply sees_mono; [exact Hm|]. intros r s' t (a & -> & Ha). by apply Hf. Qed.
Lemma works_got_as {A B} tx (m : K (result A)) (f : A → K (result B)) s (R : A → S → Prop) :
  sees k m s (λ r s' _, ∃ a, r = Ok a ∧ R a s') → (∀ a s', R a s' → works (f a) s') → works (got_as tx m f) s.
Proof. intros Hm Hf. apply sees_got_as. eapply sees_mono; [exact Hm|]. intros r s' t (a & -> & Ha). by apply Hf. Qed.
Lemma works_Ok {A} (p : K (result A)) s (P : S → Prop) :
  works p s → sees k p s (λ _ s' _, P s') → sees k p s (λ r s' _, ∃ a, r = Ok a ∧ P s').
Proof. unfold works, sees. intros H HP. destruct (run k p s).1 as [a|e]; [|done]. eauto. Qed.
Lemma obliged c s b s' : k c s = (b, s') → obliges c b.
Proof using Hob. intros H. specialize (Hob c s). by rewrite H in Hob. Qed.
Lemma is_Ok_inv {A} (r : result A) : is_Ok r = true → ∃ a, r = Ok a.
Proof. destruct r; [eauto|done]. Qed.
Lemma dropStale_works l xs wanted s :
  (∀ x, x ∈ xs → manageable x) → (∀ key, is_Some (wanted !! key) → ∃ g, g ∈ gateways ∧ key = Addr_String g) →
  works (dropStale h l xs wanted) s.
Proof using Hob.
  revert wanted s. induction xs as [|x xs IH]; intros wanted s Hm Hw; cbn [dropStale]; [by apply sees_ret|].
  assert (∀ y, y ∈ xs → manageable y) as Hm' by (intros; apply Hm; by right).
  destruct (Hm x ltac:(by left)) as [Hn|(key & Hk & Hlabel & H32)]; [rewrite Hn; by apply IH|].
  pose proof Hk as Hk'. unfold key_of in Hk'. destruct (ka_IP x) as [ip|]; [|done]. cbn [mbind option_bind] in Hk'.
  destruct (AddrFromSlice ip) as [a|]; [|done]. injection Hk' as Hk'. cbv zeta. rewrite Hk', Hlabel, beq_refl. cbn [negb]. rewrite andb_false_r.
  destruct (bool_decide _) eqn:En.
  - apply bool_decide_eq_true in En. destruct (H32 (Hw key En)) as [-> ->]. cbn [negb Z.eqb Pos.eqb orb]. apply IH; [done|].
    intros key' Hk''. apply Hw. destruct (decide (key = key')) as [<-|]; [done|]. by rewrite lookup_insert_ne in Hk''.
  - apply (works_got_as _ _ _ _ (λ _ _, True)); [|intros; by apply IH]. sees_do. intros b s' Hb. apply obliged in Hb.
    cbn in Hb. apply is_Ok_inv in Hb as [u ->]. eauto.
Qed.
Lemma addMissing_works l desired wanted s : works (addMissing h l desired wanted) s.
Proof using Hob.
  revert s. induction desired as [|g desired IH]; intros s; cbn [addMissing]; [by apply sees_ret|]. case_match; [apply IH|].
  apply (works_got_as _ _ _ _ (λ _ _, True)); [|intros; by apply IH]. sees_do. intros b s' Hb. apply obliged in Hb.
  cbn in Hb. apply is_Ok_inv in Hb as [u ->]. eauto.
Qed.
Lemma reconcile_works s : (∀ x, addr_at s n x → manageable x) → works (reconcileGateways h gateways) s.
Proof using Hob.
  intros Hm. unfold reconcileGateways.
  apply (works_got_as _ _ _ _ (λ l s', l_Name l = routerLinkName ∧ ∀ x, addr_at s' n x → manageable x)).
  { sees_do. intros b s' Hb. pose proof (obliged _ _ _ _ Hb) as Ho. cbn in Ho. destruct Ho as (l & -> & _). exists l. split; [done|]. split; [by eapply link_named|].
    intros x Hx. apply Hm. assert (¬ changes (LinkByName h routerLinkName)) as Hnc by by intros [].
    destruct (others_frame _ _ _ _ n Hnc Hb) as [F _]. by apply F. }
  intros l s1 [Hl Hm1]. apply (works_got_as _ _ _ _ (λ xs _, ∀ x, x ∈ xs → manageable x)).
  { sees_do. intros b s' Hb. pose proof (obliged _ _ _ _ Hb) as Ho. cbn in Ho. apply is_Ok_inv in Ho as [xs ->]. exists xs. split; [done|].
    intros x Hx. apply Hm1. by eapply addr_list. }
  intros xs s2 Hxs. apply (works_got _ _ _ (λ _ _, True)); [|intros; apply addMissing_works].
  eapply sees_mono; [apply (dropStale_works l xs (wantedOf gateways)); [done|apply wantedOf_dom]|]. intros r ? ? [w ->]%is_Ok_inv. eauto.
Qed.
Lemma ensureRule_works want s : sane_rule want → rule_ready want (policy s n) → works (ensureRule h want) s.
Proof using Hob.
  intros Hsane Hr. unfold ensureRule, listKernelPolicyRules. apply (works_got _ _ _ (λ rs _, rule_ready want rs)).
  - apply sees_got_as. sees_do. intros b s' Hb. pose proof (obliged _ _ _ _ Hb) as Ho. cbn in Ho. apply is_Ok_inv in Ho as [ms ->].
    destruct (rule_dump n s ms s' Hb) as (rs & E & Hp). apply sees_ret. exists rs. split; [done|]. by rewrite Hp.
  - intros rs s1 Hrs. assert (∃ b, findRule want rs false = Ok b) as [b ->].
    { destruct Hrs as [E|E]; [by eexists; apply findRule_none|by eexists; apply findRule_has]. }
    cbn [checked]. destruct b; [by apply sees_ret|]. apply (works_got_as _ _ _ _ (λ _ _, True)); [|intros; by apply sees_ret].
    sees_do. intros b s' Hb. pose proof (obliged _ _ _ _ Hb) as Ho. cbn in Ho. apply is_Ok_inv in Ho as [u ->]; [|done]. eauto.
Qed.
Lemma localRule_sane cidr d : ParseCIDR_net cidr = Ok d → sane_rule (localRule d).
Proof.
  unfold ParseCIDR_net. destruct (ParsePrefix cidr) as [p|] eqn:E; [|done]. destruct (p_ip (Masked p)) as [|v|] eqn:Em; try done. intros [= <-].
  assert (Is4 (p_ip p) = true) as H4 by (unfold Masked in Em; destruct p as [[|w|w z] b]; cbn in *; try done; by repeat case_match).
  pose proof (ParsePrefix_valid4 _ _ E H4) as Hp. rewrite Masked4 in Em by done. cbn [p_ip] in Em. injection Em as <-.
  pose proof (base4_range p Hp). pose proof (size4_pos p Hp). destruct Hp as (? & _ & _ & Hb). unfold sane_rule, u32, localRule, localPriority. cbn [r_Priority r_Dst n_IP n_Ones]. lia.
Qed.

(** A call that succeeds and leaves addresses and rules alone. *)
Ltac works_call :=
  sees_do; let b := fresh "b" in let s' := fresh "s" in let Hk := fresh "Hk" in let Ho := fresh "Ho" in intros b s' Hk;
  pose proof (obliged _ _ _ _ Hk) as Ho; cbn in Ho;
  let Hnc := fresh "Hnc" in match type of Hk with _ ?c _ = _ => assert (¬ changes c) as Hnc by by intros [] end;
  pose proof (others_frame _ _ _ _ n Hnc Hk) as ?;
  first [apply is_Ok_inv in Ho as [? ->]; eauto | subst b; eauto].
Lemma works_unless {A} (next : K (result A)) s : (∀ s', unchanged k n s s' → works next s') → works (unless_done next) s.
Proof using Hob Router0.
  intros H. unfold unless_done. apply sees_bind. sees_do. intros e s' Hk. pose proof (obliged _ _ _ _ Hk) as Ho. cbn in Ho. subst e.
  apply H. refine (others_frame _ _ _ _ n _ Hk). by intros [].
Qed.
Lemma mount_works path s : works (requireNamespaceMount path) s.
Proof using Hob Router0.
  unfold requireNamespaceMount. apply (works_got_as _ _ _ _ (λ sym _, sym = false)).
  { sees_do. intros b s' Hk. pose proof (obliged _ _ _ _ Hk) as Ho. cbn in Ho. subst b. eauto. }
  intros ? s1 ->. apply (works_got_as _ _ _ _ (λ type _, type = NSFS_MAGIC)); [|intros ? s2 ->; by apply sees_ret].
  sees_do. intros b s' Hk. pose proof (obliged _ _ _ _ Hk) as Ho. cbn in Ho. subst b. eauto.
Qed.
Lemma links_works s : works (ensureRouterLinks h) s.
Proof using Hob Router0.
  unfold ensureRouterLinks. apply (works_got_as _ _ _ _ (λ _ _, True)).
  { sees_do. intros b s' Hk. pose proof (obliged _ _ _ _ Hk) as Ho. cbn in Ho. destruct Ho as (l & -> & _). eauto. }
  intros lo s1 _. apply (works_got_as _ _ _ _ (λ _ s', unchanged k n s1 s')); [works_call|]. intros _ s2 _.
  apply sees_bind. sees_do. intros b s' Hk. pose proof (obliged _ _ _ _ Hk) as Ho. cbn in Ho. destruct Ho as (l & -> & Hd).
  unfold routerLink, upRouter. rewrite Hd by done. apply (works_got_as _ _ _ _ (λ _ s'', unchanged k n s' s'')); [works_call|].
  intros. by apply sees_ret.
Qed.
Lemma sysctl_works key value s : ("/proc/sys/" +:+ key, value) ∈ sysctls → works (setNamespaceSysctl h key value) s.
Proof using Hob Router0.
  intros Hin. unfold setNamespaceSysctl.
  assert ((HasPrefix key "net/ipv4/conf/all/" || Client.strings_Contains key "..") = false ∧
    ((key ==? "net/ipv4/ip_forward") || (key ==? "net/ipv4/conf/default/send_redirects") || (key ==? "net/ipv4/conf/nxr0/send_redirects")) = true) as [-> ->].
  { unfold sysctls in Hin. rewrite !elem_of_cons in Hin. destruct Hin as [H|[H|[H|H]]]; [..|by apply not_elem_of_nil in H];
      injection H as H _; subst key; split; vm_compute; reflexivity. }
  cbn [negb]. apply (works_got_as _ _ _ _ (λ _ s', unchanged k n s s')); [works_call|]. intros. by apply sees_ret.
Qed.
Lemma ensure_works index s : Name index = Ok n → works (Kernel.Ensure n) s.
Proof using Hob Router0.
  intros Hn. unfold Kernel.Ensure, checked. rewrite (proj2 (validateName_iff n)) by eauto.
  apply works_unless. intros s1 _. apply (works_got_as _ _ _ _ (λ _ s', unchanged k n s1 s')); [works_call|]. intros _ s2 _.
  apply sees_bind. sees_do. intros b s' Hk. pose proof (obliged _ _ _ _ Hk) as Ho. cbn in Ho. subst b. apply mount_works.
Qed.
Lemma within_works index fn s :
  Name index = Ok n → (∀ s', unchanged k n s s' → works (fn h) s') → works (WithHandle n fn) s.
Proof using Hob Router0.
  intros Hn Hf. unfold WithHandle, Do, checked. rewrite (proj2 (validateName_iff n)) by eauto.
  apply works_unless. intros s1 U1. apply (works_got _ _ _ (λ _ s', unchanged k n s s')).
  { apply works_Ok; [apply mount_works|]. eapply sees_mono; [apply mount_still|]. intros ? s' ? [U _]. by eapply unchanged_trans. }
  intros _ s2 U2. apply (works_got_as _ _ _ _ (λ _ s', unchanged k n s2 s')); [works_call|]. intros _ s3 U3. apply (unchanged_trans _ _ _ U2) in U3.
  apply works_unless. intros s4 U4. apply (unchanged_trans _ _ _ U3) in U4.
  apply (works_got_as _ _ _ _ (λ _ s', unchanged k n s4 s')); [works_call|]. intros _ s5 U5. apply (unchanged_trans _ _ _ U4) in U5.
  apply (works_got_as _ _ _ _ (λ _ s', unchanged k n s5 s')); [works_call|]. intros _ s6 U6. apply (unchanged_trans _ _ _ U5) in U6.
  apply (works_got_as _ _ _ _ (λ _ s', unchanged k n s6 s')); [works_call|]. intros _ s7 U7. apply (unchanged_trans _ _ _ U6) in U7.
  by apply Hf.
Qed.
Lemma manageable_unchanged cidr s s' : unchanged k n s s' → manageable_router cidr s → manageable_router cidr s'.
Proof. intros [H1 H2] (M1 & M2 & d & M3 & M4). split; [intros x Hx; by apply M1, H1|]. rewrite H2. eauto. Qed.
Lemma convergeVPC_works vpc s :
  Forall addr4 gateways → manageable_router (VPC_CIDRBlock vpc) s → works (convergeVPC vpc gateways h) s.
Proof using Hob Router0.
  intros H4 Hm. unfold convergeVPC. set (M := manageable_router (VPC_CIDRBlock vpc)).
  assert (∀ (p : K (result unit)) s, works p s → sees k p s (λ _ s' t, unchanged k n s s' ∧ still t) →
    manageable_router (VPC_CIDRBlock vpc) s → sees k p s (λ r s' _, ∃ a, r = Ok a ∧ M s')) as Hkeep.
  { intros p s' Hw Hs Hm'. apply (works_Ok p s' M); [done|]. eapply sees_mono; [exact Hs|]. intros ? s'' ? [U _]. by eapply manageable_unchanged. }
  apply works_unless. intros s1 U1. apply (manageable_unchanged _ _ _ U1) in Hm. clear s U1.
  apply (works_got_as _ _ _ _ (λ _, M)); [apply Hkeep; [apply links_works|apply links_still|done]|]. intros _ s2 M2.
  apply (works_got _ _ _ (λ _, M)); [apply Hkeep; [apply sysctl_works; unfold sysctls; set_solver|apply sysctl_still|done]|]. intros _ s3 M3.
  apply (works_got _ _ _ (λ _, M)); [apply Hkeep; [apply sysctl_works; unfold sysctls; set_solver|apply sysctl_still|done]|]. intros _ s4 M4.
  apply (works_got _ _ _ (λ _, M)); [apply Hkeep; [apply sysctl_works; unfold sysctls; set_solver|apply sysctl_still|done]|]. intros _ s5 M5.
  apply (works_got_as _ _ _ _ (λ _ s', policy s' n = policy s5 n)).
  { apply works_Ok; [by apply reconcile_works, M5|]. eapply sees_mono; [by apply reconcileGateways_sees|]. by intros ? ? ? [? _]. }
  intros _ s6 P6. destruct M5 as (_ & Hd & d & Ed & Hld). rewrite <- P6 in Hd, Hld.
  apply (works_got_as _ _ _ _ (λ _ _, True)); [|intros; apply works_unless; intros; by apply sees_ret].
  apply (works_Ok _ _ (λ _, True)); [|done]. unfold ensurePolicyRules. rewrite Ed. cbn [wrap_err checked].
  apply (works_got_as _ _ _ _ (λ _ s', rule_ready dropRule (policy s' n))).
  { apply works_Ok; [apply ensureRule_works; [by eapply localRule_sane|done]|]. eapply sees_mono; [apply ensureRule_sees|]. cbv beta. intros ? ? ? (_ & _ & _ & H). by apply H. }
  intros _ s7 H7. apply (works_got_as _ _ _ _ (λ _ _, True)); [|intros; by apply sees_ret].
  apply (works_Ok _ _ (λ _, True)); [by apply ensureRule_works|done].
Qed.
Lemma EnsureVPC_works vpc subnets s :
  Name (VPC_ShortIndex vpc) = Ok n → desiredGateways vpc subnets = Ok gateways → Forall addr4 gateways →
  manageable_router (VPC_CIDRBlock vpc) s → works (EnsureVPC vpc subnets) s.
Proof using Hob Router0.
  intros Hn Hg H4 Hm. unfold EnsureVPC, checked. rewrite Hn, Hg.
  apply (works_got_as _ _ _ _ (λ _ s', unchanged k n s s')).
  { apply works_Ok; [by eapply ensure_works|]. eapply sees_mono; [apply ensure_still|]. by intros ? ? ? [? _]. }
  intros _ s1 U1. eapply within_works; [done|]. intros s2 U2. apply convergeVPC_works; [done|].
  eapply manageable_unchanged; [|done]. by eapply unchanged_trans.
Qed.
End obliged.
End converge.

(** ** Gateways of a VPC *)
Definition gatewayOf (s : Subnet) : Addr := Next (p_ip (Subnet_CIDRBlock s)).
Lemma gatewaysOf_app vpc subnets seen gs gs' : gatewaysOf vpc subnets seen gs = Ok gs' → gs' = gs ++ (gatewayOf <$> subnets).
Proof.
  revert seen gs. induction subnets as [|x subnets IH]; intros seen gs; cbn [gatewaysOf]; [intros [= <-]; by rewrite app_nil_r|].
  case_match; [done|]. case_match; [done|]. intros ->%IH. by rewrite <- app_assoc.
Qed.
Lemma gatewaysOf_small vpc subnets seen gs gs' x :
  gatewaysOf vpc subnets seen gs = Ok gs' → x ∈ subnets → p_bits (Subnet_CIDRBlock x) ≤ 28 ∧ bad_prefix (Subnet_CIDRBlock x) = false.
Proof.
  revert seen gs. induction subnets as [|y subnets IH]; intros seen gs; cbn [gatewaysOf]; [by intros _ H%not_elem_of_nil|].
  destruct (_ || _) eqn:E; [done|]. case_match; [done|]. intros Hg [->|Hx]%elem_of_cons; [|by eapply IH].
  apply orb_false_iff in E as [[[E Hb]%orb_false_iff H28]%orb_false_iff Hc]. all: rewrite ?orb_false_iff in *. naive_solver lia.
Qed.
Lemma desired_gateways vpc subnets gs : desiredGateways vpc subnets = Ok gs → gs ≡ₚ gatewayOf <$> subnets.
Proof.
  unfold desiredGateways. case_match; [done|]. destruct (gatewaysOf vpc subnets [] []) as [gs'|] eqn:E; [|done]. cbn [mbind result_bind].
  intros [= <-]. apply gatewaysOf_app in E as ->. apply merge_sort_Permutation.
Qed.
Lemma gateway_addr4 vpc subnets seen gs gs' x :
  gatewaysOf vpc subnets seen gs = Ok gs' → x ∈ subnets → valid4 (Subnet_CIDRBlock x) → addr4 (gatewayOf x).
Proof.
  intros H Hx Hv. destruct (gatewaysOf_small _ _ _ _ _ _ H Hx) as [H28 Hb]. pose proof (base4_range _ Hv) as Hr. unfold bad_prefix in Hb.
  rewrite !orb_false_iff, !negb_false_iff, bool_decide_eq_true in Hb. destruct Hb as [_ Hm]. pose proof (Masked4 _ Hv) as Hm'. rewrite Hm in Hm'.
  assert (p_ip (Subnet_CIDRBlock x) = Addr4 (base4 (Subnet_CIDRBlock x))) as Hip by (by rewrite Hm' at 1).
  assert (16 ≤ size4 (Subnet_CIDRBlock x)) by (unfold size4; change 16 with (2 ^ 4); apply Z.pow_le_mono_r; lia).
  unfold gatewayOf. rewrite Hip. cbn [Next]. rewrite (proj2 (Z.eqb_neq _ _)) by lia. eexists. split; [done|lia].
Qed.
Lemma desired_addr4 vpc subnets gs :
  desiredGateways vpc subnets = Ok gs → Forall (λ x, valid4 (Subnet_CIDRBlock x)) subnets → Forall addr4 gs.
Proof.
  intros H Hv. rewrite (desired_gateways _ _ _ H), Forall_fmap. rewrite Forall_forall in Hv |- *. intros x Hx. unfold desiredGateways in H.
  case_match; [done|]. destruct (gatewaysOf vpc subnets [] []) as [gs'|] eqn:E; [|done]. eapply gateway_addr4; [done..|by apply Hv].
Qed.

(** ** Convergence *)

(** C21: with a kernel that does what it says, a run of [EnsureVPC] that succeeds leaves
    on the router exactly the first address of every subnet, with the engine's label
    and as /32, and exactly one local and one blackhole rule at their priorities; a
    second run then neither adds nor removes anything; and a run succeeds whenever the
    kernel refuses nothing and no unmanaged address or rule is in the way. *)
Theorem vpc_converges {S : Type} (k : handler kcall S) `{!Router k} vpc subnets n gateways s :
  Name (VPC_ShortIndex vpc) = Ok n → desiredGateways vpc subnets = Ok gateways →
  Forall (λ x, valid4 (Subnet_CIDRBlock x)) subnets →
  let after := run k (EnsureVPC vpc subnets) s in
  (gateways ≡ₚ gatewayOf <$> subnets) ∧
  (after.1 = Ok tt →
     converged k n gateways (VPC_CIDRBlock vpc) after.2 ∧ still (trace k (EnsureVPC vpc subnets) after.2)) ∧
  (obliging k → manageable_router k n gateways (VPC_CIDRBlock vpc) s → after.1 = Ok tt).
Proof.
  intros Hn Hg Hv. pose proof (desired_addr4 _ _ _ Hg Hv) as H4. split_and!; [by eapply desired_gateways|..].
  - intros Hok. pose proof (EnsureVPC_sees k n gateways vpc subnets s Hn Hg H4 Hok) as Hc. split; [done|].
    by apply (EnsureVPC_stays k n gateways vpc subnets _ Hn Hg Hc).
  - intros Hob Hm. pose proof (EnsureVPC_works k n gateways Hob vpc subnets s Hn Hg H4 Hm) as Hw. unfold works, sees in Hw.
    by destruct (run k (EnsureVPC vpc subnets) s).1 as [[]|e].
Qed.

(** ** A kernel

    One that keeps, for each namespace, the addresses of the router link and the rules,
    and refuses nothing but a rule it has no room for. *)
#[export] Instance kaddr_EqDecision : EqDecision kaddr.
Proof. solve_decision. Defined.
Definition kstate : Type := string → list kaddr * list rule.
Definition encode_rule (r : rule) : rawRule :=
  MkRawRule 12 (r_Table r) (r_Type r) (match r_Dst r with Some d => default 0 (n_Ones d) | None => 0 end)
    (Ok ((FRA_PRIORITY, reverse (octets (r_Priority r))) :: match r_Dst r with Some d => [(FRA_DST, octets (n_IP d))] | None => [] end)).
Definition kset (s : kstate) (n : string) (v : list kaddr * list rule) : kstate := λ m, if decide (m = n) then v else s m.
Definition toy (c : kcall) (s : kstate) : reply c * kstate :=
  match c return reply c * kstate with
  | CtxErr => (None, s)
  | Lstat _ => (Ok false, s)
  | Statfs _ | Fstatfs => (Ok NSFS_MAGIC, s)
  | ReadDir _ => (Ok [], s)
  | LinkByName _ m => (Ok (MkLink m "dummy" "" 1 0 0), s)
  | LinkList _ => (Ok [], s)
  | AddrList (InVPC n) l => (Ok (s n).1, s)
  | AddrList InInstance l => (Ok [], s)
  | AddrAdd (InVPC n) l a => (Ok tt, kset s n ((s n).1 ++ [a], (s n).2))
  | AddrDel (InVPC n) l a => (Ok tt, kset s n (List.filter (λ x, bool_decide (x ≠ a)) (s n).1, (s n).2))
  | RuleDump (InVPC n) => (Ok (encode_rule <$> List.filter (λ r, bool_decide (sane_rule r)) (s n).2), s)
  | RuleDump InInstance => (Ok [], s)
  | RuleAdd (InVPC n) r =>
      if decide (sane_rule r) then (Ok tt, kset s n ((s n).1, (s n).2 ++ [r])) else (Err os_ErrNotExist, s)
  | RuleAdd InInstance r => (Ok tt, s)
  | GetNetNsIdByFd _ _ | DupFd => (Ok 0, s)
  | Nft _ _ _ => (("", None), s)
  | ReadAt _ => (Ok "", s)
  | Fstat _ | StatSelf _ | FstatOwner => (Ok (MkStat 0 0), s)
  | _ => (Ok tt, s)
  end.

Definition sane_rules (rs : list rule) : list rule := List.filter (λ r, bool_decide (sane_rule r)) rs.
Lemma attr_priority len r p :
  u32 p → policyAttr len r (FRA_PRIORITY, reverse (octets p)) = Ok (MkPolicyRule p (pr_table r) (pr_action r) (pr_dst r) (pr_extra r)).
Proof.
  intros Hp. unfold policyAttr. rewrite length_reverse. cbn [octets length Nat.eqb FRA_PRIORITY Z.eqb Pos.eqb require mbind result_bind].
  unfold native_uint32. by rewrite reverse_involutive, bytes_value_octets.
Qed.
Lemma attr_dst len r v :
  u32 v → 0 ≤ len ≤ 32 → policyAttr len r (FRA_DST, octets v) = Ok (MkPolicyRule (pr_priority r) (pr_table r) (pr_action r) (Some (MkIPNet v (Some len))) (pr_extra r)).
Proof.
  intros Hv Hl. change (policyAttr len r (FRA_DST, octets v)) with
    (Ok (MkPolicyRule (pr_priority r) (pr_table r) (pr_action r) (Some (MkIPNet (bytes_value (octets v)) (CIDRMask len))) (pr_extra r))).
  rewrite bytes_value_octets by done. unfold CIDRMask. rewrite (proj2 (Z.leb_le _ _)), (proj2 (Z.leb_le _ _)) by lia. done.
Qed.
Lemma encoded_attrs r :
  sane_rule r → ∃ attrs, w_Attrs (encode_rule r) = Ok attrs ∧
    policyAttrs (w_DstLen (encode_rule r)) attrs (MkPolicyRule 0 (r_Table r) (r_Type r) None []) = Ok (reported_rule r).
Proof.
  intros [Hp Hd]. eexists. split; [done|]. destruct r as [prio [[v [o|]]|] table type]; cbn [r_Dst n_Ones n_IP r_Priority] in *; [destruct Hd as [Hv Ho]|by destruct Hd|];
    cbn [policyAttrs]; rewrite attr_priority by done; cbn [mbind result_bind]; [|done]. rewrite attr_dst by done. done.
Qed.
Lemma encoded_rules rs : Forall sane_rule rs → policyRules (encode_rule <$> rs) = Ok (reported_rule <$> rs).
Proof.
  induction 1 as [|r rs Hr _ IH]; [done|]. rewrite !fmap_cons. cbn [policyRules]. rewrite IH. destruct (encoded_attrs r Hr) as (attrs & E & Ha).
  rewrite E. change (w_Len (encode_rule r)) with 12. change (w_Table (encode_rule r)) with (r_Table r). change (w_Type (encode_rule r)) with (r_Type r).
  cbn [Z.ltb Z.compare Pos.compare Pos.compare_cont negb require mbind result_bind wrap_err] in Ha |- *. rewrite Ha. done.
Qed.
Lemma sane_rules_sane rs : Forall sane_rule (sane_rules rs).
Proof. apply Forall_forall. intros r. unfold sane_rules. rewrite list_elem_of_In, filter_In. by intros [_ ?%bool_decide_eq_true]. Qed.
#[export] Instance toy_Router : Router toy.
Proof.
  refine {| addr_at s n x := x ∈ (s n).1; policy s n := reported_rule <$> sane_rules (s n).2 |}.
  - intros n m s l s' [= <- _]. done.
  - intros n l s xs s' _ [= <- _]. done.
  - intros n l a s r s' _ [= <- <-]. unfold kset. rewrite decide_True by done. split; [done|]. intros x. cbn [fst]. rewrite elem_of_app, list_elem_of_singleton.
    naive_solver.
  - intros n l a s r s' _ [= <- <-]. unfold kset. rewrite decide_True by done. split; [done|]. intros x. cbn [fst].
    rewrite !list_elem_of_In, filter_In, bool_decide_eq_true. naive_solver.
  - intros n s ms s' [= <- _]. exists (reported_rule <$> sane_rules (s n).2). split; [|done]. apply encoded_rules, sane_rules_sane.
  - intros n r s b s'. cbn [toy]. destruct (decide (sane_rule r)) as [Hr|]; intros [= <- <-]; unfold kset; rewrite ?decide_True by done; cbn [is_Ok fst snd].
    + split; [done|]. unfold sane_rules. rewrite List.filter_app, fmap_app. cbn [List.filter]. by rewrite bool_decide_eq_true_2.
    + by rewrite app_nil_r.
  - intros c s b s' n Hc. destruct c; try (by destruct Hc); cbn [toy]; repeat case_match; intros [= <- <-]; done.
Defined.
Lemma toy_obliging : obliging toy.
Proof.
  intros c s. destruct c; cbn [toy obliges]; repeat case_match; cbn [fst snd]; try done. eauto.
Qed.

(** A VPC of one subnet, whose router still has the gateway of another one. *)
Definition toy_vpc : VPC := MkVPC "vpc-1" "ws" "main" (MkPrefix (Addr4 0x0a000000) 16) 7 StatePending "" false 1 0.
Definition toy_subnet : Subnet := MkSubnet "subnet-1" "ws" "vpc-1" "front" (MkPrefix (Addr4 0x0a000100) 24) "az-1" 1 StatePending "" false 1 0.
Definition toy_state : kstate := λ _, ([gatewayAddr (Addr4 0x0a000201)], []).
Lemma vpc_converges_witness :
  let ensure := EnsureVPC toy_vpc [toy_subnet] in let after := run toy ensure toy_state in
  after.1 = Ok tt ∧ converged toy "nx-vpc-7" [Addr4 0x0a000101] (VPC_CIDRBlock toy_vpc) after.2 ∧ still (trace toy ensure after.2).
Proof.
  cbv zeta. assert (Name (VPC_ShortIndex toy_vpc) = Ok "nx-vpc-7") as Hn by (vm_compute; reflexivity).
  assert (desiredGateways toy_vpc [toy_subnet] = Ok [Addr4 0x0a000101]) as Hg by (vm_compute; reflexivity).
  destruct (vpc_converges toy toy_vpc [toy_subnet] "nx-vpc-7" [Addr4 0x0a000101] toy_state Hn Hg) as (_ & H1 & H2).
  { constructor; [|constructor]. exists 0x0a000100. split; [done|]. cbn. lia. }
  assert (manageable_router toy "nx-vpc-7" [Addr4 0x0a000101] (VPC_CIDRBlock toy_vpc) toy_state) as Hm.
  { split; [|split; [by left|]].
    - intros x [->|[]%not_elem_of_nil]%elem_of_cons. right. eexists. split; [vm_compute; reflexivity|]. split; [done|]. by intros.
    - eexists. split; [vm_compute; reflexivity|]. by left. }
  specialize (H2 toy_obliging Hm). split; [done|]. by apply H1.
Defined.
