(* ===== verification/Credentials.v ===== *)
(** The API credential: [internal/credentials/token.go], which the daemon creates
    once in its volume, and [internal/appliance/credential.go], which copies it to
    the host, where [loadCredential] (Requests.v) reads it.

    A file system maps paths to files, directories and symbolic links.  Every
    system call may fail ([fault]), a failed write may have written some bytes
    ([partial]), and other processes may act before it ([others]).  Permissions
    are Go's permission bits; the umask is assumed to leave the owner's bits. *)

From S2P Require Import Prelude Errors GoStrings Encodings NetIP Url Validate Model Json Snapshot.
From S2P Require Import Schema Tx Store Idempotency NetworkService InstanceService Api Client Requests.
Local Open Scope Z_scope.

Inductive node :=
  | NFile (perm : Z) (data : string)
  | NDir (perm : Z)
  | NLink (to_dir : bool).
Abbreviation FS := (gmap string node).

Record World := MkWorld { w_fs : FS; w_time : nat }.
Definition IO (A : Type) : Type := World → A * World.
#[export] Instance IO_ret : MRet IO := λ A a w, (a, w).
#[export] Instance IO_bind : MBind IO := λ A B f m w, let '(a, w') := m w in f a w'.

Definition ErrNotExist : error := ErrIO "file does not exist".
Definition ErrExist : error := ErrIO "file already exists".

Section system.
Context (fault : nat → option error) (partial : nat → nat) (others : nat → FS → FS).

(** A system call that does nothing when it fails. *)
Definition sys {A} (op : FS → result A * FS) : IO (result A) := λ w,
  let n := w_time w in
  let fs := others n (w_fs w) in
  match fault n with
  | Some e => (Err e, MkWorld fs (S n))
  | None => let '(a, fs') := op fs in (a, MkWorld fs' (S n))
  end.

Definition os_Lstat (path : string) : IO (result node) :=
  sys (λ fs, (match fs !! path with Some x => Ok x | None => Err ErrNotExist end, fs)).
Definition os_ReadFile (path : string) : IO (result string) :=
  sys (λ fs, (match fs !! path with
              | Some (NFile _ data) => Ok data
              | Some _ => Err (ErrIO "is not a regular file")
              | None => Err ErrNotExist
              end, fs)).
Definition os_MkdirAll (path : string) (perm : Z) : IO (result unit) :=
  sys (λ fs, match fs !! path with
             | None => (Ok tt, <[path := NDir perm]> fs)
             | Some (NDir _) | Some (NLink true) => (Ok tt, fs)
             | Some _ => (Err (ErrIO "not a directory"), fs)
             end).
(** [os.OpenFile] with [O_CREATE|O_EXCL], and [os.CreateTemp]. *)
Definition os_CreateExcl (path : string) (perm : Z) : IO (result unit) :=
  sys (λ fs, match fs !! path with
             | Some _ => (Err ErrExist, fs)
             | None => (Ok tt, <[path := NFile perm ""]> fs)
             end).
Definition set_data (path data : string) (fs : FS) : FS :=
  match fs !! path with Some (NFile perm _) => <[path := NFile perm data]> fs | _ => fs end.
(** The first write to an open file. *)
Definition os_Write (path data : string) : IO (result unit) := λ w,
  let n := w_time w in
  let fs := others n (w_fs w) in
  match fault n with
  | Some e => (Err e, MkWorld (set_data path (of_bytes (take (partial n) (bytes data))) fs) (S n))
  | None => (Ok tt, MkWorld (set_data path data fs) (S n))
  end.
Definition os_Chmod (path : string) (perm : Z) : IO (result unit) :=
  sys (λ fs, (Ok tt, match fs !! path with Some (NFile _ data) => <[path := NFile perm data]> fs | _ => fs end)).
(** Sync, Close, a look at the context or at the random source: no effect on
    files. *)
Definition os_Quiet {A} (a : result A) : IO (result A) := sys (λ fs, (a, fs)).
Definition os_Remove (path : string) : IO (result unit) :=
  sys (λ fs, match fs !! path with
             | None => (Err ErrNotExist, fs)
             | Some _ => (Ok tt, delete path fs)
             end).
(** [os.Rename] replaces a file. *)
Definition os_Rename (old new : string) : IO (result unit) :=
  sys (λ fs, match fs !! old, fs !! new with
             | None, _ => (Err ErrNotExist, fs)
             | Some _, Some (NDir _) => (Err (ErrIO "file exists"), fs)
             | Some x, _ => (Ok tt, <[new := x]> (delete old fs))
             end).

Definition try_io {A B} (t : text) (m : IO (result A)) (f : A → IO (result B)) : IO (result B) :=
  r ← m; match r with Ok a => f a | Err e => mret (Err (Wrapf t e)) end.

(** The same, with the file closed on the way out. *)
Definition try_close {A B} (t : text) (m : IO (result A)) (f : A → IO (result B)) : IO (result B) :=
  r ← m; match r with Ok a => f a | Err e => os_Quiet (Ok tt) ;; mret (Err (Wrapf t e)) end.

(** ** [internal/credentials] *)
Definition tokenBytes : nat := 32.

Definition load (path : string) : IO (result string) :=
  try_io (lit "checking API token: %w") (os_Lstat path) (λ info,
  match info with
  | NFile perm _ =>
      if negb (perm =? 384) then mret (Err (Errorf (lit "API token file must be regular with mode 0600")))
      else
        try_io (lit "reading API token: %w") (os_ReadFile path) (λ data,
        match b64_DecodeString data with
        | Some raw =>
            if (length raw =? tokenBytes)%nat then mret (Ok data)
            else mret (Err (Errorf (lit "API token file is malformed")))
        | None => mret (Err (Errorf (lit "API token file is malformed")))
        end)
  | _ => mret (Err (Errorf (lit "API token file must be regular with mode 0600")))
  end).

(** [random] is what the random source gives. *)
Definition create (Dir : string → string) (random : result (list Z)) (path : string) : IO (result string) :=
  try_io (lit "creating API secret directory: %w") (os_MkdirAll (Dir path) 448) (λ _,
  try_io (lit "generating API token: %w") (os_Quiet random) (λ raw,
  let token := b64_EncodeToString raw in
  r ← os_CreateExcl path 384;
  match r with
  | Err e => if errors_Is e ErrExist then load path else mret (Err (Wrapf (lit "creating API token: %w") e))
  | Ok _ =>
      try_close (lit "writing API token: %w") (os_Write path token) (λ _,
      try_io (lit "closing API token: %w") (os_Quiet (Ok tt)) (λ _, mret (Ok token)))
  end)).
Definition LoadOrCreate (Dir : string → string) (random : result (list Z)) (path : string) : IO (result string) :=
  r ← load path;
  match r with
  | Ok token => mret (Ok token)
  | Err e => if negb (errors_Is e ErrNotExist) then mret (Err e) else create Dir random path
  end.

(** ** [internal/appliance/credential.go] *)
Definition maxTokenBytes : Z := 128.

(** What the TAR reader finds in the archive: entries, then an error or the
    end ([None]). *)
Record tar_entry := MkEntry { te_Name : string; te_Regular : bool; te_Size : Z; te_Data : result string }.
Record archive := MkArchive { ar_entries : list tar_entry; ar_end : option error }.

Definition extractToken (a : archive) : result string :=
  match ar_entries a with
  | [] => Err (Wrapf (lit "read credential archive: %w") (default (ErrIO "EOF") (ar_end a)))
  | h :: rest =>
      if (te_Name h !=? "api-token") || negb (te_Regular h) || (te_Size h <? 1) || (maxTokenBytes <? te_Size h)
      then Err (Errorf (lit "credential archive has an unexpected entry"))
      else
        data ← wrap_err (lit "read credential token: %w") (te_Data h);
        let token := of_bytes (take (Z.to_nat (maxTokenBytes + 1)) (bytes data)) in
        if negb (slen token =? te_Size h) then Err (Errorf (lit "credential archive token size mismatch"))
        else
          match b64_DecodeString token with
          | Some raw =>
              if negb (length raw =? 32)%nat || (b64_EncodeToString raw !=? token)
              then Err (Errorf (lit "credential archive token is malformed"))
              else
                match rest, ar_end a with
                | [], None => Ok token
                | _, _ => Err (Errorf (lit "credential archive must contain exactly one regular token file"))
                end
          | None => Err (Errorf (lit "credential archive token is malformed"))
          end
  end.

(** Run [m], then remove the temporary file ([defer]). *)
Definition deferring (temp : string) {A} (m : IO A) : IO A := a ← m; os_Remove temp ;; mret a.

(** [ctx] is the error of the context at a time; [temp] the name that
    [os.CreateTemp] picks. *)
Definition ctx_Err (ctx : nat → option error) : IO (option error) := λ w, (ctx (w_time w), w).
Definition replace_with (ctx : nat → option error) (temp path token : string) : IO (result unit) :=
  try_close (lit "restrict credential permissions: %w") (os_Chmod temp 384) (λ _,
  try_close (lit "write credential: %w") (os_Write temp token) (λ _,
  try_close (lit "sync credential: %w") (os_Quiet (Ok tt)) (λ _,
  try_io (lit "close credential: %w") (os_Quiet (Ok tt)) (λ _,
  done ← ctx_Err ctx;
  match done with
  | Some e => mret (Err e)
  | None => try_io (lit "replace credential: %w") (os_Rename temp path) (λ _, mret (Ok tt))
  end)))).
(** The directory's permission check. *)
Definition private_dir (info : node) : bool :=
  match info with NDir perm => Z.land perm 63 =? 0 | _ => false end.
Definition Save (Dir : string → string) (ctx : nat → option error) (temp path : string) (a : archive) : IO (result unit) :=
  if path ==? "" then mret (Err (Errorf (lit "credential path is empty")))
  else
    match extractToken a with
    | Err e => mret (Err e)
    | Ok token =>
        done ← ctx_Err ctx;
        match done with
        | Some e => mret (Err e)
        | None =>
            try_io (lit "create credential directory: %w") (os_MkdirAll (Dir path) 448) (λ _,
             try_io (lit "check credential directory: %w") (os_Lstat (Dir path)) (λ info,
             if private_dir info then
               try_io (lit "create temporary credential: %w") (os_CreateExcl temp 384) (λ _,
               deferring temp (replace_with ctx temp path token))
             else mret (Err (Errorf (lit "credential directory must be private and not a symlink")))))
        end
    end.
End system.

(** ** Files that nobody else touches *)

(** What the command line finds on the host. *)
Definition host_file (fs : FS) (path : string) : result file :=
  match fs !! path with
  | Some (NFile perm data) => Ok (MkFile true perm (slen data) (Ok data))
  | Some _ => Ok (MkFile false 511 0 (Err (ErrIO "is a directory")))
  | None => Err ErrNotExist
  end.

Section proofs.
Context (fault : nat → option error) (partial : nat → nat) (others : nat → FS → FS).
Context (Hquiet : ∀ n fs, others n fs = fs).

Definition io_spec {A} (P : FS → Prop) (m : IO A) (Q : A → FS → Prop) : Prop :=
  ∀ w, P (w_fs w) → Q (fst (m w)) (w_fs (snd (m w))).

Lemma io_ret {A} (P : FS → Prop) (Q : A → FS → Prop) a : (∀ fs, P fs → Q a fs) → io_spec P (mret a) Q.
Proof. intros H w Hw. by apply H. Qed.
Lemma io_bind {A B} P R Q (m : IO A) (f : A → IO B) :
  io_spec P m R → (∀ a, io_spec (R a) (f a) Q) → io_spec P (m ≫= f) Q.
Proof.
  intros Hm Hf w Hw. unfold mbind, IO_bind. specialize (Hm w Hw). destruct (m w) as [a w']. by apply Hf.
Qed.
Lemma io_pre {A} (P P' : FS → Prop) (m : IO A) Q : (∀ fs, P fs → P' fs) → io_spec P' m Q → io_spec P m Q.
Proof. intros HP H w Hw. by apply H, HP. Qed.
Lemma io_pure {A} (φ : Prop) P (m : IO A) Q : (φ → io_spec P m Q) → io_spec (λ fs, φ ∧ P fs) m Q.
Proof. intros H w [Hφ Hw]. by apply H. Qed.
Lemma io_ctx ctx P : io_spec P (ctx_Err ctx) (λ _, P).
Proof. by intros w Hw. Qed.
Lemma io_sys {A} (P : FS → Prop) (op : FS → result A * FS) (Q : result A → FS → Prop) :
  (∀ fs, P fs → (∀ e, Q (Err e) fs) ∧ Q (fst (op fs)) (snd (op fs))) → io_spec P (sys fault others op) Q.
Proof using Hquiet.
  intros H w Hw. unfold sys. rewrite Hquiet. destruct (H _ Hw) as [H1 H2]. destruct (fault (w_time w)); [apply H1|].
  by destruct (op (w_fs w)).
Qed.
Lemma io_write (P : FS → Prop) path data (Q : result unit → FS → Prop) :
  (∀ fs, P fs → (∀ e d, Q (Err e) (set_data path d fs)) ∧ Q (Ok tt) (set_data path data fs)) →
  io_spec P (os_Write fault partial others path data) Q.
Proof using Hquiet.
  intros H w Hw. unfold os_Write. rewrite Hquiet. destruct (H _ Hw) as [H1 H2]. destruct (fault (w_time w)); [apply H1|exact H2].
Qed.
Lemma io_try {A B} P R (Q : result B → FS → Prop) t (m : IO (result A)) f :
  io_spec P m (λ r fs, match r with Ok a => R a fs | Err e => Q (Err (Wrapf t e)) fs end) →
  (∀ a, io_spec (R a) (f a) Q) → io_spec P (try_io t m f) Q.
Proof.
  intros Hm Hf. unfold try_io. eapply io_bind; [exact Hm|]. intros [a|e]; [apply Hf|]. by apply io_ret.
Qed.
Lemma io_close {A B} P R (Q : result B → FS → Prop) t (m : IO (result A)) f :
  io_spec P m (λ r fs, match r with Ok a => R a fs | Err e => Q (Err (Wrapf t e)) fs end) →
  (∀ a, io_spec (R a) (f a) Q) → io_spec P (try_close fault others t m f) Q.
Proof using Hquiet.
  intros Hm Hf. unfold try_close. eapply io_bind; [exact Hm|]. intros [a|e]; [apply Hf|].
  eapply (io_bind _ (λ _ fs, Q (Err (Wrapf t e)) fs)); [by apply io_sys|]. intros _. by apply io_ret.
Qed.

(** *** The daemon *)
Definition good_token (t : string) : Prop := ∃ raw, b64_DecodeString t = Some raw ∧ length raw = tokenBytes.
Lemma load_spec fs path :
  io_spec (eq fs) (load fault others path)
    (λ r fs', fs' = fs ∧ match r with Ok t => good_token t ∧ fs !! path = Some (NFile 384 t) | Err e => True end).
Proof using Hquiet.
  unfold load. eapply (io_try _ (λ info fs', fs' = fs ∧ fs !! path = Some info)).
  { apply io_sys. intros ? <-. split; [done|]. by destruct (fs !! path). }
  intros [perm data| |]; [|apply io_ret; by intros ? [-> _]..].
  destruct (Z.eqb_spec perm 384) as [->|]; [|apply io_ret; by intros ? [-> _]]. cbn [negb].
  eapply (io_try _ (λ d fs', fs' = fs ∧ fs !! path = Some (NFile 384 d))).
  { apply io_sys. intros ? [-> E]. split; [done|]. by rewrite E. }
  intros d. destruct (b64_DecodeString d) as [raw|] eqn:Ed; [|apply io_ret; by intros ? [-> _]].
  destruct (length raw =? tokenBytes)%nat eqn:El; apply io_ret; intros ? [-> E]; [|done].
  split; [done|]. split; [|done]. exists raw. split; [done|]. by apply Nat.eqb_eq.
Qed.

Context (Dir : string → string) (path : string) (Hdir : Dir path ≠ path).
Definition at_path (v : option node) (fs : FS) : Prop := fs !! path = v.

Lemma load_at v :
  io_spec (at_path v) (load fault others path)
    (λ r fs', at_path v fs' ∧ match r with Ok t => good_token t ∧ fs' !! path = Some (NFile 384 t) | Err _ => True end).
Proof using Hquiet.
  intros w Hw. destruct (load_spec (w_fs w) path w eq_refl) as [E H]. unfold at_path. rewrite E. done.
Qed.
Lemma mkdir_at v (Q : result unit → FS → Prop) :
  (∀ r fs', at_path v fs' → Q r fs') → io_spec (at_path v) (os_MkdirAll fault others (Dir path) 448) Q.
Proof using Hquiet Hdir.
  intros H. apply io_sys. intros fs Hfs. split; [by auto|]. apply H. unfold at_path.
  destruct (fs !! Dir path) as [[| |[]]|]; cbn; [done..|]. by rewrite lookup_insert_ne.
Qed.
Lemma excl_at v (Q : result unit → FS → Prop) :
  (∀ e fs', at_path v fs' → Q (Err e) fs') → (v = None → ∀ fs', at_path (Some (NFile 384 "")) fs' → Q (Ok tt) fs') →
  io_spec (at_path v) (os_CreateExcl fault others path 384) Q.
Proof using Hquiet.
  intros He Ho. apply io_sys. intros fs Hfs. split; [by auto|]. unfold at_path in *.
  destruct (fs !! path) as [x|] eqn:E; cbn; [apply He; congruence|]. apply Ho; [done|]. by rewrite lookup_insert_eq.
Qed.
Lemma set_data_at perm d d' fs : at_path (Some (NFile perm d)) fs → at_path (Some (NFile perm d')) (set_data path d' fs).
Proof. unfold at_path, set_data. intros ->. by rewrite lookup_insert_eq. Qed.

Definition kept_or_created (v : option node) (r : result string) (fs' : FS) : Prop :=
  (∀ x, v = Some x → fs' !! path = Some x) ∧
  match r with Ok t => good_token t ∧ fs' !! path = Some (NFile 384 t) | Err _ => True end.

Lemma create_at random v :
  (∀ raw, random = Ok raw → length raw = tokenBytes ∧ Forall is_byte raw) →
  io_spec (at_path v) (create fault partial others Dir random path) (kept_or_created v).
Proof using Hquiet Hdir.
  intros Hrandom. unfold create, kept_or_created.
  eapply (io_try _ (λ _, at_path v)); [apply mkdir_at; intros [] fs' H; [done|]; split; [by intros x ->|done]|]. intros _.
  eapply (io_try _ (λ raw fs', random = Ok raw ∧ at_path v fs')).
  { apply io_sys. intros fs Hfs. split; [intros e; split; [by intros x ->|done]|]. cbn.
    destruct random; [done|]. split; [by intros x ->|done]. }
  intros raw. apply io_pure. intros Hr. destruct (Hrandom raw Hr) as [Hlen Hb]. cbv zeta.
  eapply (io_bind _ (λ r fs',
    match r with Err _ => at_path v fs' | Ok _ => v = None ∧ at_path (Some (NFile 384 "")) fs' end)); [by apply excl_at|].
  intros [u|e].
  - apply io_pure. intros ->. eapply (io_close _ (λ _, at_path (Some (NFile 384 (b64_EncodeToString raw))))).
    { apply io_write. intros fs Hfs. split; [done|]. by eapply set_data_at. }
    intros _. eapply (io_try _ (λ _, at_path (Some (NFile 384 (b64_EncodeToString raw))))); [by apply io_sys|].
    intros _. apply io_ret. intros fs Hfs. split; [done|]. split; [|done].
    exists raw. split; [by apply b64_Decode_Encode|done].
  - destruct (errors_Is e ErrExist).
    + intros w Hw. destruct (load_at v w Hw) as [H1 H2]. split; [by intros x <-|done].
    + apply io_ret. intros fs H. split; [by intros x ->|done].
Qed.

Lemma LoadOrCreate_at random v :
  (∀ raw, random = Ok raw → length raw = tokenBytes ∧ Forall is_byte raw) →
  io_spec (at_path v) (LoadOrCreate fault partial others Dir random path) (kept_or_created v).
Proof using Hquiet Hdir.
  intros Hrandom. unfold LoadOrCreate. eapply io_bind; [apply load_at|]. intros [t|e]; cbv beta.
  - apply io_ret. intros fs [H1 H2]. split; [by intros x <-|done].
  - destruct (errors_Is e ErrNotExist); cbn [negb].
    + eapply io_pre; [intros fs [H _]; exact H|]. by apply create_at.
    + apply io_ret. intros fs [H _]. split; [by intros x <-|done].
Qed.

(** *** The host *)
Context (ctx : nat → option error) (temp : string) (Htemp : temp ≠ path).

(** Either the token is at the path, or what was there before. *)
Definition replaced (token : string) (v : option node) (r : result unit) (fs' : FS) : Prop :=
  match r with Ok _ => at_path (Some (NFile 384 token)) fs' | Err _ => at_path v fs' end.
Definition prepared_temp (v : option node) (x : node → Prop) (fs : FS) : Prop :=
  at_path v fs ∧ ∃ n, fs !! temp = Some n ∧ x n.

Lemma sync_at v (Q : result unit → FS → Prop) x :
  (∀ e fs, at_path v fs → Q (Err e) fs) → (∀ fs, prepared_temp v x fs → Q (Ok tt) fs) →
  io_spec (prepared_temp v x) (os_Quiet fault others (Ok tt)) Q.
Proof using Hquiet. intros He Ho. apply io_sys. intros fs Hfs. split; [intros e; by apply He, Hfs|by apply Ho]. Qed.

Lemma replace_at token v :
  io_spec (prepared_temp v (λ n, n = NFile 384 "")) (replace_with fault partial others ctx temp path token) (replaced token v).
Proof using Hquiet Htemp.
  unfold replace_with.
  assert (∀ fs d, prepared_temp v (λ n, ∃ d, n = NFile 384 d) fs → prepared_temp v (λ n, n = NFile 384 d) (set_data temp d fs)) as Hset.
  { intros fs d (Hp & n & Hn & d' & ->). unfold prepared_temp, at_path, set_data. rewrite Hn.
    rewrite lookup_insert_ne, lookup_insert_eq by done. eauto. }
  eapply (io_close _ (λ _, prepared_temp v (λ n, ∃ d, n = NFile 384 d))).
  { apply io_sys. intros fs (Hp & n & Hn & ->). split; [done|]. rewrite Hn. cbn. unfold prepared_temp, at_path.
    rewrite lookup_insert_ne, lookup_insert_eq by done. eauto 6. }
  intros _. eapply (io_close _ (λ _, prepared_temp v (λ n, n = NFile 384 token))).
  { apply io_write. intros fs Hfs. split; [intros e d; by apply (Hset fs d)|by apply Hset]. }
  intros _. eapply (io_close _ (λ _, prepared_temp v (λ n, n = NFile 384 token))); [by apply sync_at|].
  intros _. eapply (io_try _ (λ _, prepared_temp v (λ n, n = NFile 384 token))); [by apply sync_at|].
  intros _. eapply io_bind; [apply io_ctx|]. intros [e|]; [by apply io_ret; intros fs []|].
  eapply (io_try _ (λ _, at_path (Some (NFile 384 token)))); [|intros _; by apply io_ret].
  apply io_sys. intros fs (Hp & n & Hn & ->). split; [done|]. rewrite Hn.
  destruct (fs !! path) as [[| |]|]; cbn; try (unfold at_path; by rewrite lookup_insert_eq). exact Hp.
Qed.

Lemma remove_at v : io_spec (at_path v) (os_Remove fault others temp) (λ _, at_path v).
Proof using Hquiet Htemp.
  apply io_sys. intros fs Hfs. split; [done|]. destruct (fs !! temp); [|done]. unfold at_path. cbn. by rewrite lookup_delete_ne.
Qed.

Lemma Save_at a v :
  io_spec (at_path v) (Save fault partial others Dir ctx temp path a)
    (λ r fs', match r with Ok _ => ∃ token, extractToken a = Ok token ∧ at_path (Some (NFile 384 token)) fs' | Err _ => at_path v fs' end).
Proof using Hquiet Hdir Htemp.
  unfold Save. destruct (path ==? ""); [by apply io_ret|]. destruct (extractToken a) as [token|e]; [|by apply io_ret].
  eapply io_bind; [apply io_ctx|]. intros [e|]; [by apply io_ret|].
  eapply (io_try _ (λ _, at_path v)); [by apply mkdir_at; intros [] |]. intros _.
  eapply (io_try _ (λ _, at_path v)).
  { apply io_sys. intros fs Hfs. split; [done|]. by destruct (fs !! Dir path). }
  intros info. destruct (private_dir info); [|by apply io_ret].
  eapply (io_try _ (λ _, prepared_temp v (λ n, n = NFile 384 ""))).
  { apply io_sys. intros fs Hfs. split; [done|]. destruct (fs !! temp); [done|]. unfold prepared_temp, at_path. cbn.
    rewrite lookup_insert_ne, lookup_insert_eq by done. eauto. }
  intros _. unfold deferring. eapply io_bind; [apply (replace_at token)|]. intros [u|e]; cbv beta; unfold replaced.
  - eapply io_bind; [apply remove_at|]. intros ?. apply io_ret. eauto.
  - eapply io_bind; [apply remove_at|]. intros ?. by apply io_ret.
Qed.
End proofs.

(** ** A good token passes through the archive and to the command line *)
Definition canonical_token (t : string) : Prop :=
  ∃ raw, length raw = tokenBytes ∧ Forall is_byte raw ∧ t = b64_EncodeToString raw.
(** The archive that holds the daemon's file. *)
Definition token_archive (t : string) : archive := MkArchive [MkEntry "api-token" true (slen t) (Ok t)] None.

Lemma b64_sextets_length l :
  length (b64_sextets l) = (4 * (length l / 3) + match length l mod 3 with 0 => 0 | 1 => 2 | _ => 3 end)%nat.
Proof.
  induction l as [|a|a b|a b c l IH] using list_ind3; [done..|]. cbn [b64_sextets length]. rewrite IH.
  replace (S (S (S (length l)))) with (1 * 3 + length l)%nat by lia.
  rewrite Nat.div_add_l, (Nat.add_comm (1 * 3)), Nat.Div0.mod_add by lia. lia.
Qed.
Lemma token_size t : canonical_token t → length (bytes t) = 43%nat.
Proof.
  intros (raw & Hl & Hb & ->). unfold b64_EncodeToString. rewrite bytes_of_bytes.
  - rewrite length_fmap, b64_sextets_length, Hl. done.
  - apply Forall_fmap. eapply Forall_impl; [by apply b64_sextets_range|]. intros v Hv.
    apply b64char_range in Hv. unfold compose, is_byte. lia.
Qed.
Lemma slen_bytes s : slen s = Z.of_nat (length (bytes s)).
Proof. unfold slen. by rewrite length_bytes. Qed.
Lemma extract_canonical t : canonical_token t → extractToken (token_archive t) = Ok t.
Proof.
  intros Ht. pose proof (token_size t Ht) as Hs. destruct Ht as (raw & Hl & Hb & ->).
  unfold extractToken, token_archive. cbn [ar_entries te_Name te_Regular te_Size te_Data ar_end wrap_err mbind result_bind].
  rewrite slen_bytes, Hs. change (maxTokenBytes + 1) with 129. rewrite take_ge by (rewrite Hs; lia).
  rewrite of_bytes_bytes, slen_bytes, Hs. cbn [Z.of_nat].
  rewrite b64_Decode_Encode, Hl by done. unfold tokenBytes. by rewrite !beq_refl.
Qed.
Lemma loadable t fs path raw :
  (slen t <=? 128) = true → fs !! path = Some (NFile 384 t) →
  b64_DecodeString t = Some raw → length raw = 32%nat → b64_EncodeToString raw = t →
  loadCredential (host_file fs path) = Ok t.
Proof.
  intros Hs E Hd Hl He. unfold loadCredential, host_file. rewrite E.
  cbn [wrap_err mbind result_bind f_regular f_perm f_size f_data]. rewrite Hs.
  change (Z.land 384 63 =? 0) with true. cbn [andb require mbind result_bind].
  rewrite Hd, Hl, He, beq_refl. done.
Qed.
Lemma extracted_loads a t fs path :
  extractToken a = Ok t → fs !! path = Some (NFile 384 t) → loadCredential (host_file fs path) = Ok t.
Proof.
  unfold extractToken. destruct (ar_entries a) as [|h rest]; [done|].
  destruct (_ || _ || _ || _) eqn:Eg; [done|]. reflect_bools.
  destruct (wrap_err _ _) as [d|]; [|done]. cbn [mbind result_bind]. cbv zeta.
  destruct (Z.eqb_spec (slen (of_bytes (take (Z.to_nat (maxTokenBytes + 1)) (bytes d)))) (te_Size h)) as [El|]; [|done].
  cbn [negb]. destruct (b64_DecodeString _) as [raw|] eqn:Ed; [|done]. destruct (_ || _) eqn:E2; [done|].
  apply orb_false_iff in E2 as [E2 E3]. apply negb_false_iff, Nat.eqb_eq in E2. apply negb_false_iff in E3. apply (proj1 (beq_true _ _)) in E3.
  destruct rest; [|done]. destruct (ar_end a); [done|]. intros [= <-] Hf.
  apply (loadable _ fs path raw); [|exact Hf|exact Ed|exact E2|exact E3]. apply Z.leb_le. unfold maxTokenBytes in *. lia.
Qed.

(** ** Undisturbed runs *)
Abbreviation quiet := (λ (_ : nat) (fs : FS), fs).
Abbreviation calm := (λ _ : nat, @None error).
Definition can_hold (d : option node) : Prop := d = None ∨ ∃ perm, d = Some (NDir perm).

Lemma load_calm fs n path t :
  good_token t → fs !! path = Some (NFile 384 t) →
  fst (load calm quiet path (MkWorld fs n)) = Ok t.
Proof.
  intros (raw & Hd & Hl) E. unfold load, try_io, os_Lstat, os_ReadFile, sys, mbind, IO_bind. cbn [w_time w_fs].
  rewrite E. cbn [negb Z.eqb Pos.eqb w_time w_fs]. rewrite E, Hd, Hl. done.
Qed.
Lemma load_absent fs n path :
  fs !! path = None →
  load calm quiet path (MkWorld fs n) = (Err (Wrapf (lit "checking API token: %w") ErrNotExist), MkWorld fs (S n)).
Proof. intros E. unfold load, try_io, os_Lstat, sys, mbind, IO_bind. cbn [w_time w_fs]. by rewrite E. Qed.
Lemma first_boot partial Dir raw fs n path :
  Dir path ≠ path → fs !! path = None → can_hold (fs !! Dir path) →
  fst (LoadOrCreate calm partial quiet Dir (Ok raw) path (MkWorld fs n)) = Ok (b64_EncodeToString raw).
Proof.
  intros Hd E Hc. unfold LoadOrCreate. unfold mbind at 1, IO_bind at 1. rewrite load_absent by done.
  change (negb (errors_Is _ ErrNotExist)) with false. cbv beta iota.
  unfold create, try_io, try_close, os_MkdirAll, os_Quiet, os_CreateExcl, os_Write, sys, mbind, IO_bind. cbn [w_time w_fs].
  destruct Hc as [Hc|[perm Hc]]; rewrite Hc; cbn [w_time w_fs]; [rewrite lookup_insert_ne by done|]; rewrite E; done.
Qed.
Lemma Save_calm partial Dir temp path t fs n :
  path ≠ "" → Dir path ≠ path → temp ≠ path → temp ≠ Dir path → canonical_token t →
  fs !! Dir path = None ∨ (∃ perm, fs !! Dir path = Some (NDir perm) ∧ Z.land perm 63 = 0) →
  fs !! temp = None → (∀ perm, fs !! path ≠ Some (NDir perm)) →
  fst (Save calm partial quiet Dir calm temp path (token_archive t) (MkWorld fs n)) = Ok tt.
Proof.
  intros Hp Hd Ht Htd Hc Hdir Htmp Hpath. unfold Save. rewrite (proj2 (beq_false path "")) by done. rewrite extract_canonical by done.
  unfold deferring, replace_with, try_io, try_close, ctx_Err, os_MkdirAll, os_Lstat, os_CreateExcl, os_Quiet, os_Write, os_Chmod,
    os_Rename, os_Remove, set_data, sys, mbind, IO_bind. cbn [w_time w_fs].
  assert (∀ fs' : FS, fs' !! path = fs !! path →
    match fs' !! path with Some (NDir _) => False | _ => True end) as Hno.
  { intros fs' E. rewrite E. destruct (fs !! path) as [[| perm|]|] eqn:E'; try done. by destruct (Hpath perm). }
  destruct Hdir as [Hdir|(perm & Hdir & Hz)]; rewrite Hdir; cbn [w_time w_fs].
  - rewrite lookup_insert_eq. cbn [private_dir]. change (Z.land 448 63 =? 0) with true. cbv iota. cbn [w_time w_fs].
    rewrite (lookup_insert_ne _ (Dir path) temp), Htmp by done. cbn [w_time w_fs].
    repeat (rewrite lookup_insert_eq; cbn [w_time w_fs]).
    rewrite !(lookup_insert_ne _ temp path), (lookup_insert_ne _ (Dir path) path) by done.
    specialize (Hno fs eq_refl). destruct (fs !! path) as [[| |]|]; try done; cbn [w_time w_fs fst];
      cbv beta iota zeta delta [mret IO_ret w_fs w_time]; by case_match.
  - rewrite Hdir. cbn [private_dir]. rewrite Hz. cbn [Z.eqb]. cbv iota. cbn [w_time w_fs]. rewrite Htmp. cbn [w_time w_fs].
    repeat (rewrite lookup_insert_eq; cbn [w_time w_fs]).
    rewrite !(lookup_insert_ne _ temp path) by done.
    specialize (Hno fs eq_refl). destruct (fs !! path) as [[| |]|]; try done; cbn [w_time w_fs fst];
      cbv beta iota zeta delta [mret IO_ret w_fs w_time]; by case_match.
Qed.

Lemma boots_agree fault partial Dir random path fs n t :
  Dir path ≠ path → (∀ raw, random = Ok raw → length raw = tokenBytes ∧ Forall is_byte raw) →
  fs !! path = Some (NFile 384 t) → ∀ t',
  fst (LoadOrCreate fault partial quiet Dir random path (MkWorld fs n)) = Ok t' → t' = t.
Proof.
  intros Hd Hr E t' Ht. pose proof (LoadOrCreate_at fault partial quiet (λ _ _, eq_refl) Dir path Hd random _ Hr (MkWorld fs n) eq_refl)
    as [H1 H2]. rewrite Ht in H2. destruct H2 as [_ H2]. specialize (H1 _ E). congruence.
Qed.
Lemma later_boot partial Dir random path fs n t :
  good_token t → fs !! path = Some (NFile 384 t) →
  fst (LoadOrCreate calm partial quiet Dir random path (MkWorld fs n)) = Ok t.
Proof.
  intros Hg E. unfold LoadOrCreate. unfold mbind, IO_bind. pose proof (load_calm fs n path t Hg E) as H.
  destruct (load _ _ _ _) as [r w]. cbn in H. by subst r.
Qed.
Lemma canonical_good t : canonical_token t → good_token t.
Proof. intros (raw & Hl & Hb & ->). exists raw. split; [by apply b64_Decode_Encode|done]. Qed.

(** C35: The daemon never replaces what is at its token path and hands out only
    a well-formed token that the private file holds; every later boot that
    succeeds hands out the same one.  Saving on the host is all or nothing: after
    any failure of a system call (a killed process is one whose later calls all
    fail) the path holds what it held, and after a success a private file from
    which the command line loads exactly the token of the archive.  Undisturbed,
    the first boot creates the token, and the command line ends up with the
    token that this and every later boot of the daemon accepts. *)
Theorem credentials_are_kept fault partial Dir random path :
  Dir path ≠ path → (∀ raw, random = Ok raw → length raw = tokenBytes ∧ Forall is_byte raw) →
  (∀ fs n, let '(r, w) := LoadOrCreate fault partial quiet Dir random path (MkWorld fs n) in
     (∀ x, fs !! path = Some x → w_fs w !! path = Some x) ∧
     (∀ t, r = Ok t → good_token t ∧ w_fs w !! path = Some (NFile 384 t) ∧
        ∀ fault' partial' m t',
          fst (LoadOrCreate fault' partial' quiet Dir random path (MkWorld (w_fs w) m)) = Ok t' → t' = t)) ∧
  (∀ ctx temp a fs n, temp ≠ path →
     let '(r, w) := Save fault partial quiet Dir ctx temp path a (MkWorld fs n) in
     match r with
     | Ok _ => ∃ t, extractToken a = Ok t ∧ w_fs w !! path = Some (NFile 384 t) ∧
                    loadCredential (host_file (w_fs w) path) = Ok t
     | Err _ => w_fs w !! path = fs !! path
     end) ∧
  (∀ raw fs n, random = Ok raw → fs !! path = None → can_hold (fs !! Dir path) →
     let '(r, w) := LoadOrCreate calm partial quiet Dir random path (MkWorld fs n) in
     ∃ t, r = Ok t ∧
       (∀ random' m, fst (LoadOrCreate calm partial quiet Dir random' path (MkWorld (w_fs w) m)) = Ok t) ∧
       (∀ host temp hfs m, host ≠ "" → Dir host ≠ host → temp ≠ host → temp ≠ Dir host →
          hfs !! Dir host = None ∨ (∃ perm, hfs !! Dir host = Some (NDir perm) ∧ Z.land perm 63 = 0) →
          hfs !! temp = None → (∀ perm, hfs !! host ≠ Some (NDir perm)) →
          let '(saved, w') := Save calm partial quiet Dir calm temp host (token_archive t) (MkWorld hfs m) in
          saved = Ok tt ∧ loadCredential (host_file (w_fs w') host) = Ok t)).
Proof.
  intros Hd Hr. split_and!.
  - intros fs n. pose proof (LoadOrCreate_at fault partial quiet (λ _ _, eq_refl) Dir path Hd random _ Hr (MkWorld fs n) eq_refl) as [H1 H2].
    destruct (LoadOrCreate _ _ _ _ _ _ _) as [r w]. cbn [fst snd w_fs] in *. split; [intros x Hx; by apply H1|].
    intros t ->. destruct H2 as [Hg Hf]. split; [done|]. split; [done|]. intros ???? H. by eapply boots_agree.
  - intros ctx temp a fs n Ht.
    pose proof (Save_at fault partial quiet (λ _ _, eq_refl) Dir path Hd ctx temp Ht a _ (MkWorld fs n) eq_refl) as H.
    destruct (Save _ _ _ _ _ _ _ _ _) as [[u|e] w]; [|exact H]. destruct H as (t & Ha & Hf). exists t.
    split; [done|]. split; [exact Hf|]. by eapply extracted_loads.
  - intros raw fs n -> Hn Hc. destruct (Hr raw eq_refl) as [Hl Hb].
    pose proof (first_boot partial Dir raw fs n path Hd Hn Hc) as Hf.
    pose proof (LoadOrCreate_at calm partial quiet (λ _ _, eq_refl) Dir path Hd (Ok raw) _ Hr (MkWorld fs n) eq_refl) as [_ H2].
    destruct (LoadOrCreate _ _ _ _ _ _ _) as [r w]. cbn [fst snd w_fs] in *. subst r. destruct H2 as [Hg Hp].
    exists (b64_EncodeToString raw). split; [done|]. split; [intros; by apply later_boot|].
    intros host temp hfs m Hh Hdh Hth Htd Hdir Htmp Hnd.
    assert (canonical_token (b64_EncodeToString raw)) as Hcan by (exists raw; done).
    pose proof (Save_calm partial Dir temp host _ hfs m Hh Hdh Hth Htd Hcan Hdir Htmp Hnd) as Hs.
    pose proof (Save_at calm partial quiet (λ _ _, eq_refl) Dir host Hdh calm temp Hth (token_archive (b64_EncodeToString raw)) _ (MkWorld hfs m) eq_refl) as H.
    destruct (Save _ _ _ _ _ _ _ _ _) as [s w']. cbn [fst snd] in *. subst s. split; [done|].
    destruct H as (t & Ha & Ht). rewrite extract_canonical in Ha by done. injection Ha as <-.
    eapply extracted_loads; [by apply extract_canonical|exact Ht].
Qed.
Lemma credentials_witness :
  let Dir := λ _, "/var/lib/nephos/secrets" in
  let path := "/var/lib/nephos/secrets/api-token" in
  let raw := replicate 32 7 in
  fst (LoadOrCreate calm (λ _, O) quiet Dir (Ok raw) path (MkWorld ∅ 0)) = Ok (b64_EncodeToString raw) ∧
  ∃ t, fst (LoadOrCreate calm (λ _, O) quiet Dir (Ok raw) path (MkWorld ∅ 0)) = Ok t.
Proof.
  split; [vm_compute; reflexivity|].
  assert (∀ r, Ok (replicate 32 7) = Ok r → length r = tokenBytes ∧ Forall is_byte r) as Hr.
  { intros r [= <-]. split; [reflexivity|]. repeat constructor; unfold is_byte; lia. }
  destruct (credentials_are_kept calm (λ _, O) (λ _, "/var/lib/nephos/secrets") (Ok (replicate 32 7))
    "/var/lib/nephos/secrets/api-token" ltac:(discriminate) Hr) as (_ & _ & H).
  specialize (H _ ∅ 0%nat eq_refl (lookup_empty _) (or_introl (lookup_empty _))).
  destruct (LoadOrCreate _ _ _ _ _ _ _) as [r w]. destruct H as (t & -> & _). exists t. reflexivity.
Defined.
