(* ===== verification/Routes.v ===== *)
(** How a request reaches its handler: the HTTP transport and [http.ServeMux] of
    [net/http], the generated routes and parameter binding of
    [internal/apiserver/generated/server.gen.go], and [New] of
    [internal/apiserver/server.go], which puts the boundary before them. *)

From S2P Require Import Prelude Errors GoStrings Encodings NetIP Url Validate Model Json Snapshot.
From S2P Require Import Schema Tx Store Idempotency NetworkService InstanceService Api Client Requests.
Local Open Scope Z_scope.

(** ** From client to server

    The transport refuses header values with control characters; the server reads
    the request target again and trims the values.  The headers the transport adds
    on its own (User-Agent, Accept-Encoding, Content-Length) are read by no
    handler. *)
Record serverRequest := MkServerRequest {
  sr_Method : string; sr_URL : URL; sr_Host : string; sr_Header : Header; sr_Body : list Z
}.
Definition ValidHeaderFieldValue (v : string) : bool := forallb (λ c, negb (is_ctl c) || (c =? 9)) (bytes v).

Fixpoint trim_left (l : list Z) : list Z :=
  match l with
  | c :: l' => if (c =? 32) || (c =? 9) then trim_left l' else l
  | [] => []
  end.
Definition TrimString (v : string) : string := of_bytes (reverse (trim_left (reverse (trim_left (bytes v))))).

Definition transmit (req : httpRequest) : result serverRequest :=
  _ ← require (bool_decide (map_Forall (λ _ vs, forallb ValidHeaderFieldValue vs = true) (hr_Header req)))
        (Errorf (lit "net/http: invalid header field value"));
  u ← ParseRequestURI (RequestURI (hr_URL req));
  Ok (MkServerRequest (hr_Method req) u (of_bytes (hr_Host req)) (List.map TrimString <$> hr_Header req) (hr_Body req)).

(** ** [http.ServeMux] *)
Inductive segment := Literal (s : list Z) | Wildcard (name : string).

(** A segment of a pattern: [{name}] is a wildcard. *)
Definition parse_segment (s : list Z) : segment :=
  if starts_with [123] s && bool_decide (last s = Some 125) then Wildcard (of_bytes (removelast (tail s))) else Literal s.
(** A pattern ["METHOD /path"]. *)
Definition parsePattern (pattern : string) : string * list segment :=
  let '(method, path) := cut 32 (bytes pattern) in
  (of_bytes method, parse_segment <$> tail (split 47 (default [] path))).

(** [path.Clean] of a rooted path: [stack] holds the elements kept, the last one
    first. *)
Fixpoint clean_elems (stack : list (list Z)) (elems : list (list Z)) : list (list Z) :=
  match elems with
  | [] => reverse stack
  | e :: elems' =>
      if bool_decide (e = []) || bool_decide (e = [46]) then clean_elems stack elems'
      else if bool_decide (e = [46; 46]) then clean_elems (tail stack) elems'
      else clean_elems (e :: stack) elems'
  end.
Definition cleanPath (p : list Z) : list Z :=
  let p := if starts_with [47] p then p else 47 :: p in
  let np := 47 :: join 47 (clean_elems [] (split 47 p)) in
  if bool_decide (last p = Some 47) && bool_decide (np ≠ [47]) then np ++ [47] else np.

(** [pathUnescape] keeps what is not well escaped; the segment after a trailing
    slash is ["/"]. *)
Definition pathUnescape (s : list Z) : list Z :=
  match unescape encodePathSegment s with Ok s' => s' | Err _ => s end.
Definition segment_value (raw : list Z) : list Z := if bool_decide (raw = []) then [47] else pathUnescape raw.

Fixpoint match_segments (pattern : list segment) (segs : list (list Z)) : option (list (string * list Z)) :=
  match pattern, segs with
  | [], [] => Some []
  | Literal s :: pattern', seg :: segs' =>
      if bool_decide (seg = s) then match_segments pattern' segs' else None
  | Wildcard name :: pattern', seg :: segs' =>
      if bool_decide (seg = [47]) then None
      else rest ← match_segments pattern' segs'; Some ((name, seg) :: rest)
  | _, _ => None
  end.

Section mux.
Context {H : Type}.
(** The registered handlers.  No two patterns registered here match the same
    request, so the precedence between patterns is of no consequence. *)
Definition find_route (method : string) (segs : list (list Z)) (routes : list (string * H)) : option (H * list (string * list Z)) :=
  head (omap (λ r : string * H,
          let '(m, pattern) := parsePattern r.1 in
          if m ==? method then matches ← match_segments pattern segs; Some (r.2, matches) else None) routes).

Inductive muxResult :=
  | MuxHandler (h : H) (matches : list (string * list Z))
  | MuxRedirect
  | MuxNotFound
  | MuxMethodNotAllowed.

Definition findHandler (routes : list (string * H)) (r : serverRequest) : muxResult :=
  let escaped := EscapedPath (sr_URL r) in
  let path := if sr_Method r ==? "CONNECT" then escaped else cleanPath escaped in
  if bool_decide (path ≠ escaped) then MuxRedirect
  else
    let segs := segment_value <$> tail (split 47 path) in
    let found := match find_route (sr_Method r) segs routes with
                 | None => if sr_Method r ==? "HEAD" then find_route "GET" segs routes else None
                 | f => f
                 end in
    match found with
    | Some (h, matches) => MuxHandler h matches
    | None =>
        if existsb (λ r, match match_segments (parsePattern r.1).2 segs with Some _ => true | None => false end) routes
        then MuxMethodNotAllowed else MuxNotFound
    end.
End mux.
Arguments muxResult : clear implicits.

(** ** Parameters *)

(** A call of the [ServerInterface]. *)
Inductive serverCall :=
  | SvGetEvents (lastEventID : option string)
  | SvGetHealth
  | SvGetVersion
  | SvListInstances (workspace : string) (params : ListParams)
  | SvRunInstance (workspace : string) (key : option string)
  | SvTerminateInstance (workspace id : string)
  | SvGetInstance (workspace id : string)
  | SvGetInstanceConsole (workspace id : string)
  | SvListSubnets (workspace : string) (params : ListParams)
  | SvCreateSubnet (workspace : string) (key : option string)
  | SvDeleteSubnet (workspace id : string)
  | SvGetSubnet (workspace id : string)
  | SvListVpcs (workspace : string) (params : ListParams)
  | SvCreateVpc (workspace : string) (key : option string)
  | SvDeleteVpc (workspace id : string)
  | SvGetVpc (workspace id : string).

Inductive paramError :=
  | TooManyValuesForParamError (name : string) (count : Z)
  | InvalidParamFormatError (name : string) (e : error)
  | RequiredParamError (name : string).
Definition paramError_text (e : paramError) : string :=
  match e with
  | TooManyValuesForParamError name count =>
      text_string (Sprintf "Expected one value for %s, got %d" [name; FormatInt count])
  | InvalidParamFormatError name e =>
      text_string (Sprintf "Invalid format for parameter %s: %s" [name; error_text e])
  | RequiredParamError name => text_string (Sprintf "Query argument %s is required, but not found" [name])
  end.

Section wrapper.
Context `{rt : Runtime} (isRequired : error → bool) (r : serverRequest) (matches : list (string * list Z)).

Definition PathValue (name : string) : list Z := default [] (snd <$> head (filter (λ m, m.1 = name) matches)).

Definition param {A} (name : string) (bound : result A) (next : A → paramError + serverCall) : paramError + serverCall :=
  match bound with
  | Ok a => next a
  | Err e => inl (InvalidParamFormatError name e)
  end.
Definition query_param {A} (name : string) (bound : result A) (next : A → paramError + serverCall)
    : paramError + serverCall :=
  match bound with
  | Ok a => next a
  | Err e => inl (if isRequired e then RequiredParamError name else InvalidParamFormatError name e)
  end.

Definition bind_path_param (name : string) (next : string → paramError + serverCall) : paramError + serverCall :=
  param name (BindStyledParameterWithOptions "simple" name (PathValue name) ParamLocationPath true true) next.
Definition bind_header_param (name : string) (next : option string → paramError + serverCall) : paramError + serverCall :=
  match sr_Header r !! CanonicalHeaderKey name with
  | None => next None
  | Some [value] =>
      param name (BindStyledParameterWithOptions "simple" name (bytes value) ParamLocationHeader false false)
        (λ v, next (Some v))
  | Some vs => inl (TooManyValuesForParamError name (Z.of_nat (length vs)))
  end.

Definition list_params (call : string → ListParams → serverCall) : paramError + serverCall :=
  bind_path_param "workspace" (λ workspace,
  query_param "limit" (BindQueryInt "limit" (Query (sr_URL r))) (λ limit,
  query_param "page_token" (BindQueryString "page_token" (Query (sr_URL r))) (λ token,
  inr (call workspace (MkListParams limit token))))).
Definition create_params (call : string → option string → serverCall) : paramError + serverCall :=
  bind_path_param "workspace" (λ workspace,
  bind_header_param "Idempotency-Key" (λ key, inr (call workspace key))).
Definition item_params (call : string → string → serverCall) : paramError + serverCall :=
  bind_path_param "workspace" (λ workspace, bind_path_param "id" (λ id, inr (call workspace id))).

Definition siw_GetEvents := bind_header_param "Last-Event-ID" (λ last, inr (SvGetEvents last)).
Definition siw_GetHealth : paramError + serverCall := inr SvGetHealth.
Definition siw_GetVersion : paramError + serverCall := inr SvGetVersion.
Definition siw_ListInstances := list_params SvListInstances.
Definition siw_RunInstance := create_params SvRunInstance.
Definition siw_TerminateInstance := item_params SvTerminateInstance.
Definition siw_GetInstance := item_params SvGetInstance.
Definition siw_GetInstanceConsole := item_params SvGetInstanceConsole.
Definition siw_ListSubnets := list_params SvListSubnets.
Definition siw_CreateSubnet := create_params SvCreateSubnet.
Definition siw_DeleteSubnet := item_params SvDeleteSubnet.
Definition siw_GetSubnet := item_params SvGetSubnet.
Definition siw_ListVpcs := list_params SvListVpcs.
Definition siw_CreateVpc := create_params SvCreateVpc.
Definition siw_DeleteVpc := item_params SvDeleteVpc.
Definition siw_GetVpc := item_params SvGetVpc.
End wrapper.

(** ** The server *)
Section server.
Context `{rt : Runtime} (isRequired : error → bool).

Definition wrapped : Type := serverRequest → list (string * list Z) → paramError + serverCall.

(** [HandlerWithOptions], with the default empty base URL and no middleware. *)
Definition HandlerWithOptions : list (string * wrapped) :=
  [("GET /v1/health", λ _ _, siw_GetHealth);
   ("GET /v1/version", λ _ _, siw_GetVersion);
   ("GET /v1/workspaces/{workspace}/vpcs", siw_ListVpcs isRequired);
   ("POST /v1/workspaces/{workspace}/vpcs", siw_CreateVpc);
   ("DELETE /v1/workspaces/{workspace}/vpcs/{id}", λ _, siw_DeleteVpc);
   ("GET /v1/workspaces/{workspace}/vpcs/{id}", λ _, siw_GetVpc);
   ("GET /v1/workspaces/{workspace}/subnets", siw_ListSubnets isRequired);
   ("POST /v1/workspaces/{workspace}/subnets", siw_CreateSubnet);
   ("DELETE /v1/workspaces/{workspace}/subnets/{id}", λ _, siw_DeleteSubnet);
   ("GET /v1/workspaces/{workspace}/subnets/{id}", λ _, siw_GetSubnet);
   ("GET /v1/workspaces/{workspace}/instances", siw_ListInstances isRequired);
   ("POST /v1/workspaces/{workspace}/instances", siw_RunInstance);
   ("DELETE /v1/workspaces/{workspace}/instances/{id}", λ _, siw_TerminateInstance);
   ("GET /v1/workspaces/{workspace}/instances/{id}", λ _, siw_GetInstance);
   ("GET /v1/workspaces/{workspace}/instances/{id}/console", λ _, siw_GetInstanceConsole);
   ("GET /v1/events", λ r _, siw_GetEvents r)].

(** What becomes of a request: the boundary or the parameter binding refuses it,
    the mux answers it, or a handler is called. *)
Inductive answer :=
  | Refused (r : Response)
  | Redirected
  | Plain (status : Z)
  | Handled (c : serverCall).

Definition routes (r : serverRequest) : answer :=
  match findHandler HandlerWithOptions r with
  | MuxHandler h matches =>
      match h r matches with
      | inr call => Handled call
      | inl e => Refused (writeAPIError 400 "InvalidParameterValue" (paramError_text e) "")
      end
  | MuxRedirect => Redirected
  | MuxNotFound => Plain 404
  | MuxMethodNotAllowed => Plain 405
  end.

Definition New (token : string) (r : serverRequest) : answer :=
  match localOnly (sr_Host r) (Header_Get "Origin" (sr_Header r)) with
  | Some refusal => Refused refusal
  | None =>
      match requireBearer token (of_bytes (u_Path (sr_URL r))) (Header_Get "Authorization" (sr_Header r)) with
      | Some refusal => Refused refusal
      | None => routes r
      end
  end.
End server.
