(* ===== verification/Routing.v ===== *)
(** Requests reach their handlers: a request that the command line's client
    builds for an operation passes the boundary of the daemon and ends in the call
    of that operation's handler with the arguments it was given. *)

From S2P Require Import Prelude Errors GoStrings Encodings NetIP Url UrlFacts Validate Model Json Snapshot.
From S2P Require Import Schema Tx Store Idempotency NetworkService InstanceService Api ApiSafety Client.
From S2P Require Import Requests Endpoint Routes.
Local Open Scope Z_scope.

(** ** Which arguments a request can carry *)

(** A path segment that the client and the mux leave alone. *)
Definition plain_segment (s : string) : Prop := s ∉ [""; "."; ".."; "/"].
Definition header_value (v : string) : Prop := ValidHeaderFieldValue v = true ∧ TrimString v = v.
Definition optional_value (v : option string) : Prop := match v with Some v => header_value v | None => True end.
Definition limit_fits (p : option ListParams) : Prop :=
  match p with Some (MkListParams (Some n) _) => - 2 ^ 63 ≤ n < 2 ^ 63 | _ => True end.

Definition sendable (c : clientCall) : Prop :=
  match c with
  | CallGetEvents last => optional_value last
  | CallGetHealth | CallGetVersion => True
  | CallListInstances w p | CallListSubnets w p | CallListVpcs w p => plain_segment w ∧ limit_fits p
  | CallRunInstance w k _ _ | CallCreateSubnet w k _ _ _ _ | CallCreateVpc w k _ _ => plain_segment w ∧ optional_value k
  | CallTerminateInstance w id | CallGetInstance w id | CallGetInstanceConsole w id | CallDeleteSubnet w id
  | CallGetSubnet w id | CallDeleteVpc w id | CallGetVpc w id => plain_segment w ∧ plain_segment id
  end.

(** What the handler is to be called with. *)
Definition given (p : option ListParams) : ListParams := default (MkListParams None None) p.
Definition received (c : clientCall) : serverCall :=
  match c with
  | CallGetEvents last => SvGetEvents last
  | CallGetHealth => SvGetHealth
  | CallGetVersion => SvGetVersion
  | CallListInstances w p => SvListInstances w (given p)
  | CallRunInstance w k _ _ => SvRunInstance w k
  | CallTerminateInstance w id => SvTerminateInstance w id
  | CallGetInstance w id => SvGetInstance w id
  | CallGetInstanceConsole w id => SvGetInstanceConsole w id
  | CallListSubnets w p => SvListSubnets w (given p)
  | CallCreateSubnet w k _ _ _ _ => SvCreateSubnet w k
  | CallDeleteSubnet w id => SvDeleteSubnet w id
  | CallGetSubnet w id => SvGetSubnet w id
  | CallListVpcs w p => SvListVpcs w (given p)
  | CallCreateVpc w k _ _ => SvCreateVpc w k
  | CallDeleteVpc w id => SvDeleteVpc w id
  | CallGetVpc w id => SvGetVpc w id
  end.
(** The body of a creation. *)
Definition call_body (c : clientCall) : option (list Z) :=
  match c with
  | CallRunInstance _ _ name subnetID => Some (rq_body (RunInstanceRequest name subnetID))
  | CallCreateSubnet _ _ name vpcID cidr zone => Some (rq_body (CreateSubnetRequest name vpcID cidr zone))
  | CallCreateVpc _ _ name cidr => Some (rq_body (CreateVpcRequest name cidr))
  | _ => None
  end.

(** ** Building and sending *)
Lemma loopback_removeEmptyPort h : loopback_host h → loopback_host (removeEmptyPort h).
Proof.
  intros (name & port & -> & Hn & Hp). unfold removeEmptyPort. case_bool_decide as L; [|by exists name, port].
  assert (port = [58]) as ->.
  { destruct port as [|c ds].
    - rewrite app_nil_r in L. unfold loopback_names in Hn. rewrite !elem_of_cons in Hn.
      destruct Hn as [->|[->|[->|[]%elem_of_nil]]]; by vm_compute in L.
    - simpl in Hp. apply andb_true_iff in Hp as [->%Z.eqb_eq Hd]. destruct ds as [|d ds]; [done|].
      destruct (exists_last (l := d :: ds) ltac:(done)) as (z & w & Ez). rewrite Ez in *.
      change (58 :: z ++ [w]) with ((58 :: z) ++ [w]) in L. rewrite app_assoc, last_snoc in L. simplify_eq.
      rewrite forallb_app in Hd. by apply andb_true_iff in Hd as [_ Hd]. }
  rewrite removelast_last. exists name, []. by rewrite app_nil_r.
Qed.

(** The URL of a request to a host for a path and a query. *)
Definition request_URL (base : URL) (segs : list (list Z)) (q : list Z) (u : URL) : Prop :=
  ∃ raw, u = with_path (with_query base q) (raw_path segs) raw ∧ EscapedPath u = abspath segs.

Section operation.
Context `{rt : Runtime} (h server : list Z) (su : URL).
Context (Hsu : Parse server = Ok su) (Hserver : server_URL h su) (Hh : loopback_host h).

Lemma operation_sent m segs e edit q body :
  segs ≠ [] → all_bytes (segs ++ [e]) → Forall undotted (PathEscape <$> segs) → query_text q →
  (∀ u, u_RawQuery u = [] → edit u = Ok (with_query u q)) →
  ∃ u, operation_request m server (abspath (segs ++ [e])) edit body = Ok (MkHttpRequest m u (removeEmptyPort h) ∅ body) ∧
       request_URL (host_URL (removeEmptyPort h)) (resolved segs e) q u.
Proof using Hsu Hserver Hh.
  intros Hne Hb Hu Hq Hedit. pose proof Hb as Hb'. apply Forall_app in Hb' as [Hs He]. inversion_clear He as [|?? He' _].
  destruct (resolved_ok segs e) as [Hr Hrb]; [done..|].
  destruct (URL_Parse_ref h su segs e) as (raw & HP & HE); [done..|].
  unfold operation_request. rewrite Hsu. cbn [mbind result_bind].
  destruct (abspath_head (segs ++ [e])) as [l El]; [by intros [_ [=]]%app_nil|].
  rewrite El, starts_slash, <- El, HP. cbn [mbind result_bind]. rewrite Hedit by done. cbn [mbind result_bind].
  unfold http_NewRequest.
  assert (with_query (with_path (host_URL h) (raw_path (resolved segs e)) raw) q
          = with_path (with_query (host_URL h) q) (raw_path (resolved segs e)) raw) as -> by done.
  rewrite URL_String_request by (try apply HE; done).
  destruct (Parse_printed h (resolved segs e) q) as (raw' & -> & HE'); [done..|]. cbn [mbind result_bind].
  eexists. split; [done|]. exists raw'. split; [done|]. apply HE'.
Qed.
End operation.

Lemma transmitted m h segs q u hd body :
  request_URL (host_URL h) segs q u → segs ≠ [] → all_bytes segs → query_text q →
  map_Forall (λ _ vs, forallb ValidHeaderFieldValue vs = true) hd →
  ∃ u', transmit (MkHttpRequest m u h hd body) = Ok (MkServerRequest m u' (of_bytes h) (List.map TrimString <$> hd) body) ∧
        request_URL zero_URL segs q u'.
Proof.
  intros (raw & Eu & HE) Hne Hb Hq Hhd. unfold transmit. cbn [hr_Method hr_URL hr_Host hr_Header hr_Body].
  rewrite bool_decide_true by done. cbn [require mbind result_bind].
  destruct (ParseRequestURI_target segs q) as (raw' & HP & HE'); [done..|].
  assert (RequestURI u = abspath segs ++ (if bool_decide (q ≠ []) then 63 :: q else [])) as ->.
  { unfold RequestURI. rewrite HE. destruct (abspath_head segs Hne) as [l El]. rewrite El. subst u. done. }
  rewrite HP. cbn [mbind result_bind]. eexists. split; [done|]. by exists raw'.
Qed.

(** ** Finding the handler *)
Definition kept (s : list Z) : Prop := s ≠ [] ∧ undotted s ∧ Forall is_byte s.

Lemma kept_escaped s : kept s → PathEscape s ≠ [] ∧ undotted (PathEscape s) ∧ last (PathEscape s) ≠ Some 47.
Proof.
  intros (Hne & [H1 H2] & Hb). destruct (PathEscape_dots s Hb) as [D1 D2]. split.
  - intros E. apply Hne. by apply PathEscape_inj.
  - split; [split; tauto|]. intros L. apply last_Some in L as [l E].
    assert (47 ∉ PathEscape s) as H.
    { apply (not_in seg_byte); [by apply seg_bytes|done]. }
    apply H. rewrite E. set_solver.
Qed.
Lemma clean_kept stack es rest :
  Forall (λ e, e ≠ [] ∧ undotted e) es → clean_elems stack (es ++ rest) = clean_elems (reverse es ++ stack) rest.
Proof.
  intros H. revert stack. induction H as [|e es (H1 & H2 & H3) H IH]; intros stack; [done|].
  cbn [app clean_elems]. rewrite !bool_decide_false by done. cbn [orb]. rewrite IH. by rewrite reverse_cons, <- app_assoc.
Qed.
Lemma join_slash es : es ≠ [] → 47 :: join 47 es = mbind (cons 47) es.
Proof.
  induction es as [|e es IH]; [done|]. intros _. destruct es as [|e' es]; [cbn; by rewrite app_nil_r|].
  change (join 47 (e :: e' :: es)) with (e ++ 47 :: join 47 (e' :: es)). rewrite IH by done. done.
Qed.

(** A path of kept segments is clean, also with a slash at its end. *)
Lemma clean_abspath segs e :
  Forall kept segs → segs ≠ [] → e = [] ∨ kept e → cleanPath (abspath (segs ++ [e])) = abspath (segs ++ [e]).
Proof.
  intros Hs Hne He. unfold cleanPath.
  assert (all_bytes (segs ++ [e])) as Hb.
  { apply Forall_app. split; [eapply Forall_impl; [exact Hs|]; by intros s (_ & _ & ?)|].
    constructor; [|done]. destruct He as [->|(_ & _ & ?)]; done. }
  destruct (abspath_head (segs ++ [e])) as [l El]; [by intros [_ [=]]%app_nil|]. rewrite El, starts_slash, <- El.
  pose proof (split_abspath [] (segs ++ [e]) (not_elem_of_nil _) Hb) as Sp. cbn [app] in Sp. rewrite Sp, fmap_app.
  assert (Forall (λ e, e ≠ [] ∧ undotted e) (PathEscape <$> segs)) as Hk.
  { apply Forall_fmap. eapply Forall_impl; [exact Hs|]. intros s Hk%kept_escaped. simpl. tauto. }
  cbn [clean_elems]. rewrite (bool_decide_true ([] = [])) by done. cbn [orb]. rewrite clean_kept, app_nil_r by done.
  cbn [fmap list_fmap clean_elems]. destruct He as [->|He].
  - change (PathEscape []) with (@nil Z). rewrite (bool_decide_true ([] = [])) by done. cbn [orb].
    rewrite reverse_involutive, join_slash, <- abspath_elems by (by destruct segs).
    rewrite abspath_app. change (abspath [[]]) with [47]. rewrite last_snoc, bool_decide_true by done.
    rewrite bool_decide_true; [done|]. destruct segs as [|s segs]; [done|]. intros E.
    apply Forall_cons in Hs as [Hs _]. apply kept_escaped in Hs as [Hs _]. unfold abspath in E. cbn in E.
    injection E as E. by apply app_nil in E as [? _].
  - destruct (kept_escaped e He) as (K1 & [K2 K3] & K4).
    rewrite (bool_decide_false (_ = [])), (bool_decide_false (_ = [46])), (bool_decide_false (_ = [46; 46])) by done. cbn [orb].
    rewrite reverse_cons, reverse_involutive, join_slash by (by intros [_ [=]]%app_nil).
    rewrite (bool_decide_false (last _ = Some 47)); cbn [andb].
    + rewrite (abspath_elems (segs ++ [e])), fmap_app. done.
    + rewrite abspath_app. unfold abspath at 2. cbn [mbind list_bind]. rewrite app_nil_r.
      destruct (exists_last K1) as (z & w & Ez). rewrite Ez in *. rewrite last_snoc in K4.
      change (47 :: z ++ [w]) with ((47 :: z) ++ [w]). by rewrite app_assoc, last_snoc.
Qed.

Lemma segment_kept s : kept s → segment_value (PathEscape s) = s.
Proof.
  intros Hk. destruct (kept_escaped s Hk) as [Hne _]. unfold segment_value, pathUnescape.
  rewrite bool_decide_false, unescape_segment by (done || apply Hk). done.
Qed.
Lemma request_segments segs e :
  Forall kept segs → e = [] ∨ kept e →
  segment_value <$> tail (split 47 (abspath (segs ++ [e]))) = segs ++ [if bool_decide (e = []) then [47] else e].
Proof.
  intros Hs He. assert (all_bytes (segs ++ [e])) as Hb.
  { apply Forall_app. split; [eapply Forall_impl; [exact Hs|]; by intros s (_ & _ & ?)|].
    constructor; [|done]. destruct He as [->|(_ & _ & ?)]; done. }
  pose proof (split_abspath [] (segs ++ [e]) (not_elem_of_nil _) Hb) as Sp. cbn [app] in Sp. rewrite Sp. cbn [tail].
  rewrite <- list_fmap_compose, fmap_app. f_equal.
  - clear -Hs. induction Hs as [|s segs Hk Hs IH]; [done|]. cbn [fmap list_fmap]. rewrite IH. unfold compose.
    by rewrite segment_kept.
  - cbn. destruct He as [->|He]; [done|]. rewrite bool_decide_false by apply He. by rewrite segment_kept.
Qed.

(** ** The table of routes *)
Definition lit_seg (s : string) : segment := Literal (bytes s).
Definition fixed_route (name : string) : list segment := [lit_seg "v1"; lit_seg name].
Definition kind_route (kind : string) : list segment :=
  [lit_seg "v1"; lit_seg "workspaces"; Wildcard "workspace"; lit_seg kind].
Definition id_route (kind : string) : list segment := kind_route kind ++ [Wildcard "id"].

Definition match_route {H} (method : string) (segs : list (list Z)) (r : string * list segment * H)
    : option (H * list (string * list Z)) :=
  let '(m, pattern, h) := r in
  if m ==? method then matches ← match_segments pattern segs; Some (h, matches) else None.

Section table.
Context `{rt : Runtime} (isRequired : error → bool).

Definition route_table : list (string * list segment * wrapped) :=
  [("GET", fixed_route "health", λ _ _, siw_GetHealth);
   ("GET", fixed_route "version", λ _ _, siw_GetVersion);
   ("GET", kind_route "vpcs", siw_ListVpcs isRequired);
   ("POST", kind_route "vpcs", siw_CreateVpc);
   ("DELETE", id_route "vpcs", λ _, siw_DeleteVpc);
   ("GET", id_route "vpcs", λ _, siw_GetVpc);
   ("GET", kind_route "subnets", siw_ListSubnets isRequired);
   ("POST", kind_route "subnets", siw_CreateSubnet);
   ("DELETE", id_route "subnets", λ _, siw_DeleteSubnet);
   ("GET", id_route "subnets", λ _, siw_GetSubnet);
   ("GET", kind_route "instances", siw_ListInstances isRequired);
   ("POST", kind_route "instances", siw_RunInstance);
   ("DELETE", id_route "instances", λ _, siw_TerminateInstance);
   ("GET", id_route "instances", λ _, siw_GetInstance);
   ("GET", id_route "instances" ++ [lit_seg "console"], λ _, siw_GetInstanceConsole);
   ("GET", fixed_route "events", λ r _, siw_GetEvents r)].

Lemma parsed_routes : (λ r, (parsePattern r.1, r.2)) <$> HandlerWithOptions isRequired = route_table.
Proof. unfold HandlerWithOptions, route_table. cbn [fmap list_fmap fst snd]. repeat f_equal. Qed.

Lemma find_route_table m segs :
  find_route m segs (HandlerWithOptions isRequired) = head (omap (match_route m segs) route_table).
Proof.
  rewrite <- parsed_routes. unfold find_route. generalize (HandlerWithOptions isRequired). intros rs. f_equal.
  induction rs as [|[p h] rs IH]; [done|]. cbn [fmap list_fmap omap list_omap fst snd]. rewrite <- IH.
  unfold match_route. by destruct (parsePattern p).
Qed.
End table.

Lemma head_omap_none {A B} (f : A → option B) x l : f x = None → head (omap f (x :: l)) = head (omap f l).
Proof. intros H. cbn [omap list_omap]. by rewrite H. Qed.
Lemma head_omap_some {A B} (f : A → option B) x l y : f x = Some y → head (omap f (x :: l)) = Some y.
Proof. intros H. cbn [omap list_omap]. by rewrite H. Qed.

(** One route against a request whose segments are literals or known not to be a
    slash. *)
Ltac route_tac :=
  cbn [match_route match_segments id_route kind_route fixed_route lit_seg app];
  repeat match goal with H : bool_decide (_ = [47]) = false |- _ => rewrite !H; clear H end; reflexivity.
Ltac find_tac :=
  rewrite find_route_table; unfold route_table;
  repeat (rewrite head_omap_none by route_tac); first [erewrite head_omap_some by route_tac; reflexivity|reflexivity].

Section finds.
Context `{rt : Runtime} (isRequired : error → bool).
Let find m segs := find_route m segs (HandlerWithOptions isRequired).
Let v1 := bytes "v1".
Let ws := bytes "workspaces".

Lemma find_fixed :
  find "GET" [v1; bytes "health"] = Some (λ _ _, siw_GetHealth, []) ∧
  find "GET" [v1; bytes "version"] = Some (λ _ _, siw_GetVersion, []) ∧
  find "GET" [v1; bytes "events"] = Some (λ r _, siw_GetEvents r, []).
Proof. unfold find, v1. repeat split; find_tac. Qed.

Lemma find_kinds w :
  bool_decide (w = [47]) = false →
  find "GET" [v1; ws; w; bytes "vpcs"] = Some (siw_ListVpcs isRequired, [("workspace", w)]) ∧
  find "GET" [v1; ws; w; bytes "subnets"] = Some (siw_ListSubnets isRequired, [("workspace", w)]) ∧
  find "GET" [v1; ws; w; bytes "instances"] = Some (siw_ListInstances isRequired, [("workspace", w)]) ∧
  find "POST" [v1; ws; w; bytes "vpcs"] = Some (siw_CreateVpc, [("workspace", w)]) ∧
  find "POST" [v1; ws; w; bytes "subnets"] = Some (siw_CreateSubnet, [("workspace", w)]) ∧
  find "POST" [v1; ws; w; bytes "instances"] = Some (siw_RunInstance, [("workspace", w)]).
Proof. intros Hw. unfold find, v1, ws. repeat split; find_tac. Qed.

Lemma find_items w id :
  bool_decide (w = [47]) = false → bool_decide (id = [47]) = false →
  let matches := [("workspace", w); ("id", id)] in
  find "GET" [v1; ws; w; bytes "vpcs"; id] = Some (λ _, siw_GetVpc, matches) ∧
  find "DELETE" [v1; ws; w; bytes "vpcs"; id] = Some (λ _, siw_DeleteVpc, matches) ∧
  find "GET" [v1; ws; w; bytes "subnets"; id] = Some (λ _, siw_GetSubnet, matches) ∧
  find "DELETE" [v1; ws; w; bytes "subnets"; id] = Some (λ _, siw_DeleteSubnet, matches) ∧
  find "GET" [v1; ws; w; bytes "instances"; id] = Some (λ _, siw_GetInstance, matches) ∧
  find "DELETE" [v1; ws; w; bytes "instances"; id] = Some (λ _, siw_TerminateInstance, matches) ∧
  find "GET" [v1; ws; w; bytes "instances"; id; bytes "console"] = Some (λ _, siw_GetInstanceConsole, matches).
Proof. intros Hw Hid. cbv zeta. unfold find, v1, ws. repeat split; find_tac. Qed.
End finds.

(** ** From the request to the call *)
Section routed.
Context `{rt : Runtime} {laws : RuntimeLaws rt} (isRequired : error → bool).

Lemma routed r segs e h matches call :
  EscapedPath (sr_URL r) = abspath (segs ++ [e]) → Forall kept segs → segs ≠ [] → kept e → sr_Method r ≠ "CONNECT" →
  find_route (sr_Method r) (segs ++ [e]) (HandlerWithOptions isRequired) = Some (h, matches) → h r matches = inr call →
  routes isRequired r = Handled call.
Proof.
  intros HE Hs Hne He Hm Hf Hc. unfold routes, findHandler. rewrite HE, (proj2 (beq_false _ _) Hm).
  rewrite clean_abspath, (bool_decide_false (_ ≠ _)) by (auto || by intros []).
  rewrite request_segments, (bool_decide_false (e = [])) by (auto || apply He). by rewrite Hf, Hc.
Qed.

(** No route takes a path that ends in a slash. *)
Definition unmatched (segs : list (list Z)) : Prop := Forall (λ r, match_segments r.1.2 segs = None) (route_table isRequired).
Lemma unrouted r segs e :
  EscapedPath (sr_URL r) = abspath (segs ++ [e]) → Forall kept segs → segs ≠ [] → e = [] ∨ kept e → sr_Method r ≠ "CONNECT" →
  unmatched (segs ++ [if bool_decide (e = []) then [47] else e]) → routes isRequired r = Plain 404.
Proof.
  intros HE Hs Hne He Hm Hu. unfold routes, findHandler. rewrite HE, (proj2 (beq_false _ _) Hm).
  rewrite clean_abspath, (bool_decide_false (_ ≠ _)) by (auto || by intros []).
  rewrite request_segments by done.
  remember (segs ++ [if bool_decide (e = []) then [47] else e]) as L eqn:EL. clear EL.
  assert (∀ m, find_route m L (HandlerWithOptions isRequired) = None) as Hnone.
  { intros m. rewrite find_route_table. induction Hu as [|[[m' p] h] rs Hp Hu IH]; [done|]. rewrite head_omap_none; [done|].
    unfold match_route. cbn in Hp. rewrite Hp. by destruct (_ ==? _). }
  rewrite !Hnone. assert (∀ b : bool, (if b then None else None) = (@None (wrapped * list (string * list Z)))) as -> by (by intros []).
  assert (existsb (λ r, match match_segments (parsePattern r.1).2 L with Some _ => true | None => false end)
            (HandlerWithOptions isRequired) = false) as ->; [|done].
  unfold unmatched in Hu. rewrite <- parsed_routes in Hu. revert Hu. generalize (HandlerWithOptions isRequired). intros rs Hu.
  induction rs as [|[p h] rs IH]; [done|]. cbn [fmap list_fmap fst snd] in Hu. apply Forall_cons in Hu as [Hp Hu].
  cbn [existsb fst snd] in *. by rewrite Hp, IH.
Qed.
Lemma unmatched_items w kind :
  kind ∈ ["vpcs"; "subnets"; "instances"] →
  unmatched [bytes "v1"; bytes "workspaces"; w; bytes kind; [47]] ∧ unmatched [bytes "v1"; bytes "workspaces"; w; [47]].
Proof.
  intros Hk. unfold unmatched, route_table. rewrite !elem_of_cons in Hk.
  destruct Hk as [->|[->|[->|[]%elem_of_nil]]]; split; repeat (constructor; [
    cbn [fst snd match_segments id_route kind_route fixed_route lit_seg app]; destruct (bool_decide (w = [47])); reflexivity|]);
    constructor.
Qed.

(** *** Parameters *)
Lemma bound_list r w (call : string → ListParams → serverCall) limit token :
  w ≠ "" → BindQueryInt "limit" (Query (sr_URL r)) = Ok limit → BindQueryString "page_token" (Query (sr_URL r)) = Ok token →
  list_params isRequired r [("workspace", bytes w)] call = inr (call w (MkListParams limit token)).
Proof using laws.
  intros Hw Hl Ht. unfold list_params, bind_path_param, param.
  change (PathValue [("workspace", bytes w)] "workspace") with (bytes w). rewrite bind_path by done.
  unfold query_param. by rewrite Hl, Ht.
Qed.
Lemma bound_header r name v next :
  sr_Header r !! CanonicalHeaderKey name = (λ v, [v]) <$> v → bind_header_param r name next = next v.
Proof using laws.
  intros Hv. unfold bind_header_param. rewrite Hv. destruct v as [v|]; [|done]. cbn. unfold param. by rewrite bind_header.
Qed.
Lemma bound_create r w key (call : string → option string → serverCall) :
  w ≠ "" → sr_Header r !! "Idempotency-Key" = (λ v, [v]) <$> key →
  create_params r [("workspace", bytes w)] call = inr (call w key).
Proof using laws.
  intros Hw Hk. unfold create_params, bind_path_param, param.
  change (PathValue [("workspace", bytes w)] "workspace") with (bytes w). rewrite bind_path by done.
  by rewrite (bound_header _ _ key).
Qed.
Lemma bound_item w id (call : string → string → serverCall) :
  w ≠ "" → id ≠ "" → item_params [("workspace", bytes w); ("id", bytes id)] call = inr (call w id).
Proof using laws.
  intros Hw Hid. unfold item_params, bind_path_param, param.
  change (PathValue [("workspace", bytes w); ("id", bytes id)] "workspace") with (bytes w).
  change (PathValue [("workspace", bytes w); ("id", bytes id)] "id") with (bytes id). by rewrite !bind_path.
Qed.
End routed.

(** ** Queries *)
Lemma format_digits_bytes fuel n acc (P : Z → Prop) :
  (∀ c, is_digit c = true → P c) → Forall P (bytes acc) → Forall P (bytes (format_digits fuel n acc)).
Proof.
  intros HP. revert n acc. induction fuel as [|fuel IH]; intros n acc Ha; [done|]. cbn [format_digits].
  assert (Forall P (bytes (String (digit_char (n mod 10)) acc))) as Hd.
  { cbn [bytes]. constructor; [|done]. apply HP. rewrite digit_byte, is_digit_digit; [done|..]; apply Z.mod_pos_bound; lia. }
  destruct (n <? 10); auto.
Qed.
Definition number_byte (c : Z) : bool := is_digit c || (c =? 45).
Lemma FormatInt_number n : Forall (λ c, number_byte c = true) (bytes (FormatInt n)).
Proof.
  assert (∀ c, is_digit c = true → number_byte c = true) as Hd by (intros c Hc; unfold number_byte; by rewrite Hc).
  unfold FormatInt. destruct (n <? 0); [rewrite bytes_app; apply Forall_app; split; [by repeat constructor|]|];
    apply (format_digits_bytes 20 _ "" (λ c, number_byte c = true)); done.
Qed.
Lemma number_query c : number_byte c = true → query_byte c = true ∧ c ≠ 37 ∧ c ≠ 43.
Proof.
  intros H. assert (45 ≤ c < 45 + 13) as Hc.
  { unfold number_byte, is_digit in H. apply orb_true_iff in H as [H|H]; reflect_bools; lia. }
  revert H. by apply (range_decide (λ c, number_byte c = true → query_byte c = true ∧ c ≠ 37 ∧ c ≠ 43) 45 13).
Qed.
Lemma unescape_number n : unescape encodeQueryComponent (bytes (FormatInt n)) = Ok (bytes (FormatInt n)).
Proof.
  pose proof (FormatInt_number n) as H. induction H as [|c l Hc H IH]; [done|].
  destruct (number_query c Hc) as (_ & H1 & H2). cbn [unescape].
  rewrite (proj2 (Z.eqb_neq _ _) H1), (proj2 (Z.eqb_neq _ _) H2). cbn. by rewrite IH.
Qed.

Definition query_parts (p : ListParams) : list (list Z) :=
  match lp_Limit p with Some n => [bytes "limit=" ++ bytes (FormatInt n)] | None => [] end ++
  match lp_PageToken p with Some t => [bytes "page_token=" ++ QueryEscape (bytes t)] | None => [] end.
Definition query_of (params : option ListParams) : list Z := join 38 (query_parts (given params)).

Lemma query_byte_target c : query_byte c = true → target_byte c = true ∧ c ≠ 38 ∧ c ≠ 59.
Proof.
  intros H. assert (33 ≤ c < 33 + 94) as Hc by (unfold query_byte in H; reflect_bools; lia).
  revert H. by apply (range_decide (λ c, query_byte c = true → target_byte c = true ∧ c ≠ 38 ∧ c ≠ 59) 33 94).
Qed.
Lemma limit_bytes n : Forall (λ c, query_byte c = true) (bytes (FormatInt n)).
Proof. eapply Forall_impl; [apply FormatInt_number|]. intros c Hc. by apply number_query. Qed.
Lemma token_bytes t : Forall (λ c, query_byte c = true) (QueryEscape (bytes t)).
Proof. apply query_bytes, bytes_range. Qed.

(** A part is a name and a value without separators. *)
Lemma part_text name v :
  Forall (λ c, query_byte c = true) (bytes name) → Forall (λ c, query_byte c = true) v →
  query_text (bytes name ++ 61 :: v) ∧ (38 ∉ bytes name ++ 61 :: v) ∧ (59 ∉ bytes name ++ 61 :: v) ∧ (61 ∉ bytes name).
Proof.
  intros Hn Hv.
  assert (∀ l, Forall (λ c, query_byte c = true) l → query_text l ∧ (38 ∉ l) ∧ (59 ∉ l)) as Hq.
  { intros l Hl. split; [|split; by apply (not_in query_byte)]. eapply Forall_impl; [exact Hl|]. intros c Hc.
    by apply query_byte_target. }
  destruct (Hq _ Hn) as (N1 & N2 & N3), (Hq _ Hv) as (V1 & V2 & V3).
  split; [apply Forall_app; split; [done|by constructor]|]. rewrite !not_elem_of_app, !not_elem_of_cons.
  split; [done|]. split; [done|]. by apply (not_in query_byte).
Qed.
Lemma parse_part name v v' :
  Forall (λ c, query_byte c = true) (bytes name) → Forall (λ c, query_byte c = true) v →
  unescape encodeQueryComponent (bytes name) = Ok (bytes name) → unescape encodeQueryComponent v = Ok v' →
  parse_pair (bytes name ++ 61 :: v) = Some (bytes name, v').
Proof.
  intros Hn Hv Un Uv. destruct (part_text name v Hn Hv) as (_ & _ & H59 & H61). unfold parse_pair.
  rewrite (bool_decide_false (59 ∈ _)) by done. rewrite bool_decide_false by (intros [_ [=]]%app_nil).
  cbn [orb]. rewrite cut_app by done. cbn [from_option id]. by rewrite Un, Uv.
Qed.

Lemma query_parts_ok p : Forall (λ l, query_text l ∧ 38 ∉ l) (query_parts p).
Proof.
  unfold query_parts. apply Forall_app. split.
  - destruct (lp_Limit p) as [n|]; constructor; [|constructor].
    destruct (part_text "limit" (bytes (FormatInt n))) as (H1 & H2 & _); [by repeat constructor|apply limit_bytes|done].
  - destruct (lp_PageToken p) as [t|]; constructor; [|constructor].
    destruct (part_text "page_token" (QueryEscape (bytes t))) as (H1 & H2 & _); [by repeat constructor|apply token_bytes|done].
Qed.
Lemma query_of_text params : query_text (query_of params).
Proof.
  unfold query_of. pose proof (query_parts_ok (given params)) as H. revert H. generalize (query_parts (given params)).
  intros l. induction 1 as [|x l [Hx _] H IH]; [constructor|]. destruct l as [|y l]; [done|].
  change (join 38 (x :: y :: l)) with (x ++ 38 :: join 38 (y :: l)). apply Forall_app. split; [done|]. by constructor.
Qed.

Definition query_pairs (p : ListParams) : list (list Z * list Z) :=
  match lp_Limit p with Some n => [(bytes "limit", bytes (FormatInt n))] | None => [] end ++
  match lp_PageToken p with Some t => [(bytes "page_token", bytes t)] | None => [] end.
Lemma Query_parts u params : u_RawQuery u = query_of params → Query u = query_pairs (given params).
Proof.
  intros Hu. unfold Query. rewrite Hu. unfold query_of.
  assert (omap parse_pair (query_parts (given params)) = query_pairs (given params)) as E.
  { unfold query_parts, query_pairs. rewrite omap_app. f_equal.
    - destruct (lp_Limit _) as [n|]; [|done]. cbn [omap list_omap].
      change (bytes "limit=" ++ ?v) with (bytes "limit" ++ 61 :: v).
      by rewrite (parse_part "limit" _ (bytes (FormatInt n))) by (done || apply limit_bytes || apply unescape_number || by repeat constructor).
    - destruct (lp_PageToken _) as [t|]; [|done]. cbn [omap list_omap].
      change (bytes "page_token=" ++ ?v) with (bytes "page_token" ++ 61 :: v).
      by rewrite (parse_part "page_token" _ (bytes t))
        by (done || apply token_bytes || apply unescape_query, bytes_range || by repeat constructor). }
  destruct (query_parts (given params)) as [|x l] eqn:Ep; [by rewrite <- E|].
  rewrite <- Ep in *. rewrite split_join; [done|by rewrite Ep|].
  eapply Forall_impl; [apply query_parts_ok|]. by intros ? [_ ?].
Qed.

Section queries.
Context `{rt : Runtime} {laws : RuntimeLaws rt}.

Lemma list_query_Ok params u : u_RawQuery u = [] → list_query params u = Ok (with_query u (query_of params)).
Proof using laws.
  intros Hu. unfold list_query, query_of.
  destruct params as [[limit token]|]; [|by destruct u; simplify_eq/=].
  cbn [given default from_option id lp_Limit lp_PageToken]. unfold Query. rewrite Hu.
  change (Values_Encode (omap parse_pair (split 38 []))) with (@nil Z). rewrite (bool_decide_false ([] ≠ [])) by (intros []; done).
  pose proof (query_parts_ok (MkListParams limit token)) as Hp. unfold query_parts in *. cbn [lp_Limit lp_PageToken] in *.
  apply Forall_app in Hp as [Hl Ht].
  destruct limit as [n|]; [rewrite style_query_int; apply Forall_cons in Hl as [[_ Hl] _]|]; cbn [mbind result_bind];
    [change (bytes "limit" ++ 61 :: ?v) with (bytes "limit=" ++ v); rewrite split_none by done|];
    (destruct token as [t|]; [rewrite style_query; apply Forall_cons in Ht as [[_ Ht] _]|]; cbn [mbind result_bind];
      [change (bytes "page_token" ++ 61 :: ?v) with (bytes "page_token=" ++ v); rewrite split_none by done|]); done.
Qed.

Lemma bound_query u params :
  u_RawQuery u = query_of params → limit_fits params →
  BindQueryInt "limit" (Query u) = Ok (lp_Limit (given params)) ∧
  BindQueryString "page_token" (Query u) = Ok (lp_PageToken (given params)).
Proof using laws.
  intros Hu Hl. rewrite (Query_parts u params Hu). destruct params as [[[n|] [t|]]|]; cbn [given default from_option id] in *;
    (split; [first [by apply bind_query_int|by apply bind_query_int_absent]|first [by apply bind_query|by apply bind_query_absent]]).
Qed.
End queries.

(** ** The request of a call *)
Definition kinds : list string := ["vpcs"; "subnets"; "instances"].
Definition at_kind (w : string) : list (list Z) := [bytes "v1"; bytes "workspaces"; bytes w].
Definition at_item (w kind : string) : list (list Z) := at_kind w ++ [bytes kind].

Lemma collection_abspath w kind :
  kind ∈ kinds → collection_path (PathEscape (bytes w)) kind = abspath (at_kind w ++ [bytes kind]).
Proof.
  intros Hk. unfold kinds in Hk. rewrite !elem_of_cons in Hk. by destruct Hk as [->|[->|[->|[]%elem_of_nil]]].
Qed.
Lemma item_abspath w kind id :
  kind ∈ kinds → item_path (PathEscape (bytes w)) kind (PathEscape (bytes id)) = abspath (at_item w kind ++ [bytes id]).
Proof.
  intros Hk. unfold item_path. rewrite collection_abspath by done. unfold at_item. rewrite (abspath_app _ [bytes id]).
  unfold abspath at 3. cbn [mbind list_bind]. by rewrite app_nil_r.
Qed.

Lemma plain_kept s : plain_segment s → kept (bytes s) ∧ bool_decide (bytes s = [47]) = false ∧ s ≠ "".
Proof.
  unfold plain_segment. rewrite !not_elem_of_cons. intros (H1 & H2 & H3 & H4 & _).
  assert (∀ t, s ≠ t → bytes s ≠ bytes t) as Hb by (intros t Ht E; by apply Ht, bytes_inj).
  split; [split; [by apply (Hb "")|split; [split; [by apply (Hb ".")|by apply (Hb "..")]|apply bytes_range]]|].
  split; [apply bool_decide_eq_false; by apply (Hb "/")|done].
Qed.
Lemma kept_literal s : s ∈ ["v1"; "workspaces"; "vpcs"; "subnets"; "instances"; "console"; "health"; "version"; "events"] → kept (bytes s).
Proof.
  intros Hs. apply plain_kept. rewrite !elem_of_cons in Hs. unfold plain_segment.
  repeat destruct Hs as [->|Hs]; [by apply (bool_decide_unpack _)..|]. by apply elem_of_nil in Hs.
Qed.
Lemma kept_v1 : Forall kept [bytes "v1"].
Proof. constructor; [apply kept_literal; set_solver|done]. Qed.
Lemma kept_fixed name : name ∈ ["health"; "version"; "events"] → kept (bytes name).
Proof. intros Hn. apply kept_literal. set_solver. Qed.
Lemma kept_kind kind : kind ∈ kinds → kept (bytes kind).
Proof. unfold kinds. intros Hk. apply kept_literal. set_solver. Qed.
Lemma kept_console : kept (bytes "console").
Proof. apply kept_literal. set_solver. Qed.
Lemma instances_kind : "instances" ∈ kinds.
Proof. unfold kinds. set_solver. Qed.
Lemma kept_at_kind w : plain_segment w → Forall kept (at_kind w).
Proof. intros Hw. do 2 (constructor; [apply kept_literal; set_solver|]). constructor; [by apply plain_kept|done]. Qed.
Lemma kept_at_item w kind : plain_segment w → kind ∈ kinds → Forall kept (at_item w kind).
Proof.
  intros Hw Hk. apply Forall_app. split; [by apply kept_at_kind|]. constructor; [|done]. apply kept_literal.
  unfold kinds in Hk. set_solver.
Qed.
Lemma kept_undotted segs : Forall kept segs → Forall undotted (PathEscape <$> segs) ∧ all_bytes segs.
Proof.
  intros H. split; [apply Forall_fmap|]; (eapply Forall_impl; [exact H|]); intros s Hk.
  - simpl. by apply kept_escaped.
  - apply Hk.
Qed.
Lemma resolved_kept segs e : kept e → resolved segs e = segs ++ [e].
Proof. intros (_ & [H1 H2] & _). unfold resolved. by rewrite !bool_decide_false. Qed.

(** The headers before the editor adds the credential. *)
Definition optional_entry (key : string) (v : option string) (hd : Header) : Header :=
  match v with Some v => <[key := [v]]> hd | None => hd end.
Definition create_headers (key : option string) : Header :=
  optional_entry "Idempotency-Key" key (<["Content-Type" := ["application/json"]]> ∅).

Section built.
Context `{rt : Runtime} {laws : RuntimeLaws rt} (h server : list Z) (su : URL).
Context (Hsu : Parse server = Ok su) (Hserver : server_URL h su) (Hh : loopback_host h).
Let h' := removeEmptyPort h.

Definition builds (r : result httpRequest) (m : string) (segs : list (list Z)) (q : list Z) (hd : Header) (body : list Z) : Prop :=
  ∃ u, r = Ok (MkHttpRequest m u (removeEmptyPort h) hd body) ∧ request_URL (host_URL (removeEmptyPort h)) segs q u.

Lemma plain_edit u : u_RawQuery u = [] → @Ok URL u = Ok (with_query u []).
Proof. destruct u. by intros [= ->]. Qed.

Lemma optional_header_Ok name key v req :
  CanonicalHeaderKey name = key →
  optional_header name v req = Ok (with_header (optional_entry key v) req).
Proof using laws.
  intros Hk. unfold optional_header. destruct v as [v|]; [|by destruct req].
  rewrite style_header. cbn [mbind result_bind]. unfold Header_Set. by rewrite Hk, of_bytes_bytes.
Qed.

Lemma plain_built name :
  name ∈ ["health"; "version"; "events"] →
  builds (plain_request "GET" server (bytes "/v1/" ++ bytes name)) "GET" ([bytes "v1"] ++ [bytes name]) [] ∅ [].
Proof using laws Hsu Hserver Hh.
  intros Hn. assert (kept (bytes name)) as Hk by (by apply kept_fixed).
  pose proof kept_v1 as Hv.
  assert (bytes "/v1/" ++ bytes name = abspath ([bytes "v1"] ++ [bytes name])) as ->.
  { clear -Hn. rewrite !elem_of_cons in Hn. by destruct Hn as [->|[->|[->|[]%elem_of_nil]]]. }
  destruct (kept_undotted _ Hv) as [Hu Hb]. unfold plain_request.
  destruct (operation_sent h server su Hsu Hserver Hh "GET" [bytes "v1"] (bytes name) Ok [] []) as (u & -> & HU);
    [done|apply Forall_app; split; [done|constructor; [apply Hk|done]]|done|constructor|apply plain_edit|].
  rewrite resolved_kept in HU by done. by exists u.
Qed.

Lemma list_built w kind params :
  plain_segment w → kind ∈ kinds →
  builds (list_request server w kind params) "GET" (at_kind w ++ [bytes kind]) (query_of params) ∅ [].
Proof using laws Hsu Hserver Hh.
  intros Hw Hkd. assert (kept (bytes kind)) as Hk by (by apply kept_kind).
  destruct (kept_undotted _ (kept_at_kind w Hw)) as [Hu Hb].
  unfold list_request, path_param. rewrite style_path. cbn [mbind result_bind]. rewrite collection_abspath by done.
  destruct (operation_sent h server su Hsu Hserver Hh "GET" (at_kind w) (bytes kind) (list_query params) (query_of params) [])
    as (u & -> & HU);
    [done|apply Forall_app; split; [done|constructor; [apply Hk|done]]|done|apply query_of_text|intros; by apply list_query_Ok|].
  rewrite resolved_kept in HU by done. by exists u.
Qed.

Lemma create_built w kind key body :
  plain_segment w → kind ∈ kinds →
  builds (create_request server w kind key "application/json" body) "POST" (at_kind w ++ [bytes kind]) [] (create_headers key) body.
Proof using laws Hsu Hserver Hh.
  intros Hw Hkd. assert (kept (bytes kind)) as Hk by (by apply kept_kind).
  destruct (kept_undotted _ (kept_at_kind w Hw)) as [Hu Hb].
  unfold create_request, path_param. rewrite style_path. cbn [mbind result_bind]. rewrite collection_abspath by done.
  destruct (operation_sent h server su Hsu Hserver Hh "POST" (at_kind w) (bytes kind) Ok [] body) as (u & -> & HU);
    [done|apply Forall_app; split; [done|constructor; [apply Hk|done]]|done|constructor|apply plain_edit|].
  cbn [mbind result_bind]. rewrite (optional_header_Ok _ "Idempotency-Key") by done.
  rewrite resolved_kept in HU by done. by exists u.
Qed.

(** An item's request goes to where the client resolves its path. *)
Lemma item_built m w kind id :
  plain_segment w → kind ∈ kinds →
  builds (item_request m server w kind id "") m (resolved (at_item w kind) (bytes id)) [] ∅ [].
Proof using laws Hsu Hserver Hh.
  intros Hw Hkd. destruct (kept_undotted _ (kept_at_item w kind Hw Hkd)) as [Hu Hb].
  unfold item_request, path_param. rewrite !style_path. cbn [mbind result_bind].
  rewrite app_nil_r, item_abspath by done.
  destruct (operation_sent h server su Hsu Hserver Hh m (at_item w kind) (bytes id) Ok [] []) as (u & -> & HU);
    [done|apply Forall_app; split; [done|constructor; [apply bytes_range|done]]|done|constructor|apply plain_edit|].
  by exists u.
Qed.
Lemma console_built w id :
  plain_segment w → plain_segment id →
  builds (item_request "GET" server w "instances" id "/console") "GET"
    ((at_item w "instances" ++ [bytes id]) ++ [bytes "console"]) [] ∅ [].
Proof using laws Hsu Hserver Hh.
  intros Hw Hid. pose proof instances_kind as Hkd.
  assert (Forall kept (at_item w "instances" ++ [bytes id])) as Hk.
  { apply Forall_app. split; [by apply kept_at_item|]. constructor; [by apply plain_kept|done]. }
  pose proof kept_console as Hc.
  destruct (kept_undotted _ Hk) as [Hu Hb].
  unfold item_request, path_param. rewrite !style_path. cbn [mbind result_bind]. rewrite item_abspath by done.
  change (bytes "/console") with (abspath [bytes "console"]). rewrite <- abspath_app.
  destruct (operation_sent h server su Hsu Hserver Hh "GET" (at_item w "instances" ++ [bytes id]) (bytes "console") Ok [] [])
    as (u & -> & HU);
    [done|apply Forall_app; split; [done|constructor; [apply Hc|done]]|done|constructor|apply plain_edit|].
  rewrite resolved_kept in HU by done. by exists u.
Qed.
End built.

(** ** Delivery *)
Lemma trim_left_id l : (∀ c, head l = Some c → c ≠ 32 ∧ c ≠ 9) → trim_left l = l.
Proof.
  destruct l as [|c l]; [done|]. intros H. destruct (H c eq_refl) as [H1 H2]. simpl.
  by rewrite (proj2 (Z.eqb_neq _ _) H1), (proj2 (Z.eqb_neq _ _) H2).
Qed.
Lemma bearer_value token : visible token → token ≠ "" → header_value ("Bearer " +:+ token).
Proof.
  intros Hv Hne. unfold header_value, ValidHeaderFieldValue, TrimString. rewrite bytes_app. split.
  - rewrite forallb_app. apply andb_true_iff. split; [done|]. apply forallb_Forall. eapply Forall_impl; [exact Hv|].
    intros c Hc. simpl in Hc. unfold is_ctl. rewrite (proj2 (Z.ltb_ge _ _)), (proj2 (Z.eqb_neq c 127)) by lia. done.
  - rewrite (trim_left_id (bytes "Bearer " ++ _)) by (intros c [= <-]; done).
    destruct (exists_last (l := bytes token)) as (z & w & E); [intros E; by apply Hne, bytes_inj|].
    rewrite trim_left_id, reverse_involutive, <- bytes_app, of_bytes_bytes; [done|].
    rewrite E, app_assoc, reverse_app. intros c [= <-]. unfold visible in Hv. rewrite E in Hv.
    apply Forall_app in Hv as [_ Hw]. apply Forall_cons in Hw as [Hw _]. simpl in Hw. lia.
Qed.

Lemma loopback_is_bytes h : loopback_host h → bytes (of_bytes h) = h.
Proof.
  intros Hl. apply bytes_of_bytes. destruct (target_host h Hl) as [Ht _]. eapply Forall_impl; [exact Ht|].
  intros c Hc. unfold target_byte in Hc. reflect_bools. unfold is_byte. lia.
Qed.
Lemma loopback_local h : loopback_host h → h ≠ bytes "[::1]" → local_host (of_bytes h).
Proof.
  intros Hl Hne. pose proof (loopback_is_bytes h Hl) as Hb. destruct Hl as (name & port & -> & Hn & Hp).
  unfold loopback_names in Hn. rewrite !elem_of_cons in Hn. unfold local_host. rewrite Hb.
  destruct port as [|c ds].
  - rewrite app_nil_r in *. destruct Hn as [->|[->|[->|[]%elem_of_nil]]]; [..|done];
      [exists "localhost"|exists "127.0.0.1"]; (split; [unfold local_names; set_solver|by left]).
  - simpl in Hp. apply andb_true_iff in Hp as [->%Z.eqb_eq Hd].
    assert (plain_text ds ∧ 58 ∉ ds) as [Hpt H58] by (split; [split|]; by apply digits_no).
    destruct Hn as [->|[->|[->|[]%elem_of_nil]]];
      [exists "localhost"|exists "127.0.0.1"|exists "::1"]; (split; [unfold local_names; set_solver|]); right; exists ds;
      (split; [done|]); (split; [done|]); (split; [by apply (bool_decide_unpack _)|]); [left|left|by right];
      (split; [by apply (bool_decide_unpack _)|done]).
Qed.

Definition good_headers (hd : Header) : Prop :=
  hd !! "Authorization" = None ∧ hd !! "Origin" = None ∧ map_Forall (λ _ vs, Forall header_value vs) hd.
Lemma good_optional key v hd :
  key ≠ "Authorization" → key ≠ "Origin" → optional_value v → good_headers hd → good_headers (optional_entry key v hd).
Proof.
  intros H1 H2 Hv (Ha & Ho & Hf). destruct v as [v|]; [|done]. unfold good_headers, optional_entry.
  rewrite !lookup_insert_ne by done. split; [done|]. split; [done|]. apply map_Forall_insert_2; [by constructor|done].
Qed.
Lemma good_empty : good_headers ∅.
Proof. split; [done|]. split; [done|]. apply map_Forall_empty. Qed.
Lemma good_create key : optional_value key → good_headers (create_headers key).
Proof.
  intros Hk. apply good_optional; [done..|]. apply (good_optional "Content-Type" (Some "application/json")); [done..| |apply good_empty].
  by vm_compute.
Qed.

(** What the server makes of a request that was built, edited and sent. *)
Definition arrival (token : string) (r : result httpRequest) : result serverRequest :=
  req ← r; req' ← run_editors [bearer token] req; transmit req'.

Lemma trimmed_headers (hd : Header) : map_Forall (λ _ vs, Forall header_value vs) hd → List.map TrimString <$> hd = hd.
Proof.
  intros H. apply map_eq. intros k. rewrite lookup_fmap. destruct (hd !! k) as [vs|] eqn:E; [|done]. cbn. f_equal.
  specialize (H k vs E). simpl in H. clear E. induction H as [|v vs [_ Hv] Hs IH]; [done|]. cbn. by rewrite Hv, IH.
Qed.

Section delivery.
Context `{rt : Runtime} (isRequired : error → bool) (h : list Z) (token : string).
Context (Hh : loopback_host h) (Hv : visible token) (Ht : token ≠ "").

Lemma arrived r m segs q hd body :
  builds h r m segs q hd body → segs ≠ [] → all_bytes segs → query_text q → good_headers hd →
  ∃ u, arrival token r = Ok (MkServerRequest m u (of_bytes (removeEmptyPort h))
                               (<["Authorization" := ["Bearer " +:+ token]]> hd) body) ∧ request_URL zero_URL segs q u.
Proof using Hh Hv Ht.
  intros (u & -> & HU) Hne Hb Hq (Ha & Ho & Hf). unfold arrival. cbn [mbind result_bind run_editors bearer].
  unfold with_header. cbn [hr_Method hr_URL hr_Host hr_Header hr_Body].
  change (Header_Set "Authorization" ("Bearer " +:+ token) hd) with (<["Authorization" := ["Bearer " +:+ token]]> hd).
  assert (map_Forall (λ _ vs, Forall header_value vs) (<["Authorization" := ["Bearer " +:+ token]]> hd)) as Hg.
  { apply map_Forall_insert_2; [constructor; [by apply bearer_value|done]|done]. }
  destruct (transmitted m (removeEmptyPort h) segs q u (<["Authorization" := ["Bearer " +:+ token]]> hd) body) as (u' & -> & HU'); [done..| |].
  { eapply map_Forall_impl; [exact Hg|]. intros k vs Hvs. simpl in *. induction Hvs as [|v vs [H _] _ IH]; [done|].
    cbn. by rewrite H, IH. }
  rewrite trimmed_headers by done. by exists u'.
Qed.

Lemma admitted m u hd body :
  good_headers hd → removeEmptyPort h ≠ bytes "[::1]" →
  let r := MkServerRequest m u (of_bytes (removeEmptyPort h)) (<["Authorization" := ["Bearer " +:+ token]]> hd) body in
  New isRequired token r = routes isRequired r.
Proof using Hh Hv Ht.
  intros (Ha & Ho & _) Hne r. unfold New. cbn [r sr_Host sr_Header sr_URL].
  rewrite (proj2 (localOnly_passes _ _)); [rewrite (proj2 (requireBearer_passes _ _ _))|]; [done|right..|].
  - split; [done|]. unfold Header_Get. change (CanonicalHeaderKey "Authorization") with "Authorization".
    by rewrite lookup_insert_eq.
  - split; [by apply loopback_local; [apply loopback_removeEmptyPort|]|]. unfold Header_Get.
    change (CanonicalHeaderKey "Origin") with "Origin". by rewrite lookup_insert_ne, Ho.
Qed.
End delivery.

(** ** Every operation reaches its handler *)
Section reach.
Context `{rt : Runtime} {laws : RuntimeLaws rt} (isRequired : error → bool) (h server : list Z) (su : URL) (token : string).
Context (Hsu : Parse server = Ok su) (Hserver : server_URL h su) (Hh : loopback_host h).
Context (Hv : visible token) (Ht : token ≠ "").

Definition refused_host : Response :=
  MkResponse 403 (BError (MkErrorBody "AccessDenied" "non-local host or browser origin rejected" None)).

(** A built request is sent, and the server's answer is the given one unless the
    host is [::1] without a port. *)
Definition reaches (r : result httpRequest) (a : answer) (body : option (list Z)) : Prop :=
  ∃ req sreq, (x ← r; run_editors [bearer token] x) = Ok req ∧ transmit req = Ok sreq ∧
    sr_Host sreq = of_bytes (removeEmptyPort h) ∧
    New isRequired token sreq = (if sr_Host sreq ==? "[::1]" then Refused refused_host else a) ∧
    match body with
    | Some b => sr_Body sreq = b ∧ Header_Get "Content-Type" (sr_Header sreq) = "application/json"
    | None => True
    end.

Lemma reach_intro r m segs q hd b body a :
  builds h r m segs q hd b → segs ≠ [] → all_bytes segs → query_text q → good_headers hd →
  match body with Some b' => b = b' ∧ hd !! "Content-Type" = Some ["application/json"] | None => True end →
  (∀ sreq, sr_Method sreq = m → request_URL zero_URL segs q (sr_URL sreq) →
     sr_Header sreq = <["Authorization" := ["Bearer " +:+ token]]> hd → routes isRequired sreq = a) →
  reaches r a body.
Proof using Hh Hv Ht.
  intros HB Hne Hb Hq Hg Hbody Ha.
  destruct (arrived h token Hh Hv Ht r m segs q hd b HB Hne Hb Hq Hg) as (u & Harr & HU).
  unfold arrival in Harr. destruct r as [x|]; [|done]. cbn [mbind result_bind] in *.
  destruct (run_editors [bearer token] x) as [req|] eqn:Hr; [|done]. cbn [mbind result_bind] in Harr.
  exists req, (MkServerRequest m u (of_bytes (removeEmptyPort h)) (<["Authorization" := ["Bearer " +:+ token]]> hd) b).
  split; [done|]. split; [done|]. split; [done|]. split.
  - cbn [sr_Host]. destruct (of_bytes (removeEmptyPort h) ==? "[::1]") eqn:E; reflect_bools.
    + unfold New. cbn [sr_Host sr_Header]. rewrite E. unfold Header_Get. change (CanonicalHeaderKey "Origin") with "Origin".
      rewrite lookup_insert_ne by done. destruct Hg as (_ & -> & _). done.
    + rewrite admitted by (done || intros E'; apply E; by rewrite E'). by apply Ha.
  - cbn [sr_Body sr_Header]. destruct body as [b'|]; [|done]. destruct Hbody as [-> Hc]. split; [done|].
    unfold Header_Get. change (CanonicalHeaderKey "Content-Type") with "Content-Type". by rewrite lookup_insert_ne, Hc.
Qed.

Lemma reach_route r m segs e q hd b body hh matches call :
  builds h r m (segs ++ [e]) q hd b → Forall kept segs → segs ≠ [] → kept e → query_text q → good_headers hd → m ≠ "CONNECT" →
  match body with Some b' => b = b' ∧ hd !! "Content-Type" = Some ["application/json"] | None => True end →
  find_route m (segs ++ [e]) (HandlerWithOptions isRequired) = Some (hh, matches) →
  (∀ sreq, u_RawQuery (sr_URL sreq) = q → sr_Header sreq = <["Authorization" := ["Bearer " +:+ token]]> hd →
     hh sreq matches = inr call) →
  reaches r (Handled call) body.
Proof using Hh Hv Ht.
  intros HB Hs Hne He Hq Hg Hm Hbody Hf Hc. destruct (kept_undotted segs Hs) as [_ Hb].
  eapply reach_intro; [exact HB|by intros [_ [=]]%app_nil| |done..|].
  { apply Forall_app. split; [done|]. constructor; [apply He|done]. }
  intros sreq Hmm (raw & Eu & HE) Hhd. eapply routed; [exact HE|done..| | |].
  - by rewrite Hmm.
  - by rewrite Hmm.
  - apply Hc; [by rewrite Eu|done].
Qed.
Lemma reach_list w kind params sv :
  plain_segment w → kind ∈ kinds → limit_fits params →
  find_route "GET" (at_kind w ++ [bytes kind]) (HandlerWithOptions isRequired)
    = Some (λ r m, list_params isRequired r m sv, [("workspace", bytes w)]) →
  reaches (list_request server w kind params) (Handled (sv w (given params))) None.
Proof using All.
  intros Hw Hk Hl Hf. eapply reach_route; [by eapply list_built|by apply kept_at_kind|done|
    by apply kept_kind|apply query_of_text|apply good_empty|done|done|exact Hf|].
  intros sreq Hq _. destruct (bound_query (sr_URL sreq) params Hq Hl) as [H1 H2]. cbv beta.
  rewrite (bound_list _ _ _ _ _ _ (proj2 (proj2 (plain_kept w Hw))) H1 H2). by destruct (given params).
Qed.
Lemma reach_create w kind key b sv :
  plain_segment w → kind ∈ kinds → optional_value key →
  find_route "POST" (at_kind w ++ [bytes kind]) (HandlerWithOptions isRequired)
    = Some (λ r m, create_params r m sv, [("workspace", bytes w)]) →
  reaches (create_request server w kind key "application/json" b) (Handled (sv w key)) (Some b).
Proof using All.
  intros Hw Hk Hkey Hf. eapply reach_route; [by eapply create_built|by apply kept_at_kind|done|
    by apply kept_kind|constructor|by apply good_create|done| |exact Hf|].
  - split; [done|]. unfold create_headers, optional_entry. destruct key; [by rewrite lookup_insert_ne, lookup_insert_eq|].
    by rewrite lookup_insert_eq.
  - intros sreq _ Hhd. cbv beta. apply bound_create; [apply (plain_kept w Hw)|]. rewrite Hhd.
    unfold create_headers, optional_entry. rewrite lookup_insert_ne by done.
    destruct key; [by rewrite lookup_insert_eq|]. by rewrite lookup_insert_ne.
Qed.
Lemma reach_item m w kind id sv :
  plain_segment w → plain_segment id → kind ∈ kinds → m ≠ "CONNECT" →
  find_route m (at_item w kind ++ [bytes id]) (HandlerWithOptions isRequired)
    = Some (λ _ m, item_params m sv, [("workspace", bytes w); ("id", bytes id)]) →
  reaches (item_request m server w kind id "") (Handled (sv w id)) None.
Proof using All.
  intros Hw Hid Hk Hm Hf. destruct (plain_kept id Hid) as (Kid & _ & Nid), (plain_kept w Hw) as (_ & _ & Nw).
  eapply reach_route; [rewrite <- (resolved_kept (at_item w kind)) by done; by eapply item_built|by apply kept_at_item|
    done|done|constructor|apply good_empty|done|done|exact Hf|].
  intros sreq _ _. by apply bound_item.
Qed.
Lemma reach_console w id :
  plain_segment w → plain_segment id →
  reaches (item_request "GET" server w "instances" id "/console") (Handled (SvGetInstanceConsole w id)) None.
Proof using All.
  intros Hw Hid. destruct (plain_kept id Hid) as (Kid & Bid & Nid), (plain_kept w Hw) as (_ & Bw & Nw).
  pose proof instances_kind as Hk.
  eapply reach_route; [by eapply console_built| |done|apply kept_console|constructor|apply good_empty|done|done
    |apply (find_items isRequired _ _ Bw Bid)|].
  - apply Forall_app. split; [by apply kept_at_item|by constructor].
  - intros sreq _ _. by apply bound_item.
Qed.

(** An identifier that is no plain segment reaches no handler. *)
Lemma odd_unrouted m w kind id :
  plain_segment w → kind ∈ kinds → m ≠ "CONNECT" → id ∈ [""; "."; ".."; "/"] →
  reaches (item_request m server w kind id "") (Plain 404) None.
Proof using All.
  intros Hw Hk Hm Hid. destruct (unmatched_items isRequired (bytes w) kind Hk) as [U1 U2].
  pose proof (kept_at_item w kind Hw Hk) as Hitem. pose proof (kept_at_kind w Hw) as Hkind.
  assert (∃ segs e, resolved (at_item w kind) (bytes id) = segs ++ [e] ∧ Forall kept segs ∧ segs ≠ [] ∧ (e = [] ∨ kept e) ∧
            unmatched isRequired (segs ++ [if bool_decide (e = []) then [47] else e])) as (segs & e & Er & Hs & Hne & He & Hu).
  { assert (kept [47]) as K by (split; [done|split; [done|constructor; [unfold is_byte; lia|done]]]).
    rewrite !elem_of_cons in Hid. destruct Hid as [->|[->|[->|[->|[]%elem_of_nil]]]].
    - exists (at_item w kind), []. split; [done|]. split; [done|]. split; [done|]. split; [by left|exact U1].
    - exists (at_item w kind), []. split; [done|]. split; [done|]. split; [done|]. split; [by left|exact U1].
    - exists (at_kind w), []. split; [done|]. split; [done|]. split; [done|]. split; [by left|exact U2].
    - exists (at_item w kind), [47]. split; [done|]. split; [done|]. split; [done|]. split; [by right|exact U1]. }
  eapply reach_intro; [by eapply item_built|..|constructor|apply good_empty|done|].
  - rewrite Er. by intros [_ [=]]%app_nil.
  - apply resolved_ok; [done|by apply kept_undotted|apply bytes_range].
  - intros sreq Hmm (raw & Eu & HE) _. rewrite Er in HE. eapply unrouted; [exact HE|done..| |exact Hu]. by rewrite Hmm.
Qed.
End reach.

(** The request is sent to the host, and the server answers it as given; to [::1]
    without a port it answers 403. *)
Definition answered `{rt : Runtime} (isRequired : error → bool) (token : string) (host : list Z) (r : result httpRequest)
    (a : answer) (body : option (list Z)) : Prop :=
  ∃ req sreq, r = Ok req ∧ transmit req = Ok sreq ∧ sr_Host sreq = of_bytes (removeEmptyPort host) ∧
    New isRequired token sreq = (if sr_Host sreq ==? "[::1]" then Refused refused_host else a) ∧
    match body with
    | Some b => sr_Body sreq = b ∧ Header_Get "Content-Type" (sr_Header sreq) = "application/json"
    | None => True
    end.

Lemma reaches_answered `{rt : Runtime} isRequired token host api build a body :
  gc_RequestEditors api = [bearer token] → reaches isRequired host token (build (gc_Server api)) a body →
  answered isRequired token host (prepared api build []) a body.
Proof.
  intros He (req & sreq & Hr & Hreq). exists req, sreq. split; [|exact Hreq]. unfold prepared, applyEditors. rewrite He.
  destruct (build (gc_Server api)) as [x|]; [|done]. cbn [mbind result_bind] in *. rewrite Hr. done.
Qed.

(** The operations on one resource. *)
Definition item_calls : list (string → string → clientCall) :=
  [CallGetVpc; CallDeleteVpc; CallGetSubnet; CallDeleteSubnet; CallGetInstance; CallTerminateInstance].

Section main.
Context `{rt : Runtime} {laws : RuntimeLaws rt} (isRequired : error → bool) (token : string) (host : list Z) (api : GenClient) (su : URL).
Context (Hsu : Parse (gc_Server api) = Ok su) (Hserver : server_URL host su) (Hh : loopback_host host).
Context (Hv : visible token) (Ht : token ≠ "") (He : gc_RequestEditors api = [bearer token]).

Lemma fixed_reaches name sv :
  name ∈ ["health"; "version"; "events"] →
  find_route "GET" ([bytes "v1"] ++ [bytes name]) (HandlerWithOptions isRequired) = Some (λ _ _, inr sv, []) →
  reaches isRequired host token (plain_request "GET" (gc_Server api) (bytes "/v1/" ++ bytes name)) (Handled sv) None.
Proof using All.
  intros Hn Hf. eapply (reach_route isRequired host token); [done..|by eapply plain_built|apply kept_v1|done|by apply kept_fixed|
    constructor|apply good_empty|done|done|exact Hf|done].
Qed.
Lemma events_reach last :
  optional_value last → reaches isRequired host token (NewGetEventsRequest (gc_Server api) last) (Handled (SvGetEvents last)) None.
Proof using All.
  intros Hl. assert ("events" ∈ ["health"; "version"; "events"]) as Hn by (clear; set_solver).
  assert (builds host (NewGetEventsRequest (gc_Server api) last) "GET" ([bytes "v1"] ++ [bytes "events"]) []
            (optional_entry "Last-Event-Id" last ∅) []) as HB.
  { destruct (plain_built host (gc_Server api) su Hsu Hserver Hh "events" Hn) as (u & E & HU). unfold NewGetEventsRequest.
    change (bytes "/v1/events") with (bytes "/v1/" ++ bytes "events"). rewrite E. cbn [mbind result_bind].
    rewrite (optional_header_Ok _ "Last-Event-Id") by done. by exists u. }
  eapply (reach_route isRequired host token); [done..|exact HB|apply kept_v1|done|by apply kept_fixed|constructor| |done|done
    |apply (find_fixed isRequired)|].
  - apply good_optional; [done..|apply good_empty].
  - intros sreq _ Hhd. apply (bound_header sreq "Last-Event-ID" last (λ last, inr (SvGetEvents last))).
    change (CanonicalHeaderKey "Last-Event-ID") with "Last-Event-Id". rewrite Hhd, lookup_insert_ne by done.
    unfold optional_entry. destruct last; [by rewrite lookup_insert_eq|done].
Qed.

Lemma sendable_reaches call :
  sendable call → answered isRequired token host (Client_request api call []) (Handled (received call)) (call_body call).
Proof using All.
  assert ("vpcs" ∈ kinds ∧ "subnets" ∈ kinds ∧ "instances" ∈ kinds) as (K1 & K2 & K3) by (clear; unfold kinds; set_solver).
  assert ("health" ∈ ["health"; "version"; "events"] ∧ "version" ∈ ["health"; "version"; "events"]) as [N1 N2] by (clear; set_solver).
  assert ("GET" ≠ "CONNECT" ∧ "DELETE" ≠ "CONNECT") as [M1 M2] by done.
  pose proof (find_fixed isRequired) as (F1 & F2 & _).
  assert (∀ w, plain_segment w → bool_decide (bytes w = [47]) = false) as Hb by (intros w Hw; by apply plain_kept).
  destruct call as [last| | |w p|w k n s|w id|w id|w id|w p|w k n v c z|w id|w id|w p|w k n c|w id|w id];
    intros Hs; cbn [sendable] in Hs; apply (reaches_answered isRequired token host api _ _ _ He); cbn [received call_body].
  - by apply events_reach.
  - exact (fixed_reaches "health" SvGetHealth N1 F1).
  - exact (fixed_reaches "version" SvGetVersion N2 F2).
  - destruct Hs as [Hw Hs]. destruct (find_kinds isRequired (bytes w) (Hb w Hw)) as (_ & _ & L & _).
    exact (reach_list isRequired host (gc_Server api) su token Hsu Hserver Hh Hv Ht w "instances" p SvListInstances Hw K3 Hs L).
  - destruct Hs as [Hw Hs]. destruct (find_kinds isRequired (bytes w) (Hb w Hw)) as (_ & _ & _ & _ & _ & L).
    exact (reach_create isRequired host (gc_Server api) su token Hsu Hserver Hh Hv Ht w "instances" k (rq_body (RunInstanceRequest n s)) SvRunInstance Hw K3 Hs L).
  - destruct Hs as [Hw Hs]. destruct (find_items isRequired (bytes w) (bytes id) (Hb w Hw) (Hb id Hs)) as (_ & _ & _ & _ & _ & L & _).
    exact (reach_item isRequired host (gc_Server api) su token Hsu Hserver Hh Hv Ht "DELETE" w "instances" id SvTerminateInstance Hw Hs K3 M2 L).
  - destruct Hs as [Hw Hs]. destruct (find_items isRequired (bytes w) (bytes id) (Hb w Hw) (Hb id Hs)) as (_ & _ & _ & _ & L & _).
    exact (reach_item isRequired host (gc_Server api) su token Hsu Hserver Hh Hv Ht "GET" w "instances" id SvGetInstance Hw Hs K3 M1 L).
  - destruct Hs as [Hw Hs]. exact (reach_console isRequired host (gc_Server api) su token Hsu Hserver Hh Hv Ht w id Hw Hs).
  - destruct Hs as [Hw Hs]. destruct (find_kinds isRequired (bytes w) (Hb w Hw)) as (_ & L & _).
    exact (reach_list isRequired host (gc_Server api) su token Hsu Hserver Hh Hv Ht w "subnets" p SvListSubnets Hw K2 Hs L).
  - destruct Hs as [Hw Hs]. destruct (find_kinds isRequired (bytes w) (Hb w Hw)) as (_ & _ & _ & _ & L & _).
    exact (reach_create isRequired host (gc_Server api) su token Hsu Hserver Hh Hv Ht w "subnets" k (rq_body (CreateSubnetRequest n v c z)) SvCreateSubnet Hw K2 Hs L).
  - destruct Hs as [Hw Hs]. destruct (find_items isRequired (bytes w) (bytes id) (Hb w Hw) (Hb id Hs)) as (_ & _ & _ & L & _).
    exact (reach_item isRequired host (gc_Server api) su token Hsu Hserver Hh Hv Ht "DELETE" w "subnets" id SvDeleteSubnet Hw Hs K2 M2 L).
  - destruct Hs as [Hw Hs]. destruct (find_items isRequired (bytes w) (bytes id) (Hb w Hw) (Hb id Hs)) as (_ & _ & L & _).
    exact (reach_item isRequired host (gc_Server api) su token Hsu Hserver Hh Hv Ht "GET" w "subnets" id SvGetSubnet Hw Hs K2 M1 L).
  - destruct Hs as [Hw Hs]. destruct (find_kinds isRequired (bytes w) (Hb w Hw)) as (L & _).
    exact (reach_list isRequired host (gc_Server api) su token Hsu Hserver Hh Hv Ht w "vpcs" p SvListVpcs Hw K1 Hs L).
  - destruct Hs as [Hw Hs]. destruct (find_kinds isRequired (bytes w) (Hb w Hw)) as (_ & _ & _ & L & _).
    exact (reach_create isRequired host (gc_Server api) su token Hsu Hserver Hh Hv Ht w "vpcs" k (rq_body (CreateVpcRequest n c)) SvCreateVpc Hw K1 Hs L).
  - destruct Hs as [Hw Hs]. destruct (find_items isRequired (bytes w) (bytes id) (Hb w Hw) (Hb id Hs)) as (_ & L & _).
    exact (reach_item isRequired host (gc_Server api) su token Hsu Hserver Hh Hv Ht "DELETE" w "vpcs" id SvDeleteVpc Hw Hs K1 M2 L).
  - destruct Hs as [Hw Hs]. destruct (find_items isRequired (bytes w) (bytes id) (Hb w Hw) (Hb id Hs)) as (L & _).
    exact (reach_item isRequired host (gc_Server api) su token Hsu Hserver Hh Hv Ht "GET" w "vpcs" id SvGetVpc Hw Hs K1 M1 L).
Qed.

Lemma odd_reaches w id :
  plain_segment w → id ∈ [""; "."; ".."; "/"] →
  Forall (λ call, answered isRequired token host (Client_request api (call w id) []) (Plain 404) None) item_calls.
Proof using All.
  intros Hw Hid.
  assert ("vpcs" ∈ kinds ∧ "subnets" ∈ kinds ∧ "instances" ∈ kinds) as (K1 & K2 & K3) by (clear; unfold kinds; set_solver).
  repeat (constructor; [apply (reaches_answered isRequired token host api _ _ _ He);
    by apply (odd_unrouted isRequired host (gc_Server api) su token)|]). constructor.
Qed.
End main.


(** A runtime as its documentation describes it. *)
Definition sample_runtime : Runtime := {|
  StyleParamWithOptions := λ _ _ name v loc,
    match v, loc with
    | PString s, ParamLocationPath => Ok (PathEscape (bytes s))
    | PString s, ParamLocationHeader => Ok (bytes s)
    | PString s, ParamLocationQuery => Ok (bytes name ++ 61 :: QueryEscape (bytes s))
    | PInt n, _ => Ok (bytes name ++ 61 :: bytes (FormatInt n))
    end;
  BindStyledParameterWithOptions := λ _ _ value _ required _,
    if required && bool_decide (value = []) then Err (Errorf (lit "parameter is empty")) else Ok (of_bytes value);
  BindQueryString := λ name q,
    match values name q with
    | [] => Ok None | [v] => Ok (Some (of_bytes v)) | _ => Err (Errorf (lit "multiple values"))
    end;
  BindQueryInt := λ name q,
    match values name q with
    | [] => Ok None
    | [v] => match ParseInt (of_bytes v) with Some n => Ok (Some n) | None => Err (Errorf (lit "not an integer")) end
    | _ => Err (Errorf (lit "multiple values"))
    end
|}.
#[export] Instance sample_laws : RuntimeLaws sample_runtime.
Proof.
  split; intros; cbn; try done.
  - rewrite of_bytes_bytes. rewrite bool_decide_false; [done|]. intros E. by apply H, bytes_inj.
  - by rewrite of_bytes_bytes.
  - by rewrite H.
  - by rewrite H, of_bytes_bytes.
  - by rewrite H.
  - by rewrite H0, of_bytes_bytes, ParseInt_FormatInt.
Qed.

Definition sample_token : string := b64_EncodeToString (repeat 7 32).
Definition sample_files (path : string) : result file :=
  if path ==? "/home/user/.nephos/credentials" then Ok (MkFile true 384 43 (Ok sample_token)) else Err (ErrIO "not found").
Definition sample_client : GenClient :=
  MkGenClient (bytes "http://127.0.0.1:7788/") [bearer sample_token].
Definition sample_config : resourceConfig :=
  MkResourceConfig defaultEndpoint "/home/user/.nephos/credentials" (500 * 10 ^ 6).

