(* ===== verification/Cli.v ===== *)
(** The resource commands of the CLI: [cmd/nephos/network_client.go],
    [network_wait.go], [instance_client.go], [network.go] and [instance.go].

    A command talks to the daemon through a link that decides, for the n-th thing
    it does, what other clients and the reconcilers did before ([k_others]), the
    clock, entropy and database faults of the daemon ([k_env]), which services are
    up ([k_server]), what becomes of the request ([k_fate]), the contexts and
    pauses ([k_ctx], [k_wait], [k_pause]) and the random source ([k_random]).  A
    request goes through the boundary of the API server into its handler, and its
    response through the generated client; [c_log] lists the requests the daemon
    handled, each with the database before and after it. *)

From S2P Require Import Prelude Errors GoStrings Encodings Utf8 NetIP Validate Model Json Snapshot.
From S2P Require Import Schema Tx Store Idempotency NetworkService InstanceService System Api Client.
Local Open Scope Z_scope.

(** A request may be lost on its way or on its way back, or be answered by an
    intermediary. *)
Inductive fate :=
  | Delivered
  | Failed (reached : bool) (e : error)
  | Gateway (reached : bool) (status : Z).

Record Link := MkLink {
  k_others : nat → list op;
  k_env : nat → Env;
  k_server : nat → server;
  k_token : string;
  k_fate : nat → fate;
  k_ctx : nat → option error;
  k_wait : nat → option error;
  k_pause : nat → option error;
  k_random : nat → result (list Z)
}.

Record Session := MkSession { c_db : DB; c_time : nat; c_log : list (DB * Response * DB) }.
Definition Cmd (A : Type) : Type := Session → A * Session.
#[export] Instance Cmd_ret : MRet Cmd := λ A a w, (a, w).
#[export] Instance Cmd_bind : MBind Cmd := λ A B f m w, let '(a, w') := m w in f a w'.

(** A loop that ran out of its bound returns [None]. *)
Definition ok {A} (a : A) : Cmd (option (result A)) := mret (Some (Ok a)).
Definition fails {A} (e : error) : Cmd (option (result A)) := mret (Some (Err e)).
Definition try {A B} (m : Cmd (option (result A))) (f : A → Cmd (option (result B))) : Cmd (option (result B)) :=
  r ← m; match r with Some (Ok a) => f a | Some (Err e) => fails e | None => mret None end.

(** What [newResourceClient] makes of the configuration: the Host header and the
    credential. *)
Record resourceClient := MkClient { cl_host : string; cl_token : string }.

Section link.
Context (lk : Link) (api : resourceClient).

(** Something the command looks at. *)
Definition observe {A} (f : nat → A) : Cmd A := λ w,
  (f (c_time w), MkSession (c_db w) (S (c_time w)) (c_log w)).

Definition send {A} (path : string) (handler : server → Env → DB → Outcome)
    (parse : HTTPResponse → result (ClientResponse A)) : Cmd (result (ClientResponse A)) := λ w,
  let n := c_time w in
  let d := execute_all (k_others lk n) (c_db w) in
  let headers := MkHeaders (cl_host api) "" ("Bearer " +:+ cl_token api) path in
  let '(r, d', _) := boundary (k_token lk) headers (handler (k_server lk n) (k_env lk n)) d in
  let arrives (reached : bool) := if reached then MkSession d' (S n) (c_log w ++ [(d, r, d')])
                                  else MkSession d (S n) (c_log w) in
  match k_fate lk n with
  | Delivered => (parse (wire r), arrives true)
  | Failed reached e => (Err e, arrives reached)
  | Gateway reached status => (parse (MkHTTPResponse status "text/html" []), arrives reached)
  end.

(** [pollPause] and [retryDelay] wait for a timer or the context. *)
Definition pollPause : Cmd (option error) := observe (k_pause lk).
Definition retryDelay : Cmd (option error) := observe (k_pause lk).

Definition DeadlineExceeded : error := ErrIO "context deadline exceeded".
Definition waitError (id timeout : string) : Cmd error :=
  parent ← observe (k_ctx lk);
  match parent with
  | Some e => mret (Wrapf (Sprintf "waiting for %s: %w" [id]) e)
  | None =>
      e ← observe (k_wait lk);
      mret (if bool_decide (e = Some DeadlineExceeded)
            then Errorf (Sprintf "waiting for %s timed out after %s" [id; timeout])
            else Wrapf (Sprintf "waiting for %s: %w" [id]) (default (ErrIO "%!w(<nil>)") e))
  end.

(** ** Resources

    [resolveVPC], [resolveSubnet] and [resolveInstance], and the wait functions, are
    the same code for three types. *)
Class Resource (A : Type) := {
  res_kind : string;
  res_path : string;
  res_prefix : string;
  res_zero : A;
  res_id : A → string;
  res_name : A → string;
  res_state : A → string;
  res_reason : A → string;
  res_ready : string;
  res_body : A → Body;
  res_page : Page A → Body;
  res_get : server → Env → string → string → DB → Outcome;
  res_list : server → Env → string → option Z → option string → DB → Outcome;
  res_parseGet : HTTPResponse → result (ClientResponse A);
  res_parseList : HTTPResponse → result (ClientResponse (Page A))
}.

#[export] Instance resource_vpc : Resource VpcBody := {
  res_kind := "VPC"; res_path := "vpcs"; res_prefix := "vpc-"; res_zero := zero_VpcBody;
  res_id := vb_Id; res_name := vb_Name; res_state := vb_State; res_reason := vb_StateReason;
  res_ready := "available"; res_body := BVpc; res_page := BVpcs; res_get := GetVpc; res_list := ListVpcs;
  res_parseGet := ParseGetVpcResponse; res_parseList := ParseListVpcsResponse
}.
#[export] Instance resource_subnet : Resource SubnetBody := {
  res_kind := "subnet"; res_path := "subnets"; res_prefix := "subnet-"; res_zero := zero_SubnetBody;
  res_id := sb_Id; res_name := sb_Name; res_state := sb_State; res_reason := sb_StateReason;
  res_ready := "available"; res_body := BSubnet; res_page := BSubnets;
  res_get := api_GetSubnet; res_list := api_ListSubnets;
  res_parseGet := ParseGetSubnetResponse; res_parseList := ParseListSubnetsResponse
}.
#[export] Instance resource_instance : Resource InstanceBody := {
  res_kind := "instance"; res_path := "instances"; res_prefix := "i-"; res_zero := zero_InstanceBody;
  res_id := ib_Id; res_name := ib_Name; res_state := ib_State; res_reason := ib_StateReason;
  res_ready := "running"; res_body := BInstance; res_page := BInstances;
  res_get := GetInstance; res_list := ListInstances;
  res_parseGet := ParseGetInstanceResponse; res_parseList := ParseListInstancesResponse
}.

Section resource.
Context {A : Type} `{Resource A}.

Definition collection : string := "/v1/workspaces/default/" +:+ res_path.
Definition member_path (id : string) : string := collection +:+ "/" +:+ id.

Definition sendGet (id : string) : Cmd (result (ClientResponse A)) :=
  send (member_path id) (λ s env d, res_get s env "default" id d) res_parseGet.
Definition sendList (limit : option Z) (token : option string) : Cmd (result (ClientResponse (Page A))) :=
  send collection (λ s env d, res_list s env "default" limit token d) res_parseList.

(** A page of the search for a name. *)
Fixpoint matchItems (reference found : string) (items : list A) : result string :=
  match items with
  | [] => Ok found
  | item :: items' =>
      if res_name item ==? reference then
        if found !=? "" then Err (Errorf (Sprintf (res_kind +:+ " name %q is ambiguous") [reference]))
        else matchItems reference (res_id item) items'
      else matchItems reference found items'
  end.

Fixpoint resolvePages (fuel : nat) (reference : string) (token : option string) (seen : gset string)
    (found : string) : Cmd (option (result string)) :=
  match fuel with
  | O => mret None
  | S fuel' =>
      r ← sendList (Some 100) token;
      match r with
      | Err e => fails (Wrapf (Sprintf ("resolve " +:+ res_kind +:+ " name: %w") []) e)
      | Ok response =>
          match cr_JSON response with
          | None => fails (responseError ("resolve " +:+ res_kind +:+ " name") response)
          | Some page =>
              match matchItems reference found (Items page) with
              | Err e => fails e
              | Ok found =>
                  let token := default "" (NextPageToken page) in
                  if token ==? "" then
                    if found ==? ""
                    then fails (Errorf (Sprintf (res_kind +:+ " name %q not found") [reference]))
                    else ok found
                  else if bool_decide (token ∈ seen)
                  then fails (Errorf (Sprintf (res_kind +:+ " list repeated a page token") []))
                  else resolvePages fuel' reference (Some token) ({[token]} ∪ seen) found
              end
          end
      end
  end.

Definition resolve (fuel : nat) (reference : string) : Cmd (option (result string)) :=
  let byName := resolvePages fuel reference None ∅ "" in
  if looksLikeID reference res_prefix then
    r ← sendGet reference;
    match r with
    | Err e => fails (Wrapf (Sprintf ("resolve " +:+ res_kind +:+ " ID: %w") []) e)
    | Ok response =>
        match cr_JSON response with
        | Some _ => ok reference
        | None =>
            if negb (cr_StatusCode response =? 404)
            then fails (responseError ("resolve " +:+ res_kind +:+ " ID") response)
            else byName
        end
    end
  else byName.

(** The polling loop of the wait functions. *)
Fixpoint waitResource (fuel : nat) (id : string) (deleting : bool) (timeout : string) : Cmd (option (result A)) :=
  match fuel with
  | O => mret None
  | S fuel' =>
      let stop := e ← waitError id timeout; fails e in
      let again :=
        paused ← pollPause;
        match paused with Some _ => stop | None => waitResource fuel' id deleting timeout end in
      expired ← observe (k_wait lk);
      match expired with
      | Some _ => stop
      | None =>
          r ← sendGet id;
          match r with
          | Err _ => again
          | Ok response =>
              if deleting && (cr_StatusCode response =? 404) then ok res_zero
              else
                match cr_JSON response with
                | None => fails (responseError ("wait for " +:+ res_kind) response)
                | Some item =>
                    if res_state item ==? "failed"
                    then fails (Errorf (Sprintf (res_kind +:+ " %s failed: %s") [id; res_reason item]))
                    else if negb deleting && (res_state item ==? res_ready) then ok item
                    else again
                end
          end
      end
  end.

(** The attempts of a create request: three at most, one more only after a
    transport error or an intermediary's answer. *)
Definition transient (r : result (ClientResponse A)) : bool :=
  match r with
  | Ok response =>
      (cr_StatusCode response =? 502) || (cr_StatusCode response =? 503) || (cr_StatusCode response =? 504)
  | Err _ => true
  end.
Fixpoint attempts (more : nat) (request : Cmd (result (ClientResponse A)))
    : Cmd (error + result (ClientResponse A)) :=
  r ← request;
  if negb (transient r) then mret (inr r)
  else
    match more with
    | O => mret (inr r)
    | S more' =>
        paused ← retryDelay;
        match paused with Some e => mret (inl e) | None => attempts more' request end
    end.
End resource.

Definition resolveVPC := resolve (A := VpcBody).
Definition resolveSubnet := resolve (A := SubnetBody).
Definition resolveInstance := resolve (A := InstanceBody).
Definition waitVPC := waitResource (A := VpcBody).
Definition waitSubnet := waitResource (A := SubnetBody).
Definition waitInstance := waitResource (A := InstanceBody).

(** ** Output *)
Fixpoint tabbed (fields : list string) : list Z :=
  match fields with
  | [] => [10]
  | [field] => bytes field ++ [10]
  | field :: fields' => bytes field ++ 9 :: tabbed fields'
  end.

(** The human format of a value, or the error for other types. *)
Definition human_item (b : Body) : result (list Z) :=
  match b with
  | BVpc v => Ok (tabbed [vb_Id v; vb_Name v; vb_CidrBlock v; vb_State v])
  | BSubnet s => Ok (tabbed [sb_Id s; sb_Name s; sb_VpcId s; sb_CidrBlock s; sb_State s])
  | BInstance i => Ok (tabbed [ib_Id i; ib_Name i; ib_SubnetId i; ib_PrivateIp i; ib_State i])
  | _ => Err (Errorf (lit "unsupported CLI resource output"))
  end.
Definition human_page {A} (f : A → Body) (p : Page A) : result (list Z) :=
  lines ← mapM (λ x, human_item (f x)) (Items p);
  Ok (concat lines ++
      match NextPageToken p with Some t => bytes "Next page: " ++ bytes t ++ [10] | None => [] end).
Definition writeResource (value : Body) (output : string) : result (list Z) :=
  if output ==? "json" then Ok (encode (enc_Body value) ++ [10])
  else match value with
       | BVpcs p => human_page BVpc p
       | BSubnets p => human_page BSubnet p
       | BInstances p => human_page BInstance p
       | _ => human_item value
       end.

(** ** Commands *)
Record resourceOptions := MkResourceOptions {
  opt_reference : string; opt_cidr : string; opt_vpc : string; opt_zone : string; opt_subnet : string;
  opt_output : string; opt_wait : bool; opt_timeout : string; opt_limit : Z; opt_pageToken : string
}.

Section commands.
Context (fuel : nat) {A : Type} `{Resource A}.
Implicit Types (o : resourceOptions).

Definition printed (r : result (list Z)) : Cmd (option (result (list Z))) := mret (Some r).

(** Creation: [request] sends the request with an Idempotency-Key. *)
Definition createCommand (operation : string) (request : string → Cmd (result (ClientResponse A))) o
    : Cmd (option (result (list Z))) :=
  random ← observe (k_random lk);
  match newIdempotencyKey random with
  | Err e => fails e
  | Ok key =>
      sent ← attempts 2 (request key);
      match sent with
      | inl e => fails e
      | inr (Err e) => fails (Wrapf (Sprintf (operation +:+ " request: %w") []) e)
      | inr (Ok response) =>
          match cr_JSON response with
          | None => fails (responseError operation response)
          | Some item =>
              try (if opt_wait o then waitResource fuel (res_id item) false (opt_timeout o) else ok item)
                (λ item, printed (writeResource (res_body item) (opt_output o)))
          end
      end
  end.

Definition listCommand (operation : string) o : Cmd (option (result (list Z))) :=
  r ← sendList (if 0 <? opt_limit o then Some (opt_limit o) else None)
               (if opt_pageToken o !=? "" then Some (opt_pageToken o) else None);
  match r with
  | Err e => fails (Wrapf (Sprintf (operation +:+ ": %w") []) e)
  | Ok response =>
      match cr_JSON response with
      | None => fails (responseError operation response)
      | Some page => printed (writeResource (res_page page) (opt_output o))
      end
  end.

Definition describeCommand (operation : string) o : Cmd (option (result (list Z))) :=
  try (resolve fuel (opt_reference o)) (λ id,
  r ← sendGet id;
  match r with
  | Err e => fails (Wrapf (Sprintf (operation +:+ ": %w") []) e)
  | Ok response =>
      match cr_JSON response with
      | None => fails (responseError operation response)
      | Some item => printed (writeResource (res_body item) (opt_output o))
      end
  end).

(** Deletion and termination; [gone] is the word printed after waiting. *)
Definition deleteCommand (operation gone : string) (request : string → Cmd (result (ClientResponse A))) o
    : Cmd (option (result (list Z))) :=
  try (resolve fuel (opt_reference o)) (λ id,
  r ← request id;
  match r with
  | Err e => fails (Wrapf (Sprintf (operation +:+ ": %w") []) e)
  | Ok response =>
      match cr_JSON response with
      | None => fails (responseError operation response)
      | Some item =>
          if opt_wait o then
            try (waitResource fuel id true (opt_timeout o)) (λ _ : A,
              if opt_output o ==? "human" then ok (bytes id ++ bytes " " ++ bytes gone ++ [10])
              else printed (writeResource (res_body item) (opt_output o)))
          else printed (writeResource (res_body item) (opt_output o))
      end
  end).
End commands.

(** The create and delete requests of the three types. *)
Definition sendCreateVpc (name cidr key : string) : Cmd (result (ClientResponse VpcBody)) :=
  send (collection (A := VpcBody))
    (λ s env d, CreateVpc s env "default" (Some key) (CreateVpcRequest name cidr) d) ParseCreateVpcResponse.
Definition sendDeleteVpc (id : string) : Cmd (result (ClientResponse VpcBody)) :=
  send (member_path (A := VpcBody) id) (λ s env d, DeleteVpc s env "default" id d) ParseDeleteVpcResponse.
Definition sendCreateSubnet (name vpcID cidr zone key : string) : Cmd (result (ClientResponse SubnetBody)) :=
  send (collection (A := SubnetBody))
    (λ s env d, api_CreateSubnet s env "default" (Some key) (CreateSubnetRequest name vpcID cidr zone) d)
    ParseCreateSubnetResponse.
Definition sendDeleteSubnet (id : string) : Cmd (result (ClientResponse SubnetBody)) :=
  send (member_path (A := SubnetBody) id) (λ s env d, api_DeleteSubnet s env "default" id d)
    ParseDeleteSubnetResponse.
Definition sendRunInstance (name subnetID key : string) : Cmd (result (ClientResponse InstanceBody)) :=
  send (collection (A := InstanceBody))
    (λ s env d, RunInstance s env "default" (Some key) (RunInstanceRequest name subnetID) d)
    ParseRunInstanceResponse.
Definition sendTerminate (id : string) : Cmd (result (ClientResponse InstanceBody)) :=
  send (member_path (A := InstanceBody) id) (λ s env d, TerminateInstance s env "default" id d)
    ParseTerminateInstanceResponse.

Definition runVPC (fuel : nat) (verb : string) (o : resourceOptions) : Cmd (option (result (list Z))) :=
  if verb ==? "create" then createCommand fuel "create VPC" (sendCreateVpc (opt_reference o) (opt_cidr o)) o
  else if verb ==? "list" then listCommand (A := VpcBody) "list VPCs" o
  else if verb ==? "describe" then describeCommand (A := VpcBody) fuel "describe VPC" o
  else if verb ==? "delete" then deleteCommand fuel "delete VPC" "deleted" sendDeleteVpc o
  else fails (Errorf (Sprintf "unsupported VPC verb %q" [verb])).

Definition runSubnet (fuel : nat) (verb : string) (o : resourceOptions) : Cmd (option (result (list Z))) :=
  if verb ==? "create" then
    try (resolveVPC fuel (opt_vpc o)) (λ vpcID,
      createCommand fuel "create subnet" (sendCreateSubnet (opt_reference o) vpcID (opt_cidr o) (opt_zone o)) o)
  else if verb ==? "list" then listCommand (A := SubnetBody) "list subnets" o
  else if verb ==? "describe" then describeCommand (A := SubnetBody) fuel "describe subnet" o
  else if verb ==? "delete" then deleteCommand fuel "delete subnet" "deleted" sendDeleteSubnet o
  else fails (Errorf (Sprintf "unsupported subnet verb %q" [verb])).

Definition instanceCommand (fuel : nat) (verb : string) (o : resourceOptions) : Cmd (option (result (list Z))) :=
  if verb ==? "run" then
    try (resolveSubnet fuel (opt_subnet o)) (λ subnetID,
      createCommand fuel "run instance" (sendRunInstance (opt_reference o) subnetID) o)
  else if verb ==? "list" then listCommand (A := InstanceBody) "list instances" o
  else if verb ==? "describe" then describeCommand (A := InstanceBody) fuel "describe instance" o
  else if verb ==? "terminate" then deleteCommand fuel "terminate instance" "terminated" sendTerminate o
  else fails (Errorf (Sprintf "unknown instance command %q" [verb])).
End link.
