(* ===== verification/Wire.v ===== *)
(** What the API server writes, the generated client reads: requests and responses
    survive the way over HTTP.  Text that is no UTF-8 (only a state reason can be)
    arrives with replacement characters. *)

From S2P Require Import Prelude Errors GoStrings Encodings Utf8 NetIP Validate Model Json Snapshot.
From S2P Require Import Schema Tx Store Idempotency NetworkService InstanceService Api Client.
Local Open Scope Z_scope.

(** ** Texts *)
Definition replacement : rune := MkRune 65533 [239; 191; 189] true.
Definition repaired_rune (r : rune) : rune := if r_valid r then r else replacement.

Lemma repair_runes l : repair l = runes_bytes (repaired_rune <$> decode l).
Proof.
  unfold repair. induction (decode l) as [|r rs IH]; [done|]. rewrite !fmap_cons. cbn [concat runes_bytes].
  rewrite IH. f_equal. unfold repair_rune, repaired_rune. by destruct (r_valid r).
Qed.

Lemma decode_repair l : decode (repair l) = repaired_rune <$> decode l.
Proof.
  rewrite repair_runes. apply decode_runes_bytes, Forall_fmap.
  induction l as [|b0 l r rest E IH] using decode_ind; [constructor|]. rewrite decode_cons, E. constructor; [|done].
  intros k. unfold repaired_rune. destruct (r_valid r) eqn:Hr; [|exact (decode_cons 239 (191 :: 189 :: k))].
  destruct (decode_rune_stable _ _ _ _ k E Hr) as (b & l0 & -> & H). simpl. by rewrite decode_cons, H.
Qed.

Lemma repair_byte l : Forall is_byte l → Forall is_byte (repair l).
Proof.
  intros Hl. rewrite repair_runes. apply runes_bytes_range, Forall_fmap.
  eapply Forall_impl; [by apply decode_byte_range|]. intros r Hr. simpl. unfold repaired_rune.
  destruct (r_valid r); [done|]. repeat constructor; unfold is_byte; simpl; lia.
Qed.

Lemma utf8_repair l : Forall is_byte l → utf8 (repair l).
Proof.
  intros Hl. split; [by apply repair_byte|]. rewrite decode_repair. apply forallb_forall. intros r Hr.
  apply list_elem_of_In, list_elem_of_fmap in Hr as (r' & -> & _). unfold repaired_rune.
  by destruct (r_valid r') eqn:E.
Qed.

(** A text that went over the wire. *)
Definition readback (s : string) : string := of_bytes (repair (bytes s)).

Lemma readback_text8 s : text8 s → readback s = s.
Proof. intros Hs. unfold readback. rewrite repair_utf8 by by apply text8_utf8. apply of_bytes_bytes. Qed.
Lemma text8_readback s : text8 (readback s).
Proof.
  unfold text8, ValidString, readback. rewrite bytes_of_bytes by apply repair_byte, bytes_range.
  apply (utf8_repair (bytes s)), bytes_range.
Qed.

Lemma dec_repaired_string s x : dec_string (repair_json (enc_string s)) x = Ok (readback s).
Proof. done. Qed.
Lemma dec_repaired_pointer s x : dec_pointer (repair_json (enc_string s)) x = Ok (Some (readback s)).
Proof. done. Qed.
Lemma writable_string s : writable (enc_string s).
Proof. apply writable_str, bytes_range. Qed.
Lemma writable_int64 n : int64 n → writable (enc_int64 n).
Proof. apply writable_num. Qed.
#[export] Hint Resolve writable_string writable_int64 : nephos.

Ltac writable_fields :=
  apply writable_obj; repeat (apply Forall_cons_2; [split; [by apply utf8_name|cbn [snd]; auto with nephos]|]);
  apply Forall_nil_2.
(** Run a decoder on what became of an object. *)
Ltac read_fields field :=
  cbn [repair_json List.map fst snd]; eval_fields field;
  repeat first
    [ rewrite dec_repaired_string
    | rewrite dec_repaired_pointer
    | change (repair_json (enc_int64 ?n)) with (enc_int64 n); rewrite dec_enc_int64 by done
    | progress cbn [mbind result_bind] ].

Ltac eval_names :=
  repeat match goal with
  | |- context [is_field ?a ?b] =>
      let v := eval vm_compute in (is_field a b) in change (is_field a b) with v
  end;
  cbv iota beta.

(** ** Bodies that the client reads back *)
Class Wired (A : Type) (enc : A → json) (dec : json → A → result A) (zero : A) := {
  sane : A → Prop;
  received : A → A;
  wired_writable x : sane x → writable (enc x);
  wired_dec x : sane x → dec (repair_json (enc x)) zero = Ok (received x);
  depth : nat;
  wired_shallow x : (nesting (enc x) ≤ depth)%nat
}.
Arguments sane {A enc dec zero _} _.
Arguments received {A enc dec zero _} _.
Arguments depth {A} _ _ _ {_}.

#[export, refine] Instance wired_vpc : Wired VpcBody enc_VpcBody dec_VpcBody zero_VpcBody := {|
  sane v := int64 (vb_Generation v) ∧ int64 (vb_ObservedGeneration v);
  received v := MkVpcBody (readback (vb_CidrBlock v)) (vb_Generation v) (readback (vb_Id v))
    (readback (vb_Name v)) (vb_ObservedGeneration v) (readback (vb_State v)) (readback (vb_StateReason v));
  depth := 1
|}.
Proof.
  - intros v [? ?]. writable_fields.
  - intros [] [H H0]. unfold dec_VpcBody, enc_VpcBody, zero_VpcBody. cbn in H, H0. by read_fields field_VpcBody.
  - intros v. simpl. lia.
Defined.

#[export, refine] Instance wired_subnet : Wired SubnetBody enc_SubnetBody dec_SubnetBody zero_SubnetBody := {|
  sane s := int64 (sb_Generation s) ∧ int64 (sb_ObservedGeneration s);
  received s := MkSubnetBody (readback (sb_AvailabilityZone s)) (readback (sb_CidrBlock s)) (sb_Generation s)
    (readback (sb_Id s)) (readback (sb_Name s)) (sb_ObservedGeneration s) (readback (sb_State s))
    (readback (sb_StateReason s)) (readback (sb_VpcId s));
  depth := 1
|}.
Proof.
  - intros s [? ?]. writable_fields.
  - intros [] [H H0]. unfold dec_SubnetBody, enc_SubnetBody, zero_SubnetBody. cbn in H, H0. by read_fields field_SubnetBody.
  - intros s. simpl. lia.
Defined.

#[export, refine] Instance wired_instance : Wired InstanceBody enc_InstanceBody dec_InstanceBody zero_InstanceBody := {|
  sane i := int64 (ib_Generation i) ∧ int64 (ib_ObservedGeneration i);
  received i := MkInstanceBody (readback (ib_EniId i)) (ib_Generation i) (readback (ib_Id i))
    (readback (ib_InstanceType i)) (readback (ib_Name i)) (ib_ObservedGeneration i) (readback (ib_PrivateIp i))
    (readback (ib_State i)) (readback (ib_StateReason i)) (readback (ib_SubnetId i));
  depth := 1
|}.
Proof.
  - intros i [? ?]. writable_fields.
  - intros [] [H H0]. unfold dec_InstanceBody, enc_InstanceBody, zero_InstanceBody. cbn in H, H0.
    by read_fields field_InstanceBody.
  - intros i. simpl. lia.
Defined.

#[export, refine] Instance wired_error : Wired ErrorBody enc_ErrorBody dec_ErrorBody zero_ErrorBody := {|
  sane _ := True;
  received e := MkErrorBody (readback (eb_Code e)) (readback (eb_Message e)) (readback <$> eb_ResourceId e);
  depth := 1
|}.
Proof.
  - intros [c m [rid|]] _; writable_fields.
  - intros [c m [rid|]] _; unfold dec_ErrorBody, enc_ErrorBody, zero_ErrorBody;
      cbn [optional_field app eb_Code eb_Message eb_ResourceId]; by read_fields field_ErrorBody.
  - intros [c m [rid|]]; simpl; lia.
Defined.

(** Pages *)
Section pages.
Context {A : Type} {enc : A → json} {dec : json → A → result A} {zero : A} {W : Wired A enc dec zero}.

Lemma dec_elems_received l : Forall sane l → dec_elems dec zero (List.map repair_json (List.map enc l)) [] = Ok (received <$> l).
Proof.
  induction 1 as [|x l Hx Hl IH]; [done|]. cbn [List.map dec_elems head tail default]. rewrite wired_dec by done.
  cbn [mbind result_bind]. by rewrite IH.
Qed.

#[export, refine] Instance wired_page : Wired (Page A) (enc_Page enc) (dec_Page dec zero) zero_Page := {|
  sane p := Forall sane (Items p);
  received p := MkPage (received <$> Items p) (readback <$> NextPageToken p);
  depth := 2 + depth enc dec zero
|}.
Proof using A W dec enc zero.
  - intros [l t] Hl. assert (writable (JArr (List.map enc l))).
    { apply writable_arr, Forall_map. simpl in Hl. eapply Forall_impl; [exact Hl|]. intros x. apply wired_writable. }
    destruct t; writable_fields.
  - intros [l t] Hl. simpl in Hl. unfold dec_Page, enc_Page, zero_Page.
    destruct t as [t|]; cbn [optional_field Items NextPageToken]; cbn [repair_json List.map fst snd];
      unfold dec_struct; cbn [fold_left fst snd]; unfold field_Page; eval_names; cbn [mbind result_bind dec_slice Items NextPageToken];
      rewrite dec_elems_received by done; cbn [mbind result_bind]; rewrite ?dec_repaired_pointer; done.
  - intros [l t]. assert (max_list_with nesting (List.map enc l) ≤ depth enc dec zero)%nat as Hm.
    { induction l as [|x l IH]; simpl; [lia|]. pose proof (wired_shallow x). lia. }
    destruct t; simpl in *; lia.
Defined.
End pages.

(** ** Responses *)
Section responses.
Context {A : Type} {enc : A → json} {dec : json → A → result A} {zero : A} {W : Wired A enc dec zero}.
Context (Hdepth : (depth enc dec zero <=? maxNestingDepth)%nat = true).

Lemma unmarshal_written x :
  sane x → unmarshal_body dec zero (encode (enc x) ++ [10]) = Ok (received x).
Proof using Hdepth.
  intros Hx. unfold unmarshal_body. rewrite parse_written; [|by apply wired_writable| |simpl; auto|done].
  - simpl. by apply wired_dec.
  - apply Nat.leb_le in Hdepth. pose proof (wired_shallow x). lia.
Qed.
End responses.

Lemma parse_success {A} enc dec zero `{!Wired A enc dec zero} success x b :
  (depth enc dec zero <=? maxNestingDepth)%nat = true → enc_Body b = enc x → sane x →
  parseResponse success dec zero (wire (MkResponse success b)) =
  Ok (MkClientResponse (writeJSON (MkResponse success b)) success (Some (received x)) None).
Proof.
  intros Hd Hb Hx. unfold parseResponse, wire, writeJSON. cbn [rsp_ContentType rsp_StatusCode rsp_Body code body].
  rewrite Z.eqb_refl, Hb. cbn [andb strings_Contains HasPrefix]. by rewrite unmarshal_written.
Qed.

Lemma parse_failure {A} success (dec : json → A → result A) zero r e :
  200 ≤ success ≤ 202 → 400 ≤ code r → body r = BError e →
  ∃ err, parseResponse success dec zero (wire r) = Ok (MkClientResponse (writeJSON r) (code r) None err) ∧
    (code r ∈ [400; 401; 404; 409] → err = Some (received e)).
Proof.
  intros Hs Hc Hb. unfold parseResponse, wire. cbn [rsp_ContentType rsp_StatusCode rsp_Body].
  rewrite (proj2 (Z.eqb_neq (code r) success)) by lia. rewrite andb_false_r.
  change (strings_Contains "application/json" "json") with true. cbn [andb].
  destruct (_ || _) eqn:E.
  - eexists. split; [|done]. unfold writeJSON. rewrite Hb. cbn [enc_Body].
    rewrite unmarshal_written; [done|by vm_compute|done].
  - eexists. split; [done|]. intros Hin. exfalso.
    rewrite !orb_false_iff, !Z.eqb_neq in E. rewrite !elem_of_cons in Hin. set_solver by lia.
Qed.

(** ** Requests *)

(** Requests that fit into a body. *)
Definition fits (r : Request) : Prop := (length (rq_body r) <=? maxBody)%nat = true.

Lemma decode_request {T} field (zero : T) v x :
  writable v → (nesting v <=? maxNestingDepth)%nat = true → dec_strict field (repair_json v) zero = Ok x →
  decodeBody field zero (jsonRequest v) = inr x ∨
  ¬ fits (jsonRequest v) ∧ ∀ x', decodeBody field zero (jsonRequest v) ≠ inr x'.
Proof.
  intros Hw Hn%Nat.leb_le Hx. unfold fits, decodeBody, jsonRequest. cbn [rq_mediaType rq_body].
  change ("application/json" !=? "application/json") with false. cbv iota.
  destruct (length (encode v) <=? maxBody)%nat eqn:El; [left|right].
  - assert (parse_value (2 * length (encode v) + 2) maxNestingDepth (encode v) = Some (repair_json v, [])) as Hp.
    { pose proof (size_encode v Hw). rewrite <- (app_nil_r (encode v)) at 2.
      apply parse_value_written; [done|lia|done|done]. }
    rewrite take_ge by by apply Nat.leb_le. by rewrite Hp, Hx.
  - split; [done|]. intros x'. destruct (parse_value _ _ _) as [[v' rest]|]; [|done].
    destruct (dec_strict _ v' _); [|done]. by rewrite andb_false_r.
Qed.

(** What the handlers decode from the client's requests. *)
Lemma read_CreateVpcRequest name cidr :
  dec_strict field_CreateVpcRequest
    (repair_json (JObj [(bytes "cidr_block", enc_string cidr); (bytes "name", enc_string name)]))
    (MkCreateVPCInput "" "") = Ok (MkCreateVPCInput (readback name) (readback cidr)).
Proof.
  cbn [repair_json List.map fst snd]. unfold dec_strict; cbn [fold_left fst snd]; unfold field_CreateVpcRequest; eval_names.
  done.
Qed.
Lemma read_CreateSubnetRequest name vpcID cidr zone :
  dec_strict field_CreateSubnetRequest
    (repair_json (JObj [(bytes "availability_zone", enc_string zone); (bytes "cidr_block", enc_string cidr);
                        (bytes "name", enc_string name); (bytes "vpc_id", enc_string vpcID)]))
    (MkCreateSubnetInput "" "" "" "") =
  Ok (MkCreateSubnetInput (readback name) (readback vpcID) (readback cidr) (readback zone)).
Proof.
  cbn [repair_json List.map fst snd]. unfold dec_strict; cbn [fold_left fst snd]; unfold field_CreateSubnetRequest; eval_names.
  done.
Qed.
Lemma read_RunInstanceRequest name subnetID :
  dec_strict field_RunInstanceRequest
    (repair_json (JObj [(bytes "name", enc_string name); (bytes "subnet_id", enc_string subnetID)]))
    (MkRunInstanceInput "" "") = Ok (MkRunInstanceInput (readback name) (readback subnetID)).
Proof.
  cbn [repair_json List.map fst snd]. unfold dec_strict; cbn [fold_left fst snd]; unfold field_RunInstanceRequest; eval_names.
  done.
Qed.

(** What a handler gets from a request of the client, unless it is too long. *)
Definition gets {T} (field : list Z → option (json → T → result T)) (zero : T) (r : Request) (x : T) : Prop :=
  decodeBody field zero r = inr x ∨ ¬ fits r ∧ ∀ x', decodeBody field zero r ≠ inr x'.

Lemma gets_CreateVpcRequest name cidr :
  gets field_CreateVpcRequest (MkCreateVPCInput "" "") (CreateVpcRequest name cidr)
    (MkCreateVPCInput (readback name) (readback cidr)).
Proof. apply decode_request; [writable_fields|by vm_compute|apply read_CreateVpcRequest]. Qed.
Lemma gets_CreateSubnetRequest name vpcID cidr zone :
  gets field_CreateSubnetRequest (MkCreateSubnetInput "" "" "" "") (CreateSubnetRequest name vpcID cidr zone)
    (MkCreateSubnetInput (readback name) (readback vpcID) (readback cidr) (readback zone)).
Proof. apply decode_request; [writable_fields|by vm_compute|apply read_CreateSubnetRequest]. Qed.
Lemma gets_RunInstanceRequest name subnetID :
  gets field_RunInstanceRequest (MkRunInstanceInput "" "") (RunInstanceRequest name subnetID)
    (MkRunInstanceInput (readback name) (readback subnetID)).
Proof. apply decode_request; [writable_fields|by vm_compute|apply read_RunInstanceRequest]. Qed.

Lemma gets_fits {T} field (zero : T) r x : fits r → gets field zero r x → decodeBody field zero r = inr x.
Proof. intros Hf [H|[H _]]; [done|by contradict H]. Qed.


