(* ===== verification/CliCreate.v ===== *)
(** The create commands of the CLI create at most once, although they send their
    request up to three times: the Idempotency-Key makes the repetitions replays. *)

From S2P Require Import Prelude Errors GoStrings Encodings Utf8 NetIP Validate Ipam Mac Model Json Snapshot.
From S2P Require Import Schema Tx Transitions Store Idempotency Refine RecordRefine.
From S2P Require Import NetworkService InstanceService ServiceRefine System Replay ErrorStatus Api ApiSafety.
From S2P Require Import Client Cli Wire.
Local Open Scope Z_scope.

Lemma execute_all_elsewhere ops d operation key :
  Forall (elsewhere operation key) ops →
  idempotency (execute_all ops d) !! record_of operation key = idempotency d !! record_of operation key.
Proof.
  intros Hall. revert d. induction Hall as [|o ops Ho Hops IH]; intros d; [done|].
  change (execute_all (o :: ops) d) with (execute_all ops (perform o d).2). by rewrite IH, perform_elsewhere.
Qed.

(** ** An answer on record *)
Definition recalls {T} `{Snapshot T} (op key : string) (until : Z) (x : T) (d : DB) : Prop :=
  ∃ rec, idempotency d !! record_of op key = Some rec ∧ until ≤ k_ExpiresAt rec ∧
         Unmarshal (k_ResponseJson rec) = Ok x.

Section recall.
Context {T : Type} `{Snapshot T} (op key : string) (Hkey : key ≠ "").

Lemma loadReplay_Some rec hash now s (x : T) s' :
  idempotency (tx_db s) !! record_of op key = Some rec → loadReplay op key hash now s = (Ok (Some x), s') →
  Unmarshal (k_ResponseJson rec) = Ok x.
Proof using Hkey.
  intros Hr Hrun. unfold loadReplay in Hrun. rewrite (proj2 (beq_false _ _) Hkey) in Hrun.
  run Hrun as found s1 E1. destruct found as [r|]; [|by inv_tx].
  apply optional_Ok in E1 as [(a & [= <-] & E1)|(e & ? & _)]; [|done].
  unfold tx_GetIdempotency, q_GetIdempotency, record_of in *. inv_tx.
  match goal with H : of_option _ (idempotency _ !! _) = _ |- _ => rewrite Hr in H; injection H as <- end.
  simpl in Hrun. destruct (_ <=? _); [by inv_tx|]. inv_tx.
  match goal with H : wrap_err _ (Unmarshal _) = Ok _ |- _ => rename H into Hu end.
  match goal with H : mret _ _ = _ |- _ => injection H as <- _ end. by destruct (Unmarshal _).
Qed.

Lemma guarded_recalls until (x : T) hash now body flt d r d' :
  recalls op key until x d → now < until → WithTx flt (guarded op key hash now body) d = (r, d') →
  d' = d ∧ ∀ a c, r = Ok (a, c) → a = x.
Proof using Hkey.
  intros (rec & Hr & Hu & Hx) Hn E. split.
  - pose proof (guarded_live op key Hkey rec hash now body flt d Hr ltac:(lia)) as Hd. by rewrite E in Hd.
  - intros a c ->. apply WithTx_Ok in E as (s & s' & Hs & Hrun & _). unfold guarded in Hrun.
    run Hrun as found s1 E1. subst d. destruct found as [y|].
    + apply ret_Ok in Hrun as [[= <- <-] _]. apply (loadReplay_Some rec) in E1; [congruence|done].
    + exfalso. eapply loadReplay_live; [done|exact Hr| |exact E1]. lia.
Qed.

Lemma recalls_others until (x : T) d ops :
  Forall (elsewhere op key) ops → recalls op key until x d → recalls op key until x (execute_all ops d).
Proof. intros Ho (rec & Hr & ?). exists rec. by rewrite execute_all_elsewhere. Qed.
End recall.

Lemma remembered_recalls `{Snapshot T} op key hash now (x : T) d : remembered op key hash now x d → recalls op key (now + day) x d.
Proof. intros (rec & ? & _ & Hx & ?). exists rec. split_and!; [done|lia|done]. Qed.

(** ** The create operations of the services *)
Lemma CreateVPC_fresh env input key d v d' h :
  Inv d → Forall is_byte (env_random env) → key ≠ "" → idempotency d !! record_of "create-vpc" key = None →
  CreateVPC env input key d = (Ok v, d', h) → recalls "create-vpc" key (env_now env + day) v d'.
Proof.
  intros I Hr Hkey Hn H. pose proof H as H'. unfold CreateVPC in H'.
  destruct (ValidateName (cv_Name input)) as [name|] eqn:E1; [|done].
  destruct (ParseCIDR (cv_CIDRBlock input)) as [cidr|] eqn:E2; [|done].
  eapply remembered_recalls, CreateVPC_remembers; eauto. by split_and!.
Qed.
Lemma CreateVPC_again env input key d r d' h until v :
  key ≠ "" → recalls "create-vpc" key until v d → env_now env < until →
  CreateVPC env input key d = (r, d', h) → d' = d ∧ ∀ a, r = Ok a → a = v.
Proof.
  intros Hkey Hx Hn H. unfold CreateVPC in H. destruct (_ ≫= _) as [[[[name cidr] hash] id]|e]; [|by simplify_eq].
  destruct (WithTx _ _ d) as [r1 d1] eqn:E. eapply guarded_recalls in E as [-> Ha]; [|done..].
  destruct r1 as [[a c]|e]; simplify_eq/=; (split; [done|]); [|done]. intros b [= <-]. by eapply Ha.
Qed.

Lemma CreateSubnet_fresh env input key d v d' h :
  Inv d → Forall is_byte (env_random env) → key ≠ "" → text8 (cs_VPCID input) →
  idempotency d !! record_of "create-subnet" key = None →
  CreateSubnet env input key d = (Ok v, d', h) → recalls "create-subnet" key (env_now env + day) v d'.
Proof.
  intros I Hr Hkey Ht Hn H. pose proof H as H'. unfold CreateSubnet in H'.
  destruct (ValidateName (cs_Name input)) as [name|] eqn:E1; [|done].
  destruct (ParseCIDR (cs_CIDRBlock input)) as [cidr|] eqn:E2; [|done]. simpl in H'.
  destruct (_ || _) eqn:Hz; [|done].
  eapply remembered_recalls, CreateSubnet_remembers; eauto. split_and!; [done|done| |done].
  apply bool_decide_eq_true. apply orb_true_iff in Hz as [Hz|Hz]; [apply orb_true_iff in Hz as [Hz|Hz]|];
    apply (proj1 (beq_true _ _)) in Hz as ->; set_solver.
Qed.
Lemma CreateSubnet_again env input key d r d' h until v :
  key ≠ "" → recalls "create-subnet" key until v d → env_now env < until →
  CreateSubnet env input key d = (r, d', h) → d' = d ∧ ∀ a, r = Ok a → a = v.
Proof.
  intros Hkey Hx Hn H. unfold CreateSubnet in H. destruct (_ ≫= _) as [[[[name cidr] hash] id]|e]; [|by simplify_eq].
  destruct (WithTx _ _ d) as [r1 d1] eqn:E. eapply guarded_recalls in E as [-> Ha]; [|done..].
  destruct r1 as [[a c]|e]; simplify_eq/=; (split; [done|]); [|done]. intros b [= <-]. by eapply Ha.
Qed.

Lemma Run_fresh env input key d v d' h :
  Inv d → Forall is_byte (env_random env) → Forall is_byte (env_random2 env) → key ≠ "" →
  text8 (ri_SubnetID input) → idempotency d !! record_of "run-instance" key = None →
  Run env input key d = (Ok v, d', h) → recalls "run-instance" key (env_now env + day) v d'.
Proof.
  intros I Hr Hr2 Hkey Ht Hn H. pose proof H as H'. unfold Run in H'.
  destruct (ValidateName (ri_Name input)) as [name|] eqn:E1; [|done].
  eapply remembered_recalls, Run_remembers; eauto. by split_and!.
Qed.
Lemma Run_again env input key d r d' h until v :
  key ≠ "" → recalls "run-instance" key until v d → env_now env < until →
  Run env input key d = (r, d', h) → d' = d ∧ ∀ a, r = Ok a → a = v.
Proof.
  intros Hkey Hx Hn H. unfold Run in H. destruct (_ ≫= _) as [[[[name hash] id] eni]|e]; [|by simplify_eq].
  destruct (WithTx _ _ d) as [r1 d1] eqn:E. eapply guarded_recalls in E as [-> Ha]; [|done..].
  destruct r1 as [[a c]|e]; simplify_eq/=; (split; [done|]); [|done]. intros b [= <-]. by eapply Ha.
Qed.

(** ** Their handlers *)

(** An answer of a create handler: a failure without effect, or the answer of the service. *)
Definition create_answer {A} (d : DB) (f : A → Body) (service : result A * DB * list string → Prop)
    (o : Outcome) : Prop :=
  (code o.1.1 ≠ 201 ∧ o.1.2 = d) ∨
  (∃ a, service (Ok a, o.1.2, o.2) ∧ code o.1.1 = 201 ∧ body o.1.1 = f a).

Lemma reply_answer {A} d (f : A → Body) r :
  sound d (reply 201 f r) → create_answer d f (λ r', r' = r) (reply 201 f r).
Proof.
  destruct r as [[[a|e] d'] h]; simpl; intros [_ Hs]; [by right; exists a|].
  left. simpl. destruct Hs as [(Hc & _ & -> & _)|[_ Hb]]; [split; [lia|done]|].
  exfalso. unfold writeServiceError in Hb. destruct (as_Service e); by eapply Hb.
Qed.

Lemma unless_answer {A} d (f : A → Body) P guard next :
  (∀ r, guard = Some r → 400 ≤ code r ≤ 599 ∧ ∃ e, body r = BError e) →
  create_answer d f P next → create_answer d f P (unless guard d next).
Proof.
  intros Hg Hn. destruct guard as [r|]; [|done]. left. simpl. destruct (Hg r eq_refl). split; [lia|done].
Qed.

Lemma CreateVpc_answer s env key rq d :
  Inv d → create_answer d (λ v, BVpc (vpcResponse v))
    (λ r, ∃ input, decodeBody field_CreateVpcRequest (MkCreateVPCInput "" "") rq = inr input ∧
                   r = CreateVPC env input key d) (CreateVpc s env "default" (Some key) rq d).
Proof.
  intros I. unfold CreateVpc. apply unless_answer; [apply workspace_guard|]. apply unless_answer; [apply resources_guard|].
  destruct (decodeBody _ _ rq) as [resp|input] eqn:E.
  { left. apply decode_guard in E as [? _]. simpl. split; [lia|done]. }
  apply unless_answer; [apply required_guard|].
  destruct (reply_answer d (λ v, BVpc (vpcResponse v)) (CreateVPC env input key d)) as [H|(a & Ha & H)].
  - apply sound_write; [lia|done|apply _|exact (perform_steps (OpCreateVPC env input key) d I)|apply creation_nothing].
  - by left.
  - right. exists a. split; [|exact H]. exists input. split; [done|exact Ha].
Qed.
Lemma CreateSubnet_answer s env key rq d :
  Inv d → create_answer d (λ v, BSubnet (subnetResponse v))
    (λ r, ∃ input, decodeBody field_CreateSubnetRequest (MkCreateSubnetInput "" "" "" "") rq = inr input ∧
                   r = CreateSubnet env input key d) (api_CreateSubnet s env "default" (Some key) rq d).
Proof.
  intros I. unfold api_CreateSubnet. apply unless_answer; [apply workspace_guard|]. apply unless_answer; [apply resources_guard|].
  destruct (decodeBody _ _ rq) as [resp|input] eqn:E.
  { left. apply decode_guard in E as [? _]. simpl. split; [lia|done]. }
  apply unless_answer; [apply required_guard|].
  destruct (reply_answer d (λ v, BSubnet (subnetResponse v)) (CreateSubnet env input key d)) as [H|(a & Ha & H)].
  - apply sound_write; [lia|done|apply _|exact (perform_steps (OpCreateSubnet env input key) d I)|apply subnet_creation_nothing].
  - by left.
  - right. exists a. split; [|exact H]. exists input. split; [done|exact Ha].
Qed.
Lemma RunInstance_answer s env key rq d :
  Inv d → create_answer d (λ v, BInstance (instanceResponse v))
    (λ r, ∃ input, decodeBody field_RunInstanceRequest (MkRunInstanceInput "" "") rq = inr input ∧
                   r = Run env input key d) (RunInstance s env "default" (Some key) rq d).
Proof.
  intros I. unfold RunInstance. apply unless_answer; [apply workspace_guard|]. apply unless_answer; [apply instances_guard|].
  destruct (decodeBody _ _ rq) as [resp|input] eqn:E.
  { left. apply decode_guard in E as [? _]. simpl. split; [lia|done]. }
  apply unless_answer; [apply required_guard|].
  destruct (reply_answer d (λ v, BInstance (instanceResponse v)) (Run env input key d)) as [H|(a & Ha & H)].
  - apply sound_write; [lia|done|apply _|exact (perform_steps (OpRun env input key) d I)|apply launch_nothing].
  - by left.
  - right. exists a. split; [|exact H]. exists input. split; [done|exact Ha].
Qed.

(** What a create handler with an Idempotency-Key promises to its clients. *)
Class Creation {T} `{Snapshot T} (operation key : string) (handler : server → Env → DB → Outcome) (f : T → Body) := {
  creation_steps s env d : Inv d → steps d (handler s env d).1.2;
  creation_fresh s env d :
    Inv d → Forall is_byte (env_random env) → Forall is_byte (env_random2 env) →
    idempotency d !! record_of operation key = None →
    create_answer d f (λ r, ∀ x, r.1.1 = Ok x → recalls operation key (env_now env + day) x r.1.2) (handler s env d);
  creation_again s env d until x :
    Inv d → recalls operation key until x d → env_now env < until →
    (handler s env d).1.2 = d ∧ (code (handler s env d).1.1 = 201 → body (handler s env d).1.1 = f x)
}.

Lemma create_answer_impl {A} d (f : A → Body) (P Q : _ → Prop) o :
  (∀ a d' h, P (Ok a, d', h) → Q (Ok a, d', h)) → create_answer d f P o → create_answer d f Q o.
Proof. intros H [Ha|(a & Hp & Ha)]; [by left|]. right. exists a. auto. Qed.

Lemma create_answer_again {A} d (f : A → Body) P x o :
  (∀ a d' h, P (Ok a, d', h) → d' = d ∧ a = x) → create_answer d f P o →
  o.1.2 = d ∧ (code o.1.1 = 201 → body o.1.1 = f x).
Proof. intros H [[Hc Hd]|(a & Hp & Hc & Hb)]; [done|]. by apply H in Hp as [? ->]. Qed.

Lemma served_steps s env c d : Inv d → steps d (serve s env "default" c d).1.2.
Proof. intros I. pose proof (serve_sound s env "default" c d I) as Hs. destruct (serve _ _ _ _ _) as [[r d'] h]. apply Hs. Qed.

#[export] Instance creation_vpc key rq :
  TCEq (key ==? "") false →
  Creation "create-vpc" key (λ s env d, CreateVpc s env "default" (Some key) rq d) (λ v, BVpc (vpcResponse v)).
Proof.
  intros Hk%TCEq_eq. apply (proj1 (beq_false _ _)) in Hk. split.
  - intros s env d. apply (served_steps s env (CallCreateVpc (Some key) rq)).
  - intros s env d I Hr _ Hn. eapply create_answer_impl; [|by apply CreateVpc_answer].
    intros a d' h (input & _ & Ha) x [= <-]. by eapply CreateVPC_fresh.
  - intros s env d until x I Hx Hnow. refine (create_answer_again d (λ v, BVpc (vpcResponse v)) _ x _ _ (CreateVpc_answer s env key _ d I)).
    intros a d' h (input & _ & Ha). symmetry in Ha. eapply CreateVPC_again in Ha as [-> Ha]; eauto.
Qed.
#[export] Instance creation_subnet key name vpcID cidr zone :
  TCEq (key ==? "") false →
  Creation "create-subnet" key
    (λ s env d, api_CreateSubnet s env "default" (Some key) (CreateSubnetRequest name vpcID cidr zone) d)
    (λ v, BSubnet (subnetResponse v)).
Proof.
  intros Hk%TCEq_eq. apply (proj1 (beq_false _ _)) in Hk. split.
  - intros s env d. apply (served_steps s env (CallCreateSubnet (Some key) _)).
  - intros s env d I Hr _ Hn. eapply create_answer_impl; [|by apply CreateSubnet_answer].
    intros a d' h (input & Hin & Ha) x [= <-]. apply (CreateSubnet_fresh env input key d a d' h I Hr Hk); [|exact Hn|by symmetry].
    destruct (gets_CreateSubnetRequest name vpcID cidr zone) as [H|[_ H]]; [|by apply H in Hin].
    rewrite H in Hin. injection Hin as <-. apply text8_readback.
  - intros s env d until x I Hx Hnow. refine (create_answer_again d (λ v, BSubnet (subnetResponse v)) _ x _ _ (CreateSubnet_answer s env key _ d I)).
    intros a d' h (input & _ & Ha). symmetry in Ha. eapply CreateSubnet_again in Ha as [-> Ha]; eauto.
Qed.
#[export] Instance creation_instance key name subnetID :
  TCEq (key ==? "") false →
  Creation "run-instance" key
    (λ s env d, RunInstance s env "default" (Some key) (RunInstanceRequest name subnetID) d)
    (λ v, BInstance (instanceResponse v)).
Proof.
  intros Hk%TCEq_eq. apply (proj1 (beq_false _ _)) in Hk. split.
  - intros s env d. apply (served_steps s env (CallRunInstance (Some key) _)).
  - intros s env d I Hr Hr2 Hn. eapply create_answer_impl; [|by apply RunInstance_answer].
    intros a d' h (input & Hin & Ha) x [= <-]. apply (Run_fresh env input key d a d' h I Hr Hr2 Hk); [|exact Hn|by symmetry].
    destruct (gets_RunInstanceRequest name subnetID) as [H|[_ H]]; [|by apply H in Hin].
    rewrite H in Hin. injection Hin as <-. apply text8_readback.
  - intros s env d until x I Hx Hnow. refine (create_answer_again d (λ v, BInstance (instanceResponse v)) _ x _ _ (RunInstance_answer s env key _ d I)).
    intros a d' h (input & _ & Ha). symmetry in Ha. eapply Run_again in Ha as [-> Ha]; eauto.
Qed.

(** Handlers that only read. *)
Class Reading (handler : server → Env → DB → Outcome) : Prop :=
  reading s env d : (handler s env d).1.2 = d ∧ code (handler s env d).1.1 ≠ 201.

Lemma boundary_guard token h next d :
  boundary token h next d = next d ∨ ∃ r, boundary token h next d = (r, d, []) ∧ 400 ≤ code r.
Proof.
  unfold boundary, localOnly, requireBearer. destruct (_ || _); simpl; [right; eexists; split; [done|simpl; lia]|].
  repeat case_match; simpl; try by left. all: right; eexists; split; [done|]; simplify_eq; simpl; lia.
Qed.

(** ** Reads *)
Lemma unless_reading guard d next :
  (∀ r, guard = Some r → 400 ≤ code r ≤ 599 ∧ ∃ e, body r = BError e) → next.1.2 = d → code next.1.1 ≠ 201 →
  (unless guard d next).1.2 = d ∧ code (unless guard d next).1.1 ≠ 201.
Proof. intros Hg Hd Hc. destruct guard as [r|]; [|done]. simpl. split; [done|]. destruct (Hg r eq_refl). lia. Qed.

Lemma reply_reading {A} (f : A → Body) r d :
  Declines r → code (reply_read f r d).1.1 ≠ 201.
Proof.
  intros Hr. destruct r as [a|e]; simpl; [lia|]. unfold writeServiceError.
  destruct (as_Service e) as [x|] eqn:E; simpl; [|lia]. pose proof (Hr e eq_refl x E). lia.
Qed.

Lemma resources_reading {A} s d (f : A → Body) r :
  Declines r →
  let o := unless (checkWorkspace "default") d (unless (checkResources s) d (reply_read f r d)) in
  o.1.2 = d ∧ code o.1.1 ≠ 201.
Proof.
  intros Hr o. destruct (unless_reading (checkResources s) d (reply_read f r d)) as [H1 H2];
    [apply resources_guard|done|by apply reply_reading|]. by apply unless_reading; [apply workspace_guard|..].
Qed.
Lemma instances_reading {A} s d (f : A → Body) r :
  Declines r →
  let o := unless (checkWorkspace "default") d (unless (checkInstances s) d (reply_read f r d)) in
  o.1.2 = d ∧ code o.1.1 ≠ 201.
Proof.
  intros Hr o. destruct (unless_reading (checkInstances s) d (reply_read f r d)) as [H1 H2];
    [apply instances_guard|done|by apply reply_reading|]. by apply unless_reading; [apply workspace_guard|..].
Qed.

(** What the reading half of a resource promises. *)
Class ReadResource (A : Type) `{Resource A} := {
  read_get id :: Reading (λ s env d, res_get s env "default" id d);
  read_list limit token :: Reading (λ s env d, res_list s env "default" limit token d)
}.
#[export] Instance read_vpc : ReadResource VpcBody.
Proof. split; intros; intros s env d; apply resources_reading; apply _. Qed.
#[export] Instance read_subnet : ReadResource SubnetBody.
Proof. split; intros; intros s env d; apply resources_reading; apply _. Qed.
#[export] Instance read_instance : ReadResource InstanceBody.
Proof. split; intros; intros s env d; apply instances_reading; apply _. Qed.

(** ** Commands keep a property of their session *)
Section preserves.
Context (P : Session → Prop).
Definition preserves {A} (m : Cmd A) : Prop := ∀ w, P w → P (m w).2.

Lemma preserves_ret {A} (a : A) : preserves (mret a).
Proof. by intros w. Qed.
Lemma preserves_bind {A B} (m : Cmd A) (f : A → Cmd B) : preserves m → (∀ a, preserves (f a)) → preserves (m ≫= f).
Proof.
  intros Hm Hf w Hw. specialize (Hm w Hw). unfold mbind, Cmd_bind. destruct (m w) as [a w1]. by apply Hf.
Qed.
Lemma preserves_try {A B} (m : Cmd (option (result A))) (f : A → Cmd (option (result B))) :
  preserves m → (∀ a, preserves (f a)) → preserves (try m f).
Proof. intros Hm Hf. apply preserves_bind; [done|]. intros [[a|e]|]; [apply Hf|apply preserves_ret..]. Qed.
End preserves.

Ltac stroll :=
  repeat match goal with
  | |- preserves _ (mret _) => apply preserves_ret
  | |- preserves _ (ok _) => apply preserves_ret
  | |- preserves _ (fails _) => apply preserves_ret
  | |- preserves _ (printed _) => apply preserves_ret
  | |- preserves _ (try _ _) => apply preserves_try; [|intros ?]
  | |- preserves _ (_ ≫= _) => apply preserves_bind; [|intros ?]
  | |- preserves _ (match ?x with _ => _ end) => destruct x
  | _ => progress cbv beta iota zeta
  end.

(** Loops and commands built from reads and looks. *)
Section reads.
Context (lk : Link) (api : resourceClient) (P : Session → Prop).
Context (Hobserve : ∀ A (f : nat → A), preserves P (observe f)).
Context {R : Type} `{ReadResource R}.
Context (Hget : ∀ id, preserves P (sendGet (A := R) lk api id)).
Context (Hlist : ∀ limit token, preserves P (sendList (A := R) lk api limit token)).

Lemma waitError_preserves id timeout : preserves P (waitError lk id timeout).
Proof using Hobserve. unfold waitError. stroll; apply Hobserve. Qed.

Lemma waitResource_preserves fuel id deleting timeout :
  preserves P (waitResource (A := R) lk api fuel id deleting timeout).
Proof using Hobserve Hget.
  induction fuel as [|fuel IH]; cbn [waitResource]; [apply preserves_ret|].
  assert (preserves P (e ← waitError lk id timeout; fails (A := R) e)) as Hstop
    by (stroll; apply waitError_preserves).
  assert (preserves P (paused ← pollPause lk;
    match paused with Some _ => e ← waitError lk id timeout; fails e
    | None => waitResource (A := R) lk api fuel id deleting timeout end)) as Hagain.
  { apply preserves_bind; [apply Hobserve|]. intros [e|]; [exact Hstop|exact IH]. }
  apply preserves_bind; [apply Hobserve|]. intros [e|]; [exact Hstop|].
  apply preserves_bind; [apply Hget|]. intros [response|e]; [|exact Hagain].
  destruct (_ && _); [apply preserves_ret|]. destruct (cr_JSON response) as [item|]; [|apply preserves_ret].
  destruct (_ ==? _); [apply preserves_ret|]. destruct (_ && _); [apply preserves_ret|exact Hagain].
Qed.

Lemma resolvePages_preserves fuel reference token seen found :
  preserves P (resolvePages (A := R) lk api fuel reference token seen found).
Proof using Hlist.
  revert token seen found. induction fuel as [|fuel IH]; intros; cbn [resolvePages]; [apply preserves_ret|].
  stroll; try apply Hlist; try apply IH.
Qed.

Lemma resolve_preserves fuel reference : preserves P (resolve (A := R) lk api fuel reference).
Proof using Hlist Hget. unfold resolve. stroll; try apply Hget; apply resolvePages_preserves. Qed.
End reads.

(** ** Creating at most once *)

(** What a create command relies on: no one else uses its key, less than a day
    passes, and the daemon's entropy is bytes. *)
Record courteous (lk : Link) (operation key : string) (t : Z) : Prop := {
  co_others n : Forall (elsewhere operation key) (k_others lk n);
  co_clock n : t ≤ env_now (k_env lk n) < t + day;
  co_random n : Forall is_byte (env_random (k_env lk n)) ∧ Forall is_byte (env_random2 (k_env lk n))
}.

Abbreviation entry := (DB * Response * DB)%type.
Definition unchanged (e : entry) : Prop := e.1.1 = e.2.
Definition answered (e : entry) : Prop := code e.1.2 = 201.

Section once.
Context (lk : Link) (api : resourceClient) (operation key : string) (t : Z) (Hco : courteous lk operation key t).
Context {T : Type} `{Snapshot T} (handler : server → Env → DB → Outcome) (f : T → Body).
Context {Hcr : Creation operation key handler f}.

(** Nothing was created yet, or one request created [x] and it is on record. *)
Inductive phase (base : list entry) (w : Session) : Prop :=
  | phase_before L :
      Inv (c_db w) → c_log w = base ++ L → Forall (λ e, unchanged e ∧ ¬ answered e) L →
      idempotency (c_db w) !! record_of operation key = None → phase base w
  | phase_after L1 e L2 x :
      Inv (c_db w) → c_log w = base ++ L1 ++ e :: L2 → Forall (λ e, unchanged e ∧ ¬ answered e) L1 →
      answered e → body e.1.2 = f x → Forall (λ e, unchanged e ∧ (answered e → body e.1.2 = f x)) L2 →
      recalls operation key (t + day) x (c_db w) → phase base w.

(** A request that reached the daemon, and what it leaves. *)
Lemma phase_entry base w d r d' :
  phase base w → steps (c_db w) d → (∀ rec, idempotency d !! record_of operation key = rec ↔
    idempotency (c_db w) !! record_of operation key = rec) →
  (idempotency d !! record_of operation key = None → Inv d →
    (unchanged (d, r, d') ∧ ¬ answered (d, r, d')) ∨
    (answered (d, r, d') ∧ ∃ x, body r = f x ∧ recalls operation key (t + day) x d')) →
  (∀ x, recalls operation key (t + day) x d → Inv d →
    unchanged (d, r, d') ∧ (answered (d, r, d') → body r = f x)) →
  steps d d' → ∀ n, phase base (MkSession d' n (c_log w ++ [(d, r, d')])).
Proof using.
  intros Hp Hs Hrec Hnew Hold Hs' n. assert (Inv d' ∧ Inv d) as [I' Id].
  { destruct Hp as [L I|L1 e L2 x I]; split; eauto using steps_Inv. }
  destruct Hp as [L I Hl HL Hn|L1 e L2 x I Hl HL1 He Hb HL2 (rec & Hr & Hx)].
  - destruct (Hnew (proj2 (Hrec _) Hn) Id) as [[Hu Ha]|(Ha & x & Hb & Hx)].
    + eapply (phase_before _ _ (L ++ [(d, r, d')])); simpl; [done|by rewrite Hl, app_assoc| |].
      * apply Forall_app. split; [done|]. by apply Forall_singleton.
      * unfold unchanged in Hu. simpl in Hu. subst d'. by apply Hrec.
    + eapply (phase_after _ _ L (d, r, d') [] x); simpl; try done. by rewrite Hl, app_assoc.
  - destruct (Hold x) as [Hu Ha]; [exists rec; split; [by apply Hrec|done]|done|].
    unfold unchanged in Hu. simpl in Hu. subst d'.
    eapply (phase_after _ _ L1 e (L2 ++ [(d, r, d)]) x); simpl; try done.
    + by rewrite Hl, <- !app_assoc.
    + apply Forall_app. split; [done|]. by apply Forall_singleton.
    + exists rec. split; [by apply Hrec|done].
Qed.

Lemma phase_others base w n :
  phase base w → phase base (MkSession (execute_all (k_others lk n) (c_db w)) (S n) (c_log w)).
Proof using Hco.
  pose proof (co_others _ _ _ _ Hco n) as Ho.
  intros [L I Hl HL Hn|L1 e L2 x I Hl HL1 He Hb HL2 Hx].
  - eapply (phase_before _ _ L); simpl; try done; [by apply execute_all_steps|]. by rewrite execute_all_elsewhere.
  - eapply (phase_after _ _ L1 e L2 x); simpl; try done; [by apply execute_all_steps|]. by apply recalls_others.
Qed.

Lemma phase_Inv base w : phase base w → Inv (c_db w).
Proof using. by intros []. Qed.

(** Either request of a create command keeps the phase. *)
Lemma phase_send base {A} path h (parse : HTTPResponse → result (ClientResponse A)) :
  (∀ s env d, Inv d → steps d (h s env d).1.2) →
  (∀ n d, Inv d → idempotency d !! record_of operation key = None →
     create_answer d f (λ r, ∀ x, r.1.1 = Ok x → recalls operation key (t + day) x r.1.2)
       (h (k_server lk n) (k_env lk n) d)) →
  (∀ n d x, Inv d → recalls operation key (t + day) x d →
     (h (k_server lk n) (k_env lk n) d).1.2 = d ∧
     (code (h (k_server lk n) (k_env lk n) d).1.1 = 201 → body (h (k_server lk n) (k_env lk n) d).1.1 = f x)) →
  preserves (phase base) (send lk api path h parse).
Proof using Hco.
  intros Hs Hnew Hold w Hw. pose proof (phase_others base w (c_time w) Hw) as Hd. unfold send.
  set (d := execute_all _ _) in *. set (n := c_time w) in *. pose proof (phase_Inv _ _ Hd) as Id. simpl in Id.
  destruct (boundary _ _ _ d) as [[r d'] hints] eqn:E.
  assert (phase base (MkSession d' (S n) (c_log w ++ [(d, r, d')]))) as Hreached.
  { apply (phase_entry base (MkSession d (S n) (c_log w)) d r d' Hd); simpl; [apply rtc_refl|done| | |].
    all: destruct (boundary_guard (k_token lk) (MkHeaders (cl_host api) "" ("Bearer " +:+ cl_token api) path)
      (h (k_server lk n) (k_env lk n)) d) as [Eb|(r' & Eb & Hc)]; rewrite E in Eb.
    - intros Hn I. specialize (Hnew n d I Hn). rewrite <- Eb in Hnew.
      destruct Hnew as [[Hc Hu]|(x & Hx & Hc & Hb)]; [by left|]. right. split; [done|]. exists x. by split; [|apply Hx].
    - simplify_eq. left. split; [done|]. unfold answered. simpl. lia.
    - intros x Hx I. specialize (Hold n d x I Hx). rewrite <- Eb in Hold. destruct Hold as [Hu Hc]. by split.
    - simplify_eq. split; [done|]. unfold answered. simpl. lia.
    - specialize (Hs (k_server lk n) (k_env lk n) d Id). by rewrite <- Eb in Hs.
    - simplify_eq. apply rtc_refl. }
  destruct (k_fate lk n) as [|[] e|[] status]; done.
Qed.

Lemma phase_create base {A} path (parse : HTTPResponse → result (ClientResponse A)) :
  preserves (phase base) (send lk api path handler parse).
Proof using Hco Hcr.
  apply phase_send.
  - intros s env d. apply creation_steps.
  - intros n d I Hn. destruct (co_random _ _ _ _ Hco n), (co_clock _ _ _ _ Hco n) as [Ht _].
    eapply create_answer_impl; [|by apply creation_fresh]. intros a d' h Ha x Hx.
    destruct (Ha x Hx) as (rec & ? & Hle & ?). exists rec. split_and!; [done|lia|done].
  - intros n d x I Hx. apply (creation_again _ _ _ (t + day)); [done..|]. apply (co_clock _ _ _ _ Hco).
Qed.

Lemma phase_read base {A} path h (parse : HTTPResponse → result (ClientResponse A)) :
  Reading h → preserves (phase base) (send lk api path h parse).
Proof using Hco.
  intros Hr. apply phase_send.
  - intros s env d _. rewrite (proj1 (Hr s env d)). apply rtc_refl.
  - intros n d _ _. left. by destruct (Hr (k_server lk n) (k_env lk n) d).
  - intros n d x _ _. by destruct (Hr (k_server lk n) (k_env lk n) d).
Qed.

Lemma phase_observe base {A} (g : nat → A) : preserves (phase base) (observe g).
Proof using.
  intros w [L I Hl HL Hn|L1 e L2 x I Hl HL1 He Hb HL2 Hx].
  - by apply (phase_before _ _ L).
  - by apply (phase_after _ _ L1 e L2 x).
Qed.

Lemma attempts_preserves {A} P more (request : Cmd (result (ClientResponse A))) :
  preserves P request → (∀ B (g : nat → B), preserves P (observe g)) → preserves P (attempts lk more request).
Proof using.
  intros Hr Ho. induction more as [|more IH]; cbn [attempts]; stroll; try apply Hr; try apply Ho; apply IH.
Qed.
End once.

(** ** What a success means *)

(** The log only grows. *)
Lemma log_send lk api {A} path h (parse : HTTPResponse → result (ClientResponse A)) L :
  preserves (λ w, L `prefix_of` c_log w) (send lk api path h parse).
Proof.
  intros w Hw. unfold send. destruct (boundary _ _ _ _) as [[r d'] hints].
  destruct (k_fate lk (c_time w)) as [|[] e|[] status]; simpl; try done; by apply prefix_app_r.
Qed.
Lemma log_observe {A} (g : nat → A) L : preserves (λ w, L `prefix_of` c_log w) (observe g).
Proof. by intros w. Qed.

(** A success comes from the daemon. *)
Lemma send_success lk api {A} path h dec (zero : A) w response item w' :
  send lk api path h (parseResponse 201 dec zero) w = (Ok response, w') → cr_JSON response = Some item →
  ∃ e, c_log w' = c_log w ++ [e] ∧ answered e.
Proof.
  unfold send. destruct (boundary _ _ _ _) as [[r d'] hints]. intros Hs Hj.
  assert (∀ status body, parseResponse 201 dec zero (MkHTTPResponse status "text/html" body) ≠ Ok response) as Hno.
  { intros status b Hp. unfold parseResponse in Hp. simpl in Hp. by simplify_eq. }
  destruct (k_fate lk (c_time w)) as [|[] e|[] status]; simplify_eq; try (exfalso; by eapply Hno).
  eexists. split; [done|]. unfold answered. simpl.
  match goal with H : parseResponse _ _ _ (wire r) = _ |- _ => rename H into Hp end.
  unfold parseResponse, wire in Hp. cbn [rsp_StatusCode rsp_ContentType rsp_Body] in Hp.
  destruct (code r =? 201) eqn:E; [by apply Z.eqb_eq|]. rewrite andb_false_r in Hp.
  destruct (_ && _); [destruct (unmarshal_body dec_ErrorBody _ _)|]; by simplify_eq/=.
Qed.

Lemma attempts_success lk api {A} path h dec (zero : A) more w response item w' :
  attempts lk more (send lk api path h (parseResponse 201 dec zero)) w = (inr (Ok response), w') →
  cr_JSON response = Some item → ∃ L e, c_log w' = c_log w ++ L ++ [e] ∧ answered e.
Proof.
  revert w. induction more as [|more IH]; intros w Ha Hj; cbn [attempts] in Ha; unfold mbind, Cmd_bind in Ha;
    destruct (send _ _ _ _ _ w) as [r1 w1] eqn:E1.
  - assert (r1 = Ok response ∧ w1 = w') as [-> ->] by (destruct (negb _); by injection Ha as -> ->).
    destruct (send_success _ _ _ _ _ _ _ _ _ _ E1 Hj) as (e & ? & ?). by exists [], e.
  - destruct (negb (transient r1)).
    { injection Ha as -> ->.
      destruct (send_success _ _ _ _ _ _ _ _ _ _ E1 Hj) as (e & ? & ?). by exists [], e. }
    unfold retryDelay, observe in Ha. destruct (k_pause lk (c_time w1)) as [e|]; [done|].
    apply IH in Ha as (L & e & Hl & He); [|done]. simpl in Hl.
    pose proof (log_send lk api path h (parseResponse 201 dec zero) (c_log w) w) as [k Hk]; [done|].
    rewrite E1 in Hk. simpl in Hk. exists (k ++ L), e. split; [|done]. by rewrite Hl, Hk, !app_assoc.
Qed.

Section commands_once.
Context (lk : Link) (api : resourceClient) (t : Z).

Section one.
Context {R : Type} `{Hres : Resource R} {Hread : ReadResource R} {T : Type} `{Snapshot T} (operation key path : string) (f : T → Body).
Context (handler : server → Env → DB → Outcome) (dec : json → R → result R) (zero : R).
Context (request : string → Cmd (result (ClientResponse R))).
Context (Hco : courteous lk operation key t) {Hcr : Creation operation key handler f}.
Context (Hreq : request key = send lk api path handler (parseResponse 201 dec zero)).

Lemma createCommand_phase fuel what o base w :
  newIdempotencyKey (k_random lk (c_time w)) = Ok key → phase operation key t f base w →
  phase operation key t f base (createCommand lk api fuel what request o w).2.
Proof using Hco Hcr Hreq Hread.
  intros Hkey Hw. unfold createCommand, mbind, Cmd_bind, observe. rewrite Hkey, Hreq.
  assert (preserves (phase operation key t f base)
    (sent ← attempts lk 2 (send lk api path handler (parseResponse 201 dec zero));
     match sent with
     | inl e => fails e
     | inr (Err e) => fails (Wrapf (Sprintf (what +:+ " request: %w") []) e)
     | inr (Ok response) =>
         match cr_JSON response with
         | None => fails (responseError what response)
         | Some item =>
             try (if opt_wait o then waitResource lk api fuel (res_id item) false (opt_timeout o) else ok item)
               (λ item, printed (writeResource (res_body item) (opt_output o)))
         end
     end)) as Hp.
  { apply preserves_bind.
    { apply attempts_preserves; [by apply phase_create|intros; apply phase_observe]. }
    intros sent. stroll. apply waitResource_preserves; [intros; apply phase_observe|].
    intros id. apply phase_read; [done|apply _]. }
  apply (Hp (MkSession (c_db w) (S (c_time w)) (c_log w))).
  by apply (phase_observe operation key t f base (λ _, tt) w).
Qed.

Lemma createCommand_success fuel what o w out w' :
  newIdempotencyKey (k_random lk (c_time w)) = Ok key →
  createCommand lk api fuel what request o w = (Some (Ok out), w') →
  ∃ L e, c_log w ++ L ++ [e] `prefix_of` c_log w' ∧ answered e.
Proof using Hreq.
  intros Hkey Hc. unfold createCommand, mbind, Cmd_bind, observe in Hc. rewrite Hkey, Hreq in Hc.
  destruct (attempts _ _ _ _) as [sent w1] eqn:Ea. destruct sent as [e|[response|e]]; [done| |done].
  destruct (cr_JSON response) as [item|] eqn:Ej; [|done].
  destruct (attempts_success _ _ _ _ _ _ _ _ _ _ _ Ea Ej) as (L & e & Hl & He). simpl in Hl.
  exists L, e. split; [|done]. rewrite <- Hl. clear - Hc.
  assert (preserves (λ w, c_log w1 `prefix_of` c_log w)
    (try (if opt_wait o then waitResource (A := R) lk api fuel (res_id item) false (opt_timeout o) else ok item)
      (λ item, printed (writeResource (res_body item) (opt_output o))))) as Hp.
  { stroll. apply waitResource_preserves; [intros; apply log_observe|]. intros id. apply log_send. }
  specialize (Hp w1). rewrite Hc in Hp. by apply Hp.
Qed.
End one.
End commands_once.

(** What a create command did: [created] is the request that took effect. *)
Definition once (w : Session) (run : option (result (list Z)) * Session) : Prop :=
  ∃ before created after x,
    c_log run.2 = c_log w ++ before ++ created ++ after ∧
    Forall unchanged (before ++ after) ∧ (length created ≤ 1)%nat ∧
    Forall (λ e, answered e → body e.1.2 = x) (before ++ created ++ after) ∧
    (∀ out, run.1 = Some (Ok out) → ∃ e, created = [e] ∧ answered e).

Lemma phase_once operation key t {T} `{Snapshot T} (f : T → Body) w run :
  phase operation key t f (c_log w) run.2 →
  (∀ out, run.1 = Some (Ok out) → ∃ L e, c_log w ++ L ++ [e] `prefix_of` c_log run.2 ∧ answered e) → once w run.
Proof.
  intros [L I Hl HL Hn|L1 e L2 x I Hl HL1 He Hb HL2 Hx] Hok.
  - exists L, [], [], (BHealth ""). rewrite !app_nil_r. split_and!; [done| |simpl; lia| |].
    + eapply Forall_impl; [exact HL|]. by intros e [? _].
    + eapply Forall_impl; [exact HL|]. by intros e [_ ?].
    + intros out (L' & e & [k Hk] & He)%Hok. exfalso. rewrite Hk, <- !app_assoc in Hl. apply app_inj_1 in Hl as [_ <-]; [|done].
      rewrite !Forall_app, Forall_singleton in HL. naive_solver.
  - exists L1, [e], L2, (f x). split_and!; [done| |simpl; lia| |by eauto].
    + apply Forall_app. split; [eapply Forall_impl; [exact HL1|]|eapply Forall_impl; [exact HL2|]]; by intros e' [? _].
    + rewrite !Forall_app, Forall_singleton.
      split_and!; [eapply Forall_impl; [exact HL1|]; by intros e' [_ ?]|done|eapply Forall_impl; [exact HL2|]; by intros e' [_ ?]].
Qed.

(** The keys a command may draw are 16 random bytes that no one else uses. *)
Record prudent (lk : Link) (operation : string) (t : Z) (d : DB) : Prop := {
  pr_random n bs : k_random lk n = Ok bs → length bs = 16%nat;
  pr_courteous n key : newIdempotencyKey (k_random lk n) = Ok key → courteous lk operation key t;
  pr_fresh n key : newIdempotencyKey (k_random lk n) = Ok key → idempotency d !! record_of operation key = None
}.

Section whole_commands.
Context (lk : Link) (api : resourceClient) (operation : string) (t : Z).
Context (d0 : DB) (Hpr : prudent lk operation t d0).

Lemma key_nonempty n key :
  (∀ bs, k_random lk n = Ok bs → length bs = 16%nat) → newIdempotencyKey (k_random lk n) = Ok key → key ≠ "".
Proof using.
  unfold newIdempotencyKey. intros Hl Hk. destruct (k_random lk n) as [bs|]; [|done]. simplify_eq/=.
  specialize (Hl bs eq_refl). destruct bs; [done|]. apply b64_Encode_nonempty.
Qed.

(** Before the key is drawn, the command has only read. *)
Definition only_read (base : list entry) (w : Session) : Prop :=
  ∃ L, Inv (c_db w) ∧ c_log w = base ++ L ∧ Forall (λ e, unchanged e ∧ ¬ answered e) L ∧
    ∀ n key, newIdempotencyKey (k_random lk n) = Ok key → idempotency (c_db w) !! record_of operation key = None.

Lemma only_read_observe base {A} (g : nat → A) : preserves (only_read base) (observe g).
Proof using. by intros w. Qed.

Lemma only_read_send base {A} path h (parse : HTTPResponse → result (ClientResponse A)) :
  Reading h → preserves (only_read base) (send lk api path h parse).
Proof using Hpr.
  intros Hr w (L & I & Hl & HL & Hn). unfold send. set (d := execute_all _ _). set (n := c_time w).
  assert (Inv d ∧ ∀ n key, newIdempotencyKey (k_random lk n) = Ok key →
            idempotency d !! record_of operation key = None) as [Id Hnd].
  { split; [by apply execute_all_steps|]. intros m key Hk. unfold d.
    rewrite execute_all_elsewhere; [eauto|]. by eapply co_others, (pr_courteous _ _ _ _ Hpr). }
  destruct (boundary _ _ _ d) as [[r d'] hints] eqn:E. assert (d' = d ∧ code r ≠ 201) as [-> Hc].
  { destruct (boundary_guard (k_token lk) (MkHeaders (cl_host api) "" ("Bearer " +:+ cl_token api) path)
      (h (k_server lk n) (k_env lk n)) d) as [Eb|(r' & Eb & Hc)]; rewrite E in Eb; [|simplify_eq; split; [done|lia]].
    pose proof (Hr (k_server lk n) (k_env lk n) d) as Hrd. by rewrite <- Eb in Hrd. }
  assert (only_read base (MkSession d (S n) (c_log w ++ [(d, r, d)]))).
  { exists (L ++ [(d, r, d)]). split_and!; simpl; [done|by rewrite Hl, app_assoc| |done].
    apply Forall_app. split; [done|]. by apply Forall_singleton. }
  assert (only_read base (MkSession d (S n) (c_log w))) by by exists L.
  destruct (k_fate lk n) as [|[] e|[] status]; done.
Qed.

Lemma create_command_once {R} `{Hres : Resource R, Hread : !ReadResource R} {T} `{Snapshot T} path (f : T → Body)
    handler dec (zero : R) request fuel what o w0 w :
  only_read (c_log w0) w →
  (∀ key, request key = send lk api path (handler key) (parseResponse 201 dec zero)) →
  (∀ key, key ≠ "" → Creation operation key (handler key) f) →
  once w0 (createCommand lk api fuel what request o w).
Proof using Hpr.
  intros (L & I & Hl & HL & Hn) Hreq Hcr. destruct (newIdempotencyKey (k_random lk (c_time w))) as [key|e] eqn:Hkey.
  - assert (Creation operation key (handler key) f) as Hc
      by (apply Hcr; eapply key_nonempty; [apply (pr_random _ _ _ _ Hpr)|done]).
    pose proof (pr_courteous _ _ _ _ Hpr _ _ Hkey) as Hco. apply (phase_once operation key t f).
    + eapply createCommand_phase; [exact Hread|exact Hco|exact Hc|apply Hreq|done|]. by eapply phase_before; eauto.
    + intros out Hout. destruct (createCommand lk api fuel what request o w) as [res w'] eqn:E. simpl in Hout. subst res.
      destruct (createCommand_success lk api key path (handler key) dec zero request (Hreq key) _ _ _ _ _ _ Hkey E)
        as (L' & e & Hpre & He). rewrite Hl, <- app_assoc in Hpre. exists (L ++ L'), e. by rewrite <- app_assoc.
  - unfold createCommand, mbind, Cmd_bind, observe. rewrite Hkey. exists L, [], [], (BHealth ""). rewrite !app_nil_r.
    split_and!; [done| |simpl; lia| |done]; (eapply Forall_impl; [exact HL|]); [by intros e' [? _]|by intros e' [_ ?]].
Qed.

Lemma only_read_once w0 w res : only_read (c_log w0) w → (∀ out, res ≠ Some (Ok out)) → once w0 (res, w).
Proof using.
  intros (L & I & Hl & HL & Hn) Hres. exists L, [], [], (BHealth ""). rewrite !app_nil_r.
  split_and!; [done| |simpl; lia| |by intros out ?%Hres]; (eapply Forall_impl; [exact HL|]);
    [by intros e' [? _]|by intros e' [_ ?]].
Qed.

(** A create command that first resolves a name. *)
Lemma resolved_once {R} `{Hres : Resource R, Hread : !ReadResource R} fuel reference w0 w
    (next : string → Cmd (option (result (list Z)))) :
  only_read (c_log w0) w → (∀ id w', only_read (c_log w0) w' → once w0 (next id w')) →
  once w0 (try (resolve (A := R) lk api fuel reference) next w).
Proof using Hpr.
  intros Hw Hnext. assert (only_read (c_log w0) (resolve (A := R) lk api fuel reference w).2) as Hw'.
  { apply resolve_preserves; [intros; apply only_read_send; apply _..|done]. }
  unfold try, mbind, Cmd_bind. destruct (resolve _ _ _ _ w) as [[[id|e]|] w']; [by apply Hnext|..];
    by apply only_read_once.
Qed.

Lemma only_read_start w : Inv (c_db w) → c_db w = d0 → only_read (c_log w) w.
Proof using Hpr.
  intros I Hd. exists []. split_and!; [done|by rewrite app_nil_r|constructor|]. rewrite Hd. apply (pr_fresh _ _ _ _ Hpr).
Qed.
End whole_commands.

Lemma nonempty_key (key : string) : key ≠ "" → TCEq (key ==? "") false.
Proof. intros Hk. by rewrite (proj2 (beq_false _ _) Hk). Qed.

(** C29: A create command of the CLI, which sends its request up to three times when
    requests or answers get lost or an intermediary answers, creates at most one
    resource, whatever other clients and the reconcilers do meanwhile (without its
    random Idempotency-Key, within a day): of the requests the daemon handled, all but
    one left the database as it was, all that report a creation report the same
    resource, and a command that succeeds has created it. *)
Theorem cli_creates_at_most_once lk api fuel o w t :
  Inv (c_db w) →
  (prudent lk "create-vpc" t (c_db w) → once w (runVPC lk api fuel "create" o w)) ∧
  (prudent lk "create-subnet" t (c_db w) → once w (runSubnet lk api fuel "create" o w)) ∧
  (prudent lk "run-instance" t (c_db w) → once w (instanceCommand lk api fuel "run" o w)).
Proof.
  intros I. split_and!; intros Hpr; pose proof (only_read_start lk _ t _ Hpr w I eq_refl) as Hw.
  - eapply (create_command_once lk api _ t _ Hpr _ (λ v, BVpc (vpcResponse v))
      (λ key s env d, CreateVpc s env "default" (Some key) _ d)); [done|done|].
    intros key Hk%nonempty_key. apply _.
  - eapply (resolved_once lk api _ t _ Hpr); [done|]. intros id w' Hw'.
    eapply (create_command_once lk api _ t _ Hpr _ (λ v, BSubnet (subnetResponse v))
      (λ key s env d, api_CreateSubnet s env "default" (Some key) _ d)); [done|done|].
    intros key Hk%nonempty_key. apply _.
  - eapply (resolved_once lk api _ t _ Hpr); [done|]. intros id w' Hw'.
    eapply (create_command_once lk api _ t _ Hpr _ (λ v, BInstance (instanceResponse v))
      (λ key s env d, RunInstance s env "default" (Some key) _ d)); [done|done|].
    intros key Hk%nonempty_key. apply _.
Qed.

(** A link that loses the first answer. *)
Definition lossy_link : Link := MkLink (λ _, []) (λ _, at_time 1000 7)
  (λ _, MkServer true true true true "dev" "none") "secret"
  (λ n, if (n =? 1)%nat then Failed true (ErrIO "connection reset") else Delivered)
  (λ _, None) (λ _, None) (λ _, None) (λ _, Ok (seqZ 1 16)).
Definition demo_client : resourceClient := MkClient "127.0.0.1:7788" "secret".
Definition demo_options : resourceOptions :=
  MkResourceOptions "main" "10.0.0.0/16" "" "" "" "human" false "2m0s" 0 "".

Lemma lossy_prudent : prudent lossy_link "create-vpc" 1000 initialDB.
Proof.
  split.
  - intros n bs [= <-]. done.
  - intros n key _. split; intros m; [constructor| |].
    + split; [apply Z.leb_le|apply Z.ltb_lt]; vm_compute; reflexivity.
    + assert (Forall is_byte (bytes9 7)) by (repeat constructor; unfold is_byte; lia). done.
  - intros n key _. apply lookup_empty.
Qed.

(** Witness: the command succeeds although the answer to its first request is lost, and
    there is one VPC. *)
Lemma cli_creates_witness :
  let run := runVPC lossy_link demo_client 5 "create" demo_options (MkSession initialDB 0 []) in
  (match run.1 with Some (Ok _) => true | _ => false end, length (c_log run.2),
   length (map_to_list (vpcs (c_db run.2)))) = (true, 2%nat, 1%nat) ∧
  once (MkSession initialDB 0 []) run.
Proof.
  intros run. split; [vm_compute; reflexivity|].
  destruct (cli_creates_at_most_once lossy_link demo_client 5 demo_options (MkSession initialDB 0 []) 1000 initial_Inv)
    as [H _]. exact (H lossy_prudent).
Defined.
