(* ===== verification/Queue.v ===== *)
(** The acceleration queue and retry table that both reconcilers own:
    [Enqueue], [pop], [retry], [clearRetry] and [enqueueDueRetries] of
    [internal/reconcile/controller.go]; [instance.go] has the same code.

    Times are nanoseconds.  Where the code ranges over a Go map, whose order is
    unspecified, the order is an argument. *)

From S2P Require Import Prelude Errors.
Local Open Scope Z_scope.

Definition millisecond : Z := 1000000.
Definition second : Z := 1000000000.
Definition defaultInterval : Z := 60 * second.
Definition queueLimit : Z := 1024.
Definition retryBase : Z := 100 * millisecond.
Definition retryMax : Z := 30 * second.

Record retryEntry := MkRetry { attempt : Z; due : Z }.
Record queue := MkQueue { pending : gset string; retries : gmap string retryEntry; wake : bool }.

(** [New]: the interval and the empty queue. *)
Definition newInterval (interval : Z) : Z := if interval <=? 0 then defaultInterval else interval.
Definition newQueue : queue := MkQueue ∅ ∅ false.

Definition room (q : queue) : bool := Z.of_nat (size (pending q)) <? queueLimit.

Definition Enqueue (id : string) (q : queue) : queue :=
  if id ==? "" then q
  else MkQueue (if room q then {[id]} ∪ pending q else pending q) (retries q) true.

(** [pop] removes and returns the key that the map iteration yields first. *)
Definition pop (pick : nat) (q : queue) : string * queue :=
  let l := elements (pending q) in
  match l !! (pick mod length l)%nat with
  | Some id => (id, MkQueue (pending q ∖ {[id]}) (retries q) (wake q))
  | None => ("", q)
  end.

(** [for n := 1; n < attempt && delay < retryMax; n++]; the delay doubles, so
    nine rounds reach [retryMax]. *)
Fixpoint backoff_loop (fuel : nat) (n attempt delay : Z) : Z :=
  match fuel with
  | O => delay
  | S f =>
      if (n <? attempt) && (delay <? retryMax) then
        let delay := delay * 2 in
        let delay := if retryMax <? delay then retryMax else delay in
        backoff_loop f (n + 1) attempt delay
      else delay
  end.
Definition backoff (attempt : Z) : Z := backoff_loop 9 1 attempt retryBase.

Definition retry (now : Z) (id : string) (q : queue) : queue :=
  let entry := default (MkRetry 0 0) (retries q !! id) in
  if (queueLimit <=? Z.of_nat (size (retries q))) && (attempt entry =? 0) then q
  else
    let n := wrap64 (attempt entry + 1) in
    MkQueue (pending q) (<[id := MkRetry n (now + backoff n)]> (retries q)) (wake q).

Definition clearRetry (id : string) (q : queue) : queue :=
  MkQueue (pending q) (delete id (retries q)) (wake q).

Definition enqueueDue (now : Z) (q : queue) (ie : string * retryEntry) : queue :=
  if negb (now <? due ie.2) && room q
  then MkQueue ({[ie.1]} ∪ pending q) (<[ie.1 := MkRetry (attempt ie.2) (now + retryMax)]> (retries q)) (wake q)
  else q.
(** [order] is the order in which the map of retries is visited. *)
Definition enqueueDueRetries (now : Z) (order : list (string * retryEntry)) (q : queue) : queue :=
  foldl (enqueueDue now) q order.

(** ** Lemmas *)
Definition bounded (q : queue) : Prop :=
  Z.of_nat (size (pending q)) ≤ queueLimit ∧ Z.of_nat (size (retries q)) ≤ queueLimit ∧
  ("" ∉ pending q) ∧ (retries q !! "") = None ∧
  (∀ id e, retries q !! id = Some e → 1 ≤ attempt e).

Lemma size_union_singleton (X : gset string) id : (size ({[id]} ∪ X) ≤ S (size X))%nat.
Proof. rewrite size_union_alt, size_singleton. pose proof (subseteq_size (X ∖ {[id]}) X ltac:(set_solver)). lia. Qed.

Lemma room_spec q : room q = true ↔ Z.of_nat (size (pending q)) < queueLimit.
Proof. unfold room. apply Z.ltb_lt. Qed.

Lemma bounded_Enqueue id q : bounded q → bounded (Enqueue id q).
Proof.
  intros (Hp & Hr & He & Hn & Ha). unfold Enqueue. destruct (id ==? "") eqn:E; [done|]. reflect_bools.
  unfold bounded. simpl. destruct (room q) eqn:R; [|done].
  apply room_spec in R. pose proof (size_union_singleton (pending q) id). split_and!; auto; [lia|set_solver].
Qed.

Lemma pop_spec pick q id q' :
  pop pick q = (id, q') →
  (pending q = ∅ ∧ id = "" ∧ q' = q) ∨
  (id ∈ pending q ∧ q' = MkQueue (pending q ∖ {[id]}) (retries q) (wake q)).
Proof.
  unfold pop. destruct (_ !! _) as [x|] eqn:E; intros [= <- <-].
  - right. split; [|done]. apply list_elem_of_lookup_2 in E. set_solver.
  - left. split; [|done]. apply lookup_ge_None in E.
    destruct (elements (pending q)) as [|x l] eqn:El; [by apply elements_empty_inv in El as ->%leibniz_equiv|].
    exfalso. pose proof (Nat.mod_upper_bound pick (length (x :: l)) ltac:(done)). lia.
Qed.

Lemma bounded_pop pick q id q' : bounded q → pop pick q = (id, q') → bounded q'.
Proof.
  intros (Hp & Hr & He & Hn & Ha) [(_ & _ & ->)|(Hid & ->)]%pop_spec; [done|].
  unfold bounded. simpl. pose proof (subseteq_size (pending q ∖ {[id]}) (pending q) ltac:(set_solver)).
  split_and!; auto; [lia|set_solver].
Qed.

Lemma bounded_clearRetry id q : bounded q → bounded (clearRetry id q).
Proof.
  intros (Hp & Hr & He & Hn & Ha). unfold bounded, clearRetry. simpl. split_and!; auto.
  - rewrite map_size_delete. destruct (retries q !! id); unfold Datatypes.id; lia.
  - apply lookup_delete_None. auto.
  - intros i e [_ H]%lookup_delete_Some. eauto.
Qed.

Lemma size_insert_le (m : gmap string retryEntry) id e :
  (size (<[id := e]> m) ≤ S (size m))%nat.
Proof. rewrite map_size_insert. destruct (m !! id); unfold Datatypes.id; lia. Qed.

(** Attempts stay far from the bounds of [int]. *)
Definition few_attempts (q : queue) : Prop := ∀ id e, retries q !! id = Some e → attempt e < 2 ^ 63 - 1.

Lemma bounded_retry now id q :
  bounded q → few_attempts q → id ≠ "" → bounded (retry now id q).
Proof.
  intros (Hp & Hr & He & Hn & Ha) Hf Hid. unfold retry.
  set (entry := default (MkRetry 0 0) (retries q !! id)).
  assert (0 ≤ attempt entry < 2 ^ 63 - 1 ∧ (attempt entry = 0 → retries q !! id = None)) as [Hb Hz].
  { unfold entry. destruct (retries q !! id) as [e|] eqn:E; simpl; [|split; [lia|done]].
    specialize (Ha _ _ E). specialize (Hf _ _ E). split; [lia|]. lia. }
  destruct (_ && _) eqn:Hc; [done|]. apply andb_false_iff in Hc.
  unfold bounded. simpl. rewrite wrap64_small by lia. split_and!; auto.
  - rewrite map_size_insert. destruct (retries q !! id) eqn:E; [unfold Datatypes.id; lia|].
    destruct Hc; reflect_bools; [lia|]. by simpl in *.
  - by rewrite lookup_insert_ne.
  - intros i e. rewrite lookup_insert_Some. intros [[<- <-]|[_ H]]; simpl; [lia|eauto].
Qed.

(** The delay doubles from 100 ms and stops at 30 s. *)
Lemma backoff_loop_spec fuel n a delay :
  0 < delay ≤ retryMax → 1 ≤ n ≤ a → retryMax ≤ delay * 2 ^ Z.of_nat fuel →
  backoff_loop fuel n a delay = Z.min (delay * 2 ^ (a - n)) retryMax.
Proof.
  revert n delay. induction fuel as [|f IH]; intros n delay Hd Hn Hf.
  - simpl in *. assert (delay = retryMax) as -> by lia.
    assert (1 ≤ 2 ^ (a - n)) by (pose proof (Z.pow_pos_nonneg 2 (a - n)); lia). nia.
  - cbn [backoff_loop]. rewrite Nat2Z.inj_succ, Z.pow_succ_r in Hf by lia.
    destruct (n <? a) eqn:E1; reflect_bools; cbn [andb].
    + assert (2 ^ (a - n) = 2 * 2 ^ (a - (n + 1))) as Hpow.
      { rewrite <- Z.pow_succ_r by lia. f_equal. lia. }
      assert (1 ≤ 2 ^ (a - (n + 1))) by (pose proof (Z.pow_pos_nonneg 2 (a - (n + 1))); lia).
      destruct (delay <? retryMax) eqn:E2; reflect_bools; [|rewrite Hpow; nia].
      destruct (retryMax <? delay * 2) eqn:E3; reflect_bools.
      * rewrite IH by (try lia; pose proof (Z.pow_pos_nonneg 2 (Z.of_nat f)); nia). rewrite Hpow. nia.
      * rewrite IH by lia. rewrite Hpow. f_equal. lia.
    + assert (a - n = 0) as -> by lia. rewrite Z.mul_1_r. lia.
Qed.

Lemma backoff_spec a : 1 ≤ a → backoff a = Z.min (retryBase * 2 ^ (a - 1)) retryMax.
Proof. intros. unfold backoff. apply backoff_loop_spec; unfold retryBase, retryMax, millisecond, second; simpl; lia. Qed.

Lemma bounded_enqueueDue now q ie :
  bounded q → retries q !! ie.1 = Some ie.2 → bounded (enqueueDue now q ie).
Proof.
  intros (Hp & Hr & He & Hn & Ha) Hin. unfold enqueueDue. destruct (_ && _) eqn:E; [|done]. reflect_bools.
  match goal with R : room q = true |- _ => apply room_spec in R end.
  assert (ie.1 ≠ "") by congruence. pose proof (size_union_singleton (pending q) ie.1).
  unfold bounded. simpl. rewrite map_size_insert, Hin. unfold Datatypes.id. split_and!; auto; [lia|set_solver|..].
  - by rewrite lookup_insert_ne.
  - intros i e. rewrite lookup_insert_Some. intros [[<- <-]|[_ H']]; simpl; eauto.
Qed.

(** What a visit of the retry table leaves, entry by entry. *)
Lemma enqueueDueRetries_frame now order q :
  NoDup order.*1 → (∀ ie, ie ∈ order → retries q !! ie.1 = Some ie.2) → bounded q →
  let q' := enqueueDueRetries now order q in
  bounded q' ∧ pending q ⊆ pending q' ∧
  (∀ id, id ∉ order.*1 → retries q' !! id = retries q !! id) ∧
  (∀ id, id ∈ pending q' → id ∈ pending q ∨ ∃ e, (id, e) ∈ order ∧ due e ≤ now) ∧
  (Z.of_nat (size (pending q)) + Z.of_nat (length order) ≤ queueLimit →
   ∀ id e, (id, e) ∈ order → due e ≤ now → id ∈ pending q').
Proof.
  revert q. induction order as [|[id0 e0] order IH]; intros q Hnd Hin Hb; simpl.
  - split_and!; auto. intros _ id e H. by apply not_elem_of_nil in H.
  - apply NoDup_cons in Hnd as [Hnotin Hnd].
    assert (retries q !! id0 = Some e0) as H0 by (apply (Hin (id0, e0)); by left).
    pose proof (bounded_enqueueDue now q (id0, e0) Hb H0) as Hb1.
    set (q1 := enqueueDue now q (id0, e0)) in *.
    assert (∀ id, id ≠ id0 → retries q1 !! id = retries q !! id) as Hother.
    { intros id Hne. unfold q1, enqueueDue. destruct (_ && _); [|done]. simpl. by rewrite lookup_insert_ne. }
    assert (pending q ⊆ pending q1) as Hsub.
    { unfold q1, enqueueDue. destruct (_ && _); [|done]. simpl. set_solver. }
    destruct (IH q1) as (Hb' & Hsub' & Hframe & Honly & Hall); auto.
    { intros [id e] Hie. simpl. rewrite Hother; [apply (Hin (id, e)); by right|].
      intros ->. apply Hnotin. by apply (list_elem_of_fmap_2 fst _ (id0, e)). }
    split_and!; auto; [by etrans|..].
    + intros id Hid. rewrite Hframe by set_solver. apply Hother. set_solver.
    + intros id Hid. destruct (Honly id Hid) as [Hq|(e & He & Hd)].
      * unfold q1, enqueueDue in Hq. destruct (_ && _) eqn:E; [|by left]. reflect_bools. simpl in *.
        apply elem_of_union in Hq as [->%elem_of_singleton|]; [|by left].
        right. exists e0. split; [by left|lia].
      * right. exists e. split; [by right|done].
    + intros Hroom id e [Heq|Hin']%elem_of_cons Hd.
      * simplify_eq. apply Hsub'. unfold q1, enqueueDue. simpl.
        rewrite (proj2 (Z.ltb_ge _ _)) by lia. simpl.
        rewrite (proj2 (room_spec q)) by (simpl in Hroom; lia). simpl. set_solver.
      * eapply Hall; eauto. unfold q1, enqueueDue. destruct (_ && _); simpl in *; [|lia].
        pose proof (size_union_singleton (pending q) id0). lia.
Qed.

(** [retry] depends on the retry table only. *)
Lemma retry_cong now id q q' :
  retries q = retries q' → retries (retry now id q) = retries (retry now id q').
Proof. intros E. unfold retry. rewrite E. by destruct (_ && _). Qed.

(** ** Reachable queues *)

(** What the goroutines of a controller do to its queue, counting the steps. *)
Inductive qreach : nat → queue → Prop :=
  | q_new : qreach 0 newQueue
  | q_enqueue n q id : qreach n q → qreach (S n) (Enqueue id q)
  | q_pop n q pick : qreach n q → qreach (S n) (pop pick q).2
  | q_retry n q now id : qreach n q → id ≠ "" → qreach (S n) (retry now id q)
  | q_clear n q id : qreach n q → qreach (S n) (clearRetry id q)
  | q_due n q now order : qreach n q → order ≡ₚ map_to_list (retries q) →
      qreach (S n) (enqueueDueRetries now order q)
  | q_wake n q : qreach n q → qreach (S n) (MkQueue (pending q) (retries q) false).

Definition attempts_below (n : Z) (q : queue) : Prop := ∀ id e, retries q !! id = Some e → attempt e ≤ n.

Lemma order_spec order (m : gmap string retryEntry) :
  order ≡ₚ map_to_list m → NoDup order.*1 ∧ (∀ ie, ie ∈ order → m !! ie.1 = Some ie.2).
Proof.
  intros Hp. split; [rewrite Hp; apply NoDup_fst_map_to_list|].
  intros [id e] Hin. rewrite Hp in Hin. by apply elem_of_map_to_list in Hin.
Qed.

Lemma attempts_enqueueDue n now order q :
  attempts_below n q → (∀ ie, ie ∈ order → attempt ie.2 ≤ n) →
  attempts_below n (enqueueDueRetries now order q).
Proof.
  revert q. induction order as [|[id e] order IH]; intros q Hq Ho; [done|]. simpl. apply IH.
  - unfold enqueueDue. destruct (_ && _); [|done]. intros i e'. simpl. rewrite lookup_insert_Some.
    intros [[<- <-]|[_ H]]; [|by apply (Hq i)]. apply (Ho (id, e)). by left.
  - intros ie Hie. apply Ho. by right.
Qed.

Lemma qreach_inv n q :
  qreach n q → Z.of_nat n < 2 ^ 63 - 1 → bounded q ∧ attempts_below (Z.of_nat n) q.
Proof.
  induction 1 as [|n q id _ IH|n q pick _ IH|n q now id _ IH Hid|n q id _ IH|n q now order _ IH Ho|n q _ IH];
    intros Hn.
  { assert (∀ id e, retries newQueue !! id = Some e → False) as Hno by (intros id e; apply lookup_empty_Some).
    split; [|intros ?? []%Hno].
    unfold bounded. cbn [pending retries newQueue]. rewrite map_size_empty. change (size (∅ : gset string)) with 0%nat.
    unfold queueLimit. split_and!; try lia; [apply not_elem_of_empty|done|]. intros ?? []%Hno. }
  all: destruct IH as [Hb Ha]; [lia|].
  all: assert (attempts_below (Z.of_nat (S n)) q) as Ha' by (intros i e Hi; specialize (Ha i e Hi); lia).
  - split; [by apply bounded_Enqueue|]. unfold Enqueue. by destruct (id ==? "").
  - destruct (pop pick q) as [id q'] eqn:E. split; [by eapply bounded_pop|].
    by apply pop_spec in E as [(_ & _ & ->)|(_ & ->)].
  - split; [apply bounded_retry; auto; intros i e Hi; specialize (Ha i e Hi); lia|].
    unfold retry. destruct (_ && _); [done|]. intros i e. simpl. rewrite lookup_insert_Some.
    intros [[<- <-]|[_ Hi]]; [|by apply (Ha' i)]. simpl.
    assert (0 ≤ attempt (default (MkRetry 0 0) (retries q !! id)) ≤ Z.of_nat n) as Hbd.
    { destruct (retries q !! id) as [e|] eqn:E; simpl; [|lia]. specialize (Ha id e E).
      destruct Hb as (_ & _ & _ & _ & H1). specialize (H1 id e E). lia. }
    rewrite wrap64_small by lia. lia.
  - split; [by apply bounded_clearRetry|]. intros i e Hi. simpl in Hi. apply lookup_delete_Some in Hi as [_ Hi]. by apply (Ha' i).
  - apply order_spec in Ho as [Hnd Hin]. split; [by apply enqueueDueRetries_frame|].
    apply attempts_enqueueDue; [done|]. intros ie Hie%Hin. by apply (Ha' ie.1).
  - done.
Qed.

(** ** Properties *)

Lemma queue_stays_bounded n q :
  qreach n q → Z.of_nat n < 2 ^ 63 - 1 →
  Z.of_nat (size (pending q)) ≤ 1024 ∧ Z.of_nat (size (retries q)) ≤ 1024 ∧ ("" ∉ pending q) ∧
  (∀ pick, (pop pick q).1 = "" ↔ pending q = ∅).
Proof.
  intros Hr Hn. destruct (qreach_inv n q Hr Hn) as [(Hp & Hs & He & _) _]. split_and!; auto.
  intros pick. destruct (pop pick q) as [id q'] eqn:E. simpl.
  apply pop_spec in E as [(-> & -> & _)|(Hin & _)]; [done|]. split; [by intros ->|]. set_solver.
Qed.
Lemma retry_schedules_backoff now id q :
  let a := attempt (default (MkRetry 0 0) (retries q !! id)) in
  0 ≤ a < 2 ^ 63 - 1 → (a = 0 → Z.of_nat (size (retries q)) < queueLimit) →
  retries (retry now id q) !! id = Some (MkRetry (a + 1) (now + Z.min (retryBase * 2 ^ a) retryMax)) ∧
  pending (retry now id q) = pending q ∧
  retryBase ≤ Z.min (retryBase * 2 ^ a) retryMax ≤ retryMax.
Proof.
  intros a Ha Hroom. unfold retry. fold a.
  assert ((queueLimit <=? Z.of_nat (size (retries q))) && (a =? 0) = false) as ->.
  { apply andb_false_iff. destruct (Z.eq_dec a 0) as [E|]; [left; apply Z.leb_gt; auto|right; by apply Z.eqb_neq]. }
  simpl. rewrite lookup_insert_eq, wrap64_small by lia. rewrite backoff_spec by lia.
  replace (a + 1 - 1) with a by lia. pose proof (Z.pow_pos_nonneg 2 a ltac:(lia) ltac:(lia)).
  split_and!; auto; unfold retryBase, retryMax, millisecond, second; lia.
Qed.
Lemma due_retries_are_enqueued n q now order :
  qreach n q → Z.of_nat n < 2 ^ 63 - 1 → order ≡ₚ map_to_list (retries q) →
  let q' := enqueueDueRetries now order q in
  pending q ⊆ pending q' ∧
  (∀ id, id ∈ pending q' → id ∈ pending q ∨ ∃ e, retries q !! id = Some e ∧ due e ≤ now) ∧
  (Z.of_nat (size (pending q)) + Z.of_nat (size (retries q)) ≤ queueLimit →
   ∀ id e, retries q !! id = Some e → due e ≤ now → id ∈ pending q').
Proof.
  intros Hr Hn Ho q'. destruct (qreach_inv n q Hr Hn) as [Hb _].
  pose proof (order_spec _ _ Ho) as [Hnd Hin].
  destruct (enqueueDueRetries_frame now order q Hnd Hin Hb) as (_ & Hsub & _ & Honly & Hall).
  split_and!; [done|..].
  - intros id [|(e & He & Hd)]%Honly; [by left|right]. exists e. split; [|done]. by apply (Hin (id, e)).
  - intros Hroom id e He Hd. eapply Hall; [| |exact Hd].
    + rewrite Ho, length_map_to_list. done.
    + rewrite Ho. by apply elem_of_map_to_list.
Qed.

(** C40: Whatever the goroutines of a controller do, its queue and its retry table never
    hold more than 1024 entries, and never the empty identifier, which [pop] uses to
    say that the queue is empty.  The n-th consecutive failure of a resource is
    retried after min(100 ms * 2^(n-1), 30 s): the doubling loop is that closed form.
    A visit of the retry table, in any order, enqueues only resources whose retry is
    due or that were already queued, keeps everything that was queued, and enqueues
    every due resource when there is room for the whole table. *)
Theorem retry_queue_is_sound n q :
  qreach n q → Z.of_nat n < 2 ^ 63 - 1 →
  (Z.of_nat (size (pending q)) ≤ 1024 ∧ Z.of_nat (size (retries q)) ≤ 1024 ∧ ("" ∉ pending q) ∧
   ∀ pick, (pop pick q).1 = "" ↔ pending q = ∅) ∧
  (∀ now id, let a := attempt (default (MkRetry 0 0) (retries q !! id)) in
     (a = 0 → Z.of_nat (size (retries q)) < queueLimit) →
     retries (retry now id q) !! id = Some (MkRetry (a + 1) (now + Z.min (retryBase * 2 ^ a) retryMax)) ∧
     pending (retry now id q) = pending q ∧ retryBase ≤ Z.min (retryBase * 2 ^ a) retryMax ≤ retryMax) ∧
  (∀ now order, order ≡ₚ map_to_list (retries q) →
     let q' := enqueueDueRetries now order q in
     pending q ⊆ pending q' ∧
     (∀ id, id ∈ pending q' → id ∈ pending q ∨ ∃ e, retries q !! id = Some e ∧ due e ≤ now) ∧
     (Z.of_nat (size (pending q)) + Z.of_nat (size (retries q)) ≤ queueLimit →
      ∀ id e, retries q !! id = Some e → due e ≤ now → id ∈ pending q')).
Proof.
  intros Hr Hn. split; [by eapply queue_stays_bounded|]. split; [|intros; by eapply due_retries_are_enqueued].
  intros now id a Hroom. apply retry_schedules_backoff; [|done]. destruct (qreach_inv n q Hr Hn) as [(_ & _ & _ & _ & H1) Ha].
  unfold a. destruct (retries q !! id) as [e|] eqn:E; simpl; [|lia].
  specialize (Ha id e E). specialize (H1 id e E). lia.
Qed.

(** Witness: a resource failed; its second failure waits 200 ms, and it is enqueued
    again when its delay has passed. *)
Lemma retry_queue_witness :
  let q := retry 0 "vpc-a" newQueue in
  ("" ∉ pending q) ∧ retries (retry 5 "vpc-a" q) !! "vpc-a" = Some (MkRetry 2 (5 + 200000000)) ∧
  "vpc-a" ∈ pending (enqueueDueRetries 100000000 [("vpc-a", MkRetry 1 100000000)] q).
Proof.
  intros q. destruct (retry_queue_is_sound 1 q) as ((_ & _ & H1 & _) & H2 & H3).
  - apply q_retry; [apply q_new|discriminate].
  - vm_compute. reflexivity.
  - split; [exact H1|]. split.
    + refine (eq_trans (proj1 (H2 5 "vpc-a" _)) _); vm_compute; [discriminate|reflexivity].
    + refine (proj2 (proj2 (H3 100000000 [("vpc-a", MkRetry 1 100000000)] _)) _ "vpc-a" (MkRetry 1 100000000) _ _);
        vm_compute; try reflexivity; discriminate.
Defined.
