(* ===== verification/Controller.v ===== *)
(** The setting the controllers of [internal/reconcile] run in.

    A run of a controller is a function of an oracle that answers for everything
    outside it.  Before each of its store calls the other goroutines of the daemon
    may commit transactions ([o_others]) and enqueue hints ([o_hints]); the
    database may fail ([o_fault]); the clocks ([o_unix], seconds, for what the
    store records and [o_clock], nanoseconds, for the retry table), the
    cancellation of the context ([o_ctx]) and the answers of the interfaces a
    controller drives ([o_call]) are arbitrary.  Calls are numbered by [w_time];
    the calls a controller makes through an interface, and their answers, are
    recorded in [w_trace].  [workMu] makes the runs of [reconcileLocked] and
    [Sweep] of one controller exclusive, so they are not interleaved with one
    another; the queue's mutex is held only inside single queue operations. *)

From S2P Require Import Prelude Errors GoStrings Schema Tx Transitions Queue.
Local Open Scope Z_scope.

(** The calls of an interface and what each returns. *)
Class Effects (E : Type) := answer : E → Type.

Record Oracle (E : Type) `{Effects E} := MkOracle {
  o_others : nat → DB → DB;
  o_hints : nat → list string;
  o_fault : nat → fault;
  o_unix : nat → Z;
  o_clock : nat → Z;
  o_ctx : nat → option error;
  o_call : nat → ∀ e : E, answer e
}.

Record World (E : Type) `{Effects E} := MkWorld {
  w_db : DB; w_queue : queue; w_time : nat; w_trace : list {e : E & answer e}
}.

Arguments MkOracle {E _} _ _ _ _ _ _ _.
Arguments MkWorld {E _} _ _ _ _.
Arguments o_others {E _} _ _ _.
Arguments o_hints {E _} _ _.
Arguments o_fault {E _} _ _.
Arguments o_unix {E _} _ _.
Arguments o_clock {E _} _ _.
Arguments o_ctx {E _} _ _.
Arguments o_call {E _} _ _ _.
Arguments w_db {E _} _.
Arguments w_queue {E _} _.
Arguments w_time {E _} _.
Arguments w_trace {E _} _.

Definition M (E : Type) `{Effects E} (A : Type) : Type := World E → A * World E.
#[export] Instance M_ret E `{Effects E} : MRet (M E) := λ A a w, (a, w).
#[export] Instance M_bind E `{Effects E} : MBind (M E) := λ A B f m w, let '(a, w') := m w in f a w'.

(** [if err := m; err != nil { return err }; ...] *)
Definition andThen {E} `{Effects E} {A B} (m : M E (result A)) (f : A → M E (result B)) : M E (result B) :=
  r ← m; match r with Ok a => f a | Err e => mret (Err e) end.

Definition on_queue {E} `{Effects E} (f : queue → queue) : M E unit := λ w,
  (tt, MkWorld (w_db w) (f (w_queue w)) (w_time w) (w_trace w)).

Section calls.
Context {E : Type} `{Effects E} (orc : Oracle E).

Definition store_call {A} (f : fault → Z → DB → A * DB) : M E A := λ w,
  let n := w_time w in
  let d := o_others orc n (w_db w) in
  let q := foldl (λ q id, Enqueue id q) (w_queue w) (o_hints orc n) in
  let '(a, d') := f (o_fault orc n) (o_unix orc n) d in
  (a, MkWorld d' q (S n) (w_trace w)).
Definition store_read {A} (f : fault → DB → A) : M E A :=
  store_call (λ flt _ d, (f flt d, d)).

Definition call (e : E) : M E (answer e) := λ w,
  let a := o_call orc (w_time w) e in
  (a, MkWorld (w_db w) (w_queue w) (S (w_time w)) (w_trace w ++ [existT e a])).
Definition ctxErr : M E (option error) := λ w,
  (o_ctx orc (w_time w), MkWorld (w_db w) (w_queue w) (S (w_time w)) (w_trace w)).

(** The methods of the queue, with [time.Now()] from the oracle. *)
Definition c_retry (id : string) : M E unit := λ w, on_queue (retry (o_clock orc (w_time w)) id) w.
Definition c_clearRetry (id : string) : M E unit := on_queue (clearRetry id).
Definition c_Enqueue (id : string) : M E unit := on_queue (Enqueue id).
Definition c_enqueueDueRetries (order : list (string * retryEntry)) : M E unit := λ w,
  on_queue (enqueueDueRetries (o_clock orc (w_time w)) order) w.
Definition c_pop (pick : nat) : M E string := λ w,
  let '(id, q) := pop pick (w_queue w) in (id, MkWorld (w_db w) q (w_time w) (w_trace w)).

(** Receiving from [wake] empties it. *)
Definition c_wake : M E unit := on_queue (λ q, MkQueue (pending q) (retries q) false).

(** [if ctx.Err() != nil { return ctx.Err() }; return err] *)
Definition stopWith (err : error) : M E (result unit) :=
  c ← ctxErr; mret (Err (default err c)).
End calls.

(** What the [select] statement of [Run] receives: [RetryTick] comes with the
    order in which the retry table is visited, [ResyncTick] with the bound on the
    number of pages of the sweep. *)
Inductive signal :=
  | CtxDone
  | Wake
  | RetryTick (order : list (string * retryEntry))
  | ResyncTick (fuel : nat).

(** ** Reasoning about runs

    [respects R m]: every run of [m] relates the worlds before and after by the
    preorder [R]. *)
Section respects.
Context {E : Type} `{Effects E} (R : relation (World E)) {HR : PreOrder R}.

Definition respects {A} (m : M E A) : Prop := ∀ w, R w (m w).2.

Lemma respects_ret {A} (a : A) : respects (mret a).
Proof using HR. intros w. reflexivity. Qed.

Lemma respects_bind {A B} (m : M E A) (f : A → M E B) :
  respects m → (∀ a, respects (f a)) → respects (m ≫= f).
Proof using HR.
  intros Hm Hf w. specialize (Hm w). unfold mbind, M_bind. destruct (m w) as [a w1]. simpl in Hm.
  etrans; [exact Hm|apply Hf].
Qed.

Lemma respects_andThen {A B} (m : M E (result A)) (f : A → M E (result B)) :
  respects m → (∀ a, respects (f a)) → respects (andThen m f).
Proof using HR.
  intros Hm Hf. apply respects_bind; [done|]. intros [a|e]; [apply Hf|apply respects_ret].
Qed.

End respects.

(** Decompose a computation along its structure; what is left are its calls. *)
Ltac walk :=
  repeat match goal with
  | |- respects _ (mret _) => apply respects_ret; tc_solve
  | |- respects _ (stopWith _ _) => unfold stopWith
  | |- respects _ (andThen _ _) => apply respects_andThen; [tc_solve| |intros ?]
  | |- respects _ (_ ≫= _) => apply respects_bind; [tc_solve| |intros ?]
  | |- respects _ (match ?x with _ => _ end) => destruct x
  | _ => progress cbv beta iota zeta
  end.

(** *** The database moves by transitions of the abstract machine *)
Section db_steps.
Context {E : Type} `{Effects E} (orc : Oracle E).

(** The other goroutines of the daemon only do what the machine allows. *)
Definition others_ok : Prop := ∀ n d, Inv d → steps d (o_others orc n d).

Definition db_steps : relation (World E) := λ w w', Inv (w_db w) → steps (w_db w) (w_db w').
#[export] Instance db_steps_preorder : PreOrder db_steps.
Proof.
  split; [intros w _; apply rtc_refl|]. intros w1 w2 w3 H1 H2 I. specialize (H1 I).
  etrans; [exact H1|]. apply H2. by eapply steps_Inv.
Qed.

Lemma on_queue_steps f : respects db_steps (on_queue f).
Proof. intros w _. apply rtc_refl. Qed.
Lemma ctxErr_steps : respects db_steps (ctxErr orc).
Proof. intros w _. apply rtc_refl. Qed.
Lemma c_pop_steps pick : respects db_steps (c_pop pick).
Proof. intros w _. unfold c_pop. destruct (pop _ _). apply rtc_refl. Qed.
Lemma c_retry_steps id : respects db_steps (c_retry orc id).
Proof. intros w _. apply rtc_refl. Qed.
Lemma c_enqueueDueRetries_steps order : respects db_steps (c_enqueueDueRetries orc order).
Proof. intros w _. apply rtc_refl. Qed.
Lemma call_steps e : respects db_steps (call orc e).
Proof. intros w _. apply rtc_refl. Qed.

Lemma store_call_steps {A} (f : fault → Z → DB → A * DB) :
  others_ok → (∀ flt now d, Inv d → steps d (f flt now d).2) → respects db_steps (store_call orc f).
Proof.
  intros Ho Hf w I. unfold store_call.
  assert (Inv (o_others orc (w_time w) (w_db w))) as I' by (eapply steps_Inv; [by apply Ho|done]).
  specialize (Hf (o_fault orc (w_time w)) (o_unix orc (w_time w)) _ I').
  destruct (f _ _ _) as [a d']. simpl in *. etrans; [by apply Ho|done].
Qed.

Lemma store_read_steps {A} (f : fault → DB → A) : others_ok → respects db_steps (store_read orc f).
Proof. intros Ho. apply store_call_steps; [done|]. intros. apply rtc_refl. Qed.
End db_steps.

#[export] Hint Resolve on_queue_steps ctxErr_steps c_pop_steps c_retry_steps c_enqueueDueRetries_steps call_steps
  store_read_steps : nephos.

(** *** The calls a computation makes *)
Section traces.
Context {E : Type} `{Effects E} (orc : Oracle E) (P : {e : E & answer e} → Prop).

Definition trace_ok : relation (World E) := λ w w', ∃ t, w_trace w' = w_trace w ++ t ∧ Forall P t.
#[export] Instance trace_ok_preorder : PreOrder trace_ok.
Proof.
  split.
  - intros w. exists []. rewrite app_nil_r. by split.
  - intros w1 w2 w3 (t & E1 & F1) (t' & E2 & F2). exists (t ++ t'). rewrite E2, E1, app_assoc.
    split; [done|]. by apply Forall_app.
Qed.

Lemma silent {A} (m : M E A) : (∀ w, w_trace (m w).2 = w_trace w) → respects trace_ok m.
Proof. intros Hm w. exists []. by rewrite Hm, app_nil_r. Qed.
Lemma on_queue_trace f : respects trace_ok (on_queue f).
Proof. by apply silent. Qed.
Lemma ctxErr_trace : respects trace_ok (ctxErr orc).
Proof. by apply silent. Qed.
Lemma c_retry_trace id : respects trace_ok (c_retry orc id).
Proof. by apply silent. Qed.
Lemma c_pop_trace pick : respects trace_ok (c_pop pick).
Proof. apply silent. intros w. unfold c_pop. by destruct (pop _ _). Qed.
Lemma store_call_trace {A} (f : fault → Z → DB → A * DB) : respects trace_ok (store_call orc f).
Proof. apply silent. intros w. unfold store_call. by destruct (f _ _ _). Qed.
Lemma store_read_trace {A} (f : fault → DB → A) : respects trace_ok (store_read orc f).
Proof. apply store_call_trace. Qed.
Lemma call_trace e : (∀ a, P (existT e a)) → respects trace_ok (call orc e).
Proof. intros Hp w. exists [existT e (o_call orc (w_time w) e)]. split; [done|]. by constructor. Qed.
End traces.

#[export] Hint Resolve on_queue_trace ctxErr_trace c_retry_trace c_pop_trace store_call_trace store_read_trace : nephos.

(** *** Quiet runs: nothing else commits, fails or is cancelled *)
Record quiet {E} `{Effects E} (orc : Oracle E) : Prop := {
  quiet_others : ∀ n d, o_others orc n d = d;
  quiet_fault : ∀ n, o_fault orc n = None;
  quiet_ctx : ∀ n, o_ctx orc n = None
}.

Section quiet.
Context {E : Type} `{Effects E} (orc : Oracle E) (Hq : quiet orc).

(** The queue after the hints that arrive during a call. *)
Definition hinted (w : World E) : queue :=
  foldl (λ q id, Enqueue id q) (w_queue w) (o_hints orc (w_time w)).

Lemma retries_hinted w : retries (hinted w) = retries (w_queue w).
Proof.
  unfold hinted. generalize (w_queue w). induction (o_hints orc (w_time w)) as [|id l IH]; intros q; [done|].
  simpl. rewrite IH. unfold Enqueue. by destruct (id ==? "").
Qed.

Lemma store_call_quiet {A} (f : fault → Z → DB → A * DB) w :
  store_call orc f w =
  ((f None (o_unix orc (w_time w)) (w_db w)).1,
   MkWorld (f None (o_unix orc (w_time w)) (w_db w)).2 (hinted w) (S (w_time w)) (w_trace w)).
Proof using Hq.
  unfold store_call. rewrite (quiet_others orc Hq), (quiet_fault orc Hq). by destruct (f _ _ _).
Qed.

Lemma store_read_quiet {A} (f : fault → DB → A) w :
  store_read orc f w = (f None (w_db w), MkWorld (w_db w) (hinted w) (S (w_time w)) (w_trace w)).
Proof using Hq. unfold store_read. by rewrite store_call_quiet. Qed.

Lemma ctxErr_quiet w :
  ctxErr orc w = (None, MkWorld (w_db w) (w_queue w) (S (w_time w)) (w_trace w)).
Proof using Hq. unfold ctxErr. by rewrite (quiet_ctx orc Hq). Qed.
End quiet.

Lemma bind_run {E} `{Effects E} {A B} (m : M E A) (f : A → M E B) w a w' :
  m w = (a, w') → (m ≫= f) w = f a w'.
Proof. unfold mbind, M_bind. by intros ->. Qed.

Lemma andThen_run {E} `{Effects E} {A B} (m : M E (result A)) (f : A → M E (result B)) w a w' :
  m w = (Ok a, w') → andThen m f w = f a w'.
Proof. unfold andThen, mbind, M_bind. by intros ->. Qed.

Lemma bind_inv {E} `{Effects E} {A B} (m : M E A) (f : A → M E B) w b w' :
  (m ≫= f) w = (b, w') → ∃ a w1, m w = (a, w1) ∧ f a w1 = (b, w').
Proof. unfold mbind, M_bind. destruct (m w) as [a w1]. eauto. Qed.

Lemma respects_run {E} `{Effects E} (R : relation (World E)) {A} (m : M E A) w a w' :
  respects R m → m w = (a, w') → R w w'.
Proof. intros Hm Hr. specialize (Hm w). by rewrite Hr in Hm. Qed.

(** Run the first command of a controller. *)
Tactic Notation "take_step" hyp(H) "as" simple_intropattern(x) ident(w) ident(E) :=
  apply bind_inv in H as (x & w & E & H).
