(* ===== verification/Reconcile.v ===== *)
(** The VPC reconciler: [internal/reconcile/controller.go] and [network.go], and
    the refinement of the abstract machine by its runs. *)

From S2P Require Import Prelude Errors GoStrings NetIP Validate Ipam Mac Netns Model Snapshot.
From S2P Require Import Schema Tx Transitions Store Idempotency Refine RecordRefine Queue Controller.
Local Open Scope Z_scope.

(** Calls of the [NetworkEngine] interface. *)
Inductive effect :=
  | EngineEnsureVPC (vpc : VPC) (active : list Subnet)
  | EngineDeleteVPC (vpc : VPC)
  | EngineListVPCNames.
#[export] Instance engine_answers : Effects effect := λ e,
  match e with
  | EngineEnsureVPC _ _ | EngineDeleteVPC _ => option error
  | EngineListVPCNames => result (list string)
  end.

Section controller.
Context (orc : Oracle effect).
Abbreviation M := (M effect).
Abbreviation store_read := (store_read orc).
Abbreviation store_call := (store_call orc).
Abbreviation ctxErr := (ctxErr orc).
Abbreviation c_retry := (c_retry orc).
Abbreviation call := (call orc).

(** Either the engine's answer or the error of [len(subnets) != 0]. *)
Definition applyVPC (id : string) (vpc : VPC) (subnets : list Subnet) : M (result (option error)) :=
  if VPC_DeletionRequested vpc then
    if negb (length subnets =? 0)%nat
    then mret (Err (Errorf (Sprintf "deleting VPC %s still has %d subnets"
                              [id; FormatInt (Z.of_nat (length subnets))])))
    else e ← call (EngineDeleteVPC vpc); mret (Ok e)
  else
    let active := List.filter (λ s, negb (Subnet_DeletionRequested s)) subnets in
    e ← call (EngineEnsureVPC vpc active); mret (Ok e).

Definition recordVPC (id : string) (vpc : VPC) (subnets : list Subnet) (effectErr : option error)
    : M (result unit) :=
  cancelled ← ctxErr;
  match cancelled with
  | Some e => mret (Err e)
  | None =>
      entry ← ctxErr;
      recorded ← store_call (λ flt now, store_RecordTopology entry flt now vpc subnets effectErr);
      match recorded with
      | Err e =>
          if errors_Is e ErrStaleSnapshot then c_Enqueue id ;; mret (Ok tt)
          else mret (Err (Wrapf (Sprintf "persist VPC %s reconciliation: %w" [id]) e))
      | Ok _ =>
          match effectErr with
          | Some _ => c_retry id ;; mret (Ok tt)
          | None => c_clearRetry id ;; mret (Ok tt)
          end
      end
  end.

Definition reconcileLocked (id : string) : M (result unit) :=
  loaded ← store_read (λ flt, store_GetVPC flt "default" id);
  match loaded with
  | Err e =>
      if errors_Is e ErrNoRows then c_clearRetry id ;; mret (Ok tt)
      else mret (Err (Wrapf (Sprintf "load VPC %s: %w" [id]) e))
  | Ok vpc =>
      andThen (store_read (λ flt, store_ListSubnetsByVPC flt id)) (λ subnets,
      andThen (applyVPC id vpc subnets) (λ effectErr,
      recordVPC id vpc subnets effectErr))
  end.

(** [reconcile] takes [workMu] around [reconcileLocked]. *)
Definition reconcile (id : string) : M (result unit) := reconcileLocked id.

(** ** [Sweep] *)

(** The names of a page's VPCs join [wanted]. *)
Fixpoint wantPage (page : list VPC) (wanted : gset string) : result (gset string) :=
  match page with
  | [] => Ok wanted
  | vpc :: page' =>
      name ← wrap_err (Sprintf "VPC %s namespace name: %w" [VPC_ID vpc]) (Name (VPC_ShortIndex vpc));
      wantPage page' ({[name]} ∪ wanted)
  end.

(** The paging loop; [fuel] bounds the number of pages. *)
Fixpoint sweepPages (fuel : nat) (after : string) (vpcs : list VPC) (wanted : gset string)
    : M (result (list VPC * gset string)) :=
  match fuel with
  | O => mret (Err (Errorf (lit "sweep out of fuel")))
  | S f =>
      andThen (store_read (λ flt, store_ListVPCPage flt "default" after 100)) (λ page,
      match last page with
      | None => mret (Ok (vpcs, wanted))
      | Some v =>
          match wantPage page wanted with
          | Err e => mret (Err e)
          | Ok wanted' => sweepPages f (VPC_ID v) (vpcs ++ page) wanted'
          end
      end)
  end.

(** The VPC an orphan is deleted as: [model.VPC{ID: name, ShortIndex: index}]. *)
Definition orphanVPC (name : string) (index : Z) : VPC :=
  MkVPC name "" "" (MkPrefix AddrZero (-1)) index "" "" false 0 0.

Fixpoint removeOrphans (wanted : gset string) (names : list string) : M (result unit) :=
  match names with
  | [] => mret (Ok tt)
  | name :: names' =>
      if bool_decide (name ∈ wanted) then removeOrphans wanted names'
      else
        let '(index, valid) := ownedIndex name in
        if negb valid then removeOrphans wanted names'
        else
          e ← call (EngineDeleteVPC (orphanVPC name index));
          match e with
          | Some err => mret (Err (Wrapf (Sprintf "remove orphan VPC namespace %s: %w" [name]) err))
          | None => removeOrphans wanted names'
          end
  end.

Fixpoint convergeAll (vpcs : list VPC) : M (result unit) :=
  match vpcs with
  | [] => mret (Ok tt)
  | vpc :: vpcs' => andThen (reconcileLocked (VPC_ID vpc)) (λ _, convergeAll vpcs')
  end.

Definition Sweep (fuel : nat) : M (result unit) :=
  andThen (sweepPages fuel "" [] ∅) (λ '(vpcs, wanted),
  names ← call EngineListVPCNames;
  match names with
  | Err e => mret (Err (Wrapf (Sprintf "list VPC namespace orphans: %w" []) e))
  | Ok names => andThen (removeOrphans wanted names) (λ _, convergeAll vpcs)
  end).

(** ** [Run] *)
(** The draining loop; [picks] are the choices of the map iteration and bound
    the number of rounds. *)
Fixpoint drain (picks : list nat) : M (result unit) :=
  match picks with
  | [] => mret (Err (Errorf (lit "drain out of fuel")))
  | pick :: picks' =>
      id ← c_pop pick;
      if id ==? "" then mret (Ok tt)
      else
        r ← reconcile id;
        match r with
        | Err err => stopWith orc err
        | Ok _ => drain picks'
        end
  end.

(** One round of the loop of [Run]: [None] means that the loop goes on. *)
Definition round (picks : list nat) (s : signal) : M (option (result unit)) :=
  drained ← drain picks;
  match drained with
  | Err e => mret (Some (Err e))
  | Ok _ =>
      match s with
      | CtxDone => c ← ctxErr; mret (Some (match c with Some e => Err e | None => Ok tt end))
      | Wake => c_wake ;; mret None
      | RetryTick order => c_enqueueDueRetries orc order ;; mret None
      | ResyncTick fuel =>
          swept ← Sweep fuel;
          match swept with
          | Err e => s ← stopWith orc e; mret (Some s)
          | Ok _ => mret None
          end
      end
  end.

Fixpoint Run (rounds : list (list nat * signal)) : M (option (result unit)) :=
  match rounds with
  | [] => mret None
  | (picks, s) :: rounds' =>
      r ← round picks s;
      match r with
      | Some out => mret (Some out)
      | None => Run rounds'
      end
  end.
End controller.

(** ** Runs of the reconciler refine the abstract machine *)
Section refinement.
Context (orc : Oracle effect) (Hothers : others_ok orc).

Lemma record_call_steps (f : fault → Z → option error) vpc subnets effectErr :
  respects db_steps (store_call orc (λ flt now, store_RecordTopology (f flt now) flt now vpc subnets effectErr)).
Proof using Hothers.
  apply store_call_steps; [done|]. intros flt now d I.
  destruct (store_RecordTopology _ _ _ _ _ _ _) as [r d'] eqn:E. by eapply store_RecordTopology_steps.
Qed.

Lemma applyVPC_steps id vpc subnets : respects db_steps (applyVPC orc id vpc subnets).
Proof using Hothers. unfold applyVPC. walk; apply call_steps. Qed.

Lemma recordVPC_steps id vpc subnets effectErr : respects db_steps (recordVPC orc id vpc subnets effectErr).
Proof using Hothers.
  unfold recordVPC. walk; try (apply (record_call_steps (λ _ _, _))); auto with nephos; apply on_queue_steps.
Qed.

Lemma reconcileLocked_steps id : respects db_steps (reconcileLocked orc id).
Proof using Hothers.
  unfold reconcileLocked. walk; auto using applyVPC_steps, recordVPC_steps with nephos; apply on_queue_steps.
Qed.

Lemma sweepPages_steps fuel after vpcs wanted : respects db_steps (sweepPages orc fuel after vpcs wanted).
Proof using Hothers.
  revert after vpcs wanted. induction fuel as [|fuel IH]; intros; simpl; walk; auto with nephos.
Qed.

Lemma removeOrphans_steps wanted names : respects db_steps (removeOrphans orc wanted names).
Proof using Hothers. induction names as [|name names IH]; cbn [removeOrphans]; walk; try done; exact (call_steps orc _). Qed.

Lemma convergeAll_steps vpcs : respects db_steps (convergeAll orc vpcs).
Proof using Hothers. induction vpcs; simpl; walk; auto using reconcileLocked_steps. Qed.

Lemma Sweep_steps fuel : respects db_steps (Sweep orc fuel).
Proof using Hothers.
  unfold Sweep. walk; auto using sweepPages_steps, removeOrphans_steps, convergeAll_steps with nephos;
    exact (call_steps orc _).
Qed.

Lemma drain_steps picks : respects db_steps (drain orc picks).
Proof using Hothers.
  induction picks; simpl; walk; auto using reconcileLocked_steps with nephos.
Qed.

Lemma round_steps picks s : respects db_steps (round orc picks s).
Proof using Hothers.
  unfold round. walk; auto using drain_steps, Sweep_steps with nephos; apply on_queue_steps.
Qed.

Lemma controller_Run_steps rounds : respects db_steps (Run orc rounds).
Proof using Hothers.
  induction rounds as [|[picks s] rounds IH]; cbn [Run]; walk; auto using round_steps.
Qed.
End refinement.
