(* ===== verification/InstanceReconcile.v ===== *)
(** The instance reconciler: [internal/reconcile/instance.go], with the network
    prerequisites of [cmd/nephosd/instance_network.go].

    It drives the container runtime ([compute.Runtime]) and the network engine
    through an oracle ([Controller]).  Its queue and retry table are those of the
    VPC controller ([Queue]).  Log lines are not modelled. *)

From S2P Require Import Prelude Errors GoStrings NetIP Model Schema Tx Transitions Store RecordRefine.
From S2P Require Import Queue Controller.
Local Open Scope Z_scope.

(** [compute.Status] *)
Record RuntimeStatus := MkRuntimeStatus { Running : bool }.

(** The calls of [compute.Runtime] that reconciliation makes, and [DeleteENI] of
    the network engine. *)
Inductive effect :=
  | RuntimeEnsureImage (ref : string)
  | RuntimeCreate (instance : Instance_)
  | RuntimeStart (id : string)
  | RuntimeDelete (id : string)
  | RuntimeInspect (id : string)
  | EngineDeleteENI (vpc : VPC) (eni : ENI).
#[export] Instance runtime_answers : Effects effect := λ e,
  match e with
  | RuntimeCreate _ => result string
  | RuntimeInspect _ => result RuntimeStatus
  | _ => option error
  end.



Section controller.
Context (orc : Oracle effect).

Abbreviation M := (M effect).
Abbreviation store_call := (store_call orc).
Abbreviation store_read := (store_read orc).
Abbreviation ctxErr := (ctxErr orc).

(** A call that returns only an error. *)
Definition failing (m : M (option error)) : M (result unit) :=
  e ← m; mret (match e with Some err => Err err | None => Ok tt end).

(** [instanceNetwork.Ready] *)
Definition Ready (instance : Instance_) : M (result bool) :=
  andThen (store_read (λ flt, store_GetSubnet flt (Instance_WorkspaceID instance) (Instance_SubnetID instance)))
    (λ subnet,
  andThen (store_read (λ flt, store_GetVPC flt (Instance_WorkspaceID instance) (Subnet_VPCID subnet)))
    (λ vpc,
  mret (Ok (negb (Subnet_DeletionRequested subnet) && negb (VPC_DeletionRequested vpc) &&
            (Subnet_State subnet ==? StateAvailable) && (VPC_State vpc ==? StateAvailable) &&
            (Subnet_ObservedGeneration subnet =? Subnet_Generation subnet) &&
            (VPC_ObservedGeneration vpc =? VPC_Generation vpc))))).

(** [instanceNetwork.DeleteENI] *)
Definition DeleteENI (vpc : VPC) (eni : ENI) : M (result unit) := failing (call orc (EngineDeleteENI vpc eni)).

Definition fail (instance : Instance_) (cause : error) : M (result unit) :=
  cancelled ← ctxErr;
  match cancelled with
  | Some e => mret (Err e)
  | None =>
      recorded ← store_call (λ flt now,
        store_RecordInstance flt now instance InstanceFailed (error_text cause) false);
      match recorded with
      | Err e =>
          if errors_Is e ErrStaleSnapshot then c_Enqueue (Instance_ID instance) ;; mret (Ok tt)
          else mret (Err (Wrapf (Sprintf "persist instance %s failure: %w" [Instance_ID instance]) e))
      | Ok _ => c_retry orc (Instance_ID instance) ;; mret (Ok tt)
      end
  end.

(** [if err := m; err != nil { return c.fail(ctx, instance, err) }; ...] *)
Definition orFail {A} (instance : Instance_) (m : M (result A)) (f : A → M (result unit)) : M (result unit) :=
  r ← m; match r with Ok a => f a | Err e => fail instance e end.

(** [if err := m; err != nil { if errors.Is(err, store.ErrStaleSnapshot) {
    c.Enqueue(id); return nil }; return err }; c.clearRetry(id); return nil] *)
Definition settle (id : string) (m : M (result unit)) : M (result unit) :=
  recorded ← m;
  match recorded with
  | Err e => if errors_Is e ErrStaleSnapshot then c_Enqueue id ;; mret (Ok tt) else mret (Err e)
  | Ok _ => c_clearRetry id ;; mret (Ok tt)
  end.

(** The rest of [terminate], once the runtime is gone. *)
Definition teardown (instance : Instance_) : M (result unit) :=
  orFail instance
    (store_read (λ flt, store_GetSubnet flt (Instance_WorkspaceID instance) (Instance_SubnetID instance)))
    (λ subnet,
  orFail instance
    (store_read (λ flt, store_GetVPC flt (Instance_WorkspaceID instance) (Subnet_VPCID subnet)))
    (λ vpc,
  orFail instance (DeleteENI vpc (Instance_ENI instance)) (λ _,
  settle (Instance_ID instance)
    (store_call (λ flt now, store_FinishInstanceTermination flt now instance))))).

Definition terminate (instance : Instance_) : M (result unit) :=
  if Instance_RuntimeID instance !=? "" then
    orFail instance (failing (call orc (RuntimeDelete (Instance_RuntimeID instance)))) (λ _, teardown instance)
  else teardown instance.

Definition createdDuringStateChange (instance : Instance_) (runtimeID : string) (recordErr : error)
    : M (result unit) :=
  let remove :=
    deleted ← call orc (RuntimeDelete runtimeID);
    match deleted with
    | Some err =>
        mret (Err (Joinf (Sprintf "record runtime %s: %w; cleanup failed: %w" [Instance_ID instance])
                         recordErr err))
    | None => c_Enqueue (Instance_ID instance) ;; mret (Ok tt)
    end in
  if errors_Is recordErr ErrStaleSnapshot then
    retained ← store_call (λ flt _, store_RetainTerminatingRuntimeID flt (Instance_ID instance) runtimeID);
    match retained with
    | Ok _ =>
        deleted ← call orc (RuntimeDelete runtimeID);
        match deleted with
        | Some err =>
            loaded ← store_read (λ flt, store_GetInstance flt "default" (Instance_ID instance));
            match loaded with
            | Err loadErr =>
                mret (Err (Joinf (Sprintf "cleanup raced runtime %s: %w (load: %w)" [Instance_ID instance])
                                 err loadErr))
            | Ok current => fail current err
            end
        | None => c_Enqueue (Instance_ID instance) ;; mret (Ok tt)
        end
    | Err _ => remove
    end
  else remove.

(** The second half of [reconcileLocked]: from [runtime.Start] on. *)
Definition start (id : string) (instance : Instance_) (runtimeID : string) : M (result unit) :=
  orFail instance (failing (call orc (RuntimeStart runtimeID))) (λ _,
  orFail instance (call orc (RuntimeInspect runtimeID)) (λ status,
  if negb (Running status)
  then fail instance (Errorf (lit "runtime did not report a running instance after start"))
  else
    settle id (store_call (λ flt now, store_RecordInstance flt now instance InstanceRunning "" true)))).

(** From [runtime.EnsureImage] on. *)
Definition launch (id : string) (instance : Instance_) : M (result unit) :=
  orFail instance (failing (call orc (RuntimeEnsureImage "nephos-ubuntu:dev"))) (λ _,
  orFail instance (call orc (RuntimeCreate instance)) (λ runtimeID,
  recorded ← store_call (λ flt _,
    store_RecordRuntimeID flt (Instance_ID instance) (Instance_Generation instance) runtimeID);
  match recorded with
  | Err e => createdDuringStateChange instance runtimeID e
  | Ok _ =>
      reloaded ← store_read (λ flt, store_GetInstance flt "default" id);
      match reloaded with
      | Err e => mret (Err (Wrapf (Sprintf "reload instance %s after create: %w" [id]) e))
      | Ok instance =>
          if Instance_DeletionRequested instance then c_Enqueue id ;; mret (Ok tt)
          else start id instance runtimeID
      end
  end)).

Definition reconcileLocked (id : string) : M (result unit) :=
  loaded ← store_read (λ flt, store_GetInstance flt "default" id);
  match loaded with
  | Err e =>
      if errors_Is e ErrNoRows then c_clearRetry id ;; mret (Ok tt)
      else mret (Err (Wrapf (Sprintf "load instance %s: %w" [id]) e))
  | Ok instance =>
      if Instance_DeletionRequested instance then terminate instance
      else
        orFail instance (Ready instance) (λ ready,
        if negb ready then mret (Ok tt)
        else if (Instance_State instance ==? InstanceRunning) &&
                (Instance_ObservedGeneration instance =? Instance_Generation instance) &&
                (Instance_RuntimeID instance !=? "") then
          orFail instance (call orc (RuntimeInspect (Instance_RuntimeID instance))) (λ status,
          if Running status then c_clearRetry id ;; mret (Ok tt) else launch id instance)
        else launch id instance)
  end.

(** [reconcile] takes [workMu] around [reconcileLocked]. *)
Definition reconcile (id : string) : M (result unit) := reconcileLocked id.

(** ** [Sweep]: each page is reconciled before the next one is read *)
Fixpoint convergePage (page : list Instance_) : M (result unit) :=
  match page with
  | [] => mret (Ok tt)
  | instance :: page' => andThen (reconcileLocked (Instance_ID instance)) (λ _, convergePage page')
  end.

(** [fuel] bounds the number of pages. *)
Fixpoint sweepFrom (fuel : nat) (after : string) : M (result unit) :=
  match fuel with
  | O => mret (Err (Errorf (lit "sweep out of fuel")))
  | S f =>
      page ← store_read (λ flt, store_ListInstancePage flt "default" after 100);
      match page with
      | Err e => mret (Err (Wrapf (Sprintf "list desired instances: %w" []) e))
      | Ok page =>
          match last page with
          | None => mret (Ok tt)
          | Some i => andThen (convergePage page) (λ _, sweepFrom f (Instance_ID i))
          end
      end
  end.
Definition Sweep (fuel : nat) : M (result unit) := sweepFrom fuel "".

(** ** [Run] *)
Fixpoint drain (picks : list nat) : M (result unit) :=
  match picks with
  | [] => mret (Err (Errorf (lit "drain out of fuel")))
  | pick :: picks' =>
      id ← c_pop pick;
      if id ==? "" then mret (Ok tt)
      else
        cancelled ← ctxErr;
        match cancelled with
        | Some e => mret (Err e)
        | None => andThen (reconcile id) (λ _, drain picks')
        end
  end.

(** One round of the loop of [Run]: [None] means that the loop goes on. *)
Definition round (picks : list nat) (s : signal) : M (option (result unit)) :=
  drained ← drain picks;
  match drained with
  | Err e => mret (Some (Err e))
  | Ok _ =>
      match s with
      | CtxDone => c ← ctxErr; mret (Some (match c with Some e => Err e | None => Ok tt end))
      | Wake => c_wake ;; mret None
      | RetryTick order => c_enqueueDueRetries orc order ;; mret None
      | ResyncTick fuel =>
          swept ← Sweep fuel;
          match swept with
          | Err e => mret (Some (Err e))
          | Ok _ => mret None
          end
      end
  end.

Fixpoint Run (rounds : list (list nat * signal)) : M (option (result unit)) :=
  match rounds with
  | [] => mret None
  | (picks, s) :: rounds' =>
      r ← round picks s;
      match r with
      | Some out => mret (Some out)
      | None => Run rounds'
      end
  end.
End controller.

(** ** Runs of the reconciler refine the abstract machine *)
Section refinement.
Context (orc : Oracle effect) (Hothers : others_ok orc).

Lemma record_instance_steps (f : fault → Z → DB → result unit * DB) :
  (∀ flt now d r d', Inv d → f flt now d = (r, d') → steps d d') → respects db_steps (store_call orc f).
Proof using Hothers.
  intros Hf. apply store_call_steps; [done|]. intros flt now d I. destruct (f flt now d) as [r d'] eqn:E.
  by eapply Hf.
Qed.

Lemma fail_steps i e : respects db_steps (fail orc i e).
Proof using Hothers.
  unfold fail. walk; auto with nephos; try apply on_queue_steps.
  apply record_instance_steps. intros. by eapply store_RecordInstance_steps.
Qed.
Hint Resolve fail_steps : nephos.

Lemma failing_steps m : respects db_steps m → respects db_steps (failing m).
Proof. intros Hm. unfold failing. walk; done. Qed.

Lemma orFail_steps {A} i (m : M effect (result A)) f :
  respects db_steps m → (∀ a, respects db_steps (f a)) → respects db_steps (orFail orc i m f).
Proof using Hothers. intros Hm Hf. unfold orFail. walk; auto with nephos. Qed.

Lemma settle_steps id m : respects db_steps m → respects db_steps (settle id m).
Proof. intros Hm. unfold settle. walk; auto; apply on_queue_steps. Qed.

Lemma Ready_steps i : respects db_steps (Ready orc i).
Proof using Hothers. unfold Ready. walk; auto with nephos. Qed.

Lemma terminate_steps i : respects db_steps (terminate orc i).
Proof using Hothers.
  unfold terminate, teardown.
  assert (respects db_steps (settle (Instance_ID i)
    (store_call orc (λ flt now, store_FinishInstanceTermination flt now i)))) as Hf.
  { apply settle_steps, record_instance_steps. intros. by eapply store_FinishInstanceTermination_steps. }
  walk; repeat (apply orFail_steps; [|intros]); auto using failing_steps with nephos.
  all: apply failing_steps; exact (call_steps orc _).
Qed.

Lemma createdDuringStateChange_steps i rt e : respects db_steps (createdDuringStateChange orc i rt e).
Proof using Hothers.
  unfold createdDuringStateChange. walk; auto with nephos; try apply on_queue_steps; try exact (call_steps orc _).
  apply record_instance_steps. intros. by eapply store_RetainTerminatingRuntimeID_steps.
Qed.

Lemma start_steps id i rt : respects db_steps (start orc id i rt).
Proof using Hothers.
  unfold start. repeat (apply orFail_steps; [|intros]).
  - apply failing_steps. exact (call_steps orc _).
  - exact (call_steps orc _).
  - walk; auto with nephos. apply settle_steps, record_instance_steps. intros. by eapply store_RecordInstance_steps.
Qed.

Lemma launch_steps id i : respects db_steps (launch orc id i).
Proof using Hothers.
  unfold launch. repeat (apply orFail_steps; [|intros]).
  - apply failing_steps. exact (call_steps orc _).
  - exact (call_steps orc _).
  - walk; auto using createdDuringStateChange_steps, start_steps with nephos; try apply on_queue_steps.
    apply record_instance_steps. intros. by eapply store_RecordRuntimeID_steps.
Qed.

Lemma instance_reconcileLocked_steps id : respects db_steps (reconcileLocked orc id).
Proof using Hothers.
  unfold reconcileLocked. walk; auto using terminate_steps with nephos; try apply on_queue_steps.
  apply orFail_steps; [apply Ready_steps|]. intros ready. walk; auto using launch_steps.
  apply orFail_steps; [exact (call_steps orc _)|]. intros st. walk; auto using launch_steps; apply on_queue_steps.
Qed.

Lemma convergePage_steps page : respects db_steps (convergePage orc page).
Proof using Hothers. induction page; simpl; walk; auto using instance_reconcileLocked_steps. Qed.

Lemma sweepFrom_steps fuel after : respects db_steps (sweepFrom orc fuel after).
Proof using Hothers.
  revert after. induction fuel as [|fuel IH]; intros; simpl; walk; auto using convergePage_steps with nephos.
Qed.

Lemma instance_drain_steps picks : respects db_steps (drain orc picks).
Proof using Hothers.
  induction picks; simpl; walk; auto using instance_reconcileLocked_steps with nephos.
Qed.

Lemma instance_round_steps picks s : respects db_steps (round orc picks s).
Proof using Hothers.
  unfold round, Sweep. walk; auto using instance_drain_steps, sweepFrom_steps with nephos; apply on_queue_steps.
Qed.

Lemma instance_Run_steps rounds : respects db_steps (Run orc rounds).
Proof using Hothers.
  induction rounds as [|[picks s] rounds IH]; cbn [Run]; walk; auto using instance_round_steps.
Qed.
End refinement.
