(* ===== verification/RuntimeSafety.v ===== *)
(** Runtimes are accounted for: what the instance reconciler creates is recorded
    in the instance's row or removed again, whatever happens around it. *)

From S2P Require Import Prelude Errors GoStrings NetIP Validate Ipam Mac Model Snapshot.
From S2P Require Import Schema Tx Transitions Store Idempotency Refine RecordRefine.
From S2P Require Import NetworkService InstanceService ServiceRefine System.
From S2P Require Import Queue Controller InstanceReconcile.
Local Open Scope Z_scope.

(** The row of an instance records a runtime. *)
Definition holds (d : DB) (id rt : string) : Prop :=
  ∃ r, instances d !! id = Some r ∧ i_RuntimeID r = Some rt.

(** ** Computations that preserve a property of the database *)
Class Preserves (P : DB → Prop) {A} (m : Tx A) : Prop :=
  preserves s a s' : m s = (Ok a, s') → P (tx_db s) → P (tx_db s').

Section preserves.
Context (P : DB → Prop).

#[export] Instance Preserves_ReadOnly {A} (m : Tx A) : ReadOnly m → Preserves P m | 10.
Proof. intros H s a s' E. specialize (H s). rewrite E in H. simpl in H. by rewrite H. Qed.
#[export] Instance Preserves_bind {A B} (m : Tx A) (f : A → Tx B) :
  Preserves P m → (∀ a, Preserves P (f a)) → Preserves P (m ≫= f).
Proof. intros Hm Hf s b s' (a & s1 & E1 & E2)%tx_bind_Ok Hp. eapply Hf; [exact E2|]. by eapply Hm. Qed.
#[export] Instance Preserves_wrapping {A} t (m : Tx A) : Preserves P m → Preserves P (wrapping t m).
Proof. intros Hm s a s' E%wrapping_Ok Hp. exact (Hm _ _ _ E Hp). Qed.
#[export] Instance Preserves_or_missing {A} e (m : Tx A) : Preserves P m → Preserves P (or_missing e m).
Proof. intros Hm s a s' E%or_missing_Ok Hp. exact (Hm _ _ _ E Hp). Qed.
#[export] Instance Preserves_if {A} (b : bool) (m m' : Tx A) :
  Preserves P m → Preserves P m' → Preserves P (if b then m else m').
Proof. by destruct b. Qed.
Lemma Preserves_stmt {A} (f : statement A) : (∀ d a d', f d = Ok (a, d') → P d → P d') → Preserves P (stmt f).
Proof. intros Hf s a s' E%stmt_Ok Hp. exact (Hf _ _ _ E Hp). Qed.

Lemma Preserves_WithTx {A} flt (m : Tx A) d : Preserves P m → P d → P (WithTx flt m d).2.
Proof.
  intros Hm Hp. destruct (WithTx flt m d) as [[a|e] d'] eqn:E.
  - apply WithTx_Ok in E as (s & s' & <- & Hrun & ->). exact (Hm _ _ _ Hrun Hp).
  - by apply WithTx_Err in E as ->.
Qed.
End preserves.

(** Recording a status keeps the runtimes. *)
#[export] Instance holds_status id rt a b c e f g : Preserves (λ d, holds d id rt) (stmt (q_UpdateInstanceStatus a b c e f g)).
Proof.
  apply Preserves_stmt. intros d u d' Hq (r & Hr & Hrt). unfold q_UpdateInstanceStatus, check in Hq.
  destruct (q_GetInstance f g d) as [r0|e0] eqn:E; inv_ok; simplify_eq; [|by exists r].
  unfold q_GetInstance in E. inv_ok. subst. destruct (decide (id = f)) as [->|Hne].
  - simplify_eq. eexists. split; [apply lookup_insert_eq|done].
  - exists r. split; [|done]. simpl. by rewrite lookup_insert_ne.
Qed.
#[export] Instance holds_eni id rt a b c e f g : Preserves (λ d, holds d id rt) (stmt (q_UpdateInstanceENIStatus a b c e f g)).
Proof.
  apply Preserves_stmt. intros d u d' Hq Hh. unfold q_UpdateInstanceENIStatus, check in Hq.
  repeat case_match; inv_ok; by simplify_eq.
Qed.
#[export] Instance holds_event id rt a b c e f g h i : Preserves (λ d, holds d id rt) (stmt (q_InsertEvent a b c e f g h i)).
Proof.
  apply Preserves_stmt. intros d u d' Hq Hh. unfold q_InsertEvent, next_id, foreign_key in Hq. inv_ok. by simplify_eq.
Qed.

Lemma RecordInstance_holds flt now snap status reason observed d id rt :
  holds d id rt → holds (store_RecordInstance flt now snap status reason observed d).2 id rt.
Proof.
  intros Hh. unfold store_RecordInstance. destruct (_ && _); [done|]. destruct (observed && _); [done|].
  apply (Preserves_WithTx (λ d, holds d id rt)); [|done]. unfold recordInstance, tx_AppendEvent. apply _.
Qed.

Lemma RecordRuntimeID_holds flt id generation rt d d' :
  store_RecordRuntimeID flt id generation rt d = (Ok tt, d') → holds d' id rt.
Proof.
  unfold store_RecordRuntimeID. destruct (rt ==? ""); [done|]. destruct (autocommit _ _ _) as [[n|e] d1] eqn:E; [|done].
  intros [= Hn%require_Ok <-]. apply autocommit_Ok in E as (s & s' & _ & E%wrapping_Ok%stmt_Ok & ->).
  unfold q_RecordRuntimeID in E. destruct (instances (tx_db s) !! id) as [r|] eqn:Hr; [|by simplify_eq].
  destruct (_ && _); [|by simplify_eq]. injection E as _ E. rewrite <- E. eexists. split; [apply lookup_insert_eq|done].
Qed.

Lemma Retain_holds flt id rt d d' :
  store_RetainTerminatingRuntimeID flt id rt d = (Ok tt, d') → holds d' id rt.
Proof.
  unfold store_RetainTerminatingRuntimeID. destruct (rt ==? ""); [done|].
  destruct (autocommit _ _ _) as [[n|e] d1] eqn:E; [|done].
  intros [= Hn%require_Ok <-]. apply autocommit_Ok in E as (s & s' & _ & E%wrapping_Ok%stmt_Ok & ->).
  unfold q_RetainTerminatingRuntimeID in E. destruct (instances (tx_db s) !! id) as [r|] eqn:Hr; [|by simplify_eq].
  destruct (_ && _); [|by simplify_eq]. injection E as _ E. rewrite <- E. eexists. split; [apply lookup_insert_eq|done].
Qed.

(** ** Calls of the runtime *)
Definition creates (c : {e : effect & answer e}) : option string :=
  match c with
  | existT e a =>
      match e return answer e → option string with
      | RuntimeCreate _ => λ a, match a with Ok rt => Some rt | Err _ => None end
      | _ => λ _, None
      end a
  end.
Definition starts (c : {e : effect & answer e}) : option string :=
  match c with existT (RuntimeStart rt) _ => Some rt | _ => None end.
(** The call asked to delete the runtime and got this answer. *)
Definition removal (rt : string) (c : {e : effect & answer e}) : option (option error) :=
  match c with
  | existT e a =>
      match e return answer e → option (option error) with
      | RuntimeDelete rt' => λ a, if rt' ==? rt then Some a else None
      | _ => λ _, None
      end a
  end.

(** Every runtime created is recorded in the end, or was removed afterwards, or
    its removal failed and the run reports it; only recorded runtimes are started. *)
Definition accounted (id : string) (r : result unit) (d : DB) (calls : list {e : effect & answer e}) : Prop :=
  (∀ pre c post rt, calls = pre ++ c :: post → creates c = Some rt →
     holds d id rt ∨ (∃ x, x ∈ post ∧ removal rt x = Some None) ∨
     (is_Ok r = false ∧ ∃ x e, x ∈ post ∧ removal rt x = Some (Some e))) ∧
  (∀ c rt, c ∈ calls → starts c = Some rt → holds d id rt).

Definition plain (c : {e : effect & answer e}) : Prop := creates c = None ∧ starts c = None.
Definition of_runtime (rt : string) (c : {e : effect & answer e}) : Prop :=
  creates c = None ∧ ∀ rt', starts c = Some rt' → rt' = rt.

Lemma accounted_plain id r d calls : Forall plain calls → accounted id r d calls.
Proof.
  intros Hp. split.
  - intros pre c post rt -> Hc. apply Forall_app in Hp as [_ [[? _] _]%Forall_cons]. congruence.
  - intros c rt Hin Hs. rewrite Forall_forall in Hp. destruct (Hp c Hin). congruence.
Qed.

Lemma accounted_app id r d t1 t : Forall plain t1 → accounted id r d t → accounted id r d (t1 ++ t).
Proof.
  intros H1 [Hc Hs]. rewrite Forall_forall in H1. split.
  - intros pre c post rt E Hrt. apply app_eq_inv in E as [(k & -> & E)|(k & -> & ->)]; [|by eapply Hc].
    destruct k as [|y k]; [by eapply (Hc [])|]. injection E as <- ->.
    destruct (H1 c) as [? _]; [set_solver|congruence].
  - intros c rt [Hin|Hin]%elem_of_app Hst; [|by eapply Hs]. destruct (H1 c Hin). congruence.
Qed.

Lemma accounted_create id r d t1 c t2 rt :
  Forall plain t1 → creates c = Some rt → starts c = None → Forall (of_runtime rt) t2 →
  holds d id rt ∨ (Forall plain t2 ∧
    ((∃ x, x ∈ t2 ∧ removal rt x = Some None) ∨
     (is_Ok r = false ∧ ∃ x e, x ∈ t2 ∧ removal rt x = Some (Some e)))) →
  accounted id r d (t1 ++ c :: t2).
Proof.
  intros H1 Hc Hns H2 Hcase. rewrite Forall_forall in H1, H2. split.
  - intros pre x post rt' E Hx.
    assert (pre = t1 ∧ x = c ∧ post = t2) as (-> & -> & ->).
    { apply app_eq_inv in E as [(k & -> & E)|(k & -> & E)].
      - destruct k as [|y k]; [rewrite app_nil_r; by simplify_eq/=|]. injection E as <- ->.
        destruct (H1 x) as [? _]; [set_solver|congruence].
      - destruct k as [|y k]; [rewrite app_nil_r; by simplify_eq/=|]. injection E as <- ->.
        destruct (H2 x) as [? _]; [set_solver|congruence]. }
    simplify_eq. naive_solver.
  - intros x rt' Hin Hs. apply elem_of_app in Hin as [Hin|[->|Hin]%elem_of_cons].
    + destruct (H1 x Hin). congruence.
    + congruence.
    + destruct (H2 x Hin) as [_ Hrt]. pose proof (Hrt _ Hs) as ->.
      destruct Hcase as [|[Hp _]]; [done|]. rewrite Forall_forall in Hp. destruct (Hp x Hin). congruence.
Qed.

(** ** Runs keep the recorded runtime *)
Section runs.
Context (orc : Oracle effect) (Hothers : others_ok orc) (id : string).
Context (Hkeep : ∀ n d rt, Inv d → holds d id rt → holds (o_others orc n d) id rt).

Definition keeps_runtime (rt : string) : relation (World effect) := λ w w',
  Inv (w_db w) → Inv (w_db w') ∧ (holds (w_db w) id rt → holds (w_db w') id rt).
#[local] Instance keeps_runtime_preorder rt : PreOrder (keeps_runtime rt).
Proof. split; [by intros w|]. intros w1 w2 w3 H1 H2 I. destruct (H1 I) as [I2 Hh]. destruct (H2 I2). auto. Qed.

Lemma same_db_keeps rt {A} (m : M effect A) : (∀ w, w_db (m w).2 = w_db w) → respects (keeps_runtime rt) m.
Proof. intros Hm w I. by rewrite Hm. Qed.

Lemma store_call_keeps rt {A} (f : fault → Z → DB → A * DB) :
  (∀ flt now d, Inv d → steps d (f flt now d).2) →
  (∀ flt now d, holds d id rt → holds (f flt now d).2 id rt) → respects (keeps_runtime rt) (store_call orc f).
Proof using Hothers Hkeep.
  intros Hs Hf w I. split.
  - eapply steps_Inv; [|exact I]. by apply (store_call_steps orc f Hothers Hs).
  - intros Hh. unfold store_call. specialize (Hf (o_fault orc (w_time w)) (o_unix orc (w_time w)) _ (Hkeep (w_time w) _ _ I Hh)).
    by destruct (f _ _ _).
Qed.

Lemma store_read_keeps rt {A} (f : fault → DB → A) : respects (keeps_runtime rt) (store_read orc f).
Proof using Hothers Hkeep. apply store_call_keeps; [intros; apply rtc_refl|done]. Qed.
Lemma call_keeps rt e : respects (keeps_runtime rt) (call orc e).
Proof. by apply same_db_keeps. Qed.

Lemma record_keeps rt snap status reason observed :
  respects (keeps_runtime rt)
    (store_call orc (λ flt now, store_RecordInstance flt now snap status reason observed)).
Proof using Hothers Hkeep.
  apply store_call_keeps.
  - intros flt now d I. destruct (store_RecordInstance _ _ _ _ _ _ _) eqn:E. by eapply store_RecordInstance_steps.
  - intros. by apply RecordInstance_holds.
Qed.

Lemma fail_keeps rt i e : respects (keeps_runtime rt) (fail orc i e).
Proof using Hothers Hkeep. unfold fail. walk; try apply record_keeps; by apply same_db_keeps. Qed.

Lemma orFail_keeps rt {A} i (m : M effect (result A)) f :
  respects (keeps_runtime rt) m → (∀ a, respects (keeps_runtime rt) (f a)) →
  respects (keeps_runtime rt) (orFail orc i m f).
Proof using Hothers Hkeep. intros Hm Hf. unfold orFail. walk; auto using fail_keeps. Qed.

Lemma start_keeps rt i rt' : respects (keeps_runtime rt) (start orc id i rt').
Proof using Hothers Hkeep.
  unfold start. repeat (apply orFail_keeps; [|intros]).
  - unfold failing. walk. apply call_keeps.
  - exact (call_keeps rt _).
  - walk; auto using fail_keeps. unfold settle. walk; try apply record_keeps; by apply same_db_keeps.
Qed.

(** *** The calls of each part *)
Lemma fail_trace P i e : respects (trace_ok P) (fail orc i e).
Proof. unfold fail. walk; auto with nephos; apply on_queue_trace. Qed.
Lemma orFail_trace P {A} i (m : M effect (result A)) f :
  respects (trace_ok P) m → (∀ a, respects (trace_ok P) (f a)) → respects (trace_ok P) (orFail orc i m f).
Proof. intros Hm Hf. unfold orFail. walk; auto using fail_trace. Qed.
Lemma failing_trace P m : respects (trace_ok P) m → respects (trace_ok P) (failing m).
Proof. intros Hm. unfold failing. walk. done. Qed.
Lemma settle_trace P i m : respects (trace_ok P) m → respects (trace_ok P) (settle i m).
Proof. intros Hm. unfold settle. walk; auto; apply on_queue_trace. Qed.

Lemma start_trace i rt : respects (trace_ok (of_runtime rt)) (start orc id i rt).
Proof.
  unfold start. repeat (apply orFail_trace; [|intros]).
  - apply failing_trace. refine (call_trace orc _ (RuntimeStart rt) _). split; simpl; congruence.
  - refine (call_trace orc _ (RuntimeInspect rt) _). by split.
  - walk; auto using fail_trace. apply settle_trace. auto with nephos.
Qed.

Lemma Ready_trace P i : respects (trace_ok P) (Ready orc i).
Proof. unfold Ready. walk; auto with nephos. Qed.

Lemma terminate_trace i : respects (trace_ok plain) (terminate orc i).
Proof.
  unfold terminate, teardown. walk; repeat (apply orFail_trace; [|intros]);
    try apply settle_trace; try apply failing_trace; auto with nephos.
  - by refine (call_trace orc _ (RuntimeDelete _) _).
  - by refine (call_trace orc _ (EngineDeleteENI _ _) _).
  - by refine (call_trace orc _ (EngineDeleteENI _ _) _).
Qed.

(** *** A created runtime *)
Lemma call_run e w a w1 :
  call orc e w = (a, w1) → w_trace w1 = w_trace w ++ [existT e a] ∧ w_db w1 = w_db w.
Proof. unfold call. by intros [= <- <-]. Qed.

(** The disposal of a runtime that could not be recorded. *)
Definition disposed (rt : string) (r : result unit) (w w' : World effect) : Prop :=
  ∃ t, w_trace w' = w_trace w ++ t ∧ Forall plain t ∧
    (holds (w_db w') id rt ∨ (∃ x, x ∈ t ∧ removal rt x = Some None) ∨
     (is_Ok r = false ∧ ∃ x e, x ∈ t ∧ removal rt x = Some (Some e))).

Lemma remove_disposes i rt e0 w r w' :
  (deleted ← call orc (RuntimeDelete rt);
   match deleted with
   | Some err => mret (Err (e0 err))
   | None => c_Enqueue i ;; mret (Ok tt)
   end) w = (r, w') → disposed rt r w w'.
Proof.
  intros H. take_step H as a w1 E. destruct (call_run (RuntimeDelete rt) _ _ _ E) as [Et _].
  exists [existT (RuntimeDelete rt) a]. split; [|split].
  - destruct a; [by injection H as <- <-|]. take_step H as u w2 E2. injection E2 as <- <-. by injection H as <- <-.
  - by repeat constructor.
  - right. destruct a as [err|].
    + right. split; [by injection H as <- <-|]. exists (existT (RuntimeDelete rt) (Some err)), err. split; [by left|].
      simpl. by rewrite beq_refl.
    + left. eexists. split; [by left|]. simpl. by rewrite beq_refl.
Qed.

Lemma createdDuringStateChange_disposes i rt e w r w' :
  Inv (w_db w) → Instance_ID i = id → createdDuringStateChange orc i rt e w = (r, w') → disposed rt r w w'.
Proof using Hothers Hkeep.
  intros I Hid H. unfold createdDuringStateChange in H. cbv zeta in H.
  destruct (errors_Is e ErrStaleSnapshot).
  2: { by eapply (remove_disposes (Instance_ID i) rt (λ err, Joinf _ e err)). }
  take_step H as retained w1 E1.
  assert (w_trace w1 = w_trace w) as Ht1.
  { unfold store_call in E1. destruct (store_RetainTerminatingRuntimeID _ _ _ _). by injection E1 as _ <-. }
  destruct retained as [[]|e1].
  - assert (holds (w_db w1) id rt) as Hh.
    { unfold store_call in E1. destruct (store_RetainTerminatingRuntimeID _ _ _ _) as [r0 d0] eqn:E.
      injection E1 as -> <-. simpl. rewrite <- Hid. by eapply Retain_holds. }
    assert (Inv (w_db w1)) as I1.
    { eapply steps_Inv; [|exact I]. refine (respects_run db_steps _ _ _ _ _ E1 I).
      apply (record_instance_steps orc Hothers (λ flt _, store_RetainTerminatingRuntimeID flt _ _)). intros.
      by eapply store_RetainTerminatingRuntimeID_steps. }
    take_step H as a w2 E2. destruct (call_run (RuntimeDelete rt) _ _ _ E2) as [Et Ed]. rewrite <- Ed in Hh, I1.
    exists [existT (RuntimeDelete rt) a].
    assert (w_trace w' = w_trace w2 ∧ holds (w_db w') id rt) as [Htr Hh'].
    { destruct a as [err|].
      - take_step H as loaded w3 E3.
        pose proof (respects_run _ _ _ _ _ (store_read_trace orc (λ _, False) _) E3) as (t3 & Ht3 & Hf3).
        pose proof (respects_run _ _ _ _ _ (store_read_keeps rt _) E3 I1) as [I3 Hh3].
        destruct t3; [|by inversion Hf3]. rewrite app_nil_r in Ht3. rewrite <- Ht3.
        destruct loaded as [cur|le]; [|injection H as <- <-; auto].
        pose proof (respects_run _ _ _ _ _ (fail_trace (λ _, False) cur err) H) as (t4 & Ht4 & Hf4).
        pose proof (respects_run _ _ _ _ _ (fail_keeps rt cur err) H I3) as [_ Hh4].
        destruct t4; [|by inversion Hf4]. rewrite app_nil_r in Ht4. rewrite <- Ht4. auto.
      - take_step H as u w3 E3. injection E3 as <- <-. by injection H as <- <-. }
    split_and!; [by rewrite Htr, Et, Ht1|by repeat constructor|by left].
  - destruct (remove_disposes (Instance_ID i) rt (λ err, Joinf (Sprintf "record runtime %s: %w; cleanup failed: %w" [Instance_ID i]) e err) w1 r w' H)
      as (t & Ht & Hrest). exists t. by rewrite Ht, Ht1.
Qed.

Lemma recorded_run i rt w w1 :
  Instance_ID i = id → Inv (w_db w) →
  store_call orc (λ flt _, store_RecordRuntimeID flt (Instance_ID i) (Instance_Generation i) rt) w = (Ok tt, w1) →
  w_trace w1 = w_trace w ∧ holds (w_db w1) id rt.
Proof.
  intros Hid I E. unfold store_call in E. destruct (store_RecordRuntimeID _ _ _ _ _) as [r0 d0] eqn:E0.
  injection E as -> <-. split; [done|]. simpl. rewrite <- Hid. by eapply RecordRuntimeID_holds.
Qed.

Lemma plain_run {A} (m : M effect A) r w a w' :
  respects (trace_ok plain) m → m w = (a, w') → ∃ t, w_trace w' = w_trace w ++ t ∧ accounted id r (w_db w') t.
Proof.
  intros Hm Hr. destruct (respects_run _ _ _ _ _ Hm Hr) as (t & Ht & Hp). exists t.
  split; [done|]. by apply accounted_plain.
Qed.

(** What [launch] does with the runtime it created. *)
Lemma created_accounted i rt w r w' :
  Inv (w_db w) → Instance_ID i = id →
  (recorded ← store_call orc (λ flt _,
     store_RecordRuntimeID flt (Instance_ID i) (Instance_Generation i) rt);
   match recorded with
   | Err e => createdDuringStateChange orc i rt e
   | Ok _ =>
       reloaded ← store_read orc (λ flt, store_GetInstance flt "default" id);
       match reloaded with
       | Err e => mret (Err (Wrapf (Sprintf "reload instance %s after create: %w" [id]) e))
       | Ok instance =>
           if Instance_DeletionRequested instance then c_Enqueue id ;; mret (Ok tt)
           else start orc id instance rt
       end
   end) w = (r, w') →
  ∃ t, w_trace w' = w_trace w ++ t ∧ Forall (of_runtime rt) t ∧
    (holds (w_db w') id rt ∨ (Forall plain t ∧
      ((∃ x, x ∈ t ∧ removal rt x = Some None) ∨
       (is_Ok r = false ∧ ∃ x e, x ∈ t ∧ removal rt x = Some (Some e))))).
Proof using Hothers Hkeep.
  intros I Hid H. take_step H as recorded w1 E1.
  pose proof (respects_run _ _ _ _ _ (store_call_trace orc (λ _, False) _) E1) as (t1 & Ht1 & Hf1).
  destruct t1; [|by inversion Hf1]. rewrite app_nil_r in Ht1.
  assert (Inv (w_db w1)) as I1.
  { eapply steps_Inv; [|exact I]. refine (respects_run db_steps _ _ _ _ _ E1 I).
    apply (record_instance_steps orc Hothers (λ flt _, store_RecordRuntimeID flt _ _ _)). intros.
    by eapply store_RecordRuntimeID_steps. }
  destruct recorded as [[]|e].
  - apply recorded_run in E1 as [_ Hh]; [|done..].
    set (rest := λ reloaded, match reloaded with Err e => _ | Ok instance => _ end) in H.
    assert (respects (trace_ok (of_runtime rt)) (store_read orc (λ flt, store_GetInstance flt "default" id) ≫= rest)) as Htr.
    { subst rest. walk; auto using start_trace with nephos; apply on_queue_trace. }
    assert (respects (keeps_runtime rt) (store_read orc (λ flt, store_GetInstance flt "default" id) ≫= rest)) as Hke.
    { subst rest. walk; auto using start_keeps, store_read_keeps; by apply same_db_keeps. }
    destruct (respects_run _ _ _ _ _ Htr H) as (t & Ht & Hp). exists t. rewrite Ht, Ht1.
    split_and!; [done..|]. left. by apply (respects_run _ _ _ _ _ Hke H I1).
  - apply createdDuringStateChange_disposes in H as (t & Ht & Hp & Hc); [|done..].
    exists t. rewrite Ht, Ht1. split_and!; [done| |naive_solver].
    eapply Forall_impl; [exact Hp|]. intros c [Hc1 Hc2]. split; congruence.
Qed.

(** An instance that was read is the one asked for. *)
Lemma loaded_instance w i w1 :
  Inv (w_db w) → store_read orc (λ flt, store_GetInstance flt "default" id) w = (Ok i, w1) →
  Inv (w_db w1) ∧ w_trace w1 = w_trace w ∧ Instance_ID i = id.
Proof using Hothers.
  intros I H. split_and!.
  - eapply steps_Inv; [|exact I]. refine (respects_run db_steps _ _ _ _ _ H I). by apply store_read_steps.
  - unfold store_read, store_call in H. by injection H as _ <-.
  - unfold store_read, store_call in H. injection H as H _. unfold store_GetInstance in H.
    destruct (WithTx _ _ _) as [r d'] eqn:E. simpl in H. subst r.
    apply WithTx_Ok in E as (s & s' & Hs & Hrun & _).
    apply GetInstance_inv in Hrun as (row & eid & e & Hrow & _ & _ & _ & _ & Hi & _).
    apply instanceOfRows_inv in Hi as (a & _ & _ & ->). simpl. rewrite Hs in Hrow.
    assert (Inv (o_others orc (w_time w) (w_db w))) as I' by (eapply steps_Inv; [by apply Hothers|done]).
    by destruct (inv_i _ I' _ _ Hrow).
Qed.

Lemma orFail_accounted {A} i (m : M effect (result A)) f w r w' :
  Inv (w_db w) → respects db_steps m → respects (trace_ok plain) m →
  (∀ a w1, Inv (w_db w1) → f a w1 = (r, w') → ∃ t, w_trace w' = w_trace w1 ++ t ∧ accounted id r (w_db w') t) →
  orFail orc i m f w = (r, w') → ∃ t, w_trace w' = w_trace w ++ t ∧ accounted id r (w_db w') t.
Proof.
  intros I Hs Hp Hf H. take_step H as a w1 E.
  destruct (respects_run _ _ _ _ _ Hp E) as (t1 & Ht1 & Hp1).
  assert (∃ t, w_trace w' = w_trace w1 ++ t ∧ accounted id r (w_db w') t) as (t & Ht & Ha).
  { destruct a as [a|e].
    - eapply Hf; [|exact H]. eapply steps_Inv; [|exact I]. exact (respects_run _ _ _ _ _ Hs E I).
    - eapply plain_run; [|exact H]. apply fail_trace. }
  exists (t1 ++ t). rewrite Ht, Ht1, app_assoc. split; [done|]. by apply accounted_app.
Qed.

Lemma launch_accounted i w r w' :
  Inv (w_db w) → Instance_ID i = id → launch orc id i w = (r, w') →
  ∃ t, w_trace w' = w_trace w ++ t ∧ accounted id r (w_db w') t.
Proof using Hothers Hkeep.
  intros I Hid H. unfold launch in H.
  eapply (orFail_accounted i (failing (call orc (RuntimeEnsureImage "nephos-ubuntu:dev"))));
    [exact I|apply failing_steps; exact (call_steps orc _)| | |exact H].
  { apply failing_trace. by refine (call_trace orc _ (RuntimeEnsureImage _) _). }
  clear I H. intros u w0 I H. take_step H as created w2 E2.
  destruct (call_run (RuntimeCreate i) _ _ _ E2) as [Et2 Ed2]. destruct created as [rt|e].
  - apply created_accounted in H as (t & Ht & Hp & Hc); [|by rewrite Ed2|done].
    exists ([] ++ existT (RuntimeCreate i) (Ok rt) :: t). split; [by rewrite Ht, Et2, <- app_assoc|].
    by apply (accounted_create id r (w_db w') _ _ t rt).
  - destruct (respects_run _ _ _ _ _ (fail_trace plain i e) H) as (t & Ht & Hp).
    eexists. rewrite Ht, Et2, <- app_assoc. split; [done|]. apply accounted_plain.
    apply Forall_app. split; [by repeat constructor|done].
Qed.

Lemma reconcileLocked_accounted w r w' :
  Inv (w_db w) → reconcileLocked orc id w = (r, w') →
  ∃ t, w_trace w' = w_trace w ++ t ∧ accounted id r (w_db w') t.
Proof using Hothers Hkeep.
  intros I H. unfold reconcileLocked in H. take_step H as loaded w1 E1.
  destruct loaded as [i|e].
  2: { assert (w_trace w1 = w_trace w) as <- by (unfold store_read, store_call in E1; by injection E1 as _ <-).
       eapply (plain_run (if errors_Is e ErrNoRows then c_clearRetry id ;; mret (Ok tt)
         else mret (Err (Wrapf (Sprintf "load instance %s: %w" [id]) e)))); [|exact H].
       walk; auto with nephos; apply on_queue_trace. }
  apply loaded_instance in E1 as (I1 & <- & Hid); [|done].
  destruct (Instance_DeletionRequested i); [by eapply plain_run; [apply terminate_trace|]|].
  eapply orFail_accounted; [exact I1|by apply Ready_steps|apply Ready_trace| |exact H].
  intros ready w2 I2 H2. destruct ready; simpl in H2; [|injection H2 as <- <-; exists []; rewrite app_nil_r;
    split; [done|by apply accounted_plain]].
  destruct (_ && _); [|by eapply launch_accounted].
  eapply (orFail_accounted i (call orc (RuntimeInspect (Instance_RuntimeID i))));
    [exact I2|exact (call_steps orc _)| | |exact H2].
  { by refine (call_trace orc _ (RuntimeInspect _) _). }
  intros st w3 I3 H3. cbv beta in H3. destruct (Running st); [|by apply (launch_accounted i)].
  eapply (plain_run (c_clearRetry id ;; mret (Ok tt))); [|exact H3]. walk. apply on_queue_trace.
Qed.
End runs.

(** ** The scenario with its topology applied *)
Definition demo_vpc_model : VPC :=
  MkVPC demo_vpc "default" "main" (MkPrefix (Addr4 167772160) 16) 1 "pending" "" false 1 0.
Definition demo_subnet_models : list Subnet := [
  MkSubnet (demo_subnet "02") "default" demo_vpc "a" (MkPrefix (Addr4 167772416) 28) "local-1a" 2 "pending" "" false 1 0;
  MkSubnet (demo_subnet "03") "default" demo_vpc "b" (MkPrefix (Addr4 167772672) 24) "local-1b" 3 "pending" "" false 1 0].
Definition ready_db : DB :=
  execute_all (demo_ops ++ [OpRecordTopology None None 2000 demo_vpc_model demo_subnet_models None]) initialDB.

(** The runtime names containers after their instance; deletions get one answer. *)
Definition runtime_of (i : Instance_) : string :=
  if Instance_RuntimeID i ==? "" then "ctr-" +:+ Instance_ID i else Instance_RuntimeID i.
Definition runtime_oracle (others : nat → DB → DB) (deleted : option error) : Oracle effect :=
  MkOracle others (λ _, []) (λ _, None) (λ _, 5000) (λ _, 70) (λ _, None)
    (λ _ e, match e return answer e with
            | RuntimeEnsureImage _ | RuntimeStart _ | EngineDeleteENI _ _ => None
            | RuntimeCreate i => Ok (runtime_of i)
            | RuntimeDelete _ => deleted
            | RuntimeInspect _ => Ok (MkRuntimeStatus true)
            end).
(** Before store call [at_call] the instance's termination is requested. *)
Definition terminated_at (at_call : nat) (id : string) (n : nat) (d : DB) : DB :=
  if (n =? at_call)%nat then (perform (OpTerminate (at_time 3000 1) id) d).2 else d.

#[export] Instance holds_terminating id rt a b c : Preserves (λ d, holds d id rt) (stmt (q_MarkInstanceTerminating a b c)).
Proof.
  apply Preserves_stmt. intros d u d' Hq (r & Hr & Hrt). unfold q_MarkInstanceTerminating, check in Hq.
  destruct (q_GetInstance b c d) as [r0|e0] eqn:E; [|inv_ok; simplify_eq; by exists r].
  destruct (_ =? _); inv_ok; simplify_eq; [|by exists r].
  unfold q_GetInstance in E. inv_ok. subst. destruct (decide (id = b)) as [->|Hne].
  - simplify_eq. eexists. split; [apply lookup_insert_eq|done].
  - exists r. split; [|done]. simpl. by rewrite lookup_insert_ne.
Qed.

Lemma Terminate_holds env i d id rt :
  holds d id rt → holds (perform (OpTerminate env i) d).2 id rt.
Proof.
  intros Hh. simpl. unfold Terminate, TerminateSnapshot.
  assert (holds (WithTx (env_fault env) (terminateSnapshot i (env_now env)) d).2 id rt) as H.
  { apply (Preserves_WithTx (λ d, holds d id rt)); [|done].
    unfold terminateSnapshot, tx_MarkInstanceTerminating, tx_AppendEvent. apply _. }
  unfold after_commit. by destruct (WithTx _ _ _) as [[[? ?]|?] ?].
Qed.

(** ** Properties *)



(** C8: Whatever commits around it and whatever fails, a reconciliation accounts for
    the runtimes it creates: in the end the runtime is recorded in the instance's row
    (so a later round finds it), or it was removed again, or its removal failed and
    the reconciliation returns an error.  A runtime is started only after it was
    recorded.  Other goroutines may do anything but forget the recorded runtime. *)
Theorem created_runtimes_are_accounted (orc : Oracle effect) id w :
  Inv (w_db w) → (∀ m d, Inv d → steps d (o_others orc m d)) →
  (∀ m d rt, Inv d → holds d id rt → holds (o_others orc m d) id rt) →
  let '(r, w') := reconcileLocked orc id w in
  ∃ calls, w_trace w' = w_trace w ++ calls ∧ accounted id r (w_db w') calls.
Proof.
  intros I Hothers Hkeep. destruct (reconcileLocked orc id w) as [r w'] eqn:E.
  by eapply reconcileLocked_accounted.
Qed.

(** Witness: the instance is terminated between the creation of its runtime and the
    recording, and the removal fails. *)
Lemma created_runtimes_witness :
  let orc := runtime_oracle (terminated_at 5 (demo_instance "04")) (Some (ErrIO "podman: device busy")) in
  let w := MkWorld ready_db newQueue 0 [] in
  ∃ calls, w_trace (reconcileLocked orc (demo_instance "04") w).2 = w_trace w ++ calls ∧
    accounted (demo_instance "04") (reconcileLocked orc (demo_instance "04") w).1
      (w_db (reconcileLocked orc (demo_instance "04") w).2) calls.
Proof.
  intros orc w.
  pose proof (created_runtimes_are_accounted orc (demo_instance "04") w) as H.
  destruct (reconcileLocked orc (demo_instance "04") w) as [r w']. apply H.
  - apply execute_all_steps, initial_Inv.
  - intros m d I. subst orc. cbn [o_others runtime_oracle]. unfold terminated_at.
    destruct (m =? 5)%nat; [by apply perform_steps|exact (rtc_refl trans d)].
  - intros m d rt _ Hh. subst orc. cbn [o_others runtime_oracle]. unfold terminated_at.
    destruct (m =? 5)%nat; [by apply Terminate_holds|done].
Defined.

(** In that run the runtime is retained in the row for the next round. *)
Example raced_runtime_is_retained :
  let w := MkWorld ready_db newQueue 0 [] in
  let w' := (reconcileLocked (runtime_oracle (terminated_at 5 (demo_instance "04")) (Some (ErrIO "podman: device busy")))
               (demo_instance "04") w).2 in
  (i_RuntimeID <$> instances (w_db w') !! demo_instance "04") = Some (Some ("ctr-" +:+ demo_instance "04")) ∧
  (i_State <$> instances (w_db w') !! demo_instance "04") = Some "failed" ∧
  length (w_trace w') = 3%nat.
Proof. vm_compute. done. Qed.
