(* ===== verification/SweepSafety.v ===== *)
(** What [Sweep] of [internal/reconcile/network.go] may remove: the namespace of a
    VPC that is persisted while it runs is never taken for an orphan. *)

From S2P Require Import Prelude Errors GoStrings NetIP Validate Ipam Mac Netns Model Snapshot.
From S2P Require Import Schema Tx Transitions Store Idempotency Refine RecordRefine Paging Queue.
From S2P Require Import NetworkService InstanceService ServiceRefine System Controller Reconcile.
Local Open Scope Z_scope.

Lemma vpcs_keyed d : Inv d → keyed v_ID (vpcs d).
Proof. intros I k r Hr. by destruct (inv_v d I k r Hr). Qed.

Lemma autocommit_read {A} flt (f : query A) d a : (autocommit flt (read f) d).1 = Ok a → f d = Ok a.
Proof.
  unfold autocommit. destruct (read f (MkTxs d flt)) as [[x|e] s] eqn:E; [|done].
  intros [= ->]. by apply read_Ok in E as [? _].
Qed.

(** A page of VPCs is the first hundred rows after the identifier. *)
Lemma ListVPCPage_rows flt after d page :
  store_ListVPCPage flt "default" after 100 d = Ok page →
  Forall2 (λ r x, vpcFromRow r = Ok x)
    (take 100 (rest v_ID (λ r, v_WorkspaceID r ==? "default") after (vpcs d))) page.
Proof.
  unfold store_ListVPCPage. intros. inv_ok.
  match goal with H : (autocommit _ _ _).1 = _ |- _ => apply autocommit_read in H; injection H as <- end.
  by apply mapM_Ok.
Qed.

Lemma wantPage_spec page wanted wanted' :
  wantPage page wanted = Ok wanted' →
  wanted ⊆ wanted' ∧ ∀ v, v ∈ page → ∃ name, Name (VPC_ShortIndex v) = Ok name ∧ name ∈ wanted'.
Proof.
  revert wanted. induction page as [|v page IH]; intros wanted H; simpl in H.
  - injection H as <-. split; [done|]. intros v Hv. by apply not_elem_of_nil in Hv.
  - inv_ok. match goal with H : wantPage _ _ = _ |- _ => apply IH in H as [Hsub Hall] end.
    split; [set_solver|]. intros v' [->|Hv']%elem_of_cons; [|by apply Hall]. eexists. split; [done|set_solver].
Qed.

Section safety.
Context (orc : Oracle effect) (Hothers : others_ok orc) (id : string) (n : Z).

(** The VPC is in the database. *)
Definition persisted (d : DB) : Prop := ∃ r, vpcs d !! id = Some r ∧ v_ShortIndex r = n.

Context (Hkeep : ∀ m d, Inv d → persisted d → persisted (o_others orc m d)).

Definition is_wanted (wanted : gset string) : Prop := ∃ name, Name n = Ok name ∧ name ∈ wanted.

Lemma sweepPages_covers fuel after vs wanted w vs' wanted' w' :
  Inv (w_db w) → persisted (w_db w) → string_gt id after = true ∨ is_wanted wanted →
  sweepPages orc fuel after vs wanted w = (Ok (vs', wanted'), w') → is_wanted wanted'.
Proof using Hothers Hkeep.
  revert after vs wanted w. induction fuel as [|fuel IH]; intros after vs wanted w I Hp Hin H; [done|].
  cbn [sweepPages] in H. unfold andThen, mbind, M_bind in H.
  unfold store_read, store_call in H. cbv beta iota zeta in H.
  set (d := o_others orc (w_time w) (w_db w)) in *.
  assert (Inv d) as Id by (eapply steps_Inv; [by apply Hothers|done]).
  assert (persisted d) as Hpd by (by apply Hkeep).
  destruct (store_ListVPCPage _ _ _ _ d) as [page|e] eqn:Hpage; [|done].
  apply ListVPCPage_rows in Hpage. destruct Hpd as (r & Hr & Hshort).
  assert ((v_WorkspaceID r ==? "default") = true) as Hws by (apply beq_true; by destruct (inv_v d Id id r Hr)).
  destruct (last page) as [v|] eqn:Hlast.
  - destruct (wantPage page wanted) as [wanted1|e] eqn:Hw; [|done].
    apply wantPage_spec in Hw as [Hsub Hall].
    refine (IH _ _ _ _ _ _ _ H); [done|by exists r|].
    destruct Hin as [Hgt|(name & Hname & Hin)]; [|right; exists name; set_solver].
    destruct (page_progress v_ID (λ r, v_WorkspaceID r ==? "default") after 100 (vpcs d) id r)
      as [Hmem|(r' & Hr' & Hgt')]; auto using vpcs_keyed; [lia|right|left].
    + apply list_elem_of_lookup in Hmem as [k Hk].
      eapply Forall2_lookup_l in Hpage as (x & Hx & Hfrom); [|done].
      apply list_elem_of_lookup_2, Hall in Hx as (name & Hname & Hin). exists name.
      apply vpcFromRow_inv in Hfrom as (p & _ & ->). simpl in Hname. by rewrite Hshort in Hname.
    + rewrite last_lookup in Hr'. rewrite last_lookup in Hlast. rewrite (Forall2_length _ _ _ Hpage) in Hr'.
      eapply Forall2_lookup_lr in Hpage; [|exact Hr'|exact Hlast].
      by apply vpcFromRow_inv in Hpage as (p & _ & ->).
  - injection H as <- <- _. destruct Hin as [Hgt|]; [|done]. exfalso.
    apply last_None in Hlast as ->. inversion Hpage as [Hnil|]; subst.
    destruct (page_progress v_ID (λ r, v_WorkspaceID r ==? "default") after 100 (vpcs d) id r)
      as [Hmem|(r' & Hr' & _)]; auto using vpcs_keyed; [lia|..].
    + rewrite <- Hnil in Hmem. by apply not_elem_of_nil in Hmem.
    + by rewrite <- Hnil in Hr'.
Qed.

(** Deletions of the kernel index are for a VPC whose deletion was requested. *)
Definition spares (c : {e : effect & answer e}) : Prop :=
  match c with
  | existT (EngineDeleteVPC v) _ => VPC_ShortIndex v = n → VPC_DeletionRequested v = true
  | _ => True
  end.

Lemma reconcileLocked_spares i : respects (trace_ok spares) (reconcileLocked orc i).
Proof.
  unfold reconcileLocked, recordVPC. walk; auto with nephos; try apply on_queue_trace; try apply store_call_trace.
  unfold applyVPC. destruct (VPC_DeletionRequested _) eqn:Hdel; walk; apply call_trace; intros ?; simpl; auto.
Qed.

Lemma sweepPages_spares fuel after vs wanted : respects (trace_ok spares) (sweepPages orc fuel after vs wanted).
Proof.
  revert after vs wanted. induction fuel as [|fuel IH]; intros; cbn [sweepPages]; walk; auto with nephos.
Qed.

Lemma convergeAll_spares vs : respects (trace_ok spares) (convergeAll orc vs).
Proof. induction vs; cbn [convergeAll]; walk; auto using reconcileLocked_spares. Qed.

Lemma removeOrphans_spares wanted names :
  is_wanted wanted → respects (trace_ok spares) (removeOrphans orc wanted names).
Proof.
  intros (nm & Hnm & Hin). induction names as [|name names IH]; cbn [removeOrphans]; [walk|].
  destruct (bool_decide (name ∈ wanted)) eqn:Hw; [done|]. destruct (ownedIndex name) as [i valid] eqn:Ho.
  destruct valid; [|done]. simpl. walk; [|done].
  refine (call_trace orc spares (EngineDeleteVPC (orphanVPC name i)) _). intros a. simpl. intros ->.
  apply ownedIndex_iff in Ho. assert (name = nm) as -> by congruence. by reflect_bools.
Qed.
End safety.

(** ** Oracles for the scenario *)

(** Nothing else happens; the engine gives one answer to every change. *)
Definition demo_oracle (eff : option error) (names : list string) : Oracle effect :=
  MkOracle (λ _ d, d) (λ _, []) (λ _, None) (λ _, 5000) (λ _, 70) (λ _, None)
    (λ _ e, match e return answer e with
            | EngineEnsureVPC _ _ | EngineDeleteVPC _ => eff
            | EngineListVPCNames => Ok names
            end).

(** An instance is started before the second store call. *)
Definition busy_oracle (eff : option error) (names : list string) : Oracle effect :=
  MkOracle
    (λ m d, if (m =? 1)%nat
            then (perform (OpRun (at_time 4000 6) (MkRunInstanceInput "late" (demo_subnet "02")) "") d).2 else d)
    (λ _, [demo_vpc]) (λ _, None) (λ _, 5000) (λ _, 70) (λ _, None)
    (λ _ e, match e return answer e with
            | EngineEnsureVPC _ _ | EngineDeleteVPC _ => eff
            | EngineListVPCNames => Ok names
            end).

(** ** Properties *)



(** C3: A sweep, while other goroutines do anything the machine allows except
    removing a given VPC, with any fault, cancellation and engine answers, asks the
    engine to delete that VPC's kernel index only if the VPC's deletion was
    requested: its namespace is never removed as an orphan. *)
Theorem sweep_spares_persisted_vpcs (orc : Oracle effect) id n fuel w :
  id ≠ "" → Inv (w_db w) → persisted id n (w_db w) →
  (∀ m d, Inv d → steps d (o_others orc m d)) →
  (∀ m d, Inv d → persisted id n d → persisted id n (o_others orc m d)) →
  ∃ calls, w_trace (Sweep orc fuel w).2 = w_trace w ++ calls ∧
    ∀ v a, existT (EngineDeleteVPC v) a ∈ calls → VPC_ShortIndex v = n → VPC_DeletionRequested v = true.
Proof.
  intros Hid I Hp Hothers Hkeep.
  assert (trace_ok (spares n) w (Sweep orc fuel w).2) as (t & Ht & Hall).
  { unfold Sweep, andThen at 1. unfold mbind, M_bind.
    pose proof (sweepPages_spares orc n fuel "" [] ∅ w) as H1.
    destruct (sweepPages orc fuel "" [] ∅ w) as [[[vs wanted]|e] w1] eqn:E; [|done].
    assert (is_wanted n wanted) as Hw
      by (eapply sweepPages_covers; eauto; left; by apply string_gt_empty).
    etrans; [exact H1|]. clear -Hw. revert w1.
    change (respects (trace_ok (spares n))
      (names ← call orc EngineListVPCNames;
       match names with
       | Err e => mret (Err (Wrapf (Sprintf "list VPC namespace orphans: %w" []) e))
       | Ok names => andThen (removeOrphans orc wanted names) (λ _, convergeAll orc vs)
       end)).
    walk; auto using removeOrphans_spares, convergeAll_spares.
    exact (call_trace orc (spares n) EngineListVPCNames (λ _, I)). }
  exists t. split; [done|]. intros v a Hin. rewrite Forall_forall in Hall. exact (Hall _ Hin).
Qed.

(** Witness: the scenario's VPC and the namespace of an unknown one. *)
Lemma sweep_spares_witness :
  let orc := demo_oracle None ["nx-vpc-1"; "nx-vpc-99"] in
  let w := MkWorld demo_db newQueue 0 [] in
  ∃ calls, w_trace (Sweep orc 2 w).2 = w_trace w ++ calls ∧
    ∀ v a, existT (EngineDeleteVPC v) a ∈ calls → VPC_ShortIndex v = 1 → VPC_DeletionRequested v = true.
Proof.
  apply (sweep_spares_persisted_vpcs (demo_oracle None ["nx-vpc-1"; "nx-vpc-99"]) demo_vpc 1).
  - discriminate.
  - apply execute_all_steps, initial_Inv.
  - eexists. split; vm_compute; reflexivity.
  - intros m d _. exact (rtc_refl trans d).
  - intros m d _ Hp. exact Hp.
Defined.
