(* ===== verification/Progress.v ===== *)
(** Progress of the store without faults: from a state that satisfies the
    invariant, the transactions that record what a reconciler observed succeed,
    and what they leave is given exactly. *)

From S2P Require Import Prelude Errors GoStrings NetIP Validate Ipam Mac Model Snapshot.
From S2P Require Import Schema Tx Transitions Store Idempotency Refine RecordRefine.
Local Open Scope Z_scope.

(** [m] succeeds from [d] when nothing fails. *)
Definition runs {A} (m : Tx A) (d : DB) (a : A) (d' : DB) : Prop :=
  m (MkTxs d None) = (Ok a, MkTxs d' None).

Section runs.
Context {A B : Type}.

Lemma runs_bind (m : Tx A) (f : A → Tx B) d a d1 b d2 :
  runs m d a d1 → runs (f a) d1 b d2 → runs (m ≫= f) d b d2.
Proof. unfold runs, mbind, tx_bind. intros -> H. exact H. Qed.
Lemma runs_ret (a : A) d : runs (mret a) d a d.
Proof. done. Qed.
Lemma runs_wrapping t (m : Tx A) d a d' : runs m d a d' → runs (wrapping t m) d a d'.
Proof. unfold runs, wrapping. by intros ->. Qed.
Lemma runs_or_missing e (m : Tx A) d a d' : runs m d a d' → runs (or_missing e m) d a d'.
Proof. unfold runs, or_missing. by intros ->. Qed.
Lemma runs_stmt (f : statement A) d a d' : f d = Ok (a, d') → runs (stmt f) d a d'.
Proof. unfold runs. rewrite stmt_None. by intros ->. Qed.
Lemma runs_read (f : query A) d a : f d = Ok a → runs (read f) d a d.
Proof. unfold runs. rewrite read_None. by intros ->. Qed.
Lemma runs_lift (r : result A) d a : r = Ok a → runs (lift r) d a d.
Proof. by intros ->. Qed.
Lemma runs_guard b e d : b = true → runs (guard_tx b e) d tt d.
Proof. by intros ->. Qed.
Lemma runs_WithTx (m : Tx A) d a d' : runs m d a d' → WithTx None m d = (Ok a, d').
Proof. apply WithTx_None_Ok. Qed.
End runs.

(** ** Rows under the invariant *)
Lemma is4_canonical p : canonical p → Is4 (p_ip p) = true.
Proof. intros [Hv _]. by apply valid4_IsValid. Qed.

Lemma vpcFromRow_total d id r : Inv d → vpcs d !! id = Some r → ∃ v, vpcFromRow r = Ok v.
Proof.
  intros I Hr. destruct (inv_v d I id r Hr) as [_ _ _ (p & Hp & Ht) _ _ _]. unfold vpcFromRow.
  rewrite Ht, ParsePrefix_String by apply Hp. simpl. rewrite is4_canonical by done. simpl. eauto.
Qed.

Lemma subnetFromRow_total d id r : Inv d → subnets d !! id = Some r → ∃ x, subnetFromRow r = Ok x.
Proof.
  intros I Hr. destruct (inv_s d I id r Hr) as [_ _ _ (p & Hp & Ht) _ _ _]. unfold subnetFromRow.
  rewrite Ht, ParsePrefix_String by apply Hp. simpl. rewrite is4_canonical by done. simpl. eauto.
Qed.

Lemma mapM_total {A B} (f : A → result B) l : (∀ x, x ∈ l → ∃ y, f x = Ok y) → ∃ k, mapM f l = Ok k.
Proof.
  induction l as [|x l IH]; intros H; [by exists []|]. destruct (H x) as [y Hy]; [by left|].
  destruct IH as [k Hk]; [intros z Hz; apply H; by right|]. exists (y :: k). cbn [mapM]. by rewrite Hy, Hk.
Qed.

(** The children of a VPC can be listed. *)
Lemma ListSubnetsByVPC_total d vpc :
  Inv d → ∃ l, mapM subnetFromRow (List.filter (λ r, s_VpcID r ==? vpc) (by_id (subnets d))) = Ok l.
Proof.
  intros I. apply mapM_total. intros r (_ & k & Hk)%elem_of_filter_by_id. by eapply subnetFromRow_total.
Qed.

Lemma state_check_status (ok : bool) : state_check (if ok then "available" else "failed") = true.
Proof. by destruct ok. Qed.

Lemma vpc_check_status d id r (ok : bool) reason now :
  Inv d → vpcs d !! id = Some r →
  vpc_check (vpc_with_status r (if ok then "available" else "failed") reason
               (if ok then v_Generation r else v_ObservedGeneration r) now) = true.
Proof.
  intros I Hr. destruct (inv_v d I id r Hr) as [_ _ _ _ Hc Hl _]. unfold vpc_check, vpc_with_status in *.
  cbn [v_Name v_State v_Generation v_ObservedGeneration v_DeletionRequested]. reflect_bools.
  rewrite state_check_status. rewrite !andb_true_iff. split_and!; auto.
  unfold generation_check in *. reflect_bools. rewrite !andb_true_iff, !Z.leb_le. destruct ok; lia.
Qed.

Lemma subnet_check_status d id r (ok : bool) reason now :
  Inv d → subnets d !! id = Some r →
  subnet_check (subnet_with_status r (if ok then "available" else "failed") reason
               (if ok then s_Generation r else s_ObservedGeneration r) now) = true.
Proof.
  intros I Hr. destruct (inv_s d I id r Hr) as [_ _ _ _ Hc Hl _]. unfold subnet_check, subnet_with_status in *.
  cbn [s_Name s_AvailabilityZone s_State s_Generation s_ObservedGeneration s_DeletionRequested]. reflect_bools.
  rewrite state_check_status. rewrite !andb_true_iff. split_and!; auto.
  unfold generation_check in *. reflect_bools. rewrite !andb_true_iff, !Z.leb_le. destruct ok; lia.
Qed.

(** ** Statements that succeed *)
Definition log_room (d : DB) (n : Z) : Prop := event_seq d + n < 2 ^ 63 - 1.

(** The database with one more event. *)
Definition logged (d : DB) (e : Event) : DB :=
  set_events (event_seq d + 1)
    (events d ++ [MkEventRow (event_seq d + 1) (Event_WorkspaceID e) (Event_ResourceType e)
       (Event_ResourceID e) (Event_Action e) (Event_State e) (Event_Generation e) (Event_Message e)
       (Event_CreatedAt e)]) d.

Lemma AppendEvent_runs d e :
  Inv d → log_room d 0 → Event_WorkspaceID e = "default" → runs (tx_AppendEvent e) d tt (logged d e).
Proof.
  intros I Hr Hw. apply runs_wrapping, runs_stmt. unfold q_InsertEvent, next_id, log_room, logged in *.
  rewrite (proj2 (Z.ltb_lt _ _)) by lia. simpl. rewrite Hw, (inv_ws d I). unfold foreign_key.
  rewrite bool_decide_true by set_solver. done.
Qed.

Lemma UpdateVPCStatus_runs d id r (ok : bool) reason now :
  Inv d → vpcs d !! id = Some r →
  let r' := vpc_with_status r (if ok then "available" else "failed") reason
              (if ok then v_Generation r else v_ObservedGeneration r) now in
  q_UpdateVPCStatus (if ok then "available" else "failed") reason
    (if ok then v_Generation r else v_ObservedGeneration r) now id "default" d =
  Ok (tt, set_vpcs (<[id := r']> (vpcs d)) d).
Proof.
  intros I Hr r'. unfold q_UpdateVPCStatus. rewrite (q_GetVPC_hit d id "default" r); [|done|].
  - unfold check. by rewrite (vpc_check_status d id).
  - by destruct (inv_v d I id r Hr).
Qed.

Lemma UpdateSubnetStatus_runs d id r (ok : bool) reason now :
  Inv d → subnets d !! id = Some r →
  let r' := subnet_with_status r (if ok then "available" else "failed") reason
              (if ok then s_Generation r else s_ObservedGeneration r) now in
  q_UpdateSubnetStatus (if ok then "available" else "failed") reason
    (if ok then s_Generation r else s_ObservedGeneration r) now id "default" d =
  Ok (tt, set_subnets (<[id := r']> (subnets d)) d).
Proof.
  intros I Hr r'. unfold q_UpdateSubnetStatus. rewrite (q_GetSubnet_hit d id "default" r); [|done|].
  - unfold check. by rewrite (subnet_check_status d id).
  - by destruct (inv_s d I id r Hr).
Qed.

Lemma DeleteVPC_runs d id r :
  Inv d → vpcs d !! id = Some r → no_subnets d id →
  q_DeleteVPC id "default" d = Ok (tt, set_vpcs (delete id (vpcs d)) d).
Proof.
  intros I Hr Hno. unfold q_DeleteVPC. rewrite (q_GetVPC_hit d id "default" r); [|done|by destruct (inv_v d I id r Hr)].
  unfold foreign_key. replace (any _ _) with false; [done|]. symmetry. apply any_false.
  intros k s Hs. apply andb_false_iff. left. apply beq_false. by eapply Hno.
Qed.

(** A subnet that is being deleted has no instances, so its row can go. *)
Lemma DeleteSubnet_runs d id r :
  Inv d → subnets d !! id = Some r → s_DeletionRequested r = 1 →
  q_DeleteSubnet id "default" d = Ok (tt, set_subnets (delete id (subnets d)) d).
Proof.
  intros I Hr Hdel. unfold q_DeleteSubnet. rewrite (q_GetSubnet_hit d id "default" r); [|done|by destruct (inv_s d I id r Hr)].
  assert (∀ i x, instances d !! i = Some x → i_SubnetID x ≠ id) as Hno.
  { intros i x Hx <-. destruct (inv_inst d I i x Hx) as (s & Hs & Hlive). rewrite Hr in Hs. simplify_eq. lia. }
  unfold foreign_key.
  rewrite (proj2 (any_false (λ x, (i_SubnetID x ==? id) && (i_WorkspaceID x ==? "default")) (instances d))).
  - rewrite (proj2 (any_false (λ x, (e_SubnetID x ==? id) && (e_WorkspaceID x ==? "default")) (enis d))); [done|].
    intros k e He. apply andb_false_iff. left. apply beq_false. intros <-.
    destruct (inv_eni d I k e He) as (x & s & p & a & Hx & Hs & _). by apply (Hno _ _ Hx).
  - intros k x Hx. apply andb_false_iff. left. apply beq_false. by eapply Hno.
Qed.
