(* ===== verification/Converge.v ===== *)
(** What one reconciliation of a VPC leaves in the database when nothing else
    happens: [Store.RecordTopology] after [reconcileLocked] read the VPC. *)

From S2P Require Import Prelude Errors GoStrings NetIP Validate Ipam Mac Netns Model Snapshot.
From S2P Require Import Schema Tx Transitions Store Idempotency Refine RecordRefine Paging Progress.
Local Open Scope Z_scope.

(** The row after recording an outcome; [ok] says that the engine succeeded. *)
Definition vpc_outcome (ok : bool) (reason : string) (r : Vpc) (now : Z) : Vpc :=
  vpc_with_status r (if ok then "available" else "failed") reason
    (if ok then v_Generation r else v_ObservedGeneration r) now.
Definition subnet_outcome (ok : bool) (reason : string) (r : SubnetRow) (now : Z) : SubnetRow :=
  subnet_with_status r (if ok then "available" else "failed") reason
    (if ok then s_Generation r else s_ObservedGeneration r) now.

(** What happened to a row: it is gone after a successful deletion, and else has
    the outcome's status; a row that already had it keeps its update time. *)
Definition vpc_settled (ok : bool) (reason : string) (r : Vpc) (o : option Vpc) : Prop :=
  if ok && (v_DeletionRequested r =? 1) then o = None
  else ∃ u, o = Some (vpc_outcome ok reason r u).
Definition subnet_settled (ok : bool) (reason : string) (r : SubnetRow) (o : option SubnetRow) : Prop :=
  if ok && (s_DeletionRequested r =? 1) then o = None
  else ∃ u, o = Some (subnet_outcome ok reason r u).

(** The tables no recording of topology touches. *)
Definition same_elsewhere (d d' : DB) : Prop :=
  instances d' = instances d ∧ enis d' = enis d ∧ kernel_indexes d' = kernel_indexes d ∧
  idempotency d' = idempotency d.

#[export] Instance same_elsewhere_preorder : PreOrder same_elsewhere.
Proof. split; [done|]. unfold same_elsewhere. intros ???; intuition congruence. Qed.

Record vpc_step (ok : bool) (reason : string) (r : Vpc) (d d' : DB) : Prop := {
  vs_self : vpc_settled ok reason r (vpcs d' !! v_ID r);
  vs_frame : ∀ id, id ≠ v_ID r → vpcs d' !! id = vpcs d !! id;
  vs_subnets : subnets d' = subnets d;
  vs_else : same_elsewhere d d';
  vs_log : event_seq d ≤ event_seq d' ≤ event_seq d + 1
}.
Record subnet_step (ok : bool) (reason : string) (r : SubnetRow) (d d' : DB) : Prop := {
  ss_self : subnet_settled ok reason r (subnets d' !! s_ID r);
  ss_frame : ∀ id, id ≠ s_ID r → subnets d' !! id = subnets d !! id;
  ss_vpcs : vpcs d' = vpcs d;
  ss_else : same_elsewhere d d';
  ss_log : event_seq d ≤ event_seq d' ≤ event_seq d + 1
}.

Lemma vpc_outcome_same (ok : bool) reason r :
  v_State r = (if ok then "available" else "failed") → v_StateReason r = reason →
  v_ObservedGeneration r = (if ok then v_Generation r else v_ObservedGeneration r) →
  vpc_outcome ok reason r (v_UpdatedAt r) = r.
Proof. intros Hs Hr Ho. unfold vpc_outcome, vpc_with_status. rewrite <- Ho, <- Hs, <- Hr. by destruct r. Qed.
Lemma subnet_outcome_same (ok : bool) reason r :
  s_State r = (if ok then "available" else "failed") → s_StateReason r = reason →
  s_ObservedGeneration r = (if ok then s_Generation r else s_ObservedGeneration r) →
  subnet_outcome ok reason r (s_UpdatedAt r) = r.
Proof. intros Hs Hr Ho. unfold subnet_outcome, subnet_with_status. rewrite <- Ho, <- Hs, <- Hr. by destruct r. Qed.

Lemma log_room_le d n m : log_room d n → m ≤ n → log_room d m.
Proof. unfold log_room. lia. Qed.

(** The state of a live row or of any row after a failure. *)
Lemma not_deleted (ok : bool) del : (if ok then del = 0 else True) → ok && (del =? 1) = false.
Proof. destruct ok; [|done]. by intros ->. Qed.

Lemma recordVPCStatus_runs d r v (ok : bool) reason now :
  Inv d → vpcs d !! v_ID r = Some r → vpcFromRow r = Ok v → log_room d 1 →
  (if ok then v_DeletionRequested r = 0 else True) →
  ∃ d', runs (tx_recordVPCStatus v (if ok then "available" else "failed") reason ok now) d tt d' ∧
        vpc_step ok reason r d d'.
Proof.
  intros I Hr (p & _ & ->)%vpcFromRow_inv Hroom Hlive. pose proof (not_deleted ok _ Hlive) as Hnd.
  destruct (inv_v d I _ r Hr) as [_ Hws _ _ _ _ _]. unfold tx_recordVPCStatus. simpl.
  destruct ((_ ==? _) && _ && _) eqn:E.
  - reflect_bools. exists d. split; [by apply runs_ret|]. split; try done; [|lia].
    unfold vpc_settled. rewrite Hnd, Hr. exists (v_UpdatedAt r). by rewrite vpc_outcome_same.
  - clear E. rewrite Hws.
    set (d1 := set_vpcs (<[v_ID r := vpc_outcome ok reason r now]> (vpcs d)) d).
    assert (Inv d1) as I1.
    { eapply trans_Inv; [|exact I]. apply t_vpc_status; [done|]. unfold observation. destruct ok; auto. }
    eexists. split.
    + eapply runs_bind; [by apply runs_wrapping, runs_stmt, UpdateVPCStatus_runs|].
      apply (AppendEvent_runs d1); [done|unfold log_room in *; simpl; lia|done].
    + split; try done; simpl; [|intros; by rewrite lookup_insert_ne|lia].
      unfold vpc_settled. rewrite Hnd, lookup_insert_eq. eauto.
Qed.

Lemma recordSubnetStatus_runs d r x (ok : bool) reason now :
  Inv d → subnets d !! s_ID r = Some r → subnetFromRow r = Ok x → log_room d 1 →
  (if ok then s_DeletionRequested r = 0 else True) →
  ∃ d', runs (tx_recordSubnetStatus x (if ok then "available" else "failed") reason ok now) d tt d' ∧
        subnet_step ok reason r d d'.
Proof.
  intros I Hr (p & _ & ->)%subnetFromRow_inv Hroom Hlive. pose proof (not_deleted ok _ Hlive) as Hnd.
  destruct (inv_s d I _ r Hr) as [_ Hws _ _ _ _ _]. unfold tx_recordSubnetStatus. simpl.
  destruct ((_ ==? _) && _ && _) eqn:E.
  - reflect_bools. exists d. split; [by apply runs_ret|]. split; try done; [|lia].
    unfold subnet_settled. rewrite Hnd, Hr. exists (s_UpdatedAt r). by rewrite subnet_outcome_same.
  - clear E. rewrite Hws.
    set (d1 := set_subnets (<[s_ID r := subnet_outcome ok reason r now]> (subnets d)) d).
    assert (Inv d1) as I1.
    { eapply trans_Inv; [|exact I]. apply t_subnet_status; [done|]. unfold observation. destruct ok; auto. }
    eexists. split.
    + eapply runs_bind; [by apply runs_wrapping, runs_stmt, UpdateSubnetStatus_runs|].
      apply (AppendEvent_runs d1); [done|unfold log_room in *; simpl; lia|done].
    + split; try done; simpl; [|intros; by rewrite lookup_insert_ne|lia].
      unfold subnet_settled. rewrite Hnd, lookup_insert_eq. eauto.
Qed.

Lemma recordChild_runs d r x (ok : bool) reason now :
  Inv d → subnets d !! s_ID r = Some r → subnetFromRow r = Ok x → log_room d 1 →
  ∃ d', runs (recordChild (if ok then "available" else "failed") reason ok now x) d tt d' ∧
        subnet_step ok reason r d d'.
Proof.
  intros I Hr Hx Hroom. destruct (inv_s d I _ r Hr) as [_ Hws _ _ _ [_ Hdel] _].
  unfold recordChild. destruct (Subnet_DeletionRequested x && ok) eqn:E.
  - pose proof Hx as (p & _ & ->)%subnetFromRow_inv. simpl in *. reflect_bools. subst ok.
    assert (s_DeletionRequested r = 1) as Hdel1 by lia. rewrite Hws.
    set (d1 := set_subnets (delete (s_ID r) (subnets d)) d).
    assert (Inv d1) as I1.
    { eapply trans_Inv; [|exact I]. apply (t_subnet_delete _ _ r); [done..|].
      intros i y Hy Heq. destruct (inv_inst d I i y Hy) as (s & Hs & Hlive). rewrite Heq, Hr in Hs. simplify_eq. }
    eexists. split.
    + eapply runs_bind; [by apply runs_wrapping, runs_stmt, (DeleteSubnet_runs d _ r)|].
      apply (AppendEvent_runs d1); [done|unfold log_room in *; simpl; lia|done].
    + split; try done; simpl; [|intros; by rewrite lookup_delete_ne|lia].
      unfold subnet_settled. rewrite Hdel1. simpl. by rewrite lookup_delete_eq.
  - apply (recordSubnetStatus_runs d r x); auto. destruct ok; [|done]. rewrite andb_true_r in E.
    apply subnetFromRow_inv in Hx as (p & _ & ->). simpl in E. by reflect_bools.
Qed.

Lemma runs_steps_child d r x (ok : bool) reason now d' :
  Inv d → subnets d !! s_ID r = Some r → subnetFromRow r = Ok x →
  runs (recordChild (if ok then "available" else "failed") reason ok now x) d tt d' → Inv d'.
Proof.
  intros I Hr Hx H. pose proof Hx as (p & _ & E)%subnetFromRow_inv.
  destruct (recordChild_inv x r (if ok then "available" else "failed") reason ok now
              (MkTxs d None) tt (MkTxs d' None)) as [Hs _]; auto.
  - by rewrite E.
  - by eapply steps_Inv.
Qed.

(** The loop over the children of a VPC; [rs] are their rows. *)
Lemma recordChildren_runs rs xs d (ok : bool) reason now :
  Inv d → Forall2 (λ r x, subnetFromRow r = Ok x) rs xs → NoDup (s_ID <$> rs) →
  Forall (λ r, subnets d !! s_ID r = Some r) rs → log_room d (Z.of_nat (length rs)) →
  ∃ d', runs (recordChildren (if ok then "available" else "failed") reason ok now xs) d tt d' ∧
    Inv d' ∧ vpcs d' = vpcs d ∧ same_elsewhere d d' ∧
    (∀ r, r ∈ rs → subnet_settled ok reason r (subnets d' !! s_ID r)) ∧
    (∀ id, id ∉ s_ID <$> rs → subnets d' !! id = subnets d !! id) ∧
    event_seq d ≤ event_seq d' ≤ event_seq d + Z.of_nat (length rs).
Proof.
  intros I Hrx. revert d I. induction Hrx as [|r x rs xs Hx Hrx IH]; intros d I Hnd Hcur Hroom.
  - exists d. split_and!; try done; try lia. intros r Hr. by apply not_elem_of_nil in Hr.
  - rewrite fmap_cons in Hnd. apply NoDup_cons in Hnd as [Hnotin Hnd]. apply Forall_cons in Hcur as [Hr Hcur].
    destruct (recordChild_runs d r x ok reason now) as (d1 & Hrun & [Hself Hframe Hv He Hlog]); auto.
    { eapply log_room_le; [exact Hroom|]. simpl length. lia. }
    pose proof (runs_steps_child _ _ _ _ _ _ _ I Hr Hx Hrun) as I1.
    destruct (IH d1 I1 Hnd) as (d2 & Hrun2 & I2 & Hv2 & He2 & Hin2 & Hout2 & Hlog2).
    { rewrite Forall_forall in *. intros r' Hr'. rewrite Hframe; [by apply Hcur|].
      intros E. apply Hnotin. rewrite <- E. by apply list_elem_of_fmap_2. }
    { unfold log_room in *. simpl length in Hroom. lia. }
    exists d2. split_and!; auto; try congruence.
    + cbn [recordChildren]. by eapply runs_bind.
    + by etrans.
    + intros r' [->|Hr']%elem_of_cons; [|by apply Hin2]. by rewrite Hout2.
    + intros id Hid. rewrite fmap_cons in Hid. apply not_elem_of_cons in Hid as [Hne Hid].
      rewrite Hout2 by done. by apply Hframe.
    + lia.
    + simpl length. lia.
Qed.

(** ** [RecordTopology] on a fresh snapshot *)
Definition succeeded (eff : option error) : bool := bool_decide (eff = None).
Definition reason_of (eff : option error) : string := match eff with None => "" | Some e => error_text e end.

Record topology_settled (eff : option error) (r : Vpc) (d d' : DB) : Prop := {
  ts_self : vpc_settled (succeeded eff) (reason_of eff) r (vpcs d' !! v_ID r);
  ts_vpcs : ∀ id, id ≠ v_ID r → vpcs d' !! id = vpcs d !! id;
  ts_children : ∀ s, subnets d !! s_ID s = Some s → s_VpcID s = v_ID r →
    subnet_settled (succeeded eff) (reason_of eff) s (subnets d' !! s_ID s);
  ts_subnets : ∀ id, (∀ s, subnets d !! id = Some s → s_VpcID s ≠ v_ID r) →
    subnets d' !! id = subnets d !! id;
  ts_else : same_elsewhere d d';
  ts_log : event_seq d ≤ event_seq d' ≤ event_seq d + 1 + Z.of_nat (size (subnets d));
  ts_inv : Inv d'
}.

Lemma sameDesiredChildren_refl xs : sameDesiredChildren xs xs = true.
Proof.
  unfold sameDesiredChildren. rewrite Nat.eqb_refl. simpl. induction xs as [|x xs IH]; [done|].
  cbn [zip zip_with forallb fst snd]. rewrite IH. unfold sameDesiredChild.
  by rewrite beq_refl, !Z.eqb_refl, Bool.eqb_reflx.
Qed.

Lemma children_keys d vpc :
  Inv d → let rs := List.filter (λ r, s_VpcID r ==? vpc) (by_id (subnets d)) in
  NoDup (s_ID <$> rs) ∧ Forall (λ r, subnets d !! s_ID r = Some r) rs ∧ (length rs ≤ size (subnets d))%nat.
Proof.
  intros I rs. split_and!.
  - eapply sublist_NoDup; [|apply filter_fmap_sublist]. rewrite by_id_keys by done.
    rewrite merge_sort_Permutation. apply NoDup_fst_map_to_list.
  - apply Forall_forall. intros r (_ & k & Hk)%elem_of_filter_by_id.
    by destruct (inv_s d I k r Hk) as [-> _ _ _ _ _ _].
  - transitivity (length (by_id (subnets d))); [apply List.filter_length_le|].
    unfold by_id. by rewrite length_fmap, merge_sort_Permutation, length_map_to_list.
Qed.

(** A VPC that is being deleted has no subnets. *)
Lemma deleting_no_subnets d id r :
  Inv d → vpcs d !! id = Some r → v_DeletionRequested r ≠ 0 → no_subnets d id.
Proof.
  intros I Hr Hdel sid s Hs <-. destruct (inv_parent d I sid s Hs) as (v & _ & _ & Hv & Hlive & _).
  rewrite Hr in Hv. by simplify_eq.
Qed.

Lemma no_children d id : no_subnets d id → List.filter (λ r, s_VpcID r ==? id) (by_id (subnets d)) = [].
Proof.
  intros Hno. apply filter_none. intros s (k & Hk)%elem_of_by_id. apply beq_false. by eapply Hno.
Qed.

Lemma recordTopology_delete_runs d r v now :
  Inv d → vpcs d !! v_ID r = Some r → vpcFromRow r = Ok v → v_DeletionRequested r = 1 → log_room d 1 →
  ∃ d', runs (recordTopology v [] None now) d tt d' ∧ topology_settled None r d d'.
Proof.
  intros I Hr Hv Hdel Hroom. pose proof (deleting_no_subnets d _ r I Hr ltac:(lia)) as Hno.
  destruct (inv_v d I _ r Hr) as [_ Hws _ _ _ _ _]. pose proof Hv as (p & _ & E)%vpcFromRow_inv.
  set (d1 := set_vpcs (delete (v_ID r) (vpcs d)) d).
  assert (Inv d1) as I1 by (eapply trans_Inv; [by apply (t_vpc_delete _ _ r)|exact I]).
  set (ev := MkEvent 0 "default" "vpc" (v_ID r) "deleted" "deleted" (v_Generation r) "" now).
  assert (Hev : runs (tx_AppendEvent ev) d1 tt (logged d1 ev))
    by (apply AppendEvent_runs; [done|unfold log_room in *; simpl; lia|done]).
  exists (logged d1 ev). split.
  - unfold recordTopology. rewrite E. simpl. rewrite Hdel, Hws. simpl.
    eapply runs_bind.
    { apply runs_or_missing. unfold tx_GetVPC. eapply runs_bind; [|by apply runs_lift].
      by apply runs_wrapping, runs_read, q_GetVPC_hit. }
    eapply runs_bind; [apply runs_guard; rewrite E; simpl; by rewrite !Z.eqb_refl, Hdel|].
    eapply runs_bind.
    { unfold tx_ListSubnetsByVPC. eapply runs_bind; [by apply runs_wrapping, runs_read|].
      apply runs_lift. by rewrite no_children. }
    eapply runs_bind; [by apply runs_guard|]. eapply runs_bind; [by apply runs_guard|].
    eapply runs_bind; [by apply runs_wrapping, runs_stmt, (DeleteVPC_runs d _ r)|exact Hev].
  - split; try done; simpl.
    + unfold vpc_settled. rewrite Hdel. simpl. by rewrite lookup_delete_eq.
    + intros id Hne. by rewrite lookup_delete_ne.
    + intros s Hs Hp. by destruct (Hno _ _ Hs).
    + lia.
    + pose proof (AppendEvent_steps _ _ _ _ Hev) as Hs. by apply (steps_Inv _ _ Hs).
Qed.

Lemma recordTopology_runs d r v xs eff now :
  Inv d → vpcs d !! v_ID r = Some r → vpcFromRow r = Ok v →
  mapM subnetFromRow (List.filter (λ s, s_VpcID s ==? v_ID r) (by_id (subnets d))) = Ok xs →
  log_room d (1 + Z.of_nat (size (subnets d))) →
  ∃ d', runs (recordTopology v xs eff now) d tt d' ∧ topology_settled eff r d d'.
Proof.
  intros I Hr Hv Hxs Hroom. destruct (inv_v d I _ r Hr) as [_ Hws _ _ _ [_ Hd01] _].
  destruct (decide (v_DeletionRequested r = 1 ∧ eff = None)) as [[Hdel ->]|Hother].
  { rewrite no_children in Hxs; [|apply (deleting_no_subnets d _ r); [done..|lia]]. injection Hxs as <-.
    apply recordTopology_delete_runs; auto. unfold log_room in *. lia. }
  pose proof (children_keys d (v_ID r) I) as (Hnd & Hcur & Hlen).
  pose proof (mapM_Ok _ _ _ Hxs) as Hrx.
  set (rs := List.filter (λ s, s_VpcID s ==? v_ID r) (by_id (subnets d))) in *.
  assert (if succeeded eff then v_DeletionRequested r = 0 else True) as Hlive.
  { unfold succeeded. case_bool_decide; [|done]. destruct Hd01; [done|]. tauto. }
  destruct (recordVPCStatus_runs d r v (succeeded eff) (reason_of eff) now)
    as (d1 & Hrun1 & [Hself Hframe Hsub Helse Hlog]); auto; [unfold log_room in *; lia|].
  assert (Inv d1) as I1.
  { apply (recordVPCStatus_inv v r _ _ (succeeded eff) now (MkTxs d None) tt (MkTxs d1 None)) in Hrun1 as [Hs _];
      auto.
    - by eapply steps_Inv.
    - by apply vpcFromRow_inv in Hv as (p & _ & ->).
    - intros Hok. by rewrite Hok in Hlive. }
  destruct (recordChildren_runs rs xs d1 (succeeded eff) (reason_of eff) now)
    as (d2 & Hrun2 & I2 & Hv2 & He2 & Hin2 & Hout2 & Hlog2); auto.
  { by rewrite Hsub. }
  { unfold log_room in *. lia. }
  exists d2. split.
  - unfold recordTopology. pose proof Hv as (p & _ & E)%vpcFromRow_inv.
    eapply runs_bind.
    { apply runs_or_missing. unfold tx_GetVPC. eapply runs_bind; [|by apply runs_lift].
      apply runs_wrapping, runs_read, q_GetVPC_hit; by rewrite E. }
    eapply runs_bind; [apply runs_guard; by rewrite !Z.eqb_refl, Bool.eqb_reflx|].
    eapply runs_bind.
    { unfold tx_ListSubnetsByVPC. rewrite E. eapply runs_bind; [by apply runs_wrapping, runs_read|].
      by apply runs_lift. }
    eapply runs_bind; [apply runs_guard, sameDesiredChildren_refl|].
    replace (VPC_DeletionRequested v && bool_decide (eff = None)) with false.
    + change (bool_decide (eff = None)) with (succeeded eff). eapply runs_bind; [|exact Hrun2]. exact Hrun1.
    + rewrite E. simpl. symmetry. apply andb_false_iff. fold (succeeded eff).
      destruct (succeeded eff); [left|by right]. by rewrite Hlive.
  - split; auto.
    + by rewrite Hv2.
    + intros id Hne. by rewrite Hv2, Hframe.
    + intros s Hs Hp. apply Hin2. apply elem_of_filter_by_id. split; [by apply beq_true|eauto].
    + intros id Hid. rewrite Hout2, Hsub; [done|]. intros (s & -> & Hs)%list_elem_of_fmap.
      pose proof Hs as (Hp & _)%elem_of_filter_by_id. rewrite Forall_forall in Hcur.
      apply (proj1 (beq_true _ _)) in Hp. exact (Hid s (Hcur _ Hs) Hp).
    + by etrans.
    + lia.
Qed.
