(* ===== verification/InstanceConverge.v ===== *)
(** Convergence of the instance reconciler: what [reconcileLocked] and [Sweep] of
    [internal/reconcile/instance.go] leave when nothing else happens. *)

From S2P Require Import Prelude Errors GoStrings NetIP Validate Ipam Mac Model Snapshot.
From S2P Require Import Schema Tx Transitions Store Idempotency Refine RecordRefine Paging Progress.
From S2P Require Import NetworkService InstanceService ServiceRefine System.
From S2P Require Import Queue Controller InstanceReconcile RuntimeSafety.
Local Open Scope Z_scope.

(** ** Reading an instance *)

(** The interface row of an instance. *)
Definition eni_of (d : DB) (id eid : string) (e : EniRow) : Prop :=
  enis d !! eid = Some e ∧ e_InstanceID e = id.

Lemma eni_address d eid e :
  Inv d → enis d !! eid = Some e → ∃ w, ParseAddr (e_PrivateIp e) = Some (Addr4 w).
Proof.
  intros I He. destruct (inv_eni d I eid e He) as (r & s & p & a & _ & _ & Hs & Hp & Ha & Hc & _).
  destruct (inv_s d I _ s Hs) as [_ _ _ (p' & Hcan & Et) _ _ _].
  rewrite (stored_cidr_valid _ _ _ Hcan Et Hp) in *. destruct Hcan as [Hv _].
  destruct (Contains4_Is4 _ _ Hv Hc) as [w ->]. exists w. rewrite Ha. simpl. apply ParseAddr_Addr4_String.
  apply Contains4 in Hc; [|done]. pose proof (base4_range _ Hv). lia.
Qed.

Lemma GetPrimaryENI_hit d id eid e :
  Inv d → eni_of d id eid e → q_GetPrimaryENI id "default" d = Ok e.
Proof.
  intros I [He Hi]. destruct (inv_e d I eid e He) as [_ Hw _ _]. unfold q_GetPrimaryENI.
  destruct (select_one _ _) as [e'|] eqn:E; simpl.
  - apply select_one_Some in E as (Hm & k & Hk). reflect_bools.
    assert (k = eid) as -> by (eapply (inv_eni_inst d I); eauto; congruence). congruence.
  - rewrite select_one_None in E. specialize (E eid e He). by rewrite Hi, Hw, !beq_refl in E.
Qed.

Lemma instance_total d id r eid e :
  Inv d → instances d !! id = Some r → eni_of d id eid e → ∃ i, instanceOfRows r e = Ok i.
Proof.
  intros I Hr [He _]. destruct (eni_address d eid e I He) as [w Hw]. unfold instanceOfRows, parseAddr.
  rewrite Hw. simpl. destruct (inv_e d I eid e He) as [_ _ _ Hmac]. destruct (validENIMAC _); [|done]. simpl. eauto.
Qed.

Lemma GetInstance_runs d id r eid e i :
  Inv d → instances d !! id = Some r → eni_of d id eid e → instanceOfRows r e = Ok i →
  runs (tx_GetInstance "default" id) d i d.
Proof.
  intros I Hr He Hi. destruct (inv_i d I id r Hr) as [Eid Ews _ _ _ _ _]. unfold tx_GetInstance.
  eapply runs_bind; [apply runs_wrapping, runs_read; by apply q_GetInstance_hit|].
  unfold tx_instanceFromRow. rewrite Eid, Ews.
  eapply runs_bind; [by apply runs_wrapping, runs_read; eapply GetPrimaryENI_hit|by apply runs_lift].
Qed.

Lemma store_GetInstance_runs d id r eid e i :
  Inv d → instances d !! id = Some r → eni_of d id eid e → instanceOfRows r e = Ok i →
  store_GetInstance None "default" id d = Ok i.
Proof. intros. unfold store_GetInstance. erewrite runs_WithTx; [done|by eapply GetInstance_runs]. Qed.

Lemma store_GetInstance_found flt id d i :
  store_GetInstance flt "default" id d = Ok i → ∃ row n, instances d !! id = Some row ∧ instanceOfRows row n = Ok i.
Proof.
  unfold store_GetInstance. intros Hg. destruct (WithTx _ _ _) as [r d'] eqn:E. simpl in Hg. subst r.
  apply WithTx_Ok in E as (s & s' & <- & (row & eid & n & ? & _ & _ & _ & _ & ? & _)%GetInstance_inv & _). eauto.
Qed.

Lemma sameInstanceDecision_refl i : sameInstanceDecision i i = true.
Proof. unfold sameInstanceDecision. by rewrite !beq_refl, !Z.eqb_refl, Bool.eqb_reflx. Qed.

(** ** Recording a status *)
Definition instance_outcome (ok : bool) (reason : string) (r : InstanceRow) (now : Z) : InstanceRow :=
  instance_with_status r (if ok then "running" else "failed") reason
    (if ok then i_Generation r else i_ObservedGeneration r) now.

Record instance_recorded (ok : bool) (reason : string) (r : InstanceRow) (eid : string) (d d' : DB) : Prop := {
  ir_self : ∃ u, instances d' !! i_ID r = Some (instance_outcome ok reason r u);
  ir_frame : ∀ id, id ≠ i_ID r → instances d' !! id = instances d !! id;
  ir_enis : ∀ id, id ≠ eid → enis d' !! id = enis d !! id;
  ir_topology : vpcs d' = vpcs d ∧ subnets d' = subnets d;
  ir_log : event_seq d ≤ event_seq d' ≤ event_seq d + 1
}.

Lemma instance_check_status d id r (ok : bool) reason now :
  Inv d → instances d !! id = Some r → instance_check (instance_outcome ok reason r now) = true.
Proof.
  intros I Hr. destruct (inv_i d I id r Hr) as [_ _ _ Hc _ _ _].
  apply instance_check_iff in Hc as (Hn & _ & Hg & Hd). apply instance_check_iff. simpl.
  split_and!; try done; destruct ok; try done; lia.
Qed.

Lemma instance_outcome_same (ok : bool) reason r :
  i_State r = (if ok then "running" else "failed") → i_StateReason r = reason →
  i_ObservedGeneration r = (if ok then i_Generation r else i_ObservedGeneration r) →
  instance_outcome ok reason r (i_UpdatedAt r) = r.
Proof. intros Hs Hr Ho. unfold instance_outcome, instance_with_status. rewrite <- Ho, <- Hs, <- Hr. by destruct r. Qed.

Lemma UpdateInstanceStatus_runs d id r (ok : bool) reason now :
  Inv d → instances d !! id = Some r →
  q_UpdateInstanceStatus (if ok then "running" else "failed") reason
    (if ok then i_Generation r else i_ObservedGeneration r) now id "default" d =
  Ok (tt, set_instances (<[id := instance_outcome ok reason r now]> (instances d)) d).
Proof.
  intros I Hr. unfold q_UpdateInstanceStatus.
  rewrite (q_GetInstance_hit d id "default" r); [|done|by destruct (inv_i d I id r Hr)].
  fold (instance_outcome ok reason r now). unfold check. by rewrite (instance_check_status d id).
Qed.

Lemma UpdateENIStatus_runs d id e state reason observed now :
  Inv d → enis d !! id = Some e → observed = e_ObservedGeneration e ∨ observed = e_Generation e →
  q_UpdateInstanceENIStatus state reason observed now id "default" d =
  Ok (tt, set_enis (<[id := eni_with_status e state reason observed now]> (enis d)) d).
Proof.
  intros I He Ho. destruct (inv_e d I id e He) as [_ Hw [Hg Hog] _]. unfold q_UpdateInstanceENIStatus, check.
  rewrite He, Hw, beq_refl. simpl. rewrite (proj2 (generation_check_bounds _ _)); [done|].
  destruct Ho as [-> | ->]; lia.
Qed.

Section record.
Context (d : DB) (id : string) (r : InstanceRow) (eid : string) (e : EniRow) (i : Instance_).
Context (I : Inv d) (Hr : instances d !! id = Some r) (He : eni_of d id eid e) (Hi : instanceOfRows r e = Ok i).
Context (ok : bool) (reason : string) (now : Z).
Abbreviation status := (if ok then "running" else "failed").
Abbreviation observed := (if ok then i_Generation r else i_ObservedGeneration r).
Abbreviation unchanged :=
  ((i_State r ==? status) && (i_StateReason r ==? reason) && (i_ObservedGeneration r =? observed)).
Abbreviation changes := (
  wrapping (Sprintf "record instance %s status: %w" [id])
    (stmt (q_UpdateInstanceStatus status reason observed now id "default")) ;;
  (if negb (i_DeletionRequested r =? 0) then mret tt
   else wrapping (Sprintf "record ENI %s status: %w" [eid])
          (stmt (q_UpdateInstanceENIStatus (if ok then "available" else "failed") reason
             (if ok then e_Generation e else e_ObservedGeneration e) now eid "default"))) ;;
  tx_AppendEvent (MkEvent 0 "default" "instance" id "status" status (i_Generation r) reason now)).

(** The snapshot is current, so [RecordInstance] gets to its comparison. *)
Lemma recordInstance_current d' :
  runs (if unchanged then mret tt else changes) d tt d' → runs (recordInstance i status reason ok now) d tt d'.
Proof using I Hr He Hi.
  intros Hrun. destruct (inv_i d I id r Hr) as [Eid Ews _ _ _ _ _].
  destruct (inv_e d I eid e (proj1 He)) as [Heid _ _ _]. pose proof Hi as (a & _ & _ & Ei)%instanceOfRows_inv.
  unfold recordInstance. replace (Instance_WorkspaceID i) with "default" by (by rewrite Ei).
  replace (Instance_ID i) with id by (by rewrite Ei).
  eapply runs_bind; [by eapply runs_or_missing, GetInstance_runs|].
  eapply runs_bind; [apply runs_guard, sameInstanceDecision_refl|].
  rewrite Ei. simpl. rewrite Ews, Eid, Heid. exact Hrun.
Qed.

Context (Hok : ok = true → i_DeletionRequested r = 0 ∧ is_Some (i_RuntimeID r)) (Hroom : log_room d 0).

Lemma changes_run :
  ∃ d', runs changes d tt d' ∧ instance_recorded ok reason r eid d d'.
Proof using I Hr He Hok Hroom.
  destruct (inv_i d I id r Hr) as [Eid _ _ _ _ _ _]. destruct He as [He' _].
  set (d1 := set_instances (<[id := instance_outcome ok reason r now]> (instances d)) d).
  assert (Inv d1) as I1.
  { eapply trans_Inv; [apply t_instance_status|exact I]; [done|destruct ok; auto|].
    destruct ok; [right|by left]. destruct Hok; auto. }
  set (g := if ok then e_Generation e else e_ObservedGeneration e).
  assert (g = e_ObservedGeneration e ∨ g = e_Generation e) as Hg by (subst g; destruct ok; auto).
  set (d2 := if negb (i_DeletionRequested r =? 0) then d1
             else set_enis (<[eid := eni_with_status e (if ok then "available" else "failed") reason g now]> (enis d1)) d1).
  assert (Inv d2) as I2 by (subst d2; destruct (negb _); [done|]; by eapply trans_Inv; [apply t_eni_status|]).
  exists (logged d2 (MkEvent 0 "default" "instance" id "status" status (i_Generation r) reason now)). split.
  - eapply runs_bind; [by apply runs_wrapping, runs_stmt, UpdateInstanceStatus_runs|].
    eapply runs_bind; [|apply AppendEvent_runs; [exact I2|by subst d2; destruct (negb _)|done]].
    fold d1. subst d2. destruct (negb _); [apply runs_ret|]. by apply runs_wrapping, runs_stmt, UpdateENIStatus_runs.
  - subst d2. destruct (negb _); split; simpl; rewrite ?Eid; try done; try lia;
      try (by exists now; rewrite lookup_insert_eq); intros k Hk; by rewrite lookup_insert_ne.
Qed.

Lemma recordInstance_runs :
  ∃ d', runs (recordInstance i status reason ok now) d tt d' ∧ instance_recorded ok reason r eid d d'.
Proof using I Hr He Hi Hok Hroom.
  destruct unchanged eqn:Hsame.
  - exists d. split; [apply recordInstance_current; rewrite Hsame; apply runs_ret|]. reflect_bools.
    split; try done; [|lia]. exists (i_UpdatedAt r). rewrite instance_outcome_same; [|done..].
    by destruct (inv_i d I id r Hr) as [-> _ _ _ _ _ _].
  - destruct changes_run as (d' & Hrun & Hrec). exists d'. split; [|done].
    apply recordInstance_current. by rewrite Hsame.
Qed.

Lemma store_RecordInstance_runs :
  ∃ d', store_RecordInstance None now i status reason ok d = (Ok tt, d') ∧ instance_recorded ok reason r eid d d' ∧ Inv d'.
Proof using I Hr He Hi Hok Hroom.
  destruct recordInstance_runs as (d' & Hrun%runs_WithTx & Hrec). exists d'.
  assert (store_RecordInstance None now i status reason ok d = (Ok tt, d')) as E.
  { unfold store_RecordInstance. replace (_ && _) with false by (by destruct ok).
    replace (ok && _) with false; [done|]. destruct ok; [|done]. destruct Hok as [Hd [rt Hrt]]; [done|].
    apply instanceOfRows_inv in Hi as (a & _ & _ & ->). simpl. rewrite Hd, Hrt. simpl.
    destruct (rt ==? "") eqn:E; [|done]. apply (proj1 (beq_true _ _)) in E as ->.
    by destruct (inv_i d I id r Hr). }
  split_and!; [done..|]. eapply steps_Inv; [|exact I]. by eapply store_RecordInstance_steps.
Qed.
End record.

(** ** Removing an instance *)
Lemma finish_runs d id r eid e i now :
  Inv d → instances d !! id = Some r → eni_of d id eid e → instanceOfRows r e = Ok i →
  i_DeletionRequested r = 1 → log_room d 0 →
  ∃ d', store_FinishInstanceTermination None now i d = (Ok tt, d') ∧ Inv d' ∧
    instances d' = delete id (instances d) ∧ enis d' = delete eid (enis d) ∧
    vpcs d' = vpcs d ∧ subnets d' = subnets d ∧ event_seq d' = event_seq d + 1.
Proof.
  intros I Hr [He Hei] Hi Hd Hroom. destruct (inv_i d I id r Hr) as [Eid Ews _ _ _ _ _].
  destruct (inv_e d I eid e He) as [Heid Hew _ _]. pose proof Hi as (a & _ & _ & Ei)%instanceOfRows_inv.
  set (d1 := set_enis (delete eid (enis d)) d). set (d2 := set_instances (delete id (instances d)) d1).
  assert (Inv d2) as I2 by (eapply trans_Inv; [by apply (t_instance_delete d id eid r e)|done]).
  eexists. split; [|split].
  - apply runs_WithTx. unfold finishInstanceTermination.
    replace (Instance_WorkspaceID i) with "default" by (by rewrite Ei).
    replace (Instance_ID i) with id by (by rewrite Ei).
    eapply runs_bind; [by eapply runs_or_missing, GetInstance_runs|].
    rewrite sameInstanceDecision_refl, Ei. simpl. rewrite Ews, Eid, Heid, Hd.
    eapply runs_bind; [by apply runs_guard|].
    eapply runs_bind.
    { apply runs_wrapping, runs_stmt. unfold q_DeleteInstanceENI. by rewrite He, Hew, beq_refl. }
    fold d1. eapply runs_bind.
    { apply runs_wrapping, runs_stmt. unfold q_DeleteInstance. rewrite (q_GetInstance_hit d1 id "default" r) by done.
      unfold foreign_key. rewrite (proj2 (any_false _ _)); [done|]. intros k f Hf.
      cbn [d1 enis set_enis] in Hf. apply lookup_delete_Some in Hf as [Hne Hf].
      apply andb_false_iff. left. apply beq_false. intros Hfi.
      apply Hne. eapply (inv_eni_inst d I); eauto. congruence. }
    fold d2. by apply AppendEvent_runs.
  - eapply trans_Inv; [|exact I2]. apply t_event. change (event_seq d < 2 ^ 63 - 1). unfold log_room in Hroom. lia.
  - done.
Qed.

(** ** The network of an instance *)

(** The topology as a VPC sweep leaves it. *)
Definition topology_ready (d : DB) : Prop :=
  (∀ id v, vpcs d !! id = Some v → v_State v = "available") ∧
  (∀ id s, subnets d !! id = Some s → s_State s = "available").

Lemma network_of d id r :
  Inv d → instances d !! id = Some r →
  ∃ s v x y, subnets d !! i_SubnetID r = Some s ∧ vpcs d !! s_VpcID s = Some v ∧
    subnetFromRow s = Ok x ∧ vpcFromRow v = Ok y ∧
    store_GetSubnet None "default" (i_SubnetID r) d = Ok x ∧ store_GetVPC None "default" (Subnet_VPCID x) d = Ok y.
Proof.
  intros I Hr. destruct (inv_inst d I id r Hr) as (s & Hs & _).
  destruct (inv_parent d I _ s Hs) as (v & p & q & Hv & _).
  destruct (subnetFromRow_total d _ s I Hs) as [x Hx]. destruct (vpcFromRow_total d _ v I Hv) as [y Hy].
  exists s, v, x, y. split_and!; auto.
  - unfold store_GetSubnet, autocommit. rewrite read_None.
    rewrite (q_GetSubnet_hit d _ "default" s); [done..|by destruct (inv_s d I _ s Hs)].
  - pose proof Hx as (p' & _ & ->)%subnetFromRow_inv. simpl. unfold store_GetVPC, autocommit. rewrite read_None.
    rewrite (q_GetVPC_hit d _ "default" v); [done..|by destruct (inv_v d I _ v Hv)].
Qed.

(** ** One reconciliation *)

(** A runtime and an engine that do what they are asked for; [Create] is idempotent:
    for an instance with a runtime it returns that one. *)
Record runtime_works (orc : Oracle effect) : Prop := {
  rw_image : ∀ n ref, o_call orc n (RuntimeEnsureImage ref) = None;
  rw_create : ∀ n i, ∃ rt, o_call orc n (RuntimeCreate i) = Ok rt ∧ rt ≠ "" ∧
                       (Instance_RuntimeID i ≠ "" → rt = Instance_RuntimeID i);
  rw_start : ∀ n rt, o_call orc n (RuntimeStart rt) = None;
  rw_delete : ∀ n rt, o_call orc n (RuntimeDelete rt) = None;
  rw_inspect : ∀ n rt, o_call orc n (RuntimeInspect rt) = Ok (MkRuntimeStatus true);
  rw_eni : ∀ n v e, o_call orc n (EngineDeleteENI v e) = None
}.

Definition is_running (r : InstanceRow) : Prop :=
  i_State r = "running" ∧ i_ObservedGeneration r = i_Generation r ∧ i_DeletionRequested r = 0 ∧
  is_Some (i_RuntimeID r).

(** What a reconciliation of the instance [r] leaves. *)
Record instance_settled (r : InstanceRow) (d d' : DB) : Prop := {
  is_self : if i_DeletionRequested r =? 1
            then instances d' !! i_ID r = None ∧ ∀ k e, enis d' !! k = Some e → e_InstanceID e ≠ i_ID r
            else ∃ r', instances d' !! i_ID r = Some r' ∧ is_running r';
  is_frame : ∀ id, id ≠ i_ID r → instances d' !! id = instances d !! id;
  is_enis : ∀ k e, enis d !! k = Some e → e_InstanceID e ≠ i_ID r → enis d' !! k = Some e;
  is_topology : vpcs d' = vpcs d ∧ subnets d' = subnets d;
  is_log : event_seq d ≤ event_seq d' ≤ event_seq d + 1;
  is_inv : Inv d'
}.

Section reconcile.
Context (orc : Oracle effect) (Hq : quiet orc) (Hrt : runtime_works orc).

Lemma orFail_run {A} i (m : M effect (result A)) f w a w1 : m w = (Ok a, w1) → orFail orc i m f w = f a w1.
Proof. intros E. unfold orFail. by erewrite bind_run by exact E. Qed.
Lemma failing_run m (w w1 : World effect) : m w = (None, w1) → failing m w = (Ok tt, w1).
Proof. intros E. unfold failing. by erewrite bind_run by exact E. Qed.

(** The world after a call, with its database. *)
Lemma read_step {A} (f : fault → DB → A) w : ∃ w1, store_read orc f w = (f None (w_db w), w1) ∧ w_db w1 = w_db w.
Proof using Hq. eexists. split; [by apply store_read_quiet|done]. Qed.
Lemma write_step {A} (f : fault → Z → DB → A * DB) a d' w :
  f None (o_unix orc (w_time w)) (w_db w) = (a, d') → ∃ w1, store_call orc f w = (a, w1) ∧ w_db w1 = d'.
Proof using Hq. intros E. eexists. split; [rewrite store_call_quiet by done; by rewrite E|done]. Qed.
Lemma call_step e a w : o_call orc (w_time w) e = a → ∃ w1, call orc e w = (a, w1) ∧ w_db w1 = w_db w.
Proof. intros E. eexists. split; [unfold call; by rewrite E|done]. Qed.
Lemma delete_step rt w : ∃ w1, failing (call orc (RuntimeDelete rt)) w = (Ok tt, w1) ∧ w_db w1 = w_db w.
Proof using Hrt.
  destruct (call_step (RuntimeDelete rt) None w) as (w1 & E & D); [apply rw_delete, Hrt|].
  exists w1. split; [by apply failing_run|done].
Qed.

Lemma settle_run id m (w w1 : World effect) :
  m w = (Ok tt, w1) → ∃ w2, settle id m w = (Ok tt, w2) ∧ w_db w2 = w_db w1.
Proof. intros E. unfold settle. erewrite bind_run by exact E. simpl. by eexists. Qed.

Lemma terminate_run w id r eid e i :
  Inv (w_db w) → instances (w_db w) !! id = Some r → eni_of (w_db w) id eid e → instanceOfRows r e = Ok i →
  i_DeletionRequested r = 1 → log_room (w_db w) 0 →
  ∃ w', terminate orc i w = (Ok tt, w') ∧ instance_settled r (w_db w) (w_db w').
Proof using Hq Hrt.
  set (d := w_db w). intros I Hr He Hi Hd Hroom. destruct (inv_i d I id r Hr) as [Eid Ews _ _ _ _ _].
  pose proof Hi as (a & _ & _ & Ei)%instanceOfRows_inv.
  destruct (network_of d id r I Hr) as (s & v & x & y & _ & _ & _ & _ & Hx & Hy).
  assert (Instance_WorkspaceID i = "default" ∧ Instance_SubnetID i = i_SubnetID r ∧ Instance_ID i = id)
    as (Ew & Es & Ed) by (rewrite Ei; auto).
  assert (∀ w0, w_db w0 = d → ∃ w', teardown orc i w0 = (Ok tt, w') ∧ instance_settled r d (w_db w')) as Hfinish.
  { intros w0 D0. unfold teardown. rewrite Ew, Es.
    destruct (read_step (λ flt, store_GetSubnet flt "default" (i_SubnetID r)) w0) as (w1 & E1 & D1).
    rewrite D0, Hx in *. erewrite orFail_run by exact E1.
    destruct (read_step (λ flt, store_GetVPC flt "default" (Subnet_VPCID x)) w1) as (w2 & E2 & D2).
    rewrite D1, Hy in *. erewrite orFail_run by exact E2.
    destruct (call_step (EngineDeleteENI y (Instance_ENI i)) None w2) as (w3 & E3 & D3); [apply rw_eni, Hrt|].
    erewrite orFail_run by (apply failing_run, E3).
    destruct (finish_runs d id r eid e i (o_unix orc (w_time w3)) I Hr He Hi Hd Hroom)
      as (d' & Hrun & I' & Hins & Hen & Hv & Hs & Hlog).
    destruct (write_step (λ flt now, store_FinishInstanceTermination flt now i) (Ok tt) d' w3) as (w4 & E4 & D4);
      [by rewrite D3, D2|].
    destruct (settle_run (Instance_ID i) _ _ _ E4) as (w' & E5 & D5). exists w'. split; [done|]. rewrite D5, D4.
    split; rewrite ?Eid, ?Hd; simpl; try done; try lia.
    - rewrite Hins, Hen. split; [by rewrite lookup_delete_eq|]. intros k f [Hne Hf]%lookup_delete_Some Hfi.
      apply Hne. destruct He as [He Hei]. eapply (inv_eni_inst d I); eauto. congruence.
    - intros k Hk. by rewrite Hins, lookup_delete_ne.
    - intros k f Hf Hfi. rewrite Hen, lookup_delete_ne; [done|]. intros <-. destruct He as [He Hei]. congruence. }
  unfold terminate. destruct (Instance_RuntimeID i !=? ""); [|by apply Hfinish].
  destruct (delete_step (Instance_RuntimeID i) w) as (w1 & E1 & D1). erewrite orFail_run by exact E1. by apply Hfinish.
Qed.

Lemma Ready_run w id r eid e i :
  Inv (w_db w) → topology_ready (w_db w) → instances (w_db w) !! id = Some r → instanceOfRows r e = Ok i →
  eni_of (w_db w) id eid e → ∃ w1, Ready orc i w = (Ok true, w1) ∧ w_db w1 = w_db w.
Proof using Hq.
  intros I [Hvr Hsr] Hr Hi He. destruct (inv_i _ I id r Hr) as [Eid Ews _ _ _ _ _].
  apply instanceOfRows_inv in Hi as (a & _ & _ & Ei).
  destruct (network_of _ id r I Hr) as (s & v & x & y & Hs & Hv & Ex & Ey & Hx & Hy).
  unfold Ready. replace (Instance_WorkspaceID i) with "default" by (by rewrite Ei).
  replace (Instance_SubnetID i) with (i_SubnetID r) by (by rewrite Ei).
  destruct (read_step (λ flt, store_GetSubnet flt "default" (i_SubnetID r)) w) as (w1 & E1 & D1).
  rewrite Hx in E1. erewrite andThen_run by exact E1.
  destruct (read_step (λ flt, store_GetVPC flt "default" (Subnet_VPCID x)) w1) as (w2 & E2 & D2).
  rewrite D1, Hy in E2. erewrite andThen_run by exact E2. exists w2. split; [|congruence].
  destruct (inv_s _ I _ s Hs) as [_ _ _ _ _ _ Hsl]. destruct (inv_v _ I _ v Hv) as [_ _ _ _ _ _ Hvl].
  destruct (Hsl (Hsr _ _ Hs)) as [Hso Hsd]. destruct (Hvl (Hvr _ _ Hv)) as [Hvo Hvd].
  apply subnetFromRow_inv in Ex as (p & _ & ->). apply vpcFromRow_inv in Ey as (q & _ & ->). simpl.
  by rewrite Hso, Hsd, Hvo, Hvd, (Hsr _ _ Hs), (Hvr _ _ Hv), !Z.eqb_refl.
Qed.

(** The row with its runtime recorded. *)
Lemma RecordRuntimeID_runs d id r rt :
  Inv d → instances d !! id = Some r → i_DeletionRequested r = 0 → rt ≠ "" →
  (∀ rt', i_RuntimeID r = Some rt' → rt' = rt) →
  let d1 := set_instances (<[id := instance_with_runtime r rt]> (instances d)) d in
  store_RecordRuntimeID None id (i_Generation r) rt d = (Ok tt, d1) ∧ Inv d1.
Proof.
  intros I Hr Hd Hne Hsame d1. split; [|by apply Inv_instance_runtime].
  unfold store_RecordRuntimeID. rewrite (proj2 (beq_false _ _) Hne). unfold autocommit, wrapping. rewrite stmt_None.
  unfold q_RecordRuntimeID. rewrite Hr, Z.eqb_refl, Hd. simpl.
  destruct (i_RuntimeID r) as [rt'|]; [|done]. by rewrite (Hsame rt'), beq_refl.
Qed.

Lemma start_run w id r eid e i rt :
  Inv (w_db w) → instances (w_db w) !! id = Some r → eni_of (w_db w) id eid e → instanceOfRows r e = Ok i →
  i_DeletionRequested r = 0 → i_RuntimeID r = Some rt → log_room (w_db w) 0 →
  ∃ w', start orc id i rt w = (Ok tt, w') ∧ instance_recorded true "" r eid (w_db w) (w_db w') ∧ Inv (w_db w').
Proof using Hq Hrt.
  intros I Hr He Hi Hd Hrun Hroom. unfold start.
  destruct (call_step (RuntimeStart rt) None w) as (w1 & E1 & D1); [apply rw_start, Hrt|].
  erewrite orFail_run by (apply failing_run, E1).
  destruct (call_step (RuntimeInspect rt) (Ok (MkRuntimeStatus true)) w1) as (w2 & E2 & D2); [apply rw_inspect, Hrt|].
  erewrite orFail_run by exact E2. simpl.
  destruct (store_RecordInstance_runs (w_db w) id r eid e i I Hr He Hi true "" (o_unix orc (w_time w2)))
    as (d' & Hrec & Hset & I'); [by rewrite Hrun|done|].
  destruct (write_step (λ flt now, store_RecordInstance flt now i InstanceRunning "" true) (Ok tt) d' w2)
    as (w3 & E3 & D3); [by rewrite D2, D1|].
  destruct (settle_run id _ _ _ E3) as (w' & E4 & D4). exists w'. by rewrite D4, D3.
Qed.

Lemma launch_run w id r eid e i :
  Inv (w_db w) → instances (w_db w) !! id = Some r → eni_of (w_db w) id eid e → instanceOfRows r e = Ok i →
  i_DeletionRequested r = 0 → log_room (w_db w) 0 →
  ∃ w', launch orc id i w = (Ok tt, w') ∧ instance_settled r (w_db w) (w_db w').
Proof using Hq Hrt.
  set (d := w_db w). intros I Hr He Hi Hd Hroom. destruct (inv_i d I id r Hr) as [Eid Ews _ _ _ Hnr _].
  pose proof Hi as (a & _ & _ & Ei)%instanceOfRows_inv. unfold launch.
  destruct (call_step (RuntimeEnsureImage "nephos-ubuntu:dev") None w) as (w1 & E1 & D1); [apply rw_image, Hrt|].
  erewrite orFail_run by (apply failing_run, E1).
  destruct (rw_create orc Hrt (w_time w1) i) as (rt & Hrc & Hne & Hsame).
  destruct (call_step (RuntimeCreate i) (Ok rt) w1 Hrc) as (w2 & E2 & D2). erewrite orFail_run by exact E2.
  replace (Instance_ID i) with id by (by rewrite Ei). replace (Instance_Generation i) with (i_Generation r) by (by rewrite Ei).
  destruct (RecordRuntimeID_runs d id r rt) as [Hrec I1]; [done..| |].
  { intros rt' E. rewrite Ei in Hsame. simpl in Hsame. rewrite E in Hsame, Hnr. simpl in Hsame.
    symmetry. apply Hsame. congruence. }
  set (r1 := instance_with_runtime r rt) in *. set (d1 := set_instances _ _) in *.
  destruct (write_step (λ flt _, store_RecordRuntimeID flt id (i_Generation r) rt) (Ok tt) d1 w2) as (w3 & E3 & D3);
    [by rewrite D2, D1|]. erewrite bind_run by exact E3.
  assert (instances d1 !! id = Some r1) as Hr1 by apply lookup_insert_eq.
  destruct (instance_total d1 id r1 eid e I1 Hr1 He) as [i1 Hi1].
  destruct (read_step (λ flt, store_GetInstance flt "default" id) w3) as (w4 & E4 & D4).
  rewrite D3, (store_GetInstance_runs d1 id r1 eid e i1) in E4 by done.
  erewrite bind_run by exact E4. cbv beta iota.
  assert (Instance_DeletionRequested i1 = false) as ->
    by (apply instanceOfRows_inv in Hi1 as (a1 & _ & _ & ->); simpl; by rewrite Hd).
  assert (eni_of d1 id eid e ∧ log_room d1 0) as [He1 Hroom1] by done.
  assert (w_db w4 = d1) as D by congruence. rewrite <- D in I1, Hr1, He1, Hroom1.
  destruct (start_run w4 id r1 eid e i1 rt) as (w' & E5 & [[u Hself] Hframe Hen Htop Hlog] & I'); [done..|].
  exists w'. split; [done|]. rewrite D in Hframe, Hen, Htop, Hlog. simpl in *. rewrite Eid in *. split; rewrite ?Eid, ?Hd; simpl; try done.
  - eexists. split; [exact Hself|]. by split_and!; simpl; eauto.
  - intros k Hk. rewrite Hframe by done. simpl. by rewrite lookup_insert_ne.
  - intros k f Hf Hfi. rewrite Hen; [done|]. intros ->. destruct He as [He Hei]. simpl in *. congruence.
Qed.

Lemma instance_reconcile_run w id r :
  Inv (w_db w) → topology_ready (w_db w) → instances (w_db w) !! id = Some r → log_room (w_db w) 0 →
  ∃ w', reconcileLocked orc id w = (Ok tt, w') ∧ instance_settled r (w_db w) (w_db w').
Proof using Hq Hrt.
  intros I Htop Hr Hroom. destruct (inv_i _ I id r Hr) as [Eid Ews _ _ [_ Hd01] _ Hobs].
  destruct (inv_has_eni _ I id r Hr) as (eid & e & He & Hei).
  destruct (instance_total _ id r eid e I Hr (conj He Hei)) as [i Hi].
  pose proof Hi as (a & _ & _ & Ei)%instanceOfRows_inv. unfold reconcileLocked.
  destruct (read_step (λ flt, store_GetInstance flt "default" id) w) as (w1 & E1 & D1).
  rewrite (store_GetInstance_runs _ id r eid e i) in E1 by done.
  erewrite bind_run by exact E1. cbv beta iota.
  replace (Instance_DeletionRequested i) with (negb (i_DeletionRequested r =? 0)) by (by rewrite Ei).
  rewrite <- D1 in *. destruct Hd01 as [Hd|Hd]; rewrite Hd; simpl.
  2: { by eapply terminate_run. }
  destruct (Ready_run w1 id r eid e i) as (w2 & E2 & D2); [done..|]. erewrite orFail_run by exact E2. simpl.
  rewrite <- D2 in *. destruct (_ && _) eqn:Hrunning; [|by eapply launch_run].
  destruct (call_step (RuntimeInspect (Instance_RuntimeID i)) (Ok (MkRuntimeStatus true)) w2) as (w3 & E3 & D3);
    [apply rw_inspect, Hrt|]. erewrite orFail_run by exact E3. simpl. eexists. split; [reflexivity|].
  simpl. rewrite D3. rewrite Ei in Hrunning. simpl in Hrunning. reflect_bools.
  split; rewrite ?Eid, ?Hd; simpl; try done; try lia. exists r. split; [done|]. split_and!; auto.
  destruct Hobs as [Ho|Hs]; [|done]. destruct (i_RuntimeID r); [by eexists|done].
Qed.
End reconcile.

(** ** A sweep *)
Abbreviation local := (λ r, i_WorkspaceID r ==? "default").

Lemma instances_keyed d : Inv d → keyed i_ID (instances d).
Proof. intros I k r Hr. by destruct (inv_i d I k r Hr). Qed.

(** A page of rows and the instances read from it. *)
Definition page_of (rs : list InstanceRow) (xs : list Instance_) : Prop :=
  Forall2 (λ r x, Instance_ID x = i_ID r) rs xs.

Lemma instances_load d rs :
  Inv d → (∀ r, r ∈ rs → ∃ k, instances d !! k = Some r) →
  ∃ xs, runs (mapM tx_instanceFromRow rs) d xs d ∧ Forall2 (λ r x, ∃ e, instanceOfRows r e = Ok x) rs xs.
Proof.
  intros I. induction rs as [|r rs IH]; intros Hrs; [exists []; split; [apply runs_ret|constructor]|].
  destruct IH as (xs & Hxs & Hp); [intros r' Hr'; apply Hrs; by right|].
  destruct (Hrs r) as [k Hr]; [by left|]. destruct (inv_i d I k r Hr) as [Eid Ews _ _ _ _ _].
  destruct (inv_has_eni d I k r Hr) as (eid & e & He). destruct (instance_total d k r eid e I Hr He) as [i Hi].
  exists (i :: xs). split.
  - cbn [mapM]. eapply runs_bind; [|eapply runs_bind; [exact Hxs|apply runs_ret]].
    unfold tx_instanceFromRow. rewrite Eid, Ews. eapply runs_bind; [|by apply runs_lift].
    apply runs_wrapping, runs_read. by eapply GetPrimaryENI_hit.
  - constructor; [by exists e|done].
Qed.

Lemma ListInstancePage_runs d after :
  Inv d → let rs := take 100 (rest i_ID local after (instances d)) in
  ∃ xs, store_ListInstancePage None "default" after 100 d = Ok xs ∧ page_of rs xs.
Proof.
  intros I rs. destruct (instances_load d rs I) as (xs & Hxs & Hp).
  { intros r (j & Hj & _)%elem_of_take. apply list_elem_of_lookup_2, elem_of_filter in Hj as [Hj _].
    by apply elem_of_by_id in Hj. }
  exists xs. split; [|eapply Forall2_impl; [exact Hp|]; by intros r x (e & (a & _ & _ & ->)%instanceOfRows_inv)].
  unfold store_ListInstancePage. erewrite runs_WithTx; [done|].
  eapply runs_bind; [by apply runs_wrapping, runs_read|]. exact Hxs.
Qed.

(** The row of an instance after its reconciliation. *)
Definition row_settled (r : InstanceRow) (d : DB) : Prop :=
  if i_DeletionRequested r =? 1 then instances d !! i_ID r = None
  else ∃ r', instances d !! i_ID r = Some r' ∧ is_running r'.

Lemma row_settled_frame r d d' : instances d' !! i_ID r = instances d !! i_ID r → row_settled r d → row_settled r d'.
Proof. unfold row_settled. by intros ->. Qed.

(** What a part of a sweep leaves: the instances of interest are settled, the
    others and the topology are as before. *)
Record swept (P : string → Prop) (n : Z) (d d' : DB) : Prop := {
  sw_settled : ∀ id r, instances d !! id = Some r → P id → row_settled r d';
  sw_frame : ∀ id, ¬ P id ∨ instances d !! id = None → instances d' !! id = instances d !! id;
  sw_topology : vpcs d' = vpcs d ∧ subnets d' = subnets d;
  sw_log : event_seq d ≤ event_seq d' ≤ event_seq d + n;
  sw_inv : Inv d'
}.

(** The rows after an identifier, once the page up to it was reconciled. *)
Lemma rest_shrinks after d d' :
  Inv d → Inv d' → (∀ id, string_gt id after = true → instances d' !! id = instances d !! id) →
  (length (rest i_ID local after (instances d')) ≤ length (rest i_ID local after (instances d)))%nat.
Proof.
  intros I I' Hsame. apply submseteq_length, NoDup_submseteq.
  - by eapply NoDup_fmap_1, ordered_NoDup, rest_ordered, instances_keyed.
  - intros r [Hin Hf]%elem_of_filter. apply elem_of_by_id in Hin as [k Hk].
    pose proof (instances_keyed d' I' k r Hk) as Ek. apply elem_of_filter. split; [|done].
    apply elem_of_by_id. exists k. reflect_bools. rewrite <- Hsame; [done|congruence].
Qed.

Lemma page_rows after d :
  Inv d → let rs := take 100 (rest i_ID local after (instances d)) in
  NoDup (i_ID <$> rs) ∧ Forall (λ r, instances d !! i_ID r = Some r) rs ∧
  (∀ r, r ∈ rs → string_gt (i_ID r) after = true) ∧
  (∀ r v, r ∈ rs → last rs = Some v → string_gt (i_ID r) (i_ID v) = false).
Proof.
  intros I rs. pose proof (rest_ordered i_ID local after _ (instances_keyed d I)) as Hord.
  assert (∀ r, r ∈ rs → instances d !! i_ID r = Some r ∧ string_gt (i_ID r) after = true) as Hrs.
  { intros r (j & Hj & _)%elem_of_take. apply list_elem_of_lookup_2, elem_of_filter in Hj as [Hj Hf].
    apply elem_of_by_id in Hj as [k Hk]. reflect_bools. by rewrite (instances_keyed d I k r Hk) in *. }
  pose proof (ordered_take i_ID 100 _ Hord) as Hord'. split_and!.
  - by apply ordered_NoDup.
  - apply Forall_forall. intros r Hr. by apply Hrs.
  - intros r Hr. by apply Hrs.
  - intros r v Hr Hv. by eapply ordered_last.
Qed.

(** An instance after the identifier is on the page or after its last row. *)
Lemma page_covers after d id r :
  Inv d → instances d !! id = Some r → string_gt id after = true →
  let rs := take 100 (rest i_ID local after (instances d)) in
  r ∈ rs ∨ ∃ v, last rs = Some v ∧ string_gt id (i_ID v) = true.
Proof.
  intros I Hr Hid. apply page_progress; auto; [by apply instances_keyed|lia|].
  by destruct (inv_i d I id r Hr) as [_ -> _ _ _ _ _].
Qed.

Lemma page_split after d v id :
  Inv d → let rs := take 100 (rest i_ID local after (instances d)) in
  last rs = Some v → is_Some (instances d !! id) →
  string_gt id after = true ↔ id ∈ i_ID <$> rs ∨ string_gt id (i_ID v) = true.
Proof.
  intros I rs Hv [r Hr]. destruct (page_rows after d I) as (_ & _ & Hgt & _). split.
  - intros Hid. destruct (page_covers after d id r I Hr Hid) as [Hin|(v' & Hv' & Hgt')].
    + left. rewrite <- (instances_keyed d I id r Hr). by apply list_elem_of_fmap_2.
    + right. fold rs in Hv'. rewrite Hv in Hv'. by injection Hv' as <-.
  - intros [(r' & -> & Hr')%list_elem_of_fmap|Hid]; [by apply Hgt|].
    apply (string_gt_trans _ (i_ID v)); [done|]. apply Hgt. fold rs. apply last_Some in Hv as [l' ->]. set_solver.
Qed.

Lemma swept_weaken P n m d d' : n ≤ m → swept P n d d' → swept P m d d'.
Proof. intros Hnm [Hs Hf Ht Hl I]. split; auto. lia. Qed.

(** Two parts of a sweep that follow each other. *)
Lemma swept_app (P Q R : string → Prop) n m d d1 d' :
  Inv d → (∀ id, P id → Q id → False) → (∀ id, is_Some (instances d !! id) → R id ↔ P id ∨ Q id) →
  swept P n d d1 → swept Q m d1 d' → swept R (n + m) d d'.
Proof.
  intros I Hdis Hsplit [Hset1 Hfr1 [Hv1 Hs1] Hlog1 I1] [Hset2 Hfr2 [Hv2 Hs2] Hlog2 I2].
  assert (∀ id, Q id → instances d1 !! id = instances d !! id) as Hq1 by eauto.
  split; [| |split; congruence|lia|done].
  - intros id r Hr Hp. apply Hsplit in Hp as [Hp|Hp]; [| |by eexists].
    + apply (row_settled_frame _ d1); [|by eapply Hset1]. rewrite (instances_keyed d I id r Hr). eauto.
    + eapply Hset2; [|exact Hp]. by rewrite Hq1.
  - intros id Hid. assert (¬ P id ∨ instances d !! id = None) as Hp.
    { destruct (instances d !! id) eqn:E; [left|by right]. intros Hp. destruct Hid as [Hid|]; [|done].
      apply Hid, Hsplit; [rewrite E; by eexists|by left]. }
    rewrite Hfr2, Hfr1; auto. rewrite (Hfr1 id Hp).
    destruct (instances d !! id) eqn:E; [left|by right]. intros Hp'. destruct Hid as [Hid|]; [|done].
    apply Hid, Hsplit; [rewrite E; by eexists|by right].
Qed.

Section sweep.
Context (orc : Oracle effect) (Hq : quiet orc) (Hrt : runtime_works orc).

Lemma convergePage_run rs xs w :
  page_of rs xs → Inv (w_db w) → topology_ready (w_db w) → NoDup (i_ID <$> rs) →
  Forall (λ r, instances (w_db w) !! i_ID r = Some r) rs → log_room (w_db w) (Z.of_nat (length rs)) →
  ∃ w', convergePage orc xs w = (Ok tt, w') ∧
    swept (.∈ i_ID <$> rs) (Z.of_nat (length rs)) (w_db w) (w_db w').
Proof using Hq Hrt.
  intros Hp. revert w. induction Hp as [|r x rs xs Hx Hp IH]; intros w I Htop Hnd Hcur Hroom.
  - exists w. split; [done|]. split; try done; [|simpl; lia]. intros id r _ Hin. by apply not_elem_of_nil in Hin.
  - rewrite fmap_cons in *. apply NoDup_cons in Hnd as [Hnotin Hnd]. apply Forall_cons in Hcur as [Hr Hcur].
    rewrite length_cons in *.
    destruct (instance_reconcile_run orc Hq Hrt w (i_ID r) r) as (w1 & E1 & [Hself Hframe _ Htop1 Hlog1 I1]); auto.
    { unfold log_room in *. lia. }
    destruct (IH w1) as (w' & E2 & [Hset Hfr Htop2 Hlog2 I2]); auto.
    { unfold topology_ready in *. by destruct Htop1 as [-> ->]. }
    { rewrite Forall_forall in *. intros r' Hr'. rewrite Hframe; [by apply Hcur|].
      intros E. apply Hnotin. rewrite <- E. by apply list_elem_of_fmap_2. }
    { unfold log_room in *. lia. }
    exists w'. split.
    { cbn [convergePage]. rewrite Hx. by erewrite andThen_run by exact E1. }
    destruct Htop1 as [Hv1 Hs1]. split; auto; [| |by rewrite Hv1, Hs1 in Htop2|lia].
    + intros id r' Hr' [->|Hin]%elem_of_cons.
      * rewrite Hr in Hr'. injection Hr' as <-. apply (row_settled_frame _ (w_db w1)); [apply Hfr; by left|].
        unfold row_settled. destruct (_ =? 1); [by apply Hself|done].
      * eapply Hset; [|done]. rewrite Hframe; [done|]. intros ->. done.
    + intros id Hid. assert (id ≠ i_ID r) as Hne.
      { intros ->. destruct Hid as [Hid|Hid]; [apply Hid; by left|congruence]. }
      rewrite Hfr; [by apply Hframe|]. destruct Hid as [Hid|Hid]; [left; set_solver|right; by rewrite Hframe].
Qed.

Lemma sweepFrom_run fuel after w :
  Inv (w_db w) → topology_ready (w_db w) →
  let n := length (rest i_ID local after (instances (w_db w))) in
  (n < fuel)%nat → log_room (w_db w) (Z.of_nat n) →
  ∃ w', sweepFrom orc fuel after w = (Ok tt, w') ∧
    swept (λ id, string_gt id after = true) (Z.of_nat n) (w_db w) (w_db w').
Proof using Hq Hrt.
  revert after w. induction fuel as [|fuel IH]; intros after w I Htop n Hfuel Hroom; [lia|].
  set (d := w_db w) in *. set (l := rest i_ID local after (instances d)) in *.
  destruct (ListInstancePage_runs d after I) as (xs & Hxs & Hp).
  destruct (page_rows after d I) as (Hnd & Hcur & Hgt & Hlast). fold l in Hp, Hnd, Hcur, Hgt, Hlast.
  destruct (read_step orc Hq (λ flt, store_ListInstancePage flt "default" after 100) w) as (w1 & E1 & D1).
  fold d in E1, D1. rewrite Hxs in E1. cbn [sweepFrom]. erewrite bind_run by exact E1. cbv beta iota.
  destruct (last xs) as [x|] eqn:Ex.
  - assert (∃ v, last (take 100 l) = Some v ∧ Instance_ID x = i_ID v) as (v & Hv & Eid).
    { rewrite last_lookup, <- (Forall2_length _ _ _ Hp) in Ex.
      eapply Forall2_lookup_r in Ex as (v & Hv & Ev); [|done]. exists v. by rewrite last_lookup. }
    assert (length (take 100 l) + length (drop 100 l) = n)%nat as Hlen by (by rewrite <- length_app, take_drop).
    assert (0 < length (take 100 l))%nat as Hpos by (destruct (take 100 l); [done|simpl; lia]).
    destruct (convergePage_run (take 100 l) xs w1) as (w2 & E2 & Hsw); auto; [by rewrite D1..| | |].
    { eapply Forall_impl; [exact Hcur|]. by rewrite D1. }
    { rewrite D1. unfold log_room in *. lia. }
    rewrite D1 in Hsw. erewrite andThen_run by exact E2.
    pose proof (rest_drop i_ID local after 100 (instances d) v (instances_keyed d I) Hv) as Hdrop. fold l in Hdrop.
    assert (∀ r, r ∈ take 100 l → string_gt (i_ID r) (i_ID v) = false) as Hbelow by eauto.
    pose proof (rest_shrinks (i_ID v) d (w_db w2) I (sw_inv _ _ _ _ Hsw)) as Hshrink. rewrite Hdrop in Hshrink.
    assert (length (rest i_ID local (i_ID v) (instances (w_db w2))) ≤ length (drop 100 l))%nat as Hshrink'.
    { apply Hshrink. intros id Hid. apply (sw_frame _ _ _ _ Hsw). left.
      intros (r & -> & Hr)%list_elem_of_fmap. rewrite Hbelow in Hid; done. }
    pose proof (sw_log _ _ _ _ Hsw) as Hlog. rewrite Eid.
    destruct (IH (i_ID v) w2) as (w' & E3 & Hsw').
    { apply (sw_inv _ _ _ _ Hsw). }
    { unfold topology_ready. by destruct (sw_topology _ _ _ _ Hsw) as [-> ->]. }
    { lia. }
    { unfold log_room in *. lia. }
    exists w'. split; [done|]. eapply swept_weaken; [|eapply (swept_app _ _ (λ id, string_gt id after = true)); [done| | |exact Hsw|exact Hsw']].
    + lia.
    + intros id (r & -> & Hr)%list_elem_of_fmap Hid. rewrite Hbelow in Hid; done.
    + intros id Hid. by apply page_split.
  - apply last_None in Ex as ->. inversion Hp as [Hnil|]; subst.
    exists w1. split; [done|]. rewrite D1. split; try done; [|lia].
    intros id r Hr Hid. destruct (page_covers after d id r I Hr Hid) as [Hin|(v' & Hv' & _)].
    + fold l in Hin. rewrite <- Hnil in Hin. by apply not_elem_of_nil in Hin.
    + fold l in Hv'. by rewrite <- Hnil in Hv'.
Qed.
End sweep.

Lemma instances_count d : (length (rest i_ID local "" (instances d)) ≤ size (instances d))%nat.
Proof.
  unfold rest. etrans; [apply List.filter_length_le|]. unfold by_id.
  by rewrite length_fmap, merge_sort_Permutation, length_map_to_list.
Qed.

(** ** Properties *)

(** C7: Undisturbed, with a runtime and an engine that do what they are asked for and
    a topology that is available, a sweep terminates (within as many pages as there
    are instances) without error and brings every instance to its desired state: the
    instances that are being terminated are gone with their interfaces, all others are
    running with a recorded runtime at their current generation; the topology is not
    touched. *)
Theorem instance_sweep_converges (orc : Oracle effect) fuel w :
  quiet orc → runtime_works orc → Inv (w_db w) → topology_ready (w_db w) → instances (w_db w) !! "" = None →
  (size (instances (w_db w)) < fuel)%nat → log_room (w_db w) (Z.of_nat (size (instances (w_db w)))) →
  ∃ w', Sweep orc fuel w = (Ok tt, w') ∧
    (∀ id r, instances (w_db w) !! id = Some r →
       if i_DeletionRequested r =? 1
       then instances (w_db w') !! id = None ∧ ∀ k e, enis (w_db w') !! k = Some e → e_InstanceID e ≠ id
       else ∃ r', instances (w_db w') !! id = Some r' ∧ is_running r') ∧
    (∀ id, instances (w_db w) !! id = None → instances (w_db w') !! id = None) ∧
    vpcs (w_db w') = vpcs (w_db w) ∧ subnets (w_db w') = subnets (w_db w).
Proof.
  intros Hq Hrt I Htop Hne Hfuel Hroom. pose proof (instances_count (w_db w)) as Hn.
  destruct (sweepFrom_run orc Hq Hrt fuel "" w) as (w' & E & [Hset Hfr Ht _ I']); auto; [lia|unfold log_room in *; lia|].
  exists w'. split_and!; [done| | |apply Ht..].
  - intros id r Hr. assert (string_gt id "" = true) as Hgt by (apply string_gt_empty; congruence).
    specialize (Hset id r Hr Hgt). unfold row_settled in Hset. rewrite (instances_keyed _ I id r Hr) in Hset.
    destruct (_ =? 1); [|done]. split; [done|]. intros k e He Hei.
    destruct (inv_eni _ I' k e He) as (r' & _ & _ & _ & Hr' & _). congruence.
  - intros id Hid. rewrite Hfr; auto.
Qed.

Lemma perform_Inv o d : Inv d → Inv (perform o d).2.
Proof. intros I. eapply steps_Inv; [by apply perform_steps|done]. Qed.

(** The scenario with one of its instances being terminated. *)
Definition draining_db : DB := (perform (OpTerminate (at_time 2500 1) (demo_instance "05")) ready_db).2.

(** Witness: one instance starts, the other one goes. *)
Lemma instance_sweep_witness :
  let orc := runtime_oracle (λ _ d, d) None in
  let w := MkWorld draining_db newQueue 0 [] in
  ∃ w', Sweep orc 3 w = (Ok tt, w') ∧
    (∀ id r, instances (w_db w) !! id = Some r →
       if i_DeletionRequested r =? 1
       then instances (w_db w') !! id = None ∧ ∀ k e, enis (w_db w') !! k = Some e → e_InstanceID e ≠ id
       else ∃ r', instances (w_db w') !! id = Some r' ∧ is_running r') ∧
    (∀ id, instances (w_db w) !! id = None → instances (w_db w') !! id = None) ∧
    vpcs (w_db w') = vpcs (w_db w) ∧ subnets (w_db w') = subnets (w_db w).
Proof.
  apply (instance_sweep_converges (runtime_oracle (λ _ d, d) None)).
  - by split.
  - split; try done. intros n i. exists (runtime_of i). split; [done|]. unfold runtime_of.
    destruct (Instance_RuntimeID i ==? "") eqn:E; reflect_bools; split; done || by rewrite E.
  - apply perform_Inv, execute_all_steps, initial_Inv.
  - split; [apply (bool_decide_eq_true_1 (map_Forall (λ _ v, v_State v = "available") (vpcs draining_db)))
           |apply (bool_decide_eq_true_1 (map_Forall (λ _ s, s_State s = "available") (subnets draining_db)))];
      vm_compute; reflexivity.
  - vm_compute. reflexivity.
  - apply Nat.ltb_lt. vm_compute. reflexivity.
  - vm_compute. reflexivity.
Defined.
