(* ===== verification/VpcConverge.v ===== *)
(** Convergence of the VPC reconciler: [reconcileLocked] and [Sweep] of
    [internal/reconcile] when nothing else happens. *)

From S2P Require Import Prelude Errors GoStrings NetIP Validate Ipam Mac Netns Model Snapshot.
From S2P Require Import Schema Tx Transitions Store Idempotency Refine RecordRefine Paging Queue.
From S2P Require Import NetworkService InstanceService ServiceRefine System.
From S2P Require Import Controller Reconcile SweepSafety Progress Converge.
Local Open Scope Z_scope.

Lemma store_GetVPC_runs d id r v :
  Inv d → vpcs d !! id = Some r → vpcFromRow r = Ok v → store_GetVPC None "default" id d = Ok v.
Proof.
  intros I Hr Hv. unfold store_GetVPC, autocommit. rewrite read_None.
  rewrite (q_GetVPC_hit d id "default" r); [done..|by destruct (inv_v d I id r Hr)].
Qed.

Lemma store_ListSubnetsByVPC_runs d id :
  store_ListSubnetsByVPC None id d =
  mapM subnetFromRow (List.filter (λ r, s_VpcID r ==? id) (by_id (subnets d))).
Proof. done. Qed.

(** The answer of the engine to every change it is asked for. *)
Definition engine_says (orc : Oracle effect) (eff : option error) : Prop :=
  (∀ n v l, o_call orc n (EngineEnsureVPC v l) = eff) ∧ (∀ n v, o_call orc n (EngineDeleteVPC v) = eff).

(** What the engine is asked for: to remove a VPC that is being deleted, and else
    to build the VPC with exactly its live subnets. *)
Definition asks_for (d : DB) (r : Vpc) (e : effect) : Prop :=
  match e with
  | EngineDeleteVPC v => v_DeletionRequested r = 1 ∧ vpcFromRow r = Ok v
  | EngineEnsureVPC v active =>
      v_DeletionRequested r = 0 ∧ vpcFromRow r = Ok v ∧
      ∀ x, x ∈ active ↔ ∃ s, subnets d !! s_ID s = Some s ∧ s_VpcID s = v_ID r ∧
                              s_DeletionRequested s = 0 ∧ subnetFromRow s = Ok x
  | EngineListVPCNames => False
  end.

Section reconcile.
Context (orc : Oracle effect) (Hq : quiet orc) (eff : option error) (Heng : engine_says orc eff).

Lemma active_spec d r xs :
  Inv d → mapM subnetFromRow (List.filter (λ s, s_VpcID s ==? v_ID r) (by_id (subnets d))) = Ok xs →
  ∀ x, x ∈ List.filter (λ s, negb (Subnet_DeletionRequested s)) xs ↔
       ∃ s, subnets d !! s_ID s = Some s ∧ s_VpcID s = v_ID r ∧ s_DeletionRequested s = 0 ∧ subnetFromRow s = Ok x.
Proof.
  intros I Hxs x. apply mapM_Ok in Hxs. rewrite elem_of_filter. split.
  - intros [Hx Hlive]. apply list_elem_of_lookup in Hx as [k Hk].
    eapply Forall2_lookup_r in Hxs as (s & Hs & Hfrom); [|done].
    apply list_elem_of_lookup_2, elem_of_filter_by_id in Hs as (Hp & j & Hj). exists s.
    apply (proj1 (beq_true _ _)) in Hp. destruct (inv_s d I j s Hj) as [Eid _ _ _ _ _ _].
    pose proof Hfrom as (p & _ & E)%subnetFromRow_inv. split_and!; auto; [by rewrite Eid|].
    rewrite E in Hlive. simpl in Hlive. by reflect_bools.
  - intros (s & Hs & Hp & Hlive & Hfrom).
    destruct (listed_subnet _ d xs _ s Hxs Hs Hp) as (x' & Hx' & Hfrom').
    rewrite Hfrom in Hfrom'. simplify_eq. split; [done|].
    apply subnetFromRow_inv in Hfrom as (p & _ & ->). simpl. by rewrite Hlive.
Qed.

(** One call of the engine, as [asks_for] says. *)
Lemma applyVPC_run d r v xs w :
  Inv d → vpcs d !! v_ID r = Some r → vpcFromRow r = Ok v →
  mapM subnetFromRow (List.filter (λ s, s_VpcID s ==? v_ID r) (by_id (subnets d))) = Ok xs →
  ∃ c, asks_for d r (projT1 c) ∧
    applyVPC orc (v_ID r) v xs w = (Ok eff, MkWorld (w_db w) (w_queue w) (S (w_time w)) (w_trace w ++ [c])).
Proof using Heng.
  intros I Hr Hv Hxs. destruct (inv_v d I _ r Hr) as [_ _ _ _ _ [_ Hd01] _].
  assert (VPC_DeletionRequested v = negb (v_DeletionRequested r =? 0)) as E
    by (by apply vpcFromRow_inv in Hv as (p & _ & ->)).
  unfold applyVPC. rewrite E. destruct Hd01 as [Hd|Hd]; rewrite Hd; simpl.
  - eexists (existT (EngineEnsureVPC v (List.filter (λ s, negb (Subnet_DeletionRequested s)) xs)) _). split.
    + simpl. split_and!; [done..|]. by apply active_spec.
    + unfold mbind, M_bind, call. simpl. apply (f_equal2 pair); [f_equal; apply (proj1 Heng)|reflexivity].
  - rewrite no_children in Hxs; [|apply (deleting_no_subnets d _ r); [done..|lia]]. injection Hxs as <-.
    simpl. eexists (existT (EngineDeleteVPC v) _). split; [done|].
    unfold mbind, M_bind, call. simpl. apply (f_equal2 pair); [f_equal; apply (proj2 Heng)|reflexivity].
Qed.

Lemma reconcileLocked_run w r :
  Inv (w_db w) → vpcs (w_db w) !! v_ID r = Some r → log_room (w_db w) (1 + Z.of_nat (size (subnets (w_db w)))) →
  ∃ d' q c n, reconcileLocked orc (v_ID r) w = (Ok tt, MkWorld d' q n (w_trace w ++ [c])) ∧
    topology_settled eff r (w_db w) d' ∧ asks_for (w_db w) r (projT1 c) ∧
    retries q = match eff with
                | None => delete (v_ID r) (retries (w_queue w))
                | Some _ => retries (retry (o_clock orc n) (v_ID r) (w_queue w))
                end.
Proof using Hq Heng.
  intros I Hr Hroom. set (d := w_db w) in *.
  destruct (vpcFromRow_total d _ r I Hr) as [v Hv]. destruct (ListSubnetsByVPC_total d (v_ID r) I) as [xs Hxs].
  unfold reconcileLocked.
  erewrite bind_run; [|by apply store_read_quiet]. fold d. rewrite (store_GetVPC_runs d _ r v) by done.
  erewrite andThen_run; [|rewrite store_read_quiet by done; simpl; fold d;
    by rewrite store_ListSubnetsByVPC_runs, Hxs].
  match goal with |- context [andThen (applyVPC _ _ _ _) _ ?w1] =>
    destruct (applyVPC_run d r v xs w1 I Hr Hv Hxs) as (c & Hc & Happ) end.
  erewrite andThen_run; [|exact Happ]. simpl. unfold recordVPC.
  do 2 (erewrite bind_run; [|by apply ctxErr_quiet]; cbv beta iota).
  erewrite bind_run; [|by apply store_call_quiet]. simpl. fold d.
  match goal with |- context [WithTx None (recordTopology v xs eff ?now) d] =>
    destruct (recordTopology_runs d r v xs eff now I Hr Hv Hxs Hroom) as (d' & Hrun & Hset) end.
  apply runs_WithTx in Hrun. rewrite Hrun. simpl.
  destruct eff as [e|]; eexists d', _, c, _; (split; [reflexivity|split_and!; [done|done|]]).
  - apply retry_cong. simpl. by repeat (rewrite retries_hinted; simpl).
  - simpl. by repeat (rewrite retries_hinted; simpl).
Qed.
End reconcile.

(** ** [Sweep] *)

(** Names exist for all kernel indexes in use. *)
Lemma wantPage_total page wanted :
  (∀ v, v ∈ page → 1 ≤ VPC_ShortIndex v ≤ maxIndex) → ∃ wanted', wantPage page wanted = Ok wanted'.
Proof.
  revert wanted. induction page as [|v page IH]; intros wanted H; [by eexists|]. cbn [wantPage].
  rewrite (proj2 (Name_Ok (VPC_ShortIndex v) _)) by (split; [apply H; by left|done]). simpl.
  apply IH. intros v' Hv'. apply H. by right.
Qed.

Lemma in_take {A} n (l : list A) x : x ∈ take n l → x ∈ l.
Proof. intros (i & Hi & _)%elem_of_take. by eapply list_elem_of_lookup_2. Qed.

Section sweep.
Context (orc : Oracle effect) (Hq : quiet orc).

Lemma ListVPCPage_quiet d after :
  store_ListVPCPage None "default" after 100 d =
  mapM vpcFromRow (take 100 (rest v_ID (λ r, v_WorkspaceID r ==? "default") after (vpcs d))).
Proof. done. Qed.

Lemma sweepPages_run fuel after vs wanted w :
  Inv (w_db w) → (∀ id r, vpcs (w_db w) !! id = Some r → v_ShortIndex r ≤ maxIndex) →
  let l := rest v_ID (λ r, v_WorkspaceID r ==? "default") after (vpcs (w_db w)) in
  (length l < fuel)%nat →
  ∃ xs wanted' q n, Forall2 (λ r x, vpcFromRow r = Ok x) l xs ∧ retries q = retries (w_queue w) ∧
    sweepPages orc fuel after vs wanted w = (Ok (vs ++ xs, wanted'), MkWorld (w_db w) q n (w_trace w)).
Proof using Hq.
  intros I Hmax. revert after vs wanted w I Hmax.
  induction fuel as [|fuel IH]; intros after vs wanted w I Hmax l Hfuel; [lia|].
  assert (∀ r, r ∈ l → ∃ k, vpcs (w_db w) !! k = Some r) as Hrows.
  { intros r [Hr _]%elem_of_filter. by apply elem_of_by_id in Hr. }
  destruct (mapM_total vpcFromRow (take 100 l)) as [page Hpage].
  { intros r [k Hk]%in_take%Hrows. by eapply vpcFromRow_total. }
  cbn [sweepPages]. erewrite andThen_run;
    [|rewrite store_read_quiet by done; rewrite ListVPCPage_quiet; fold l; by rewrite Hpage].
  apply mapM_Ok in Hpage. destruct (last page) as [v|] eqn:Hlast.
  - destruct (wantPage_total page wanted) as [wanted1 Hw].
    { intros x [k Hk]%list_elem_of_lookup. eapply Forall2_lookup_r in Hpage as (r & Hr & Hx); [|done].
      apply list_elem_of_lookup_2, in_take, Hrows in Hr as [id Hid].
      apply vpcFromRow_inv in Hx as (p & _ & ->). simpl. pose proof (Hmax _ _ Hid).
      pose proof (inv_vk _ I _ _ Hid) as Hk'%(inv_k _ I). lia. }
    rewrite Hw. assert (∃ r, last (take 100 l) = Some r ∧ VPC_ID v = v_ID r) as (r & Hr & Hid).
    { rewrite last_lookup, <- (Forall2_length _ _ _ Hpage) in Hlast.
      eapply Forall2_lookup_r in Hlast as (r & Hr & Hx); [|done]. exists r. rewrite last_lookup.
      split; [done|]. by apply vpcFromRow_inv in Hx as (p & _ & ->). }
    pose proof (rest_drop v_ID _ after 100 (vpcs (w_db w)) r (vpcs_keyed _ I) Hr) as Hdrop. fold l in Hdrop.
    rewrite Hid. match goal with |- context [sweepPages _ _ _ _ _ ?w1] =>
      destruct (IH (v_ID r) (vs ++ page) wanted1 w1) as (xs & wanted' & q & n & Hxs & Hret & Hrun) end; auto.
    { simpl. rewrite Hdrop, length_drop. destruct l; [done|]. simpl in *. lia. }
    simpl in *. rewrite Hdrop in Hxs. exists (page ++ xs), wanted', q, n. split_and!.
    + rewrite <- (take_drop 100 l). by apply Forall2_app.
    + by rewrite Hret, retries_hinted.
    + by rewrite Hrun, <- app_assoc.
  - apply last_None in Hlast as ->. inversion Hpage as [Hnil|]; subst.
    exists [], wanted, (hinted orc w), (S (w_time w)). split_and!; [|by rewrite retries_hinted|by rewrite app_nil_r].
    destruct l; [constructor|done].
Qed.

Context (Heng : engine_says orc None).

Lemma removeOrphans_run wanted names w :
  ∃ n t, removeOrphans orc wanted names w = (Ok tt, MkWorld (w_db w) (w_queue w) n t).
Proof using Heng.
  revert w. induction names as [|name names IH]; intros w; cbn [removeOrphans].
  - exists (w_time w), (w_trace w). by destruct w.
  - destruct (bool_decide _); [apply IH|]. destruct (ownedIndex name) as [i []]; simpl; [|apply IH].
    erewrite bind_run; [|unfold call; reflexivity]. rewrite (proj2 Heng).
    match goal with |- context [removeOrphans orc wanted names ?w1] => destruct (IH w1) as (n & t & ->) end.
    by exists n, t.
Qed.

(** Settling a VPC only removes subnets. *)
Lemma settled_subnets_shrink eff r d d' :
  Inv d → topology_settled eff r d d' → (size (subnets d') ≤ size (subnets d))%nat.
Proof.
  intros I [_ _ Hch Hfr _ _ _]. rewrite <- !size_dom. apply subseteq_size. intros id [s' Hs']%elem_of_dom.
  apply elem_of_dom. destruct (subnets d !! id) as [s|] eqn:Hs; [eauto|]. rewrite Hfr in Hs'; [congruence|].
  intros s Hs2. congruence.
Qed.

Lemma convergeAll_run rs xs w :
  Inv (w_db w) → Forall2 (λ r x, vpcFromRow r = Ok x) rs xs → NoDup (v_ID <$> rs) →
  Forall (λ r, vpcs (w_db w) !! v_ID r = Some r) rs →
  log_room (w_db w) (Z.of_nat (length rs) * (1 + Z.of_nat (size (subnets (w_db w))))) →
  ∃ w', convergeAll orc xs w = (Ok tt, w') ∧ Inv (w_db w') ∧
    (∀ r, r ∈ rs → vpc_settled true "" r (vpcs (w_db w') !! v_ID r)) ∧
    (∀ id, id ∉ v_ID <$> rs → vpcs (w_db w') !! id = vpcs (w_db w) !! id) ∧
    (∀ s, subnets (w_db w) !! s_ID s = Some s → s_VpcID s ∈ v_ID <$> rs →
       subnet_settled true "" s (subnets (w_db w') !! s_ID s)) ∧
    (∀ id, (∀ s, subnets (w_db w) !! id = Some s → s_VpcID s ∉ v_ID <$> rs) →
       subnets (w_db w') !! id = subnets (w_db w) !! id).
Proof using Hq Heng.
  intros I Hrx. revert w I. induction Hrx as [|r x rs xs Hx Hrx IH]; intros w I Hnd Hcur Hroom.
  - exists w. split_and!; try done; [intros r Hr; by apply not_elem_of_nil in Hr|].
    intros s _ Hs. by apply not_elem_of_nil in Hs.
  - rewrite fmap_cons in *. apply NoDup_cons in Hnd as [Hnotin Hnd]. apply Forall_cons in Hcur as [Hr Hcur].
    destruct (reconcileLocked_run orc Hq None Heng w r) as (d1 & q1 & c & n1 & Hrun & Hset & _); auto.
    { unfold log_room in *. rewrite length_cons in Hroom. nia. }
    pose proof (settled_subnets_shrink None r _ _ I Hset) as Hshrink.
    destruct Hset as [Hself Hvf Hch Hsf _ Hlog I1].
    destruct (IH (MkWorld d1 q1 n1 (w_trace w ++ [c]))) as (w' & Hrun' & I' & Hin & Hout & Hsin & Hsout); auto.
    { simpl. rewrite Forall_forall in *. intros r' Hr'. rewrite Hvf; [by apply Hcur|].
      intros E. apply Hnotin. rewrite <- E. by apply list_elem_of_fmap_2. }
    { unfold log_room in *. simpl. rewrite length_cons in Hroom. nia. }
    simpl in *. exists w'. split_and!; auto.
    + cbn [convergeAll]. pose proof Hx as (p & _ & E)%vpcFromRow_inv. rewrite E. simpl.
      by erewrite andThen_run by exact Hrun.
    + intros r' [->|Hr']%elem_of_cons; [|by apply Hin]. by rewrite Hout.
    + intros id [Hne Hid]%not_elem_of_cons. rewrite Hout by done. by apply Hvf.
    + intros s Hs [Hp|Hp]%elem_of_cons.
      * rewrite Hsout; [by apply Hch|]. intros s' Hs'. specialize (Hch s Hs Hp).
        unfold subnet_settled in Hch. destruct (_ && _); [congruence|]. destruct Hch as [u Hu].
        rewrite Hu in Hs'. simplify_eq. simpl. by rewrite Hp.
      * apply Hsin; [|done]. rewrite Hsf; [done|]. intros s' Hs'. rewrite Hs in Hs'. simplify_eq.
        intros E. by rewrite E in Hp.
    + intros id Hid. assert (subnets d1 !! id = subnets (w_db w) !! id) as Hsame.
      { apply Hsf. intros s Hs. by apply Hid, not_elem_of_cons in Hs as [? _]. }
      rewrite Hsout; [done|]. intros s Hs. rewrite Hsame in Hs. by apply Hid, not_elem_of_cons in Hs as [_ ?].
Qed.
End sweep.

Lemma rest_all d :
  Inv d → vpcs d !! "" = None → rest v_ID (λ r, v_WorkspaceID r ==? "default") "" (vpcs d) = by_id (vpcs d).
Proof.
  intros I Hne. apply filter_all. intros r (k & Hk)%elem_of_by_id.
  destruct (inv_v d I k r Hk) as [Eid Ews _ _ _ _ _]. rewrite Ews, beq_refl. simpl.
  apply string_gt_empty. congruence.
Qed.

Lemma vpc_rows d :
  Inv d → NoDup (v_ID <$> by_id (vpcs d)) ∧ Forall (λ r, vpcs d !! v_ID r = Some r) (by_id (vpcs d)) ∧
  length (by_id (vpcs d)) = size (vpcs d).
Proof.
  intros I. assert (v_ID <$> by_id (vpcs d) = (merge_sort key_le (map_to_list (vpcs d))).*1) as E.
  { unfold by_id. rewrite <- list_fmap_compose. apply list_fmap_ext. intros i [k r] Hin. simpl.
    apply list_elem_of_lookup_2 in Hin. rewrite merge_sort_Permutation in Hin.
    apply elem_of_map_to_list in Hin. by destruct (inv_v d I k r Hin). }
  split_and!.
  - rewrite E, merge_sort_Permutation. apply NoDup_fst_map_to_list.
  - apply Forall_forall. intros r (k & Hk)%elem_of_by_id. by destruct (inv_v d I k r Hk) as [-> _ _ _ _ _ _].
  - unfold by_id. by rewrite length_fmap, merge_sort_Permutation, length_map_to_list.
Qed.

Lemma vpc_settled_live r o :
  lifecycle (v_Generation r) (v_DeletionRequested r) → vpc_settled true "" r o →
  (is_Some o ↔ v_DeletionRequested r = 0) ∧
  (∀ r', o = Some r' → v_State r' = "available" ∧ v_StateReason r' = "" ∧
         v_ObservedGeneration r' = v_Generation r' ∧ v_DeletionRequested r' = 0).
Proof.
  unfold vpc_settled. intros [_ [Hd|Hd]]; rewrite Hd; simpl.
  - intros [u ->]. split; [done|]. intros r' [= <-]. by simpl.
  - intros ->. split; [|done]. split; [by intros []|done].
Qed.

Lemma subnet_settled_live r o :
  lifecycle (s_Generation r) (s_DeletionRequested r) → subnet_settled true "" r o →
  (is_Some o ↔ s_DeletionRequested r = 0) ∧
  (∀ r', o = Some r' → s_State r' = "available" ∧ s_StateReason r' = "" ∧
         s_ObservedGeneration r' = s_Generation r' ∧ s_DeletionRequested r' = 0).
Proof.
  unfold subnet_settled. intros [_ [Hd|Hd]]; rewrite Hd; simpl.
  - intros [u ->]. split; [done|]. intros r' [= <-]. by simpl.
  - intros ->. split; [|done]. split; [by intros []|done].
Qed.

(** What a sweep that settled every VPC leaves. *)
Lemma swept d d' :
  Inv d →
  (∀ r, r ∈ by_id (vpcs d) → vpc_settled true "" r (vpcs d' !! v_ID r)) →
  (∀ id, id ∉ v_ID <$> by_id (vpcs d) → vpcs d' !! id = vpcs d !! id) →
  (∀ s, subnets d !! s_ID s = Some s → s_VpcID s ∈ v_ID <$> by_id (vpcs d) →
     subnet_settled true "" s (subnets d' !! s_ID s)) →
  (∀ id, (∀ s, subnets d !! id = Some s → s_VpcID s ∉ v_ID <$> by_id (vpcs d)) →
     subnets d' !! id = subnets d !! id) →
  (∀ id r, vpcs d' !! id = Some r →
     v_State r = "available" ∧ v_StateReason r = "" ∧ v_ObservedGeneration r = v_Generation r ∧
     v_DeletionRequested r = 0) ∧
  (∀ id s, subnets d' !! id = Some s →
     s_State s = "available" ∧ s_StateReason s = "" ∧ s_ObservedGeneration s = s_Generation s ∧
     s_DeletionRequested s = 0) ∧
  (∀ id r, vpcs d !! id = Some r → (is_Some (vpcs d' !! id) ↔ v_DeletionRequested r = 0)) ∧
  (∀ id s, subnets d !! id = Some s → (is_Some (subnets d' !! id) ↔ s_DeletionRequested s = 0)).
Proof.
  intros I Hin Hout Hsin Hsout. destruct (vpc_rows d I) as (_ & Hcur & _). rewrite Forall_forall in Hcur.
  assert (∀ id r, vpcs d !! id = Some r →
    vpc_settled true "" r (vpcs d' !! id) ∧ lifecycle (v_Generation r) (v_DeletionRequested r)) as Hvs.
  { intros id r Hr. destruct (inv_v d I id r Hr) as [Eid _ _ _ _ Hl _]. split; [|done].
    rewrite <- Eid. apply Hin, elem_of_by_id. eauto. }
  assert (∀ id s, subnets d !! id = Some s →
    subnet_settled true "" s (subnets d' !! id) ∧ lifecycle (s_Generation s) (s_DeletionRequested s)) as Hss.
  { intros id s Hs. destruct (inv_s d I id s Hs) as [Eid _ _ _ _ Hl _]. split; [|done].
    rewrite <- Eid. apply Hsin; [by rewrite Eid|]. destruct (inv_parent d I id s Hs) as (v & _ & _ & Hpv & _).
    destruct (inv_v d I _ v Hpv) as [E _ _ _ _ _ _]. rewrite <- E. apply list_elem_of_fmap_2, elem_of_by_id. eauto. }
  split_and!.
  - intros id r' Hr'. destruct (vpcs d !! id) as [r|] eqn:Hr.
    + destruct (Hvs id r Hr) as [Hset Hl]. by apply (vpc_settled_live r _ Hl Hset).
    + rewrite Hout in Hr'; [congruence|]. intros (r & -> & Hr2)%list_elem_of_fmap.
      by rewrite (Hcur r Hr2) in Hr.
  - intros id s' Hs'. destruct (subnets d !! id) as [s|] eqn:Hs.
    + destruct (Hss id s Hs) as [Hset Hl]. by apply (subnet_settled_live s _ Hl Hset).
    + rewrite Hsout in Hs'; [congruence|]. intros s Hs2. congruence.
  - intros id r Hr. destruct (Hvs id r Hr) as [Hset Hl]. by apply (vpc_settled_live r _ Hl Hset).
  - intros id s Hs. destruct (Hss id s Hs) as [Hset Hl]. by apply (subnet_settled_live s _ Hl Hset).
Qed.

Lemma Sweep_run orc (Hq : quiet orc) (Heng : engine_says orc None) names fuel w :
  (∀ n, o_call orc n EngineListVPCNames = Ok names) →
  Inv (w_db w) → vpcs (w_db w) !! "" = None → kernel_seq (w_db w) ≤ maxIndex →
  (size (vpcs (w_db w)) < fuel)%nat →
  log_room (w_db w) (Z.of_nat (size (vpcs (w_db w))) * (1 + Z.of_nat (size (subnets (w_db w))))) →
  let rs := by_id (vpcs (w_db w)) in
  ∃ w', Sweep orc fuel w = (Ok tt, w') ∧
    (∀ r, r ∈ rs → vpc_settled true "" r (vpcs (w_db w') !! v_ID r)) ∧
    (∀ id, id ∉ v_ID <$> rs → vpcs (w_db w') !! id = vpcs (w_db w) !! id) ∧
    (∀ s, subnets (w_db w) !! s_ID s = Some s → s_VpcID s ∈ v_ID <$> rs →
       subnet_settled true "" s (subnets (w_db w') !! s_ID s)) ∧
    (∀ id, (∀ s, subnets (w_db w) !! id = Some s → s_VpcID s ∉ v_ID <$> rs) →
       subnets (w_db w') !! id = subnets (w_db w) !! id).
Proof.
  intros Hnames I Hne Hmax Hfuel Hroom rs. set (d := w_db w) in *.
  destruct (vpc_rows d I) as (Hnd & Hcur & Hlen).
  destruct (sweepPages_run orc Hq fuel "" [] ∅ w) as (xs & wanted & q & n & Hxs & _ & Hpages); auto.
  { intros id r Hr. pose proof (inv_vk d I id r Hr) as Hk%(inv_k d I). fold d. lia. }
  { fold d. rewrite rest_all by done. lia. }
  fold d in Hxs. rewrite rest_all in Hxs by done.
  unfold Sweep. erewrite andThen_run by exact Hpages. cbv beta iota.
  erewrite bind_run; [|unfold call; reflexivity]. rewrite Hnames.
  match goal with |- context [andThen (removeOrphans orc wanted names) _ ?w1] =>
    destruct (removeOrphans_run orc Heng wanted names w1) as (n2 & t2 & Hrm) end.
  erewrite andThen_run by exact Hrm. simpl. fold d.
  destruct (convergeAll_run orc Hq Heng (by_id (vpcs d)) xs (MkWorld d q n2 t2))
    as (w' & Hrun & _ & Hall); auto; [simpl; by rewrite Hlen|].
  by exists w'.
Qed.

(** ** Properties *)

(** C5: Undisturbed, the reconciliation of a VPC makes exactly one engine call
    (removal if its deletion was requested, else construction with exactly its live
    subnets) and records the answer: after success a live VPC and its live subnets
    are available at their current generation and deleted ones are gone; after a
    failure everything stays, marked failed with the engine's message, and the VPC
    is scheduled for a retry; a success clears the retry. Nothing else changes. *)
Theorem reconcile_records_outcome orc eff w r :
  quiet orc → engine_says orc eff → Inv (w_db w) → vpcs (w_db w) !! v_ID r = Some r →
  log_room (w_db w) (1 + Z.of_nat (size (subnets (w_db w)))) →
  ∃ d' q c n, reconcileLocked orc (v_ID r) w = (Ok tt, MkWorld d' q n (w_trace w ++ [c])) ∧
    topology_settled eff r (w_db w) d' ∧ asks_for (w_db w) r (projT1 c) ∧
    retries q = match eff with
                | None => delete (v_ID r) (retries (w_queue w))
                | Some _ => retries (retry (o_clock orc n) (v_ID r) (w_queue w))
                end.
Proof. intros Hq Heng I Hr Hroom. by apply reconcileLocked_run. Qed.

(** Witness: the engine fails for the scenario's VPC. *)
Lemma reconcile_outcome_witness :
  let eff := Some (Errorf (lit "netlink: operation not permitted")) in
  let w := MkWorld demo_db newQueue 0 [] in
  let r := MkVpc demo_vpc "default" 1 "main" "10.0.0.0/16" 1 0 "pending" "" 1000 1000 0 in
  ∃ d' q c n, reconcileLocked (demo_oracle eff []) (v_ID r) w = (Ok tt, MkWorld d' q n (w_trace w ++ [c])) ∧
    topology_settled eff r (w_db w) d' ∧ asks_for (w_db w) r (projT1 c) ∧
    retries q = retries (retry (o_clock (demo_oracle eff []) n) (v_ID r) (w_queue w)).
Proof.
  intros eff w r. apply (reconcile_records_outcome (demo_oracle eff []) eff w r).
  - by split.
  - by split.
  - apply execute_all_steps, initial_Inv.
  - vm_compute. reflexivity.
  - vm_compute. reflexivity.
Defined.

(** C4: Undisturbed, a sweep with an engine that succeeds terminates (within as many
    pages as there are VPCs) without error and brings the whole topology to its
    desired state: exactly the VPCs and subnets whose deletion was not requested
    remain, and all of them are available at their current generation. *)
Theorem sweep_converges orc fuel w names :
  quiet orc → engine_says orc None → (∀ n, o_call orc n EngineListVPCNames = Ok names) →
  Inv (w_db w) → vpcs (w_db w) !! "" = None → kernel_seq (w_db w) ≤ maxIndex →
  (size (vpcs (w_db w)) < fuel)%nat →
  log_room (w_db w) (Z.of_nat (size (vpcs (w_db w))) * (1 + Z.of_nat (size (subnets (w_db w))))) →
  ∃ w', Sweep orc fuel w = (Ok tt, w') ∧
    (∀ id r, vpcs (w_db w') !! id = Some r →
       v_State r = "available" ∧ v_StateReason r = "" ∧ v_ObservedGeneration r = v_Generation r ∧
       v_DeletionRequested r = 0) ∧
    (∀ id s, subnets (w_db w') !! id = Some s →
       s_State s = "available" ∧ s_StateReason s = "" ∧ s_ObservedGeneration s = s_Generation s ∧
       s_DeletionRequested s = 0) ∧
    (∀ id r, vpcs (w_db w) !! id = Some r → (is_Some (vpcs (w_db w') !! id) ↔ v_DeletionRequested r = 0)) ∧
    (∀ id s, subnets (w_db w) !! id = Some s →
       (is_Some (subnets (w_db w') !! id) ↔ s_DeletionRequested s = 0)).
Proof.
  intros Hq Heng Hnames I Hne Hmax Hfuel Hroom.
  destruct (Sweep_run orc Hq Heng names fuel w) as (w' & Hrun & Hin & Hout & Hsin & Hsout); auto.
  exists w'. split; [done|]. by apply swept.
Qed.

(** The scenario, with a subnet and a second VPC whose deletion was requested. *)
Definition shrinking_db : DB :=
  execute_all (demo_ops ++ [
    OpDeleteSubnet (at_time 1005 9) (demo_subnet "03");
    OpCreateVPC (at_time 1006 7) (MkCreateVPCInput "old" "10.0.0.0/16") "";
    OpDeleteVPC (at_time 1007 8) "vpc-07020304050607080"]) initialDB.

(** Witness: two of its rows go, the others become available. *)
Lemma sweep_converges_witness :
  let orc := demo_oracle None ["nx-vpc-1"; "nx-vpc-99"] in
  let w := MkWorld shrinking_db newQueue 0 [] in
  ∃ w', Sweep orc 3 w = (Ok tt, w') ∧
    (∀ id r, vpcs (w_db w') !! id = Some r →
       v_State r = "available" ∧ v_StateReason r = "" ∧ v_ObservedGeneration r = v_Generation r ∧
       v_DeletionRequested r = 0) ∧
    (∀ id s, subnets (w_db w') !! id = Some s →
       s_State s = "available" ∧ s_StateReason s = "" ∧ s_ObservedGeneration s = s_Generation s ∧
       s_DeletionRequested s = 0) ∧
    (∀ id r, vpcs (w_db w) !! id = Some r → (is_Some (vpcs (w_db w') !! id) ↔ v_DeletionRequested r = 0)) ∧
    (∀ id s, subnets (w_db w) !! id = Some s →
       (is_Some (subnets (w_db w') !! id) ↔ s_DeletionRequested s = 0)).
Proof.
  apply (sweep_converges (demo_oracle None ["nx-vpc-1"; "nx-vpc-99"]) 3 _ ["nx-vpc-1"; "nx-vpc-99"]).
  - by split.
  - by split.
  - done.
  - apply execute_all_steps, initial_Inv.
  - vm_compute. reflexivity.
  - vm_compute. discriminate.
  - apply Nat.ltb_lt. vm_compute. reflexivity.
  - vm_compute. reflexivity.
Defined.
