(* ===== verification/Hook.v ===== *)
(** The container hook: [internal/hook/state.go], [client.go], [server_linux.go] and
    [cmd/nephos-hook].

    The OCI runtime starts [nephos-hook] with the state of a container before its
    first process runs; the hook asks the daemon over a private socket to plumb the
    instance's interface, and lets the container start only if that succeeded. *)

From S2P Require Import Prelude Errors GoStrings Encodings Utf8 NetIP Validate Ipam Mac Model Json Snapshot.
From S2P Require Import Schema Tx Transitions Store Idempotency NetworkService InstanceService Refine.
From S2P Require Import ServiceRefine System Replay Api Client Wire Progress Converge InstanceConverge.
Local Open Scope Z_scope.

(** ** State and requests *)
Definition MaxStateBytes : nat := Z.to_nat (64 * 1024).
Definition instanceAnnotation : string := "io.nephos.instance-id".

Record HookRequest := MkHookRequest { hr_InstanceID : string; hr_ContainerID : string; hr_PID : Z }.

(** The regular expressions [^prefix\[0-9a-f\]{n}$]. *)
Definition matches_hex (prefix : string) (n : nat) (s : string) : bool :=
  match CutPrefix s prefix with
  | Some hex => (String.length hex =? n)%nat && forallb is_hex_lower (bytes hex)
  | None => false
  end.
Definition instanceID : string → bool := matches_hex "i-" 17.
Definition containerID : string → bool := matches_hex "" 64.

Definition validate (r : HookRequest) : result unit :=
  require (negb (negb (instanceID (hr_InstanceID r)) || negb (containerID (hr_ContainerID r)) || (hr_PID r <=? 0)))
    (Errorf (lit "invalid instance, runtime identity or PID")).

(** A [map\[string\]string]: entries are added to the map that is there. *)
Definition dec_annotations (v : json) (x : gmap string string) : result (gmap string string) :=
  match v with
  | JNull => Ok ∅
  | JObj fs =>
      fold_left (λ acc f, x' ← acc; s ← dec_string f.2 ""; Ok (<[of_bytes f.1 := s]> x')) fs (Ok x)
  | _ => Err typeError
  end.

(** The part of an OCI state that the hook reads. *)
Record OCIState := MkOCIState { st_ID : string; st_PID : Z; st_Bundle : string; st_Annotations : gmap string string }.
Definition zero_OCIState : OCIState := MkOCIState "" 0 "" ∅.
Definition field_OCIState (key : list Z) : option (json → OCIState → result OCIState) :=
  if is_field "id" key then Some (λ v '(MkOCIState a b c d), s ← dec_string v a; Ok (MkOCIState s b c d))
  else if is_field "pid" key then Some (λ v '(MkOCIState a b c d), n ← dec_int64 v b; Ok (MkOCIState a n c d))
  else if is_field "bundle" key then Some (λ v '(MkOCIState a b c d), s ← dec_string v c; Ok (MkOCIState a b s d))
  else if is_field "annotations" key then Some (λ v '(MkOCIState a b c d),
    m ← dec_annotations v d; Ok (MkOCIState a b c m))
  else None.

(** The first value of a stream and what follows it. *)
Definition decode_first (data : list Z) : option (json * list Z) :=
  parse_value (2 * length data + 2) maxNestingDepth data.
(** A second [Decode] finds the end of the stream. *)
Definition at_EOF (rest : list Z) : bool := bool_decide (skip_space rest = []).

(** [stdin] is what reading all of it gives. *)
Definition DecodeState (stdin : result (list Z)) : result HookRequest :=
  all ← wrap_err (Sprintf "read OCI state: %w" []) stdin;
  let raw := take (MaxStateBytes + 1) all in
  require (length raw <=? MaxStateBytes)%nat (Errorf (Sprintf "OCI state exceeds %d bytes" ["65536"])) ;;
  first ← of_option (Wrapf (Sprintf "decode OCI state: %w" []) syntaxError) (decode_first raw);
  let '(v, rest) := first in
  state ← wrap_err (Sprintf "decode OCI state: %w" []) (dec_struct field_OCIState v zero_OCIState);
  require (at_EOF rest) (Errorf (lit "trailing OCI state")) ;;
  let request := MkHookRequest (default "" (st_Annotations state !! instanceAnnotation)) (st_ID state) (st_PID state) in
  validate request ;;
  Ok request.

Definition enc_HookRequest (r : HookRequest) : json :=
  JObj [(bytes "instance_id", enc_string (hr_InstanceID r)); (bytes "container_id", enc_string (hr_ContainerID r));
        (bytes "pid", enc_int64 (hr_PID r))].
Definition field_HookRequest (key : list Z) : option (json → HookRequest → result HookRequest) :=
  if is_field "instance_id" key then Some (λ v '(MkHookRequest a b c), s ← dec_string v a; Ok (MkHookRequest s b c))
  else if is_field "container_id" key then Some (λ v '(MkHookRequest a b c), s ← dec_string v b; Ok (MkHookRequest a s c))
  else if is_field "pid" key then Some (λ v '(MkHookRequest a b c), n ← dec_int64 v c; Ok (MkHookRequest a b n))
  else None.

(** ** The client *)

(** [transport] posts a body to the daemon: an error, or the status and body of the
    response. *)
Definition Plumb (transport : list Z → result (Z * list Z)) (socket : string) (request : HookRequest) : result unit :=
  validate request ;;
  require (HasPrefix socket "/" && negb (strings_Contains socket "://"))
    (Errorf (lit "hook requires an absolute Unix socket path")) ;;
  response ← wrap_err (Sprintf "call private hook socket: %w" []) (transport (encode (enc_HookRequest request)));
  require (response.1 =? 204)
    (Errorf (Sprintf "plumbing refused (HTTP %d): %s"
               [FormatInt response.1; TrimSpace (of_bytes (take 4096 response.2))])).

(** [run] of the hook command; an error is a nonzero exit. *)
Definition run (transport : list Z → result (Z * list Z)) (stdin : result (list Z)) (socket : string) : result unit :=
  request ← DecodeState stdin;
  Plumb transport socket request.

(** ** The daemon *)

(** What the handler meets: faults of its two transactions, the answers of
    [netns.OpenInstance] and [EnsureENI], and the transactions of others meanwhile. *)
Record HookEnv := MkHookEnv {
  he_fault : fault;
  he_open : Z → string → option error;
  he_ensure : VPC → Subnet → ENI → option error;
  he_others : list op;
  he_fault2 : fault
}.

(** The call of [EnsureENI], with the process and container of its target. *)
Record Plumbed := MkPlumbed { pl_VPC : VPC; pl_Subnet : Subnet; pl_ENI : ENI; pl_PID : Z; pl_Container : string }.

Record HookOutcome := MkHookOutcome {
  ho_status : Z; ho_body : string; ho_plumbed : option Plumbed; ho_db : DB
}.
(** [http.Error] *)
Definition http_Error (message : string) (status : Z) (p : option Plumbed) (d : DB) : HookOutcome :=
  MkHookOutcome status (message +:+ of_bytes [10]) p d.

(** The transaction that checks the request. *)
Definition hook_tx (request : HookRequest) : Tx (Instance_ * Subnet * VPC) :=
  instance ← tx_GetInstance "default" (hr_InstanceID request);
  guard_tx (negb (Instance_DeletionRequested instance || (Instance_RuntimeID instance !=? hr_ContainerID request)))
    (Errorf (lit "runtime identity does not match live desired instance")) ;;
  subnet ← tx_GetSubnet "default" (Instance_SubnetID instance);
  vpc ← tx_GetVPC "default" (Subnet_VPCID subnet);
  guard_tx (negb (Subnet_DeletionRequested subnet || VPC_DeletionRequested vpc || (Subnet_State subnet !=? StateAvailable) ||
      (VPC_State vpc !=? StateAvailable) || negb (Subnet_ObservedGeneration subnet =? Subnet_Generation subnet) ||
      negb (VPC_ObservedGeneration vpc =? VPC_Generation vpc)))
    (Errorf (lit "network prerequisites are not converged")) ;;
  mret (instance, subnet, vpc).

(** What the handler does for a valid request. *)
Definition hook_plumb (env : HookEnv) (request : HookRequest) (d : DB) : HookOutcome :=
  match WithTx (he_fault env) (hook_tx request) d with
  | (Err e, d1) => http_Error (error_text e) 409 None d1
  | (Ok (instance, subnet, vpc), d1) =>
      match he_open env (hr_PID request) (hr_ContainerID request) with
      | Some e => http_Error (error_text e) 403 None d1
      | None =>
          let eni := Instance_ENI instance in
          let plumbed := Some (MkPlumbed vpc subnet eni (hr_PID request) (hr_ContainerID request)) in
          match he_ensure env vpc subnet eni with
          | Some e => http_Error (error_text e) 500 plumbed d1
          | None =>
              let d2 := execute_all (he_others env) d1 in
              match store_GetInstance (he_fault2 env) "default" (Instance_ID instance) d2 with
              | Ok current =>
                  if negb (Instance_Generation current =? Instance_Generation instance) ||
                     Instance_DeletionRequested current || (Instance_RuntimeID current !=? hr_ContainerID request)
                  then http_Error "instance desired state changed during plumbing" 409 plumbed d2
                  else MkHookOutcome 204 "" plumbed d2
              | Err _ => http_Error "instance desired state changed during plumbing" 409 plumbed d2
              end
          end
      end
  end.

Definition hookHandler (env : HookEnv) (data : list Z) (d : DB) : HookOutcome :=
  match decode_first (take MaxStateBytes data) with
  | None => http_Error "invalid hook request" 400 None d
  | Some (v, rest) =>
      match dec_strict field_HookRequest v (MkHookRequest "" "" 0) with
      | Err _ => http_Error "invalid hook request" 400 None d
      | Ok request =>
          if negb (at_EOF rest && (length data <=? MaxStateBytes)%nat) then http_Error "trailing hook request" 400 None d
          else
            match validate request with
            | Err e => http_Error (error_text e) 400 None d
            | Ok _ => hook_plumb env request d
            end
      end
  end.

(** The hook and the daemon together; the socket may fail before or after the daemon
    handled the request. *)
Definition delivered (lost : option error) (env : HookEnv) (d : DB) (data : list Z) : result (Z * list Z) :=
  let out := hookHandler env data d in
  match lost with
  | Some e => Err e
  | None => Ok (ho_status out, bytes (ho_body out))
  end.

(** ** When a request is granted *)
Definition ready_subnet (s : Subnet) : Prop :=
  Subnet_DeletionRequested s = false ∧ Subnet_State s = "available" ∧ Subnet_ObservedGeneration s = Subnet_Generation s.
Definition ready_vpc (v : VPC) : Prop :=
  VPC_DeletionRequested v = false ∧ VPC_State v = "available" ∧ VPC_ObservedGeneration v = VPC_Generation v.

(** The instance of a request, and what is plumbed into its container. *)
Record live (d : DB) (r : HookRequest) (row : InstanceRow) (p : Plumbed) : Prop := {
  lv_instance : instances d !! hr_InstanceID r = Some row;
  lv_wanted : i_DeletionRequested row = 0;
  lv_runtime : i_RuntimeID row = Some (hr_ContainerID r);
  lv_subnet : ∃ srow, subnets d !! i_SubnetID row = Some srow ∧ subnetFromRow srow = Ok (pl_Subnet p) ∧
    ready_subnet (pl_Subnet p);
  lv_vpc : ∃ vrow, vpcs d !! Subnet_VPCID (pl_Subnet p) = Some vrow ∧ vpcFromRow vrow = Ok (pl_VPC p) ∧
    ready_vpc (pl_VPC p);
  lv_eni : ∃ eid e i, eni_of d (hr_InstanceID r) eid e ∧ instanceOfRows row e = Ok i ∧ pl_ENI p = Instance_ENI i;
  lv_target : pl_PID p = hr_PID r ∧ pl_Container p = hr_ContainerID r
}.
(** The instance is still wanted as it was. *)
Definition still (d : DB) (r : HookRequest) (row : InstanceRow) : Prop :=
  ∃ row', instances d !! hr_InstanceID r = Some row' ∧ i_Generation row' = i_Generation row ∧
    i_DeletionRequested row' = 0 ∧ i_RuntimeID row' = Some (hr_ContainerID r).

Lemma containerID_nonempty c : containerID c = true → c ≠ "".
Proof. by intros H ->. Qed.
Lemma validate_Ok r u :
  validate r = Ok u → containerID (hr_ContainerID r) = true ∧ instanceID (hr_InstanceID r) = true ∧ 0 < hr_PID r.
Proof.
  unfold validate. intros H%require_Ok. rewrite negb_true_iff, !orb_false_iff, !negb_false_iff in H.
  destruct H as [[Hi Hc] Hp%Z.leb_gt]. by split_and!.
Qed.

Lemma runtime_known (o : option string) c : c ≠ "" → default "" o = c → o = Some c.
Proof. destruct o; simpl; [by intros ? ->|by intros ? <-]. Qed.

Lemma hook_tx_live r d s i sn v s' :
  Inv d → containerID (hr_ContainerID r) = true → tx_db s = d → hook_tx r s = (Ok (i, sn, v), s') →
  tx_db s' = d ∧ ∃ row, live d r row (MkPlumbed v sn (Instance_ENI i) (hr_PID r) (hr_ContainerID r)) ∧
    Instance_ID i = hr_InstanceID r ∧ Instance_Generation i = i_Generation row.
Proof.
  intros I Hc%containerID_nonempty <- H. unfold hook_tx in H.
  run H as i0 s1 Hi. run H as u s2 Hg. run H as sn0 s3 Hs. run H as v0 s4 Hv. run H as u' s5 Hg'.
  apply ret_Ok in H as [E ->]. injection E as -> -> ->. apply guard_tx_Ok in Hg as [Hg ->], Hg' as [Hg' ->].
  apply GetInstance_inv in Hi as (row & eid & e & Hrow & Hws & He & Hei & Hew & Hof & E1).
  apply GetSubnet_inv in Hs as (srow & Hsrow & _ & Hsn & E2). apply GetVPC_inv in Hv as (vrow & Hvrow & _ & Hvv & E3).
  rewrite E2, E1 in Hvrow. rewrite E1 in Hsrow. split; [congruence|]. exists row.
  pose proof Hof as (a & _ & _ & Ei)%instanceOfRows_inv. rewrite Ei in Hg, Hsrow |- *. cbn in Hg, Hsrow |- *.
  rewrite negb_true_iff, !orb_false_iff, !negb_false_iff in Hg. rewrite negb_true_iff, !orb_false_iff, !negb_false_iff in Hg'.
  destruct Hg as [Hdel%Z.eqb_eq Hrt]. destruct Hg' as [[[[[Hd1 Hd2] Hs1] Hv1] Hs2%Z.eqb_eq] Hv2%Z.eqb_eq].
  apply (proj1 (beq_true _ _)) in Hrt, Hs1, Hv1. destruct (inv_i _ I _ _ Hrow) as [Eid _ _ _ _ _ _].
  split_and!; [|done|done]. split; cbn; eauto using runtime_known.
  - exists srow. by split_and!.
  - exists vrow. by split_and!.
  - exists eid, e, i. split_and!; [split; congruence|done|by rewrite Ei].
Qed.

(** A transaction without faults grants what is live. *)
Lemma hook_tx_runs r d row p :
  Inv d → live d r row p →
  ∃ i, runs (hook_tx r) d (i, pl_Subnet p, pl_VPC p) d ∧ pl_ENI p = Instance_ENI i ∧
    Instance_ID i = hr_InstanceID r ∧ Instance_Generation i = i_Generation row.
Proof.
  intros I [Hrow Hdel Hrt (srow & Hsrow & Hsn & Hs1 & Hs2 & Hs3) (vrow & Hvrow & Hv & Hv1 & Hv2 & Hv3) (eid & e & i & He & Hi & ->) _].
  exists i. pose proof Hi as (a & _ & _ & Ei)%instanceOfRows_inv. destruct (inv_i d I _ _ Hrow) as [Eid _ _ _ _ _ _].
  split; [|rewrite Ei; by split_and!]. unfold hook_tx.
  eapply runs_bind; [by eapply GetInstance_runs|]. eapply runs_bind.
  { apply runs_guard. rewrite Ei. cbn. rewrite Hdel, Hrt. cbn. by rewrite beq_refl. }
  eapply runs_bind.
  { unfold tx_GetSubnet. eapply runs_bind; [|by apply runs_lift]. apply runs_wrapping, runs_read, q_GetSubnet_hit; [by rewrite Ei|].
    by destruct (inv_s d I _ _ Hsrow). }
  eapply runs_bind.
  { unfold tx_GetVPC. eapply runs_bind; [|by apply runs_lift]. apply runs_wrapping, runs_read, q_GetVPC_hit; [done|].
    by destruct (inv_v d I _ _ Hvrow). }
  eapply runs_bind; [|apply runs_ret]. apply runs_guard. rewrite Hs1, Hs2, Hs3, Hv1, Hv2, Hv3, !Z.eqb_refl.
  unfold StateAvailable. by rewrite beq_refl.
Qed.

(** ** The handler *)
Lemma hook_plumb_sound env r d :
  Inv d → containerID (hr_ContainerID r) = true →
  let out := hook_plumb env r d in
  (ho_db out = d ∨ ho_db out = execute_all (he_others env) d) ∧
  (ho_status out = 204 → is_Some (ho_plumbed out)) ∧
  ∀ p, ho_plumbed out = Some p →
    ∃ row, live d r row p ∧ he_open env (pl_PID p) (pl_Container p) = None ∧
      (ho_status out = 204 → he_ensure env (pl_VPC p) (pl_Subnet p) (pl_ENI p) = None ∧ still (ho_db out) r row).
Proof.
  intros I Hc. unfold hook_plumb. destruct (WithTx _ _ d) as [[[[i sn] v]|e] d1] eqn:E.
  2: { apply WithTx_Err in E as ->. simpl. split_and!; [by left|done|done]. }
  apply WithTx_Ok in E as (s & s' & Es & Htx & ->).
  destruct (hook_tx_live r d s i sn v s' I Hc Es Htx) as (Hd & row & Hl & Hid & Hgen). rewrite Hd.
  destruct (he_open env _ _) as [e|] eqn:Ho; [simpl; split_and!; [by left|done|done]|].
  destruct (he_ensure env _ _ _) as [e|] eqn:He.
  { simpl. split_and!; [by left|done|]. intros p [= <-]. exists row. by split_and!. }
  destruct (store_GetInstance _ _ _ _) as [current|e] eqn:Eg.
  2: { simpl. split_and!; [by right|done|]. intros p [= <-]. exists row. by split_and!. }
  destruct (_ || _) eqn:Eb; simpl; (split_and!; [by right|done|]); intros p [= <-]; exists row; (split_and!; [done|done|]); [done|].
  intros _. split; [done|]. rewrite !orb_false_iff, !negb_false_iff in Eb.
  destruct Eb as [[Eg1%Z.eqb_eq Eg2] Eg3%(proj1 (beq_true _ _))].
  destruct (store_GetInstance_found _ _ _ _ Eg) as (row' & n & Hrow' & (a & _ & _ & Ecur)%instanceOfRows_inv).
  exists row'. rewrite <- Hid. rewrite Ecur in Eg1, Eg2, Eg3. cbn in Eg1, Eg2, Eg3. split_and!; [done|congruence| |].
  - by apply negb_false_iff, Z.eqb_eq in Eg2.
  - apply runtime_known; [by apply containerID_nonempty|done].
Qed.

Lemma hook_plumb_complete env r d row p :
  Inv d → he_fault env = None → he_fault2 env = None → live d r row p → he_open env (pl_PID p) (pl_Container p) = None →
  he_ensure env (pl_VPC p) (pl_Subnet p) (pl_ENI p) = None → still (execute_all (he_others env) d) r row →
  hook_plumb env r d = MkHookOutcome 204 "" (Some p) (execute_all (he_others env) d).
Proof.
  intros I Hf1 Hf2 Hl Ho He (row' & Hrow' & Hgen & Hdel & Hrt). unfold hook_plumb.
  destruct (hook_tx_runs r d row p I Hl) as (i & Hruns & Eeni & Hid & Eg). rewrite Hf1, (runs_WithTx _ _ _ _ Hruns).
  destruct (lv_target _ _ _ _ Hl) as [Hpid Hcont]. rewrite Hpid, Hcont in Ho. rewrite Ho, <- Eeni, He, Hf2, Hid.
  set (d2 := execute_all _ d) in *. assert (Inv d2) as I2 by by apply execute_all_steps.
  destruct (inv_has_eni d2 I2 _ row' Hrow') as (eid & e & Hn). destruct (instance_total d2 _ row' eid e I2 Hrow' Hn) as [cur Hcur].
  rewrite (store_GetInstance_runs d2 _ row' eid e cur I2 Hrow' Hn Hcur).
  apply instanceOfRows_inv in Hcur as (a & _ & _ & ->). cbn. rewrite Hgen, Eg, Hdel, Hrt, Z.eqb_refl. cbn. rewrite beq_refl. cbn.
  f_equal. f_equal. destruct p. simpl in *. congruence.
Qed.

(** ** The way of a request *)
Lemma length_quoted l : (length (quoted l) ≤ 6 * length l + 2)%nat.
Proof.
  unfold quoted. cbn [length]. rewrite length_app. cbn [length].
  assert (length (quoted_runes (decode l)) ≤ 6 * length l)%nat; [|lia].
  induction l as [|b0 l r l' E IH] using decode_ind; [simpl; lia|]. rewrite decode_cons, E. cbn [quoted_runes].
  rewrite length_app, (decode_rune_bytes _ _ _ _ E), length_app. pose proof (decode_rune_nonempty _ _ _ _ E) as Hne.
  assert (1 ≤ length (r_bytes r))%nat by (destruct (r_bytes r); simpl; [done|lia]).
  assert (length (quoted_rune r) ≤ 6 * length (r_bytes r))%nat; [|lia].
  unfold quoted_rune. repeat case_match; simpl; lia.
Qed.

Lemma format_digits_fuel fuel n acc : (String.length (format_digits fuel n acc) ≤ fuel + String.length acc)%nat.
Proof.
  revert n acc. induction fuel as [|fuel IH]; intros n acc; cbn [format_digits]; [lia|].
  destruct (n <? 10); [simpl; lia|]. etrans; [apply IH|]. simpl. lia.
Qed.
Lemma length_FormatInt n : (String.length (FormatInt n) ≤ 21)%nat.
Proof.
  unfold FormatInt. destruct (n <? 0); [|etrans; [apply format_digits_fuel|simpl; lia]].
  rewrite length_string_app. pose proof (format_digits_fuel 20 (- n) "") as H. cbn [String.length] in *. lia.
Qed.

Lemma matches_hex_shape prefix n s :
  ascii7 prefix → matches_hex prefix n s = true → ascii7 s ∧ String.length s = (String.length prefix + n)%nat.
Proof.
  unfold matches_hex. intros Hp H. destruct (CutPrefix s prefix) as [hex|] eqn:E; [|done].
  apply andb_true_iff in H as [Hn%Nat.eqb_eq Hh]. apply CutPrefix_Some in E as ->. rewrite length_string_app, Hn. split; [|done].
  apply ascii7_app; [done|]. apply Forall_forall. intros b Hb%list_elem_of_In. rewrite forallb_forall in Hh. apply Hh in Hb.
  unfold is_hex_lower, is_digit in Hb. apply orb_true_iff in Hb as [Hb|Hb]; reflect_bools; lia.
Qed.

Lemma hook_request_fits r :
  validate r = Ok tt → (length (encode (enc_HookRequest r)) ≤ 1000)%nat.
Proof.
  intros (Hc & Hi & _)%validate_Ok. apply matches_hex_shape in Hc as [_ Hc], Hi as [_ Hi]; [|by apply ascii7_lit..].
  unfold enc_HookRequest, enc_string, enc_int64. cbn [encode List.map sep_by fst snd]. repeat (rewrite length_app || cbn [length]).
  pose proof (length_quoted (bytes (hr_InstanceID r))) as H1. pose proof (length_quoted (bytes (hr_ContainerID r))) as H2.
  pose proof (length_FormatInt (hr_PID r)) as H3. rewrite length_bytes in H1, H2. rewrite length_bytes.
  change (length (quoted (bytes "instance_id"))) with 13%nat. change (length (quoted (bytes "container_id"))) with 14%nat.
  change (length (quoted (bytes "pid"))) with 5%nat. simpl in Hc, Hi. lia.
Qed.

Lemma hook_request_wf r : validate r = Ok tt → int64 (hr_PID r) → wf (enc_HookRequest r).
Proof.
  intros (Hc & Hi & _)%validate_Ok Hp. apply matches_hex_shape in Hc as [Hc _], Hi as [Hi _]; [|by apply ascii7_lit..].
  apply wf_obj. repeat (apply Forall_cons_2 || apply Forall_nil_2); (split; [by apply utf8_name|]).
  - by apply wf_enc_string, ascii_text8.
  - by apply wf_enc_string, ascii_text8.
  - by apply wf_enc_int64.
Qed.

Lemma hook_request_read r :
  int64 (hr_PID r) → dec_strict field_HookRequest (enc_HookRequest r) (MkHookRequest "" "" 0) = Ok r.
Proof.
  intros Hp. destruct r as [a b c]. unfold enc_HookRequest. cbn [hr_InstanceID hr_ContainerID hr_PID] in *.
  unfold dec_strict; cbn [fold_left fst snd]; unfold field_HookRequest; eval_names. cbn [mbind result_bind].
  repeat (rewrite dec_enc_string; cbn [mbind result_bind]). by rewrite dec_enc_int64.
Qed.

(** The daemon reads what the hook writes. *)
Lemma hook_request_arrives env r d :
  validate r = Ok tt → int64 (hr_PID r) → hookHandler env (encode (enc_HookRequest r)) d = hook_plumb env r d.
Proof.
  intros Hv Hp. pose proof (hook_request_fits r Hv) as Hl. pose proof (hook_request_wf r Hv Hp) as Hwf.
  pose proof (wf_writable _ Hwf) as [Hw Hr]. unfold hookHandler.
  assert (length (encode (enc_HookRequest r)) ≤ MaxStateBytes)%nat as Hm
    by (etrans; [exact Hl|]; apply Nat.leb_le; vm_compute; reflexivity).
  rewrite take_ge by done. assert (decode_first (encode (enc_HookRequest r)) = Some (enc_HookRequest r, [])) as ->.
  { unfold decode_first. rewrite <- (app_nil_r (encode (enc_HookRequest r))) at 2. rewrite <- Hr at 3.
    apply parse_value_written; [done|pose proof (size_encode _ Hw); lia| |done]. apply Nat.leb_le. vm_compute. reflexivity. }
  rewrite hook_request_read by done. rewrite (proj2 (Nat.leb_le _ _)) by done. cbn [at_EOF skip_space]. unfold at_EOF.
  rewrite bool_decide_eq_true_2 by done. simpl negb. cbv iota. by rewrite Hv.
Qed.

Lemma ParseInt_range s n : ParseInt s = Some n → int64 n.
Proof.
  assert (∀ l v n, 0 ≤ v → parse_digits l v = Some n → 0 ≤ n) as Hdig.
  { clear. intros l. induction l as [|b l IH]; intros v n Hv; simpl; [by intros [= <-]|].
    unfold is_digit. destruct (_ && _) eqn:E; [|done]. reflect_bools. apply IH. lia. }
  assert (∀ s n, ParseUint s 64 = Some n → 0 ≤ n) as Hpos.
  { intros s0 n0. unfold ParseUint. destruct (_ ==? _); [done|]. destruct (parse_digits _ _) as [m|] eqn:E; [|done].
    destruct (_ <? _); [|done]. intros [= <-]. by eapply Hdig. }
  unfold ParseInt, int64. intros H. repeat case_match; simplify_eq;
    repeat match goal with H : ParseUint _ _ = Some _ |- _ => apply Hpos in H end; reflect_bools; lia.
Qed.

(** The process identifier of a request is an [int]. *)
Lemma dec_struct_keeps {T} (P : T → Prop) (field : list Z → option (json → T → result T)) v x y :
  (∀ key set v x y, field key = Some set → P x → set v x = Ok y → P y) → P x → dec_struct field v x = Ok y → P y.
Proof.
  intros Hf Hx. destruct v; simpl; try done; [by intros [= <-]|].
  revert x Hx. induction fields as [|f fs IH]; intros x Hx; simpl; [by intros [= <-]|].
  destruct (field f.1) as [set|] eqn:E; [|by apply IH]. destruct (set f.2 x) as [x'|e] eqn:Es; [apply IH; by eapply Hf|].
  clear. induction fs; [done|]. done.
Qed.

Lemma DecodeState_Ok stdin r : DecodeState stdin = Ok r → validate r = Ok tt ∧ int64 (hr_PID r).
Proof.
  unfold DecodeState. intros H. apply bind_Ok in H as (all & _ & H). apply bind_Ok in H as (u & _ & H).
  apply bind_Ok in H as ([v rest] & _ & H). apply bind_Ok in H as (state & Hst%wrap_err_Ok & H).
  apply bind_Ok in H as (u' & _ & H). apply bind_Ok in H as ([] & Hv & [= <-]). split; [done|]. simpl.
  apply (dec_struct_keeps (λ x, int64 (st_PID x)) field_OCIState v zero_OCIState); [|cbn; unfold int64; lia|exact Hst].
  intros key set v' x y Hf Hx Hy. unfold field_OCIState in Hf. repeat case_match; simplify_eq; destruct x; simpl in *; inv_ok; subst; try done.
  simpl. unfold dec_int64 in *. repeat case_match; simplify_eq; [done|]. inv_ok. by eapply ParseInt_range.
Qed.

Lemma delivered_Ok lost env d data response :
  delivered lost env d data = Ok response → response.1 = ho_status (hookHandler env data d).
Proof. unfold delivered. destruct lost; [done|]. by intros [= <-]. Qed.

(** C25: The container hook admits exactly the containers of live instances.  Whatever
    arrives at the daemon's socket, the engine is asked to plumb an interface only into
    the process of a container that is recorded as the runtime of an instance that is
    not being terminated, whose subnet and VPC are available as declared, with that
    instance's own interface.  The hook command lets a container start (returns without
    error) only if the daemon plumbed the instance named in the container's state and
    the instance was still wanted and owned the container afterwards; and it does when
    all this holds and nothing fails. *)
Theorem hook_admits_exactly env d :
  Inv d →
  (∀ data p, ho_plumbed (hookHandler env data d) = Some p →
     ∃ r row, validate r = Ok tt ∧ live d r row p ∧ he_open env (pl_PID p) (pl_Container p) = None) ∧
  (∀ lost stdin socket, run (delivered lost env d) stdin socket = Ok tt →
     ∃ r row p, DecodeState stdin = Ok r ∧ live d r row p ∧ he_open env (pl_PID p) (pl_Container p) = None ∧
       he_ensure env (pl_VPC p) (pl_Subnet p) (pl_ENI p) = None ∧
       let out := hookHandler env (encode (enc_HookRequest r)) d in
       ho_status out = 204 ∧ ho_plumbed out = Some p ∧ still (ho_db out) r row) ∧
  (∀ stdin r row p, DecodeState stdin = Ok r → live d r row p → he_open env (pl_PID p) (pl_Container p) = None →
     he_ensure env (pl_VPC p) (pl_Subnet p) (pl_ENI p) = None → still (execute_all (he_others env) d) r row →
     he_fault env = None → he_fault2 env = None →
     run (delivered None env d) stdin "/run/nephos/hook.sock" = Ok tt).
Proof.
  intros I. split_and!.
  - intros data p. unfold hookHandler. destruct (decode_first _) as [[v rest]|]; [|done].
    destruct (dec_strict _ _ _) as [r|e]; [|done]. destruct (negb _); [done|]. destruct (validate r) as [[]|e] eqn:Hv; [|done].
    intros Hp. pose proof (validate_Ok _ _ Hv) as (Hc & _). destruct (hook_plumb_sound env r d I Hc) as (_ & _ & Hs).
    destruct (Hs p Hp) as (row & Hl & Ho & _). eauto.
  - intros lost stdin socket H. unfold run in H. apply bind_Ok in H as (r & Hst & H).
    destruct (DecodeState_Ok _ _ Hst) as [Hv Hpid]. unfold Plumb in H. rewrite Hv in H. cbn [mbind result_bind] in H.
    apply bind_Ok in H as (u & _ & H). apply bind_Ok in H as (response & Hresp%wrap_err_Ok & H%require_Ok%Z.eqb_eq).
    rewrite (delivered_Ok _ _ _ _ _ Hresp) in H. pose proof (hook_request_arrives env r d Hv Hpid) as Ea. rewrite Ea in H. pose proof (validate_Ok _ _ Hv) as (Hc & _).
    destruct (hook_plumb_sound env r d I Hc) as (_ & Hsome & Hs). destruct (Hsome H) as [p Hp].
    destruct (Hs p Hp) as (row & Hl & Ho & Hgood). destruct (Hgood H) as [He Hstill].
    exists r, row, p. cbv zeta. rewrite Ea. by split_and!.
  - intros stdin r row p Hst Hl Ho He Hstill Hf1 Hf2. destruct (DecodeState_Ok _ _ Hst) as [Hv Hpid].
    unfold run, Plumb. rewrite Hst. cbn [mbind result_bind]. rewrite Hv. cbn [mbind result_bind].
    change (HasPrefix "/run/nephos/hook.sock" "/" && negb (strings_Contains "/run/nephos/hook.sock" "://")) with true.
    cbn [require mbind result_bind]. unfold delivered. rewrite hook_request_arrives by done.
    by rewrite (hook_plumb_complete env r d row p).
Qed.

(** An instance whose network is there and whose container was created. *)
Definition hook_container : string := of_bytes (replicate 64 97).
Definition hook_pending : DB := execute_all (take 2 demo_ops ++ take 1 (drop 3 demo_ops)) initialDB.
Definition hook_db : DB :=
  match store_GetVPC None "default" demo_vpc hook_pending, mapM subnetFromRow (by_id (subnets hook_pending)) with
  | Ok v, Ok children =>
      execute_all [OpRecordTopology None None 1500 v children None;
                   OpRecordRuntimeID None (demo_instance "04") 1 hook_container] hook_pending
  | _, _ => hook_pending
  end.
Definition hook_state : json :=
  JObj [(bytes "ociVersion", enc_string "1.0.2"); (bytes "id", enc_string hook_container); (bytes "pid", enc_int64 42);
        (bytes "annotations", JObj [(bytes instanceAnnotation, enc_string (demo_instance "04"))])].
Definition calm_hook : HookEnv := MkHookEnv None (λ _ _, None) (λ _ _ _, None) [] None.

(** Witness: the container may start, and a container of the same instance that is not
    the recorded one may not. *)
Lemma hook_admits_witness :
  run (delivered None calm_hook hook_db) (Ok (encode hook_state)) "/run/nephos/hook.sock" = Ok tt ∧
  ho_status (hookHandler calm_hook (encode (enc_HookRequest
    (MkHookRequest (demo_instance "04") (of_bytes (replicate 64 98)) 42))) hook_db) = 409 ∧
  ∃ r row p, DecodeState (Ok (encode hook_state)) = Ok r ∧ live hook_db r row p ∧
    ho_plumbed (hookHandler calm_hook (encode (enc_HookRequest r)) hook_db) = Some p.
Proof.
  assert (run (delivered None calm_hook hook_db) (Ok (encode hook_state)) "/run/nephos/hook.sock" = Ok tt) as Hrun
    by (vm_compute; reflexivity).
  split; [exact Hrun|]. split; [vm_compute; reflexivity|].
  destruct (hook_admits_exactly calm_hook hook_db) as (_ & Hs & _).
  - unfold hook_db. destruct (store_GetVPC _ _ _ _) as [v|e]; [destruct (mapM _ _) as [l|e]|];
      repeat first [apply initial_Inv|apply execute_all_steps].
  - destruct (Hs _ _ _ Hrun) as (r & row & p & Hr & Hl & _ & _ & _ & Hp & _). exists r, row, p.
    split; [exact Hr|]. split; [exact Hl|exact Hp].
Defined.
