(* ===== verification/Podman.v ===== *)
(** The Podman client: [internal/compute/podman], [client.go], [instance.go] and
    [exec.go], as programs over the HTTP exchanges and the connections they make.

    Errors of the transport are replies, given by their text; so is a redirect, which
    [http.Client] reports as an error.  A result that comes with an error is dropped, as every
    caller does. *)

From S2P Require Import Prelude Errors GoStrings Encodings Utf8 NetIP Url Model Json Snapshot Store Client Requests Programs.
From S2P Require Import InstanceReconcile Hook.
Local Open Scope Z_scope.

(** ** Calls *)
Inductive pcall :=
  | Do (r : httpRequest) (* [http.Client.Do], and the body as far as it can be read *)
  | DialContext (socket : string) (* whether the connection is a [net.UnixConn] *)
  | SetDeadline (zero : bool)
  | WriteRequest (r : httpRequest)
  | ReadResponse
  | ConnClose
  | CloseWrite
  | Done_ (* [select] of the context and the end of the stream: [ctx.Err()] *)
  | Tick. (* [select] of the context and the ticker *)
#[export] Instance podman_calls : Signature pcall := λ c,
  match c with
  | Do _ => (string + Z * list Z)%type
  | ReadResponse => result (Z * list Z)
  | DialContext _ => result bool
  | SetDeadline _ | WriteRequest _ | ConnClose | CloseWrite => result unit
  | Done_ | Tick => option error
  end.
Abbreviation P := (prog pcall).

(** ** Requests *)
Definition apiPath : string := "/v5.4.2/libpod".
(** [APIError] of a method, a path and the detail. *)
Definition api_error (status : Z) (method path detail : string) : error :=
  ErrAPI (MkAPIError status (Sprintf "Podman %s %s: HTTP %d: %s" [method; path; FormatInt status; detail])).
Definition isStatus (e : error) (status : Z) : bool :=
  match as_API e with Some a => ae_Status a =? status | None => false end.

(** The guard of [dial]. *)
Definition socket_path (socket : string) : result unit :=
  require (HasPrefix socket "/" && negb (strings_Contains socket "://"))
    (Errorf (lit "podman requires an absolute Unix socket path")).
Definition dial (socket : string) : P (result bool) :=
  checked (socket_path socket) (λ _,
  got_as (lit "dial private Podman socket: %w") (call (DialContext socket)) (λ unix : bool, mret (Ok unix))).
(** How [http.Client] wraps an error. *)
Definition urlErrorOp (method : string) : string :=
  match bytes method with [] => "Get" | c :: l => of_bytes (c :: (lower <$> l)) end.
(** [c.http.Do]: its transport has no other way out than [dial]. *)
Definition http_Do (socket : string) (r : httpRequest) : P (result (Z * list Z)) :=
  checked (wrap_err (Sprintf "%s %q: %w" [urlErrorOp (hr_Method r); of_bytes (URL_String (hr_URL r))]) (socket_path socket)) (λ _,
  reply ← call (Do r); mret (match reply : string + Z * list Z with inl detail => Err (ErrIO detail) | inr resp => Ok resp end)).

(** The request of a method and a path. *)
Definition new_request (method path : string) (body : list Z) : result httpRequest :=
  r ← http_NewRequest method (bytes ("http://podman" +:+ apiPath +:+ path)) body;
  Ok (with_header (Header_Set "Content-Type" "application/json") r).
Definition raw_body (body : option json) : list Z := match body with Some v => encode v | None => [] end.
Definition refused (status : Z) : bool := (status <? 200) || ((300 <=? status) && negb (status =? 304)).
Definition maxReply : nat := Z.to_nat (2 ^ 20).
(** [json.NewDecoder(...).Decode] of the first value. *)
Definition decode_reply {T} (dec : json → T → result T) (zero : T) (body : list Z) : result T :=
  first ← of_option syntaxError (decode_first (take maxReply body)); dec first.1 zero.
(** [out] is [None] when there is nothing to decode. *)
Definition request {T} (socket method path : string) (body : option json) (out : option (json → T → result T)) (zero : T)
    : P (result T) :=
  checked (new_request method path (raw_body body)) (λ req,
  got_as (Sprintf "podman %s %s: %w" [method; path]) (http_Do socket req) (λ resp,
  let '(status, data) := resp in
  if refused status
  then mret (Err (api_error status method path (TrimSpace (of_bytes (take 4096 data)))))
  else match out with
       | None => mret (Ok zero)
       | Some dec => mret (wrap_err (Sprintf "decode Podman %s: %w" [path]) (decode_reply dec zero data))
       end)).
Definition command (socket method path : string) (body : option json) : P (result unit) :=
  request socket method path body None tt.

(** ** Containers *)
Definition image : string := "nephos-ubuntu:dev".
Definition instanceLabel : string := "io.nephos.instance-id".
Definition instanceIDPattern : string → bool := matches_hex "i-" 17.
Definition runtimeIDPattern : string → bool := matches_hex "" 64.

Record containerInspect := MkInspect {
  ci_ID : string; ci_Name : string; ci_Labels : gmap string string; ci_Annotations : gmap string string; ci_Running : bool
}.
Definition zero_inspect : containerInspect := MkInspect "" "" ∅ ∅ false.
Definition field_Config (key : list Z) : option (json → containerInspect → result containerInspect) :=
  if is_field "Labels" key then Some (λ v '(MkInspect a b c d e), m ← dec_annotations v c; Ok (MkInspect a b m d e))
  else if is_field "Annotations" key then Some (λ v '(MkInspect a b c d e), m ← dec_annotations v d; Ok (MkInspect a b c m e))
  else None.
Definition field_State (key : list Z) : option (json → containerInspect → result containerInspect) :=
  if is_field "Running" key then Some (λ v '(MkInspect a b c d e), r ← dec_bool v e; Ok (MkInspect a b c d r)) else None.
Definition field_inspect (key : list Z) : option (json → containerInspect → result containerInspect) :=
  if is_field "Id" key then Some (λ v '(MkInspect a b c d e), s ← dec_string v a; Ok (MkInspect s b c d e))
  else if is_field "Name" key then Some (λ v '(MkInspect a b c d e), s ← dec_string v b; Ok (MkInspect a s c d e))
  else if is_field "Config" key then Some (dec_struct field_Config)
  else if is_field "State" key then Some (dec_struct field_State)
  else None.
Definition dec_inspect : json → containerInspect → result containerInspect := dec_struct field_inspect.

(** A missing key reads as the empty string. *)
Definition label (m : gmap string string) (key : string) : string := default "" (m !! key).
Definition owned (doc : containerInspect) : result unit :=
  if negb (instanceIDPattern (ci_Name doc)) || negb (runtimeIDPattern (ci_ID doc)) ||
     (label (ci_Labels doc) "io.nephos.managed" !=? "true") || (label (ci_Labels doc) "io.nephos.workspace-id" !=? "default") ||
     (label (ci_Labels doc) instanceLabel !=? ci_Name doc) || (label (ci_Annotations doc) instanceLabel !=? ci_Name doc)
  then Err (Errorf (Sprintf "refusing foreign Podman container %q" [ci_Name doc])) else Ok tt.
Definition inspectOwned (socket id : string) : P (result containerInspect) :=
  checked (require (runtimeIDPattern id) (Errorf (lit "invalid runtime ID"))) (λ _,
  got (request socket "GET" ("/containers/" +:+ id +:+ "/json") None (Some dec_inspect) zero_inspect) (λ doc,
  checked (owned doc) (λ _,
  if ci_ID doc !=? id then mret (Err (Errorf (lit "runtime identity changed"))) else mret (Ok doc)))).

Definition EnsureImage (socket ref : string) : P (result unit) :=
  if ref !=? image then mret (Err (Errorf (Sprintf "unsupported M1 image %q" [ref])))
  else got_as (lit "development AMI must be built and imported locally: %w")
         (command socket "GET" ("/images/" +:+ of_bytes (PathEscape (bytes ref)) +:+ "/exists") None) (λ _, mret (Ok tt)).

Definition discover (socket name : string) : P (result string) :=
  got (request socket "GET" ("/containers/" +:+ name +:+ "/json") None (Some dec_inspect) zero_inspect) (λ doc,
  checked (owned doc) (λ _,
  if ci_Name doc !=? name then mret (Err (Errorf (lit "foreign container name collision"))) else mret (Ok (ci_ID doc)))).

(** An object of string values; [json.Marshal] writes the keys of a map in order. *)
Definition enc_map (l : list (string * json)) : json := JObj ((λ '(k, v), (bytes k, v)) <$> l).
Definition enc_strings (l : list (string * string)) : json := enc_map ((λ '(k, v), (k, enc_string v)) <$> l).
Definition spec (id : string) : json := enc_map [
  ("annotations", enc_strings [(instanceLabel, id)]);
  ("cap_add", JArr [enc_string "NET_ADMIN"]);
  ("idmappings", enc_map [("AutoUserNs", JBool true); ("AutoUserNsOpts", enc_map [("Size", enc_int64 65536)]);
     ("HostGIDMapping", JBool false); ("HostUIDMapping", JBool false)]);
  ("image", enc_string image);
  ("labels", enc_strings [(instanceLabel, id); ("io.nephos.managed", "true"); ("io.nephos.workspace-id", "default")]);
  ("name", enc_string id);
  ("netns", enc_strings [("nsmode", "none")]);
  ("privileged", JBool false);
  ("resource_limits", enc_map [("cpu", enc_map [("period", enc_int64 100000); ("quota", enc_int64 200000)]);
     ("memory", enc_map [("limit", enc_int64 (2 ^ 30))]); ("pids", enc_map [("limit", enc_int64 512)])]);
  ("seccomp_policy", enc_string "default");
  ("sysctl", enc_strings [("net.ipv4.ping_group_range", "0 65535")]);
  ("systemd", enc_string "always");
  ("userns", enc_strings [("nsmode", "auto"); ("value", "size=65536")])].
(** The reply that carries only an ID. *)
Definition dec_ID : json → string → result string :=
  dec_struct (λ key, if is_field "Id" key then Some dec_string else None).
(** Creating the container that is not there; another request may have won. *)
Definition createNew (socket id : string) : P (result string) :=
  created ← request socket "POST" "/containers/create" (Some (spec id)) (Some dec_ID) "";
  match created with
  | Err e => if isStatus e 409 then discover socket id else mret (Err e)
  | Ok rid =>
      if negb (runtimeIDPattern rid) then mret (Err (Errorf (lit "podman returned an invalid container ID"))) else mret (Ok rid)
  end.
Definition Create (socket : string) (instance : Instance_) : P (result string) :=
  if negb (instanceIDPattern (Instance_ID instance)) || (Instance_WorkspaceID instance !=? "default") ||
     (Instance_InstanceType instance !=? "t3.micro")
  then mret (Err (Errorf (lit "invalid M1 instance runtime request")))
  else
    found ← discover socket (Instance_ID instance);
    match found with
    | Ok id => mret (Ok id)
    | Err e => if negb (isStatus e 404) then mret (Err e) else createNew socket (Instance_ID instance)
    end.

Definition Start (socket id : string) : P (result unit) :=
  got (inspectOwned socket id) (λ _, command socket "POST" ("/containers/" +:+ id +:+ "/start") None).
(** A 404 counts as done. *)
Definition gone (r : result unit) : result unit :=
  match r with Err e => if isStatus e 404 then Ok tt else Err e | Ok _ => Ok tt end.
Definition Delete (socket id : string) : P (result unit) :=
  doc ← inspectOwned socket id;
  match doc with
  | Err e => mret (gone (Err e))
  | Ok _ =>
      r ← command socket "DELETE" ("/containers/" +:+ id +:+ "?force=true&v=true&timeout=0") None; mret (gone r)
  end.
Definition Inspect (socket id : string) : P (result RuntimeStatus) :=
  got (inspectOwned socket id) (λ doc, mret (Ok (MkRuntimeStatus (ci_Running doc)))).

(** ** Console sessions *)

(** [compute.ExecRequest] *)
Record ExecRequest := MkExecRequest { er_Command : list string; er_TTY : bool; er_Rows : Z; er_Cols : Z }.
Definition validateExec (req : ExecRequest) : result unit :=
  if match er_Command req with c :: _ => c ==? "" | [] => true end
  then Err (Errorf (lit "exec requires a nonempty command"))
  else if existsb (λ arg, bool_decide (0 ∈ bytes arg)) (er_Command req)
  then Err (Errorf (lit "exec arguments cannot contain NUL"))
  else if er_TTY req && ((er_Rows req =? 0) || (er_Cols req =? 0))
  then Err (Errorf (lit "TTY requires nonzero dimensions"))
  else if negb (er_TTY req) && (negb (er_Rows req =? 0) || negb (er_Cols req =? 0))
  then Err (Errorf (lit "non-TTY exec cannot have dimensions"))
  else Ok tt.

Definition removeExec (socket sid : string) : P (result unit) :=
  r ← command socket "POST" ("/exec/" +:+ sid +:+ "/remove") (Some (enc_map [("Force", JBool true)])); mret (gone r).
Definition enc_exec (req : ExecRequest) : json :=
  enc_map [("Cmd", JArr (enc_string <$> er_Command req)); ("Tty", JBool (er_TTY req)); ("AttachStdin", JBool true);
           ("AttachStdout", JBool true); ("AttachStderr", JBool true)].
Definition enc_start (req : ExecRequest) : json :=
  enc_map [("Detach", JBool false); ("Tty", JBool (er_TTY req)); ("Height", enc_int64 (er_Rows req)); ("Width", enc_int64 (er_Cols req))].
Definition bad_session (sid : string) : bool :=
  (sid ==? "") || existsb (one_of ("/?#" +:+ String (Ascii.ascii_of_N 0) "")) (bytes sid).

(** The session that [Exec] hands out: its identity and whether it is a terminal. *)
Record execSession := MkExecSession { es_id : string; es_tty : bool }.

(** The upgrade of the connection, up to the new session. *)
Definition attach (sid : string) (req : ExecRequest) (unix : bool) : P (result execSession) :=
  got (call (SetDeadline false)) (λ _ : unit,
  checked (new_request "POST" ("/exec/" +:+ sid +:+ "/start") (encode (enc_start req))) (λ start,
  let start := with_header (λ h, Header_Set "Upgrade" "tcp" (Header_Set "Connection" "Upgrade" h)) start in
  got_as (lit "start exec stream: %w") (call (WriteRequest start)) (λ _ : unit,
  got_as (lit "read exec upgrade: %w") (call ReadResponse) (λ response : Z * list Z,
  if negb (response.1 =? 101)
  then mret (Err (api_error response.1 "POST" (of_bytes (u_Path (hr_URL start))) (of_bytes (take 4096 response.2))))
  else
    got (call (SetDeadline true)) (λ _ : unit,
    if unix then mret (Ok (MkExecSession sid (er_TTY req)))
    else mret (Err (Errorf (lit "exec requires a Unix connection")))))))).
(** The deferred cleanup: a session that is not handed out is removed. *)
Definition attached (socket sid : string) (req : ExecRequest) : P (result execSession) :=
  conn ← dial socket;
  match conn with
  | Err e => _ ← removeExec socket sid; mret (Err e)
  | Ok unix =>
      r ← attach sid req unix;
      match r with
      | Ok s => mret (Ok s)
      | Err e => _ ← call ConnClose; _ ← removeExec socket sid; mret (Err e)
      end
  end.
Definition Exec (socket id : string) (req : ExecRequest) : P (result execSession) :=
  checked (validateExec req) (λ _,
  got (inspectOwned socket id) (λ doc,
  if negb (ci_Running doc) then mret (Err (Errorf (lit "instance is not running")))
  else
    got (request socket "POST" ("/containers/" +:+ id +:+ "/exec") (Some (enc_exec req)) (Some dec_ID) "") (λ sid,
    if bad_session sid then mret (Err (Errorf (lit "invalid exec session ID")))
    else attached socket sid req))).

Definition Resize (socket : string) (s : execSession) (rows cols : Z) : P (result unit) :=
  if negb (es_tty s) || (rows =? 0) || (cols =? 0)
  then mret (Err (Errorf (lit "resize requires a TTY and nonzero dimensions")))
  else command socket "POST" ("/exec/" +:+ es_id s +:+ "/resize?h=" +:+ FormatInt rows +:+ "&w=" +:+ FormatInt cols) None.

Record execStatus := MkExecStatus { xs_Running : bool; xs_ExitCode : option Z }.
Definition dec_status : json → execStatus → result execStatus :=
  dec_struct (λ key,
    if is_field "Running" key then Some (λ v '(MkExecStatus a b), r ← dec_bool v a; Ok (MkExecStatus r b))
    else if is_field "ExitCode" key then Some (λ v '(MkExecStatus a b),
      match v with JNull => Ok (MkExecStatus a None) | _ => n ← dec_int64 v 0; Ok (MkExecStatus a (Some n)) end)
    else None).
(** The polling loop; [None] while it goes on after [fuel] polls. *)
Fixpoint poll (fuel : nat) (socket : string) (s : execSession) : P (option (result Z)) :=
  match fuel with
  | O => mret None
  | S fuel' =>
      r ← request socket "GET" ("/exec/" +:+ es_id s +:+ "/json") None (Some dec_status) (MkExecStatus false None);
      match r with
      | Err e => mret (Some (Err e))
      | Ok status =>
          if negb (xs_Running status) then
            mret (Some (match xs_ExitCode status with
                        | Some code => if (code <? 0) || (255 <? code) then Err (Errorf (lit "exec finished without a valid exit status")) else Ok code
                        | None => Err (Errorf (lit "exec finished without a valid exit status"))
                        end))
          else
            e ← call Tick;
            match e : option error with Some e => mret (Some (Err e)) | None => poll fuel' socket s end
      end
  end.
(** [streamErr] is what the output ended with; the first [select] and the test of
    the context after it are one call. *)
Definition Wait (fuel : nat) (socket : string) (s : execSession) (streamErr : option error) : P (option (result Z)) :=
  e ← call Done_;
  match e : option error, streamErr with
  | Some e, _ | None, Some e => mret (Some (Err e))
  | None, None => poll fuel socket s
  end.

(** [Close] runs once; [closed] is what it returned. *)
Definition Close (socket : string) (s : execSession) (closed : option (result unit)) : P (result unit * option (result unit)) :=
  match closed with
  | Some r => mret (r, closed)
  | None => _ ← call ConnClose; r ← removeExec socket (es_id s); mret (r, Some r)
  end.
(** [execInput.Close] *)
Definition closeInput (closed : option (result unit)) : P (result unit * option (result unit)) :=
  match closed with
  | Some r => mret (r, closed)
  | None => r ← call CloseWrite; mret (r, Some r)
  end.

(** ** Output *)
Definition io_EOF : error := ErrIO "EOF".
Definition io_ErrUnexpectedEOF : error := ErrIO "unexpected EOF".
(** A stream: its bytes, and the error after them. *)
Record stream := MkStream { sr_data : list Z; sr_last : error }.
(** A pipe: what went into it, and how many bytes it takes before its reader is gone. *)
Record pipe := MkPipe { pp_written : list Z; pp_room : option (nat * error) }.

Definition ReadFull (n : nat) (s : stream) : result (list Z * stream) :=
  if (n <=? length (sr_data s))%nat then Ok (take n (sr_data s), MkStream (drop n (sr_data s)) (sr_last s))
  else Err (if bool_decide (sr_data s ≠ []) && (sr_last s ==? io_EOF) then io_ErrUnexpectedEOF else sr_last s).
Definition pipe_write (p : pipe) (data : list Z) : pipe * option error :=
  match pp_room p with
  | Some (room, e) =>
      if (length (pp_written p) + length data <=? room)%nat then (MkPipe (pp_written p ++ data) (pp_room p), None)
      else (MkPipe (pp_written p ++ take (room - length (pp_written p)) data) (pp_room p), Some e)
  | None => (MkPipe (pp_written p ++ data) None, None)
  end.
Definition CopyN (p : pipe) (s : stream) (n : Z) : pipe * result stream :=
  let payload := take (Z.to_nat n) (sr_data s) in
  match pipe_write p payload with
  | (p', Some e) => (p', Err e)
  | (p', None) =>
      (p', if Z.of_nat (length payload) <? n then Err (sr_last s)
           else Ok (MkStream (drop (Z.to_nat n) (sr_data s)) (sr_last s)))
  end.
(** [io.Copy] to the pipe, until the stream ends. *)
Definition Copy (p : pipe) (s : stream) : pipe * option error :=
  match pipe_write p (sr_data s) with
  | (p', Some e) => (p', Some e)
  | (p', None) => (p', if sr_last s ==? io_EOF then None else Some (sr_last s))
  end.

Definition headerError : error := Errorf (lit "invalid exec stream header").
(** Which of the two pipes a header names, and the size of the payload. *)
Definition frame_header (header : list Z) : result (bool * Z) :=
  let at_ i := nth i header 0 in
  if negb (at_ 1%nat =? 0) || negb (at_ 2%nat =? 0) || negb (at_ 3%nat =? 0) then Err headerError
  else if at_ 0%nat =? 1 then Ok (true, bytes_value (drop 4 header))
  else if at_ 0%nat =? 2 then Ok (false, bytes_value (drop 4 header))
  else Err (Errorf (Sprintf "invalid exec stream channel %d" [FormatInt (at_ 0%nat)])).
(** Every frame takes its header from the stream, so its length is fuel enough. *)
Fixpoint demux (fuel : nat) (s : stream) (stdout stderr : pipe) : pipe * pipe * option error :=
  match fuel with
  | O => (stdout, stderr, None)
  | S fuel' =>
      match ReadFull 8 s with
      | Err e =>
          (stdout, stderr, if errors_Is e io_EOF then None else Some (Wrapf (lit "exec stream header: %w") e))
      | Ok (header, s') =>
          match frame_header header with
          | Err e => (stdout, stderr, Some e)
          | Ok (out, size) =>
              let '(p, r) := CopyN (if out then stdout else stderr) s' size in
              let '(stdout', stderr') := if out then (p, stderr) else (stdout, p) in
              match r with
              | Err e => (stdout', stderr', Some (Wrapf (lit "exec stream payload: %w") e))
              | Ok s'' => demux fuel' s'' stdout' stderr'
              end
          end
      end
  end.
(** [readOutput]: the pipes and [streamErr]. *)
Definition readOutput (tty : bool) (s : stream) (stdout stderr : pipe) : pipe * pipe * option error :=
  if tty then let '(p, e) := Copy stdout s in (p, stderr, e)
  else demux (S (length (sr_data s))) s stdout stderr.
