(* ===== verification/PodmanSafety.v ===== *)
(** What the Podman client does to containers, whatever Podman answers, and how it
    splits a console's output. *)

From S2P Require Import Prelude Errors GoStrings Encodings Utf8 NetIP Url Model Json Snapshot Store Client Requests.
From S2P Require Import InstanceReconcile Hook Podman Programs.
Local Open Scope Z_scope.

Abbreviation history := (list (event pcall)).

(** ** Errors that are no [APIError] *)
Class Plain {A} (r : result A) : Prop := plain e : r = Err e → as_API e = None.
#[export] Instance plain_Ok {A} (a : A) : Plain (Ok a).
Proof. by intros e [=]. Qed.
#[export] Instance plain_Errorf {A} t : Plain (Err (Errorf t) : result A).
Proof. by intros e [= <-]. Qed.
#[export] Instance plain_require b t : Plain (require b (Errorf t)).
Proof. by destruct b; intros e [= <-]. Qed.
#[export] Instance plain_of_option {A} t (o : option A) : Plain (of_option (Errorf t) o).
Proof. by destruct o; intros e [= <-]. Qed.
Lemma plain_bind {A B} (r : result A) (f : A → result B) : Plain r → (∀ a, Plain (f a)) → Plain (r ≫= f).
Proof. intros Hr Hf e. destruct r as [a|e']; cbn; [apply Hf|]. intros [= <-]. by apply Hr. Qed.
Lemma plain_wrap {A} t (r : result A) : Plain r → Plain (wrap_err t r).
Proof. intros Hr e. destruct r as [a|e']; cbn; [done|]. intros [= <-]. exact (Hr e' eq_refl). Qed.
Create HintDb plain discriminated.
#[export] Hint Resolve plain_Ok plain_Errorf plain_require plain_of_option plain_wrap : plain.
(** Through binds and case distinctions. *)
Ltac plains := repeat (
  match goal with
  | |- Plain (_ ≫= _) => apply plain_bind; [|intros]
  | |- Plain (let '_ := ?x in _) => destruct x
  | |- Plain (match ?x with _ => _ end) => destruct x
  | |- Plain (if ?b then _ else _) => destruct b
  | |- Plain _ => first [solve [auto with plain nocore] | solve [unfold escapeError, hostError, portError, literalError, typeError, syntaxError; auto with plain nocore]]
  end).

Lemma plain_unescape mode s : Plain (unescape mode s).
Proof.
  assert (∀ n s, (length s ≤ n)%nat → Plain (unescape mode s)) as H; [|by eapply H].
  clear s. induction n as [|n IH]; intros [|c s] Hs; cbn [unescape length] in *; [auto with plain..|lia|auto with plain|].
  repeat match goal with
  | |- Plain (match ?x with _ => _ end) => destruct x
  end; cbv zeta; try (unfold escapeError, hostError; auto with plain; fail); cbn [length] in *;
  try (apply plain_bind; [apply IH; lia|auto with plain]).
  all: repeat case_match; try (unfold escapeError; auto with plain; fail); apply plain_bind; [apply IH; lia|auto with plain].
Qed.
#[export] Hint Resolve plain_unescape : plain.
Lemma plain_getScheme_from first l : Plain (getScheme_from first l).
Proof. revert first. induction l as [|c l IH]; intros first; cbn [getScheme_from]; plains; auto with plain. Qed.
#[export] Hint Resolve plain_getScheme_from : plain.
Lemma plain_parseHost host : Plain (parseHost host).
Proof. unfold parseHost. plains. Qed.
#[export] Hint Resolve plain_parseHost : plain.
Lemma plain_parseAuthority a : Plain (parseAuthority a).
Proof. unfold parseAuthority. plains. Qed.
Lemma plain_setPath u p : Plain (setPath u p).
Proof. unfold setPath. plains. Qed.
#[export] Hint Resolve plain_parseAuthority plain_setPath : plain.
Lemma plain_parse via raw : Plain (Url.parse via raw).
Proof. unfold Url.parse, getScheme, parse_rest. plains. Qed.
#[export] Hint Resolve plain_parse : plain.
Lemma plain_Parse raw : Plain (Parse raw).
Proof. unfold Parse. plains. Qed.
#[export] Hint Resolve plain_Parse : plain.
Lemma plain_new_request method path body : Plain (new_request method path body).
Proof. unfold new_request, http_NewRequest. plains. Qed.

Abbreviation PlainDec dec := (∀ v x, Plain (dec v x)).
Lemma plain_fold {T X} (f : T → X → result T) l x : (∀ t x, Plain (f t x)) → Plain (fold_left (λ acc y, t ← acc; f t y) l (Ok x)).
Proof.
  intros Hf. assert (∀ r, Plain r → Plain (fold_left (λ acc y, t ← acc; f t y) l r)) as H; [|by apply H, plain_Ok].
  induction l as [|y l IH]; intros r Hr; cbn [fold_left]; [done|]. apply IH. by apply plain_bind.
Qed.
Lemma plain_struct {T} (field : list Z → option (json → T → result T)) :
  (∀ key set, field key = Some set → PlainDec set) → PlainDec (dec_struct field).
Proof.
  intros Hf v x. unfold dec_struct. destruct v; try (unfold typeError; auto with plain; fail).
  apply (plain_fold (λ x' f, match field f.1 with Some set => set f.2 x' | None => Ok x' end)).
  intros t f. destruct (field f.1) eqn:E; [by eapply Hf|auto with plain].
Qed.
Lemma plain_annotations : PlainDec dec_annotations.
Proof.
  intros v x. unfold dec_annotations. destruct v; try (unfold typeError; auto with plain; fail).
  apply (plain_fold (λ x' f, s ← dec_string f.2 ""; Ok (<[of_bytes f.1 := s]> x'))). intros t f. unfold dec_string. plains.
Qed.
#[export] Hint Resolve plain_annotations : plain.
Ltac plain_fields := intros ? ? E; repeat case_match; simplify_eq; intros ? ?; unfold dec_string, dec_bool, dec_int64; plains.
Lemma plain_inspect : PlainDec dec_inspect.
Proof.
  apply plain_struct. unfold field_inspect. intros key set E. repeat case_match; simplify_eq;
    [intros ? ?; unfold dec_string; plains..|apply plain_struct; unfold field_Config; plain_fields|apply plain_struct; unfold field_State; plain_fields].
Qed.
Lemma plain_ID : PlainDec dec_ID.
Proof. apply plain_struct. plain_fields. Qed.
Lemma plain_status : PlainDec dec_status.
Proof. apply plain_struct. plain_fields. Qed.

(** ** Requests *)
(** The reply that a request got, and what a request came to. *)
Definition got_reply (t : history) (method path : string) (body : list Z) (status : Z) (data : list Z) : Prop :=
  ∃ r, new_request method path body = Ok r ∧ Ev (Do r) (inr (status, data)) ∈ t.
Definition fails {T A} (t t' : history) (method path : string) (body : list Z) (out : option (json → T → result T)) (zero : T)
    (r : result A) (e : error) : Prop :=
  r = Err e ∧ (∀ status, isStatus e status = true → ∃ data, got_reply t' method path body status data) ∧
  ∀ r status data, t' = t ++ [Ev (Do r) (inr (status, data))] → refused status = false →
    ∃ dec, out = Some dec ∧ is_Ok (decode_reply dec zero data) = false.
Definition comes_to {T} (t : history) (method path : string) (body : list Z) (out : option (json → T → result T)) (zero x : T) : Prop :=
  ∃ status data, got_reply t method path body status data ∧ refused status = false ∧
    match out with Some dec => decode_reply dec zero data = Ok x | None => x = zero end.

Lemma plain_status_of {A} (r : result A) e status : Plain r → r = Err e → isStatus e status = false.
Proof. intros Hr He. unfold isStatus. by rewrite (Hr e He). Qed.

Ltac wp_do := match goal with |- wp ?a (call ?c) ?t ?Q => refine (wp_call a c t Q _ _) end.
Ltac in_hist :=
  first
    [ assumption
    | apply list_elem_of_singleton; reflexivity
    | apply elem_of_app; right; in_hist
    | apply elem_of_app; left; in_hist ].

(** An exchange, as a plain value. *)
Definition exchange (e : event pcall) : option (httpRequest * (string + Z * list Z)) :=
  match e with Ev (Do r) b => Some (r, b) | _ => None end.
Lemma exchange_Some e r b : exchange e = Some (r, b) → e = Ev (Do r) b.
Proof. destruct e as [[] ?]; try done. by intros [= -> ->]. Qed.
Lemma snoc_exchange (t : history) r b r' b' : t ++ [Ev (Do r) b] = t ++ [Ev (Do r') b'] → r = r' ∧ b = b'.
Proof. intros H%(inj (app t)). apply (f_equal (fmap exchange)) in H. by injection H as -> ->. Qed.

(** The history after a request: one exchange more, unless it cannot be made. *)
Definition unsendable (socket method path : string) (body : list Z) : Prop :=
  ∀ r, new_request method path body = Ok r → socket_path socket ≠ Ok tt.
Definition after (socket method path : string) (body : list Z) (t t' : history) : Prop :=
  (t' = t ∧ unsendable socket method path body) ∨ ∃ r b, new_request method path body = Ok r ∧ t' = t ++ [Ev (Do r) b].
Lemma after_prefix socket method path body t t' : after socket method path body t t' → t `prefix_of` t'.
Proof. intros [[-> _]|(r & b & _ & ->)]; [done|]. by apply prefix_app_r. Qed.

Section requests.
Context (allowed : history → pcall → Prop) (socket : string).
Lemma request_wp {T} method path body (out : option (json → T → result T)) zero t (Q : history → result T → Prop) :
  (∀ dec, out = Some dec → PlainDec dec) →
  (∀ r, new_request method path (raw_body body) = Ok r → allowed t (Do r)) →
  (∀ t' r e, after socket method path (raw_body body) t t' → fails t t' method path (raw_body body) out zero r e → Q t' r) →
  (∀ t' x, after socket method path (raw_body body) t t' → comes_to t' method path (raw_body body) out zero x → Q t' (Ok x)) →
  wp allowed (request socket method path body out zero) t Q.
Proof.
  intros Hout Ha He Ho. unfold request. apply wp_checked; [intros r Hr|intros e E; eapply He; [left; split; [done|]|]].
  2: { intros r Hr. by rewrite E in Hr. }
  2: { split; [done|]. split; [|intros ??? Hl%(f_equal length); rewrite length_app in Hl; cbn in Hl; lia].
       intros status Hs. by rewrite (plain_status_of _ _ _ (plain_new_request _ _ _) E) in Hs. }
  apply wp_got_as. unfold http_Do. apply wp_checked; [intros _ _|intros e E; eapply He; [left; split; [done|]|]].
  2: { intros r' _ Hs. by rewrite Hs in E. }
  2: { split; [done|]. split; [|intros ??? Hl%(f_equal length); rewrite length_app in Hl; cbn in Hl; lia].
       intros status Hs. assert (Plain (socket_path socket)) as Hp by (unfold socket_path; auto with plain).
       apply (plain_status_of _ _ status (plain_wrap _ _ Hp)) in E. unfold isStatus in *. cbn [as_API] in Hs. by rewrite E in Hs. }
  apply wp_bind. wp_do; [by apply Ha|]. intros b.
  assert (after socket method path (raw_body body) t (t ++ [Ev (Do r) b])) as Haf by (right; eauto).
  destruct b as [detail|[status data]]; apply wp_ret; cbv beta iota.
  { eapply He; [done|]. split; [done|]. split; [done|]. intros ??? [_ [=]]%snoc_exchange. }
  assert (got_reply (t ++ [Ev (Do r) (inr (status, data))]) method path (raw_body body) status data) as Hg by (exists r; split; [done|in_hist]).
  destruct (refused status) eqn:Er.
  { apply wp_ret. eapply He; [done|]. split; [done|]. split; [intros status' Hs; cbn in Hs; apply Z.eqb_eq in Hs as <-; eauto|].
    intros ??? [_ [= <- <-]]%snoc_exchange. congruence. }
  destruct out as [dec|]; apply wp_ret; [|apply Ho; [done|]; exists status, data; done].
  destruct (decode_reply dec zero data) as [x|e] eqn:Ed; cbn [wrap_err].
  - apply Ho; [done|]. exists status, data. done.
  - eapply He; [done|]. split; [done|]. split; [|intros ??? [_ [= <- <-]]%snoc_exchange _; exists dec; by rewrite Ed]. intros status' Hs.
    assert (Plain (decode_reply dec zero data)) as Hp.
    { unfold decode_reply, syntaxError. apply plain_bind; [auto with plain|]. intros a. by apply Hout. }
    apply (plain_status_of _ _ status' Hp) in Ed. unfold isStatus in *. cbn [as_API] in Hs. by rewrite Ed in Hs.
Qed.
Lemma command_wp method path body t (Q : history → result unit → Prop) :
  (∀ r, new_request method path (raw_body body) = Ok r → allowed t (Do r)) →
  (∀ t' r e, after socket method path (raw_body body) t t' → fails t t' method path (raw_body body) None tt r e → Q t' r) →
  (∀ t', after socket method path (raw_body body) t t' → comes_to t' method path (raw_body body) None tt tt → Q t' (Ok tt)) →
  wp allowed (command socket method path body) t Q.
Proof. intros Ha He Ho. apply request_wp; [done|done|done|]. intros t' []. apply Ho. Qed.
End requests.

Lemma new_request_Ok method path body r :
  new_request method path body = Ok r → hr_Method r = method ∧ hr_Body r = body.
Proof. unfold new_request, http_NewRequest. intros H. by inv_ok; subst. Qed.

(** ** Containers *)

(** The container that was looked up is one of ours. *)
Definition inspect_path (id : string) : string := "/containers/" +:+ id +:+ "/json".
Definition looked_up (t : history) (id : string) (doc : containerInspect) : Prop :=
  comes_to t "GET" (inspect_path id) [] (Some dec_inspect) zero_inspect doc ∧ owned doc = Ok tt.
Definition verified (t : history) (id : string) (doc : containerInspect) : Prop :=
  runtimeIDPattern id = true ∧ looked_up t id doc ∧ ci_ID doc = id.
Definition absent (t : history) (id : string) : Prop := ∃ data, got_reply t "GET" (inspect_path id) [] 404 data.
(** A console session that Podman opened. *)
Definition opened (t : history) (id : string) (req : ExecRequest) (sid : string) : Prop :=
  comes_to t "POST" ("/containers/" +:+ id +:+ "/exec") (encode (enc_exec req)) (Some dec_ID) "" sid ∧ bad_session sid = false.
Definition force : list Z := encode (enc_map [("Force", JBool true)]).
Definition removal (sid : string) : string := "/exec/" +:+ sid +:+ "/remove".

Inductive operation :=
  | OpEnsureImage (ref : string) | OpCreate (instance : Instance_) | OpStart (id : string) | OpDelete (id : string)
  | OpInspect (id : string) | OpExec (id : string) (req : ExecRequest).
(** The requests that an operation may make after [t], besides reading. *)
Definition permitted (op : operation) (t : history) (method path : string) (body : list Z) : Prop :=
  match op with
  | OpEnsureImage _ | OpInspect _ => False
  | OpCreate i => method = "POST" ∧ path = "/containers/create" ∧ body = encode (spec (Instance_ID i)) ∧
      instanceIDPattern (Instance_ID i) = true ∧ absent t (Instance_ID i)
  | OpStart id => method = "POST" ∧ path = "/containers/" +:+ id +:+ "/start" ∧ body = [] ∧ ∃ doc, verified t id doc
  | OpDelete id => method = "DELETE" ∧ path = "/containers/" +:+ id +:+ "?force=true&v=true&timeout=0" ∧ body = [] ∧
      ∃ doc, verified t id doc
  | OpExec id req => method = "POST" ∧
      ((path = "/containers/" +:+ id +:+ "/exec" ∧ body = encode (enc_exec req) ∧ validateExec req = Ok tt ∧
        ∃ doc, verified t id doc ∧ ci_Running doc = true) ∨
       ∃ sid, opened t id req sid ∧ path = removal sid ∧ body = force)
  end.
Definition podman_allowed (socket : string) (op : operation) (t : history) (c : pcall) : Prop :=
  match c with
  | Do r => ∃ method path body, new_request method path body = Ok r ∧
      ((method = "GET" ∧ body = []) ∨ permitted op t method path body)
  | DialContext s => s = socket ∧ socket_path s = Ok tt
  | WriteRequest r => ∃ id req sid start, op = OpExec id req ∧ opened t id req sid ∧
      new_request "POST" ("/exec/" +:+ sid +:+ "/start") (encode (enc_start req)) = Ok start ∧
      hr_URL r = hr_URL start ∧ hr_Body r = hr_Body start
  | SetDeadline _ | ReadResponse | ConnClose => True
  | CloseWrite | Done_ | Tick => False
  end.

Lemma got_reply_prefix t t' method path body status data :
  t `prefix_of` t' → got_reply t method path body status data → got_reply t' method path body status data.
Proof. intros Hp (r & Hr & Hin). exists r. split; [done|]. by eapply prefix_elem. Qed.
Lemma verified_prefix t t' id doc : t `prefix_of` t' → verified t id doc → verified t' id doc.
Proof.
  intros Hp (H1 & ((status & data & Hg & H2) & H3) & H4). split; [done|]. split; [|done]. split; [|done].
  exists status, data. split; [by eapply got_reply_prefix|done].
Qed.
Lemma absent_prefix t t' id : t `prefix_of` t' → absent t id → absent t' id.
Proof. intros Hp (data & Hg). exists data. by eapply got_reply_prefix. Qed.

Section operations.
Context (socket : string) (op : operation).
Let allowed := podman_allowed socket op.

Lemma reading_allowed t path r : new_request "GET" path [] = Ok r → allowed t (Do r).
Proof. intros H. exists "GET", path, []. split; [done|]. by left. Qed.

(** After [inspectOwned]: one reading. *)
Definition read_once (id : string) (t t' : history) : Prop := t' = t ∨ after socket "GET" (inspect_path id) [] t t'.
Lemma inspectOwned_wp id t (Q : history → result containerInspect → Prop) :
  (∀ t' e, read_once id t t' → (isStatus e 404 = true → absent t' id) → Q t' (Err e)) →
  (∀ t' doc, read_once id t t' → verified t' id doc → Q t' (Ok doc)) →
  wp allowed (inspectOwned socket id) t Q.
Proof.
  intros He Ho. unfold inspectOwned.
  assert (∀ t' s, read_once id t t' → Q t' (Err (Errorf s))) as Hs by (intros; by apply He).
  apply wp_checked; [intros _ Hid%require_Ok|intros e E; destruct (runtimeIDPattern id); cbn in E; simplify_eq; by apply Hs; left].
  apply wp_got, request_wp.
  - intros dec [= <-]. apply plain_inspect.
  - intros r Hr. by eapply reading_allowed.
  - intros t' r e Haf (-> & Hf & _). apply He; [by right|]. intros H404. by apply Hf.
  - intros t' doc Haf Hc. apply wp_checked.
    + intros [] Hown. destruct (ci_ID doc ==? id) eqn:Eid; cbn [negb]; apply wp_ret.
      * apply (proj1 (beq_true _ _)) in Eid. apply Ho; [by right|]. by split.
      * apply Hs. by right.
    + intros e Hown. unfold owned in Hown. case_match; simplify_eq. apply Hs. by right.
Qed.
Lemma discover_wp id t (Q : history → result string → Prop) :
  (∀ t' e, t `prefix_of` t' → (isStatus e 404 = true → absent t' id) → Q t' (Err e)) →
  (∀ t' doc, t `prefix_of` t' → looked_up t' id doc → ci_Name doc = id → Q t' (Ok (ci_ID doc))) →
  wp allowed (discover socket id) t Q.
Proof.
  intros He Ho. unfold discover. apply wp_got, request_wp.
  - intros dec [= <-]. apply plain_inspect.
  - intros r Hr. by eapply reading_allowed.
  - intros t' r e Haf%after_prefix (-> & Hf & _). apply He; [done|]. intros H404. by apply Hf.
  - intros t' doc Haf%after_prefix Hc. apply wp_checked.
    + intros [] Hown. destruct (ci_Name doc ==? id) eqn:Eid; cbn [negb]; apply wp_ret.
      * apply (proj1 (beq_true _ _)) in Eid. by apply Ho.
      * by apply He.
    + intros e Hown. unfold owned in Hown. case_match; simplify_eq. by apply He.
Qed.
End operations.

Lemma read_once_prefix socket id t t' : read_once socket id t t' → t `prefix_of` t'.
Proof. intros [->|H]; [done|by eapply after_prefix]. Qed.

(** What holds when an operation succeeds. *)
Definition started (t : history) (id : string) : Prop :=
  ∃ doc, verified t id doc ∧ comes_to t "POST" ("/containers/" +:+ id +:+ "/start") [] None tt tt.
Definition deletion (id : string) : string := "/containers/" +:+ id +:+ "?force=true&v=true&timeout=0".
Definition deleted (t : history) (id : string) : Prop :=
  absent t id ∨
  ∃ doc status data, verified t id doc ∧ got_reply t "DELETE" (deletion id) [] status data ∧ (refused status = false ∨ status = 404).
Definition made (t : history) (id rid : string) : Prop :=
  runtimeIDPattern rid = true ∧
  ((∃ doc, looked_up t id doc ∧ ci_Name doc = id ∧ ci_ID doc = rid) ∨
   (absent t id ∧ comes_to t "POST" "/containers/create" (encode (spec id)) (Some dec_ID) "" rid)).

Lemma EnsureImage_wp socket ref t :
  wp (podman_allowed socket (OpEnsureImage ref)) (EnsureImage socket ref) t (λ _ r, r = Ok tt → ref = image).
Proof.
  unfold EnsureImage. destruct (ref ==? image) eqn:E; cbn [negb]; [|by apply wp_ret]. apply (proj1 (beq_true _ _)) in E.
  apply wp_got_as, command_wp; [intros r Hr; by eapply reading_allowed|by intros ? ? ? _ [-> _]|intros; by apply wp_ret].
Qed.
Lemma Start_wp socket id t :
  wp (podman_allowed socket (OpStart id)) (Start socket id) t (λ t' r, r = Ok tt → started t' id).
Proof.
  unfold Start. apply wp_got, inspectOwned_wp; [done|]. intros t1 doc Hr1 Hv. apply command_wp.
  - intros r Hr. exists "POST", ("/containers/" +:+ id +:+ "/start"), []. split; [done|]. right. split_and!; [done..|]. by exists doc.
  - by intros ? ? ? _ [-> _].
  - intros t2 Ha%after_prefix Hc _. exists doc. split; [by eapply verified_prefix|done].
Qed.
Lemma Podman_Delete_wp socket id t :
  wp (podman_allowed socket (OpDelete id)) (Delete socket id) t (λ t' r, r = Ok tt → deleted t' id).
Proof.
  unfold Delete. apply wp_bind, inspectOwned_wp.
  - intros t1 e _ H404. apply wp_ret. unfold gone. destruct (isStatus e 404) eqn:E; [|done]. intros _. left. by apply H404.
  - intros t1 doc _ Hv. apply wp_bind, command_wp.
    + intros r Hr. exists "DELETE", (deletion id), []. split; [done|]. right. split_and!; [done..|]. by exists doc.
    + intros t2 r e Ha%after_prefix (-> & Hf & _). apply wp_ret. unfold gone. destruct (isStatus e 404) eqn:E; [|done]. intros _.
      destruct (Hf 404 E) as (data & Hg). right. exists doc, 404, data. split; [by eapply verified_prefix|]. by eauto.
    + intros t2 Ha%after_prefix (status & data & Hg & Hs & _). apply wp_ret. intros _. right. exists doc, status, data.
      split; [by eapply verified_prefix|]. by eauto.
Qed.
Lemma Inspect_wp socket id t :
  wp (podman_allowed socket (OpInspect id)) (Inspect socket id) t (λ t' r,
    ∀ st, r = Ok st → ∃ doc, verified t' id doc ∧ Running st = ci_Running doc).
Proof.
  unfold Inspect. apply wp_got, inspectOwned_wp; [done|]. intros t1 doc _ Hv. apply wp_ret. intros st [= <-]. by exists doc.
Qed.
Lemma owned_runtimeID doc : owned doc = Ok tt → runtimeIDPattern (ci_ID doc) = true.
Proof.
  unfold owned. destruct (_ || _) eqn:E; [done|]. intros _. rewrite !orb_false_iff, !negb_false_iff in E. naive_solver.
Qed.
Lemma made_found t id doc : looked_up t id doc → ci_Name doc = id → made t id (ci_ID doc).
Proof. intros H Hn. split; [by apply owned_runtimeID, H|]. left. eauto. Qed.
Lemma Create_wp socket i t :
  wp (podman_allowed socket (OpCreate i)) (Create socket i) t (λ t' r, ∀ rid, r = Ok rid → made t' (Instance_ID i) rid).
Proof.
  unfold Create. destruct (_ || _) eqn:E; [by apply wp_ret|]. rewrite !orb_false_iff, negb_false_iff in E. destruct E as [[Hid _] _].
  apply wp_bind, discover_wp.
  - intros t1 e _ H404. destruct (isStatus e 404) eqn:Es; cbn [negb]; [|by apply wp_ret]. specialize (H404 eq_refl).
    unfold createNew. apply wp_bind, request_wp.
    + intros dec [= <-]. apply plain_ID.
    + intros r Hr. eexists _, _, _. split; [exact Hr|]. right. done.
    + intros t2 r e' Ha%after_prefix [-> _]. destruct (isStatus e' 409); [|by apply wp_ret]. apply discover_wp; [done|].
      intros t3 doc _ Hl Hn rid [= <-]. by apply made_found.
    + intros t2 rid Ha%after_prefix Hc. destruct (runtimeIDPattern rid) eqn:Er; apply wp_ret; [|done]. intros rid' [= <-].
      split; [done|]. right. split; [by eapply absent_prefix|done].
  - intros t1 doc _ Hl Hn. apply wp_ret. intros rid [= <-]. by apply made_found.
Qed.

(** ** Console sessions *)
Definition removed (socket : string) (t : history) (sid : string) : Prop :=
  unsendable socket "POST" (removal sid) force ∨ ∃ r b, new_request "POST" (removal sid) force = Ok r ∧ Ev (Do r) b ∈ t.
Lemma removed_prefix socket t t' sid : t `prefix_of` t' → removed socket t sid → removed socket t' sid.
Proof. intros Hp [H|(r & b & Hr & Hin)]; [by left|]. right. exists r, b. split; [done|]. by eapply prefix_elem. Qed.

Section exec.
Context (socket id : string) (req : ExecRequest).
Let allowed := podman_allowed socket (OpExec id req).
Let exec_body := encode (enc_exec req).

(** Whether an event opens a session. *)
Definition opens (e : event pcall) (sid : string) : Prop :=
  ∃ r status data, new_request "POST" ("/containers/" +:+ id +:+ "/exec") exec_body = Ok r ∧ e = Ev (Do r) (inr (status, data)) ∧
    refused status = false ∧ decode_reply dec_ID "" data = Ok sid ∧ bad_session sid = false.
Lemma opened_iff t sid : opened t id req sid ↔ ∃ e, e ∈ t ∧ opens e sid.
Proof.
  split.
  - intros [(status & data & (r & Hr & Hin) & Hs & Hd) Hb]. exists (Ev (Do r) (inr (status, data))). split; [done|]. by exists r, status, data.
  - intros (? & Hin & r & status & data & Hr & -> & Hs & Hd & Hb). split; [|done]. exists status, data. split; [by exists r|done].
Qed.
Lemma opened_snoc t e sid : opened (t ++ [e]) id req sid → opened t id req sid ∨ opens e sid.
Proof.
  rewrite !opened_iff. intros (e' & [Hin|Hin]%elem_of_app & Ho); [left; eauto|]. apply list_elem_of_singleton in Hin as ->. by right.
Qed.
Lemma opens_other method path body r b sid :
  new_request method path body = Ok r → method ≠ "POST" ∨ body ≠ exec_body → ¬ opens (Ev (Do r) b) sid.
Proof.
  intros [Hm Hb]%new_request_Ok Hne (r' & status & data & [Hm' Hb']%new_request_Ok & E & _).
  apply (f_equal exchange) in E. injection E as -> _. naive_solver.
Qed.
Lemma opens_silent c b sid : (∀ r, c ≠ Do r) → ¬ opens (Ev c b) sid.
Proof. intros Hc (r & status & data & _ & E & _). apply (f_equal ev_call) in E. cbn in E. by eapply Hc. Qed.
Lemma opens_unique e sid sid' : opens e sid → opens e sid' → sid = sid'.
Proof.
  intros (r & status & data & _ & -> & _ & Hd & _) (r' & status' & data' & _ & E & _ & Hd' & _).
  apply (f_equal exchange) in E. injection E as _ _ ->. congruence.
Qed.
Lemma force_other : force ≠ exec_body.
Proof. intros H%(f_equal (λ l, nth 2 l 0)). lazy in H. discriminate. Qed.

(** At most this session has been opened. *)
Definition only (t : history) (sid : string) : Prop := opened t id req sid ∧ ∀ sid', opened t id req sid' → sid' = sid.
Lemma only_snoc t e sid : (∀ sid', ¬ opens e sid') → only t sid → only (t ++ [e]) sid.
Proof.
  intros He [H1 H2]. split; [|by intros sid' [|[]%He]%opened_snoc; auto]. rewrite opened_iff in *. destruct H1 as (e' & Hin & Ho).
  exists e'. split; [apply elem_of_app; by left|done].
Qed.
Lemma only_silent t c b sid : (∀ r, c ≠ Do r) → only t sid → only (t ++ [Ev c b]) sid.
Proof. intros Hc. apply only_snoc. intros. by apply opens_silent. Qed.

Lemma removeExec_wp t sid (Q : history → result unit → Prop) :
  only t sid → (∀ t' r, only t' sid → removed socket t' sid → Q t' r) → wp allowed (removeExec socket sid) t Q.
Proof.
  intros Ho HQ. unfold removeExec.
  assert (∀ t', after socket "POST" (removal sid) force t t' → ∀ r, Q t' r) as H.
  { intros t' [[-> Hu]|(r & b & Hr & ->)] r'; apply HQ; [done|by left| |].
    - apply only_snoc; [|done]. intros sid'. eapply opens_other; [exact Hr|]. right. apply force_other.
    - right. exists r, b. split; [done|in_hist]. }
  apply wp_bind, command_wp.
  - intros r Hr. exists "POST", (removal sid), force. split; [exact Hr|]. right. split; [done|]. right. exists sid. split; [apply Ho|done].
  - intros t' r e Ha _. apply wp_ret. by apply H.
  - intros t' Ha _. apply wp_ret. by apply H.
Qed.

(** What [Exec] gives back, and what is left otherwise. *)
Definition exec_ends (t : history) (r : result execSession) : Prop :=
  match r with
  | Ok s => opened t id req (es_id s) ∧ es_tty s = er_TTY req ∧ ∃ data, Ev ReadResponse (Ok (101, data)) ∈ t
  | Err _ => ∀ sid, opened t id req sid → removed socket t sid
  end.
Lemma attach_wp t sid unix (Q : history → result execSession → Prop) :
  only t sid → (∀ t' e, only t' sid → Q t' (Err e)) →
  (∀ t' data, only t' sid → Ev ReadResponse (Ok (101, data)) ∈ t' → Q t' (Ok (MkExecSession sid (er_TTY req)))) →
  wp allowed (attach sid req unix) t Q.
Proof.
  intros Ho He HQ. unfold attach. apply wp_got. wp_do; [done|]. intros b. apply (only_silent _ (SetDeadline false) b) in Ho; [|done].
  revert Ho. generalize (t ++ [Ev (SetDeadline false) b]). clear t. intros t Ho. destruct b as [[]|e]; [|by apply He].
  apply wp_checked; [intros start Hs|intros; by apply He]. cbv zeta. set (r := with_header _ start).
  apply wp_got_as. wp_do.
  { exists id, req, sid, start. split; [done|]. split; [apply Ho|]. split; [done|]. by destruct start. }
  intros b. apply (only_silent _ (WriteRequest r) b) in Ho; [|done]. destruct b as [[]|e]; [|by apply He].
  apply wp_got_as. wp_do; [done|]. intros b. apply (only_silent _ ReadResponse b) in Ho; [|done]. destruct b as [[status data]|e]; [|by apply He].
  cbn [fst snd]. destruct (Z.eqb_spec status 101) as [->|]; cbn [negb]; [|apply wp_ret; by apply He].
  apply wp_got. wp_do; [done|]. intros b. apply (only_silent _ (SetDeadline true) b) in Ho; [|done]. destruct b as [[]|e]; [|by apply He].
  destruct unix; apply wp_ret; [|by apply He]. apply (HQ _ data); [done|in_hist].
Qed.
Lemma attached_wp t sid : only t sid → wp allowed (attached socket sid req) t exec_ends.
Proof.
  intros Ho. assert (∀ t', only t' sid → removed socket t' sid → ∀ e, exec_ends t' (Err e)) as Hend by (intros t' [_ H] Hr e sid' ->%H; done).
  assert (∀ t' e, only t' sid → wp allowed (_ ← removeExec socket sid; mret (Err e)) t' exec_ends) as Hrm.
  { intros t' e Ho'. apply wp_bind, removeExec_wp; [done|]. intros t'' r Ho'' Hr. apply wp_ret. by apply Hend. }
  unfold attached, dial. apply wp_bind, wp_checked; [|intros; by apply Hrm]. intros [] Hs. apply wp_got_as. wp_do; [done|]. intros b.
  apply (only_silent _ (DialContext socket) b) in Ho; [|done]. destruct b as [unix|e]; [|by apply Hrm].
  apply wp_ret, wp_bind, attach_wp; [done| |].
  - intros t' e Ho'. apply wp_bind. wp_do; [done|]. intros b. apply Hrm. by apply only_silent.
  - intros t' data Ho' Hin. apply wp_ret. split; [apply Ho'|]. split; [done|]. by exists data.
Qed.
Definition unasked (t : history) : Prop :=
  ∀ r b, new_request "POST" ("/containers/" +:+ id +:+ "/exec") exec_body = Ok r → Ev (Do r) b ∉ t.
Lemma unasked_get t t' : unasked t → read_once socket id t t' → unasked t'.
Proof.
  intros H [->|[[-> _]|(r & b & Hr & ->)]]; [done|done|]. intros r' b' Hr' [Hin|Hin]%elem_of_app; [by eapply H|].
  apply list_elem_of_singleton, (f_equal exchange) in Hin. injection Hin as -> _. apply new_request_Ok in Hr as [Hm _], Hr' as [Hm' _]. congruence.
Qed.
Lemma unasked_unopened t e : unasked t → exec_ends t (Err e).
Proof. intros H sid (e' & Hin & r & status & data & Hr & -> & _)%opened_iff. by apply H in Hin. Qed.
Lemma asked_opened t t' sid sid' :
  unasked t → after socket "POST" ("/containers/" +:+ id +:+ "/exec") exec_body t t' →
  comes_to t' "POST" ("/containers/" +:+ id +:+ "/exec") exec_body (Some dec_ID) "" sid → opened t' id req sid' → sid' = sid.
Proof.
  intros Hu Ha (status & data & (r & Hr & Hin) & _ & Hd) [(status' & data' & (r' & Hr' & Hin') & _ & Hd') _].
  destruct Ha as [[-> _]|(r0 & b & _ & ->)]; [by apply Hu in Hin|]. apply elem_of_app in Hin as [Hin|Hin]; [by apply Hu in Hin|].
  apply elem_of_app in Hin' as [Hin'|Hin']; [by apply Hu in Hin'|].
  apply list_elem_of_singleton, (f_equal exchange) in Hin, Hin'. simplify_eq. congruence.
Qed.
Lemma Exec_wp : wp allowed (Exec socket id req) [] exec_ends.
Proof.
  assert (unasked []) as H0 by (intros r b _; apply not_elem_of_nil). unfold Exec.
  apply wp_checked; [intros [] Hval|intros; by apply unasked_unopened]. apply wp_got, inspectOwned_wp.
  { intros t1 e Hr _. by eapply unasked_unopened, unasked_get. }
  intros t1 doc Hr Hv. pose proof (unasked_get _ _ H0 Hr) as H1.
  destruct (ci_Running doc) eqn:Erun; cbn [negb]; [|apply wp_ret; by apply unasked_unopened].
  apply wp_got, request_wp.
  - intros dec [= <-]. apply plain_ID.
  - intros r Hq. exists "POST", ("/containers/" +:+ id +:+ "/exec"), exec_body. split; [exact Hq|]. right. split; [done|]. left.
    split_and!; [done..|]. by exists doc.
  - intros t2 r e Ha (-> & _ & Hf). destruct Ha as [[-> _]|(r' & b & Hq & ->)]; [by apply unasked_unopened|]. intros sid Ho.
    apply opened_snoc in Ho as [Ho|Ho]; [eapply removed_prefix; [by apply prefix_app_r|by apply (unasked_unopened t1 e H1)]|]. destruct Ho as (r1 & status & data & _ & E & Hs & Hd & _).
    rewrite E in Hf. destruct (Hf _ _ _ eq_refl Hs) as (dec & [= <-] & Hd'). by rewrite Hd in Hd'.
  - intros t2 sid Ha Hc. pose proof (λ sid', asked_opened _ _ _ sid' H1 Ha Hc) as Hu. destruct (bad_session sid) eqn:Eb.
    + apply wp_ret. intros sid' Ho. pose proof (Hu sid' Ho) as ->. destruct Ho as [_ Hb]. congruence.
    + apply attached_wp. split; [by split|]. intros sid'. apply Hu.
Qed.
End exec.

(** *** Waiting *)
Definition status_path (s : execSession) : string := "/exec/" +:+ es_id s +:+ "/json".
Definition reports (t : history) (s : execSession) (st : execStatus) : Prop :=
  comes_to t "GET" (status_path s) [] (Some dec_status) (MkExecStatus false None) st.
Definition wait_allowed (t : history) (c : pcall) : Prop :=
  match c with
  | Do r => ∃ path, new_request "GET" path [] = Ok r
  | Done_ => True
  | Tick => ∃ s st, reports t s st ∧ xs_Running st = true
  | _ => False
  end.
Definition ticks (t : history) : nat := length (List.filter (λ e, match ev_call e with Tick => true | _ => false end) t).
(** After [fuel] polls that all found the command running, or with its exit code. *)
Definition waited (s : execSession) (fuel : nat) (t0 t : history) (r : option (result Z)) : Prop :=
  match r with
  | None => ticks t = (ticks t0 + fuel)%nat
  | Some (Ok code) => 0 ≤ code ≤ 255 ∧ reports t s (MkExecStatus false (Some code))
  | Some (Err _) => True
  end.
Lemma ticks_snoc t c b : ticks (t ++ [Ev c b]) = (ticks t + match c with Tick => 1 | _ => 0 end)%nat.
Proof. unfold ticks. rewrite List.filter_app, length_app. by destruct c. Qed.
Lemma poll_wp socket s fuel t : wp wait_allowed (poll fuel socket s) t (waited s fuel t).
Proof.
  revert t. induction fuel as [|fuel IH]; intros t; cbn [poll]; [apply wp_ret; cbn; lia|].
  apply wp_bind, request_wp.
  - intros dec [= <-]. apply plain_status.
  - intros r Hr. by eexists.
  - intros t' r e _ [-> _]. done.
  - intros t' st Ha Hc. destruct (xs_Running st) eqn:Er; cbn [negb].
    + apply wp_bind. wp_do; [by exists s, st|]. intros [e|]; [done|]. eapply wp_mono; [apply IH|done|].
      assert (ticks t' = ticks t) as Ht by (destruct Ha as [[-> _]|(r & b & _ & ->)]; [done|]; rewrite ticks_snoc; lia).
      intros t'' [[code|]|]; [done|done|]. cbn [waited]. rewrite ticks_snoc, Ht. lia.
    + apply wp_ret. destruct st as [running [code|]]; cbn [xs_ExitCode xs_Running] in *; subst running; [|done].
      destruct (_ || _) eqn:E; [done|]. apply orb_false_iff in E as [E1 E2]. split; [lia|done].
Qed.
Lemma Wait_wp socket s fuel streamErr :
  wp wait_allowed (Wait fuel socket s streamErr) [] (λ t r,
    waited s fuel [] t r ∧ ((∀ e, r ≠ Some (Err e)) → streamErr = None)).
Proof.
  unfold Wait. apply wp_bind. wp_do; [done|]. intros [e|]; [apply wp_ret; split; [done|]; intros H; by destruct (H e)|].
  destruct streamErr as [e|]; [apply wp_ret; split; [done|]; intros H; by destruct (H e)|]. eapply wp_mono; [apply poll_wp|done|].
  intros t r Hw. split; [|done]. destruct r as [[code|]|]; [done|done|exact Hw].
Qed.

(** ** Properties *)
Definition safely {S A} (k : handler pcall S) (s : S) (socket : string) (op : operation) (p : P A) (Q : history → A → Prop) : Prop :=
  (∀ t1 e t2, trace k p s = t1 ++ e :: t2 → podman_allowed socket op t1 (ev_call e)) ∧ Q (trace k p s) (run k p s).1.
Lemma safely_wp {S A} (k : handler pcall S) (s : S) socket op (p : P A) Q : wp (podman_allowed socket op) p [] Q → safely k s socket op p Q.
Proof. intros H. pose proof (wp_sound k _ _ s [] _ H) as [H1 H2]. by split. Qed.

(** C24: Whatever Podman answers, the client talks only to its private socket, starts,
    deletes or opens a console only in a container that it has just looked up by its
    runtime ID and that carries the names, labels and annotation of an instance, and
    creates one only after a lookup by name found none.  An operation that succeeds
    has had its effect confirmed (a container that is gone counts as deleted), and a
    console session that was opened but is not handed out is removed.  Waiting for a
    command only reads: it gives an exit code from 0 to 255 that Podman reported,
    after output that ended without error, and polls on only while the command is
    reported as running. *)
Theorem podman_touches_only_its_own {S} (k : handler pcall S) (s : S) socket :
  (∀ ref, safely k s socket (OpEnsureImage ref) (EnsureImage socket ref) (λ _ r, r = Ok tt → ref = image)) ∧
  (∀ i, safely k s socket (OpCreate i) (Create socket i) (λ t r, ∀ rid, r = Ok rid → made t (Instance_ID i) rid)) ∧
  (∀ id, safely k s socket (OpStart id) (Start socket id) (λ t r, r = Ok tt → started t id)) ∧
  (∀ id, safely k s socket (OpDelete id) (Delete socket id) (λ t r, r = Ok tt → deleted t id)) ∧
  (∀ id, safely k s socket (OpInspect id) (Inspect socket id) (λ t r,
     ∀ st, r = Ok st → ∃ doc, verified t id doc ∧ Running st = ci_Running doc)) ∧
  (∀ id req, safely k s socket (OpExec id req) (Exec socket id req) (exec_ends socket id req)) ∧
  (∀ session fuel streamErr, let w := Wait fuel socket session streamErr in
     (∀ t1 e t2, trace k w s = t1 ++ e :: t2 → wait_allowed t1 (ev_call e)) ∧ waited session fuel [] (trace k w s) (run k w s).1 ∧
     ((∀ e, (run k w s).1 ≠ Some (Err e)) → streamErr = None)).
Proof.
  split_and!; intros.
  - apply safely_wp, EnsureImage_wp.
  - apply safely_wp, Create_wp.
  - apply safely_wp, Start_wp.
  - apply safely_wp, Podman_Delete_wp.
  - apply safely_wp, Inspect_wp.
  - apply safely_wp, Exec_wp.
  - destruct (wp_sound k _ _ s [] _ (Wait_wp socket session fuel streamErr)) as [[H1 H2] H3]. by split.
Qed.
