(* ===== verification/ConsoleOutput.v ===== *)
(** The output of a console: [demux] splits a stream of frames exactly. *)

From S2P Require Import Prelude Errors GoStrings Encodings Utf8 NetIP Podman.
Local Open Scope Z_scope.

(** ** Frames *)
Record frame := MkFrame { fr_out : bool; fr_data : list Z }.
Definition enc_frame (f : frame) : list Z :=
  (if fr_out f then 1 else 2) :: 0 :: 0 :: 0 :: octets (Z.of_nat (length (fr_data f))) ++ fr_data f.
Definition small (f : frame) : Prop := Z.of_nat (length (fr_data f)) < 2 ^ 32.
Definition enc_frames (fs : list frame) : list Z := concat (enc_frame <$> fs).
(** The payloads for one of the two pipes. *)
Definition payload (out : bool) (fs : list frame) : list Z := concat ((λ f, if Bool.eqb (fr_out f) out then fr_data f else []) <$> fs).

Lemma frame_header_of c l :
  frame_header (c :: 0 :: 0 :: 0 :: l) =
    if c =? 1 then Ok (true, bytes_value l) else if c =? 2 then Ok (false, bytes_value l)
    else Err (Errorf (Sprintf "invalid exec stream channel %d" [FormatInt c])).
Proof. done. Qed.
Lemma frame_header_enc out v rest :
  0 ≤ v < 2 ^ 32 → ReadFull 8 (MkStream ((if out : bool then 1 else 2) :: 0 :: 0 :: 0 :: octets v ++ rest.1) rest.2) =
    Ok ((if out then 1 else 2) :: 0 :: 0 :: 0 :: octets v, MkStream rest.1 rest.2) ∧
  frame_header ((if out then 1 else 2) :: 0 :: 0 :: 0 :: octets v) = Ok (out, v).
Proof.
  intros Hv. split; [by destruct rest|]. rewrite frame_header_of, bytes_value_octets by done. by destruct out.
Qed.

(** A pipe that takes all. *)
Definition open_pipe (written : list Z) : pipe := MkPipe written None.
Lemma CopyN_open w data last n :
  (n ≤ length data)%nat → CopyN (open_pipe w) (MkStream data last) (Z.of_nat n) = (open_pipe (w ++ take n data), Ok (MkStream (drop n data) last)).
Proof.
  intros Hn. unfold CopyN, pipe_write, open_pipe. cbn [sr_data sr_last pp_room pp_written]. rewrite Nat2Z.id, length_take, Nat.min_l by done.
  by rewrite Z.ltb_irrefl.
Qed.
Lemma demux_frames fs fuel o e :
  Forall small fs → (length fs < fuel)%nat →
  demux fuel (MkStream (enc_frames fs) io_EOF) (open_pipe o) (open_pipe e) =
    (open_pipe (o ++ payload true fs), open_pipe (e ++ payload false fs), None).
Proof.
  intros Hs. revert fuel o e. induction Hs as [|f fs Hf Hs IH]; intros fuel o e Hfuel; (destruct fuel as [|fuel]; [cbn in Hfuel; lia|]).
  { cbn. by rewrite !app_nil_r. }
  unfold enc_frames, payload. rewrite !fmap_cons, !concat_cons. fold (enc_frames fs) (payload true fs) (payload false fs).
  destruct f as [out data]. unfold enc_frame, small in *. cbn [fr_out fr_data] in *.
  destruct (frame_header_enc out (Z.of_nat (length data)) (data ++ enc_frames fs, io_EOF)) as [H1 H2]; [lia|]. cbn [fst snd] in H1.
  rewrite <- !app_comm_cons, <- app_assoc. cbn [demux]. rewrite H1, H2.
  assert (∀ w, CopyN (open_pipe w) (MkStream (data ++ enc_frames fs) io_EOF) (Z.of_nat (length data)) =
    (open_pipe (w ++ data), Ok (MkStream (enc_frames fs) io_EOF))) as HC.
  { intros w. rewrite CopyN_open by (rewrite length_app; lia). by rewrite take_app_length, drop_app_length. }
  cbn [length] in Hfuel. destruct out; rewrite HC; cbn [Bool.eqb]; rewrite IH by lia; by rewrite <- ?app_assoc.
Qed.

(** ** Any stream *)

(** The payload of a frame that was cut: a part of what follows its header. *)
Definition partial (out : bool) (tail part : list Z) : Prop :=
  ∃ size, frame_header (take 8 tail) = Ok (out, size) ∧ (8 ≤ length tail)%nat ∧ part `prefix_of` take (Z.to_nat size) (drop 8 tail).
Definition cut_frame (tail po pe : list Z) : Prop :=
  (po = [] ∧ pe = []) ∨ (pe = [] ∧ partial true tail po) ∨ (po = [] ∧ partial false tail pe).
(** What splitting a stream came to. *)
Definition splits (s : stream) (o e : pipe) (r : pipe * pipe * option error) : Prop :=
  ∃ fs tail po pe, Forall small fs ∧ sr_data s = enc_frames fs ++ tail ∧ cut_frame tail po pe ∧
    pp_written r.1.1 = pp_written o ++ payload true fs ++ po ∧ pp_written r.1.2 = pp_written e ++ payload false fs ++ pe ∧
    (r.2 = None ↔ tail = [] ∧ sr_last s = io_EOF).

(** A stream does not end with an error that only wraps the end of the file. *)
Definition plain_end (s : stream) : Prop := sr_last s = io_EOF ∨ errors_Is (sr_last s) io_EOF = false.

Lemma pipe_write_prefix p data : ∃ part, pp_written (pipe_write p data).1 = pp_written p ++ part ∧ part `prefix_of` data ∧
  ((pipe_write p data).2 = None → part = data).
Proof.
  unfold pipe_write. destruct (pp_room p) as [[room e]|]; [case_match|]; cbn [fst snd pp_written]; eexists; (split; [done|]); [done| |done].
  split; [apply prefix_take|done].
Qed.
Lemma splits_nothing s o e err : (err = None ↔ sr_data s = [] ∧ sr_last s = io_EOF) → splits s o e (o, e, err).
Proof. intros Herr. exists [], (sr_data s), [], []. split_and!; [done|done|by left|by rewrite !app_nil_r|by rewrite !app_nil_r|apply Herr..]. Qed.

Lemma frame_header_Ok c z1 z2 z3 l out size :
  frame_header (c :: z1 :: z2 :: z3 :: l) = Ok (out, size) → (c = if out then 1 else 2) ∧ z1 = 0 ∧ z2 = 0 ∧ z3 = 0 ∧ size = bytes_value l.
Proof.
  intros H. destruct (decide (z1 = 0 ∧ z2 = 0 ∧ z3 = 0)) as [(-> & -> & ->)|Hz].
  - rewrite frame_header_of in H. destruct (Z.eqb_spec c 1) as [->|]; [by injection H as <- <-|]. destruct (Z.eqb_spec c 2) as [->|]; [by injection H as <- <-|done].
  - exfalso. unfold frame_header in H. cbn [nth] in H. destruct (Z.eqb_spec z1 0), (Z.eqb_spec z2 0), (Z.eqb_spec z3 0); cbn in H; try done. by destruct Hz.
Qed.
(** The frame that a header announces, when the stream has all of it. *)
Lemma whole_frame c z1 z2 z3 b0 b1 b2 b3 rest out size :
  Forall is_byte [b0; b1; b2; b3] → frame_header [c; z1; z2; z3; b0; b1; b2; b3] = Ok (out, size) → size ≤ Z.of_nat (length rest) →
  let f := MkFrame out (take (Z.to_nat size) rest) in
  small f ∧ c :: z1 :: z2 :: z3 :: b0 :: b1 :: b2 :: b3 :: rest = enc_frame f ++ drop (Z.to_nat size) rest.
Proof.
  intros Hb (-> & -> & -> & -> & ->)%frame_header_Ok Hlen. cbv zeta. rewrite !Forall_cons in Hb. destruct Hb as (B0 & B1 & B2 & B3 & _).
  destruct (octets_bytes_value b0 b1 b2 b3 B0 B1 B2 B3) as [Ho Hv]. set (v := bytes_value [b0; b1; b2; b3]) in *.
  unfold small, enc_frame. cbn [fr_out fr_data]. rewrite length_take, Nat.min_l, Z2Nat.id by lia. split; [lia|].
  rewrite Ho. cbn [app]. by rewrite take_drop.
Qed.
Lemma splits_cut s o e out size part err p :
  frame_header (take 8 (sr_data s)) = Ok (out, size) → (8 ≤ length (sr_data s))%nat → part `prefix_of` take (Z.to_nat size) (drop 8 (sr_data s)) →
  pp_written p = pp_written (if out then o else e) ++ part → is_Some err →
  splits s o e ((if out then p else o), (if out then e else p), err).
Proof.
  intros Hh Hlen Hpart Hp [e' ->]. exists [], (sr_data s), (if out then part else []), (if out then [] else part).
  split; [done|]. split; [done|]. split; [|split; [|split]].
  - right. destruct out; [left|right]; (split; [done|]); by exists size.
  - by destruct out; cbn; rewrite ?app_nil_r.
  - by destruct out; cbn; rewrite ?app_nil_r.
  - split; [done|]. intros [Hd _]. rewrite Hd in Hlen. cbn in Hlen. lia.
Qed.
Lemma splits_cons f s s' o e o' e' r :
  small f → sr_data s = enc_frame f ++ sr_data s' → sr_last s' = sr_last s →
  pp_written o' = pp_written o ++ payload true [f] → pp_written e' = pp_written e ++ payload false [f] →
  splits s' o' e' r → splits s o e r.
Proof.
  intros Hf Hd Hl Ho He (fs & tail & po & pe & Hs & Hd' & Hc & Ho' & He' & Hr). exists (f :: fs), tail, po, pe. split; [by constructor|]. split; [|split; [done|split; [|split; [|by rewrite <- Hl]]]].
  - rewrite Hd, Hd'. unfold enc_frames. by rewrite fmap_cons, concat_cons, app_assoc.
  - rewrite Ho', Ho. unfold payload. rewrite !fmap_cons, !concat_cons. cbn [fmap list_fmap concat]. by rewrite app_nil_r, <- !app_assoc.
  - rewrite He', He. unfold payload. rewrite !fmap_cons, !concat_cons. cbn [fmap list_fmap concat]. by rewrite app_nil_r, <- !app_assoc.
Qed.
Lemma demux_splits fuel s o e :
  (length (sr_data s) < fuel)%nat → Forall is_byte (sr_data s) → plain_end s → splits s o e (demux fuel s o e).
Proof.
  revert s o e. induction fuel as [|fuel IH]; intros [data last] o e Hfuel Hb Hend; cbn [sr_data] in *; [lia|].
  cbn [demux]. unfold ReadFull. cbn [sr_data sr_last]. destruct (Nat.leb_spec 8 (length data)) as [H8|H8].
  2: { apply splits_nothing. unfold plain_end in Hend. cbn [sr_data sr_last] in *. destruct data as [|b data].
       - rewrite bool_decide_eq_false_2 by (by intros []). cbn [andb]. destruct Hend as [->|H]; [done|]. rewrite H. split; [done|].
         intros [_ ->]. done.
       - rewrite bool_decide_eq_true_2 by done. cbn [andb]. destruct Hend as [->|H]; [by split; [|intros []]|].
         destruct (last ==? io_EOF) eqn:El; [apply (proj1 (beq_true _ _)) in El; by subst|]. rewrite H. by split; [|intros []]. }
  destruct data as [|c [|z1 [|z2 [|z3 [|b0 [|b1 [|b2 [|b3 rest]]]]]]]]; cbn [length] in H8, Hfuel; try lia. clear H8.
  change (take 8 (c :: z1 :: z2 :: z3 :: b0 :: b1 :: b2 :: b3 :: rest)) with [c; z1; z2; z3; b0; b1; b2; b3].
  change (drop 8 (c :: z1 :: z2 :: z3 :: b0 :: b1 :: b2 :: b3 :: rest)) with rest.
  destruct (frame_header _) as [[out size]|err] eqn:Eh; [|apply splits_nothing; cbn; naive_solver].
  set (s := MkStream _ last) in *. set (p := if out then o else e). unfold CopyN. cbn [sr_data sr_last].
  set (data := take (Z.to_nat size) rest). destruct (pipe_write_prefix p data) as (part & Hw & Hpre & Hall).
  destruct (pipe_write p data) as [p' [err|]]; cbn [fst snd] in *.
  { assert (splits s o e ((if out then p' else o), (if out then e else p'), Some (Wrapf (lit "exec stream payload: %w") err))) as H.
    { eapply (splits_cut s o e out size part); [exact Eh|cbn; lia|exact Hpre|exact Hw|eauto]. }
    by destruct out. }
  specialize (Hall eq_refl) as ->. destruct (Z.ltb_spec (Z.of_nat (length data)) size) as [Hlt|Hge].
  { assert (splits s o e ((if out then p' else o), (if out then e else p'), Some (Wrapf (lit "exec stream payload: %w") last))) as H.
    { eapply (splits_cut s o e out size data); [exact Eh|cbn; lia|exact Hpre|exact Hw|eauto]. }
    by destruct out. }
  assert (Forall is_byte [b0; b1; b2; b3] ∧ Forall is_byte rest) as [Hb4 Hbr].
  { rewrite !Forall_cons in Hb. rewrite !Forall_cons. naive_solver. }
  assert (size ≤ Z.of_nat (length rest)) as Hsize by (unfold data in Hge; rewrite length_take in Hge; lia).
  destruct (whole_frame _ _ _ _ _ _ _ _ rest out size Hb4 Eh Hsize) as [Hsm Henc].
  assert (splits (MkStream (drop (Z.to_nat size) rest) last) (if out then p' else o) (if out then e else p')
    (demux fuel (MkStream (drop (Z.to_nat size) rest) last) (if out then p' else o) (if out then e else p'))) as Hrec.
  { apply IH; [cbn [sr_data]; rewrite length_drop; lia|by apply Forall_drop|done]. }
  assert (splits s o e (demux fuel (MkStream (drop (Z.to_nat size) rest) last) (if out then p' else o) (if out then e else p'))) as H; [|by destruct out].
  eapply (splits_cons _ s (MkStream (drop (Z.to_nat size) rest) last)); [exact Hsm|exact Henc|done| | |exact Hrec]; unfold payload; cbn [fmap list_fmap concat fr_out fr_data]; rewrite app_nil_r;
    destruct out; cbn [Bool.eqb]; by rewrite ?app_nil_r.
Qed.

(** ** Properties *)

(** C33: The output of a console is split exactly.  A stream of whole frames gives each
    of the two pipes the payloads of its channel, in order and nothing else.  Of any
    other stream, and whenever a pipe's reader goes away, the pipes get the payloads
    of the whole frames that came first and at most a part of the next payload, on
    that frame's channel; an error is reported unless the stream consisted of whole
    frames and ended there.  The output of a terminal is copied as it is. *)
Theorem console_output_is_split_exactly :
  (∀ fs, Forall small fs →
     readOutput false (MkStream (enc_frames fs) io_EOF) (open_pipe []) (open_pipe []) =
       (open_pipe (payload true fs), open_pipe (payload false fs), None)) ∧
  (∀ s stdout stderr, Forall is_byte (sr_data s) → plain_end s → splits s stdout stderr (readOutput false s stdout stderr)) ∧
  (∀ data, readOutput true (MkStream data io_EOF) (open_pipe []) (open_pipe []) = (open_pipe data, open_pipe [], None)).
Proof.
  split_and!.
  - intros fs Hfs. unfold readOutput. rewrite demux_frames; [done|done|]. cbn [sr_data]. clear Hfs.
    induction fs as [|f fs IH]; [cbn; lia|]. unfold enc_frames in *. rewrite fmap_cons, concat_cons, length_app. cbn [length enc_frame]. lia.
  - intros s stdout stderr Hb Hend. apply demux_splits; [lia|done|done].
  - done.
Qed.

Lemma console_output_witness :
  readOutput false (MkStream [1; 0; 0; 0; 0; 0; 0; 2; 104; 105; 2; 0; 0; 0; 0; 0; 0; 1; 33; 1; 0; 0; 0; 0; 0; 0; 1; 10] io_EOF)
    (open_pipe []) (open_pipe []) = (open_pipe [104; 105; 10], open_pipe [33], None) ∧
  splits (MkStream [2; 0; 0; 0; 0; 0; 0; 3; 7] io_EOF) (open_pipe []) (open_pipe [])
    (open_pipe [], open_pipe [7], Some (Wrapf (lit "exec stream payload: %w") io_EOF)).
Proof.
  destruct console_output_is_split_exactly as (H1 & H2 & _). split.
  - apply (H1 [MkFrame true [104; 105]; MkFrame false [33]; MkFrame true [10]]). by repeat constructor.
  - apply (H2 (MkStream [2; 0; 0; 0; 0; 0; 0; 3; 7] io_EOF) (open_pipe []) (open_pipe [])); [|by left].
    cbn. unfold is_byte. repeat constructor; lia.
Defined.
