(* ===== verification/Console.v ===== *)
(** The console protocol: [internal/tunnel/console/protocol.go], with the JSON that
    [json.Marshal] writes for its messages. *)

From S2P Require Import Prelude Errors GoStrings Encodings Utf8 Json Snapshot.
From S2P Require Import NetIP Validate Model Schema Tx Store Idempotency NetworkService InstanceService System Api Client.
From S2P Require Import Refine ServiceRefine Transitions Replay Wire Progress Converge InstanceConverge Hook.
Local Open Scope Z_scope.

Definition Subprotocol : string := "nephos.console.v1".
Definition MaxControlBytes : nat := Z.to_nat (4 * 1024).
Definition MaxDataBytes : nat := Z.to_nat (64 * 1024).

(** ** Messages *)
Record Start := MkStart { sr_Command : list string; sr_TTY : bool; sr_Rows : Z; sr_Cols : Z }.
Record Resize := MkResize { rs_Rows : Z; rs_Cols : Z }.

Inductive ClientControl :=
  | CStart (s : Start)
  | CResize (r : Resize)
  | CStdinEOF.
Inductive ServerControl :=
  | SExit (code : Z)
  | SError (message : string).

(** [omitempty] of a number. *)
Definition nonzero_field (name : string) (n : Z) : list (list Z * json) :=
  if n =? 0 then [] else [(bytes name, enc_int64 n)].
Definition enc_strings (l : list string) : json := JArr (List.map enc_string l).

Definition enc_Start (s : Start) : json :=
  JObj ((bytes "type", enc_string "start") :: (bytes "command", enc_strings (sr_Command s)) ::
        (bytes "tty", JBool (sr_TTY s)) :: nonzero_field "rows" (sr_Rows s) ++ nonzero_field "cols" (sr_Cols s)).
Definition enc_Resize (r : Resize) : json :=
  JObj [(bytes "type", enc_string "resize"); (bytes "rows", enc_int64 (rs_Rows r)); (bytes "cols", enc_int64 (rs_Cols r))].
Definition enc_StdinEOF : json := JObj [(bytes "type", enc_string "stdin_eof")].
Definition enc_Exit (code : Z) : json :=
  JObj [(bytes "type", enc_string "exit"); (bytes "exit_code", enc_int64 code)].
Definition enc_Error (message : string) : json :=
  JObj [(bytes "type", enc_string "error"); (bytes "message", enc_string message)].

(** ** Decoding *)

(** A pointer: null is nil, anything else is decoded into what it points to. *)
Definition dec_ptr {A} (dec : json → A → result A) (zero : A) (v : json) (x : option A) : result (option A) :=
  match v with
  | JNull => Ok None
  | _ => a ← dec v (default zero x); Ok (Some a)
  end.
Definition dec_uint16 (v : json) (x : Z) : result Z :=
  match v with
  | JNull => Ok x
  | JNum l => of_option typeError (ParseUint (of_bytes l) 16)
  | _ => Err typeError
  end.

Definition sizeError : error := Errorf (lit "console control exceeds size limit or is empty").
Definition control_fits (raw : list Z) : bool := (1 <=? length raw)%nat && (length raw <=? MaxControlBytes)%nat.

Definition strictControl {T} (field : list Z → option (json → T → result T)) (zero : T) (raw : list Z) : result T :=
  require (control_fits raw) sizeError ;;
  first ← of_option (Wrapf (Sprintf "decode console control: %w" []) syntaxError) (decode_first raw);
  target ← wrap_err (Sprintf "decode console control: %w" []) (dec_strict field first.1 zero);
  require (at_EOF first.2) (Errorf (lit "console control contains trailing data")) ;;
  Ok target.

Definition field_head (key : list Z) : option (json → string → result string) :=
  if is_field "type" key then Some dec_string else None.
Definition controlType (raw : list Z) : result string :=
  require (control_fits raw) sizeError ;;
  kind ← wrap_err (Sprintf "decode console control type: %w" []) (unmarshal_body (dec_struct field_head) "" raw);
  require (kind !=? "") (Errorf (lit "console control type is required")) ;;
  Ok kind.

(** The structs that a control message is decoded into. *)
Record StartWire := MkStartWire {
  sw_Type : string; sw_Command : list string; sw_TTY : option bool; sw_Rows : option Z; sw_Cols : option Z
}.
Definition field_StartWire (key : list Z) : option (json → StartWire → result StartWire) :=
  if is_field "type" key then Some (λ v '(MkStartWire a b c d e), s ← dec_string v a; Ok (MkStartWire s b c d e))
  else if is_field "command" key then Some (λ v '(MkStartWire a b c d e),
    l ← dec_slice dec_string "" v b; Ok (MkStartWire a l c d e))
  else if is_field "tty" key then Some (λ v '(MkStartWire a b c d e),
    t ← dec_ptr dec_bool false v c; Ok (MkStartWire a b t d e))
  else if is_field "rows" key then Some (λ v '(MkStartWire a b c d e),
    n ← dec_ptr dec_uint16 0 v d; Ok (MkStartWire a b c n e))
  else if is_field "cols" key then Some (λ v '(MkStartWire a b c d e),
    n ← dec_ptr dec_uint16 0 v e; Ok (MkStartWire a b c d n))
  else None.
Record ResizeWire := MkResizeWire { rw_Type : string; rw_Rows : option Z; rw_Cols : option Z }.
Definition field_ResizeWire (key : list Z) : option (json → ResizeWire → result ResizeWire) :=
  if is_field "type" key then Some (λ v '(MkResizeWire a b c), s ← dec_string v a; Ok (MkResizeWire s b c))
  else if is_field "rows" key then Some (λ v '(MkResizeWire a b c), n ← dec_ptr dec_uint16 0 v b; Ok (MkResizeWire a n c))
  else if is_field "cols" key then Some (λ v '(MkResizeWire a b c), n ← dec_ptr dec_uint16 0 v c; Ok (MkResizeWire a b n))
  else None.
Record ExitWire := MkExitWire { ew_Type : string; ew_ExitCode : option Z }.
Definition field_ExitWire (key : list Z) : option (json → ExitWire → result ExitWire) :=
  if is_field "type" key then Some (λ v '(MkExitWire a b), s ← dec_string v a; Ok (MkExitWire s b))
  else if is_field "exit_code" key then Some (λ v '(MkExitWire a b), n ← dec_ptr dec_int64 0 v b; Ok (MkExitWire a n))
  else None.
Record ErrorWire := MkErrorWire { rw_ErrorType : string; rw_Message : string }.
Definition field_ErrorWire (key : list Z) : option (json → ErrorWire → result ErrorWire) :=
  if is_field "type" key then Some (λ v '(MkErrorWire a b), s ← dec_string v a; Ok (MkErrorWire s b))
  else if is_field "message" key then Some (λ v '(MkErrorWire a b), s ← dec_string v b; Ok (MkErrorWire a s))
  else None.

(** Dimensions: both there and positive. *)
Definition dimensions (rows cols : option Z) : option (Z * Z) :=
  match rows, cols with
  | Some r, Some c => if (r =? 0) || (c =? 0) then None else Some (r, c)
  | _, _ => None
  end.

Definition ParseClientText (raw : list Z) : result ClientControl :=
  kind ← controlType raw;
  if kind ==? "start" then
    wire ← strictControl field_StartWire (MkStartWire "" [] None None None) raw;
    match sw_TTY wire with
    | None => Err (Errorf (lit "console start requires tty and nonempty argv"))
    | Some tty =>
        require (negb ((length (sw_Command wire) =? 0)%nat || (default "" (head (sw_Command wire)) ==? "")))
          (Errorf (lit "console start requires tty and nonempty argv")) ;;
        require (forallb (λ arg, negb (ContainsByte arg 0)) (sw_Command wire)) (Errorf (lit "console argv contains NUL")) ;;
        if tty then
          d ← of_option (Errorf (lit "TTY start requires nonzero dimensions")) (dimensions (sw_Rows wire) (sw_Cols wire));
          Ok (CStart (MkStart (sw_Command wire) true d.1 d.2))
        else
          require (bool_decide (sw_Rows wire = None) && bool_decide (sw_Cols wire = None))
            (Errorf (lit "non-TTY start must omit dimensions")) ;;
          Ok (CStart (MkStart (sw_Command wire) false 0 0))
    end
  else if kind ==? "resize" then
    wire ← strictControl field_ResizeWire (MkResizeWire "" None None) raw;
    d ← of_option (Errorf (lit "resize requires nonzero dimensions")) (dimensions (rw_Rows wire) (rw_Cols wire));
    Ok (CResize (MkResize d.1 d.2))
  else if kind ==? "stdin_eof" then
    _ ← strictControl field_head "" raw;
    Ok CStdinEOF
  else Err (Errorf (Sprintf "unsupported client control %q" [kind])).

Definition ParseServerText (raw : list Z) : result ServerControl :=
  kind ← controlType raw;
  if kind ==? "exit" then
    wire ← strictControl field_ExitWire (MkExitWire "" None) raw;
    match ew_ExitCode wire with
    | Some code =>
        require (negb ((code <? 0) || (255 <? code))) (Errorf (lit "invalid console exit status")) ;;
        Ok (SExit code)
    | None => Err (Errorf (lit "invalid console exit status"))
    end
  else if kind ==? "error" then
    wire ← strictControl field_ErrorWire (MkErrorWire "" "") raw;
    require (rw_Message wire !=? "") (Errorf (lit "console error message is empty")) ;;
    Ok (SError (rw_Message wire))
  else Err (Errorf (Sprintf "unsupported server control %q" [kind])).

(** ** Data frames *)
Definition data_frame (channel : Z) (data : list Z) : result (list Z) :=
  require (length data + 1 <=? MaxDataBytes)%nat (Errorf (Sprintf "console data frame exceeds %d bytes" ["65536"])) ;;
  Ok (channel :: data).
Definition InputFrame (data : list Z) : result (list Z) := data_frame 0 data.
Definition ParseInputFrame (raw : list Z) : result (list Z) :=
  match raw with
  | channel :: data =>
      require ((length raw <=? MaxDataBytes)%nat && (channel =? 0)) (Errorf (lit "invalid console stdin frame")) ;;
      Ok data
  | [] => Err (Errorf (lit "invalid console stdin frame"))
  end.
Definition OutputFrame (channel : Z) (data : list Z) : result (list Z) :=
  require ((channel =? 1) || (channel =? 2)) (Errorf (lit "invalid console output channel")) ;;
  data_frame channel data.
Definition ParseOutputFrame (raw : list Z) : result (Z * list Z) :=
  match raw with
  | channel :: data =>
      require ((length raw <=? MaxDataBytes)%nat && ((channel =? 1) || (channel =? 2)))
        (Errorf (lit "invalid console output frame")) ;;
      Ok (channel, data)
  | [] => Err (Errorf (lit "invalid console output frame"))
  end.
