(* ===== verification/ConsoleSession.v ===== *)
(** The two ends of a console: [internal/apiserver/console.go] and the session of
    [cmd/nephos/console.go].

    The goroutines of a bridge talk to its select loop through events; [bridge] and
    [session] take them in the order in which the loop received them, with the results
    of the writes.  What a reader reads is the list of its reads and the error that
    ends it. *)

From S2P Require Import Prelude Errors GoStrings Encodings Utf8 Json Snapshot.
From S2P Require Import NetIP Validate Model Schema Tx Store Idempotency NetworkService InstanceService System Api Client.
From S2P Require Import Refine ServiceRefine Transitions Replay Wire Progress Converge InstanceConverge Hook Console.
Local Open Scope Z_scope.

(** ** Websocket messages *)
Inductive MessageType := MessageText | MessageBinary | MessageOther.
Definition message : Type := MessageType * list Z.

(** ** Opening: the handler up to the bridge *)

(** [strings.Split(s, ",")] *)
Fixpoint split_commas (l cur : list Z) : list (list Z) :=
  match l with
  | [] => [cur]
  | b :: l' => if b =? 44 then cur :: split_commas l' [] else split_commas l' (cur ++ [b])
  end.
Definition offersConsoleProtocol (header : string) : bool :=
  existsb (λ offered, TrimSpace (of_bytes offered) ==? Subprotocol) (split_commas (bytes header) []).

Definition consoleReady (i : Instance_) : bool :=
  negb (Instance_DeletionRequested i) && (Instance_State i ==? InstanceRunning) &&
  (Instance_ObservedGeneration i =? Instance_Generation i) && (Instance_RuntimeID i !=? "").

(** The answer to the request: an error, or the connection is upgraded. *)
Definition consoleHandshake (s : server) (console : bool) (env : Env) (workspace id header : string) (d : DB)
    : option Response :=
  match checkWorkspace workspace with
  | Some r => Some r
  | None =>
  match checkInstances s with
  | Some r => Some r
  | None =>
      if negb console then Some (writeAPIError 503 "ServiceUnavailable" "console runtime is not ready" "")
      else match Get env id d with
      | Err e => Some (writeServiceError e)
      | Ok instance =>
          if negb (consoleReady instance) then Some (writeAPIError 409 "IncorrectState" "instance is not running" id)
          else if negb (offersConsoleProtocol header)
          then Some (writeAPIError 400 "InvalidParameterValue" "nephos.console.v1 subprotocol is required" id)
          else None
      end
  end
  end.

(** The first message, and the instance as it is then ([d]): what to run, and where. *)
Definition consoleStart (env : Env) (id : string) (first : result message) (d : DB) : result (Start * string) :=
  match first with
  | Err e => Err (Wrapf (Sprintf "console start missing: %w" []) e)
  | Ok (MessageText, raw) =>
      match ParseClientText raw with
      | Ok (CStart start) =>
          match Get env id d with
          | Ok instance =>
              require (consoleReady instance) (Errorf (lit "instance is no longer running")) ;;
              Ok (start, Instance_RuntimeID instance)
          | Err _ => Err (Errorf (lit "instance is no longer running"))
          end
      | _ => Err (Errorf (lit "invalid console start frame"))
      end
  | Ok _ => Err (Errorf (lit "first console message must be start text"))
  end.

(** ** The server's input: from the client to the process *)
Inductive stdin_effect :=
  | Wrote (data : list Z)
  | ClosedStdin
  | Resized (rows cols : Z).

(** The answers of the exec session: the k-th write and resize, and closing stdin. *)
Record ExecSession := MkExecSession {
  xs_write : nat → list Z → Z * option error;
  xs_closeStdin : option error;
  xs_resize : nat → option error
}.

Section server_input.
Context (xs : ExecSession) (tty : bool).

(** [k] counts the calls; [fuel] is the number of bytes that are left. *)
Fixpoint writeStdin (fuel k : nat) (data : list Z) : list stdin_effect * nat * option error :=
  match fuel, data with
  | S fuel', _ :: _ =>
      let '(n, err) := xs_write xs k data in
      let wrote := Wrote (take (Z.to_nat n) data) in
      match err with
      | Some e => ([wrote], S k, Some (Wrapf (Sprintf "write console stdin: %w" []) e))
      | None =>
          if (n <=? 0) || (Z.of_nat (length data) <? n)
          then ([wrote], S k, Some (Wrapf (Sprintf "write console stdin: %w" []) (ErrIO "short write")))
          else
            let '(effects, k', r) := writeStdin fuel' (S k) (drop (Z.to_nat n) data) in
            (wrote :: effects, k', r)
      end
  | _, _ => ([], k, None)
  end.

Fixpoint readConsoleInput (reads : list message) (last : error) (eof : bool) (k : nat) : list stdin_effect * error :=
  match reads with
  | [] => ([], Wrapf (Sprintf "console input disconnected: %w" []) last)
  | (MessageBinary, raw) :: reads' =>
      match ParseInputFrame raw, eof with
      | Ok data, false =>
          let '(effects, k', r) := writeStdin (length data) k data in
          match r with
          | Some e => (effects, e)
          | None => let '(more, e) := readConsoleInput reads' last eof k' in (effects ++ more, e)
          end
      | _, _ => ([], Errorf (lit "invalid console stdin frame"))
      end
  | (MessageText, raw) :: reads' =>
      match ParseClientText raw with
      | Err e => ([], e)
      | Ok CStdinEOF =>
          if tty || eof then ([], Errorf (lit "stdin_eof requires open non-TTY stdin"))
          else match xs_closeStdin xs with
               | Some e => ([ClosedStdin], Wrapf (Sprintf "close console stdin: %w" []) e)
               | None => let '(more, e) := readConsoleInput reads' last true (S k) in (ClosedStdin :: more, e)
               end
      | Ok (CResize r) =>
          if negb tty then ([], Errorf (lit "resize requires TTY mode"))
          else match xs_resize xs k with
               | Some e => ([Resized (rs_Rows r) (rs_Cols r)], Wrapf (Sprintf "resize console: %w" []) e)
               | None => let '(more, e) := readConsoleInput reads' last eof (S k) in
                         (Resized (rs_Rows r) (rs_Cols r) :: more, e)
               end
      | Ok (CStart _) => ([], Errorf (lit "duplicate or invalid console start"))
      end
  | (MessageOther, _) :: _ => ([], Errorf (lit "invalid console message type"))
  end.
End server_input.

(** ** The server's output: from the process to the client *)
Inductive consoleEvent :=
  | EvOutput (channel : Z) (data : list Z)
  | EvExit (code : Z)
  | EvErr (e : error)
  | EvInput (e : error)
  | EvDone (e : error).

(** A read of the process's output: bytes, then maybe the end ([None]) or an error. *)
Fixpoint pumpConsoleOutput (channel : Z) (reads : list (list Z * option (option error))) : list consoleEvent :=
  match reads with
  | [] => []
  | (data, err) :: reads' =>
      (if (length data =? 0)%nat then [] else [EvOutput channel data]) ++
      match err with
      | Some None => []
      | Some (Some e) => [EvErr (Wrapf (Sprintf "read console output: %w" []) e)]
      | None => pumpConsoleOutput channel reads'
      end
  end.

Definition waitEvent (exit : result Z) : consoleEvent :=
  match exit with
  | Err e => EvErr (Wrapf (Sprintf "wait for console exit: %w" []) e)
  | Ok code =>
      if (code <? 0) || (255 <? code) then EvErr (Errorf (lit "console returned an invalid exit status")) else EvExit code
  end.

(** The answers of the connection to the k-th write, of closing it, and of closing the
    session. *)
Record Connection := MkConnection {
  cn_write : nat → option error; cn_close : option error; cn_closeSession : option error
}.

(** A write that fails may still have been sent. *)
Definition writeConsoleMessage (cn : Connection) (k : nat) : option error :=
  (λ e, Wrapf (Sprintf "write console message: %w" []) e) <$> cn_write cn k.

(** What the loop sent, and how it ended, if it did. *)
Fixpoint bridgeLoop (cn : Connection) (tty : bool) (k : nat) (events : list consoleEvent)
    : list message * option (option error) :=
  match events with
  | [] => ([], None)
  | EvInput e :: _ | EvErr e :: _ | EvDone e :: _ => ([], Some (Some e))
  | EvExit code :: _ =>
      match cn_closeSession cn with
      | Some e => ([], Some (Some (Wrapf (Sprintf "close console session: %w" []) e)))
      | None =>
          let sent := [(MessageText, encode (enc_Exit code))] in
          match writeConsoleMessage cn k with
          | Some e => (sent, Some (Some e))
          | None => (sent, Some ((λ e, Wrapf (Sprintf "close console connection: %w" []) e) <$> cn_close cn))
          end
      end
  | EvOutput channel data :: events' =>
      if tty && (channel =? 2) then ([], Some (Some (Errorf (lit "TTY emitted a separate stderr stream"))))
      else
        match OutputFrame channel data with
        | Err e => ([], Some (Some e))
        | Ok raw =>
            match writeConsoleMessage cn k with
            | Some e => ([(MessageBinary, raw)], Some (Some e))
            | None => let '(more, r) := bridgeLoop cn tty (S k) events' in ((MessageBinary, raw) :: more, r)
            end
        end
  end.

(** [writeConsoleError] *)
Definition consoleErrorMessage (e : error) : message :=
  (MessageText, encode (enc_Error (of_bytes (take 2048 (bytes (error_text e)))))).

(** [bridgeConsole] with its deferred report. *)
Definition bridgeConsole (cn : Connection) (tty : bool) (events : list consoleEvent)
    : list message * option (option error) :=
  let '(sent, r) := bridgeLoop cn tty 0 events in
  match r with
  | Some (Some e) => (sent ++ [consoleErrorMessage e], r)
  | _ => (sent, r)
  end.

(** ** The client's output *)

(** How the connection ended: with which close status, if any. *)
Record Closure := MkClosure { cl_status : option Z; cl_error : error }.
Definition StatusNormalClosure : Z := 1000.

(** The output that was written, as chunks of stdout (1) and stderr (2), and the exit
    code or an error.  [sink] answers the k-th write. *)
Fixpoint readRemoteConsole (sink : nat → option error) (tty : bool) (reads : list message) (closed : Closure)
    (exit : option Z) (k : nat) : list (Z * list Z) * result Z :=
  match reads with
  | [] =>
      match exit with
      | Some code =>
          if bool_decide (cl_status closed = Some StatusNormalClosure) then ([], Ok code)
          else ([], Err (Wrapf (Sprintf "console closed without a valid final result: %w" []) (cl_error closed)))
      | None => ([], Err (Wrapf (Sprintf "console closed without a valid final result: %w" []) (cl_error closed)))
      end
  | (kind, raw) :: reads' =>
      match exit with
      | Some _ => ([], Err (Errorf (lit "console data or duplicate result after final exit")))
      | None =>
          match kind with
          | MessageBinary =>
              match ParseOutputFrame raw with
              | Err e => ([], Err e)
              | Ok (channel, data) =>
                  if (channel =? 2) && tty then ([], Err (Errorf (lit "PTY console sent separate stderr")))
                  else match sink k with
                       | Some e => ([(channel, data)], Err (Wrapf (Sprintf "write console output: %w" []) e))
                       | None => let '(out, r) := readRemoteConsole sink tty reads' closed None (S k) in
                                 ((channel, data) :: out, r)
                       end
              end
          | MessageText =>
              match ParseServerText raw with
              | Err e => ([], Err e)
              | Ok (SError msg) => ([], Err (Errorf (Sprintf "remote console: %s" [msg])))
              | Ok (SExit code) => readRemoteConsole sink tty reads' closed (Some code) k
              end
          | MessageOther => ([], Err (Errorf (lit "invalid console message type")))
          end
      end
  end.

(** ** The client's input *)
Inductive clientEvent :=
  | CData (data : list Z)
  | CEnd (e : option error)
  | CTick (size : result (Z * Z))
  | CResult (r : result Z)
  | CDone (e : error).

(** What the session's loop sent, and how it ended, if it did.  [write] answers the k-th
    write, [outcome] is what the reader of the connection comes to. *)
Section session.
Context (write : nat → option error) (outcome : result Z) (tty : bool).

Definition consoleWrite (k : nat) : option error :=
  (λ e, Wrapf (Sprintf "send console input: %w" []) e) <$> write k.
Definition stdinEOF : message := (MessageText, encode enc_StdinEOF).

Fixpoint sessionLoop (rows cols : Z) (input : bool) (k : nat) (events : list clientEvent)
    : list message * option (result Z) :=
  match events with
  | [] => ([], None)
  | CResult r :: _ => ([], Some r)
  | CDone e :: _ => ([], Some (Err e))
  | CData data :: events' =>
      if negb input then sessionLoop rows cols input k events'
      else match InputFrame data with
           | Err e => ([], Some (Err e))
           | Ok raw =>
               match consoleWrite k with
               | Some e => ([(MessageBinary, raw)], Some (match outcome with Ok code => Ok code | Err _ => Err e end))
               | None => let '(more, r) := sessionLoop rows cols input (S k) events' in ((MessageBinary, raw) :: more, r)
               end
           end
  | CEnd err :: events' =>
      if negb input then sessionLoop rows cols input k events'
      else match err with
           | Some e => ([], Some (Err (Wrapf (Sprintf "read console stdin: %w" []) e)))
           | None =>
               if tty then ([], Some (Err (Errorf (lit "local terminal input closed"))))
               else match consoleWrite k with
                    | Some e => ([stdinEOF], Some (match outcome with Ok code => Ok code | Err _ => Err e end))
                    | None => let '(more, r) := sessionLoop rows cols false (S k) events' in (stdinEOF :: more, r)
                    end
           end
  | CTick size :: events' =>
      if negb tty then sessionLoop rows cols input k events'
      else match size with
           | Err e => ([], Some (Err e))
           | Ok (rows', cols') =>
               if (rows' =? rows) && (cols' =? cols) then sessionLoop rows cols input k events'
               else
                 let raw := encode (enc_Resize (MkResize rows' cols')) in
                 match consoleWrite k with
                 | Some e => ([(MessageText, raw)], Some (Err e))
                 | None => let '(more, r) := sessionLoop rows' cols' input (S k) events' in ((MessageText, raw) :: more, r)
                 end
           end
  end.

(** The session: the start message first. *)
Definition startMessage (start : Start) : message := (MessageText, encode (enc_Start start)).
End session.
Definition consoleSession (write : nat → option error) (outcome : result Z) (start : Start) (events : list clientEvent)
    : list message * option (result Z) :=
  match consoleWrite write 0 with
  | Some e => ([startMessage start], Some (Err e))
  | None =>
      let '(more, r) := sessionLoop write outcome (sr_TTY start) (sr_Rows start) (sr_Cols start) true 1 events in
      (startMessage start :: more, r)
  end.

(** ** Frames and control messages arrive as they were sent *)
Lemma OutputFrame_read channel data raw : OutputFrame channel data = Ok raw → ParseOutputFrame raw = Ok (channel, data).
Proof.
  unfold OutputFrame, data_frame. intros H. apply bind_Ok in H as (u & Hc%require_Ok & H).
  apply bind_Ok in H as (u' & Hl%require_Ok%Nat.leb_le & [= <-]). unfold ParseOutputFrame. rewrite Hc.
  rewrite (proj2 (Nat.leb_le _ _)) by (simpl; lia). done.
Qed.
Lemma InputFrame_read data raw : InputFrame data = Ok raw → ParseInputFrame raw = Ok data.
Proof.
  unfold InputFrame, data_frame. intros H. apply bind_Ok in H as (u & Hl%require_Ok%Nat.leb_le & [= <-]).
  unfold ParseInputFrame. rewrite (proj2 (Nat.leb_le _ _)) by (simpl; lia). done.
Qed.

Lemma stdin_eof_read : ParseClientText (encode enc_StdinEOF) = Ok CStdinEOF.
Proof. vm_compute. reflexivity. Qed.

Lemma exit_read code : 0 ≤ code ≤ 255 → ParseServerText (encode (enc_Exit code)) = Ok (SExit code).
Proof.
  intros Hc. assert (forallb (λ c, match ParseServerText (encode (enc_Exit c)) with Ok (SExit c') => c' =? c | _ => false end)
    (seqZ 0 256) = true) as H by (vm_compute; reflexivity).
  rewrite forallb_forall in H. specialize (H code ltac:(apply list_elem_of_In, elem_of_seqZ; lia)).
  destruct (ParseServerText _) as [[]|]; try done. by apply Z.eqb_eq in H as ->.
Qed.

(** The type of a message that was written. *)
Lemma controlType_written v kind k :
  writable v → (nesting v <=? maxNestingDepth)%nat = true → dec_struct field_head (repair_json v) "" = Ok kind →
  controlType (encode v) = Ok k → k = kind.
Proof.
  intros Hw Hn%Nat.leb_le Hd H. unfold controlType in H. apply bind_Ok in H as (u & _ & H).
  apply bind_Ok in H as (k' & Hk%wrap_err_Ok & H). apply bind_Ok in H as (u' & _ & [= <-]).
  unfold unmarshal_body in Hk. rewrite <- (app_nil_r (encode v)), parse_written in Hk by done. simpl in Hk. congruence.
Qed.

Lemma error_read msg code : ParseServerText (encode (enc_Error msg)) ≠ Ok (SExit code).
Proof.
  unfold ParseServerText. intros H. apply bind_Ok in H as (k & Hk & H).
  apply (controlType_written _ "error") in Hk as ->.
  - simpl in H. apply bind_Ok in H as (wire & _ & H). apply bind_Ok in H as (u & _ & H). done.
  - apply writable_obj. repeat (apply Forall_cons_2 || apply Forall_nil_2); (split; [by apply utf8_name|]); apply writable_str, bytes_range.
  - by vm_compute.
  - unfold enc_Error. cbn [repair_json List.map fst snd]. unfold dec_struct; cbn [fold_left fst snd]. unfold field_head. eval_names.
    done.
Qed.

Lemma resize_read rows cols c :
  int64 rows → int64 cols → ParseClientText (encode (enc_Resize (MkResize rows cols))) = Ok c → ∃ r, c = CResize r.
Proof.
  intros Hr Hc. unfold ParseClientText. intros H. apply bind_Ok in H as (k & Hk & H).
  apply (controlType_written _ "resize") in Hk as ->.
  - simpl in H. apply bind_Ok in H as (wire & _ & H). apply bind_Ok in H as (u & _ & [= <-]). eauto.
  - apply writable_obj. repeat (apply Forall_cons_2 || apply Forall_nil_2); (split; [by apply utf8_name|]).
    + apply writable_str, bytes_range.
    + by apply writable_num.
    + by apply writable_num.
  - by vm_compute.
  - unfold enc_Resize. cbn [repair_json List.map fst snd]. unfold dec_struct; cbn [fold_left fst snd]. unfold field_head. eval_names.
    done.
Qed.

Lemma decode_first_written v :
  writable v → (nesting v <=? maxNestingDepth)%nat = true → decode_first (encode v) = Some (repair_json v, []).
Proof.
  intros Hw Hn%Nat.leb_le. unfold decode_first. rewrite <- (app_nil_r (encode v)) at 2.
  apply parse_value_written; [done|pose proof (size_encode v Hw); lia|done|done].
Qed.

Lemma dec_strings_read l : dec_slice dec_string "" (repair_json (enc_strings l)) [] = Ok (List.map readback l).
Proof.
  unfold enc_strings. cbn [repair_json dec_slice]. induction l as [|x l IH]; [done|]. cbn [List.map dec_elems head tail].
  rewrite dec_repaired_string. cbn [mbind result_bind]. by rewrite IH.
Qed.

Lemma dec_uint16_read n x : 0 ≤ n < 65536 → dec_ptr dec_uint16 0 (enc_int64 n) x = Ok (Some n).
Proof.
  intros Hn. unfold dec_ptr, enc_int64, dec_uint16. rewrite of_bytes_bytes. unfold FormatInt. rewrite (proj2 (Z.ltb_ge _ _)) by lia.
  by rewrite ParseUint_format by lia.
Qed.

Lemma start_writable s : 0 ≤ sr_Rows s < 65536 → 0 ≤ sr_Cols s < 65536 → writable (enc_Start s) ∧ (nesting (enc_Start s) <= 2)%nat.
Proof.
  intros Hr Hc. unfold enc_Start, nonzero_field. split.
  - apply writable_obj. repeat (apply Forall_cons_2; [split; [by apply utf8_name|]|]).
    + apply writable_str, bytes_range.
    + apply writable_arr. induction (sr_Command s); simpl; constructor; [apply writable_str, bytes_range|done].
    + constructor.
    + assert (∀ m, 0 ≤ m < 65536 → writable (enc_int64 m)) by (intros; apply writable_num; lia).
      apply Forall_app. split; destruct (_ =? 0); (apply Forall_nil_2 || (apply Forall_singleton; split; [by apply utf8_name|by apply H])).
  - assert (max_list_with nesting (List.map enc_string (sr_Command s)) = 0%nat) as E
      by (induction (sr_Command s); [done|simpl; lia]).
    destruct (_ =? 0), (_ =? 0); simpl; rewrite E; lia.
Qed.

(** The fields of a start message, as they are read. *)
Lemma start_fields s :
  0 ≤ sr_Rows s < 65536 → 0 ≤ sr_Cols s < 65536 →
  dec_struct field_head (repair_json (enc_Start s)) "" = Ok "start" ∧
  dec_strict field_StartWire (repair_json (enc_Start s)) (MkStartWire "" [] None None None) =
  Ok (MkStartWire "start" (List.map readback (sr_Command s)) (Some (sr_TTY s))
        (if sr_Rows s =? 0 then None else Some (sr_Rows s)) (if sr_Cols s =? 0 then None else Some (sr_Cols s))).
Proof.
  intros Hr Hc. unfold enc_Start, nonzero_field.
  destruct (sr_Rows s =? 0), (sr_Cols s =? 0); cbn [repair_json List.map fst snd app]; unfold dec_struct, dec_strict;
    cbn [fold_left fst snd]; unfold field_head, field_StartWire; eval_names; (split; [done|]);
    cbn [mbind result_bind]; rewrite dec_repaired_string; cbn [mbind result_bind]; rewrite dec_strings_read; cbn [mbind result_bind dec_ptr dec_bool];
    change (readback "start") with "start"; repeat change (repair_json (enc_int64 ?n)) with (enc_int64 n);
    repeat (rewrite dec_uint16_read by done; cbn [mbind result_bind]); done.
Qed.

Lemma dimensions_zero r c d :
  dimensions (if r =? 0 then None else Some r) (if c =? 0 then None else Some c) = Some d → d = (r, c).
Proof. destruct (r =? 0) eqn:Er, (c =? 0) eqn:Ec; simpl; try done. rewrite Er, Ec. by intros [= <-]. Qed.

(** The command that is started is the one that was given. *)
Lemma start_read s c :
  0 ≤ sr_Rows s < 65536 → 0 ≤ sr_Cols s < 65536 → ParseClientText (encode (enc_Start s)) = Ok c →
  c = CStart (MkStart (List.map readback (sr_Command s)) (sr_TTY s) (sr_Rows s) (sr_Cols s)).
Proof.
  intros Hr Hc. destruct (start_writable s Hr Hc) as [Hw Hn]. destruct (start_fields s Hr Hc) as [Hh Hf].
  assert ((nesting (enc_Start s) <=? maxNestingDepth)%nat = true) as Hn'
    by (apply Nat.leb_le; etrans; [exact Hn|]; apply Nat.leb_le; vm_compute; reflexivity).
  unfold ParseClientText. intros H. apply bind_Ok in H as (k & Hk & H).
  pose proof (controlType_written _ "start" k Hw Hn' Hh Hk) as ->. change ("start" ==? "start") with true in H. cbv iota in H.
  apply bind_Ok in H as (wire & Hwire & H). unfold strictControl in Hwire. apply bind_Ok in Hwire as (u & _ & Hwire).
  rewrite decode_first_written in Hwire by done. cbn [of_option mbind result_bind fst snd] in Hwire. rewrite Hf in Hwire.
  cbn [wrap_err mbind result_bind] in Hwire. apply bind_Ok in Hwire as (u' & _ & [= <-]).
  cbn [sw_TTY sw_Command sw_Rows sw_Cols] in H. apply bind_Ok in H as (u1 & _ & H). apply bind_Ok in H as (u2 & _ & H).
  destruct (sr_TTY s).
  - apply bind_Ok in H as (d & Hd%of_option_Ok & [= <-]). by apply dimensions_zero in Hd as ->.
  - apply bind_Ok in H as (u3 & Hz%require_Ok & [= <-]). apply andb_true_iff in Hz as [Hz1%bool_decide_eq_true Hz2%bool_decide_eq_true].
    destruct (_ =? 0) eqn:E1 in Hz1; [|done]. destruct (_ =? 0) eqn:E2 in Hz2; [|done]. do 2 f_equal; lia.
Qed.

(** ** From the process to the client *)
Definition outputs (chunks : list (Z * list Z)) : list consoleEvent := (λ c, EvOutput c.1 c.2) <$> chunks.
(** Exit codes as [waitEvent] reports them. *)
Definition reports (ev : consoleEvent) : Prop := match ev with EvExit code => 0 ≤ code ≤ 255 | _ => True end.

Definition report (r : option (option error)) : list message :=
  match r with Some (Some e) => [consoleErrorMessage e] | _ => [] end.
Definition bridged (cn : Connection) (tty : bool) (k : nat) (events : list consoleEvent) : list message :=
  let '(sent, r) := bridgeLoop cn tty k events in sent ++ report r.

Lemma bridgeConsole_sent cn tty events : (bridgeConsole cn tty events).1 = bridged cn tty 0 events.
Proof.
  unfold bridgeConsole, bridged. destruct (bridgeLoop _ _ _ _) as [sent [[e|]|]]; simpl; [done|by rewrite app_nil_r..].
Qed.

Lemma prefix_cons_inv' {A} (x : A) l l' : l `prefix_of` x :: l' → l = [] ∨ ∃ l0, l = x :: l0 ∧ l0 `prefix_of` l'.
Proof. destruct l as [|y l]; [by left|]. intros H. right. exists l. by rewrite (prefix_cons_inv_1 _ _ _ _ H); eauto using prefix_cons_inv_2. Qed.

Section from_process.
Context (sink : nat → option error) (tty : bool) (closed : Closure).

Abbreviation reads_ok reads k out code := (readRemoteConsole sink tty reads closed None k = (out, Ok code)).

(** A report of failure is never taken for a result. *)
Lemma report_fails r reads k out code : reads `prefix_of` report r → ¬ reads_ok reads k out code.
Proof using.
  intros Hp H. assert (reads = [] ∨ ∃ e, reads = [consoleErrorMessage e]) as [->|[e ->]]; [|done|].
  - destruct r as [[e|]|]; simpl in Hp; [|by left; apply prefix_nil_inv in Hp..].
    apply prefix_cons_inv' in Hp as [->|(l & -> & Hl)]; [by left|]. right. apply prefix_nil_inv in Hl as ->. eauto.
  - cbn [readRemoteConsole consoleErrorMessage] in H. destruct (ParseServerText _) as [[code'|m]|e'] eqn:E; [|done|done].
    by apply error_read in E.
Qed.

Lemma client_believes_truth cn events k k' reads out code :
  Forall reports events → reads `prefix_of` bridged cn tty k events → reads_ok reads k' out code →
  ∃ rest, events = outputs out ++ EvExit code :: rest.
Proof using.
  intros Hrep. revert k k' reads out. induction Hrep as [|ev events Hev Hrep IH]; intros k k' reads out Hp H.
  { unfold bridged in Hp. simpl in Hp. apply prefix_nil_inv in Hp as ->. done. }
  unfold bridged in Hp. destruct ev as [channel data|c|e|e|e]; cbn [bridgeLoop] in Hp;
    try by (exfalso; eapply (report_fails (Some (Some e))); [exact Hp|exact H]).
  - destruct (tty && _); [exfalso; by eapply (report_fails (Some (Some _)))|]. destruct (OutputFrame channel data) as [raw|e] eqn:Ef;
      [|exfalso; by eapply (report_fails (Some (Some _)))].
    assert (∃ rest, reads = (MessageBinary, raw) :: rest ∧
      (rest `prefix_of` bridged cn tty (S k) events ∨ ∃ r, rest `prefix_of` report r)) as (rest & -> & Hrest).
    { destruct (writeConsoleMessage cn k) as [e|].
      - simpl in Hp. apply prefix_cons_inv' in Hp as [->|(l & -> & Hl)]; [done|]. exists l. split; [done|]. right. by eexists (Some (Some _)).
      - unfold bridged. destruct (bridgeLoop cn tty (S k) events) as [more r]. simpl in Hp.
        apply prefix_cons_inv' in Hp as [->|(l & -> & Hl)]; [done|]. eauto. }
    cbn [readRemoteConsole] in H. rewrite (OutputFrame_read _ _ _ Ef) in H. destruct (_ && tty); [done|].
    destruct (sink k') as [e|]; [done|]. destruct (readRemoteConsole _ _ rest _ _ _) as [out' r] eqn:Er. injection H as <- ->.
    destruct Hrest as [Hrest|[r Hrest]]; [|exfalso; by eapply report_fails].
    destruct (IH _ _ _ _ Hrest Er) as [rest' ->]. by exists rest'.
  - destruct (cn_closeSession cn) as [e|]; [exfalso; by eapply (report_fails (Some (Some _)))|].
    assert (∃ rest, reads = (MessageText, encode (enc_Exit c)) :: rest) as [rest ->].
    { destruct (writeConsoleMessage cn k); simpl in Hp; apply prefix_cons_inv' in Hp as [->|(l & -> & _)]; eauto; done. }
    cbn [readRemoteConsole] in H. rewrite exit_read in H by done.
    destruct rest as [|[kind raw] rest]; cbn [readRemoteConsole] in H; [|done]. destruct (bool_decide _); [|done].
    injection H as <- ->. by exists events.
Qed.

(** Nothing fails: everything arrives. *)
Lemma client_gets_all cn chunks code k k' :
  (∀ n, cn_write cn n = None) → cn_close cn = None → cn_closeSession cn = None → (∀ n, sink n = None) →
  cl_status closed = Some StatusNormalClosure → 0 ≤ code ≤ 255 →
  Forall (λ c, (c.1 = 1 ∨ c.1 = 2 ∧ tty = false) ∧ (length c.2 < MaxDataBytes)%nat) chunks →
  (bridgeLoop cn tty k (outputs chunks ++ [EvExit code])).2 = Some None ∧
  reads_ok (bridgeLoop cn tty k (outputs chunks ++ [EvExit code])).1 k' chunks code.
Proof using.
  intros Hw Hcl Hcs Hsink Hst Hcode Hch. revert k k'. induction Hch as [|[channel data] chunks [Hchan Hlen] Hch IH]; intros k k'.
  - unfold outputs. cbn [fmap list_fmap app bridgeLoop]. rewrite Hcs. unfold writeConsoleMessage. rewrite Hw, Hcl. split; [done|].
    cbn [fmap option_fmap option_map fst readRemoteConsole]. rewrite exit_read by done. by rewrite bool_decide_eq_true_2.
  - unfold outputs in *. cbn [fmap list_fmap app bridgeLoop fst snd] in *. specialize (IH (S k) (S k')).
    assert (OutputFrame channel data = Ok (channel :: data)) as Ef.
    { unfold OutputFrame, data_frame. rewrite (proj2 (Nat.leb_le _ _)) by lia. by destruct Hchan as [->|[-> _]]. }
    assert (tty && (channel =? 2) = false) as -> by (destruct Hchan as [->|[-> ->]]; [by destruct tty|done]).
    rewrite Ef. unfold writeConsoleMessage. rewrite !Hw. cbn [fmap option_fmap option_map].
    destruct (bridgeLoop cn tty (S k) _) as [more r]. cbn [fst snd readRemoteConsole] in IH |- *. destruct IH as [-> IH]. split; [done|].
    rewrite (OutputFrame_read _ _ _ Ef).
    assert ((channel =? 2) && tty = false) as -> by (destruct Hchan as [->|[-> ->]]; [done|by destruct (_ =? _)]).
    by rewrite Hsink, IH.
Qed.
End from_process.

(** ** From the client to the process *)
Fixpoint written (effects : list stdin_effect) : list Z :=
  match effects with
  | [] => []
  | Wrote data :: effects' => data ++ written effects'
  | _ :: effects' => written effects'
  end.
Lemma written_app l l' : written (l ++ l') = written l ++ written l'.
Proof. induction l as [|[]]; simpl; rewrite <- ?app_assoc; congruence. Qed.

(** What was typed before the input ended. *)
Fixpoint typed (events : list clientEvent) : list Z :=
  match events with
  | [] | CEnd _ :: _ => []
  | CData data :: events' => data ++ typed events'
  | _ :: events' => typed events'
  end.
(** Terminal sizes are pairs of [uint16]. *)
Definition sized (ev : clientEvent) : Prop :=
  match ev with CTick (Ok (rows, cols)) => 0 ≤ rows < 65536 ∧ 0 ≤ cols < 65536 | _ => True end.

Lemma writeStdin_prefix xs fuel k data effects k' r :
  (length data ≤ fuel)%nat → writeStdin xs fuel k data = (effects, k', r) →
  written effects `prefix_of` data ∧ (r = None → written effects = data) ∧ ClosedStdin ∉ effects.
Proof.
  revert k data effects k' r. induction fuel as [|fuel IH]; intros k data effects k' r Hl H.
  - destruct data; [|simpl in Hl; lia]. simpl in H. simplify_eq. split_and!; [by exists []|done|by apply not_elem_of_nil].
  - destruct data as [|b data]; cbn [writeStdin] in H; [simplify_eq; split_and!; [by exists []|done|by apply not_elem_of_nil]|].
    set (all := b :: data) in *. destruct (xs_write xs k all) as [n err] eqn:E.
    assert (∀ e, written [Wrote (take (Z.to_nat n) all)] `prefix_of` all ∧
      (Some e = @None error → written [Wrote (take (Z.to_nat n) all)] = all) ∧ ClosedStdin ∉ [Wrote (take (Z.to_nat n) all)]) as Hbad.
    { intros e. split_and!; [simpl; rewrite app_nil_r; apply prefix_take|done|]. by intros [? |?%elem_of_nil]%elem_of_cons. }
    destruct err as [e|]; [injection H as <- <- <-; apply Hbad|].
    destruct ((n <=? 0) || _) eqn:En; [injection H as <- <- <-; apply Hbad|]. apply orb_false_iff in En as [En1 En2]. reflect_bools.
    destruct (writeStdin xs fuel (S k) _) as [[effects' k''] r'] eqn:Ew. injection H as <- <- <-.
    apply IH in Ew as ([rest Hp] & Hd & Hc); [|rewrite length_drop; lia]. cbn [written].
    split_and!.
    + exists rest. by rewrite <- app_assoc, <- Hp, take_drop.
    + intros Hr. rewrite Hd by done. apply take_drop.
    + intros [? |?]%elem_of_cons; done.
Qed.

Section to_process.
Context (write : nat → option error) (outcome : result Z) (xs : ExecSession) (last : error).

Lemma closed_stdin_sends_nothing events rows cols k reads :
  reads `prefix_of` (sessionLoop write outcome false rows cols false k events).1 → reads = [].
Proof using.
  revert rows cols k. induction events as [|[data|e|size|r|e] events IH]; intros rows cols k; cbn [sessionLoop negb];
    try apply IH; by intros ?%prefix_nil_inv.
Qed.

(** The process has read a part of what was typed, and all of it at the end. *)
Definition so_far (tty : bool) (events : list clientEvent) (effects : list stdin_effect) : Prop :=
  written effects `prefix_of` typed events ∧ (ClosedStdin ∈ effects → written effects = typed events ∧ tty = false).
Lemma so_far_nil tty events : so_far tty events [].
Proof using. split; [apply prefix_nil|by intros ?%not_elem_of_nil]. Qed.
Lemma so_far_later tty data events l l' :
  written l = data → ClosedStdin ∉ l → so_far tty events l' → so_far tty (CData data :: events) (l ++ l').
Proof using.
  intros Hl Hn [Hp Hc]. split; rewrite written_app, Hl; [by apply prefix_app|]. intros [?|Hin]%elem_of_app; [done|].
  destruct (Hc Hin) as [-> ?]. done.
Qed.

(** One message that starts the reads. *)
Ltac first_read Hp H :=
  apply prefix_cons_inv' in Hp as [->|(? & -> & Hp)]; [injection H as <- <-; apply so_far_nil|].

Lemma process_reads_typed tty events rows cols k k' reads effects e :
  Forall sized events → reads `prefix_of` (sessionLoop write outcome tty rows cols true k events).1 →
  readConsoleInput xs tty reads last false k' = (effects, e) → so_far tty events effects.
Proof using.
  intros Hsz. revert rows cols k k' reads effects. induction Hsz as [|ev events Hev Hsz IH]; intros rows cols k k' reads effects Hp H.
  { apply prefix_nil_inv in Hp as ->. injection H as <- <-. apply so_far_nil. }
  assert (∀ l : list message, l `prefix_of` [] → readConsoleInput xs tty l last false k' = (effects, e) → so_far tty (ev :: events) effects) as Hnone.
  { intros l ->%prefix_nil_inv E. injection E as <- <-. apply so_far_nil. }
  destruct ev as [data|err|size|r|e0]; cbn [sessionLoop negb] in Hp; [| | |by eapply Hnone|by eapply Hnone].
  - destruct (InputFrame data) as [raw|e0] eqn:Ef; [|by eapply Hnone].
    assert (∃ sent, reads `prefix_of` (MessageBinary, raw) :: sent ∧
      (sent = [] ∨ sent = (sessionLoop write outcome tty rows cols true (S k) events).1)) as (sent & Hp' & Hsent).
    { destruct (consoleWrite write k); [exists []; eauto|]. destruct (sessionLoop _ _ _ _ _ _ (S k) _) as [more r]. exists more; eauto. }
    clear Hp. first_read Hp' H. cbn [readConsoleInput] in H. rewrite (InputFrame_read _ _ Ef) in H.
    destruct (writeStdin _ _ _ _) as [[effects1 k1] r1] eqn:Ew. apply writeStdin_prefix in Ew as (Hpre & Hall & Hno); [|done].
    destruct r1 as [e1|].
    { injection H as <- <-. split; [|done]. simpl. etrans; [exact Hpre|]. by apply prefix_app_r. }
    destruct (readConsoleInput _ _ _ _ _ _) as [more e1] eqn:Er. injection H as <- <-. apply so_far_later; [by apply Hall|done|].
    destruct Hsent as [->| ->]; [|by eapply IH]. apply prefix_nil_inv in Hp' as ->. injection Er as <- <-. apply so_far_nil.
  - destruct err as [e0|]; [by eapply Hnone|]. destruct tty; [by eapply Hnone|].
    assert (reads = [] ∨ reads = [stdinEOF]) as [->| ->].
    { destruct (consoleWrite write k).
      - apply prefix_cons_inv' in Hp as [->|(? & -> & ->%prefix_nil_inv)]; eauto.
      - destruct (sessionLoop _ _ _ _ _ _ (S k) _) as [more r] eqn:Em. apply prefix_cons_inv' in Hp as [->|(l & -> & Hl)]; [eauto|].
        right. f_equal. eapply closed_stdin_sends_nothing. rewrite Em. exact Hl. }
    { injection H as <- <-. apply so_far_nil. }
    cbn [readConsoleInput stdinEOF] in H. rewrite stdin_eof_read in H. simpl in H.
    assert (effects = [ClosedStdin]) as -> by (destruct (xs_closeStdin xs); by simplify_eq). split; [by exists []|done].
  - assert (so_far tty events effects → so_far tty (CTick size :: events) effects) as Hskip by done.
    destruct tty; cbn [negb] in Hp; [|apply Hskip; by eapply IH]. destruct size as [[rows' cols']|e0]; [|by eapply Hnone].
    destruct (_ && _); [apply Hskip; by eapply IH|].
    assert (∃ sent, reads `prefix_of` (MessageText, encode (enc_Resize (MkResize rows' cols'))) :: sent ∧
      (sent = [] ∨ sent = (sessionLoop write outcome true rows' cols' true (S k) events).1)) as (sent & Hp' & Hsent).
    { destruct (consoleWrite write k); [exists []; eauto|]. destruct (sessionLoop _ _ _ _ _ _ (S k) _) as [more r]. exists more; eauto. }
    clear Hp. first_read Hp' H. cbn [readConsoleInput] in H. destruct (ParseClientText _) as [c|e1] eqn:Ec.
    2: { injection H as <- <-. apply so_far_nil. }
    apply resize_read in Ec as [r ->]; [|unfold int64; simpl in Hev; lia..]. simpl in H.
    destruct (xs_resize xs k'); [injection H as <- <-; split; [by exists (typed events)|by intros [?|?%not_elem_of_nil]%elem_of_cons]|].
    destruct (readConsoleInput _ _ _ _ _ _) as [more e1] eqn:Er. injection H as <- <-.
    assert (so_far true events more) as [Hpre Hcl].
    { destruct Hsent as [->| ->]; [|by eapply IH]. apply prefix_nil_inv in Hp' as ->. injection Er as <- <-. apply so_far_nil. }
    split; [exact Hpre|]. intros [?|Hin]%elem_of_cons; [done|by apply Hcl].
Qed.
End to_process.

(** ** The whole session *)

(** An event of the bridge's goroutines. *)
Definition made (ev : consoleEvent) : Prop :=
  (∃ channel reads, ev ∈ pumpConsoleOutput channel reads) ∨ (∃ exit, ev = waitEvent exit) ∨
  (∃ e, ev = EvInput e) ∨ ∃ e, ev = EvDone e.

Lemma made_reports ev : made ev → reports ev.
Proof.
  intros [(channel & reads & Hin)|[[exit ->]|[[e ->]|[e ->]]]]; [|destruct exit as [code|e]|done|done].
  - induction reads as [|[data err] reads IH]; [by apply not_elem_of_nil in Hin|]. cbn [pumpConsoleOutput] in Hin.
    apply elem_of_app in Hin as [Hin|Hin].
    + destruct (_ =? _)%nat; [by apply not_elem_of_nil in Hin|]. by apply list_elem_of_singleton in Hin as ->.
    + destruct err as [[e|]|]; [by apply list_elem_of_singleton in Hin as ->|by apply not_elem_of_nil in Hin|by apply IH].
  - unfold waitEvent. destruct (_ || _) eqn:E; [done|]. apply orb_false_iff in E as [? ?]. simpl. lia.
  - done.
Qed.

Lemma consoleReady_row row n i :
  instanceOfRows row n = Ok i → consoleReady i = true →
  i_DeletionRequested row = 0 ∧ i_State row = "running" ∧ i_ObservedGeneration row = i_Generation row ∧
  i_RuntimeID row = Some (Instance_RuntimeID i).
Proof.
  intros (a & _ & _ & ->)%instanceOfRows_inv Hr. unfold consoleReady in Hr. cbn in Hr.
  rewrite !andb_true_iff, negb_involutive, negb_true_iff in Hr. destruct Hr as [[[Hd%Z.eqb_eq Hs] Hg%Z.eqb_eq] Hrt].
  apply (proj1 (beq_true _ _)) in Hs. apply (proj1 (beq_false _ _)) in Hrt. cbn. destruct (i_RuntimeID row); [|done]. by split_and!.
Qed.

Lemma consoleStart_running env id first d start rt :
  consoleStart env id first d = Ok (start, rt) →
  ∃ row, instances d !! id = Some row ∧ i_DeletionRequested row = 0 ∧ i_State row = "running" ∧
    i_ObservedGeneration row = i_Generation row ∧ i_RuntimeID row = Some rt.
Proof.
  unfold consoleStart. destruct first as [[[] raw]|e]; try done. destruct (ParseClientText raw) as [[s|r|]|e]; try done.
  destruct (Get env id d) as [i|e] eqn:Eg; [|done]. intros H. apply bind_Ok in H as (u & Hr%require_Ok & H). injection H as -> <-.
  unfold Get in Eg. assert (store_GetInstance (env_fault env) "default" id d = Ok i) as Es.
  { unfold missing in Eg. destruct (store_GetInstance _ _ _ _); [|done]. by injection Eg as ->. }
  destruct (store_GetInstance_found _ _ _ _ Es) as (row & n & Hrow & Hi). exists row. split; [done|]. by eapply consoleReady_row.
Qed.


