(* ===== verification/Appliance.v ===== *)
(** The appliance: [Manager] of [internal/appliance/lifecycle.go], which runs Nephos as
    one Docker container with one volume.

    Docker, the health endpoint and the credential file are an oracle ([Host]): every
    call gets an arbitrary answer, the n-th thing that happens the n-th one.  [ap_log]
    lists the calls with their answers. *)

From S2P Require Import Prelude Errors GoStrings Encodings Utf8 Json Snapshot.
From S2P Require Import NetIP Validate Model Schema Tx Store Idempotency NetworkService InstanceService System Api Client.
From S2P Require Import Refine ServiceRefine Transitions Replay Wire Progress Converge InstanceConverge Hook.
Local Open Scope Z_scope.

(** ** Engine types: [internal/appliance/engine.go] *)
Definition volumeName : string := "nephos-data".
Definition imageName : string := "nephos-appliance:dev".
Definition containerName : string := "nephos".
Definition ErrNotFound : error := ErrIO "appliance object not found".

Record LimitSelection := MkLimitSelection { ls_Memory : bool; ls_CPUs : bool; ls_PIDs : bool }.
Record Limits := MkLimits { lm_MemoryBytes : Z; lm_NanoCPUs : Z; lm_PIDs : Z; lm_Explicit : LimitSelection }.
Record HostInfo := MkHostInfo {
  hi_Rootless : bool; hi_CgroupVersion : string; hi_KernelVersion : string; hi_OSType : string;
  hi_Architecture : string; hi_MemTotal : Z; hi_CPUs : Z; hi_MemoryLimit : bool; hi_PidsLimit : bool; hi_CPUQuota : bool
}.
Record ContainerState := MkContainerState {
  ct_Running : bool; ct_Owned : bool; ct_Status : string; ct_Image : string; ct_Volume : string;
  ct_Limits : Limits; ct_HealthStatus : string
}.
Record VolumeState := MkVolumeState { vl_Owned : bool }.

Inductive HealthState := HealthStarting | HealthReady | HealthUnhealthy.
Inductive ApplianceStatus := StatusMissing | StatusStopped | StatusStarting | StatusReady | StatusUnhealthy.
#[export] Instance HealthState_eq_dec : EqDecision HealthState.
Proof. solve_decision. Defined.

(** ** Checks *)

(** [strings.SplitN(s, ".", n + 1)] *)
Fixpoint split_dots (n : nat) (l cur : list Z) : list string :=
  match l with
  | [] => [of_bytes cur]
  | b :: l' =>
      match n with
      | O => split_dots n l' (cur ++ [b])
      | S n' => if b =? 46 then of_bytes cur :: split_dots n' l' [] else split_dots n l' (cur ++ [b])
      end
  end.
Definition kernelAtLeast (release : string) (wantMajor wantMinor : Z) : bool :=
  match split_dots 2 (bytes release) [] with
  | a :: b :: _ =>
      match ParseInt a, ParseInt b with
      | Some major, Some minor => (wantMajor <? major) || ((major =? wantMajor) && (wantMinor <=? minor))
      | _, _ => false
      end
  | _ => false
  end.

(** [%.2f] and [%.3f] of a quotient: to the nearest, ties to even (for the amounts of
    CPUs, where a tie is no binary fraction, a tie may go the other way). *)
Definition decimal (places : Z) (n d : Z) : string :=
  let q := n * 10 ^ places / d in
  let twice := 2 * (n * 10 ^ places mod d) in
  let scaled := if (d <? twice) || ((twice =? d) && Z.odd q) then q + 1 else q in
  FormatInt (scaled / 10 ^ places) +:+ "." +:+
  of_bytes (drop 1 (bytes (FormatInt (10 ^ places + scaled mod 10 ^ places)))).

Definition verifyContainer (c : ContainerState) : result unit :=
  require (negb (negb (ct_Owned c) || (ct_Volume c !=? volumeName) || (ct_Image c !=? imageName)))
    (Errorf (Sprintf "docker container %q exists but does not match the Nephos appliance" [containerName])).

Definition checkRequestedLimits (actual requested : Limits) : result unit :=
  require (negb ((lm_MemoryBytes actual <=? 0) || (lm_NanoCPUs actual <=? 0) || (lm_PIDs actual <=? 0)))
    (Errorf (lit "existing appliance has missing Docker resource limits; inspect its configuration before restarting")) ;;
  let explicit := lm_Explicit requested in
  require (negb ((ls_Memory explicit && negb (lm_MemoryBytes actual =? lm_MemoryBytes requested)) ||
                 (ls_CPUs explicit && negb (lm_NanoCPUs actual =? lm_NanoCPUs requested)) ||
                 (ls_PIDs explicit && negb (lm_PIDs actual =? lm_PIDs requested))))
    (Errorf (Sprintf "existing appliance limits are memory=%d bytes, cpus=%s, pids=%d; requested limits differ; run 'nephos down', then 'docker rm nephos' to recreate the container while preserving nephos-data"
      [FormatInt (lm_MemoryBytes actual); decimal 3 (lm_NanoCPUs actual) (10 ^ 9); FormatInt (lm_PIDs actual)])).

Definition preflight (host : HostInfo) (limits : Limits) : result unit :=
  require (negb ((lm_MemoryBytes limits <? 3 * 2 ^ 30) || (lm_NanoCPUs limits <=? 0) || (lm_PIDs limits <=? 0)))
    (Errorf (lit "invalid appliance limits: memory must be at least 3 GiB and CPU/PIDs positive")) ;;
  require (negb (hi_Rootless host)) (Errorf (lit "rootless Docker cannot run the privileged Nephos appliance")) ;;
  require (negb ((hi_OSType host !=? "linux") || (hi_CgroupVersion host !=? "2")))
    (Errorf (lit "nephos needs Linux Docker with cgroup v2")) ;;
  require (negb ((hi_Architecture host !=? "x86_64") && (hi_Architecture host !=? "amd64") &&
                 (hi_Architecture host !=? "aarch64") && (hi_Architecture host !=? "arm64")))
    (Errorf (Sprintf "unsupported Docker architecture %q; use amd64 or arm64" [hi_Architecture host])) ;;
  require (kernelAtLeast (hi_KernelVersion host) 5 15)
    (Errorf (Sprintf "nephos needs Linux kernel 5.15 or newer; Docker reports %q" [hi_KernelVersion host])) ;;
  require (negb (hi_MemTotal host <? lm_MemoryBytes limits))
    (Errorf (Sprintf "docker has %s GiB memory, below the %s GiB appliance limit; increase Docker/WSL memory"
      [decimal 2 (hi_MemTotal host) (2 ^ 30); decimal 2 (lm_MemoryBytes limits) (2 ^ 30)])) ;;
  require (negb (negb (hi_MemoryLimit host) || negb (hi_PidsLimit host) || negb (hi_CPUQuota host)))
    (Errorf (lit "docker must support memory, pids, and CPU limits")) ;;
  require (negb (hi_CPUs host <? Z.quot (wrap64 (lm_NanoCPUs limits + (10 ^ 9 - 1))) (10 ^ 9)))
    (Errorf (lit "docker exposes too few CPUs for the appliance limit")).

(** [HTTPHealthProbe.Check]: what is made of the answer, the status and the body. *)
Definition field_status (key : list Z) : option (json → string → result string) :=
  if is_field "status" key then Some dec_string else None.
Definition probe (resp : result (Z * list Z)) : HealthState :=
  match resp with
  | Err _ => HealthUnhealthy
  | Ok (status, body) =>
      match decode_first (take 1024 body) with
      | None => HealthUnhealthy
      | Some (v, _) =>
          match dec_struct field_status v "" with
          | Err _ => HealthUnhealthy
          | Ok state =>
              if (status =? 200) && (state ==? "ready") then HealthReady
              else if (status =? 503) && (state ==? "starting") then HealthStarting
              else HealthUnhealthy
          end
      end
  end.

(** ** Calls *)
Record Host := MkHost {
  a_ping : nat → option error; a_info : nat → result HostInfo; a_image : nat → result bool;
  a_inspect : nat → result ContainerState; a_volume : nat → result VolumeState;
  a_createVolume : nat → option error; a_create : nat → option error; a_start : nat → option error;
  a_stop : nat → option error; a_copy : nat → result (list Z); a_save : nat → option error;
  a_health : nat → result HealthState; a_done : nat → option error
}.
Inductive entry :=
  | LPing (e : option error) | LInfo (r : result HostInfo) | LImage (r : result bool)
  | LInspect (r : result ContainerState) | LVolume (r : result VolumeState)
  | LCreateVolume (e : option error) | LCreate (l : Limits) (e : option error)
  | LStart (e : option error) | LStop (e : option error)
  | LCopy (r : result (list Z)) | LSave (archive : list Z) (e : option error)
  | LHealth (r : result HealthState) | LSelect (done : option error).

Record AppState := MkAppState { ap_time : nat; ap_log : list entry }.
Definition App (A : Type) : Type := AppState → A * AppState.
#[export] Instance App_ret : MRet App := λ A a s, (a, s).
#[export] Instance App_bind : MBind App := λ A B f m s, let '(a, s') := m s in f a s'.

Definition ask {A} (answer : nat → A) (mk : A → entry) : App A := λ s,
  let a := answer (ap_time s) in (a, MkAppState (S (ap_time s)) (ap_log s ++ [mk a])).
(** [None] is a loop that ran out of its bound. *)
Definition returns {A} (r : result A) : App (option (result A)) := mret (Some r).
(** [if err := call(); err != nil { return err }] *)
Definition checked {A} (m : App (option error)) (next : App (option (result A))) : App (option (result A)) :=
  e ← m; match e with Some e => returns (Err e) | None => next end.
(** [x, err := call(); if err != nil { return err }] *)
Definition got {A B} (m : App (result A)) (f : A → App (option (result B))) : App (option (result B)) :=
  r ← m; match r with Ok a => f a | Err e => returns (Err e) end.
Definition passed {A} (r : result unit) (next : App (option (result A))) : App (option (result A)) :=
  match r with Ok _ => next | Err e => returns (Err e) end.

Section manager.
Context (h : Host).

Definition health_name (r : result HealthState) : string :=
  match r with Ok HealthStarting => "starting" | Ok HealthReady => "ready" | _ => "unhealthy" end.

(** [timeout] is the text of the timeout, two minutes as [newManager] sets none. *)
Fixpoint waitReady (fuel : nat) (timeout : string) : App (option (result unit)) :=
  match fuel with
  | O => mret None
  | S fuel' =>
      state ← ask (a_health h) LHealth;
      if bool_decide (state = Ok HealthReady) then returns (Ok tt)
      else
        done ← ask (a_done h) LSelect;
        match done with
        | Some e =>
            returns (Err (Wrapf (Sprintf "appliance did not become ready within %s (last health state %s): %w"
                                   [timeout; health_name state]) e))
        | None =>
            got (ask (a_inspect h) LInspect) (λ c,
            if negb (ct_Running c)
            then returns (Err (Errorf (Sprintf "appliance stopped during startup (state %s); inspect Docker logs" [ct_Status c])))
            else waitReady fuel' timeout)
        end
  end.

Definition notOwned : error := Errorf (Sprintf "docker volume %q exists but is not owned by Nephos" [volumeName]).

(** The volume of a container that is to be created. *)
Definition ensureVolume (next : App (option (result unit))) : App (option (result unit)) :=
  volume ← ask (a_volume h) LVolume;
  match volume with
  | Err e => if errors_Is e ErrNotFound then checked (ask (a_createVolume h) LCreateVolume) next else returns (Err e)
  | Ok v => if negb (vl_Owned v) then returns (Err notOwned) else next
  end.

(** Wait, then copy the credential. *)
Definition waitAndSave (fuel : nat) : App (option (result unit)) :=
  w ← waitReady fuel "2m0s";
  match w with
  | Some (Ok _) =>
      got (ask (a_copy h) LCopy) (λ archive,
      saved ← ask (a_save h) (LSave archive);
      match saved with
      | Some e => returns (Err (Wrapf (Sprintf "save appliance credential: %w" []) e))
      | None => returns (Ok tt)
      end)
  | Some (Err e) => returns (Err e)
  | None => mret None
  end.

(** From a container that is there to the saved credential. *)
Definition bringUp (fuel : nat) (c : ContainerState) : App (option (result unit)) :=
  got (ask (a_volume h) LVolume) (λ volume,
  if negb (vl_Owned volume) then returns (Err notOwned)
  else
    let ready := waitAndSave fuel in
    if negb (ct_Running c) then checked (ask (a_start h) LStart) ready else ready).

Definition Up (fuel : nat) (limits : Limits) : App (option (result unit)) :=
  checked (ask (a_ping h) LPing) (
  got (ask (a_info h) LInfo) (λ host,
  got (ask (a_image h) LImage) (λ exists_,
  if negb exists_ then returns (Err (Errorf (lit "appliance image is missing; run make dev-ami && make appliance")))
  else
    inspected ← ask (a_inspect h) LInspect;
    match inspected with
    | Ok c =>
        passed (verifyContainer c) (
        passed (checkRequestedLimits (ct_Limits c) limits) (
        passed (preflight host (ct_Limits c)) (bringUp fuel c)))
    | Err e =>
        if errors_Is e ErrNotFound then
          passed (preflight host limits) (
          ensureVolume (
          checked (ask (a_create h) (LCreate limits)) (
          let c := MkContainerState false true "" imageName volumeName limits "" in
          passed (verifyContainer c) (bringUp fuel c))))
        else returns (Err e)
    end))).

Definition Down : App (option (result unit)) :=
  checked (ask (a_ping h) LPing) (
  inspected ← ask (a_inspect h) LInspect;
  match inspected with
  | Err e => if errors_Is e ErrNotFound then returns (Ok tt) else returns (Err e)
  | Ok c =>
      passed (verifyContainer c) (
      if negb (ct_Running c) then returns (Ok tt)
      else checked (ask (a_stop h) LStop) (returns (Ok tt)))
  end).

Definition Status : App (option (result ApplianceStatus)) :=
  checked (ask (a_ping h) LPing) (
  inspected ← ask (a_inspect h) LInspect;
  match inspected with
  | Err e => if errors_Is e ErrNotFound then returns (Ok StatusMissing) else returns (Err e)
  | Ok c =>
      passed (verifyContainer c) (
      if negb (ct_Running c) then returns (Ok StatusStopped)
      else
        state ← ask (a_health h) LHealth;
        match state with
        | Err e => returns (Err (Wrapf (Sprintf "check appliance health: %w" []) e))
        | Ok HealthReady => returns (Ok StatusReady)
        | Ok HealthStarting => returns (Ok StatusStarting)
        | Ok HealthUnhealthy =>
            returns (Ok (if ct_HealthStatus c ==? "starting" then StatusStarting else StatusUnhealthy))
        end)
  end).
End manager.

(** ** Why a call is made *)

(** What must have been seen before a call that changes something, or before the
    credential is replaced. *)
Definition justified (limits : Limits) (before : list entry) (e : entry) : Prop :=
  match e with
  | LCreateVolume _ =>
      (∃ err, LInspect (Err err) ∈ before ∧ errors_Is err ErrNotFound = true) ∧
      ∃ err, LVolume (Err err) ∈ before ∧ errors_Is err ErrNotFound = true
  | LCreate l _ =>
      l = limits ∧ (∃ err, LInspect (Err err) ∈ before ∧ errors_Is err ErrNotFound = true) ∧
      (∃ host, LInfo (Ok host) ∈ before ∧ preflight host limits = Ok tt) ∧
      (LVolume (Ok (MkVolumeState true)) ∈ before ∨ LCreateVolume None ∈ before)
  | LStart _ =>
      LVolume (Ok (MkVolumeState true)) ∈ before ∧
      ∃ host, LInfo (Ok host) ∈ before ∧
        (LCreate limits None ∈ before ∧ preflight host limits = Ok tt ∨
         ∃ c, LInspect (Ok c) ∈ before ∧ verifyContainer c = Ok tt ∧ ct_Running c = false ∧
           checkRequestedLimits (ct_Limits c) limits = Ok tt ∧ preflight host (ct_Limits c) = Ok tt)
  | LStop _ => False
  | LSave archive _ => LCopy (Ok archive) ∈ before ∧ LHealth (Ok HealthReady) ∈ before
  | _ => True
  end.
Definition careful (limits : Limits) (log : list entry) : Prop :=
  ∀ before e after, log = before ++ e :: after → justified limits before e.

(** What a success rests on. *)
Definition succeeded (limits : Limits) (log : list entry) : Prop :=
  (∃ before archive, log = before ++ [LHealth (Ok HealthReady); LCopy (Ok archive); LSave archive None]) ∧
  LVolume (Ok (MkVolumeState true)) ∈ log ∧
  (LCreate limits None ∈ log ∧ LStart None ∈ log ∨
   ∃ c, LInspect (Ok c) ∈ log ∧ verifyContainer c = Ok tt ∧ (ct_Running c = true ∨ LStart None ∈ log)).

(** ** A logic of calls *)
Section logic.
Context (limits : Limits).

Lemma careful_nil : careful limits [].
Proof using. intros before e after H. by destruct before. Qed.
Lemma careful_snoc log e : careful limits log → justified limits log e → careful limits (log ++ [e]).
Proof using.
  intros Hc Hj before e' after H. destruct after as [|x after _] using rev_ind.
  - apply app_inj_tail in H as [-> ->]. done.
  - rewrite app_comm_cons, app_assoc in H. apply app_inj_tail in H as [-> _]. by eapply Hc.
Qed.

(** What is known to have happened. *)
Definition known (K log : list entry) : Prop := ∀ e, e ∈ K → e ∈ log.
Definition spec {A} (K : list entry) (m : App A) (Q : A → list entry → Prop) : Prop :=
  ∀ s, careful limits (ap_log s) → known K (ap_log s) →
    let '(a, s') := m s in careful limits (ap_log s') ∧ Q a (ap_log s').

Lemma known_snoc K log e : known K log → known (e :: K) (log ++ [e]).
Proof using. intros Hk x [->|Hx]%elem_of_cons; apply elem_of_app; [right; by left|left; by apply Hk]. Qed.

Lemma spec_ret {A} K (a : A) (Q : A → list entry → Prop) : (∀ log, known K log → Q a log) → spec K (mret a) Q.
Proof using. intros HQ s Hc Hk. split; [done|by apply HQ]. Qed.
Lemma spec_ask {A B} K (f : nat → A) mk (g : A → App B) Q :
  (∀ log a, known K log → justified limits log (mk a)) → (∀ a, spec (mk a :: K) (g a) Q) → spec K (ask f mk ≫= g) Q.
Proof using.
  intros Hj Hg s Hc Hk. unfold mbind, App_bind, ask. set (a := f (ap_time s)).
  apply (Hg a (MkAppState (S (ap_time s)) (ap_log s ++ [mk a]))); simpl; [apply careful_snoc; [done|by apply Hj]|by apply known_snoc].
Qed.
Lemma spec_checked {A} K f mk (next : App (option (result A))) Q :
  (∀ log a, known K log → justified limits log (mk a)) →
  (∀ e log, Q (Some (Err e)) log) → spec (mk None :: K) next Q → spec K (checked (ask f mk) next) Q.
Proof using. intros Hj He Hn. apply spec_ask; [done|]. intros [e|]; [by apply spec_ret|done]. Qed.
Lemma spec_got {A B} K f (mk : result A → entry) (g : A → App (option (result B))) Q :
  (∀ log a, known K log → justified limits log (mk a)) →
  (∀ e log, Q (Some (Err e)) log) → (∀ a, spec (mk (Ok a) :: K) (g a) Q) → spec K (got (ask f mk) g) Q.
Proof using. intros Hj He Hn. apply spec_ask; [done|]. intros [a|e]; [done|by apply spec_ret]. Qed.
Lemma spec_passed {A} K r (next : App (option (result A))) Q :
  (∀ e log, Q (Some (Err e)) log) → (r = Ok tt → spec K next Q) → spec K (passed r next) Q.
Proof using. intros He Hn. destruct r as [[]|e]; [by apply Hn|by apply spec_ret]. Qed.
End logic.

(** ** The manager *)
Section manager_spec.
Context (h : Host) (limits : Limits).
Abbreviation spec := (spec limits).

Ltac call := first [intros log a Hk; exact Logic.I | done].

Lemma known_mono K log log' : known K log → known K (log ++ log').
Proof using. intros Hk e He. apply elem_of_app. left. by apply Hk. Qed.

Lemma waitReady_spec fuel timeout K :
  spec K (waitReady h fuel timeout) (λ r log, known K log ∧
    (r = Some (Ok tt) → ∃ before, log = before ++ [LHealth (Ok HealthReady)])).
Proof using.
  induction fuel as [|fuel IH]; [by apply spec_ret|]. cbn [waitReady]. intros s Hc Hk.
  unfold mbind at 1, App_bind, ask at 1. set (state := a_health h (ap_time s)).
  set (s1 := MkAppState _ _). assert (careful limits (ap_log s1)) as Hc1 by by apply careful_snoc.
  assert (known K (ap_log s1)) as Hk1 by by apply known_mono.
  destruct (bool_decide (state = Ok HealthReady)) eqn:Es.
  { apply bool_decide_eq_true in Es. simpl. split_and!; [done..|]. intros _. exists (ap_log s). by rewrite Es. }
  unfold mbind, App_bind, ask at 1. set (s2 := MkAppState _ _).
  assert (careful limits (ap_log s2)) as Hc2 by by apply careful_snoc. assert (known K (ap_log s2)) as Hk2 by by apply known_mono.
  destruct (a_done h _) as [e|]; [by split_and!|].
  unfold got, mbind, App_bind, ask. set (s3 := MkAppState _ _).
  assert (careful limits (ap_log s3)) as Hc3 by by apply careful_snoc. assert (known K (ap_log s3)) as Hk3 by by apply known_mono.
  destruct (a_inspect h _) as [c|e]; [|by split_and!]. destruct (negb _); [by split_and!|]. by apply IH.
Qed.

(** After the start: what is known of the container holds, and the credential was saved. *)
Lemma waitAndSave_spec fuel K :
  spec K (waitAndSave h fuel) (λ r log, known K log ∧
    (r = Some (Ok tt) → ∃ before archive, log = before ++ [LHealth (Ok HealthReady); LCopy (Ok archive); LSave archive None])).
Proof using.
  intros s Hc Hk. unfold waitAndSave, mbind, App_bind at 1. pose proof (waitReady_spec fuel "2m0s" K s Hc Hk) as Hw.
  destruct (waitReady h fuel "2m0s" s) as [w s1]. destruct Hw as (Hc1 & Hk1 & Hready).
  destruct w as [[[]|e]|]; [|by split_and!..]. destruct (Hready eq_refl) as [before Hlog].
  unfold got, mbind, App_bind, ask at 1. set (s2 := MkAppState _ _).
  assert (careful limits (ap_log s2)) as Hc2 by by apply careful_snoc. assert (known K (ap_log s2)) as Hk2 by by apply known_mono.
  destruct (a_copy h _) as [archive|e] eqn:Ec; [|by split_and!].
  unfold ask. set (s3 := MkAppState _ _).
  assert (careful limits (ap_log s3)) as Hc3.
  { apply careful_snoc; [done|]. unfold s2. simpl. rewrite Hlog, ?Ec. split; set_solver. }
  assert (known K (ap_log s3)) as Hk3 by by apply known_mono.
  destruct (a_save h _) as [e|] eqn:Es; [by split_and!|]. split_and!; [done..|]. intros _. exists before, archive.
  unfold s3, s2. simpl. by rewrite ?Es, ?Ec, Hlog, <- !app_assoc.
Qed.

(** The container that is brought up: created by this run, or found and checked. *)
Definition container (K : list entry) (host : HostInfo) (c : ContainerState) : Prop :=
  LInfo (Ok host) ∈ K ∧
  (LCreate limits None ∈ K ∧ preflight host limits = Ok tt ∧ ct_Running c = false ∨
   LInspect (Ok c) ∈ K ∧ verifyContainer c = Ok tt ∧ checkRequestedLimits (ct_Limits c) limits = Ok tt ∧
   preflight host (ct_Limits c) = Ok tt).

Abbreviation success := (λ (r : option (result unit)) log, r = Some (Ok tt) → succeeded limits log).

Lemma spec_weaken {A} K (m : App A) (Q Q' : A → list entry → Prop) :
  spec K m Q → (∀ a log, Q a log → Q' a log) → spec K m Q'.
Proof using. intros Hm HQ s Hc Hk. specialize (Hm s Hc Hk). destruct (m s). destruct Hm. auto. Qed.

Lemma saved_success fuel K host c :
  container K host c → LVolume (Ok (MkVolumeState true)) ∈ K → (ct_Running c = true ∨ LStart None ∈ K) →
  spec K (waitAndSave h fuel) success.
Proof using.
  intros [_ Hct] Hv Hrun. eapply spec_weaken; [apply waitAndSave_spec|]. intros r log [Hk Hr] Hok. split_and!; [by apply Hr|by apply Hk|].
  destruct Hct as [(Hcr & _ & Hnot)|(Hi & Hver & _)].
  - left. split; [by apply Hk|]. destruct Hrun as [E|Hs]; [congruence|by apply Hk].
  - right. exists c. split_and!; [by apply Hk|done|]. destruct Hrun as [?|Hs]; [by left|right; by apply Hk].
Qed.

Lemma bringUp_spec fuel K host c : container K host c → spec K (bringUp h fuel c) success.
Proof using.
  intros Hct. unfold bringUp. apply spec_got; [call|done|]. intros [[]]; simpl; [|by apply spec_ret].
  assert (∀ e, container (e :: K) host c) as Hct1.
  { intros e. destruct Hct as [Hi [(? & ? & ?)|(? & ? & ? & ?)]]; split; [by right|left|by right|right]; split_and!; try done; by right. }
  destruct (ct_Running c) eqn:Er; simpl.
  - eapply saved_success; [apply Hct1|by left|by left].
  - apply spec_checked; [|done|].
    + intros log e Hk. split; [apply Hk; by left|]. destruct (Hct1 (LVolume (Ok (MkVolumeState true)))) as [Hi Hc'].
      exists host. split; [by apply Hk|]. destruct Hc' as [(? & ? & _)|(? & ? & ? & ?)]; [left|right; exists c]; split_and!; try done; by apply Hk.
    + eapply (saved_success _ _ host c); [|by right; left|by right; left].
      destruct (Hct1 (LVolume (Ok (MkVolumeState true)))) as [Hi [(? & ? & ?)|(? & ? & ? & ?)]];
        split; [by right|left|by right|right]; split_and!; try done; by right.
Qed.

Lemma Up_spec fuel : spec [] (Up h fuel limits) success.
Proof using.
  unfold Up. apply spec_checked; [call|done|]. apply spec_got; [call|done|]. intros host.
  apply spec_got; [call|done|]. intros [|]; simpl; [|by apply spec_ret]. apply spec_ask; [call|]. intros [c|e].
  - apply spec_passed; [done|]. intros Hv. apply spec_passed; [done|]. intros Hl. apply spec_passed; [done|]. intros Hp.
    apply (bringUp_spec _ _ host). split; [set_solver|]. right. split_and!; [by left|done..].
  - destruct (errors_Is e ErrNotFound) eqn:Ee; [|by apply spec_ret]. apply spec_passed; [done|]. intros Hp.
    unfold ensureVolume. apply spec_ask; [call|].
    assert (∀ K, LInfo (Ok host) ∈ K → LInspect (Err e) ∈ K → LVolume (Ok (MkVolumeState true)) ∈ K ∨ LCreateVolume None ∈ K →
      spec K (checked (ask (a_create h) (LCreate limits))
        (passed (verifyContainer (MkContainerState false true "" imageName volumeName limits ""))
           (bringUp h fuel (MkContainerState false true "" imageName volumeName limits "")))) success) as Hcreate.
    { intros K Hi He Hv. apply spec_checked; [|done|].
      - intros log err Hk. split_and!; [done|exists e; split; [by apply Hk|done]|exists host; split; [by apply Hk|done]|].
        destruct Hv; [left|right]; by apply Hk.
      - apply spec_passed; [done|]. intros _. apply (bringUp_spec _ _ host). split; [by right|]. left. split_and!; [by left|done..]. }
    intros [[[]]|e']; simpl.
    + apply Hcreate; [set_solver..|]. left. by left.
    + by apply spec_ret.
    + destruct (errors_Is e' ErrNotFound) eqn:Ee'; [|by apply spec_ret]. apply spec_checked; [|done|].
      * intros log err Hk. split; [exists e|exists e']; (split; [apply Hk; set_solver|done]).
      * apply Hcreate; [set_solver..|]. right. by left.
Qed.
End manager_spec.

(** ** Coming to an end *)
Section ends.
Context (h : Host) (n : nat) (Hexp : ∀ m, (n ≤ m)%nat → is_Some (a_done h m)).

Definition total {A} (m : App (option A)) : Prop := ∀ s, ∃ a s', m s = (Some a, s').
Lemma total_returns {A} (r : result A) : total (returns r).
Proof using. intros s. by eexists _, _. Qed.
Lemma total_ask {A B} f mk (g : A → App (option B)) : (∀ a, total (g a)) → total (ask f mk ≫= g).
Proof using. intros Hg s. unfold mbind, App_bind, ask. apply Hg. Qed.
Lemma total_checked {A} f mk (next : App (option (result A))) : total next → total (checked (ask f mk) next).
Proof using. intros Hn. apply total_ask. intros [e|]; [apply total_returns|done]. Qed.
Lemma total_got {A B} f (mk : result A → entry) (g : A → App (option (result B))) : (∀ a, total (g a)) → total (got (ask f mk) g).
Proof using. intros Hg. apply total_ask. intros [a|e]; [done|apply total_returns]. Qed.
Lemma total_passed {A} r (next : App (option (result A))) : total next → total (passed r next).
Proof using. intros Hn. destruct r; [done|apply total_returns]. Qed.
Lemma total_if {A} (b : bool) (m m' : App (option A)) : total m → total m' → total (if b then m else m').
Proof using. by destruct b. Qed.

(** Each round looks at three things. *)
Lemma waitReady_total fuel timeout s :
  (n ≤ ap_time s + 3 * fuel)%nat → ∃ r s', waitReady h (S fuel) timeout s = (Some r, s').
Proof using Hexp.
  revert s. induction fuel as [|fuel IH]; intros s Hn; cbn [waitReady]; unfold mbind, App_bind, ask at 1;
    (destruct (bool_decide _); [by eexists _, _|]); unfold ask at 1; simpl.
  - destruct (Hexp (S (ap_time s))) as [e ->]; [lia|]. by eexists _, _.
  - destruct (a_done h _); [by eexists _, _|]. unfold got, mbind, App_bind, ask. simpl.
    destruct (a_inspect h _) as [c|e]; [|by eexists _, _]. destruct (negb _); [by eexists _, _|]. apply IH. simpl. lia.
Qed.

Lemma Up_total fuel limits : (n ≤ 3 * fuel)%nat → total (Up h (S fuel) limits).
Proof using Hexp.
  intros Hf. assert (total (waitAndSave h (S fuel))) as Hw.
  { intros s. unfold waitAndSave, mbind, App_bind at 1.
    destruct (waitReady_total fuel "2m0s" s) as (r & s' & E); [lia|]. rewrite E. destruct r as [[]|e]; [|apply total_returns].
    apply total_got. intros a. apply total_ask. intros [e|]; apply total_returns. }
  assert (∀ c, total (bringUp h (S fuel) c)) as Hb.
  { intros c. apply total_got. intros v. apply total_if; [apply total_returns|]. apply total_if; [by apply total_checked|done]. }
  apply total_checked, total_got. intros host. apply total_got. intros b. apply total_if; [apply total_returns|].
  apply total_ask. intros [c|e]; [by repeat apply total_passed|]. apply total_if; [|apply total_returns].
  apply total_passed, total_ask. intros [v|e']; [apply total_if; [apply total_returns|]|apply total_if; [apply total_checked|apply total_returns]];
    by apply total_checked, total_passed.
Qed.
End ends.

(** ** The other commands *)
Lemma Down_spec h :
  ∃ r log, (Down h (MkAppState 0 [])).1 = Some r ∧ ap_log (Down h (MkAppState 0 [])).2 = log ∧
    (r = Ok tt → (∃ e, log = [LPing None; LInspect (Err e)] ∧ errors_Is e ErrNotFound = true) ∨
       ∃ c, verifyContainer c = Ok tt ∧
         (log = [LPing None; LInspect (Ok c)] ∧ ct_Running c = false ∨ log = [LPing None; LInspect (Ok c); LStop None])) ∧
    (∀ e, LStop e ∈ log → ∃ c, log = [LPing None; LInspect (Ok c); LStop e] ∧ verifyContainer c = Ok tt ∧ ct_Running c = true) ∧
    Forall (λ x, match x with LPing _ | LInspect _ | LStop _ => True | _ => False end) log.
Proof.
  unfold Down, checked, mbind, App_bind, ask, passed, returns, mret, App_ret. simpl.
  destruct (a_ping h 0) as [e|]; simpl.
  { eexists _, _. split_and!; [done|done|done| |by repeat constructor]. intros e' He. set_solver. }
  destruct (a_inspect h 1) as [c|e] eqn:Ei; simpl.
  - destruct (verifyContainer c) as [[]|e] eqn:Ev; simpl.
    2: { eexists _, _. split_and!; [done|done|done| |by repeat constructor]. intros e' He. set_solver. }
    destruct (ct_Running c) eqn:Er; simpl.
    + destruct (a_stop h 2) as [e|] eqn:Es; simpl; (eexists _, _; split_and!; [done|done| | |by repeat constructor]).
      * done.
      * intros e' He. exists c. assert (e' = Some e) as -> by set_solver. done.
      * intros _. right. exists c. eauto.
      * intros e' He. exists c. assert (e' = None) as -> by set_solver. done.
    + eexists _, _. split_and!; [done|done| | |by repeat constructor]; [|intros e' He; set_solver]. intros _. right. exists c. eauto.
  - destruct (errors_Is e ErrNotFound) eqn:Ee; simpl; (eexists _, _; split_and!; [done|done| | |by repeat constructor]).
    + intros _. left. eauto.
    + intros e' He. set_solver.
    + done.
    + intros e' He. set_solver.
Qed.

Lemma Status_spec h :
  let '(r, s) := Status h (MkAppState 0 []) in
  Forall (λ x, match x with LPing _ | LInspect _ | LHealth _ => True | _ => False end) (ap_log s) ∧
  (r = Some (Ok StatusReady) ↔
   ∃ c, ap_log s = [LPing None; LInspect (Ok c); LHealth (Ok HealthReady)] ∧ verifyContainer c = Ok tt ∧ ct_Running c = true).
Proof.
  unfold Status, checked, mbind, App_bind, ask, passed, returns, mret, App_ret. simpl.
  destruct (a_ping h 0) as [e|]; simpl; [split; [by repeat constructor|naive_solver]|].
  destruct (a_inspect h 1) as [c|e] eqn:Ei; simpl; [|destruct (errors_Is _ _); (split; [by repeat constructor|naive_solver])].
  destruct (verifyContainer c) as [[]|e] eqn:Ev; simpl; [|split; [by repeat constructor|naive_solver]].
  destruct (ct_Running c) eqn:Er; simpl; [|split; [by repeat constructor|naive_solver]].
  destruct (a_health h 2) as [[]|e]; simpl; (split; [by repeat constructor|]); try naive_solver.
  split; [|naive_solver]. destruct (_ ==? _); naive_solver.
Qed.

(** The probe recognises what the daemon answers. *)
Lemma probe_daemon s d :
  let r := (GetHealth s d).1.1 in
  probe (Ok (code r, writeJSON r)) = if srv_ready s then HealthReady else HealthStarting.
Proof. unfold GetHealth. destruct (srv_ready s); vm_compute; reflexivity. Qed.


(** A host without the appliance; it is ready at the second look. *)
Definition demo_limits : Limits := MkLimits (4 * 2 ^ 30) (2 * 10 ^ 9) 4096 (MkLimitSelection false false false).
Definition demo_host : Host := MkHost (λ _, None)
  (λ _, Ok (MkHostInfo false "2" "6.8.0-45-generic" "linux" "x86_64" (16 * 2 ^ 30) 8 true true true)) (λ _, Ok true)
  (λ n, if (n =? 3)%nat then Err (Wrapf (Sprintf "inspect appliance container: %w" []) ErrNotFound)
        else Ok (MkContainerState true true "running" imageName volumeName demo_limits "starting"))
  (λ n, if (n =? 4)%nat then Err (Wrapf (Sprintf "inspect appliance volume: %w" []) ErrNotFound) else Ok (MkVolumeState true))
  (λ _, None) (λ _, None) (λ _, None) (λ _, None) (λ _, Ok [1; 2; 3]) (λ _, None)
  (λ n, Ok (if (n <? 10)%nat then HealthStarting else HealthReady))
  (λ n, if (n <? 30)%nat then None else Some (ErrIO "context deadline exceeded")).

