(* ===== verification/Docker.v ===== *)
(** The Docker engine of the appliance: [internal/appliance/docker.go], as programs over
    the calls it makes to the Docker client.  [IsNotFound] is the classification of
    the client's errors by [containerd/errdefs]. *)

From S2P Require Import Prelude Errors GoStrings Programs Appliance.
Local Open Scope Z_scope.

Definition ownerLabel : string := "io.nephos.appliance".

(** ** Types of the Docker API, with the fields that are used *)
Record containerConfig := MkContainerConfig { cc_Image : string; cc_Labels : gmap string string; cc_ExposedPorts : list string }.
Record Mount := MkMount { mt_Type : string; mt_Source : string; mt_Target : string }.
Record PortBinding := MkPortBinding { pb_HostIP : string; pb_HostPort : string }.
Record HostConfig := MkHostConfig {
  hc_Privileged : bool; hc_CgroupnsMode : string; hc_NetworkMode : string; hc_PidMode : string;
  hc_Mounts : list Mount; hc_PortBindings : list (string * list PortBinding);
  hc_Memory : Z; hc_NanoCPUs : Z; hc_PidsLimit : option Z
}.
Record dockerState := MkDockerState { ds_Running : bool; ds_Status : string; ds_Health : option string }.
Record MountPoint := MkMountPoint { mp_Type : string; mp_Name : string; mp_Destination : string }.
Record inspected := MkInspected {
  in_State : option dockerState; in_Config : option containerConfig; in_Mounts : list MountPoint; in_HostConfig : option HostConfig
}.
Record dockerInfo := MkDockerInfo {
  di_SecurityOptions : list string; di_CgroupVersion : string; di_KernelVersion : string; di_OSType : string;
  di_Architecture : string; di_MemTotal : Z; di_NCPU : Z; di_MemoryLimit : bool; di_PidsLimit : bool; di_CPUCfsQuota : bool
}.

(** ** Calls *)
Inductive docker :=
  | ClientNew | ClientPing | ClientInfo | ImageInspect (name : string) | ContainerInspect (name : string)
  | VolumeInspect (name : string) | VolumeCreate (name : string) (labels : gmap string string)
  | ContainerCreate (name : string) (config : containerConfig) (host : HostConfig)
  | ContainerStart (name : string) | ContainerStop (name : string) | ContainerRemove (name : string)
  | VolumeRemove (name : string) | CopyFromContainer (name path : string).
#[export] Instance docker_calls : Signature docker := λ c,
  match c with
  | ClientInfo => result dockerInfo
  | ContainerInspect _ => result inspected
  | VolumeInspect _ => result (gmap string string) (* the labels *)
  | CopyFromContainer _ _ => result (list Z)
  | _ => result unit
  end.
Abbreviation K := (prog docker).

(** A label that is missing reads as the empty string. *)
Definition label (labels : gmap string string) (key : string) : string := default "" (labels !! key).

Definition ContainerConfig (limits : Limits) : containerConfig * HostConfig :=
  (MkContainerConfig imageName {[ownerLabel := "true"]} ["7788/tcp"],
   MkHostConfig true "private" "default" "" [MkMount "volume" volumeName "/var/lib/nephos"]
     [("7788/tcp", [MkPortBinding "127.0.0.1" "7788"])] (lm_MemoryBytes limits) (lm_NanoCPUs limits) (Some (lm_PIDs limits))).

(** What is made of an inspected container, field by field. *)
Definition noLimits : Limits := MkLimits 0 0 0 (MkLimitSelection false false false).
Fixpoint dataVolume (mounts : list MountPoint) (found : string) : string :=
  match mounts with
  | [] => found
  | m :: mounts' =>
      dataVolume mounts' (if (mp_Type m ==? "volume") && (mp_Destination m ==? "/var/lib/nephos") then mp_Name m else found)
  end.
Definition hostLimits (h : option HostConfig) : Limits :=
  match h with
  | Some h => MkLimits (hc_Memory h) (hc_NanoCPUs h) (default 0 (hc_PidsLimit h)) (MkLimitSelection false false false)
  | None => noLimits
  end.
Definition containerState (c : inspected) : ContainerState :=
  MkContainerState
    (match in_State c with Some s => ds_Running s | None => false end)
    (match in_Config c with Some cfg => label (cc_Labels cfg) ownerLabel ==? "true" | None => false end)
    (match in_State c with Some s => ds_Status s | None => "" end)
    (match in_Config c with Some cfg => cc_Image cfg | None => "" end)
    (dataVolume (in_Mounts c) "")
    (hostLimits (in_HostConfig c))
    (match in_State c with Some s => default "" (ds_Health s) | None => "" end).
Definition hostInfo (i : dockerInfo) : HostInfo :=
  MkHostInfo (bool_decide ("name=rootless" ∈ di_SecurityOptions i)) (di_CgroupVersion i) (di_KernelVersion i) (di_OSType i)
    (di_Architecture i) (di_MemTotal i) (di_NCPU i) (di_MemoryLimit i) (di_PidsLimit i) (di_CPUCfsQuota i).

Section engine.
Context (IsNotFound : error → bool).

Definition objectError (action : string) (err : error) : error :=
  if IsNotFound err then Wrapf (Sprintf "%s: %w" [action]) ErrNotFound else Wrapf (Sprintf "%s: %w" [action]) err.
(** A call on the appliance's container or volume. *)
Definition on_object {A B} (action : string) (m : K (result A)) (f : A → B) : K (result B) :=
  r ← m; mret (match r with Ok a => Ok (f a) | Err e => Err (objectError action e) end).
Definition plainly {A} (t : string) (m : K (result A)) : K (result unit) := got_as (lit t) m (λ _, mret (Ok tt)).

Definition NewDockerEngine : K (result unit) := plainly "configure Docker client: %w" (call ClientNew).
Definition Ping : K (result unit) := plainly "connect to Docker: %w" (call ClientPing).
Definition Info : K (result HostInfo) :=
  got_as (lit "inspect Docker host: %w") (call ClientInfo) (λ i : dockerInfo, mret (Ok (hostInfo i))).
Definition ImageExists : K (result bool) :=
  r ← call (ImageInspect imageName);
  mret (match r : result unit with
        | Ok _ => Ok true
        | Err e => if IsNotFound e then Ok false else Err (Wrapf (lit "inspect appliance image: %w") e)
        end).
Definition Inspect : K (result ContainerState) :=
  on_object "inspect appliance container" (call (ContainerInspect containerName)) containerState.
Definition InspectVolume : K (result VolumeState) :=
  on_object "inspect appliance volume" (call (VolumeInspect volumeName))
    (λ labels, MkVolumeState (label labels ownerLabel ==? "true")).
Definition CreateVolume : K (result unit) :=
  plainly "create appliance volume: %w" (call (VolumeCreate volumeName {[ownerLabel := "true"]})).
Definition Create (limits : Limits) : K (result unit) :=
  let '(cfg, host) := ContainerConfig limits in
  plainly "create appliance container: %w" (call (ContainerCreate containerName cfg host)).
Definition Start : K (result unit) := plainly "start appliance container: %w" (call (ContainerStart containerName)).
Definition Stop : K (result unit) := on_object "stop appliance container" (call (ContainerStop containerName)) id.
Definition Remove : K (result unit) := on_object "remove appliance container" (call (ContainerRemove containerName)) id.
Definition RemoveVolume : K (result unit) := on_object "remove appliance volume" (call (VolumeRemove volumeName)) id.
Definition CopyFile : K (result (list Z)) :=
  on_object "copy appliance token" (call (CopyFromContainer containerName "/var/lib/nephos/secrets/api-token")) id.
End engine.

(** ** The engine keeps to its objects *)

(** Calls on the appliance's own objects; what is created is labelled, reachable on the
    loopback interface only and mounts nothing but the volume. *)
Definition own (limits : Limits) (c : docker) : Prop :=
  match c with
  | ClientNew | ClientPing | ClientInfo => True
  | ImageInspect name => name = imageName
  | ContainerInspect name | ContainerStart name | ContainerStop name | ContainerRemove name => name = containerName
  | CopyFromContainer name path => name = containerName ∧ path = "/var/lib/nephos/secrets/api-token"
  | VolumeInspect name | VolumeRemove name => name = volumeName
  | VolumeCreate name labels => name = volumeName ∧ label labels ownerLabel = "true"
  | ContainerCreate name config host =>
      name = containerName ∧ cc_Image config = imageName ∧ label (cc_Labels config) ownerLabel = "true" ∧
      (∀ m, m ∈ hc_Mounts host → mt_Type m = "volume" ∧ mt_Source m = volumeName) ∧
      (∀ port bindings b, (port, bindings) ∈ hc_PortBindings host → b ∈ bindings → pb_HostIP b = "127.0.0.1") ∧
      hc_Memory host = lm_MemoryBytes limits ∧ hc_NanoCPUs host = lm_NanoCPUs limits ∧ hc_PidsLimit host = Some (lm_PIDs limits)
  end.
Definition issues {A} (limits : Limits) (p : K A) : Prop := wp (λ _, own limits) p [] (λ _ _, True).
Definition engine_is_bound (IsNotFound : error → bool) (limits : Limits) : Prop :=
  issues limits NewDockerEngine ∧ issues limits Ping ∧ issues limits Info ∧ issues limits (ImageExists IsNotFound) ∧
  issues limits (Inspect IsNotFound) ∧ issues limits (InspectVolume IsNotFound) ∧ issues limits CreateVolume ∧
  issues limits (Create limits) ∧ issues limits Start ∧ issues limits (Stop IsNotFound) ∧ issues limits (Remove IsNotFound) ∧
  issues limits (RemoveVolume IsNotFound) ∧ issues limits (CopyFile IsNotFound).

Lemma own_container limits :
  own limits (ContainerCreate containerName (ContainerConfig limits).1 (ContainerConfig limits).2).
Proof.
  cbn. split_and!; try done.
  - by intros m ->%list_elem_of_singleton.
  - intros port bindings b [= -> ->]%list_elem_of_singleton Hb. by apply list_elem_of_singleton in Hb as ->.
Qed.
Lemma plainly_issues {A} limits t (m : K (result A)) : issues limits m → issues limits (plainly t m).
Proof. intros H. apply any_got_as; [done|]. by intros. Qed.
Lemma on_object_issues {A B} IsNotFound limits action (m : K (result A)) (f : A → B) :
  issues limits m → issues limits (on_object IsNotFound action m f).
Proof. intros H. apply any_bind; [done|]. by intros. Qed.
Lemma call_issues limits c : own limits c → issues limits (call c).
Proof. intros H. by apply any_call. Qed.
Lemma engine_bound IsNotFound limits : engine_is_bound IsNotFound limits.
Proof.
  split_and!; try (apply plainly_issues, call_issues; done); try (apply on_object_issues, call_issues; done).
  - apply any_got_as; [by apply any_call|]. by intros.
  - apply any_bind; [by apply any_call|]. by intros.
  - apply plainly_issues, call_issues, own_container.
Qed.

(** An object is missing for the manager exactly if Docker says so. *)
Lemma objectError_missing IsNotFound action e :
  errors_Is (objectError IsNotFound action e) ErrNotFound = IsNotFound e || errors_Is e ErrNotFound.
Proof. unfold objectError. by destruct (IsNotFound e). Qed.

(** ** What is created is recognised *)

(** An inspection shows a container as it was configured: every mount is a mount
    point, and the only one at its target. *)
Definition shows (config : containerConfig) (host : HostConfig) (c : inspected) : Prop :=
  in_Config c = Some config ∧ in_HostConfig c = Some host ∧
  ∀ m, m ∈ hc_Mounts host → let p := MkMountPoint (mt_Type m) (mt_Source m) (mt_Target m) in
    p ∈ in_Mounts c ∧ ∀ q, q ∈ in_Mounts c → mp_Destination q = mt_Target m → q = p.
Lemma dataVolume_shown mounts found p :
  p ∈ mounts → mp_Type p = "volume" → mp_Destination p = "/var/lib/nephos" →
  (∀ q, q ∈ mounts → mp_Destination q = "/var/lib/nephos" → q = p) → dataVolume mounts found = mp_Name p.
Proof.
  intros Hp Ht Hd Hq. assert (p ∈ mounts ∨ found = mp_Name p) as H by by left. clear Hp. revert found H Hq.
  induction mounts as [|m mounts IH]; intros found H Hq; cbn [dataVolume].
  - destruct H as [H|H]; [by apply not_elem_of_nil in H|done].
  - apply IH; [|intros q Hin; apply Hq; by right].
    destruct ((mp_Type m ==? "volume") && (mp_Destination m ==? "/var/lib/nephos")) eqn:E.
    + right. apply andb_true_iff in E as [_ E]. apply (proj1 (beq_true _ _)) in E. by rewrite (Hq m ltac:(by left) E).
    + destruct H as [H|H]; [|by right]. apply elem_of_cons in H as [<-|H]; [|by left]. by rewrite Ht, Hd in E.
Qed.
Lemma created_is_recognised limits c :
  0 < lm_MemoryBytes limits → 0 < lm_NanoCPUs limits → 0 < lm_PIDs limits →
  shows (ContainerConfig limits).1 (ContainerConfig limits).2 c →
  verifyContainer (containerState c) = Ok tt ∧ checkRequestedLimits (ct_Limits (containerState c)) limits = Ok tt.
Proof.
  intros Hm Hn Hp (Hc & Hh & Hmounts). destruct (Hmounts (MkMount "volume" volumeName "/var/lib/nephos")) as [Hin Honly]; [by left|].
  split.
  - unfold verifyContainer, containerState. cbn [ct_Owned ct_Volume ct_Image]. rewrite Hc.
    rewrite (dataVolume_shown _ _ _ Hin) by done. vm_compute. reflexivity.
  - unfold checkRequestedLimits, containerState. cbn [ct_Limits]. rewrite Hh. cbn.
    rewrite !(proj2 (Z.leb_gt _ 0)), !Z.eqb_refl by done. cbn. by rewrite !andb_false_r.
Qed.
