(* ===== verification/Commands.v ===== *)
(** The appliance commands of the CLI ([cmd/nephos/lifecycle.go], [main.go]) and the
    build version ([internal/version]).  The arguments come as the flag package has
    parsed them, floating-point numbers as those of IEEE 754; its messages about flags it
    cannot parse are not modelled. *)

From Stdlib Require Import SpecFloat.
From S2P Require Import Prelude Errors GoStrings Utf8 Json EniPolicy Programs Appliance Docker.
Local Open Scope Z_scope.

(** ** Version *)
Record VersionInfo := MkVersionInfo {
  vi_Version : string; vi_Commit : string; vi_Date : string; vi_GoVersion : string; vi_Platform : string
}.
(** [version], [commit] and [date] are set by the linker. *)
Definition version_Get (version commit date goVersion GOOS GOARCH : string) : VersionInfo :=
  MkVersionInfo version commit date goVersion (GOOS +:+ "/" +:+ GOARCH).
Definition shortCommit (c : string) : string :=
  if (Z.of_nat (String.length c) <=? 7) then c else of_bytes (take 7 (bytes c)).
Definition Info_String (i : VersionInfo) : string :=
  vi_Version i +:+
  (if (vi_Commit i !=? "") && (vi_Commit i !=? "unknown") then " (" +:+ shortCommit (vi_Commit i) +:+ ")" else "") +:+
  " " +:+ vi_GoVersion i +:+ " " +:+ vi_Platform i.
Definition IsRelease (i : VersionInfo) : bool :=
  (vi_Version i !=? "dev") && (vi_Version i !=? "") && (vi_Commit i !=? "unknown").

(** ** Output *)
Record output := MkOutput { o_code : Z; o_stdout : list Z; o_stderr : list Z }.
Definition exitOK : Z := 0.
Definition exitUsage : Z := 2.
Definition line (s : string) : list Z := bytes s ++ [10].
Definition says (s : string) : output := MkOutput exitOK (line s) [].
Definition misused (s : string) : output := MkOutput exitUsage [] (line s).
(** [fmt.Fprintf(stderr, "nephos <command>: %v\n", err)] *)
Definition failed (command : string) (e : error) : output :=
  MkOutput 1 [] (line ("nephos " +:+ command +:+ ": " +:+ error_text e)).

(** [enc.SetIndent("", "  ")] for a struct of strings. *)
Definition indented (fields : list (string * string)) : list Z :=
  123 :: sep_by ((λ f, 10 :: 32 :: 32 :: quoted (bytes f.1) ++ 58 :: 32 :: quoted (bytes f.2)) <$> fields) ++ [10; 125; 10].
(** Writing to standard output is taken to succeed. *)
Definition printVersion (info : VersionInfo) (asJSON : bool) : output :=
  if negb asJSON then says (Info_String info)
  else MkOutput exitOK (indented [("version", vi_Version info); ("commit", vi_Commit info); ("date", vi_Date info);
                                  ("go_version", vi_GoVersion info); ("platform", vi_Platform info)]) [].

(** ** Memory limits *)

(** [strings.ToLower]; no other letter has one of ASCII as its lower case. *)
Definition lower_rune (r : rune) : list Z :=
  let c := r_code r in
  if (65 <=? c) && (c <=? 90) then [c + 32]
  else if c =? 304 then [105] (* dotted capital I *)
  else if c =? 8490 then [107] (* Kelvin *)
  else r_bytes r.
Definition ToLower (s : string) : list Z := flat_map lower_rune (decode (bytes s)).

Fixpoint cut_prefix (p s : list Z) : option (list Z) :=
  match p, s with
  | [], _ => Some s
  | b :: p', c :: s' => if b =? c then cut_prefix p' s' else None
  | _ :: _, [] => None
  end.
Definition CutSuffix (s suffix : list Z) : option (list Z) := reverse <$> cut_prefix (reverse suffix) (reverse s).

Definition memory_units : list (string * Z) :=
  [("gib", 2 ^ 30); ("gb", 2 ^ 30); ("g", 2 ^ 30); ("mib", 2 ^ 20); ("mb", 2 ^ 20); ("m", 2 ^ 20)].
Fixpoint cut_unit (units : list (string * Z)) (s : list Z) : list Z * Z :=
  match units with
  | [] => (s, 1)
  | (suffix, size) :: units' =>
      match CutSuffix s (bytes suffix) with
      | Some s' => (s', size)
      | None => cut_unit units' s
      end
  end.
Definition parseMemory (value : string) : result Z :=
  let '(s, multiplier) := cut_unit memory_units (ToLower (TrimSpace value)) in
  let invalid := Err (Errorf (Sprintf "invalid memory limit %q" [value])) in
  match ParseInt (of_bytes s) with
  | None => invalid
  | Some n => if (n <=? 0) || (Z.quot (2 ^ 63 - 1) multiplier <? n) then invalid else Ok (n * multiplier)
  end.

(** ** CPU limits *)
Definition zero64 : spec_float := S754_zero false.
Definition max_cpus : spec_float := S754_finite false (2 ^ 52)%positive (-45). (* 128 *)
Definition giga64 : spec_float := S754_finite false 8388608000000000%positive (-23). (* 1e9 *)
Definition badCPUs (cpus : spec_float) : bool :=
  match cpus with
  | S754_nan | S754_infinity _ => true
  | _ => SFleb cpus zero64 || SFltb max_cpus cpus
  end.
(** [int64(f)] of a number in range: towards zero. *)
Definition to_int64 (f : spec_float) : Z :=
  match f with
  | S754_finite s m e =>
      let n := if 0 <=? e then Z.pos m * 2 ^ e else Z.pos m / 2 ^ (- e) in if s then - n else n
  | _ => 0
  end.
Definition nanoCPUs (cpus : spec_float) : Z := to_int64 (SFmul 53 1024 cpus giga64).

(** ** Commands *)

(** [up_set]: the flags that were given. *)
Record upFlags := MkUpFlags { up_memory : string; up_cpus : spec_float; up_pids : Z; up_narg : Z; up_set : list string }.
Definition upDefaults : upFlags := MkUpFlags "4g" (S754_finite false (2 ^ 52)%positive (-51)) 4096 0 [].
Definition upLimits (f : upFlags) (bytes : Z) : Limits :=
  MkLimits bytes (nanoCPUs (up_cpus f)) (up_pids f)
    (MkLimitSelection (bool_decide ("memory" ∈ up_set f)) (bool_decide ("cpus" ∈ up_set f)) (bool_decide ("pids-limit" ∈ up_set f))).

Section commands.
Context (h : Host) (fuel : nat).

(** The manager's credential file: [home] is the home directory joined with
    [.nephos/credentials]. *)
Definition newManager (engine : result unit) (home : result string) : result string :=
  _ ← engine; wrap_err (lit "find home directory: %w") home.

(** [flags] is [None] if they could not be parsed. *)
Definition runUp (manager : result string) (flags : option upFlags) : App (option output) :=
  match flags with
  | None => mret (Some (MkOutput exitUsage [] []))
  | Some f =>
      if negb (up_narg f =? 0) then mret (Some (misused "nephos up: unexpected positional arguments"))
      else
        let invalid := mret (Some (misused "nephos up: invalid resource limits")) in
        match parseMemory (up_memory f) with
        | Err _ => invalid
        | Ok bytes =>
            if badCPUs (up_cpus f) || (up_pids f <=? 0) then invalid
            else
              match manager with
              | Err e => mret (Some (failed "up" e))
              | Ok _ =>
                  r ← Up h fuel (upLimits f bytes);
                  mret ((λ r : result unit,
                    match r with
                    | Err e => failed "up" e
                    | Ok _ => says "Nephos appliance ready at http://127.0.0.1:7788"
                    end) <$> r)
              end
        end
  end.
Definition runDown (manager : result string) (narg : Z) : App (option output) :=
  if negb (narg =? 0) then mret (Some (misused "nephos down: unexpected arguments"))
  else
    match manager with
    | Err e => mret (Some (failed "down" e))
    | Ok _ =>
        r ← Down h;
        mret ((λ r : result unit,
          match r with
          | Err e => failed "down" e
          | Ok _ => says "Nephos appliance stopped; data volume preserved"
          end) <$> r)
    end.
Definition status_text (s : ApplianceStatus) : string :=
  match s with
  | StatusMissing => "missing" | StatusStopped => "stopped" | StatusStarting => "starting"
  | StatusReady => "ready" | StatusUnhealthy => "unhealthy"
  end.
Definition runStatus (manager : result string) (narg : Z) : App (option output) :=
  if negb (narg =? 0) then mret (Some (misused "nephos status: unexpected arguments"))
  else
    match manager with
    | Err e => mret (Some (failed "status" e))
    | Ok _ =>
        r ← Status h;
        mret ((λ r : result ApplianceStatus, match r with Err e => failed "status" e | Ok s => says (status_text s) end) <$> r)
    end.
End commands.

(** What is run: [flags] are the global flags with the remaining arguments,
    [versionFlags] those of [version] with the number of arguments left. *)
Inductive invocation :=
  | RunVersion (asJSON : bool) | RunUp (args : list string) | RunDown (args : list string) | RunStatus (args : list string)
  | RunResource (kind : string) (args : list string) | RunInstance (args : list string) | RunConsole (args : list string)
  | Usage (stderr : string).
Definition runWithConfig (flags : option (bool * list string)) (versionFlags : list string → option (bool * Z)) : invocation :=
  match flags with
  | None => Usage ""
  | Some (asJSON, args) =>
      let cmd := default "" (head args) in
      let rest := tail args in
      if (cmd ==? "") || (cmd ==? "version") then
        if (1 <? Z.of_nat (length args)) then
          match versionFlags rest with
          | None => Usage ""
          | Some (jsonAfter, narg) =>
              if negb (narg =? 0) then Usage "nephos version: unexpected arguments" else RunVersion (asJSON || jsonAfter)
          end
        else RunVersion asJSON
      else if cmd ==? "up" then RunUp rest
      else if cmd ==? "down" then RunDown rest
      else if cmd ==? "status" then RunStatus rest
      else if (cmd ==? "vpc") || (cmd ==? "subnet") then RunResource cmd rest
      else if cmd ==? "instance" then RunInstance rest
      else if cmd ==? "console" then RunConsole rest
      else Usage (render "nephos: unknown command %q" [cmd] [])
  end.

(** ** Memory limits are read exactly *)
Lemma TrimSpace_words s : Forall (λ b, 33 ≤ b < 127) (bytes s) → TrimSpace s = s.
Proof.
  intros Hs. unfold TrimSpace.
  assert (decode (bytes s) = (λ b, MkRune b [b] true) <$> bytes s) as ->.
  { induction Hs as [|b l Hb Hl IH]; [done|]. rewrite decode_ascii_cons by lia. cbn. by rewrite IH. }
  assert (∀ l, Forall (λ b, 33 ≤ b < 127) l →
    drop_spaces ((λ b, MkRune b [b] true) <$> l) = (λ b, MkRune b [b] true) <$> l) as Hd.
  { intros l [|b l' Hb]; [done|]. cbn [fmap list_fmap drop_spaces r_code]. by rewrite IsSpace_word. }
  unfold trim_runes. rewrite Hd by done. rewrite <- fmap_reverse, Hd by by apply Forall_reverse.
  by rewrite <- fmap_reverse, reverse_involutive, runes_of_ascii, of_bytes_bytes.
Qed.
Definition plain_byte (b : Z) : Prop := 48 ≤ b ≤ 57 ∨ 97 ≤ b ≤ 122.
Lemma ToLower_plain s : Forall plain_byte (bytes s) → ToLower s = bytes s.
Proof.
  unfold ToLower. induction 1 as [|b l Hb Hl IH]; [done|]. unfold plain_byte in Hb. rewrite decode_ascii_cons by lia. cbn [flat_map].
  rewrite IH. unfold lower_rune. cbn [r_code r_bytes].
  destruct ((65 <=? b) && (b <=? 90)) eqn:E; [apply andb_true_iff in E as [??]; lia|].
  rewrite (proj2 (Z.eqb_neq b 304)), (proj2 (Z.eqb_neq b 8490)) by lia. done.
Qed.
Definition units : list (string * Z) := ("", 1) :: memory_units.
Lemma cut_unit_exact l u b :
  l ≠ [] → Forall (λ b, 48 ≤ b ≤ 57) l → (u, b) ∈ units → cut_unit memory_units (l ++ bytes u) = (l, b).
Proof.
  intros Hne Hl Hu.
  assert (∃ d l', reverse l = d :: l' ∧ 48 ≤ d ≤ 57) as (d & l' & Er & Hd).
  { destruct (reverse l) as [|d l'] eqn:E; [by apply (f_equal reverse) in E; rewrite reverse_involutive in E|].
    exists d, l'. split; [done|]. apply Forall_reverse in Hl. rewrite E in Hl. by inversion Hl. }
  assert (∀ c, 57 < c → (c =? d) = false) as Hc by (intros; apply Z.eqb_neq; lia).
  assert (reverse (d :: l') = l) as Eback by (by rewrite <- Er, reverse_involutive).
  assert (∀ suffix, CutSuffix (l ++ bytes u) suffix = reverse <$> cut_prefix (reverse suffix) (reverse (bytes u) ++ d :: l')) as Hcut.
  { intros suffix. unfold CutSuffix. by rewrite reverse_app, Er. }
  unfold memory_units. cbn [cut_unit]. rewrite !Hcut. clear Hcut.
  set (F := fmap (M := option) (@reverse Z)). assert (F None = None) as HN by done.
  assert (F (Some (d :: l')) = Some l) as HS by (exact (f_equal Some Eback)). clearbody F.
  unfold units in Hu. apply elem_of_cons in Hu as [Hu|Hu].
  { simplify_eq. change (reverse (bytes "") ++ d :: l') with (d :: l').
    change (reverse (bytes "gib")) with [98; 105; 103]. change (reverse (bytes "gb")) with [98; 103]. change (reverse (bytes "g")) with [103].
    change (reverse (bytes "mib")) with [98; 105; 109]. change (reverse (bytes "mb")) with [98; 109]. change (reverse (bytes "m")) with [109].
    cbn [cut_prefix]. rewrite !Hc by lia. rewrite !HN. change (bytes "") with (@nil Z). by rewrite app_nil_r. }
  apply list_elem_of_In in Hu. unfold memory_units in Hu. cbn [In] in Hu.
  destruct Hu as [Hu|[Hu|[Hu|[Hu|[Hu|[Hu|[]]]]]]]; injection Hu as <- <-; vm_compute; rewrite ?HN, HS; reflexivity.
Qed.
Lemma parseMemory_exact k u b :
  (u, b) ∈ units → 0 < k → k * b < 2 ^ 63 → parseMemory (FormatInt k +:+ u) = Ok (k * b).
Proof.
  intros Hu Hk Hb.
  assert (1 ≤ b ∧ Forall (λ b, 97 ≤ b ≤ 122) (bytes u)) as [Hb1 Hup].
  { unfold units, memory_units in Hu. apply list_elem_of_In in Hu. cbn [In] in Hu.
    destruct Hu as [Hu|[Hu|[Hu|[Hu|[Hu|[Hu|[Hu|[]]]]]]]]; injection Hu as <- <-; (split; [lia|]);
      apply (bool_decide_unpack _); vm_compute; exact I. }
  assert (k < 2 ^ 63) as Hk63 by nia. pose proof (digits_FormatInt k ltac:(lia)) as Hd. unfold parseMemory.
  rewrite TrimSpace_words, ToLower_plain, bytes_app, cut_unit_exact with (b := b); try done.
  - rewrite of_bytes_bytes, ParseInt_FormatInt by lia. rewrite (proj2 (Z.leb_gt k 0)) by lia. cbn [orb].
    rewrite Z.quot_div_nonneg by lia. rewrite (proj2 (Z.ltb_ge _ _)); [done|]. apply Z.div_le_lower_bound; nia.
  - intros E. destruct (format_digits_nonempty 20 k "") as (c & s & E' & _); [done|]. unfold FormatInt in E.
    rewrite (proj2 (Z.ltb_ge k 0)) in E by lia. by rewrite E' in E.
  - rewrite bytes_app. apply Forall_app. split; (eapply Forall_impl; [done|]); cbn; unfold plain_byte; lia.
  - rewrite bytes_app. apply Forall_app. split; (eapply Forall_impl; [done|]); cbn; lia.
Qed.
(** Nothing else is accepted. *)
Lemma cut_prefix_Some p s r : cut_prefix p s = Some r → s = p ++ r.
Proof.
  revert s. induction p as [|b p IH]; intros [|c s]; cbn [cut_prefix]; [by intros [= <-]..|done|].
  destruct (Z.eqb_spec b c) as [->|]; [|done]. intros E. by rewrite (IH _ E).
Qed.
Lemma CutSuffix_Some s suffix r : CutSuffix s suffix = Some r → s = r ++ suffix.
Proof.
  unfold CutSuffix. destruct (cut_prefix _ _) as [r'|] eqn:E; [|done]. intros [= <-]. apply cut_prefix_Some in E.
  apply (f_equal reverse) in E. by rewrite reverse_involutive, reverse_app, reverse_involutive in E.
Qed.
Lemma cut_unit_sound us s r b : cut_unit us s = (r, b) → ∃ u, (u, b) ∈ ("", 1) :: us ∧ s = r ++ bytes u.
Proof.
  induction us as [|[u' b'] us IH]; cbn [cut_unit].
  - intros [= <- <-]. exists "". rewrite app_nil_r. split; [by left|done].
  - destruct (CutSuffix s (bytes u')) as [r'|] eqn:E.
    + intros [= <- <-]. exists u'. split; [right; by left|]. by apply CutSuffix_Some.
    + intros (u & Hu & Hs)%IH. exists u. split; [|done]. apply elem_of_cons in Hu as [->|Hu]; [by left|]. right. by right.
Qed.
Lemma parseMemory_sound value n :
  parseMemory value = Ok n → 0 < n < 2 ^ 63 ∧
  ∃ r u b k, (u, b) ∈ units ∧ ToLower (TrimSpace value) = r ++ bytes u ∧ ParseInt (of_bytes r) = Some k ∧ n = k * b.
Proof.
  unfold parseMemory. destruct (cut_unit _ _) as [r b] eqn:E. apply cut_unit_sound in E as (u & Hu & Hs).
  destruct (ParseInt _) as [k|] eqn:Ek; [|done].
  destruct ((k <=? 0) || _) eqn:Eb; [done|]. apply orb_false_iff in Eb as [H1%Z.leb_gt H2%Z.ltb_ge]. intros [= <-].
  split; [|by exists r, u, b, k].
  assert (1 ≤ b) as Hb.
  { apply list_elem_of_In in Hu. cbn [In memory_units] in Hu.
    destruct Hu as [Hu|[Hu|[Hu|[Hu|[Hu|[Hu|[Hu|[]]]]]]]]; injection Hu as <- <-; lia. }
  rewrite Z.quot_div_nonneg in H2 by lia. pose proof (Z.mul_div_le (2 ^ 63 - 1) b ltac:(lia)). nia.
Qed.

(** ** Properties *)
Lemma failed_code command e : o_code (failed command e) = 1.
Proof. done. Qed.
(** The command either calls nothing or is the manager's [Up]. *)
Lemma runUp_cases h fuel manager f s :
  (∃ out, runUp h fuel manager (Some f) s = (Some out, s) ∧ o_code out ≠ exitOK) ∨
  ∃ n, parseMemory (up_memory f) = Ok n ∧ badCPUs (up_cpus f) = false ∧ 0 < up_pids f ∧
    let '(o, s1) := runUp h fuel manager (Some f) s in let '(r, s2) := Up h fuel (upLimits f n) s in
    s1 = s2 ∧ ∀ out, o = Some out → ∃ res, r = Some res ∧ o_code out ≠ exitUsage ∧ (o_code out = exitOK → res = Ok tt).
Proof.
  unfold runUp. destruct (negb _); [left; by eexists|]. destruct (parseMemory _) as [n|e]; [|left; by eexists].
  destruct (badCPUs _ || _) eqn:Eb; [left; by eexists|]. apply orb_false_iff in Eb as [Hc Hp%Z.leb_gt].
  destruct manager as [p|e]; [|left; by eexists]. right. exists n. split_and!; try done. unfold mbind, App_bind.
  destruct (Up h fuel (upLimits f n) s) as [r s']. split; [done|]. intros out Ho. destruct r as [[[]|e]|]; [..|done];
    injection Ho as <-; eexists; split_and!; done.
Qed.


Example up_defaults :
  parseMemory (up_memory upDefaults) = Ok (4 * 2 ^ 30) ∧ nanoCPUs (up_cpus upDefaults) = 2 * 10 ^ 9 ∧ badCPUs (up_cpus upDefaults) = false ∧
  parseMemory " 512MiB " = Ok (512 * 2 ^ 20) ∧ (∃ e, parseMemory "8589934592g" = Err e).
Proof. split_and!; try (vm_compute; reflexivity). eexists. vm_compute. reflexivity. Qed.
Example version_text :
  Info_String (version_Get "0.1.0" "0123456789abcdef" "unknown" "go1.24" "linux" "amd64") = "0.1.0 (0123456) go1.24 linux/amd64".
Proof. reflexivity. Qed.
