(* ===== verification/CliResolve.v ===== *)
(** Names on the command line: [resolveVPC], [resolveSubnet] and [resolveInstance]
    find exactly the resource that the user means.

    The client's search is proved against what the API promises about a listing
    ([Listing]); the three resources keep the promise. *)

From S2P Require Import Prelude Errors GoStrings Encodings Utf8 NetIP Validate Ipam Mac Model Json Snapshot.
From S2P Require Import Schema Tx Transitions Store Idempotency Refine RecordRefine.
From S2P Require Import NetworkService InstanceService ServiceRefine System Replay IdShape.
From S2P Require Import Api ApiSafety Paging Client Cli Wire Progress Converge InstanceConverge.
Local Open Scope Z_scope.

(** ** What a listing promises *)

(** A page of at most a hundred items, and the token of the last one if there are more. *)
Definition cut {A} (kind : string) (id : A → string) (xs : list A) : Page A :=
  MkPage (take 100 xs)
    (if (length xs <=? 100)%nat then None
     else Some (encodePageToken kind (from_option id "" (xs !! 99%nat)))).

Class Listing (A R : Type) `{Resource A} := {
  l_kind : string;
  l_table : DB → gmap string R;
  l_id : R → string;
  l_name : R → string;
  l_ws : R → string;
  l_up : server → bool;
  l_sane : A → Prop;
  l_received : A → A;
  l_row d k r : Inv d → l_table d !! k = Some r → l_id r = k ∧ l_ws r = "default" ∧ text8 (l_name r);
  l_shape d k r : Inv d → shaped d → l_table d !! k = Some r → validPageID l_kind k = true;
  l_unique d i j r s :
    Inv d → l_table d !! i = Some r → l_table d !! j = Some s → l_name r = l_name s → i = j;
  l_page s env token after d :
    l_up s = true → env_fault env = None → Inv d → decodePageToken l_kind (default "" token) = Ok after →
    ∃ xs, Forall2 (λ r x, res_id x = l_id r ∧ res_name x = l_name r ∧ l_sane x)
            (take 101 (rest l_id (λ r, l_ws r ==? "default") after (l_table d))) xs ∧
      res_list s env "default" (Some 100) token d = (MkResponse 200 (res_page (cut l_kind res_id xs)), d, []);
  l_hit s env id d r :
    l_up s = true → env_fault env = None → Inv d → l_table d !! id = Some r →
    ∃ x, res_id x = l_id r ∧ res_name x = l_name r ∧ l_sane x ∧
      res_get s env "default" id d = (MkResponse 200 (res_body x), d, []);
  l_miss s env id d :
    l_up s = true → env_fault env = None → l_table d !! id = None →
    ∃ e, res_get s env "default" id d = (MkResponse 404 (BError e), d, []);
  l_read_item x : l_sane x → cr_JSON <$> res_parseGet (wire (MkResponse 200 (res_body x))) = Ok (Some (l_received x));
  l_read_miss e :
    ∃ r, res_parseGet (wire (MkResponse 404 (BError e))) = Ok r ∧ cr_JSON r = None ∧ cr_StatusCode r = 404;
  l_read_page xs token : Forall l_sane xs →
    cr_JSON <$> res_parseList (wire (MkResponse 200 (res_page (MkPage xs token)))) =
    Ok (Some (MkPage (l_received <$> xs) (readback <$> token)));
  l_received_id x : res_id (l_received x) = readback (res_id x);
  l_received_name x : res_name (l_received x) = readback (res_name x);
  l_prefix : res_prefix = (if l_kind ==? "instance" then "i-" else l_kind +:+ "-");
  l_ascii : ascii7 l_kind;
  l_kind_nonempty : l_kind ≠ "";
  l_served s : srv_resources s = true → srv_instances s = true → l_up s = true
}.

(** ** The three listings *)
Lemma cut_page_cut {A B} kind (id : A → string) (f : A → B) (g : B → string) xs :
  (∀ x, g (f x) = id x) → (length xs ≤ 101)%nat → (∀ x, encodePageToken kind (id x) ≠ "") →
  page_body f (cut_page kind id 100 xs) = cut kind g (List.map f xs).
Proof.
  intros Hg Hl Ht. unfold cut_page, cut, page_body. rewrite length_map.
  destruct (length xs <=? 100)%nat eqn:E.
  - apply Nat.leb_le in E. rewrite (proj2 (Z.leb_le _ _)) by lia. simpl fst. simpl snd.
    rewrite take_ge by (rewrite length_map; lia). done.
  - apply Nat.leb_gt in E. rewrite (proj2 (Z.leb_gt _ _)) by lia. cbn [fst snd].
    change (Z.to_nat 100) with 100%nat. change (Z.to_nat (100 - 1)) with 99%nat.
    destruct (lookup_lt_is_Some_2 xs 99) as [x Hx]; [lia|]. rewrite Hx.
    rewrite (proj2 (beq_false _ _) (Ht x)). simpl negb. cbv iota.
    assert (List.map f xs !! 99%nat = Some (f x)) as Hy by (change (List.map f xs) with (f <$> xs); by rewrite list_lookup_fmap, Hx).
    rewrite Hy. simpl from_option. rewrite Hg. f_equal. change (List.map f) with (fmap (M := list) f). by rewrite <- fmap_take.
Qed.

Lemma encodePageToken_nonempty kind id : kind ≠ "" → encodePageToken kind id ≠ "".
Proof. intros Hk. unfold encodePageToken. destruct kind; [done|]. simpl. apply b64_Encode_nonempty. Qed.

Lemma life_int64 g del obs : lifecycle g del → generation_check g obs = true → int64 g ∧ int64 obs.
Proof. intros [-> ?] Hc. unfold generation_check in Hc. reflect_bools. unfold int64. lia. Qed.

Lemma rest_row {R} (key : R → string) f after (t : gmap string R) r :
  r ∈ rest key f after t → ∃ k, t !! k = Some r.
Proof. intros [Hr _]%elem_of_filter. by apply elem_of_by_id in Hr. Qed.

Lemma read_quiet {A} (q : query A) d : (autocommit None (read q) d).1 = q d.
Proof. unfold autocommit, read, mbind, tx_bind. simpl. by destruct (q d). Qed.

(** The items of the rows on a page. *)
Lemma load_rows {R M A} (load : R → result M) (f : M → A) (P : R → A → Prop) rows :
  (∀ r, r ∈ rows → ∃ m, load r = Ok m ∧ P r (f m)) →
  ∃ ms, mapM load rows = Ok ms ∧ Forall2 P rows (List.map f ms).
Proof.
  induction rows as [|r rows IH]; intros H; [exists []; by split; [|constructor]|].
  destruct (H r) as (m & Hm & Hp); [by left|]. destruct IH as (ms & Hms & Hps); [intros x Hx; apply H; by right|].
  exists (m :: ms). cbn [mapM List.map]. rewrite Hm. simpl. rewrite Hms. split; [done|by constructor].
Qed.

Lemma vpc_item d k r v : Inv d → vpcs d !! k = Some r → vpcFromRow r = Ok v →
  vb_Id (vpcResponse v) = v_ID r ∧ vb_Name (vpcResponse v) = v_Name r ∧ sane (vpcResponse v).
Proof.
  intros I Hr (p & _ & ->)%vpcFromRow_inv. destruct (inv_v d I k r Hr) as [_ _ _ _ Hc Hl _]. split_and!; [done..|].
  unfold vpc_check in Hc. reflect_bools. simpl. by eapply life_int64.
Qed.
Lemma subnet_item d k r v : Inv d → subnets d !! k = Some r → subnetFromRow r = Ok v →
  sb_Id (subnetResponse v) = s_ID r ∧ sb_Name (subnetResponse v) = s_Name r ∧ sane (subnetResponse v).
Proof.
  intros I Hr (p & _ & ->)%subnetFromRow_inv. destruct (inv_s d I k r Hr) as [_ _ _ _ Hc Hl _]. split_and!; [done..|].
  unfold subnet_check in Hc. reflect_bools. simpl. by eapply life_int64.
Qed.
Lemma instance_item d k r e i : Inv d → instances d !! k = Some r → instanceOfRows r e = Ok i →
  ib_Id (instanceResponse i) = i_ID r ∧ ib_Name (instanceResponse i) = i_Name r ∧ sane (instanceResponse i).
Proof.
  intros I Hr (a & _ & _ & ->)%instanceOfRows_inv. destruct (inv_i d I k r Hr) as [_ _ _ Hc Hl _ _]. split_and!; [done..|].
  unfold instance_check in Hc. reflect_bools. simpl. by eapply life_int64.
Qed.

Lemma instances_page d rs :
  Inv d → (∀ r, r ∈ rs → ∃ k, instances d !! k = Some r) →
  ∃ ms, runs (mapM tx_instanceFromRow rs) d ms d ∧
    Forall2 (λ r x, ib_Id x = i_ID r ∧ ib_Name x = i_Name r ∧ sane x) rs (List.map instanceResponse ms).
Proof.
  intros I Hrs. destruct (instances_load d rs I Hrs) as (ms & Hms & Hp). exists ms. split; [done|].
  apply Forall2_fmap_r. rewrite Forall2_lookup in Hp |- *. intros j. specialize (Hp j).
  destruct (rs !! j) as [r|] eqn:Hj; inversion Hp as [? x (e & He)|]; constructor.
  apply list_elem_of_lookup_2, Hrs in Hj as [k Hk]. by eapply instance_item.
Qed.

Lemma read_success {A} enc dec zero `{!Wired A enc dec zero} success x b :
  (depth enc dec zero <=? maxNestingDepth)%nat = true → enc_Body b = enc x → sane x →
  cr_JSON <$> parseResponse success dec zero (wire (MkResponse success b)) = Ok (Some (received x)).
Proof. intros. by erewrite parse_success. Qed.
Lemma read_missing {A} (dec : json → A → result A) zero e :
  ∃ r, parseResponse 200 dec zero (wire (MkResponse 404 (BError e))) = Ok r ∧ cr_JSON r = None ∧ cr_StatusCode r = 404.
Proof.
  destruct (parse_failure 200 dec zero (MkResponse 404 (BError e)) e) as (err & -> & _); [lia|simpl; lia|done|].
  by eexists.
Qed.

#[export, refine] Instance listing_vpc : Listing VpcBody Vpc := {|
  l_kind := "vpc"; l_table := vpcs; l_id := v_ID; l_name := v_Name; l_ws := v_WorkspaceID;
  l_up := srv_resources; l_sane := sane; l_received := received
|}.
Proof.
  - intros d k r I Hr. destruct (inv_v d I k r Hr). auto using name_text8.
  - intros d k r I Hs. by apply vpc_id_shape.
  - intros d i j r s I. apply (inv_vname d I).
  - intros s env token after d Hup Hf I Ht.
    destruct (load_rows vpcFromRow vpcResponse (λ r x, vb_Id x = v_ID r ∧ vb_Name x = v_Name r ∧ sane x)
      (take 101 (rest v_ID (λ r, v_WorkspaceID r ==? "default") after (vpcs d)))) as (ms & Hms & Hp).
    { intros r (j & Hj & _)%elem_of_take. apply list_elem_of_lookup_2, rest_row in Hj as [k Hk].
      destruct (vpcFromRow_total d k r I Hk) as [v Hv]. exists v. split; [done|]. by eapply vpc_item. }
    exists (List.map vpcResponse ms). split; [exact Hp|]. cbn [res_list resource_vpc]. unfold ListVpcs, checkResources.
    rewrite Hup. unfold ListVPCs. rewrite Hf. cbn [unless]. change (pageSize (default 0 (Some 100))) with (Ok 100).
    cbn [mbind result_bind]. rewrite Ht. cbn [mbind result_bind].
    change (store_ListVPCPage None defaultWorkspace after (100 + 1) d) with
      (mapM vpcFromRow (take 101 (rest v_ID (λ r, v_WorkspaceID r ==? "default") after (vpcs d)))). rewrite Hms.
    cbn [mbind result_bind reply_read reply]. unfold reply_read, reply.
    rewrite (cut_page_cut "vpc" VPC_ID vpcResponse vb_Id); [done|done| |by intros; apply encodePageToken_nonempty].
    apply mapM_Ok, Forall2_length in Hms. rewrite <- Hms, length_take. lia.
  - intros s env id d r Hup Hf I Hr. destruct (vpcFromRow_total d id r I Hr) as [v Hv].
    exists (vpcResponse v). destruct (vpc_item d id r v I Hr Hv) as (? & ? & ?). split_and!; [done..|].
    cbn [res_get resource_vpc]. unfold GetVpc, checkResources. rewrite Hup. unfold GetVPC, store_GetVPC. rewrite Hf. simpl.
    rewrite read_quiet, (q_GetVPC_hit d id _ r); [|done|by destruct (inv_v d I id r Hr)]. simpl. by rewrite Hv.
  - intros s env id d Hup Hf Hn. cbn [res_get resource_vpc]. unfold GetVpc, checkResources. rewrite Hup.
    unfold GetVPC, store_GetVPC. rewrite Hf. simpl.
    rewrite read_quiet. unfold q_GetVPC. rewrite Hn. simpl. eauto.
  - intros x Hx. by apply (read_success enc_VpcBody dec_VpcBody zero_VpcBody).
  - apply read_missing.
  - intros xs token Hxs.
    pose proof (read_success (enc_Page enc_VpcBody) (dec_Page dec_VpcBody zero_VpcBody) zero_Page 200
                (MkPage xs token) (BVpcs (MkPage xs token)) ltac:(by vm_compute) eq_refl Hxs) as Hp. exact Hp.
  - done.
  - done.
  - done.
  - by apply ascii7_lit.
  - done.
  - done.
Defined.

#[export, refine] Instance listing_subnet : Listing SubnetBody SubnetRow := {|
  l_kind := "subnet"; l_table := subnets; l_id := s_ID; l_name := s_Name; l_ws := s_WorkspaceID;
  l_up := srv_resources; l_sane := sane; l_received := received
|}.
Proof.
  - intros d k r I Hr. destruct (inv_s d I k r Hr). auto using name_text8.
  - intros d k r I Hs. by apply subnet_id_shape.
  - intros d i j r s I. apply (inv_sname d I).
  - intros s env token after d Hup Hf I Ht.
    destruct (load_rows subnetFromRow subnetResponse (λ r x, sb_Id x = s_ID r ∧ sb_Name x = s_Name r ∧ sane x)
      (take 101 (rest s_ID (λ r, s_WorkspaceID r ==? "default") after (subnets d)))) as (ms & Hms & Hp).
    { intros r (j & Hj & _)%elem_of_take. apply list_elem_of_lookup_2, rest_row in Hj as [k Hk].
      destruct (subnetFromRow_total d k r I Hk) as [v Hv]. exists v. split; [done|]. by eapply subnet_item. }
    exists (List.map subnetResponse ms). split; [exact Hp|]. cbn [res_list resource_subnet]. unfold api_ListSubnets, checkResources.
    rewrite Hup. unfold ListSubnets. rewrite Hf. cbn [unless]. change (pageSize (default 0 (Some 100))) with (Ok 100).
    cbn [mbind result_bind]. rewrite Ht. cbn [mbind result_bind].
    change (store_ListSubnetPage None defaultWorkspace after (100 + 1) d) with
      (mapM subnetFromRow (take 101 (rest s_ID (λ r, s_WorkspaceID r ==? "default") after (subnets d)))). rewrite Hms.
    cbn [mbind result_bind reply_read reply]. unfold reply_read, reply.
    rewrite (cut_page_cut "subnet" Subnet_ID subnetResponse sb_Id); [done|done| |by intros; apply encodePageToken_nonempty].
    apply mapM_Ok, Forall2_length in Hms. rewrite <- Hms, length_take. lia.
  - intros s env id d r Hup Hf I Hr. destruct (subnetFromRow_total d id r I Hr) as [v Hv].
    exists (subnetResponse v). destruct (subnet_item d id r v I Hr Hv) as (? & ? & ?). split_and!; [done..|].
    cbn [res_get resource_subnet]. unfold api_GetSubnet, checkResources. rewrite Hup. unfold GetSubnet, store_GetSubnet. rewrite Hf. simpl.
    rewrite read_quiet, (q_GetSubnet_hit d id _ r); [|done|by destruct (inv_s d I id r Hr)]. simpl. by rewrite Hv.
  - intros s env id d Hup Hf Hn. cbn [res_get resource_subnet]. unfold api_GetSubnet, checkResources. rewrite Hup.
    unfold GetSubnet, store_GetSubnet. rewrite Hf. simpl.
    rewrite read_quiet. unfold q_GetSubnet. rewrite Hn. simpl. eauto.
  - intros x Hx. by apply (read_success enc_SubnetBody dec_SubnetBody zero_SubnetBody).
  - apply read_missing.
  - intros xs token Hxs.
    pose proof (read_success (enc_Page enc_SubnetBody) (dec_Page dec_SubnetBody zero_SubnetBody) zero_Page 200
                (MkPage xs token) (BSubnets (MkPage xs token)) ltac:(by vm_compute) eq_refl Hxs) as Hp. exact Hp.
  - done.
  - done.
  - done.
  - by apply ascii7_lit.
  - done.
  - done.
Defined.

#[export, refine] Instance listing_instance : Listing InstanceBody InstanceRow := {|
  l_kind := "instance"; l_table := instances; l_id := i_ID; l_name := i_Name; l_ws := i_WorkspaceID;
  l_up := srv_instances; l_sane := sane; l_received := received
|}.
Proof.
  - intros d k r I Hr. destruct (inv_i d I k r Hr). auto using name_text8.
  - intros d k r I Hs. by apply instance_id_shape.
  - intros d i j r s I. apply (inv_iname d I).
  - intros s env token after d Hup Hf I Ht.
    destruct (instances_page d (take 101 (rest i_ID (λ r, i_WorkspaceID r ==? "default") after (instances d))) I)
      as (ms & Hms & Hp).
    { intros r (j & Hj & _)%elem_of_take. by apply list_elem_of_lookup_2, rest_row in Hj. }
    exists (List.map instanceResponse ms). split; [exact Hp|]. cbn [res_list resource_instance].
    unfold ListInstances, checkInstances. rewrite Hup. unfold List_. rewrite Hf. cbn [unless].
    change (pageSize (default 0 (Some 100))) with (Ok 100). cbn [mbind result_bind]. rewrite Ht. cbn [mbind result_bind].
    assert (store_ListInstancePage None defaultWorkspace after (100 + 1) d = Ok ms) as ->.
    { unfold store_ListInstancePage. erewrite runs_WithTx; [done|].
      eapply runs_bind; [by apply runs_wrapping, runs_read|]. exact Hms. }
    cbn [mbind result_bind]. unfold reply_read, reply.
    rewrite (cut_page_cut "instance" Instance_ID instanceResponse ib_Id); [done|done| |by intros; apply encodePageToken_nonempty].
    apply Forall2_length in Hp. rewrite length_map in Hp. rewrite <- Hp, length_take. lia.
  - intros s env id d r Hup Hf I Hr. destruct (inv_has_eni d I id r Hr) as (eid & e & He).
    destruct (instance_total d id r eid e I Hr He) as [i Hi].
    exists (instanceResponse i). destruct (instance_item d id r e i I Hr Hi) as (? & ? & ?). split_and!; [done..|].
    cbn [res_get resource_instance]. unfold GetInstance, checkInstances. rewrite Hup. unfold Get, store_GetInstance.
    rewrite Hf. simpl. erewrite runs_WithTx; [|by eapply GetInstance_runs]. done.
  - intros s env id d Hup Hf Hn. cbn [res_get resource_instance]. unfold GetInstance, checkInstances. rewrite Hup.
    unfold Get, store_GetInstance. rewrite Hf. eexists. cbn [unless].
    erewrite WithTx_None_Err; [|unfold tx_GetInstance, wrapping, mbind, tx_bind; rewrite read_None; unfold q_GetInstance;
      rewrite Hn; reflexivity]. reflexivity.
  - intros x Hx. by apply (read_success enc_InstanceBody dec_InstanceBody zero_InstanceBody).
  - apply read_missing.
  - intros xs token Hxs.
    pose proof (read_success (enc_Page enc_InstanceBody) (dec_Page dec_InstanceBody zero_InstanceBody) zero_Page 200
                (MkPage xs token) (BInstances (MkPage xs token)) ltac:(by vm_compute) eq_refl Hxs) as Hp. exact Hp.
  - done.
  - done.
  - done.
  - by apply ascii7_lit.
  - done.
  - done.
Defined.

(** ** A calm link: nothing interferes, nothing is lost *)
Record calm (lk : Link) (api : resourceClient) : Prop := {
  calm_others n : k_others lk n = [];
  calm_fault n : env_fault (k_env lk n) = None;
  calm_resources n : srv_resources (k_server lk n) = true;
  calm_instances n : srv_instances (k_server lk n) = true;
  calm_fate n : k_fate lk n = Delivered;
  calm_host : local_host (cl_host api);
  calm_token : cl_token api = k_token lk ∧ k_token lk ≠ ""
}.

Lemma calm_send lk api {A} path h (parse : HTTPResponse → result (ClientResponse A)) w r d' hints :
  calm lk api → h (k_server lk (c_time w)) (k_env lk (c_time w)) (c_db w) = (r, d', hints) →
  send lk api path h parse w =
  (parse (wire r), MkSession d' (S (c_time w)) (c_log w ++ [(c_db w, r, d')])).
Proof.
  intros Hc E. unfold send. rewrite (calm_others _ _ Hc), (calm_fate _ _ Hc). cbn [execute_all foldl].
  unfold boundary. cbn [h_Host h_Origin h_Path h_Authorization].
  rewrite (proj2 (localOnly_passes _ _)) by (split; [apply (calm_host _ _ Hc)|done]).
  rewrite (proj2 (requireBearer_passes _ _ _)).
  2: { right. destruct (calm_token _ _ Hc) as [-> ?]. done. }
  cbn [unless]. by rewrite E.
Qed.

Lemma fmap_Ok {A B} (f : A → B) (r : result A) b : f <$> r = Ok b → ∃ a, r = Ok a ∧ f a = b.
Proof. destruct r; simpl; [|done]. intros [= <-]. eauto. Qed.

Lemma validPageID_text8 kind id : ascii7 kind → validPageID kind id = true → text8 id.
Proof.
  intros Hk (hex & -> & _ & Hhex)%validPageID_shape. apply ascii_text8, ascii7_app.
  - destruct (kind ==? "instance"); [by apply ascii7_lit|]. apply ascii7_app; [done|by apply ascii7_lit].
  - apply Forall_forall. intros b Hb%list_elem_of_In. rewrite forallb_forall in Hhex. apply Hhex in Hb.
    unfold is_hex_lower, is_digit in Hb. apply orb_true_iff in Hb as [Hb|Hb]; reflect_bools; lia.
Qed.

Lemma token_text8 kind id : text8 (encodePageToken kind id).
Proof.
  apply ascii_text8. unfold encodePageToken, b64_EncodeToString. rewrite bytes_of_bytes.
  - apply Forall_fmap. eapply Forall_impl; [apply b64_sextets_range, bytes_range|]. intros v Hv. simpl.
    apply b64char_range in Hv. lia.
  - apply Forall_fmap. eapply Forall_impl; [apply b64_sextets_range, bytes_range|]. intros v Hv. simpl.
    apply b64char_range in Hv. unfold is_byte. lia.
Qed.

Lemma range_ascii l : Forall (λ b, b < 128) l → r_code <$> decode l = l.
Proof.
  induction l as [|b l IH]; [done|]. intros [Hb Hl]%Forall_cons. rewrite decode_cons. unfold decode_rune.
  rewrite (proj2 (Z.ltb_lt b 128)) by done. rewrite fmap_cons. simpl. by rewrite IH.
Qed.

(** What the daemon takes for an identifier, so does the client. *)
Lemma looksLikeID_valid kind id :
  validPageID kind id = true → looksLikeID id (if kind ==? "instance" then "i-" else kind +:+ "-") = true.
Proof.
  intros (hex & -> & Hl & Hhex)%validPageID_shape. unfold looksLikeID.
  set (prefix := if kind ==? "instance" then "i-" else kind +:+ "-").
  rewrite (proj2 (HasPrefix_spec _ prefix)) by by exists hex. unfold slen.
  rewrite <- !length_bytes, bytes_app, length_app, (length_bytes hex), Hl.
  rewrite (proj2 (Z.eqb_eq _ _)) by lia. simpl. rewrite drop_app_length, of_bytes_bytes.
  rewrite forallb_forall in Hhex. unfold range_runes. rewrite range_ascii.
  - apply forallb_forall. intros b Hb%Hhex. unfold is_hex_lower, is_digit in Hb.
    apply orb_true_iff in Hb as [Hb|Hb]; reflect_bools; apply negb_true_iff, andb_false_iff; [left|right];
      apply orb_false_iff; lia.
  - apply Forall_forall. intros b Hb%list_elem_of_In%Hhex. unfold is_hex_lower, is_digit in Hb.
    apply orb_true_iff in Hb as [Hb|Hb]; reflect_bools; lia.
Qed.

Section search.
Context (lk : Link) (api : resourceClient) (Hc : calm lk api).
Context {A R : Type} `{Hres : Resource A} {Hlist : Listing A R}.
Context (d : DB) (I : Inv d) (Hs : shaped d).

(** What is left to list after an identifier. *)
Abbreviation left after := (rest l_id (λ r, l_ws r ==? "default") after (l_table d)).
(** An item of the client stands for a row. *)
Definition stands (r : R) (x : A) : Prop := res_id x = l_id r ∧ res_name x = l_name r.

Lemma table_keyed : keyed l_id (l_table d).
Proof using I. intros k r Hr. by apply (l_row d) in Hr as [? _]. Qed.

Lemma left_row after r : r ∈ left after → l_table d !! l_id r = Some r ∧ validPageID l_kind (l_id r) = true ∧ text8 (l_name r).
Proof using I Hs.
  intros [k Hk]%rest_row. destruct (l_row d k r I Hk) as (E & _ & Ht). rewrite E. split_and!; [done| |done].
  by eapply l_shape.
Qed.

Lemma received_stands rows xs :
  (∀ r, r ∈ rows → validPageID l_kind (l_id r) = true ∧ text8 (l_name r)) →
  Forall2 (λ r x, res_id x = l_id r ∧ res_name x = l_name r ∧ l_sane x) rows xs →
  Forall2 stands rows (l_received <$> xs).
Proof using.
  intros Hrows Hx. induction Hx as [|r x rows xs (Hid & Hname & _) Hx IH]; [constructor|].
  constructor; [|apply IH; intros r' Hr'; apply Hrows; by right].
  destruct (Hrows r) as [Hv Ht]; [by left|]. split.
  - rewrite l_received_id, Hid. eapply readback_text8, validPageID_text8; [apply l_ascii|exact Hv].
  - rewrite l_received_name, Hname. by apply readback_text8.
Qed.

(** The answer to a list request. *)
Lemma sendList_calm token after w :
  c_db w = d → decodePageToken l_kind (default "" token) = Ok after →
  ∃ response items w',
    sendList lk api (Some 100) token w = (Ok response, w') ∧ c_db w' = d ∧
    Forall2 stands (take 100 (left after)) items ∧
    cr_JSON response = Some (MkPage items (if (length (left after) <=? 100)%nat then None
      else Some (encodePageToken l_kind (from_option l_id "" (left after !! 99%nat))))).
Proof using Hc I Hs.
  intros Hd Ht. destruct (l_page (k_server lk (c_time w)) (k_env lk (c_time w)) token after d) as (xs & Hxs & E).
  { apply l_served; [apply (calm_resources _ _ Hc)|apply (calm_instances _ _ Hc)]. }
  { apply (calm_fault _ _ Hc). } { done. } { done. }
  unfold sendList. rewrite (calm_send lk api _ _ _ w _ _ _ Hc (eq_trans (f_equal _ Hd) E)).
  pose proof (Forall2_length _ _ _ Hxs) as Hlen. rewrite length_take in Hlen.
  assert (Forall l_sane (take 100 xs)) as Hsane.
  { apply Forall_take. eapply Forall2_Forall_r; [exact Hxs|]. apply Forall_forall. naive_solver. }
  destruct (fmap_Ok _ _ _ (l_read_page (take 100 xs) (NextPageToken (cut l_kind res_id xs)) Hsane))
    as (response & Er & Ej).
  exists response, (l_received <$> take 100 xs). eexists.
  split; [exact (f_equal (λ r, (r, _)) Er)|]. split_and!; [done| |].
  - apply received_stands; [intros r (j & Hj & _)%elem_of_take; by apply list_elem_of_lookup_2, left_row in Hj as (_ & ? & ?)|].
    apply (Forall2_take _ _ _ 100) in Hxs. by rewrite take_take in Hxs.
  - rewrite Ej. f_equal. f_equal. unfold cut. cbn [NextPageToken].
    destruct (length (left after) <=? 100)%nat eqn:El.
    + apply Nat.leb_le in El. by rewrite (proj2 (Nat.leb_le _ _)) by lia.
    + apply Nat.leb_gt in El. rewrite (proj2 (Nat.leb_gt _ _)) by lia. simpl. f_equal.
      destruct (lookup_lt_is_Some_2 (left after) 99) as [r Hr]; [lia|]. rewrite Hr. simpl.
      assert (take 101 (left after) !! 99%nat = Some r) as Hr' by (by rewrite lookup_take_lt by lia).
      destruct (Forall2_lookup_l _ _ _ _ _ Hxs Hr') as (x & Hx & Hid & _). rewrite Hx. simpl. rewrite Hid.
      apply readback_text8, token_text8.
Qed.

(** The row with a name. *)
Definition pick (reference : string) (rows : list R) : option R :=
  head (List.filter (λ r, l_name r ==? reference) rows).

Lemma pick_app reference rows rows' :
  pick reference (rows ++ rows') = match pick reference rows with Some r => Some r | None => pick reference rows' end.
Proof using. unfold pick. rewrite List.filter_app. by destruct (List.filter _ rows). Qed.
Lemma pick_Some reference rows r : pick reference rows = Some r → r ∈ rows ∧ l_name r = reference.
Proof using.
  unfold pick. intros Hr. assert (r ∈ List.filter (λ r, l_name r ==? reference) rows) as Hin.
  { destruct (List.filter _ rows); [done|]. injection Hr as ->. by left. }
  apply elem_of_filter in Hin as [? Hn]. split; [done|]. by apply (proj1 (beq_true _ _)) in Hn.
Qed.
Lemma pick_None reference rows r : pick reference rows = None → r ∈ rows → l_name r ≠ reference.
Proof using.
  unfold pick. intros Hn Hr E. assert (r ∈ List.filter (λ r, l_name r ==? reference) rows) as Hin.
  { apply elem_of_filter. split; [done|]. by apply beq_true. }
  destruct (List.filter _ rows); [by apply not_elem_of_nil in Hin|done].
Qed.
Lemma pick_none reference rows : (∀ r, r ∈ rows → l_name r ≠ reference) → pick reference rows = None.
Proof using. intros H. destruct (pick reference rows) as [r|] eqn:E; [|done]. apply pick_Some in E as [Hr ?]. by apply H in Hr. Qed.

Lemma matchItems_stands reference found rows items :
  Forall2 stands rows items → NoDup (l_name <$> rows) → (∀ r, r ∈ rows → l_id r ≠ "") →
  (found ≠ "" → ∀ r, r ∈ rows → l_name r ≠ reference) →
  matchItems reference found items = Ok (from_option l_id found (pick reference rows)).
Proof using.
  intros Hf. revert found. induction Hf as [|r x rows items [Hid Hname] Hf IH]; intros found Hnd Hne Hfound; [done|].
  cbn [matchItems]. rewrite Hname, Hid. rewrite fmap_cons in Hnd. apply NoDup_cons in Hnd as [Hnot Hnd].
  unfold pick. cbn [List.filter]. fold (pick reference rows). destruct (l_name r ==? reference) eqn:E.
  - apply (proj1 (beq_true _ _)) in E. destruct (found ==? "") eqn:Ef; simpl.
    2: { exfalso. apply (proj1 (beq_false _ _)) in Ef. by apply (Hfound Ef r); [left|]. }
    assert (∀ r', r' ∈ rows → l_name r' ≠ reference) as Hothers.
    { intros r' Hr' Hn. apply Hnot. rewrite E, <- Hn. by apply list_elem_of_fmap_2. }
    rewrite IH; [by rewrite pick_none|done| |done]. intros r' Hr'. apply Hne. by right.
  - fold (pick reference rows). apply IH; [done| |]; intros; [apply Hne; by right|]. apply Hfound; [done|by right].
Qed.

Lemma left_names after : NoDup (l_name <$> left after).
Proof using I Hs.
  apply NoDup_fmap_2_strong.
  - intros r s Hr Hs' E. apply left_row in Hr as [Hr _], Hs' as [Hs' _].
    assert (l_id r = l_id s) as Eid by (by eapply l_unique). congruence.
  - eapply NoDup_fmap_1, ordered_NoDup, rest_ordered, table_keyed.
Qed.

Lemma left_id after r : r ∈ left after → l_id r ≠ "".
Proof using I Hs.
  intros (_ & (hex & -> & Hl & _)%validPageID_shape & _)%left_row. destruct (_ ==? _); [done|].
  by destruct l_kind.
Qed.

Lemma left_after after r : r ∈ left after → string_gt (l_id r) after = true.
Proof using. intros [_ Hr]%elem_of_filter. by reflect_bools. Qed.

Lemma token_inj id id' :
  validPageID l_kind id = true → validPageID l_kind id' = true →
  encodePageToken l_kind id = encodePageToken l_kind id' → id = id'.
Proof using.
  intros H1 H2 E. pose proof (decode_encode_token _ _ H1) as D1. rewrite E, (decode_encode_token _ _ H2) in D1. congruence.
Qed.

(** The next page: its rows, and a token no earlier page had. *)
Lemma left_next after v :
  left after !! 99%nat = Some v → left (l_id v) = drop 100 (left after) ∧ v ∈ left after.
Proof using I.
  intros Hv. split; [|by eapply list_elem_of_lookup_2]. apply rest_drop; [apply table_keyed|].
  rewrite last_lookup, length_take, lookup_take_lt; pose proof (lookup_lt_Some _ _ _ Hv); [|lia].
  by replace (pred (100 `min` length (left after))) with 99%nat by lia.
Qed.

Definition old (after : string) (seen : gset string) : Prop :=
  ∀ t, t ∈ seen → ∃ id, t = encodePageToken l_kind id ∧ validPageID l_kind id = true ∧ string_gt id after = false.

Lemma old_next after seen v :
  v ∈ left after → old after seen →
  (encodePageToken l_kind (l_id v) ∉ seen) ∧ old (l_id v) ({[encodePageToken l_kind (l_id v)]} ∪ seen).
Proof using I Hs.
  intros Hv Hold. pose proof (left_after _ _ Hv) as Hgt. apply left_row in Hv as (_ & Hid & _). split.
  - intros (id & Et & Hid' & Hle)%Hold. apply token_inj in Et; [|done..]. congruence.
  - intros t [->%elem_of_singleton|(id & -> & Hid' & Hle)%Hold]%elem_of_union; eexists; split_and!; try done.
    + apply string_gt_irrefl.
    + apply not_true_iff_false. intros Hgt'. by rewrite (string_gt_trans _ _ _ Hgt' Hgt) in Hle.
Qed.

(** What the search finds among the rows that are left. *)
Definition result_of (reference found : string) (rows : list R) : result string :=
  let id := from_option l_id found (pick reference rows) in
  if id ==? "" then Err (Errorf (Sprintf (res_kind (A := A) +:+ " name %q not found") [reference])) else Ok id.

(** A name that a page has is not on a later one. *)
Lemma pick_apart reference n after r s :
  pick reference (take n (left after)) = Some r → s ∈ drop n (left after) → l_name s ≠ reference.
Proof using I Hs.
  intros [Hr Hn']%pick_Some Hsd Hn. pose proof (left_names after) as Hnd.
  rewrite <- (take_drop n (left after)), fmap_app in Hnd. apply NoDup_app in Hnd as (_ & Hdis & _).
  apply (Hdis (l_name r)); [by apply list_elem_of_fmap_2|]. rewrite Hn', <- Hn. by apply list_elem_of_fmap_2.
Qed.

Lemma result_of_drop reference found n after :
  result_of reference (from_option l_id found (pick reference (take n (left after)))) (drop n (left after)) =
  result_of reference found (left after).
Proof using I Hs.
  unfold result_of. pose proof (pick_app reference (take n (left after)) (drop n (left after))) as Hp.
  rewrite take_drop in Hp. rewrite Hp.
  destruct (pick reference (take n (left after))) as [r|] eqn:E; [|done].
  rewrite (pick_none reference (drop n (left after))); [done|]. intros s. by eapply pick_apart.
Qed.

Lemma resolvePages_calm fuel reference token after seen found w :
  c_db w = d → decodePageToken l_kind (default "" token) = Ok after → old after seen →
  (found ≠ "" → ∀ r, r ∈ left after → l_name r ≠ reference) → (length (left after) < 100 * fuel)%nat →
  ∃ w', resolvePages lk api fuel reference token seen found w = (Some (result_of reference found (left after)), w') ∧
    c_db w' = d.
Proof using Hc I Hs.
  revert token after seen found w. induction fuel as [|fuel IH]; intros token after seen found w Hd Ht Hold Hfound Hf; [lia|].
  cbn [resolvePages]. destruct (sendList_calm token after w Hd Ht) as (response & items & w' & E & Hd' & Hitems & Hj).
  unfold mbind at 1, Cmd_bind. rewrite E, Hj. cbn [Items NextPageToken].
  assert (∀ r, r ∈ take 100 (left after) → r ∈ left after) as Hsub
    by (intros r (j & Hr & _)%elem_of_take; by eapply list_elem_of_lookup_2).
  rewrite (matchItems_stands reference found (take 100 (left after))).
  2: done.
  2: { rewrite fmap_take. eapply sublist_NoDup; [apply left_names|apply sublist_take]. }
  2: { intros r Hr%Hsub. by apply left_id in Hr. }
  2: { intros Hne r Hr%Hsub. by apply Hfound. }
  destruct (length (left after) <=? 100)%nat eqn:El.
  - apply Nat.leb_le in El. simpl default. rewrite beq_refl, take_ge by lia. exists w'. unfold result_of, fails, ok, mret, Cmd_ret.
    by destruct (_ ==? "").
  - apply Nat.leb_gt in El. destruct (lookup_lt_is_Some_2 (left after) 99) as [v Hv]; [lia|]. rewrite Hv.
    destruct (left_next after v Hv) as [Hnext Hin]. destruct (old_next after seen v Hin Hold) as [Hnot Hold'].
    pose proof (left_row _ _ Hin) as (_ & Hid & _). cbn [default from_option id].
    rewrite (proj2 (beq_false _ _)) by (apply encodePageToken_nonempty, l_kind_nonempty).
    rewrite bool_decide_eq_false_2 by done. rewrite <- (result_of_drop reference found 100 after), <- Hnext.
    apply IH; [done|by apply decode_encode_token|done| |rewrite Hnext, length_drop; lia].
    intros Hne r Hr. rewrite Hnext in Hr.
    destruct (pick reference (take 100 (left after))) as [r'|] eqn:Ep; [by eapply pick_apart|].
    apply Hfound; [done|]. rewrite <- (take_drop 100 (left after)). apply elem_of_app. by right.
Qed.

(** The answer to a get request. *)
Lemma sendGet_calm id w :
  c_db w = d →
  ∃ response w', sendGet lk api id w = (Ok response, w') ∧ c_db w' = d ∧
    (is_Some (l_table d !! id) → is_Some (cr_JSON response)) ∧
    (l_table d !! id = None → cr_JSON response = None ∧ cr_StatusCode response = 404).
Proof using Hc I.
  intros Hd. assert (l_up (k_server lk (c_time w)) = true) as Hup.
  { apply l_served; [apply (calm_resources _ _ Hc)|apply (calm_instances _ _ Hc)]. }
  pose proof (calm_fault _ _ Hc (c_time w)) as Hf. unfold sendGet. destruct (l_table d !! id) as [r|] eqn:Hr.
  - destruct (l_hit _ _ _ _ _ Hup Hf I Hr) as (x & _ & _ & Hx & E).
    rewrite (calm_send lk api _ _ _ w _ _ _ Hc (eq_trans (f_equal _ Hd) E)).
    destruct (fmap_Ok _ _ _ (l_read_item x Hx)) as (response & Er & Ej). exists response. eexists.
    split; [exact (f_equal (λ r, (r, _)) Er)|]. split_and!; [done|by rewrite Ej|done].
  - destruct (l_miss _ _ _ _ Hup Hf Hr) as (e & E).
    rewrite (calm_send lk api _ _ _ w _ _ _ Hc (eq_trans (f_equal _ Hd) E)).
    destruct (l_read_miss e) as (response & Er & Hj). exists response. eexists.
    split; [exact (f_equal (λ r, (r, _)) Er)|]. split_and!; [done|by intros [? ?]|done].
Qed.

(** What a reference means: an identifier, or else a name. *)
Definition means (reference : string) (out : option (result string)) : Prop :=
  (is_Some (l_table d !! reference) → out = Some (Ok reference)) ∧
  (l_table d !! reference = None →
   (∀ id r, l_table d !! id = Some r → l_name r = reference → out = Some (Ok id)) ∧
   ((∀ id r, l_table d !! id = Some r → l_name r ≠ reference) →
    out = Some (Err (Errorf (Sprintf (res_kind (A := A) +:+ " name %q not found") [reference]))))).

Lemma left_all r : r ∈ left "" ↔ ∃ id, l_table d !! id = Some r.
Proof using I Hs.
  split; [apply rest_row|]. intros [k Hr]. destruct (l_row d k r I Hr) as (E & Hw & _).
  apply elem_of_filter. split; [apply elem_of_by_id; eauto|]. rewrite Hw, beq_refl. simpl. apply string_gt_empty.
  rewrite E. pose proof (l_shape d k r I Hs Hr) as (hex & -> & _)%validPageID_shape.
  destruct (_ ==? _); [done|]. by destruct l_kind.
Qed.

Lemma result_means reference : means reference (Some (if bool_decide (is_Some (l_table d !! reference)) then Ok reference
  else result_of reference "" (left ""))).
Proof using I Hs.
  split; [intros Hr; by rewrite bool_decide_eq_true_2|]. intros Hn. rewrite bool_decide_eq_false_2 by (rewrite Hn; by intros [? ?]).
  unfold result_of. destruct (pick reference (left "")) as [s|] eqn:Ep.
  - apply pick_Some in Ep as [Hin En]. simpl. rewrite (proj2 (beq_false _ _)) by (by apply left_id in Hin).
    pose proof (left_row _ _ Hin) as (Hs' & _). split.
    + intros id r Hr Hname. do 2 f_equal. by eapply (l_unique d); [done|exact Hs'|exact Hr|congruence].
    + intros Hno. by apply Hno in Hs'.
  - simpl. split; [|done]. intros id r Hr Hname. exfalso. eapply pick_None; [exact Ep| |exact Hname]. apply left_all. eauto.
Qed.

Lemma resolve_calm fuel reference w :
  c_db w = d → (length (left "") < 100 * fuel)%nat →
  ∃ out w', resolve lk api fuel reference w = (out, w') ∧ c_db w' = d ∧ means reference out.
Proof using Hc I Hs.
  intros Hd Hf. assert (∀ w, c_db w = d → l_table d !! reference = None →
    ∃ out w', resolvePages lk api fuel reference None ∅ "" w = (out, w') ∧ c_db w' = d ∧ means reference out) as Hname.
  { intros w' Hd' Hn. destruct (resolvePages_calm fuel reference None "" ∅ "" w') as (w'' & E & Hd''); [done|done| |done|done|].
    - intros t Ht. by apply elem_of_empty in Ht.
    - eexists _, w''. split_and!; [exact E|done|]. pose proof (result_means reference) as Hm.
      by rewrite bool_decide_eq_false_2 in Hm by (rewrite Hn; by intros [? ?]). }
  unfold resolve. destruct (looksLikeID reference res_prefix) eqn:El.
  - destruct (sendGet_calm reference w Hd) as (response & w' & E & Hd' & Hhit & Hmiss). unfold mbind, Cmd_bind. rewrite E.
    destruct (l_table d !! reference) as [r|] eqn:Hr.
    + destruct (Hhit (mk_is_Some _ _ eq_refl)) as [x Hx]. rewrite Hx. eexists _, w'. split_and!; [done|done|].
      split; [done|]. by rewrite Hr.
    + destruct (Hmiss eq_refl) as [-> ->]. by apply Hname.
  - apply Hname; [done|]. destruct (l_table d !! reference) as [r|] eqn:Hr; [|done].
    apply (l_shape d _ _ I Hs) in Hr. apply looksLikeID_valid in Hr. rewrite l_prefix in El. congruence.
Qed.

Lemma left_size : (length (left "") ≤ base.size (l_table d))%nat.
Proof using. unfold rest. etrans; [apply filter_length_le|]. unfold by_id.
  by rewrite length_fmap, merge_sort_Permutation, length_map_to_list.
Qed.
End search.

(** C31: A reference on the command line is resolved to exactly the resource it means.
    With a daemon that answers and a database that does not change meanwhile, and
    however many pages the listing has: the identifier of an existing VPC, subnet or
    instance is that resource, even when another one bears it as its name; any other
    text is the one resource of that name; and when there is none the command reports
    that the name was not found.  Looking up changes nothing. *)
Theorem cli_resolves_exactly lk api fuel reference w :
  calm lk api → Inv (c_db w) → shaped (c_db w) →
  (base.size (vpcs (c_db w)) < 100 * fuel → base.size (subnets (c_db w)) < 100 * fuel →
   base.size (instances (c_db w)) < 100 * fuel →
   (∃ out w', resolveVPC lk api fuel reference w = (out, w') ∧ c_db w' = c_db w ∧
      means (A := VpcBody) (R := Vpc) (c_db w) reference out) ∧
   (∃ out w', resolveSubnet lk api fuel reference w = (out, w') ∧ c_db w' = c_db w ∧
      means (A := SubnetBody) (R := SubnetRow) (c_db w) reference out) ∧
   (∃ out w', resolveInstance lk api fuel reference w = (out, w') ∧ c_db w' = c_db w ∧
      means (A := InstanceBody) (R := InstanceRow) (c_db w) reference out))%nat.
Proof.
  intros Hc I Hs H1 H2 H3. split_and!; (apply resolve_calm; [done..|]).
  - pose proof (left_size (A := VpcBody) (R := Vpc) (c_db w)) as Hl. simpl l_table in Hl. eapply Nat.le_lt_trans; [exact Hl|done].
  - pose proof (left_size (A := SubnetBody) (R := SubnetRow) (c_db w)) as Hl. simpl l_table in Hl. eapply Nat.le_lt_trans; [exact Hl|done].
  - pose proof (left_size (A := InstanceBody) (R := InstanceRow) (c_db w)) as Hl. simpl l_table in Hl. eapply Nat.le_lt_trans; [exact Hl|done].
Qed.

Definition calm_link : Link := MkLink (λ _, []) (λ _, at_time 2000 8)
  (λ _, MkServer true true true true "dev" "none") "secret" (λ _, Delivered)
  (λ _, None) (λ _, None) (λ _, None) (λ _, Ok (seqZ 1 16)).

(** Witness: an instance by its name. *)
Lemma cli_resolves_witness :
  let '(out, w') := resolveInstance calm_link (MkClient "127.0.0.1:7788" "secret") 1 "db" (MkSession demo_db 0 []) in
  out = Some (Ok (demo_instance "05")) ∧ c_db w' = demo_db.
Proof.
  destruct (cli_resolves_exactly calm_link (MkClient "127.0.0.1:7788" "secret") 1 "db" (MkSession demo_db 0 []))
    as (_ & _ & out & w' & E & Hd & Hm).
  - split; try done. exists "127.0.0.1". split; [set_solver|]. right. apply SplitHostPort_names. vm_compute. reflexivity.
  - apply execute_all_steps, initial_Inv.
  - apply execute_all_shaped; [|apply initial_shaped].
    repeat constructor; unfold is_byte; lia.
  - apply Nat.ltb_lt. vm_compute. reflexivity.
  - apply Nat.ltb_lt. vm_compute. reflexivity.
  - apply Nat.ltb_lt. vm_compute. reflexivity.
  - rewrite E. split; [|exact Hd]. destruct Hm as [_ Hm]. destruct Hm as [Hm _]; [vm_compute; reflexivity|].
    eapply (Hm (demo_instance "05")); [vm_compute; reflexivity|vm_compute; reflexivity].
Defined.
