(* ===== verification/CliWait.v ===== *)
(** Waiting on the command line: [waitVPC], [waitSubnet] and [waitInstance] come to
    an end when their time is up, and report success only for what the database held.

    The polling loop is proved against what the API promises about reading one resource
    ([Watched]), with any faults of the daemon and of the link. *)

From S2P Require Import Prelude Errors GoStrings Encodings Utf8 NetIP Validate Ipam Mac Model Json Snapshot.
From S2P Require Import Schema Tx Transitions Store Idempotency Refine RecordRefine.
From S2P Require Import NetworkService InstanceService ServiceRefine System Replay IdShape.
From S2P Require Import ErrorStatus Api ApiSafety Paging Client Cli Wire CliCreate Progress Converge InstanceConverge CliResolve.
Local Open Scope Z_scope.

(** ** What a read promises *)
Class Watched (A R : Type) `{Listing A R} := {
  w_state : R → string;
  w_200 s env id d :
    Inv d → code (res_get s env "default" id d).1.1 = 200 →
    ∃ row x, l_table d !! id = Some row ∧ (res_get s env "default" id d).1.1 = MkResponse 200 (res_body x) ∧
      res_state x = w_state row ∧ l_sane x ∧ text8 (w_state row);
  w_404 s env id d :
    Inv d → code (res_get s env "default" id d).1.1 = 404 → l_table d !! id = None;
  w_reads s env id d : (res_get s env "default" id d).1.2 = d;
  w_received_state x : res_state (l_received x) = readback (res_state x);
  w_parsed rsp r :
    res_parseGet rsp = Ok r →
    cr_StatusCode r = rsp_StatusCode rsp ∧
    (is_Some (cr_JSON r) → rsp_StatusCode rsp = 200 ∧ strings_Contains (rsp_ContentType rsp) "json" = true)
}.

Lemma parseResponse_status {A} success (dec : json → A → result A) zero rsp r :
  parseResponse success dec zero rsp = Ok r →
  cr_StatusCode r = rsp_StatusCode rsp ∧
  (is_Some (cr_JSON r) → rsp_StatusCode rsp = success ∧ strings_Contains (rsp_ContentType rsp) "json" = true).
Proof.
  unfold parseResponse. intros E. cbv zeta in E. destruct (_ && (rsp_StatusCode rsp =? success)) eqn:Es.
  - apply andb_true_iff in Es as [Hj Hs%Z.eqb_eq]. destruct (unmarshal_body dec _ _); [|done]. by injection E as <-.
  - clear Es. destruct (_ && _); [destruct (unmarshal_body dec_ErrorBody _ _); [|done]|];
      injection E as <-; (split; [done|by intros [? ?]]).
Qed.

(** A read fails by itself only because of the environment. *)
Definition plain (e : error) : Prop := as_Service e = None ∧ errors_Is e ErrNoRows = false.

Lemma missing_plain {A} e (r : result A) e' : (∀ e0, r = Err e0 → plain e0) → missing e r = Err e' → as_Service e' = None.
Proof. intros Hp. destruct r as [a|e0]; simpl; [done|]. destruct (Hp e0 eq_refl) as [Hs ->]. by intros [= <-]. Qed.

Lemma reply_code {A} (f : A → Body) r d :
  (∀ e, r = Err e → as_Service e = None) → code (reply_read f r d).1.1 ≠ 404.
Proof. intros Hp. destruct r as [a|e]; simpl; [done|]. unfold writeServiceError. by rewrite (Hp e eq_refl). Qed.

Lemma reply_200 {A} (f : A → Body) r d :
  code (reply_read f r d).1.1 = 200 → (∀ e, r = Err e → ∀ s, as_Service e = Some s → 400 ≤ Status s ≤ 599) →
  ∃ a, r = Ok a ∧ (reply_read f r d).1.1 = MkResponse 200 (f a).
Proof.
  intros Hc Hp. destruct r as [a|e]; simpl in *; [eauto|]. unfold writeServiceError in Hc.
  destruct (as_Service e) as [s|] eqn:E; [|done]. simpl in Hc. specialize (Hp e eq_refl s E). lia.
Qed.

Lemma in_list_text8 l x : forallb (λ s, forallb (λ b, b <? 128) (bytes s)) l = true → in_list l x = true → text8 x.
Proof.
  intros Hl Hx. apply lit_text8. rewrite forallb_forall in Hl. by apply Hl, list_elem_of_In, (bool_decide_eq_true_1 _ Hx).
Qed.

Lemma read_plain {A} flt (q : query A) d a t :
  q d = Ok a → wrap_err t (autocommit flt (read q) d).1 = Ok a ∨
  ∃ msg, wrap_err t (autocommit flt (read q) d).1 = Err (Wrapf t (ErrIO msg)).
Proof.
  intros Hq. unfold autocommit, read, mbind, tx_bind, tick, scan_rows.
  destruct flt as [[[|n] msg]|]; simpl; rewrite ?Hq; eauto.
Qed.

Lemma present_vpc env id d row : Inv d → vpcs d !! id = Some row → ∀ e, GetVPC env id d = Err e → as_Service e = None.
Proof.
  intros I Hr e. apply missing_plain. intros e0. unfold store_GetVPC. destruct (vpcFromRow_total d id row I Hr) as [v Hv].
  destruct (read_plain (env_fault env) (q_GetVPC id defaultWorkspace) d row (Sprintf "get VPC %s: %w" [id])) as [->|[msg ->]].
  - apply q_GetVPC_hit; [done|by destruct (inv_v d I id row Hr)].
  - simpl. by rewrite Hv.
  - by intros [= <-].
Qed.
Lemma present_subnet env id d row : Inv d → subnets d !! id = Some row → ∀ e, GetSubnet env id d = Err e → as_Service e = None.
Proof.
  intros I Hr e. apply missing_plain. intros e0. unfold store_GetSubnet. destruct (subnetFromRow_total d id row I Hr) as [v Hv].
  destruct (read_plain (env_fault env) (q_GetSubnet id defaultWorkspace) d row (Sprintf "get subnet %s: %w" [id])) as [->|[msg ->]].
  - apply q_GetSubnet_hit; [done|by destruct (inv_s d I id row Hr)].
  - simpl. by rewrite Hv.
  - by intros [= <-].
Qed.
Lemma present_instance env id d row : Inv d → instances d !! id = Some row → ∀ e, Get env id d = Err e → as_Service e = None.
Proof.
  intros I Hr e. apply missing_plain. intros e0. unfold store_GetInstance.
  destruct (inv_has_eni d I id row Hr) as (eid & n & Hn). destruct (instance_total d id row eid n I Hr Hn) as [i Hi].
  destruct (inv_i d I id row Hr) as [Eid Ews _ _ _ _ _].
  assert (q_GetInstance id defaultWorkspace d = Ok row) as Hq1 by (by apply q_GetInstance_hit).
  assert (q_GetPrimaryENI (i_ID row) (i_WorkspaceID row) d = Ok n) as Hq2 by (rewrite Eid, Ews; by eapply GetPrimaryENI_hit).
  unfold WithTx, tx_GetInstance, tx_instanceFromRow, wrapping, read, mbind, tx_bind, tick, scan_rows, lift.
  destruct (env_fault env) as [[[|[|[|[|k]]]] msg]|]; simpl; rewrite ?Hq1; simpl; rewrite ?Hq2; simpl; rewrite ?Hi; simpl;
    intros [= <-]; done.
Qed.

Lemma missing_Ok {A} e (r : result A) a : missing e r = Ok a → r = Ok a.
Proof. by destruct r. Qed.
Lemma quiet_Ok {A} flt (q : query A) d a t : wrap_err t (autocommit flt (read q) d).1 = Ok a → q d = Ok a.
Proof.
  unfold autocommit, read, mbind, tx_bind, tick, scan_rows.
  destruct flt as [[[|n] msg]|]; simpl; destruct (q d); simpl; congruence.
Qed.

Lemma found_vpc env id d v : GetVPC env id d = Ok v → ∃ row, vpcs d !! id = Some row ∧ vpcFromRow row = Ok v.
Proof.
  intros Hg%missing_Ok. unfold store_GetVPC in Hg. apply bind_Ok in Hg as (row & Hq%quiet_Ok & Hv). exists row.
  split; [|done]. unfold q_GetVPC in Hq. by inv_ok; simplify_eq.
Qed.
Lemma found_subnet env id d v : GetSubnet env id d = Ok v → ∃ row, subnets d !! id = Some row ∧ subnetFromRow row = Ok v.
Proof.
  intros Hg%missing_Ok. unfold store_GetSubnet in Hg. apply bind_Ok in Hg as (row & Hq%quiet_Ok & Hv). exists row.
  split; [|done]. unfold q_GetSubnet in Hq. by inv_ok; simplify_eq.
Qed.
Lemma found_instance env id d i :
  Get env id d = Ok i → ∃ row n, instances d !! id = Some row ∧ instanceOfRows row n = Ok i.
Proof. intros Hg%missing_Ok. by eapply store_GetInstance_found. Qed.

(** A handler behind its guards. *)
Lemma behind_guards guard d o c :
  (∀ r, guard = Some r → code r = 503) → c ≠ 503 →
  code (unless (checkWorkspace "default") d (unless guard d o)).1.1 = c →
  unless (checkWorkspace "default") d (unless guard d o) = o.
Proof. intros Hg Hc. change (checkWorkspace "default") with (@None Response). destruct guard as [r|]; simpl; [|done]. intros <-. by destruct Hc; apply Hg. Qed.
Lemma resources_503 s r : checkResources s = Some r → code r = 503.
Proof. unfold checkResources. destruct (srv_resources s); [done|]. by intros [= <-]. Qed.
Lemma instances_503 s r : checkInstances s = Some r → code r = 503.
Proof. unfold checkInstances. destruct (srv_instances s); [done|]. by intros [= <-]. Qed.

(** The handlers of the three reads. *)
Lemma get_200 {M} guard d (f : M → Body) r `{Hd : !Declines r} :
  (∀ x, guard = Some x → code x = 503) →
  code (unless (checkWorkspace "default") d (unless guard d (reply_read f r d))).1.1 = 200 →
  ∃ a, r = Ok a ∧ (unless (checkWorkspace "default") d (unless guard d (reply_read f r d))).1.1 = MkResponse 200 (f a).
Proof.
  intros Hg Hc. pose proof (behind_guards guard d (reply_read f r d) 200 Hg ltac:(done) Hc) as E. rewrite E in Hc |- *.
  apply reply_200; [done|]. intros e He s Hs. exact (Hd e He s Hs).
Qed.
Lemma get_404 {M} guard d (f : M → Body) r :
  (∀ x, guard = Some x → code x = 503) → (∀ e, r = Err e → as_Service e = None) →
  code (unless (checkWorkspace "default") d (unless guard d (reply_read f r d))).1.1 ≠ 404.
Proof.
  intros Hg Hp Hc. pose proof (behind_guards guard d (reply_read f r d) 404 Hg ltac:(done) Hc) as E. rewrite E in Hc.
  by eapply reply_code.
Qed.

Lemma vpc_state_text8 d k r : Inv d → vpcs d !! k = Some r → text8 (v_State r).
Proof.
  intros I Hr. destruct (inv_v d I k r Hr) as [_ _ _ _ Hc _ _]. unfold vpc_check in Hc. reflect_bools.
  by eapply in_list_text8; [|eassumption].
Qed.
Lemma subnet_state_text8 d k r : Inv d → subnets d !! k = Some r → text8 (s_State r).
Proof.
  intros I Hr. destruct (inv_s d I k r Hr) as [_ _ _ _ Hc _ _]. unfold subnet_check in Hc. reflect_bools.
  by eapply in_list_text8; [|eassumption].
Qed.
Lemma instance_state_text8 d k r : Inv d → instances d !! k = Some r → text8 (i_State r).
Proof.
  intros I Hr. destruct (inv_i d I k r Hr) as [_ _ _ Hc _ _ _]. unfold instance_check in Hc. reflect_bools.
  by eapply in_list_text8; [|eassumption].
Qed.

#[export, refine] Instance watched_vpc : Watched VpcBody Vpc := {| w_state := v_State |}.
Proof.
  - intros s env id d I Hc. cbn [res_get resource_vpc] in *. unfold GetVpc in *.
    destruct (get_200 _ _ _ _ (resources_503 s) Hc) as (v & Hv & ->). destruct (found_vpc env id d v Hv) as (row & Hr & Hrow).
    exists row, (vpcResponse v). destruct (vpc_item d id row v I Hr Hrow) as (_ & _ & Hs). split_and!; [done..| |done|].
    + by apply vpcFromRow_inv in Hrow as (p & _ & ->).
    + by eapply vpc_state_text8.
  - intros s env id d I Hc. destruct (l_table d !! id) as [row|] eqn:Hr; [|done]. exfalso. revert Hc.
    apply get_404; [apply resources_503|by eapply present_vpc].
  - intros. by apply (read_get id).
  - done.
  - apply parseResponse_status.
Defined.
#[export, refine] Instance watched_subnet : Watched SubnetBody SubnetRow := {| w_state := s_State |}.
Proof.
  - intros s env id d I Hc. cbn [res_get resource_subnet] in *. unfold api_GetSubnet in *.
    destruct (get_200 _ _ _ _ (resources_503 s) Hc) as (v & Hv & ->). destruct (found_subnet env id d v Hv) as (row & Hr & Hrow).
    exists row, (subnetResponse v). destruct (subnet_item d id row v I Hr Hrow) as (_ & _ & Hs). split_and!; [done..| |done|].
    + by apply subnetFromRow_inv in Hrow as (p & _ & ->).
    + by eapply subnet_state_text8.
  - intros s env id d I Hc. destruct (l_table d !! id) as [row|] eqn:Hr; [|done]. exfalso. revert Hc.
    apply get_404; [apply resources_503|by eapply present_subnet].
  - intros. by apply (read_get id).
  - done.
  - apply parseResponse_status.
Defined.
#[export, refine] Instance watched_instance : Watched InstanceBody InstanceRow := {| w_state := i_State |}.
Proof.
  - intros s env id d I Hc. cbn [res_get resource_instance] in *. unfold GetInstance in *.
    destruct (get_200 _ _ _ _ (instances_503 s) Hc) as (i & Hi & ->).
    destruct (found_instance env id d i Hi) as (row & n & Hr & Hrow).
    exists row, (instanceResponse i). destruct (instance_item d id row n i I Hr Hrow) as (_ & _ & Hs). split_and!; [done..| |done|].
    + by apply instanceOfRows_inv in Hrow as (a & _ & _ & ->).
    + by eapply instance_state_text8.
  - intros s env id d I Hc. destruct (l_table d !! id) as [row|] eqn:Hr; [|done]. exfalso. revert Hc.
    apply get_404; [apply instances_503|by eapply present_instance].
  - intros. by apply (read_get id).
  - done.
  - apply parseResponse_status.
Defined.

(** ** The polling loop *)
Lemma boundary_refusal token h next d :
  boundary token h next d = next d ∨ ∃ r, boundary token h next d = (r, d, []) ∧ (code r = 401 ∨ code r = 403).
Proof.
  unfold boundary, localOnly, requireBearer. destruct (_ || _); [right; eexists; split; [done|by right]|]. simpl.
  repeat case_match; simplify_eq; simpl; try by left. all: right; eexists; split; [done|by left].
Qed.

(** No proxy answers in the daemon's name that something does not exist. *)
Definition honest (lk : Link) : Prop := ∀ n reached, k_fate lk n ≠ Gateway reached 404.
(** The time is up after [n] observations. *)
Definition expires (lk : Link) (n : nat) : Prop := ∀ m, (n ≤ m)%nat → is_Some (k_wait lk m).

Section waiting.
Context (lk : Link) (api : resourceClient) (Hh : honest lk).
Context {A R : Type} `{Hw : Watched A R}.
Implicit Types (w : Session).

(** What the last request found. *)
Definition reported (id : string) (deleting : bool) (item : A) (w : Session) : Prop :=
  ∃ log r, c_log w = log ++ [(c_db w, r, c_db w)] ∧ Inv (c_db w) ∧
    if deleting then l_table (c_db w) !! id = None
    else ∃ row, l_table (c_db w) !! id = Some row ∧ w_state row = res_ready ∧ res_state item = res_ready.

Lemma get_watched s env id d r d' hints :
  Inv d → (r, d', hints) = res_get s env "default" id d ∨ (d' = d ∧ (code r = 401 ∨ code r = 403)) →
  d' = d ∧ (code r = 404 → l_table d !! id = None) ∧
  ∀ response item, res_parseGet (wire r) = Ok response → cr_JSON response = Some item → res_state item = res_ready →
    ∃ row, l_table d !! id = Some row ∧ w_state row = res_ready.
Proof using.
  intros Id Hout. assert (∀ response item, res_parseGet (wire r) = Ok response → cr_JSON response = Some item → code r = 200) as H200.
  { intros response item Hp Hj. destruct (w_parsed _ _ Hp) as [_ Hst]. rewrite Hj in Hst. by apply Hst. }
  destruct Hout as [E|[-> Hc]].
  - pose proof (w_reads s env id d) as Hd. pose proof (w_404 s env id d Id) as H404. pose proof (w_200 s env id d Id) as Hok.
    rewrite <- E in Hd, H404, Hok. simpl in Hd, H404, Hok. split_and!; [done..|].
    intros response item Hp Hj Hready. destruct (Hok (H200 _ _ Hp Hj)) as (row & x & Hr & -> & Hs & Hx & Ht).
    exists row. split; [done|]. pose proof (l_read_item x Hx) as Hread. rewrite Hp in Hread. simpl in Hread.
    rewrite Hj in Hread. injection Hread as ->. rewrite w_received_state, Hs, readback_text8 in Hready; done.
  - split_and!; [done|lia|]. intros response item Hp Hj. pose proof (H200 _ _ Hp Hj). lia.
Qed.

(** A request and what its answer says. *)
Lemma sendGet_watched id w :
  Inv (c_db w) →
  ∃ r w', sendGet lk api id w = (r, w') ∧ Inv (c_db w') ∧ c_time w' = S (c_time w) ∧
    ∀ response, r = Ok response →
      (cr_StatusCode response = 404 → reported id true res_zero w') ∧
      (∀ item, cr_JSON response = Some item → res_state item = res_ready → reported id false item w').
Proof using Hh.
  intros I. unfold sendGet, send. set (n := c_time w). set (d := execute_all (k_others lk n) (c_db w)).
  assert (Inv d) as Id by by apply execute_all_steps. destruct (boundary _ _ _ d) as [[r d'] hints] eqn:E.
  assert (d' = d ∧ (code r = 404 → l_table d !! id = None) ∧
    ∀ response item, res_parseGet (wire r) = Ok response → cr_JSON response = Some item → res_state item = res_ready →
      ∃ row, l_table d !! id = Some row ∧ w_state row = res_ready) as (-> & H404 & H200).
  { apply (get_watched (k_server lk n) (k_env lk n) id d r d' hints Id). destruct (boundary_refusal (k_token lk)
      (MkHeaders (cl_host api) "" ("Bearer " +:+ cl_token api) (member_path id))
      (λ d, res_get (k_server lk n) (k_env lk n) "default" id d) d) as [Eb|(r' & Eb & Hc)]; rewrite E in Eb; [by left|].
    right. by simplify_eq. }
  assert (∀ response, res_parseGet (wire r) = Ok response →
    let w' := MkSession d (S n) (c_log w ++ [(d, r, d)]) in
    (cr_StatusCode response = 404 → reported id true res_zero w') ∧
    (∀ item, cr_JSON response = Some item → res_state item = res_ready → reported id false item w')) as Hgood.
  { intros response Hp w'. destruct (w_parsed _ _ Hp) as [Hst _]. split.
    - intros H4. exists (c_log w), r. split_and!; [done..|]. apply H404. by rewrite Hst in H4.
    - intros item Hj Hr. exists (c_log w), r. split_and!; [done..|].
      destruct (H200 _ _ Hp Hj Hr) as (row & ? & ?). eauto. }
  destruct (k_fate lk n) as [|reached e|reached status] eqn:Ef.
  - eexists _, _. by split_and!.
  - eexists _, _. split; [done|]. by destruct reached.
  - eexists _, _. split; [done|]. split; [by destruct reached|]. split; [by destruct reached|].
    intros response Hp. destruct (w_parsed _ _ Hp) as [Hst Hj]. simpl in Hst. split.
    + intros H4. exfalso. apply (Hh n reached). rewrite Ef. congruence.
    + intros item Hi. rewrite Hi in Hj. by destruct (Hj (mk_is_Some _ _ eq_refl)) as [_ ?].
Qed.

(** Ending, with what was found if it is a success. *)
Definition ends (id : string) (deleting : bool) (run : option (result A) * Session) : Prop :=
  ∃ out w', run = (Some out, w') ∧ ∀ item, out = Ok item → reported id deleting item w'.

Lemma stop_ends id deleting timeout w : ends id deleting ((e ← waitError lk id timeout; fails e) w).
Proof using.
  unfold waitError, mbind, Cmd_bind, observe. destruct (k_ctx lk (c_time w)); by eexists _, _.
Qed.

Lemma waitResource_step fuel id deleting timeout w :
  Inv (c_db w) →
  (k_wait lk (c_time w) = None → ∀ w', Inv (c_db w') → c_time w' = (c_time w + 3)%nat →
    ends id deleting (waitResource lk api fuel id deleting timeout w')) →
  ends id deleting (waitResource lk api (S fuel) id deleting timeout w).
Proof using Hh.
  intros I Hnext. cbn [waitResource]. unfold mbind at 1, Cmd_bind, observe at 1.
  destruct (k_wait lk (c_time w)) as [e|]; [apply stop_ends|].
  set (w1 := MkSession (c_db w) (S (c_time w)) (c_log w)). unfold mbind at 1, Cmd_bind.
  destruct (sendGet_watched id w1 I) as (r & w2 & E & I2 & Ht & Hr). rewrite E. simpl in Ht.
  set (again := paused ← pollPause lk; _). assert (ends id deleting (again w2)) as Hagain.
  { unfold again, mbind, Cmd_bind, pollPause, observe. destruct (k_pause lk (c_time w2)); [apply stop_ends|].
    apply Hnext; [done|done|]. simpl. lia. }
  destruct r as [response|e]; [|exact Hagain]. destruct (Hr response eq_refl) as [H404 Hready].
  destruct (deleting && (cr_StatusCode response =? 404)) eqn:Ed.
  - apply andb_true_iff in Ed as [-> H4%Z.eqb_eq]. eexists _, _. split; [done|]. intros item [= <-]. by apply H404.
  - destruct (cr_JSON response) as [item|] eqn:Hj; [|by eexists _, _].
    destruct (res_state item ==? "failed"); [by eexists _, _|].
    destruct (negb deleting && (res_state item ==? res_ready)) eqn:Es; [|exact Hagain].
    apply andb_true_iff in Es as [->%negb_true_iff Hs]. eexists _, _. split; [done|]. intros item' [= <-].
    apply Hready; [done|]. by apply (proj1 (beq_true _ _)) in Hs.
Qed.

Lemma waitResource_ends fuel id deleting timeout n w :
  expires lk n → (n ≤ c_time w + 3 * fuel)%nat → Inv (c_db w) →
  ends id deleting (waitResource lk api (S fuel) id deleting timeout w).
Proof using Hh.
  intros Hexp. revert w. induction fuel as [|fuel IH]; intros w Hn I; apply waitResource_step; try done.
  - intros Hk. destruct (Hexp (c_time w)) as [e He]; [lia|]. congruence.
  - intros _ w' I' Ht. apply IH; [lia|done].
Qed.
End waiting.

(** C30: Waiting ends and does not mislead.  Whatever the daemon, the link, other clients
    and the reconcilers do, the wait loops of the CLI return once their context has
    expired, after a number of polls that its deadline bounds; and when one reports
    success, its last request saw a database with the VPC or subnet available or the
    instance running, or, when waiting for a deletion, without the resource (provided
    that no proxy answers 404 in the daemon's name). *)
Theorem cli_wait_ends lk api fuel id deleting timeout n w :
  honest lk → expires lk n → (n ≤ c_time w + 3 * fuel)%nat → Inv (c_db w) →
  ends (A := VpcBody) (R := Vpc) id deleting (waitVPC lk api (S fuel) id deleting timeout w) ∧
  ends (A := SubnetBody) (R := SubnetRow) id deleting (waitSubnet lk api (S fuel) id deleting timeout w) ∧
  ends (A := InstanceBody) (R := InstanceRow) id deleting (waitInstance lk api (S fuel) id deleting timeout w).
Proof. intros. split_and!; by eapply waitResource_ends. Qed.

(** A link on which the reconciler finishes the VPC between the first and the second
    poll. *)
Definition one_vpc : DB := execute_all (take 1 demo_ops) initialDB.
Definition applied_vpc : list op :=
  match store_GetVPC None "default" demo_vpc one_vpc with
  | Ok v => [OpRecordTopology None None 1500 v [] None]
  | Err _ => []
  end.
Definition slow_link : Link := MkLink
  (λ n, if (n =? 4)%nat then applied_vpc else []) (λ _, at_time 2000 8)
  (λ _, MkServer true true true true "dev" "none") "secret" (λ _, Delivered)
  (λ _, None) (λ n, if (n <? 30)%nat then None else Some DeadlineExceeded) (λ _, None) (λ _, Ok (seqZ 1 16)).

(** Witness: the second poll finds the VPC available. *)
Lemma cli_wait_witness :
  let run := waitVPC slow_link (MkClient "127.0.0.1:7788" "secret") 11 demo_vpc false "2m0s" (MkSession one_vpc 0 []) in
  (match run.1 with Some (Ok v) => vb_State v | _ => "" end, c_time run.2) = ("available", 5%nat) ∧
  ends (A := VpcBody) (R := Vpc) demo_vpc false run.
Proof.
  intros run. split; [vm_compute; reflexivity|].
  destruct (cli_wait_ends slow_link (MkClient "127.0.0.1:7788" "secret") 10 demo_vpc false "2m0s" 30
    (MkSession one_vpc 0 [])) as [H _].
  - by intros n reached.
  - intros m Hm. unfold slow_link, k_wait. rewrite (proj2 (Nat.ltb_ge m 30)) by exact Hm. by eexists.
  - apply Nat.leb_le. vm_compute. reflexivity.
  - apply execute_all_steps, initial_Inv.
  - exact H.
Defined.
