(* ===== verification/ConsoleCommand.v ===== *)
(** The console command of the CLI: [runConsole] of [cmd/nephos/console.go] with its
    outputs ([console_output.go]), the local terminal ([console_terminal.go]) and the
    reader of its input ([console_input_unix.go]), as programs over the calls they make.
    The session itself is in [ConsoleSession], the resolution of the instance in [Cli];
    here they are calls. *)

From S2P Require Import Prelude Errors GoStrings Json Url Programs Requests Console.
Local Open Scope Z_scope.

(** ** Calls *)
Inductive channel := Stdout | Stderr.
Inductive dialed := DialOK (subprotocol : string) | DialRefused (status : Z) | DialFailed.
Inductive ccall :=
  | OpenOutput (c : channel) | Release (c : channel) | Write (c : channel) (data : list Z)
  | IsTerminal | GetSize | MakeRaw | RestoreTerminal
  | ReadCredential (path : string) | ResolveInstance (api : GenClient) (reference : string)
  | Dial (url : list Z) (authorization subprotocol : string) | CloseNow
  | Session (raw : list Z) (start : Start)
  | CtxErr | Poll | ReadInput.
(** Errors of system calls that are retried. *)
Inductive readiness := PollInterrupted | PollFailed (e : error) | PollReady (n : Z) (invalid : bool).
Inductive input := ReadAgain | ReadFailed (e : error) | ReadData (data : list Z).
#[export] Instance console_calls : Signature ccall := λ c,
  match c with
  | OpenOutput _ | MakeRaw => result unit
  | Release _ | Write _ _ | RestoreTerminal | CtxErr => option error
  | IsTerminal => bool
  | GetSize => result (Z * Z) (* width, height *)
  | ReadCredential _ => result file
  | ResolveInstance _ _ => result string
  | Dial _ _ _ => dialed
  | CloseNow => unit
  | Session _ _ => result Z
  | Poll => readiness
  | ReadInput => input
  end.
Abbreviation C := (prog ccall).

(** ** Outputs and the terminal *)
Definition newConsoleOutput (c : channel) : C (result unit) :=
  got_as (lit "prepare console output: %w") (call (OpenOutput c)) (λ _ : unit, mret (Ok tt)).
(** The deferred [Close]. *)
Definition closing (c : channel) (code : Z) : C Z :=
  e ← call (Release c); mret (match e : option error with Some _ => 1 | None => code end).
(** [fmt.Fprintf(errOutput, "nephos console: ...\n")], whatever becomes of it. *)
Definition complain (code : Z) (s : string) : C Z :=
  _ ← call (Write Stderr (bytes ("nephos console: " +:+ s) ++ [10])); mret code.
Definition exitMisuse : Z := 2.

Definition terminal_Size : C (result (Z * Z)) :=
  got_as (lit "read terminal size: %w") (call GetSize) (λ '((width, height) : Z * Z),
  if (width <=? 0) || (height <=? 0) || (65535 <? width) || (65535 <? height)
  then mret (Err (Errorf (lit "terminal dimensions must be 1-65535")))
  else mret (Ok (height, width))).
Definition terminal_Raw : C (result unit) :=
  got_as (lit "set raw terminal: %w") (call MakeRaw) (λ _ : unit, mret (Ok tt)).

(** ** The command *)
Definition consoleBanner : list Z := bytes "Nephos serial/exec console (authenticated network-access exception)" ++ [10].

(** From raw mode to the result of the session; the terminal is restored. *)
Definition session (raw : list Z) (start : Start) : C Z :=
  banner ← call (Write Stderr consoleBanner);
  match banner : option error with
  | Some _ => mret 1
  | None =>
      r ← call (Session raw start);
      match r : result Z with Err e => complain 1 (error_text e) | Ok code => mret code end
  end.
Definition inTerminal (raw : list Z) (start : Start) : C Z :=
  if sr_TTY start then
    r ← terminal_Raw;
    match r with
    | Err e => complain 1 (error_text e)
    | Ok _ =>
        code ← session raw start;
        e ← call RestoreTerminal;
        match e : option error with
        | Some e => complain 1 ("restore terminal: " +:+ error_text e)
        | None => mret code
        end
    end
  else session raw start.

(** [endpoint.Scheme = "ws"; endpoint.Path = ...] *)
Definition consoleURL (endpoint : URL) (id : string) : list Z :=
  let '(MkURL _ opaque user host _ rawPath omit force query fragment) := endpoint in
  URL_String (MkURL (bytes "ws") opaque user host (bytes ("/v1/workspaces/default/instances/" +:+ id +:+ "/console"))
    rawPath omit force query fragment).
(** The deferred [CloseNow]. *)
Definition hangUp (code : Z) : C Z := _ ← call CloseNow; mret code.
Definition connect (url : list Z) (token : string) (raw : list Z) (start : Start) : C Z :=
  d ← call (Dial url ("Bearer " +:+ token) Subprotocol);
  match d : dialed with
  | DialRefused status => complain 1 ("handshake HTTP " +:+ FormatInt status)
  | DialFailed => complain 1 "connection failed"
  | DialOK chosen =>
      code ← (if chosen !=? Subprotocol then complain 1 "required subprotocol missing" else inTerminal raw start);
      hangUp code
  end.

(** The start message is checked as the daemon will check it. *)
Definition validStart (start : Start) (next : list Z → C Z) : C Z :=
  let raw := encode (enc_Start start) in
  match ParseClientText raw with
  | Err e => complain exitMisuse ("invalid command: " +:+ error_text e)
  | Ok _ => next raw
  end.
(** Endpoint, credential and instance. *)
Definition reach (home : result string) (cfg : resourceConfig) (reference : string) (next : list Z → string → C Z) : C Z :=
  match normalized home cfg with
  | Err e => complain 1 (error_text e)
  | Ok cfg' =>
      f ← call (ReadCredential (cfg_credentialPath cfg'));
      match newResourceClient home (λ _, f) cfg with
      | Err e => complain 1 (error_text e)
      | Ok (api, cfg') =>
          id ← call (ResolveInstance api reference);
          match id : result string with
          | Err e => complain 1 (error_text e)
          | Ok id =>
              again ← call (ReadCredential (cfg_credentialPath cfg'));
              match loadCredential again with
              | Err e => complain 1 (error_text e)
              | Ok token =>
                  match Parse (bytes (cfg_endpoint cfg')) with
                  | Err _ => complain 1 "invalid API endpoint"
                  | Ok endpoint => next (consoleURL endpoint id) token
                  end
              end
          end
      end
  end.
(** The arguments: the instance and the command. *)
Definition consoleArgs (args : list string) : string + (string * list string * bool) :=
  match args with
  | [] => inl "instance name or ID required"
  | reference :: rest =>
      if reference ==? "" then inl "instance name or ID required"
      else
        match rest with
        | [] => inr (reference, ["/bin/bash"], true)
        | separator :: command =>
            if (separator !=? "--") || (length args <? 3)%nat then inl "use -- followed by a command"
            else inr (reference, command, false)
        end
  end.
Definition consoleStart (command : list string) (tty : bool) (next : Start → C Z) : C Z :=
  if tty then
    t ← call IsTerminal;
    if negb t then complain exitMisuse "interactive mode requires a local terminal; use -- command for redirected I/O"
    else
      size ← terminal_Size;
      match size with
      | Err e => complain 1 (error_text e)
      | Ok (rows, cols) => next (MkStart command true rows cols)
      end
  else next (MkStart command false 0 0).
Definition consoleCommand (home : result string) (cfg : resourceConfig) (args : list string) : C Z :=
  match consoleArgs args with
  | inl usage => complain exitMisuse usage
  | inr (reference, command, tty) =>
      consoleStart command tty (λ start,
      validStart start (λ raw,
      reach home cfg reference (λ url token, connect url token raw start)))
  end.
Definition runConsole (home : result string) (cfg : resourceConfig) (args : list string) : C Z :=
  errOutput ← newConsoleOutput Stderr;
  match errOutput with
  | Err _ => mret 1
  | Ok _ =>
      outOutput ← newConsoleOutput Stdout;
      code ← match outOutput with
             | Err e => complain 1 (error_text e)
             | Ok _ => code ← consoleCommand home cfg args; closing Stdout code
             end;
      closing Stderr code
  end.

(** ** Reading the input *)
Definition ErrClosed : error := ErrIO "file already closed".
Definition input_EOF : error := ErrIO "EOF".
(** [readConsoleFile]; [None] while the input stays idle for [fuel] rounds. *)
Fixpoint readConsoleFile (fuel : nat) : C (option (result (list Z))) :=
  match fuel with
  | O => mret None
  | S fuel' =>
      e ← call CtxErr;
      match e : option error with
      | Some e => mret (Some (Err e))
      | None =>
          p ← call Poll;
          match p : readiness with
          | PollInterrupted => readConsoleFile fuel'
          | PollFailed e => mret (Some (Err (Wrapf (lit "poll console stdin: %w") e)))
          | PollReady n invalid =>
              if n =? 0 then readConsoleFile fuel'
              else if invalid then mret (Some (Err ErrClosed))
              else
                r ← call ReadInput;
                match r : input with
                | ReadAgain => readConsoleFile fuel'
                | ReadFailed e => mret (Some (Err (Wrapf (lit "read console stdin: %w") e)))
                | ReadData [] => mret (Some (Err input_EOF))
                | ReadData data => mret (Some (Ok data))
                end
          end
      end
  end.

(** ** What a history has left open *)
Abbreviation history := (list (event ccall)).
Record held := MkHeld {
  h_err : bool; h_out : bool; h_conn : bool; h_raw : bool; (* open outputs, connection, raw terminal *)
  h_dialed : bool; h_failed : bool (* whether it was dialled, and whether something could not be closed *)
}.
Definition hold (w : held) (e : event ccall) : held :=
  let '(MkHeld err out conn raw dialed failed) := w in
  match e with
  | Ev (OpenOutput Stderr) (Ok _) => MkHeld true out conn raw dialed failed
  | Ev (OpenOutput Stdout) (Ok _) => MkHeld err true conn raw dialed failed
  | Ev (Release Stderr) r => MkHeld false out conn raw dialed (failed || bool_decide (is_Some r))
  | Ev (Release Stdout) r => MkHeld err false conn raw dialed (failed || bool_decide (is_Some r))
  | Ev (Dial _ _ _) (DialOK _) => MkHeld err out true raw true failed
  | Ev (Dial _ _ _) _ => MkHeld err out conn raw true failed
  | Ev CloseNow _ => MkHeld err out false raw dialed failed
  | Ev MakeRaw (Ok _) => MkHeld err out conn true dialed failed
  | Ev RestoreTerminal r => MkHeld err out conn false dialed (failed || bool_decide (is_Some r))
  | _ => w
  end.
Definition held_by (t : history) : held := foldl hold (MkHeld false false false false false false) t.
Lemma held_snoc t e : held_by (t ++ [e]) = hold (held_by t) e.
Proof. unfold held_by. by rewrite foldl_app. Qed.

(** ** What may be done when *)
Definition loopback (host : list Z) : Prop := host = bytes "localhost" ∨ host = bytes "127.0.0.1" ∨ host = bytes "::1".
Definition orderly (home : result string) (cfg : resourceConfig) (t : history) (c : ccall) : Prop :=
  let '(MkHeld err out conn raw dialed failed) := held_by t in
  match c with
  | OpenOutput Stderr => err = false ∧ out = false
  | OpenOutput Stdout => err = true ∧ out = false
  | Write c _ => c = Stderr ∧ err = true
  | Release Stdout => out = true ∧ conn = false ∧ raw = false
  | Release Stderr => err = true ∧ out = false ∧ conn = false ∧ raw = false
  | MakeRaw => conn = true ∧ raw = false
  | RestoreTerminal => raw = true
  | CloseNow => conn = true ∧ raw = false
  | Dial url authorization subprotocol =>
      dialed = false ∧ subprotocol = Subprotocol ∧
      ∃ cfg' f token endpoint api reference id, normalized home cfg = Ok cfg' ∧
        Ev (ReadCredential (cfg_credentialPath cfg')) f ∈ t ∧ loadCredential f = Ok token ∧ authorization = "Bearer " +:+ token ∧
        Parse (bytes (cfg_endpoint cfg')) = Ok endpoint ∧ loopback (Hostname endpoint) ∧
        Ev (ResolveInstance api reference) (Ok id) ∈ t ∧ url = consoleURL endpoint id
  | Session msg start =>
      conn = true ∧ raw = sr_TTY start ∧ msg = encode (enc_Start start) ∧ is_Ok (ParseClientText msg) = true ∧
      ∃ url authorization, Ev (Dial url authorization Subprotocol) (DialOK Subprotocol) ∈ t
  | Poll | ReadInput | CtxErr => False
  | _ => True
  end.
(** The exit code: of the session, or an error, or a misuse that reached nothing. *)
Definition verdict (t : history) (code : Z) : Prop :=
  code = 1 ∨ (code = 2 ∧ h_dialed (held_by t) = false) ∨ ∃ raw start, Ev (Session raw start) (Ok code) ∈ t.
(** [err] and [out] are open, nothing else. *)
Definition settled (err out : bool) (t : history) (code : Z) : Prop :=
  (∃ dialed failed, held_by t = MkHeld err out false false dialed failed ∧ (failed = true → code = 1)) ∧ verdict t code.

Ltac wp_do := match goal with |- wp ?a (call ?c) ?t ?Q => refine (wp_call a c t Q _ _) end.
Ltac in_hist :=
  first
    [ assumption
    | apply list_elem_of_singleton; reflexivity
    | apply elem_of_app; right; in_hist
    | apply elem_of_app; left; in_hist ].
(** What is held after the events that were added, and what may be done then. *)
Ltac holds := repeat rewrite held_snoc; match goal with H : held_by _ = _ |- _ => rewrite H end; reflexivity.
Ltac may := unfold orderly; repeat rewrite held_snoc; match goal with H : held_by _ = _ |- _ => rewrite H end; cbn.

Section command.
Context (home : result string) (cfg : resourceConfig).
Let allowed := orderly home cfg.

Lemma complain_wp code s t out conn raw dialed failed (Q : history → Z → Prop) :
  held_by t = MkHeld true out conn raw dialed failed →
  (∀ t', held_by t' = held_by t → t `prefix_of` t' → Q t' code) → wp allowed (complain code s) t Q.
Proof.
  intros Hw HQ. unfold complain. apply wp_bind. wp_do; [unfold allowed; by may|]. intros b. apply wp_ret, HQ; [|by apply prefix_app_r].
  rewrite held_snoc, Hw. reflexivity.
Qed.
Lemma session_wp t msg start :
  held_by t = MkHeld true true true (sr_TTY start) true false → msg = encode (enc_Start start) → is_Ok (ParseClientText msg) = true →
  (∃ url authorization, Ev (Dial url authorization Subprotocol) (DialOK Subprotocol) ∈ t) →
  wp allowed (session msg start) t (λ t' code, held_by t' = held_by t ∧ t `prefix_of` t' ∧
    (code = 1 ∨ ∃ raw start, Ev (Session raw start) (Ok code) ∈ t')).
Proof.
  intros Hw Hm Hp (url & a & Hd). unfold session. apply wp_bind. wp_do; [unfold allowed; by may|]. intros [e|].
  { apply wp_ret. split_and!; [rewrite Hw; holds|by apply prefix_app_r|by left]. }
  apply wp_bind. wp_do; [unfold allowed; may; split_and!; [done..|exists url, a; in_hist]|]. intros [code|e].
  - apply wp_ret. split_and!; [rewrite Hw; holds|rewrite <- app_assoc; by apply prefix_app_r|]. right. eexists _, _. in_hist.
  - eapply complain_wp; [holds|]. intros t' Ht' Hpre. split_and!; [rewrite Ht', Hw; holds| |by left].
    etrans; [|exact Hpre]. rewrite <- app_assoc. by apply prefix_app_r.
Qed.
Lemma inTerminal_wp t msg start :
  held_by t = MkHeld true true true false true false → msg = encode (enc_Start start) → is_Ok (ParseClientText msg) = true →
  (∃ url authorization, Ev (Dial url authorization Subprotocol) (DialOK Subprotocol) ∈ t) →
  wp allowed (inTerminal msg start) t (λ t' code, (∃ failed, held_by t' = MkHeld true true true false true failed ∧ (failed = true → code = 1)) ∧
    (code = 1 ∨ ∃ raw start, Ev (Session raw start) (Ok code) ∈ t')).
Proof.
  intros Hw Hm Hp Hd. unfold inTerminal. destruct (sr_TTY start) eqn:Et.
  - apply wp_bind. unfold terminal_Raw. apply wp_got_as. wp_do; [unfold allowed; by may|]. intros [[]|e]; cbv beta iota.
    2: { eapply complain_wp; [holds|]. intros t' Ht' _. split; [|by left]. exists false. split; [rewrite Ht'; holds|done]. }
    apply wp_ret, wp_bind. eapply wp_mono; [apply session_wp; [rewrite Et; holds|done|done|]|done|].
    { destruct Hd as (url & a & Hd). exists url, a. in_hist. }
    cbv beta. intros t1 code (H1 & _ & Hv). rewrite held_snoc, Hw in H1. cbn in H1. apply wp_bind. wp_do; [unfold allowed; by may|].
    intros [e|].
    + eapply complain_wp; [holds|]. intros t' Ht' _. split; [|by left]. exists true. split; [rewrite Ht'; holds|done].
    + apply wp_ret. split; [exists false; split; [holds|done]|]. destruct Hv as [?|(r & s & Hv)]; [by left|right]. exists r, s. in_hist.
  - eapply wp_mono; [apply session_wp; [by rewrite Et|done|done|done]|done|]. cbv beta. intros t' code (H1 & _ & Hv).
    split; [exists false; split; [by rewrite H1|done]|done].
Qed.
(** Dialled where the configuration says, with the credential. *)
Definition reachable (t : history) (url : list Z) (token : string) : Prop :=
  ∃ cfg' f endpoint api reference id, normalized home cfg = Ok cfg' ∧
    Ev (ReadCredential (cfg_credentialPath cfg')) f ∈ t ∧ loadCredential f = Ok token ∧
    Parse (bytes (cfg_endpoint cfg')) = Ok endpoint ∧ loopback (Hostname endpoint) ∧
    Ev (ResolveInstance api reference) (Ok id) ∈ t ∧ url = consoleURL endpoint id.
Lemma connect_wp t url token msg start :
  held_by t = MkHeld true true false false false false → msg = encode (enc_Start start) → is_Ok (ParseClientText msg) = true →
  reachable t url token → wp allowed (connect url token msg start) t (settled true true).
Proof.
  intros Hw Hm Hp (cfg' & f & endpoint & api & reference & id & H). unfold connect. apply wp_bind. wp_do.
  { unfold allowed. may. split_and!; [done|done|]. exists cfg', f, token, endpoint, api, reference, id. by destruct_and!. }
  assert (∀ t' failed code, held_by t' = MkHeld true true true false true failed → (failed = true → code = 1) →
    (code = 1 ∨ ∃ raw start, Ev (Session raw start) (Ok code) ∈ t') →
    wp allowed (hangUp code) t' (settled true true)) as Hclose.
  { intros t' failed code H1 Hf Hv. unfold hangUp. apply wp_bind. wp_do; [unfold allowed; by may|]. intros []. apply wp_ret.
    split; [exists true, failed; split; [holds|done]|]. destruct Hv as [?|(r & s & Hv)]; [by left|right; right]. exists r, s. in_hist. }
  intros [chosen|status|]; cbv beta iota.
  - apply wp_bind. destruct (chosen ==? Subprotocol) eqn:Es; cbn [negb].
    + apply (proj1 (beq_true _ _)) in Es as ->. eapply wp_mono; [apply inTerminal_wp; [holds|done|done|]|done|].
      { eexists _, _. in_hist. }
      cbv beta. intros t' code [(failed & H1 & Hf) Hv]. by eapply Hclose.
    + eapply complain_wp; [holds|]. intros t' Ht' _. apply (Hclose t' false); [rewrite Ht'; holds|done|by left].
  - eapply complain_wp; [holds|]. intros t' Ht' _. split; [exists true, false; split; [rewrite Ht'; holds|done]|by left].
  - eapply complain_wp; [holds|]. intros t' Ht' _. split; [exists true, false; split; [rewrite Ht'; holds|done]|by left].
Qed.

Lemma normalized_loopback cfg' :
  normalized home cfg = Ok cfg' → ∃ endpoint, Parse (bytes (cfg_endpoint cfg')) = Ok endpoint ∧ loopback (Hostname endpoint).
Proof using.
  unfold normalized. set (ep := if cfg_endpoint cfg ==? "" then _ else _). destruct (Parse (bytes ep)) as [parsed|] eqn:Ep; [|done].
  destruct (_ || _); [done|]. destruct ((Hostname parsed ==? _) || _ || _) eqn:Eh; [|done].
  intros (path & _ & [= <-])%bind_Ok. exists parsed. split; [done|].
  apply orb_true_iff in Eh as [[Eh|Eh]%orb_true_iff|Eh]; apply (proj1 (beq_true _ _)) in Eh; rewrite Eh; [left|right; left|right; right]; done.
Qed.
(** Errors before the connection. *)
Abbreviation fresh t := (held_by t = MkHeld true true false false false false).
Lemma refuse_wp t code s : fresh t → code = 1 ∨ code = 2 → wp allowed (complain code s) t (settled true true).
Proof.
  intros Hw Hc. eapply complain_wp; [done|]. intros t' Ht' _. rewrite Hw in Ht'. split; [by exists false, false|].
  destruct Hc as [?|?]; [by left|right; left]. by rewrite Ht'.
Qed.
Lemma reach_wp t reference next :
  fresh t → (∀ t' url token, fresh t' → reachable t' url token → wp allowed (next url token) t' (settled true true)) →
  wp allowed (reach home cfg reference next) t (settled true true).
Proof.
  intros Hw Hn. unfold reach. destruct (normalized home cfg) as [cfg'|e] eqn:En; [|apply refuse_wp; [done|by left]].
  destruct (normalized_loopback cfg' En) as (endpoint & Ep & Hl).
  apply wp_bind. wp_do; [unfold allowed; by may|]. intros f. destruct (newResourceClient home (λ _, f) cfg) as [[api cfg2]|e] eqn:Ec.
  2: { apply refuse_wp; [holds|by left]. }
  assert (cfg2 = cfg') as ->.
  { unfold newResourceClient in Ec. rewrite En in Ec. cbn in Ec. apply bind_Ok in Ec as (tok & _ & Ec). by simplify_eq. }
  apply wp_bind. wp_do; [unfold allowed; by may|]. intros [id|e]; [|apply refuse_wp; [holds|by left]].
  apply wp_bind. wp_do; [unfold allowed; by may|]. intros f'. destruct (loadCredential f') as [token|e] eqn:Et; [|apply refuse_wp; [holds|by left]].
  rewrite Ep. apply Hn; [holds|]. exists cfg', f', endpoint, api, reference, id. split_and!; try done; in_hist.
Qed.
Lemma consoleStart_wp t command tty next :
  fresh t → (∀ t' start, fresh t' → wp allowed (next start) t' (settled true true)) →
  wp allowed (consoleStart command tty next) t (settled true true).
Proof.
  intros Hw Hn. unfold consoleStart. destruct tty; [|by apply Hn]. apply wp_bind. wp_do; [unfold allowed; by may|]. intros []; cbn [negb].
  2: { apply refuse_wp; [holds|by right]. }
  apply wp_bind. unfold terminal_Size. apply wp_got_as. wp_do; [unfold allowed; by may|]. intros [[width height]|e]; cbv beta iota.
  2: { apply refuse_wp; [holds|by left]. }
  destruct (_ || _); apply wp_ret; [apply refuse_wp; [holds|by left]|]. apply Hn. holds.
Qed.
Lemma consoleCommand_wp t args : fresh t → wp allowed (consoleCommand home cfg args) t (settled true true).
Proof.
  intros Hw. unfold consoleCommand. destruct (consoleArgs args) as [usage|[[reference command] tty]].
  { apply refuse_wp; [done|by right]. }
  apply consoleStart_wp; [done|]. intros t1 start H1. unfold validStart.
  destruct (ParseClientText _) as [c|e] eqn:Ep; [|apply refuse_wp; [done|by right]].
  apply reach_wp; [done|]. intros t2 url token H2 Hr. apply connect_wp; [done|done|by rewrite Ep|done].
Qed.
Lemma closing_wp c t code err out (Q : history → Z → Prop) :
  match c with Stdout => out = true | Stderr => err = true ∧ out = false end → settled err out t code →
  (∀ t' code', settled (match c with Stdout => err | Stderr => false end) false t' code' → Q t' code') → wp allowed (closing c code) t Q.
Proof.
  intros Hc [(dialed & failed & Hw & Hf) Hv] HQ. unfold closing. apply wp_bind.
  wp_do; [unfold allowed; may; destruct c; naive_solver|]. intros e. apply wp_ret, HQ. split.
  - exists dialed, (failed || bool_decide (is_Some e)). split; [destruct c; [holds|destruct Hc as [-> ->]; holds]|].
    destruct e; [done|]. by rewrite orb_false_r.
  - destruct e as [e|]; [by left|]. destruct Hv as [?|[[? Hd]|(r & s & Hv)]]; [by left| |right; right; exists r, s; in_hist].
    right; left. split; [done|]. rewrite held_snoc, Hw in *. by destruct c.
Qed.
Lemma runConsole_wp args : wp allowed (runConsole home cfg args) [] (settled false false).
Proof.
  unfold runConsole. apply wp_bind. unfold newConsoleOutput at 1. apply wp_got_as. wp_do; [done|]. intros [[]|e]; cbv beta iota.
  2: { split; [by exists false, false|by left]. }
  apply wp_ret, wp_bind. unfold newConsoleOutput. apply wp_got_as. wp_do; [done|]. cbn [app].
  assert (∀ t code, settled true false t code → wp allowed (closing Stderr code) t (settled false false)) as Hlast.
  { intros t code Hs. by eapply closing_wp. }
  intros [[]|e]; cbv beta iota.
  - apply wp_ret, wp_bind, wp_bind. eapply wp_mono; [by apply consoleCommand_wp|done|]. cbv beta. intros t code Hs.
    eapply closing_wp; [|done|]; [done|]. intros t' code' Hs'. by apply Hlast.
  - apply wp_bind. eapply complain_wp; [reflexivity|]. intros t' Ht' _. apply Hlast. split; [exists false, false; split; [by rewrite Ht'|done]|by left].
Qed.
End command.

(** ** Input *)
Definition delivered (t : history) : list (list Z) :=
  omap (λ e, match e with Ev ReadInput (ReadData (b :: data)) => Some (b :: data) | _ => None end) t.
(** Each system call right after what allows it. *)
Definition polite (t : history) (c : ccall) : Prop :=
  match c with
  | CtxErr => True
  | Poll => last t = Some (Ev CtxErr None)
  | ReadInput => ∃ n, n ≠ 0 ∧ last t = Some (Ev Poll (PollReady n false))
  | _ => False
  end.
Definition nothing_lost (t : history) (r : option (result (list Z))) : Prop :=
  match r with Some (Ok data) => data ≠ [] ∧ delivered t = [data] | _ => delivered t = [] end.
Lemma readConsoleFile_wp fuel t : delivered t = [] → wp polite (readConsoleFile fuel) t nothing_lost.
Proof.
  revert t. induction fuel as [|fuel IH]; intros t Ht; cbn [readConsoleFile]; [done|].
  assert (∀ t e, delivered (t ++ [e]) = delivered t ++ delivered [e]) as Hs by (intros; unfold delivered; by rewrite omap_app).
  apply wp_bind. wp_do; [done|]. intros [e|]; [apply wp_ret; cbn [nothing_lost]; by rewrite Hs, Ht|].
  apply wp_bind. wp_do; [cbn; by rewrite last_snoc|].
  intros [|e|n invalid]; [apply IH; by rewrite !Hs, Ht|apply wp_ret; cbn [nothing_lost]; by rewrite !Hs, Ht|].
  destruct (Z.eqb_spec n 0); [apply IH; by rewrite !Hs, Ht|]. destruct invalid; [apply wp_ret; cbn [nothing_lost]; by rewrite !Hs, Ht|].
  apply wp_bind. wp_do; [exists n; by rewrite last_snoc|].
  intros [|e|[|b data]]; [apply IH; by rewrite !Hs, Ht|apply wp_ret; cbn [nothing_lost]; by rewrite !Hs, Ht..|].
  apply wp_ret. cbn [nothing_lost]. by rewrite !Hs, Ht.
Qed.

(** ** Property *)

(** A console of a command that ends with 3. *)
Example console_command_example :
  let k : handler ccall unit := λ c s,
    (match c as c return reply c with
     | OpenOutput _ | MakeRaw => Ok tt | Release _ | Write _ _ | RestoreTerminal | CtxErr => None
     | IsTerminal => true | GetSize => Ok (80, 24)
     | ReadCredential _ => Ok (MkFile true 384 44 (Ok "AAAAAAAAAAAAAAAAAAAAAAAAAAAAAAAAAAAAAAAAAAA"))
     | ResolveInstance _ _ => Ok "i-0123456789abcdef0" | Dial _ _ _ => DialOK Subprotocol | CloseNow => tt
     | Session _ _ => Ok 3 | Poll => PollReady 1 false | ReadInput => ReadData [104; 105]
     end, s) in
  (run k (runConsole (Ok "/home/u/.nephos/credentials") (MkResourceConfig "" "" 0) ["web"; "--"; "true"]) tt).1 = 3 ∧
  (run k (readConsoleFile 1) tt).1 = Some (Ok [104; 105]).
Proof. split; vm_compute; reflexivity. Qed.
