(* ===== verification/Daemon.v ===== *)
(** The daemon's life: [cmd/nephosd/main.go], with the opening of the store
    ([internal/store/store.go]) and the private listener of the hook
    ([internal/hook/server_linux.go]), as programs over the calls they make.

    A goroutine that runs a server or a reconciler is a task: it is started, and it
    is joined by receiving its one result, from its own channel or in the [select].
    Log lines, signals and time limits are not modelled. *)

From S2P Require Import Prelude Errors GoStrings Url Programs.
Local Open Scope Z_scope.

(** ** Calls *)
Inductive task := TServer | THook | TController | TInstances.
#[export] Instance task_eq_dec : EqDecision task.
Proof. solve_decision. Defined.
(** A script of [internal/store/migrations], or the statement that records the version. *)
Inductive script := Migration (n : Z) | SetUserVersion.

Inductive dcall :=
  | DCtxErr
  (* files *)
  | DMkdirAll (path : string) (perm : Z) | DOpenFile (path : string) (perm : Z) | DCloseFile | DChmod (path : string) (perm : Z) | DLstat (path : string)
  | DAbs (path : string)
  (* the database *)
  | SqlOpen (uri : list Z) | SetMaxOpenConns (n : Z) | QueryInt (query : string) | QueryText (query : string) | BeginTx
  | TxQueryInt (query : string) | TxExec (s : script) | Commit | Rollback | CloseDB
  (* sockets *)
  | ListenTCP (address : string) | CloseTCP | ListenUnix (path : string) | CloseUnix | AcceptUnix | PeerCred | ConnClose
  (* the daemon's parts *)
  | LoadToken (path : string) | Sweep (t : task) | SetReady (b : bool) | Go (t : task) | Select | StopRun | Shutdown | Receive (t : task).
#[export] Instance daemon_calls : Signature dcall := λ c,
  match c with
  | DCtxErr => option error
  | DAbs _ | QueryText _ | LoadToken _ => result string
  | QueryInt _ | TxQueryInt _ | PeerCred => result Z
  | SetMaxOpenConns _ | SetReady _ | Go _ | StopRun | Shutdown => unit
  | Select => option (task * option error) (* [None]: the context is done *)
  | Receive _ => option error
  | _ => result unit
  end.
Abbreviation D := (prog dcall).

Definition unless_over {A} (t : text) (next : D (result A)) : D (result A) :=
  e ← call DCtxErr; match e : option error with Some e => mret (Err (Wrapf t e)) | None => next end.

(** One more call, whose result is ignored, before an error is returned. *)
Definition failing_after {A} (c : dcall) (e : error) : D (result A) := _ ← call c; mret (Err e).

(** ** Opening the store *)
Definition schemaVersion : Z := 4.
Definition busyQuery : string := "PRAGMA busy_timeout".
Definition keysQuery : string := "PRAGMA foreign_keys".
Definition walQuery : string := "PRAGMA journal_mode = WAL".
Definition versionQuery : string := "PRAGMA user_version".
Definition countQuery : string := "SELECT COUNT(*) FROM schema_migrations WHERE version IN (1, 2, 3, 4)".

(** The data source name. *)
Definition dsn (absPath : string) : list Z :=
  URL_String (with_query (MkURL (bytes "file") [] None [] (bytes absPath) [] false false [] [])
    (Values_Encode [(bytes "_busy_timeout", bytes "5000"); (bytes "_foreign_keys", bytes "on")])).

(** The [switch] with its [fallthrough]s: migrations [from], [from + 1], ... 4. *)
Definition migrationError (n : Z) : text := Sprintf "apply state migration %d: %w" [FormatInt n].
Definition migrate_from (version : Z) (next : D (result unit)) : D (result unit) :=
  let step n next := got_as (migrationError n) (call (TxExec (Migration n))) (λ _ : unit, next) in
  if version =? 0 then step 1 (step 2 (step 3 (step 4 next)))
  else if version =? 1 then step 2 (step 3 (step 4 next))
  else if version =? 2 then step 3 (step 4 next)
  else if version =? 3 then step 4 next
  else if version =? schemaVersion then next
  else mret (Err (Errorf (Sprintf "unsupported state schema version %d (supported: %d)" [FormatInt version; FormatInt schemaVersion]))).
Definition verifyMigrations (next : D (result unit)) : D (result unit) :=
  got_as (lit "verify state migrations: %w") (call (TxQueryInt countQuery)) (λ count : Z,
  if negb (count =? schemaVersion)
  then mret (Err (Errorf (Sprintf "state migration metadata incomplete: %d of %d" [FormatInt count; FormatInt schemaVersion])))
  else next).
Definition recordVersion (version : Z) (next : D (result unit)) : D (result unit) :=
  if negb (version =? schemaVersion)
  then got_as (lit "record state schema version: %w") (call (TxExec SetUserVersion)) (λ _ : unit, next)
  else next.
Definition commit : D (result unit) :=
  got_as (lit "commit state migration: %w") (call Commit) (λ _ : unit, mret (Ok tt)).
(** The transaction; its deferred [Rollback] does nothing after a commit. *)
Definition migrateTx : D (result unit) :=
  got_as (lit "read state schema version: %w") (call (TxQueryInt versionQuery)) (λ version : Z,
  migrate_from version (verifyMigrations (recordVersion version commit))).
Definition migrate : D (result unit) :=
  got_as (lit "begin state migration: %w") (call BeginTx) (λ _ : unit,
  r ← migrateTx; _ ← call Rollback; mret r).
Definition checkPragmas (next : D (result unit)) : D (result unit) :=
  got_as (lit "verify SQLite busy timeout: %w") (call (QueryInt busyQuery)) (λ busyTimeout : Z,
  if negb (busyTimeout =? 5000) then mret (Err (Errorf (Sprintf "SQLite refused busy timeout: %d" [FormatInt busyTimeout])))
  else
  got_as (lit "verify SQLite foreign keys: %w") (call (QueryInt keysQuery)) (λ foreignKeys : Z,
  if negb (foreignKeys =? 1) then mret (Err (Errorf (Sprintf "SQLite refused foreign keys: %d" [FormatInt foreignKeys])))
  else
  got_as (lit "enable SQLite WAL: %w") (call (QueryText walQuery)) (λ mode : string,
  if mode !=? "wal" then mret (Err (Errorf (Sprintf "SQLite refused WAL mode: %s" [mode])))
  else next))).
(** An open database that is not handed out is closed. *)
Definition closing_db (m : D (result unit)) : D (result unit) :=
  r ← m;
  match r with
  | Ok _ => mret (Ok tt)
  | Err e => failing_after CloseDB e
  end.
Definition Open (Dir : string → string) (path : string) : D (result unit) :=
  unless_over (lit "open state: %w") (
  if path ==? "" then mret (Err (Errorf (lit "open state: empty database path"))) else
  got_as (lit "create state directory: %w") (call (DMkdirAll (Dir path) 448)) (λ _ : unit,
  got_as (lit "create state file: %w") (call (DOpenFile path 384)) (λ _ : unit,
  got_as (lit "close state file: %w") (call DCloseFile) (λ _ : unit,
  got_as (lit "protect state file: %w") (call (DChmod path 384)) (λ _ : unit,
  got_as (lit "resolve state file path: %w") (call (DAbs path)) (λ absPath : string,
  got_as (lit "open SQLite: %w") (call (SqlOpen (dsn absPath))) (λ _ : unit,
  _ ← call (SetMaxOpenConns 1);
  closing_db (checkPragmas migrate)))))))).

(** ** The hook's listener *)
Definition not_exist : error := ErrIO "file does not exist".
Definition bindPrivate (path : string) : D (result unit) :=
  got_as (lit "listen private hook socket: %w") (call (ListenUnix path)) (λ _ : unit,
  private ← call (DChmod path 384);
  match private : result unit with
  | Err e => failing_after CloseUnix e
  | Ok _ => mret (Ok tt)
  end).
Definition Listen (path : string) : D (result unit) :=
  e ← call DCtxErr;
  match e : option error with
  | Some e => mret (Err e)
  | None =>
      found ← call (DLstat path);
      match found : result unit with
      | Ok _ => mret (Err (Errorf (lit "hook socket path already exists")))
      | Err e => if negb (e ==? not_exist) then mret (Err e) else bindPrivate path
      end
  end.
Definition allowedPeer (uid : Z) : bool := uid =? 0.
(** [Accept]; [None] after [fuel] peers that were refused. *)
Fixpoint Accept (fuel : nat) : D (option (result unit)) :=
  match fuel with
  | O => mret None
  | S fuel' =>
      conn ← call AcceptUnix;
      match conn : result unit with
      | Err e => mret (Some (Err e))
      | Ok _ =>
          cred ← call PeerCred;
          if match cred : result Z with Ok uid => allowedPeer uid | Err _ => false end then mret (Some (Ok tt))
          else _ ← call ConnClose; Accept fuel'
      end
  end.

(** ** Serving *)
Definition ErrServerClosed : error := ErrIO "http: Server closed".
Definition Canceled : error := ErrIO "context canceled".
Definition benign (t : task) (e : option error) : bool :=
  match e with
  | None => true
  | Some e => errors_Is e (match t with TServer | THook => ErrServerClosed | TController | TInstances => Canceled end)
  end.
Definition task_text (t : task) : text :=
  match t with
  | THook => lit "serve private hook: %w"
  | TServer => lit "serving the API: %w"
  | TController => lit "running VPC reconciler: %w"
  | TInstances => lit "running instance reconciler: %w"
  end.
(** The first error that is not the expected one, in the order of the code. *)
Fixpoint first_failure (l : list (task * option error)) : result unit :=
  match l with
  | [] => Ok tt
  | (t, e) :: l' =>
      match e with
      | Some err => if benign t e then first_failure l' else Err (Wrapf (task_text t) err)
      | None => first_failure l'
      end
  end.
(** [if !exited { err = <-done }] *)
Definition join (ended : option (task * option error)) (t : task) : D (option error) :=
  match ended with
  | Some (t', e) => if decide (t' = t) then mret e else call (Receive t)
  | None => call (Receive t)
  end.

Definition sweepFailed (t : text) (e : error) : D (result unit) :=
  _ ← call Shutdown; _ ← call (Receive TServer); _ ← call (Receive THook); mret (Err (Wrapf t e)).
(** From the first sweep to the last join. *)
Definition work : D (result unit) :=
  vpcs ← call (Sweep TController);
  match vpcs : result unit with
  | Err e => sweepFailed (lit "initial VPC reconcile sweep: %w") e
  | Ok _ =>
      instances ← call (Sweep TInstances);
      match instances : result unit with
      | Err e => sweepFailed (lit "initial instance reconcile sweep: %w") e
      | Ok _ =>
          _ ← call (SetReady true); _ ← call (Go TController); _ ← call (Go TInstances);
          ended ← call Select;
          _ ← call (SetReady false); _ ← call StopRun; _ ← call Shutdown;
          serveErr ← join ended TServer; controllerErr ← join ended TController;
          instanceErr ← join ended TInstances; hookErr ← join ended THook;
          _ ← call StopRun;
          mret (first_failure [(THook, hookErr); (TServer, serveErr); (TController, controllerErr); (TInstances, instanceErr)])
      end
  end.
(** [defer ...Close()] *)
Definition finally {A} (m : D A) (c : dcall) : D A := r ← m; _ ← call c; mret r.
Definition serve (Dir : string → string) (tokenPath dbPath hookPath : string) : D (result unit) :=
  got_as (lit "loading API token: %w") (call (LoadToken tokenPath)) (λ _ : string,
  got_as (lit "opening appliance state: %w") (Open Dir dbPath) (λ _,
  finally (
    got_as (lit "open private hook listener: %w") (Listen hookPath) (λ _,
    finally (_ ← call (Go THook); _ ← call (Go TServer); work) CloseUnix)) CloseDB)).
Definition SocketPath : string := "/run/nephos/hook.sock".
Definition run (Dir : string → string) : D (result unit) :=
  got_as (lit "listening for the API: %w") (call (ListenTCP ":7788")) (λ _ : unit,
  finally (serve Dir "/var/lib/nephos/secrets/api-token" "/var/lib/nephos/state/nephos.db" SocketPath) CloseTCP).
(** [realMain]: the exit code. *)
Definition realMain (Dir : string → string) : D Z :=
  r ← run Dir; mret (match r with Ok _ => 0 | Err _ => 1 end).
