(* ===== verification/DaemonOrder.v ===== *)
(** The daemon starts and stops in order, whatever its parts do. *)

From S2P Require Import Prelude Errors GoStrings Url Programs Daemon.
Local Open Scope Z_scope.

Abbreviation history := (list (event dcall)).

(** ** What a history has left open *)
Record world := MkWorld {
  w_live : list task; (* started and not yet joined *)
  w_results : list (task * option error);
  w_db : bool; w_unix : bool; w_tcp : bool; w_ready : bool
}.
Definition nothing : world := MkWorld [] [] false false false false.
Definition same_task (a b : task) : bool :=
  match a, b with
  | TServer, TServer | THook, THook | TController, TController | TInstances, TInstances => true
  | _, _ => false
  end.
Definition without (t : task) (l : list task) : list task := List.filter (λ t', negb (same_task t' t)) l.
Definition step (w : world) (e : event dcall) : world :=
  let '(MkWorld live results db unix tcp ready) := w in
  match e with
  | Ev (Go t) _ => MkWorld (live ++ [t]) results db unix tcp ready
  | Ev (Receive t) r => MkWorld (without t live) (results ++ [(t, r)]) db unix tcp ready
  | Ev Select (Some (t, r)) => MkWorld (without t live) (results ++ [(t, r)]) db unix tcp ready
  | Ev (SqlOpen _) (Ok _) => MkWorld live results true unix tcp ready
  | Ev CloseDB _ => MkWorld live results false unix tcp ready
  | Ev (ListenUnix _) (Ok _) => MkWorld live results db true tcp ready
  | Ev CloseUnix _ => MkWorld live results db false tcp ready
  | Ev (ListenTCP _) (Ok _) => MkWorld live results db unix true ready
  | Ev CloseTCP _ => MkWorld live results db unix false ready
  | Ev (SetReady b) _ => MkWorld live results db unix tcp b
  | _ => w
  end.
Definition world_of (t : history) : world := foldl step nothing t.
Lemma world_snoc t e : world_of (t ++ [e]) = step (world_of t) e.
Proof. unfold world_of. by rewrite foldl_app. Qed.

(** ** What may be done when *)
Definition migrated (t : history) (v : Z) : Prop :=
  Ev (TxQueryInt versionQuery) (Ok v) ∈ t ∧ 0 ≤ v ≤ 4 ∧ (∀ n, v < n ≤ 4 → Ev (TxExec (Migration n)) (Ok tt) ∈ t) ∧
  Ev (TxQueryInt countQuery) (Ok 4) ∈ t.
Definition checked_db (t : history) : Prop :=
  Ev (QueryInt busyQuery) (Ok 5000) ∈ t ∧ Ev (QueryInt keysQuery) (Ok 1) ∈ t ∧ Ev (QueryText walQuery) (Ok "wal") ∈ t.
(** The socket is private. *)
Definition private_socket (t : history) (path : string) : Prop :=
  Ev (ListenUnix path) (Ok tt) ∈ t ∧ Ev (DChmod path 384) (Ok tt) ∈ t.
Definition swept (t : history) (which : task) : Prop := Ev (Sweep which) (Ok tt) ∈ t.
Definition servers : list task := [THook; TServer].

Definition ordered (dbPath hookPath tokenPath : string) (t : history) (c : dcall) : Prop :=
  let w := world_of t in
  match c with
  | DMkdirAll _ perm => perm = 448
  | DOpenFile path perm => path = dbPath ∧ perm = 384
  | SqlOpen _ => Ev (DChmod dbPath 384) (Ok tt) ∈ t
  | BeginTx => checked_db t
  | TxExec (Migration n) => Ev BeginTx (Ok tt) ∈ t ∧
      ∃ v, Ev (TxQueryInt versionQuery) (Ok v) ∈ t ∧ v < n ≤ 4 ∧ ∀ m, v < m < n → Ev (TxExec (Migration m)) (Ok tt) ∈ t
  | TxExec SetUserVersion => ∃ v, migrated t v ∧ v ≠ 4
  | Commit => ∃ v, migrated t v ∧ (v ≠ 4 → Ev (TxExec SetUserVersion) (Ok tt) ∈ t)
  | ListenUnix path => path = hookPath ∧ Ev (DLstat path) (Err not_exist) ∈ t
  | Go TServer | Go THook =>
      (∃ token, Ev (LoadToken tokenPath) (Ok token) ∈ t) ∧ Ev Commit (Ok tt) ∈ t ∧ private_socket t hookPath ∧
      w_db w = true ∧ w_unix w = true
  | Sweep TInstances => swept t TController ∧ w_live w = servers
  | Sweep _ => w_live w = servers
  | SetReady true => swept t TController ∧ swept t TInstances ∧ w_live w = servers
  | Go _ => w_ready w = true
  | Receive task => task ∈ w_live w ∧ Ev Shutdown tt ∈ t
  | Select => w_live w = servers ++ [TController; TInstances] ∧ w_ready w = true
  | Shutdown => w_ready w = false
  | CloseDB => w_db w = true ∧ w_live w = [] ∧ w_ready w = false
  | CloseUnix => w_unix w = true ∧ w_live w = [] ∧ w_ready w = false
  | CloseTCP => w_tcp w = true ∧ w_db w = false ∧ w_unix w = false ∧ w_live w = []
  | AcceptUnix | PeerCred | ConnClose => False
  | _ => True
  end.

(** ** Proof steps *)
Ltac wp_do := match goal with |- wp ?a (call ?c) ?t ?Q => refine (wp_call a c t Q _ _) end.
Ltac in_hist :=
  first
    [ assumption
    | apply list_elem_of_singleton; reflexivity
    | apply elem_of_app; right; in_hist
    | apply elem_of_app; left; in_hist ].
Ltac wp_try := first [apply wp_got_as | apply wp_got]; wp_do;
  [|let a := fresh "a" in let e := fresh "e" in intros [a|e]; cbv beta iota;
    [lazymatch type of a with unit => destruct a | _ => idtac end|]].
(** A task is in a list of tasks. *)
Ltac in_live := apply (bool_decide_unpack _); vm_compute; exact I.
(** The world after the events that were added. *)
Ltac world := repeat rewrite world_snoc; match goal with H : world_of _ = _ |- _ => rewrite H end; reflexivity.

Section order.
Context (Dir : string → string) (tokenPath dbPath hookPath : string).
Let allowed := ordered dbPath hookPath tokenPath.

(** The store is open, with every migration in it. *)
Definition set_db (w : world) (b : bool) : world :=
  MkWorld (w_live w) (w_results w) b (w_unix w) (w_tcp w) (w_ready w).
(** A history that only adds to [t] and leaves the world as it is. *)
Definition onward (t t' : history) : Prop := t `prefix_of` t' ∧ world_of t' = world_of t.
Lemma onward_refl t : onward t t.
Proof. done. Qed.
Lemma onward_snoc t t' e : onward t t' → step (world_of t') e = world_of t' → onward t (t' ++ [e]).
Proof. intros [Hp Hw] Hs. split; [by apply prefix_app_r|]. by rewrite world_snoc, Hs. Qed.
Lemma onward_trans t t' t'' : onward t t' → onward t' t'' → onward t t''.
Proof. intros [H1 H2] [H3 H4]. split; [by etrans|congruence]. Qed.
Lemma onward_in t t' e : onward t t' → e ∈ t → e ∈ t'.
Proof. intros [Hp _]. by eapply prefix_elem. Qed.
Lemma still_world w e :
  match ev_call e with
  | Go _ | Receive _ | Select | SqlOpen _ | CloseDB | ListenUnix _ | CloseUnix | ListenTCP _ | CloseTCP | SetReady _ => False
  | _ => True
  end → step w e = w.
Proof. destruct w, e as [[] b]; try done. Qed.
(** A socket or a database that could not be opened. *)
Lemma refused_db w uri e : step w (Ev (SqlOpen uri) (Err e)) = w.
Proof. by destruct w. Qed.
Lemma refused_unix w path e : step w (Ev (ListenUnix path) (Err e)) = w.
Proof. by destruct w. Qed.
Lemma refused_tcp w address e : step w (Ev (ListenTCP address) (Err e)) = w.
Proof. by destruct w. Qed.
Ltac onwards := repeat (apply onward_snoc; [|first [by apply still_world|apply refused_db|apply refused_unix|apply refused_tcp]]); first [apply onward_refl|assumption].

Lemma migration_wp v n t (next : D (result unit)) (Q : history → result unit → Prop) :
  Ev BeginTx (Ok tt) ∈ t → Ev (TxQueryInt versionQuery) (Ok v) ∈ t → v < n ≤ 4 →
  (∀ m, v < m < n → Ev (TxExec (Migration m)) (Ok tt) ∈ t) → (∀ t' e, onward t t' → Q t' (Err e)) →
  (∀ t', onward t t' → (∀ m, v < m < n + 1 → Ev (TxExec (Migration m)) (Ok tt) ∈ t') → wp allowed next t' Q) →
  wp allowed (got_as (migrationError n) (call (TxExec (Migration n))) (λ _ : unit, next)) t Q.
Proof.
  intros Hb Hv Hn Hm He Ho. wp_try; [split; [done|]; by exists v| |apply He; onwards].
  apply Ho; [onwards|]. intros m Hm'. destruct (decide (m = n)) as [->|]; [in_hist|]. apply elem_of_app. left. apply Hm. lia.
Qed.
Lemma migrate_from_wp v t (next : D (result unit)) (Q : history → result unit → Prop) :
  Ev BeginTx (Ok tt) ∈ t → Ev (TxQueryInt versionQuery) (Ok v) ∈ t → (∀ t' e, onward t t' → Q t' (Err e)) →
  (∀ t', onward t t' → 0 ≤ v ≤ 4 → (∀ n, v < n ≤ 4 → Ev (TxExec (Migration n)) (Ok tt) ∈ t') → wp allowed next t' Q) →
  wp allowed (migrate_from v next) t Q.
Proof.
  intros Hb Hv He Hn. unfold migrate_from. cbv zeta.
  assert (∀ k t', onward t t' → v < k ≤ 4 → (∀ m, v < m < k → Ev (TxExec (Migration m)) (Ok tt) ∈ t') → ∀ next',
    (∀ t'', onward t t'' → (∀ m, v < m < k + 1 → Ev (TxExec (Migration m)) (Ok tt) ∈ t'') → wp allowed next' t'' Q) →
    wp allowed (got_as (migrationError k) (call (TxExec (Migration k))) (λ _ : unit, next')) t' Q) as Hs.
  { intros k t' Ht Hk Hm next' H'. apply (migration_wp v); [by eapply onward_in|by eapply onward_in|done|done|..].
    - intros t'' e Ht'. apply He. by eapply onward_trans.
    - intros t'' Ht'. apply H'. by eapply onward_trans. }
  assert (∀ t', onward t t' → 0 ≤ v ≤ 4 → (∀ m, v < m < 4 + 1 → Ev (TxExec (Migration m)) (Ok tt) ∈ t') → wp allowed next t' Q) as Hend.
  { intros t' Ht Hv' Hm. apply Hn; [done|done|]. intros n Hn'. apply Hm. lia. }
  pose proof (onward_refl t) as Ht.
  destruct (Z.eqb_spec v 0) as [E|?].
  { subst v. apply (Hs 1 t Ht); [lia|intros; lia|]. intros t1 H1 M1. apply (Hs 2 t1 H1); [lia|done|]. intros t2 H2 M2.
    apply (Hs 3 t2 H2); [lia|done|]. intros t3 H3 M3. apply (Hs 4 t3 H3); [lia|done|]. intros t4 H4 M4. by apply Hend. }
  destruct (Z.eqb_spec v 1) as [E|?].
  { subst v. apply (Hs 2 t Ht); [lia|intros; lia|]. intros t2 H2 M2. apply (Hs 3 t2 H2); [lia|done|]. intros t3 H3 M3.
    apply (Hs 4 t3 H3); [lia|done|]. intros t4 H4 M4. by apply Hend. }
  destruct (Z.eqb_spec v 2) as [E|?].
  { subst v. apply (Hs 3 t Ht); [lia|intros; lia|]. intros t3 H3 M3. apply (Hs 4 t3 H3); [lia|done|]. intros t4 H4 M4. by apply Hend. }
  destruct (Z.eqb_spec v 3) as [E|?].
  { subst v. apply (Hs 4 t Ht); [lia|intros; lia|]. intros t4 H4 M4. by apply Hend. }
  destruct (Z.eqb_spec v schemaVersion) as [E|?].
  { subst v. apply Hend; [done|done|]. unfold schemaVersion. intros; lia. }
  by apply wp_ret, He.
Qed.
Lemma migrateTx_wp t (Q : history → result unit → Prop) :
  Ev BeginTx (Ok tt) ∈ t → (∀ t' e, onward t t' → Q t' (Err e)) →
  (∀ t', onward t t' → Ev Commit (Ok tt) ∈ t' → Q t' (Ok tt)) → wp allowed migrateTx t Q.
Proof.
  intros Hb He Ho. unfold migrateTx. wp_try; [done| |apply He; onwards]. rename a into v.
  assert (onward t (t ++ [Ev (TxQueryInt versionQuery) (Ok v)])) as H1 by onwards.
  apply migrate_from_wp; [by eapply onward_in|in_hist|intros t' e H2; apply He; by eapply onward_trans|].
  intros t2 H2 Hv Hm. pose proof (onward_trans _ _ _ H1 H2) as H02. unfold verifyMigrations.
  assert (Ev (TxQueryInt versionQuery) (Ok v) ∈ t2) as Hq by (eapply onward_in; [exact H2|in_hist]).
  wp_try; [done| |apply He; onwards]. destruct (Z.eqb_spec a schemaVersion) as [->|]; cbn [negb]; [|apply wp_ret, He; onwards].
  set (t3 := t2 ++ _). assert (migrated t3 v) as Hmig.
  { split; [by apply elem_of_app; left|]. split; [done|]. split; [intros n Hn; apply elem_of_app; left; by apply Hm|]. unfold t3. in_hist. }
  assert (onward t t3) as H3 by (unfold t3; onwards).
  assert (∀ t4 (Hcommit : ∃ v, migrated t4 v ∧ (v ≠ 4 → Ev (TxExec SetUserVersion) (Ok tt) ∈ t4)), onward t t4 →
    wp allowed commit t4 Q) as Hfin.
  { intros t4 Hc H4. unfold commit. wp_try; [done| |apply He; onwards]. apply wp_ret, Ho; [onwards|in_hist]. }
  unfold recordVersion. destruct (Z.eqb_spec v schemaVersion) as [Ev4|Hne]; cbn [negb].
  - apply Hfin; [|done]. exists v. split; [done|]. by intros [].
  - wp_try; [by exists v| |apply He; onwards]. apply Hfin; [|onwards]. exists v. split; [|intros _; in_hist].
    destruct Hmig as (M1 & M2 & M3 & M4). split; [by apply elem_of_app; left|]. split; [done|].
    split; [intros n Hn; apply elem_of_app; left; by apply M3|by apply elem_of_app; left].
Qed.
Lemma migrate_wp t (Q : history → result unit → Prop) :
  checked_db t → (∀ t' e, onward t t' → Q t' (Err e)) → (∀ t', onward t t' → Ev Commit (Ok tt) ∈ t' → Q t' (Ok tt)) →
  wp allowed migrate t Q.
Proof.
  intros Hc He Ho. unfold migrate. wp_try; [done| |apply He; onwards]. assert (onward t (t ++ [Ev BeginTx (Ok tt)])) as H1 by onwards.
  apply wp_bind, migrateTx_wp; [in_hist|..].
  - intros t' e H2. pose proof (onward_trans _ _ _ H1 H2). apply wp_bind. wp_do; [done|]. intros b. apply wp_ret, He. onwards.
  - intros t' H2 Hcom. pose proof (onward_trans _ _ _ H1 H2). apply wp_bind. wp_do; [done|]. intros b. apply wp_ret, Ho; [onwards|in_hist].
Qed.
Lemma checkPragmas_wp t next (Q : history → result unit → Prop) :
  (∀ t' e, onward t t' → Q t' (Err e)) → (∀ t', onward t t' → checked_db t' → wp allowed next t' Q) →
  wp allowed (checkPragmas next) t Q.
Proof.
  intros He Ho. unfold checkPragmas. wp_try; [done| |apply He; onwards].
  destruct (Z.eqb_spec a 5000) as [->|]; cbn [negb]; [|apply wp_ret, He; onwards].
  wp_try; [done| |apply He; onwards]. destruct (Z.eqb_spec a 1) as [->|]; cbn [negb]; [|apply wp_ret, He; onwards].
  wp_try; [done| |apply He; onwards]. destruct (a ==? "wal") eqn:Ew; cbn [negb]; [|apply wp_ret, He; onwards].
  apply (proj1 (beq_true _ _)) in Ew as ->. apply Ho; [onwards|]. split; [in_hist|]. split; in_hist.
Qed.

(** A world before the store is opened, and the one with the store open. *)
Definition idle (w : world) : Prop := w_live w = [] ∧ w_ready w = false ∧ w_db w = false.
Lemma Open_wp t (Q : history → result unit → Prop) :
  idle (world_of t) → (∀ t' e, onward t t' → Q t' (Err e)) →
  (∀ t', t `prefix_of` t' → world_of t' = set_db (world_of t) true → Ev Commit (Ok tt) ∈ t' → Q t' (Ok tt)) →
  wp allowed (Open Dir dbPath) t Q.
Proof.
  intros (Hl & Hr & Hd) He Ho. unfold Open, unless_over. apply wp_bind. wp_do; [done|]. intros [e|]; [apply wp_ret, He; onwards|].
  destruct (dbPath ==? ""); [apply wp_ret, He; onwards|]. do 3 (wp_try; [done| |apply He; onwards]).
  wp_try; [done| |apply He; onwards]. wp_try; [done| |apply He; onwards]. wp_try; [in_hist| |apply He; onwards].
  apply wp_bind. wp_do; [done|]. intros []. match goal with |- wp _ _ ?u _ => set (t1 := u) end.
  assert (t `prefix_of` t1 ∧ world_of t1 = set_db (world_of t) true) as [P1 W1].
  { split; [unfold t1; rewrite <- !app_assoc; by apply prefix_app_r|]. unfold t1. rewrite !world_snoc. by destruct (world_of t). }
  assert (∀ t' e, onward t1 t' → wp allowed (failing_after CloseDB e) t' Q) as Hfail.
  { intros t' e [P2 W2]. unfold failing_after. apply wp_bind. wp_do.
    - cbn [ordered allowed]. unfold allowed, ordered. cbv zeta. rewrite W2, W1. done.
    - intros b. apply wp_ret, He. split; [apply prefix_app_r; by etrans|]. rewrite world_snoc, W2, W1. destruct (world_of t). cbn in *. by subst. }
  unfold closing_db. apply wp_bind, checkPragmas_wp; [intros t' e H'; by apply Hfail|].
  intros t2 H2 Hc2. apply migrate_wp; [done| |].
  - intros t' e H'. apply Hfail. by eapply onward_trans.
  - intros t' H' Hcom. pose proof (onward_trans _ _ _ H2 H') as [P3 W3]. apply wp_ret, Ho; [by etrans|by rewrite W3|done].
Qed.
Lemma Listen_wp t tcp (Q : history → result unit → Prop) :
  world_of t = MkWorld [] [] true false tcp false → (∀ t' e, onward t t' → Q t' (Err e)) →
  (∀ t', t `prefix_of` t' → world_of t' = MkWorld [] [] true true tcp false → private_socket t' hookPath → Q t' (Ok tt)) →
  wp allowed (Listen hookPath) t Q.
Proof.
  intros Hw He Ho. unfold Listen. apply wp_bind. wp_do; [done|]. intros [e|]; [apply wp_ret, He; onwards|].
  apply wp_bind. wp_do; [done|]. intros [[]|e]; [apply wp_ret, He; onwards|]. destruct (e ==? not_exist) eqn:Ee; cbn [negb]; [|apply wp_ret, He; onwards].
  apply (proj1 (beq_true _ _)) in Ee as ->. unfold bindPrivate. wp_try; [split; [done|in_hist]| |apply He; onwards].
  apply wp_bind. wp_do; [done|]. intros [[]|e].
  - apply wp_ret, Ho; [rewrite <- !app_assoc; by apply prefix_app_r|world|split; in_hist].
  - unfold failing_after. apply wp_bind. wp_do; [unfold allowed, ordered; cbv zeta; rewrite !world_snoc, Hw; done|]. intros b. apply wp_ret, He.
    split; [rewrite <- !app_assoc; by apply prefix_app_r|]. rewrite Hw. world.
Qed.

(** At the end of [work]: everything that was started is joined. *)
Definition joined (tcp : bool) (t : history) (r : result unit) : Prop :=
  ∃ results, world_of t = MkWorld [] results true true tcp false ∧
    (r = Ok tt → swept t TController ∧ swept t TInstances ∧ (∀ k, k ∈ results.*1) ∧ Forall (λ '(k, e), benign k e = true) results).
Lemma sweepFailed_wp t tx e tcp :
  world_of t = MkWorld servers [] true true tcp false → wp allowed (sweepFailed tx e) t (joined tcp).
Proof.
  intros Hw. unfold sweepFailed. apply wp_bind. wp_do; [unfold allowed, ordered; cbv zeta; by rewrite Hw|]. intros [].
  apply wp_bind. wp_do; [unfold allowed, ordered; cbv zeta; rewrite !world_snoc, Hw; split; [in_live|in_hist]|]. intros r1.
  apply wp_bind. wp_do; [unfold allowed, ordered; cbv zeta; rewrite !world_snoc, Hw; split; [in_live|in_hist]|]. intros r2.
  apply wp_ret. exists [(TServer, r1); (THook, r2)]. split; [world|done].
Qed.
Lemma first_failure_Ok l : first_failure l = Ok tt → Forall (λ '(k, e), benign k e = true) l.
Proof.
  induction l as [|[k [e|]] l IH]; cbn [first_failure]; [constructor| |by constructor; auto].
  destruct (benign k (Some e)) eqn:E; [|done]. intros H. constructor; [done|by apply IH].
Qed.
Lemma join_wp ended t k w (Q : history → option error → Prop) :
  world_of t = w → Ev Shutdown tt ∈ t → (∀ e, ended ≠ Some (k, e)) → k ∈ w_live w →
  (∀ t' e, t `prefix_of` t' → world_of t' = step w (Ev (Receive k) e) → Q t' e) → wp allowed (join ended k) t Q.
Proof.
  intros Hw Hs Hne Hin HQ. assert (wp allowed (call (Receive k)) t Q) as H.
  { wp_do; [unfold allowed, ordered; cbv zeta; by rewrite Hw|]. intros e. apply HQ; [by apply prefix_app_r|]. by rewrite world_snoc, Hw. }
  unfold join. destruct ended as [[k' e]|]; [|done]. destruct (decide (k' = k)) as [->|]; [by destruct (Hne e)|done].
Qed.
(** The end of [work]: the four results are in, in whatever way. *)
Definition ending (ended : option (task * option error)) : D (result unit) :=
  serveErr ← join ended TServer; controllerErr ← join ended TController;
  instanceErr ← join ended TInstances; hookErr ← join ended THook;
  _ ← call StopRun;
  mret (first_failure [(THook, hookErr); (TServer, serveErr); (TController, controllerErr); (TInstances, instanceErr)]).
Definition after_select (ended : option (task * option error)) (tcp : bool) : world :=
  step (MkWorld (servers ++ [TController; TInstances]) [] true true tcp false) (Ev Select ended).
Lemma joined_end tcp t t' results l :
  t `prefix_of` t' → swept t TController → swept t TInstances → world_of t' = MkWorld [] results true true tcp false →
  results ≡ₚ l → l.*1 = [THook; TServer; TController; TInstances] → joined tcp t' (first_failure l).
Proof.
  intros Hp H1 H2 Hw Hperm Hl. exists results. split; [done|]. intros Hok%first_failure_Ok.
  split; [by eapply prefix_elem|]. split; [by eapply prefix_elem|]. split; [|by rewrite Hperm].
  intros k. rewrite Hperm, Hl. destruct k; in_live.
Qed.
Ltac next_join Hs :=
  apply wp_bind; first
    [ unfold join at 1; rewrite decide_True by done; apply wp_ret
    | eapply join_wp; [eassumption|eapply prefix_elem; [|exact Hs]; (eassumption || done)|by intros ? [=]|in_live|];
      let t := fresh "t" in let e := fresh "e" in let Hp := fresh "Hp" in let Hw := fresh "Hw" in
      intros t e Hp Hw; cbn in Hw;
      match goal with H : ?a `prefix_of` ?b, H' : ?b `prefix_of` t |- _ => pose proof (transitivity H H') ; clear H H' | _ => idtac end ].
Lemma ending_wp t ended tcp :
  world_of t = after_select ended tcp → swept t TController → swept t TInstances → Ev Shutdown tt ∈ t →
  wp allowed (ending ended) t (joined tcp).
Proof.
  intros Hw H1 H2 Hs. unfold ending. assert (t `prefix_of` t) as P0 by done. unfold after_select in Hw.
  destruct ended as [[k e]|]; [destruct k|]; cbn in Hw.
  all: next_join Hs; next_join Hs; next_join Hs; next_join Hs.
  all: apply wp_bind; wp_do; [done|]; intros []; apply wp_ret; eapply (joined_end tcp t);
    [by apply prefix_app_r|done|done|rewrite world_snoc; match goal with H : world_of ?u = _ |- step (world_of ?u) _ = _ => rewrite H end; reflexivity|solve_Permutation|done].
Qed.
Lemma work_wp t tcp : world_of t = MkWorld servers [] true true tcp false → wp allowed work t (joined tcp).
Proof.
  intros Hw. unfold work. apply wp_bind. wp_do; [unfold allowed, ordered; cbv zeta; by rewrite Hw|]. intros [[]|e].
  2: { apply sweepFailed_wp. world. }
  apply wp_bind. wp_do; [unfold allowed, ordered; cbv zeta; split; [unfold swept; in_hist|]; world|]. intros [[]|e].
  2: { apply sweepFailed_wp. world. }
  apply wp_bind. wp_do; [unfold allowed, ordered; cbv zeta; split; [unfold swept; in_hist|]; split; [unfold swept; in_hist|]; world|]. intros [].
  apply wp_bind. wp_do; [unfold allowed, ordered; cbv zeta; world|]. intros []. apply wp_bind. wp_do; [unfold allowed, ordered; cbv zeta; world|]. intros [].
  apply wp_bind. wp_do; [unfold allowed, ordered; cbv zeta; split; world|]. intros ended.
  apply wp_bind. wp_do; [done|]. intros []. apply wp_bind. wp_do; [done|]. intros [].
  apply wp_bind. wp_do; [unfold allowed, ordered; cbv zeta; rewrite !world_snoc, Hw; destruct ended as [[]|]; done|]. intros [].
  apply ending_wp; [rewrite !world_snoc, Hw; by destruct ended as [[]|]|unfold swept; in_hist|unfold swept; in_hist|in_hist].
Qed.

Definition finished (tcp : bool) (t : history) (r : result unit) : Prop :=
  ∃ results, world_of t = MkWorld [] results false false tcp false ∧
    (r = Ok tt → swept t TController ∧ swept t TInstances ∧ (∀ k, k ∈ results.*1) ∧ Forall (λ '(k, e), benign k e = true) results).
Lemma serve_wp t tcp :
  world_of t = MkWorld [] [] false false tcp false → wp allowed (serve Dir tokenPath dbPath hookPath) t (finished tcp).
Proof.
  intros Hw. unfold serve. assert (∀ t' (e : error), world_of t' = world_of t → finished tcp t' (Err e)) as Hf.
  { intros t' e E. exists []. split; [by rewrite E|done]. }
  wp_try; [done| |apply Hf; rewrite world_snoc; by apply still_world]. rename a into token. set (t1 := t ++ _).
  assert (world_of t1 = world_of t) as W1 by (unfold t1; rewrite world_snoc; by apply still_world).
  apply wp_got_as, Open_wp; [by rewrite W1, Hw|intros t' e [_ E]; apply Hf; by rewrite E|].
  intros t2 P2 W2 Hcom. rewrite W1, Hw in W2. cbn in W2. unfold finally at 1. apply wp_bind, wp_got_as, (Listen_wp _ tcp); [done|..].
  { intros t' e [P3 W3]. apply wp_bind. wp_do; [unfold allowed, ordered; cbv zeta; rewrite W3, W2; done|]. intros b. apply wp_ret.
    exists []. split; [|done]. by rewrite world_snoc, W3, W2. }
  intros t3 P3 W3 Hpriv. assert (Ev (LoadToken tokenPath) (Ok token) ∈ t3) as Htok.
  { eapply prefix_elem; [exact P3|]. eapply prefix_elem; [exact P2|]. unfold t1. in_hist. }
  assert (Ev Commit (Ok tt) ∈ t3) as Hcom3 by (by eapply prefix_elem).
  unfold finally. apply wp_bind, wp_bind. wp_do.
  { unfold allowed, ordered. cbv zeta. rewrite W3. split_and!; [by exists token|done|done..]. }
  intros []. apply wp_bind. wp_do.
  { unfold allowed, ordered. cbv zeta. rewrite world_snoc, W3. split_and!; [exists token; in_hist|in_hist|split; apply elem_of_app; left; apply Hpriv|done|done]. }
  intros []. eapply wp_mono; [apply (work_wp _ tcp); rewrite !world_snoc, W3; done|done|]. cbv beta. intros t4 r (results & W4 & Hr).
  apply wp_bind. wp_do; [unfold allowed, ordered; cbv zeta; by rewrite W4|]. intros b. apply wp_ret, wp_bind.
  wp_do; [unfold allowed, ordered; cbv zeta; by rewrite world_snoc, W4|]. intros b'. apply wp_ret. exists results.
  split; [by rewrite !world_snoc, W4|]. intros Hok. destruct (Hr Hok) as (S1 & S2 & S3 & S4). split_and!; [unfold swept in *; in_hist..|done|done].
Qed.
End order.

(** ** The whole daemon *)
Definition tokenFile : string := "/var/lib/nephos/secrets/api-token".
Definition stateFile : string := "/var/lib/nephos/state/nephos.db".
Lemma run_wp Dir : wp (ordered stateFile SocketPath tokenFile) (Daemon.run Dir) [] (finished false).
Proof.
  unfold Daemon.run. wp_try; [done| |exists []; split; [reflexivity|done]]. unfold finally. apply wp_bind.
  eapply wp_mono; [apply (serve_wp Dir tokenFile stateFile SocketPath _ true); reflexivity|done|].
  cbv beta. intros t r (results & W & Hr). apply wp_bind. wp_do; [unfold ordered; cbv zeta; by rewrite W|]. intros b. apply wp_ret.
  exists results. split; [by rewrite world_snoc, W|]. intros Hok. destruct (Hr Hok) as (S1 & S2 & S3 & S4). split_and!; [unfold swept in *; in_hist..|done|done].
Qed.

(** ** Accepted peers *)
Definition conn_step (n : nat) (e : event dcall) : nat :=
  match e with Ev AcceptUnix (Ok _) => S n | Ev ConnClose _ => pred n | _ => n end.
(** How many connections are open. *)
Definition conns (t : history) : nat := foldl conn_step 0%nat t.
Definition accepts (t : history) (r : option (result unit)) : Prop :=
  match r with
  | Some (Ok _) => conns t = 1%nat ∧ ∃ t0, t = t0 ++ [Ev AcceptUnix (Ok tt); Ev PeerCred (Ok 0)]
  | _ => conns t = 0%nat
  end.
Definition only_accepts (t : history) (c : dcall) : Prop := match c with AcceptUnix | PeerCred | ConnClose => True | _ => False end.
Lemma Accept_wp fuel t : conns t = 0%nat → wp only_accepts (Accept fuel) t accepts.
Proof.
  revert t. induction fuel as [|fuel IH]; intros t Ht; cbn [Accept]; [done|].
  assert (∀ t e, conns (t ++ [e]) = conn_step (conns t) e) as Hsnoc by (intros; unfold conns; by rewrite foldl_app).
  apply wp_bind. wp_do; [done|]. intros [[]|e]; [|apply wp_ret; cbn [accepts]; by rewrite Hsnoc, Ht].
  apply wp_bind. wp_do; [done|]. intros cred. destruct (match cred with Ok uid => allowedPeer uid | Err _ => false end) eqn:E.
  - apply wp_ret. destruct cred as [uid|]; [|done]. apply Z.eqb_eq in E as ->. cbn [accepts]. rewrite !Hsnoc, Ht. split; [done|].
    exists t. by rewrite <- app_assoc.
  - apply wp_bind. wp_do; [done|]. intros b. apply IH. by rewrite !Hsnoc, Ht.
Qed.

(** ** Properties *)

(** C20: Whatever the system, the database and its own parts answer, the daemon starts
    and stops in order.  The state file and its directory are private before SQLite opens
    the file; the missing
    migrations run in order inside one transaction that is committed only with all of
    them in place; the hook's socket is bound only where nothing was, and private
    before it serves.  The servers start when token, store and socket are there, the
    reconcilers after both sweeps succeeded, which is also when readiness is announced;
    readiness is withdrawn before anything is shut down.  No result is waited for that
    cannot come, and every task is joined before the socket, the store and the port
    are closed, which happens on every path.  The daemon ends without error only if
    every part ended as it should.  A connection to the hook is handed on only if its
    peer is root; all others are closed. *)
Theorem daemon_starts_and_stops_in_order {S} (k : handler dcall S) (s : S) Dir fuel :
  (∀ t1 e t2, trace k (Daemon.run Dir) s = t1 ++ e :: t2 → ordered stateFile SocketPath tokenFile t1 (ev_call e)) ∧
  finished false (trace k (Daemon.run Dir) s) (Programs.run k (Daemon.run Dir) s).1 ∧
  accepts (trace k (Accept fuel) s) (Programs.run k (Accept fuel) s).1.
Proof.
  pose proof (wp_sound k _ _ s [] _ (run_wp Dir)) as [H1 H2]. pose proof (wp_sound k _ _ s [] _ (Accept_wp fuel [] eq_refl)) as [H3 _]. done.
Qed.

(** The data source that is opened. *)
Example dsn_example :
  dsn stateFile = bytes "file:///var/lib/nephos/state/nephos.db?_busy_timeout=5000&_foreign_keys=on".
Proof. vm_compute. reflexivity. Qed.
